(* ===== verification/_CoqProject ===== *)
-Q . S2P
Prelude.v
Crc.v
Host.v
Connections.v
Crates.v
ToyCrates.v
TropicTypes.v
TropicFrame.v
TropicL3.v
TropicL3Facts.v
TropicL3Props.v
TropicSession.v
TropicGetInfo.v
TropicCerts.v
TropicStore.v
TropicChip.v
TropicChipFacts.v
TropicChipProps.v
TropicServer.v
TropicWitness.v
AteccTypes.v
AteccHandlers.v
AteccFacts.v
AteccServer.v
AteccProps.v
StsafeTypes.v
StsafeHandlers.v
StsafeFacts.v
StsafeServer.v
StsafeProps.v
Se050Crates.v
Se050Types.v
Se050Store.v
Se050Handlers.v
Se050ObjectMgmt.v
Se050Aes.v
Se050Rsa.v
Se050Ec.v
Se050Dispatch.v
Se050Scp03.v
Se050T1.v
Se050StoreFacts.v
Se050HandlersFacts.v
Se050CryptoFacts.v
Se050EcFacts.v
Se050ChannelFacts.v
Se050T1Facts.v
Se050Server.v
Se050Secure.v
Se050Cipher.v
Se050Keys.v
Se050Persist.v
Se050Access.v
Se050Toy.v
Se050Witness.v
McuCrates.v
Stm32Core.v
Stm32Cryp.v
Stm32Hash.v
Stm32Pka.v
Stm32Chips.v
Stm32Gf128.v
Stm32Engine.v
Stm32Port.v
Stm32CrypPortV1.v
Stm32CrypPortV2.v
Stm32HashPort.v
Stm32PkaFacts.v
Stm32Claims.v
Stm32Firmware.v
Pic32Core.v
Pic32Ce.v
Pic32Chips.v
Pic32Layout.v
Pic32Modes.v
Pic32Chain.v
Pic32Claims.v
Pic32Safety.v
McuRun.v
McuWitness.v
