(* ===== verification/Prelude.v ===== *)
(** * The wolfSSL hardware simulators, in Rocq

    The repository simulates security chips and microcontrollers so that wolfSSL's
    drivers can be tested without hardware.  Four of its programs are Rust crates that
    serve a chip's wire protocol over TCP:

    - TROPIC01Sim, Tropic Square's TROPIC01 behind an SPI bus ([TROPIC01Sim/tropic01-sim]);
    - ATECC608Sim, Microchip's ATECC608 behind an I2C bus ([ATECC608Sim/atecc608-sim]);
    - STSAFEA120Sim, ST's STSAFE-A120 ([STSAFEA120Sim/stsafe-a120-sim]);
    - SE050Sim, NXP's SE050 behind T=1 over I2C ([SE050Sim/se050-sim]).

    Two more run guest firmware on the Unicorn engine and supply the peripherals of a
    microcontroller behind a bus of memory-mapped registers:

    - STM32Sim, ST's STM32H753, U575, U585 and MP135 ([STM32Sim/stm32-sim]);
    - PIC32MZSim, Microchip's PIC32MZ EC and EF ([PIC32MZSim/pic32mz-sim]).

    All paths below are under [src/] and, for a crate, under its own [src/].

    ** How the code is translated

    A byte string is a [list Z]; an integer is a [Z] whose wrap-around is written out
    ([as_u8], [as_u16], [as_u32]).  A function that can panic (an index or a slice out
    of range, a failed assertion, a conversion to an array of another length) has the
    type [res]: [Ret] or [Panic].  Rust's [Result] is [Result], with [Ok] and [Err].
    State is passed explicitly: the device or store, the session, the random generator.
    Third-party crates are classes of operations ([Crates], [Se050Crates]) and a
    second class holds the documented laws a proof may use; [ToyCrates], [Se050Toy] and
    [McuWitness] hold executable instances of all of them, on which the examples evaluate.  The file
    system is a class too ([Host]); so are JSON ([Serde]) and the order of a hash map
    ([HashIter]) of SE050Sim.  Three logics of [res] serve the proofs: [wp] (returns,
    with a postcondition), [wlp] (if it returns) and [wpp] (returns, or panics for a
    stated cause).

    ** Files

    - [Prelude]: panics and their logics, slices, machine integers, automation.
    - [Crc]: the three CRC-16s ([crc.rs]) and what they detect: no one-byte change of a
      message keeps its CRC, wherever the change is ([crc_trailer_detects]); TROPIC01's
      register is a polynomial remainder ([tropic_crc_remainder]).
    - [Host]: files and streams.  [Connections]: a TCP server with many connections;
      [Protocol] is what a simulator implements, [ProtocolOk] what it promises of one
      turn; the loop, the interleaving of connections and their guarantees follow.
    - [Crates], [ToyCrates]: third-party crates and a toy instance.  [McuCrates]: those of
      the microcontroller simulators.

    TROPIC01Sim: [TropicTypes] (device, personalities), [TropicFrame] ([frame.rs],
    [tcp_proto.rs]), [TropicL3] ([handlers/l3.rs]), [TropicSession] ([session.rs]),
    [TropicGetInfo], [TropicCerts], [TropicStore] (provisioning and file), [TropicChip]
    ([chip.rs]: the SPI state machine), [TropicServer]; facts in [TropicL3Facts],
    [TropicL3Props], [TropicChipFacts], [TropicChipProps], examples in
    [TropicWitness].  The theorems: nothing the network sends makes the server panic or
    lets the chip and its file diverge; privileges decide every command; an encrypted
    command sent in chunks through the L2 layer is the dispatch of its plaintext; the
    handshake gives host and chip the same keys and the tunnel stays in step; memory
    slots, counters and MAC-and-Destroy behave as the data sheet says; signatures
    verify; polling delivers and Alarm mode is absorbing.

    ATECC608Sim: [AteccTypes] (packets, device, session), [AteccHandlers] (a module per
    command), [AteccFacts], [AteccServer], [AteccProps].  The theorems: any
    interleaving of any connections is safe and keeps locks and locked contents; a
    conversation is answered like the run of its commands; the packet format; the data
    zone is a memory; the SHA engine computes the one-shot digest; keys sign and agree.

    STSAFEA120Sim: [StsafeTypes], [StsafeHandlers], [StsafeFacts], [StsafeServer],
    [StsafeProps], along the same lines, with the device certificate.

    SE050Sim: the model is [Se050Types] ([tlv.rs], [apdu.rs], [policy.rs], [applet.rs],
    [object_store/types.rs]), [Se050Store] ([object_store/mod.rs], the configuration of
    [scp03/keys.rs]), [Se050Handlers], [Se050ObjectMgmt], [Se050Aes], [Se050Rsa], [Se050Ec]
    ([handlers/*.rs]), [Se050Dispatch] ([dispatch.rs]), [Se050Scp03] ([scp03/*.rs]) and
    [Se050T1] ([t1.rs], [transport.rs], [bin/tcp_server.rs]).  The invariant [store_ok] and
    the abstract transitions [store_step] of the object store are in [Se050StoreFacts];
    [Se050HandlersFacts], [Se050CryptoFacts], [Se050EcFacts], [Se050ChannelFacts] and
    [Se050T1Facts] show that every handler makes one transition and answers a well-formed
    response.  The theorems, by file:
    - [Se050Server]: any schedule of any connections keeps the invariant, or stops at a
      store with a private key whose use panics ([may_panic]); policies are enforced;
      chained frames carry an APDU in and its response out.
    - [Se050Secure]: the SCP03 handshake, and the tunnel as a refinement of plain commands.
    - [Se050Access]: only authenticated commands write when the channel is required; damaged
      frames are ignored; binary objects are memories; the listing is complete.
    - [Se050Cipher]: streamed ciphers are the one-shot ciphers; decryption inverts.
    - [Se050Keys]: generated keys sign and agree; a key of the wrong length is accepted and
      its use panics.
    - [Se050Persist]: the JSON document is read back, and a restart restores the store.
    - [Se050Toy], [Se050Witness]: executable crates and examples.

    STM32Sim: [Stm32Core] (the trait [Peripheral], the bus), [Stm32Cryp] ([cryp/mod.rs],
    [gcm.rs] and the two register files [v1.rs], [v2.rs]), [Stm32Hash] ([hash/]), [Stm32Pka]
    ([pka/]), [Stm32Chips] (the small peripherals and the chips).  A peripheral is mapped
    once, so the bus holds its state.  [Stm32Gf128], [Stm32Engine], [Stm32HashPort] and
    [Stm32PkaFacts] hold the facts; [Stm32Port] states as a class what firmware needs of a
    CRYP register window ([CrypPort], [CrypPortOk]), against which a session is proved
    once, and [Stm32CrypPortV1], [Stm32CrypPortV2] discharge it.  The theorems
    ([Stm32Gf128], [Stm32Claims]): no load or store panics on any chip; the chaining modes,
    GCM, digests, HMAC and modular arithmetic that firmware obtains through the registers
    are the reference functions; the GHASH multiplication is that of GF(2^128); saved
    digest contexts resume, except across another hash.  [Stm32Firmware] puts
    the devices side by side: the bus is the product of its devices, each as if alone with
    the accesses to its region, so interleaved sessions compute what each computes alone.

    PIC32MZSim: [Pic32Core] (memory buses, peripherals with access to memory, the registry
    of ticks), [Pic32Ce] (the Crypto Engine: [bd.rs], [algo.rs], [polling.rs], [mod.rs], a
    module each), [Pic32Chips].  [Pic32Layout] gives the laws of a memory bus ([MemBusOk])
    and discharges them for the test memory and for Unicorn's; [Pic32Modes] has the reference
    of each mode, [Pic32Chain] the manual's layout and the walk over descriptors.  The theorems ([Pic32Claims],
    [Pic32Safety]): descriptors and keys are read back as the driver stored them; a chain
    of descriptors computes its results and touches nothing else; every start completes;
    the streaming hash is the one-shot hash however the message is cut; any schedule of
    accesses and ticks is safe but for a descriptor larger than its buffer, which panics.

    [McuRun] is shared by both: ELF images, loading, the runner and the exit code of the
    process.  An accepted image is in memory and no device is touched; the runner ends
    when its clock passes the timeout, and exits with 0 only for a firmware that passed.
    [McuWitness] has the examples of both simulators.

    ** References

    What an operation is compared with is written without the code's helpers, on the
    primitives of the crates alone: the SCP03 host of [Se050Secure] (derivation by SP
    800-108, chained MACs, padding, counters), the SPI host of [TropicChipProps], the
    word orders of [Stm32Gf128], digest and HMAC of [Stm32HashPort], the operand places of
    [Stm32PkaFacts], the layout of descriptors and associations in
    [Pic32Chain], and the MIPS segments of [McuRun].

    ** Fuel

    Loops that are not structural take fuel, always a bound the loop cannot exceed: the
    length of the input for parsers that consume at least one byte a turn
    ([parse_tlvs], [ar_header_union], [serve] in [handle_connection], for which
    [serve_ends] shows that the fuel is enough), the 64 attempts of the P-192 signing
    loop as in the code, the number of blocks for the key derivation of SCP03, the 64
    descriptors of a chain and the 8 of a ring as in the code, the pages of a region.  The
    loop of the runner has no bound of its own: its fuel is arbitrary, and [runner_ends]
    gives the amount after which the result no longer depends on it.

    ** Not modelled

    Logging, argument and socket handling of the [main] functions, and thread creation;
    a mutex is held for one frame or packet, so a run of a server is a schedule of such
    turns, and a panic, which poisons the mutex, ends the run.  Writing to a peer does
    not fail.  Cryptography is not analysed: its crates are parameters, and so are the
    Unicorn engine and the ELF parser of STM32Sim and PIC32MZSim.  What the engine does
    between two callbacks is its own: a theorem on firmware speaks of the sequence of its
    loads, stores and translation blocks.  Counters and strings kept for diagnostics are
    left out.  Tests, C harnesses and guest firmware drive the simulators from outside and
    are not part of the model. *)

From stdpp Require Export base list gmap.
From Stdlib Require Export ZArith Lia.
From Stdlib Require Ascii String.
Open Scope Z_scope.

(** ** Panics

    A Rust function either returns or panics (an index or slice out of range, a
    failed [assert!], an [unwrap] on [None], an arithmetic overflow in a debug
    build).  [res] keeps the two apart, so that "never panics" is a theorem. *)

Inductive res (A : Type) : Type :=
  | Ret (a : A)
  | Panic.
Arguments Ret {A} a.
Arguments Panic {A}.

Definition rbind {A B} (m : res A) (k : A -> res B) : res B :=
  match m with
  | Ret a => k a
  | Panic => Panic
  end.

(** Rust's [Result<T, E>]. *)
Inductive Result (A E : Type) : Type :=
  | Ok (a : A)
  | Err (e : E).
Arguments Ok {A E} a.
Arguments Err {A E} e.

Declare Scope rust_scope.
Delimit Scope rust_scope with rust.
Open Scope rust_scope.

Notation "'let!' x := m 'in' k" := (rbind m (fun x => k))
  (at level 10, x binder, m at level 100, k at level 200) : rust_scope.
Notation "'let!' ' p := m 'in' k" := (rbind m (fun p => k))
  (at level 10, p strict pattern, m at level 100, k at level 200) : rust_scope.

(** The weakest precondition of a computation that may panic: it returns, and
    its value satisfies [Q]. *)
Definition wp {A} (m : res A) (Q : A -> Prop) : Prop :=
  match m with
  | Ret a => Q a
  | Panic => False
  end.

Lemma wp_ret {A} (a : A) (Q : A -> Prop) : Q a -> wp (Ret a) Q.
Proof. done. Qed.

Lemma wp_bind {A B} (m : res A) (k : A -> res B) (Q : B -> Prop) :
  wp m (fun a => wp (k a) Q) -> wp (rbind m k) Q.
Proof. by destruct m. Qed.

Lemma wp_mono {A} (m : res A) (P Q : A -> Prop) :
  wp m P -> (forall a, P a -> Q a) -> wp m Q.
Proof. destruct m; simpl; auto. Qed.

Lemma wp_and {A} (m : res A) (P Q : A -> Prop) :
  wp m P -> wp m Q -> wp m (fun a => P a /\ Q a).
Proof. by destruct m. Qed.

Lemma wp_eq {A} (m : res A) (a : A) : wp m (eq a) <-> m = Ret a.
Proof. destruct m; simpl; split; naive_solver. Qed.

Lemma wp_elim {A} (m : res A) (Q : A -> Prop) :
  wp m Q -> exists a, m = Ret a /\ Q a.
Proof. destruct m; simpl; naive_solver. Qed.

Lemma wp_of_eq {A} (m : res A) (a : A) (Q : A -> Prop) : m = Ret a -> Q a -> wp m Q.
Proof. by intros ->. Qed.

(** ** Machine integers and byte strings

    An unsigned [w]-bit integer is a [Z]; the operations that can leave the range
    write their wrap-around.  A byte string is a [list Z]. *)

Abbreviation bytes := (list Z).

Definition u8 (x : Z) : Prop := 0 <= x < 256.
Definition u16 (x : Z) : Prop := 0 <= x < 65536.
Definition u32 (x : Z) : Prop := 0 <= x < 4294967296.

Definition as_u8 (x : Z) : Z := x mod 256.
Definition as_u16 (x : Z) : Z := x mod 65536.
Definition as_u32 (x : Z) : Z := x mod 4294967296.

(** Every element of the string is a byte. *)
Definition wf (l : bytes) : Prop := Forall u8 l.

Definition len {A} (l : list A) : Z := Z.of_nat (length l).

(** [buf[i]]: panics out of range. *)
Definition idx {A} (l : list A) (i : Z) : res A :=
  if bool_decide (0 <= i) then
    match l !! Z.to_nat i with
    | Some x => Ret x
    | None => Panic
    end
  else Panic.

(** [&buf[a..b]] where it is in range. *)
Definition sub {A} (l : list A) (a b : Z) : list A :=
  take (Z.to_nat (b - a)) (drop (Z.to_nat a) l).

(** [&buf[a..b]]: panics when [a > b] or [b > buf.len()]. *)
Definition slice {A} (l : list A) (a b : Z) : res (list A) :=
  if bool_decide (0 <= a <= b /\ b <= len l) then Ret (sub l a b) else Panic.

(** [buf[i] = x]. *)
Definition set_idx {A} (l : list A) (i : Z) (x : A) : res (list A) :=
  if bool_decide (0 <= i < len l) then Ret (<[Z.to_nat i := x]> l) else Panic.

(** The result of [buf[a..a + src.len()].copy_from_slice(src)] in range. *)
Definition splice {A} (l : list A) (a : Z) (src : list A) : list A :=
  take (Z.to_nat a) l ++ src ++ drop (Z.to_nat a + length src) l.

(** [buf[a..b].copy_from_slice(src)]: panics when the range is out of bounds or
    the lengths differ. *)
Definition copy_from_slice {A} (l : list A) (a b : Z) (src : list A) : res (list A) :=
  if bool_decide (0 <= a <= b /\ b <= len l /\ len src = b - a)
  then Ret (splice l a src) else Panic.

(** [assert!(b)]. *)
Definition rassert (b : bool) : res unit := if b then Ret tt else Panic.

(** [vec![x; n]]. *)
Definition vec_repeat {A} (x : A) (n : Z) : list A := replicate (Z.to_nat n) x.

(** [v.resize(n, x)]. *)
Definition resize {A} (l : list A) (n : Z) (x : A) : list A :=
  take (Z.to_nat n) l ++ replicate (Z.to_nat n - length l) x.

(** [x << n] on [u32]: the shift amount must be below the width. *)
Definition shl32 (x n : Z) : res Z :=
  if bool_decide (0 <= n < 32) then Ret (as_u32 (Z.shiftl x n)) else Panic.
Definition shr32 (x n : Z) : res Z :=
  if bool_decide (0 <= n < 32) then Ret (Z.shiftr x n) else Panic.

(** [x << n] and [x >> n] on [u16]. *)
Definition shl16 (x n : Z) : res Z :=
  if bool_decide (0 <= n < 16) then Ret (as_u16 (Z.shiftl x n)) else Panic.
Definition shr16 (x n : Z) : res Z :=
  if bool_decide (0 <= n < 16) then Ret (Z.shiftr x n) else Panic.

(** [to_le_bytes] of an [n]-byte integer, and [from_le_bytes]. *)
Fixpoint le_bytes (n : nat) (x : Z) : bytes :=
  match n with
  | O => []
  | S n => x mod 256 :: le_bytes n (x / 256)
  end.
Fixpoint le_val (l : bytes) : Z :=
  match l with
  | [] => 0
  | b :: l => b + 256 * le_val l
  end.
Definition be_bytes (n : nat) (x : Z) : bytes := reverse (le_bytes n x).
Definition be_val (l : bytes) : Z := le_val (reverse l).

(** [b"..."]: the bytes of an ASCII literal. *)
Fixpoint str_bytes (s : String.string) : bytes :=
  match s with
  | String.EmptyString => []
  | String.String a s => Z.of_N (Ascii.N_of_ascii a) :: str_bytes s
  end.

(** ** Lengths

    [len_solve] normalises every [len] and closes linear goals about them. *)

Create Rewrite HintDb len.
Create HintDb wfdb.

Section lengths.
Context {A : Type}.
Implicit Types (l k : list A).

Lemma len_nil : len (@nil A) = 0.
Proof. done. Qed.
Lemma len_cons x l : len (x :: l) = 1 + len l.
Proof. unfold len; simpl; lia. Qed.
Lemma len_app l k : len (l ++ k) = len l + len k.
Proof. unfold len; rewrite length_app; lia. Qed.
Lemma len_nonneg l : 0 <= len l.
Proof. unfold len; lia. Qed.
Lemma len_reverse l : len (reverse l) = len l.
Proof. unfold len; by rewrite length_reverse. Qed.
Lemma len_replicate n (x : A) : len (replicate n x) = Z.of_nat n.
Proof. unfold len; by rewrite length_replicate. Qed.
Lemma len_vec_repeat n (x : A) : len (vec_repeat x n) = Z.max 0 n.
Proof. unfold vec_repeat; rewrite len_replicate; lia. Qed.
Lemma len_insert l i x : len (<[i := x]> l) = len l.
Proof. unfold len; by rewrite length_insert. Qed.
Lemma len_fmap {B} (f : A -> B) l : len (f <$> l) = len l.
Proof. unfold len; by rewrite length_fmap. Qed.
Lemma len_take n l : len (take n l) = Z.min (Z.of_nat n) (len l).
Proof. unfold len; rewrite length_take; lia. Qed.
Lemma len_drop n l : len (drop n l) = Z.max 0 (len l - Z.of_nat n).
Proof. unfold len; rewrite length_drop; lia. Qed.
Lemma len_sub l a b : len (sub l a b) = Z.min (Z.max 0 (b - a)) (Z.max 0 (len l - Z.max 0 a)).
Proof. unfold sub. rewrite len_take, len_drop. lia. Qed.
Lemma len_resize l n x : len (resize l n x) = Z.max 0 n.
Proof. unfold resize; rewrite len_app, len_take, len_replicate. unfold len; lia. Qed.
Lemma len_splice l a (src : list A) :
  0 <= a -> a + len src <= len l -> len (splice l a src) = len l.
Proof.
  intros. unfold splice. rewrite !len_app, len_take, len_drop.
  unfold len in *; lia.
Qed.
End lengths.

#[export] Hint Rewrite @len_nil @len_cons @len_app @len_reverse @len_replicate
  @len_vec_repeat @len_insert @len_fmap @len_take @len_drop @len_sub @len_resize : len.

Ltac pose_nonneg :=
  repeat match goal with
  | |- context [len ?l] =>
      lazymatch goal with H : 0 <= len l |- _ => fail | _ => pose proof (len_nonneg l) end
  | _ : context [len ?l] |- _ =>
      lazymatch goal with H : 0 <= len l |- _ => fail | _ => pose proof (len_nonneg l) end
  end.

Ltac len_solve := autorewrite with len in *; pose_nonneg; lia.

(** ** Indexing and slicing *)

Lemma wp_idx {A} (l : list A) i (Q : A -> Prop) :
  0 <= i < len l -> (forall x, l !! Z.to_nat i = Some x -> Q x) -> wp (idx l i) Q.
Proof.
  intros Hi HQ. unfold idx. rewrite bool_decide_true by lia.
  destruct (l !! Z.to_nat i) eqn:E; simpl; [by apply HQ|].
  apply lookup_ge_None in E. unfold len in Hi. lia.
Qed.

Lemma idx_ret {A} (l : list A) i x :
  0 <= i -> l !! Z.to_nat i = Some x -> idx l i = Ret x.
Proof. intros Hi E. unfold idx. by rewrite bool_decide_true, E by lia. Qed.

Lemma idx_inv {A} (l : list A) i x :
  idx l i = Ret x -> 0 <= i < len l /\ l !! Z.to_nat i = Some x.
Proof.
  unfold idx. case_bool_decide; [|done].
  destruct (l !! Z.to_nat i) eqn:E; [|done]. intros [= ->].
  split; [|done]. apply lookup_lt_Some in E. unfold len; lia.
Qed.

Lemma idx_0 {A} (x : A) l : idx (x :: l) 0 = Ret x.
Proof. done. Qed.

Lemma idx_S {A} (x : A) l i : 0 < i -> idx (x :: l) i = idx l (i - 1).
Proof.
  intros Hi. unfold idx. rewrite !bool_decide_true by lia.
  replace (Z.to_nat i) with (S (Z.to_nat (i - 1))) by lia. done.
Qed.

Lemma idx_app_r {A} (l k : list A) i : len l <= i -> idx (l ++ k) i = idx k (i - len l).
Proof.
  intros Hi. pose proof (len_nonneg l). unfold idx. rewrite !bool_decide_true by lia.
  rewrite lookup_app_r by (unfold len in *; lia).
  by replace (Z.to_nat i - length l)%nat with (Z.to_nat (i - len l)) by (unfold len; lia).
Qed.

Lemma idx_app_l {A} (l k : list A) i : i < len l -> idx (l ++ k) i = idx l i.
Proof.
  intros Hi. unfold idx. case_bool_decide; [|done].
  by rewrite lookup_app_l by (unfold len in *; lia).
Qed.

Lemma wp_slice {A} (l : list A) a b (Q : list A -> Prop) :
  0 <= a <= b -> b <= len l -> Q (sub l a b) -> wp (slice l a b) Q.
Proof. intros. unfold slice. by rewrite bool_decide_true by lia. Qed.

Lemma slice_ret {A} (l : list A) a b :
  0 <= a <= b -> b <= len l -> slice l a b = Ret (sub l a b).
Proof. intros. unfold slice. by rewrite bool_decide_true by lia. Qed.

Lemma sub_app_r {A} (l k : list A) a b :
  len l <= a -> sub (l ++ k) a b = sub k (a - len l) (b - len l).
Proof.
  intros Ha. pose proof (len_nonneg l). unfold sub. rewrite drop_app_ge by (unfold len in *; lia).
  f_equal; [lia|]. f_equal. unfold len; lia.
Qed.

Lemma sub_app_l {A} (l k : list A) a b :
  0 <= a -> b <= len l -> sub (l ++ k) a b = sub l a b.
Proof.
  intros Ha Hb. unfold sub. destruct (decide (a <= len l)).
  - rewrite drop_app_le by (unfold len in *; lia).
    rewrite take_app_le; [done|]. rewrite length_drop. unfold len in *. lia.
  - replace (Z.to_nat (b - a)) with O by lia. by rewrite !take_0.
Qed.

Lemma sub_full {A} (l : list A) b : len l <= b -> sub l 0 b = l.
Proof. intros. unfold sub. rewrite drop_0, take_ge; [done|]. unfold len in *; lia. Qed.

Lemma sub_cons {A} (x : A) l a b : 0 < a -> sub (x :: l) a b = sub l (a - 1) (b - 1).
Proof.
  intros. unfold sub. replace (Z.to_nat a) with (S (Z.to_nat (a - 1))) by lia.
  rewrite skipn_cons. f_equal. lia.
Qed.

Lemma sub_prefix {A} (l k : list A) : sub (l ++ k) 0 (len l) = l.
Proof. rewrite sub_app_l by lia. by rewrite sub_full. Qed.

(** The middle part of a string. *)
Lemma sub_middle {A} (a b c : list A) i j : i = len a -> j = i + len b -> sub (a ++ b ++ c) i j = b.
Proof.
  intros -> ->. rewrite sub_app_r by lia. rewrite Z.sub_diag.
  replace (len a + len b - len a) with (len b) by lia. apply sub_prefix.
Qed.

Lemma sub_suffix {A} (a b : list A) i j : i = len a -> i + len b <= j -> sub (a ++ b) i j = b.
Proof. intros -> Hj. rewrite sub_app_r by lia. rewrite Z.sub_diag. apply sub_full. lia. Qed.

Lemma wp_copy_from_slice {A} (l src : list A) a b (Q : list A -> Prop) :
  0 <= a <= b -> b <= len l -> len src = b - a ->
  Q (splice l a src) -> wp (copy_from_slice l a b src) Q.
Proof. intros. unfold copy_from_slice. by rewrite bool_decide_true by lia. Qed.

Lemma wp_set_idx {A} (l : list A) i x (Q : list A -> Prop) :
  0 <= i < len l -> Q (<[Z.to_nat i := x]> l) -> wp (set_idx l i x) Q.
Proof. intros. unfold set_idx. by rewrite bool_decide_true by lia. Qed.

Lemma wp_rassert b (Q : unit -> Prop) : b = true -> Q tt -> wp (rassert b) Q.
Proof. by intros ->. Qed.

Lemma wp_shr32 x n (Q : Z -> Prop) : 0 <= n < 32 -> Q (Z.shiftr x n) -> wp (shr32 x n) Q.
Proof. intros. unfold shr32. by rewrite bool_decide_true by lia. Qed.

Lemma wp_shl32 x n (Q : Z -> Prop) : 0 <= n < 32 -> Q (as_u32 (Z.shiftl x n)) -> wp (shl32 x n) Q.
Proof. intros. unfold shl32. by rewrite bool_decide_true by lia. Qed.

Lemma wp_shr16 x n (Q : Z -> Prop) : 0 <= n < 16 -> Q (Z.shiftr x n) -> wp (shr16 x n) Q.
Proof. intros. unfold shr16. by rewrite bool_decide_true by lia. Qed.

Lemma wp_shl16 x n (Q : Z -> Prop) : 0 <= n < 16 -> Q (as_u16 (Z.shiftl x n)) -> wp (shl16 x n) Q.
Proof. intros. unfold shl16. by rewrite bool_decide_true by lia. Qed.

(** Splitting a list at its slices. *)
Lemma sub_split {A} (l : list A) a : 0 <= a <= len l -> l = sub l 0 a ++ sub l a (len l).
Proof.
  intros. unfold sub. rewrite drop_0.
  rewrite (take_ge (drop _ _)) by (rewrite length_drop; unfold len in *; lia).
  replace (Z.to_nat (a - 0)) with (Z.to_nat a) by lia. by rewrite take_drop.
Qed.

(** A non-empty list ends with an element. *)
Lemma snoc_split {A} (l : list A) n :
  0 < n -> len l = n -> exists e k, l = e ++ [k] /\ len e = n - 1.
Proof.
  intros Hn Hl. destruct l as [|k l _] using rev_ind; [rewrite len_nil in Hl; lia|].
  exists l, k. split; [done|]. rewrite len_app in Hl. unfold len in *. simpl in *. lia.
Qed.

(** ** Well-formed byte strings *)

Lemma wf_nil : wf [].
Proof. by constructor. Qed.
Lemma wf_cons x l : u8 x -> wf l -> wf (x :: l).
Proof. by constructor. Qed.
Lemma wf_app l k : wf l -> wf k -> wf (l ++ k).
Proof. apply Forall_app_2. Qed.
Lemma wf_app_inv l k : wf (l ++ k) -> wf l /\ wf k.
Proof. apply Forall_app. Qed.
Lemma wf_cons_inv x l : wf (x :: l) -> u8 x /\ wf l.
Proof. apply Forall_cons. Qed.
Lemma wf_take n l : wf l -> wf (take n l).
Proof. apply Forall_take. Qed.
Lemma wf_drop n l : wf l -> wf (drop n l).
Proof. apply Forall_drop. Qed.
Lemma wf_sub l a b : wf l -> wf (sub l a b).
Proof. intros. by apply wf_take, wf_drop. Qed.
Lemma wf_replicate n x : u8 x -> wf (replicate n x).
Proof. apply Forall_replicate. Qed.
(** Bytes that are literals. *)
Lemma wf_literal (b : bytes) : forallb (fun x => (0 <=? x) && (x <? 256)) b = true -> wf b.
Proof. rewrite forallb_forall. intros H. apply Forall_forall. intros x Hx%list_elem_of_In. specialize (H x Hx). unfold u8. lia. Qed.

Lemma wf_vec_repeat n x : u8 x -> wf (vec_repeat x n).
Proof. apply Forall_replicate. Qed.
Lemma wf_resize l n x : wf l -> u8 x -> wf (resize l n x).
Proof. intros. apply wf_app; [by apply wf_take|by apply wf_replicate]. Qed.
Lemma wf_reverse l : wf l -> wf (reverse l).
Proof. apply Forall_reverse. Qed.
Lemma wf_splice l a src : wf l -> wf src -> wf (splice l a src).
Proof. intros. unfold splice. auto using wf_app, wf_take, wf_drop. Qed.
Lemma wf_insert l i x : wf l -> u8 x -> wf (<[i := x]> l).
Proof. intros. by apply Forall_insert. Qed.
Lemma wf_lookup l i x : wf l -> l !! i = Some x -> u8 x.
Proof. intros Hl Hx. by apply (Forall_lookup_1 _ _ _ _ Hl Hx). Qed.
Lemma wf_idx l i x : wf l -> idx l i = Ret x -> u8 x.
Proof. intros Hl [_ Hx]%idx_inv. by apply (wf_lookup _ _ _ Hl Hx). Qed.
Lemma u8_as_u8 x : u8 (as_u8 x).
Proof. apply Z.mod_pos_bound. lia. Qed.
Lemma u16_as_u16 x : u16 (as_u16 x).
Proof. apply Z.mod_pos_bound. lia. Qed.
Lemma u32_as_u32 x : u32 (as_u32 x).
Proof. apply Z.mod_pos_bound. lia. Qed.
Lemma wf_le_bytes n x : wf (le_bytes n x).
Proof. revert x. induction n; intros x; constructor; [apply u8_as_u8|apply IHn]. Qed.
Lemma wf_be_bytes n x : wf (be_bytes n x).
Proof. apply wf_reverse, wf_le_bytes. Qed.

#[export] Hint Resolve wf_nil wf_cons wf_app wf_take wf_drop wf_sub wf_replicate
  wf_vec_repeat wf_resize wf_reverse wf_splice wf_insert wf_le_bytes wf_be_bytes
  u8_as_u8 u16_as_u16 u32_as_u32 : wfdb.

(** Numeric side conditions [u8 3] and the like. *)
Ltac u_solve := unfold u8, u16, u32 in *; lia.
#[export] Hint Extern 3 (u8 _) => solve [u_solve] : wfdb.

(** ** Little- and big-endian integers *)

Lemma len_le_bytes n x : len (le_bytes n x) = Z.of_nat n.
Proof.
  revert x. induction n; intros x; simpl; [done|]. rewrite len_cons, IHn. lia.
Qed.
Lemma len_be_bytes n x : len (be_bytes n x) = Z.of_nat n.
Proof. unfold be_bytes. by rewrite len_reverse, len_le_bytes. Qed.
#[export] Hint Rewrite len_le_bytes len_be_bytes : len.

Lemma le_val_bounds l : wf l -> 0 <= le_val l < 256 ^ len l.
Proof.
  induction 1 as [|x l Hx Hl IH]; [done|].
  rewrite len_cons, Z.pow_add_r by (pose proof (len_nonneg l); lia).
  simpl. unfold u8 in Hx. lia.
Qed.

Lemma le_val_le_bytes n x : 0 <= x < 256 ^ Z.of_nat n -> le_val (le_bytes n x) = x.
Proof.
  revert x. induction n as [|n IH]; intros x Hx; [simpl in *; lia|].
  rewrite Nat2Z.inj_succ, Z.pow_succ_r in Hx by lia.
  simpl. rewrite IH.
  - pose proof (Z.div_mod x 256). lia.
  - split; [apply Z.div_pos; lia|apply Z.div_lt_upper_bound; lia].
Qed.

Lemma le_bytes_le_val l n : wf l -> n = length l -> le_bytes n (le_val l) = l.
Proof.
  intros Hl ->. induction Hl as [|x l Hx Hl IH]; [done|]. simpl. unfold u8 in Hx.
  rewrite Z.mul_comm, Z.mod_add, Z.div_add, Z.mod_small, Z.div_small by lia.
  by rewrite Z.add_0_l, IH.
Qed.

Lemma be_val_be_bytes n x : 0 <= x < 256 ^ Z.of_nat n -> be_val (be_bytes n x) = x.
Proof. intros. unfold be_val, be_bytes. rewrite reverse_involutive. by apply le_val_le_bytes. Qed.

Lemma be_bytes_be_val l n : wf l -> n = length l -> be_bytes n (be_val l) = l.
Proof.
  intros Hl Hn. unfold be_val, be_bytes.
  rewrite le_bytes_le_val; [apply reverse_involutive|by apply wf_reverse|by rewrite length_reverse].
Qed.

(** ** Symbolic execution of panicking code

    [wp_step] runs one construct of a computation; the bounds of indices and
    slices it leaves are closed by [wp_side] where the context has the facts. *)

Lemma wp_idx_wf (l : bytes) i (Q : Z -> Prop) :
  wf l -> 0 <= i < len l ->
  (forall x, u8 x -> l !! Z.to_nat i = Some x -> Q x) -> wp (idx l i) Q.
Proof.
  intros Hl Hi HQ. apply wp_idx; [done|]. intros x Hx. apply HQ; [|done].
  by eapply wf_lookup.
Qed.

Lemma wp_true {A} (m : res A) (Q : A -> Prop) : wp m Q -> exists a, m = Ret a.
Proof. destruct m; naive_solver. Qed.

(** A computation that cannot panic may be reasoned about through its value. *)
Lemma wp_value {A} (m : res A) (Q : A -> Prop) :
  wp m (fun _ => True) -> (forall a, m = Ret a -> Q a) -> wp m Q.
Proof. destruct m; simpl; auto. Qed.

(** [lia] with division and remainder by constants. *)
Ltac dlia := unfold u8, u16, u32 in *; Z.to_euclidean_division_equations; lia.

Ltac wp_side := first [done | lia | (unfold u8, u16, u32 in *; lia) | len_solve
  | (unfold u8, u16, u32 in *; len_solve) | dlia].

Ltac wp_step :=
  lazymatch goal with
  | |- wp (rbind _ _) _ => apply wp_bind
  | |- wp (Ret _) _ => apply wp_ret
  | |- wp (idx ?l _) _ =>
      let x := fresh "x" in
      let Hu := fresh "Hu" in
      let Hx := fresh "Hx" in
      first
        [ match goal with H : wf l |- _ =>
            apply (wp_idx_wf _ _ _ H); [try wp_side | intros x Hu Hx] end
        | apply wp_idx; [try wp_side | intros x Hx] ]
  | |- wp (slice _ _ _) _ => apply wp_slice; [try wp_side | try wp_side |]
  | |- wp (copy_from_slice _ _ _ _) _ =>
      apply wp_copy_from_slice; [try wp_side | try wp_side | try wp_side |]
  | |- wp (set_idx _ _ _) _ => apply wp_set_idx; [try wp_side |]
  | |- wp (shr32 _ _) _ => apply wp_shr32; [try wp_side |]
  | |- wp (shl32 _ _) _ => apply wp_shl32; [try wp_side |]
  | |- wp (shr16 _ _) _ => apply wp_shr16; [try wp_side |]
  | |- wp (shl16 _ _) _ => apply wp_shl16; [try wp_side |]
  | |- wp (rassert _) _ => apply wp_rassert; [try wp_side |]
  | |- wp (if ?b then _ else _) _ => let E := fresh "E" in destruct b eqn:E
  | |- wp (match ?x with _ => _ end) _ => let E := fresh "E" in destruct x eqn:E
  end.

Ltac wp_run := repeat (wp_step; cbv beta).

(** ** Partial correctness

    The weakest liberal precondition: what holds of the value if there is one.
    Together with a no-panic theorem it gives the total statement
    ([wp_wlp]); alone it needs no bounds. *)

Definition wlp {A} (m : res A) (Q : A -> Prop) : Prop :=
  match m with
  | Ret a => Q a
  | Panic => True
  end.

Lemma wlp_ret {A} (a : A) (Q : A -> Prop) : Q a -> wlp (Ret a) Q.
Proof. done. Qed.
Lemma wlp_panic {A} (Q : A -> Prop) : wlp Panic Q.
Proof. done. Qed.
Lemma wlp_bind {A B} (m : res A) (k : A -> res B) (Q : B -> Prop) :
  wlp m (fun a => wlp (k a) Q) -> wlp (rbind m k) Q.
Proof. by destruct m. Qed.
Lemma wlp_any {A} (m : res A) (Q : A -> Prop) : (forall a, m = Ret a -> Q a) -> wlp m Q.
Proof. destruct m; simpl; auto. Qed.
Lemma wlp_mono {A} (m : res A) (P Q : A -> Prop) :
  wlp m P -> (forall a, P a -> Q a) -> wlp m Q.
Proof. destruct m; simpl; auto. Qed.
Lemma wlp_inv {A} (m : res A) (Q : A -> Prop) a : wlp m Q -> m = Ret a -> Q a.
Proof. by intros H ->. Qed.
Lemma wp_wlp {A} (m : res A) (P Q : A -> Prop) :
  wp m P -> wlp m Q -> wp m (fun a => P a /\ Q a).
Proof. by destruct m. Qed.

Ltac wlp_step :=
  lazymatch goal with
  | |- wlp (rbind _ _) _ => apply wlp_bind
  | |- wlp (Ret _) _ => apply wlp_ret
  | |- wlp Panic _ => apply wlp_panic
  | |- wlp (if ?b then _ else _) _ => let E := fresh "E" in destruct b eqn:E
  | |- wlp (match ?x with _ => _ end) _ => let E := fresh "E" in destruct x eqn:E
  | |- wlp _ _ =>
      let x := fresh "x" in
      let Hx := fresh "Hx" in
      apply wlp_any; intros x Hx
  end.

Ltac wlp_run := repeat (wlp_step; cbv beta).

(** ** Panics with a cause

    [wpp m P Q]: [m] returns a value satisfying [Q], or it panics and [P] holds. *)

Definition wpp {A} (m : res A) (P : Prop) (Q : A -> Prop) : Prop :=
  match m with
  | Ret a => Q a
  | Panic => P
  end.

Lemma wpp_ret {A} (a : A) P (Q : A -> Prop) : Q a -> wpp (Ret a) P Q.
Proof. done. Qed.
Lemma wpp_bind {A B} (m : res A) (k : A -> res B) P (Q : B -> Prop) :
  wpp m P (fun a => wpp (k a) P Q) -> wpp (rbind m k) P Q.
Proof. by destruct m. Qed.
Lemma wpp_mono {A} (m : res A) (P P' : Prop) (Q Q' : A -> Prop) :
  wpp m P Q -> (P -> P') -> (forall a, Q a -> Q' a) -> wpp m P' Q'.
Proof. destruct m; simpl; auto. Qed.
Lemma wp_wpp {A} (m : res A) (P : Prop) (Q : A -> Prop) : wp m Q -> wpp m P Q.
Proof. by destruct m. Qed.
Lemma wpp_wp {A} (m : res A) (P : Prop) (Q : A -> Prop) : wpp m P Q -> (P -> False) -> wp m Q.
Proof. destruct m; simpl; auto. Qed.
Lemma wpp_bind_wp {A B} (m : res A) (k : A -> res B) (T : A -> Prop) P (Q : B -> Prop) :
  wp m T -> (forall a, T a -> wpp (k a) P Q) -> wpp (rbind m k) P Q.
Proof. destruct m; simpl; auto. done. Qed.

(** Filling a buffer. *)
Lemma splice_full {A} (l src : list A) : len src = len l -> splice l 0 src = src.
Proof.
  intros H. unfold splice, len in *. simpl. rewrite drop_ge by lia. apply app_nil_r.
Qed.
Lemma splice_halves {A} (l a b : list A) (m : Z) :
  len a = m -> len l = m + len b -> splice (splice l 0 a) m b = a ++ b.
Proof.
  intros <- Hl. unfold splice, len in *. simpl. rewrite Nat2Z.id.
  rewrite take_app_le, take_ge by lia. rewrite drop_ge, app_nil_r; [done|].
  rewrite length_app, length_drop. lia.
Qed.

(** Masking keeps a [w]-bit integer in its range. *)
Lemma land_bound w x y : 0 <= w -> 0 <= x < 2 ^ w -> 0 <= y -> 0 <= Z.land x y < 2 ^ w.
Proof.
  intros Hw Hx Hy.
  assert (Z.land x y = Z.land x y mod 2 ^ w) as ->; [|apply Z.mod_pos_bound; lia].
  rewrite <- !Z.land_ones, <- Z.land_assoc, (Z.land_comm y), Z.land_assoc by lia.
  by rewrite Z.land_ones, Z.mod_small by lia.
Qed.
Lemma u32_land x y : u32 x -> 0 <= y -> u32 (Z.land x y).
Proof. apply (land_bound 32). lia. Qed.
Lemma u8_land x y : u8 x -> 0 <= y -> u8 (Z.land x y).
Proof. apply (land_bound 8). lia. Qed.

(** Two strings that differ in one element, cut at the same place: the element is
    in the first part or in the second. *)
Lemma single_split {A} (l k p q p' q' : list A) (b b' : A) :
  l ++ b :: k = p ++ q -> l ++ b' :: k = p' ++ q' -> length p = length p' ->
  (exists m, p = l ++ b :: m /\ p' = l ++ b' :: m /\ q = q') \/
  (p = p' /\ exists m, q = m ++ b :: k /\ q' = m ++ b' :: k).
Proof.
  intros H H' Hl. apply app_eq_inv in H as [(m & -> & ->)|(m & -> & Hm)].
  - right. rewrite <- app_assoc in H'. apply app_inj_1 in H' as [-> <-]; [|done].
    split; [done|]. by exists m.
  - destruct m as [|x m]; simpl in Hm.
    + right. subst q. rewrite app_nil_r in *. apply app_inj_1 in H' as [-> <-]; [|done].
      split; [done|]. by exists [].
    + left. injection Hm as <- ->. exists m.
      change (l ++ b' :: m ++ q) with (l ++ (b' :: m) ++ q) in H'.
      rewrite app_assoc in H'. apply app_inj_1 in H' as [<- <-]; [done|].
      rewrite <- Hl, !length_app. done.
Qed.

(** ** Chunks *)

(** [slice.chunks(n)]; the fuel is the length. *)
Fixpoint chunks_fuel {A} (fuel : nat) (n : Z) (l : list A) : list (list A) :=
  match fuel, l with
  | S fuel, _ :: _ => sub l 0 n :: chunks_fuel fuel n (drop (Z.to_nat n) l)
  | _, _ => []
  end.
Definition chunks {A} (n : Z) (l : list A) : list (list A) := chunks_fuel (length l) n l.

Lemma concat_chunks {A} n (l : list A) : 0 < n -> concat (chunks n l) = l.
Proof.
  intros Hn. unfold chunks. assert (Hf : (length l <= length l)%nat) by done. revert Hf.
  generalize (length l) at 2 3 as fuel. intros fuel. revert l.
  induction fuel as [|fuel IH]; intros l Hf; [destruct l; simpl in *; [done|lia]|].
  destruct l as [|x l]; [done|]. simpl in *. rewrite IH.
  - unfold sub. rewrite drop_0, Z.sub_0_r. apply take_drop.
  - rewrite length_drop. simpl. lia.
Qed.

Lemma chunks_len {A} n (l : list A) :
  0 < n -> Forall (fun c => 1 <= len c <= n) (chunks n l).
Proof.
  intros Hn. unfold chunks. generalize (length l) as fuel. intros fuel. revert l.
  induction fuel as [|fuel IH]; intros [|x l]; try done. simpl. constructor; [|apply IH].
  rewrite len_sub, len_cons. pose proof (len_nonneg l). lia.
Qed.

Lemma wf_concat_inv (ls : list bytes) : wf (concat ls) -> Forall wf ls.
Proof. induction ls as [|l ls IH]; [done|]. intros [? ?]%wf_app_inv. constructor; auto. Qed.

Lemma chunks_nonempty {A} n (l : list A) : l <> [] -> chunks n l <> [].
Proof. by destruct l. Qed.

(** ** Bits *)

(** Shifting left makes room for the low bits. *)
Lemma lor_shiftl hi lo n : 0 <= n -> 0 <= lo < 2 ^ n -> Z.lor (Z.shiftl hi n) lo = hi * 2 ^ n + lo.
Proof.
  intros Hn Hlo. assert (E : Z.land (Z.shiftl hi n) lo = 0).
  { apply Z.bits_inj'. intros m Hm. rewrite Z.land_spec, Z.bits_0.
    destruct (Z.ltb_spec m n); [by rewrite Z.shiftl_spec_low|].
    replace lo with (lo mod 2 ^ n) by (apply Z.mod_small; lia).
    by rewrite Z.mod_pow2_bits_high, andb_false_r by lia. }
  rewrite <- Z.lxor_lor, <- Z.add_nocarry_lxor, Z.shiftl_mul_pow2 by done. done.
Qed.

Lemma lor_be16 hi lo : u8 lo -> Z.lor (Z.shiftl hi 8) lo = 256 * hi + lo.
Proof. intros Hl. rewrite lor_shiftl by (unfold u8 in *; lia). lia. Qed.

(** Disjunction keeps two [w]-bit integers in their range. *)
Lemma lor_bound w x y : 0 <= w -> 0 <= x < 2 ^ w -> 0 <= y < 2 ^ w -> 0 <= Z.lor x y < 2 ^ w.
Proof.
  intros Hw Hx Hy.
  assert (Z.lor x y = Z.lor x y mod 2 ^ w) as ->; [|apply Z.mod_pos_bound; lia].
  rewrite <- Z.land_ones, Z.land_lor_distr_l, !Z.land_ones, !Z.mod_small by lia. done.
Qed.
