(* ===== verification/Crc.v ===== *)
(** * The CRC-16 routines of the simulators

    [AteccCrc] is ATECC608Sim's [crc.rs], [TropicCrc] TROPIC01Sim's [crc.rs] and
    [StsafeCrc] STSAFEA120Sim's [crc.rs].  The first two compute the polynomial
    0x8005 in different bit orders; the third is the reflected 0x1021 of
    CRC-16/X-25.  The section [lfsr] holds the algebra the three share: a shift
    step is linear and invertible on 16-bit states, hence one changed byte always
    changes the CRC. *)

From S2P Require Import Prelude.

Module AteccCrc.
Definition crc16_bit (byte crc bit : Z) : Z :=
  let data_bit := Z.land (Z.shiftr byte bit) 1 in
  let crc_bit := Z.shiftr crc 15 in
  let crc := as_u16 (Z.shiftl crc 1) in
  if negb (data_bit =? crc_bit) then Z.lxor crc 0x8005 else crc.

Definition crc16_byte (crc byte : Z) : Z :=
  fold_left (crc16_bit byte) [0; 1; 2; 3; 4; 5; 6; 7] crc.

Definition crc16 (data : bytes) : Z := fold_left crc16_byte data 0.

(** The CRC as the [lsb, msb] pair of the wire. *)
Definition crc16_le (data : bytes) : bytes :=
  let c := crc16 data in
  [as_u8 (Z.land c 0xFF); as_u8 (Z.shiftr c 8)].
End AteccCrc.

Module TropicCrc.
Definition crc16_bit (crc : Z) : Z :=
  if negb (Z.land crc 0x8000 =? 0)
  then Z.lxor (as_u16 (Z.shiftl crc 1)) 0x8005
  else as_u16 (Z.shiftl crc 1).

Definition crc16_byte (crc b : Z) : Z :=
  Nat.iter 8 crc16_bit (Z.lxor crc (Z.shiftl b 8)).

Definition crc16_state (buf : bytes) : Z := fold_left crc16_byte buf 0.

Definition crc16 (buf : bytes) : Z :=
  let crc := crc16_state buf in
  Z.lor (as_u16 (Z.shiftl crc 8)) (Z.shiftr crc 8).

Definition append_crc (frame : bytes) : bytes :=
  let crc := crc16 frame in
  frame ++ [as_u8 (Z.shiftr crc 8); as_u8 (Z.land crc 0xFF)].
End TropicCrc.

Module StsafeCrc.
Definition crc16_bit (crc : Z) : Z :=
  if negb (Z.land crc 1 =? 0) then Z.lxor (Z.shiftr crc 1) 0x8408 else Z.shiftr crc 1.

Definition crc16_byte (crc b : Z) : Z := Nat.iter 8 crc16_bit (Z.lxor crc b).

Definition crc16_x25 (buf : bytes) : Z :=
  Z.lxor (fold_left crc16_byte buf 0xFFFF) 0xFFFF.
End StsafeCrc.

(** ** Bitwise facts on bounded integers *)

Lemma lxor_bound n x y :
  0 <= n -> 0 <= x < 2 ^ n -> 0 <= y < 2 ^ n -> 0 <= Z.lxor x y < 2 ^ n.
Proof.
  intros Hn Hx Hy. assert (0 <= Z.lxor x y) by (apply Z.lxor_nonneg; lia).
  split; [done|]. destruct (decide (Z.lxor x y = 0)) as [->|Hne]; [lia|].
  apply Z.log2_lt_pow2; [lia|].
  eapply Z.le_lt_trans; [apply Z.log2_lxor; lia|].
  apply Z.max_lub_lt.
  - destruct (decide (x = 0)) as [->|]; [|apply Z.log2_lt_pow2; lia].
    simpl. destruct (decide (n = 0)) as [->|]; [|lia].
    assert (y = 0) by lia. subst. by rewrite Z.lxor_0_l in Hne.
  - destruct (decide (y = 0)) as [->|]; [|apply Z.log2_lt_pow2; lia].
    simpl. destruct (decide (n = 0)) as [->|]; [|lia].
    assert (x = 0) by lia. subst. by rewrite Z.lxor_0_r in Hne.
Qed.

Lemma u16_lxor x y : u16 x -> u16 y -> u16 (Z.lxor x y).
Proof. apply (lxor_bound 16). lia. Qed.

Lemma u8_u16_shift b : u8 b -> u16 (Z.shiftl b 8).
Proof. rewrite Z.shiftl_mul_pow2 by lia. u_solve. Qed.

Lemma lxor_cancel_r x y z : Z.lxor x z = Z.lxor y z -> x = y.
Proof.
  intros H. apply (f_equal (fun w => Z.lxor w z)) in H.
  by rewrite !Z.lxor_assoc, Z.lxor_nilpotent, !Z.lxor_0_r in H.
Qed.

Lemma lxor_cancel_l x y z : Z.lxor z x = Z.lxor z y -> x = y.
Proof. rewrite !(Z.lxor_comm z). apply lxor_cancel_r. Qed.

Lemma double_lxor x y : 2 * Z.lxor x y = Z.lxor (2 * x) (2 * y).
Proof.
  pose proof (Z.shiftl_lxor x y 1) as H. rewrite !Z.shiftl_mul_pow2 in H by lia.
  change (2 ^ 1) with 2 in H. rewrite !(Z.mul_comm 2). exact H.
Qed.

Lemma testbit_high n x i : 0 <= x < 2 ^ n -> 0 <= n <= i -> Z.testbit x i = false.
Proof.
  intros Hx Hi. rewrite Z.testbit_odd, Z.shiftr_div_pow2, Z.div_small; [done| |lia].
  assert (2 ^ n <= 2 ^ i) by (apply Z.pow_le_mono_r; lia). lia.
Qed.

Lemma land_pow2 x n : 0 <= n -> Z.land x (2 ^ n) = if Z.testbit x n then 2 ^ n else 0.
Proof.
  intros Hn. apply Z.bits_inj'. intros i Hi. rewrite Z.land_spec, Z.pow2_bits_eqb by lia.
  destruct (Z.eqb_spec n i) as [<-|Hne].
  - rewrite andb_true_r. destruct (Z.testbit x n) eqn:E; [|by rewrite Z.bits_0].
    by rewrite Z.pow2_bits_true.
  - rewrite andb_false_r. destruct (Z.testbit x n); [|by rewrite Z.bits_0].
    by rewrite Z.pow2_bits_false by lia.
Qed.

(** Truncating a value that carries at most one bit too many clears that bit. *)
Lemma mod_pow2_carry n y :
  0 <= n -> 0 <= y < 2 ^ (n + 1) ->
  y mod 2 ^ n = Z.lxor y (if Z.testbit y n then 2 ^ n else 0).
Proof.
  intros Hn Hy. apply Z.bits_inj'. intros i Hi. rewrite Z.lxor_spec.
  assert (Hc : Z.testbit (if Z.testbit y n then 2 ^ n else 0) i = (n =? i) && Z.testbit y n).
  { destruct (Z.testbit y n); [|by rewrite Z.bits_0, andb_false_r].
    by rewrite Z.pow2_bits_eqb, andb_true_r by lia. }
  rewrite Hc. destruct (Z.lt_trichotomy i n) as [?|[->|?]].
  - rewrite Z.mod_pow2_bits_low by lia. rewrite (proj2 (Z.eqb_neq _ _)) by lia.
    by rewrite andb_false_l, xorb_false_r.
  - by rewrite Z.mod_pow2_bits_high, Z.eqb_refl, andb_true_l, xorb_nilpotent by lia.
  - rewrite Z.mod_pow2_bits_high by lia. rewrite (testbit_high (n + 1) y) by lia.
    rewrite (proj2 (Z.eqb_neq _ _)) by lia. done.
Qed.

(** ** The shift register *)

(** A top-first shift step: [2x], minus (xor) the generator when bit 16 appears. *)
Lemma tropic_bit_spec x :
  u16 x ->
  TropicCrc.crc16_bit x = Z.lxor (2 * x) (if Z.testbit x 15 then 0x18005 else 0).
Proof.
  intros Hx. unfold TropicCrc.crc16_bit, as_u16.
  change 0x8000 with (2 ^ 15). rewrite land_pow2 by lia.
  rewrite Z.shiftl_mul_pow2, Z.mul_comm by lia. change (2 ^ 1) with 2.
  change 65536 with (2 ^ 16). rewrite mod_pow2_carry by (change (2 ^ (16 + 1)) with 131072; u_solve).
  change 16 with (Z.succ 15) at 1 3. rewrite Z.double_bits_succ.
  destruct (Z.testbit x 15); simpl negb; cbv iota.
  - by rewrite Z.lxor_assoc.
  - done.
Qed.

Lemma u16_tropic_bit x : u16 x -> u16 (TropicCrc.crc16_bit x).
Proof.
  intros Hx. unfold TropicCrc.crc16_bit.
  case_match; [apply u16_lxor|]; (apply u16_as_u16 || u_solve).
Qed.

Lemma u16_iter f n x : (forall y, u16 y -> u16 (f y)) -> u16 x -> u16 (Nat.iter n f x).
Proof. intros Hf Hx. induction n; simpl; auto. Qed.

Lemma tropic_bit_inj x y :
  u16 x -> u16 y -> TropicCrc.crc16_bit x = TropicCrc.crc16_bit y -> x = y.
Proof.
  intros Hx Hy. rewrite !tropic_bit_spec by done. intros H.
  assert (Hb : Z.testbit x 15 = Z.testbit y 15).
  { apply (f_equal (fun z => Z.testbit z 0)) in H. cbv beta in H. rewrite !Z.lxor_spec in H.
    rewrite !Z.testbit_even_0 in H.
    by destruct (Z.testbit x 15), (Z.testbit y 15). }
  rewrite Hb in H. apply lxor_cancel_r in H. lia.
Qed.

(** A bottom-first shift step, the mirror image: the generator is 0x8408. *)
Lemma u16_stsafe_bit x : u16 x -> u16 (StsafeCrc.crc16_bit x).
Proof.
  intros Hx. assert (u16 (Z.shiftr x 1)).
  { rewrite Z.shiftr_div_pow2 by lia. unfold u16 in *.
    split; [apply Z.div_pos; lia|apply Z.div_lt_upper_bound; lia]. }
  unfold StsafeCrc.crc16_bit. case_match; [apply u16_lxor|]; done || u_solve.
Qed.

Lemma stsafe_bit_spec x :
  StsafeCrc.crc16_bit x =
    Z.lxor (Z.shiftr x 1) (if Z.testbit x 0 then 0x8408 else 0).
Proof.
  unfold StsafeCrc.crc16_bit. change 1 with (2 ^ 0) at 1. rewrite land_pow2 by lia.
  destruct (Z.testbit x 0); [done|]. by rewrite Z.lxor_0_r.
Qed.

Lemma stsafe_bit_inj x y :
  u16 x -> u16 y -> StsafeCrc.crc16_bit x = StsafeCrc.crc16_bit y -> x = y.
Proof.
  intros Hx Hy. rewrite !stsafe_bit_spec. intros H.
  assert (Hhi : forall z, u16 z -> Z.testbit (Z.shiftr z 1) 15 = false).
  { intros z Hz. rewrite Z.shiftr_spec by lia. apply (testbit_high 16); u_solve. }
  assert (Hb : Z.testbit x 0 = Z.testbit y 0).
  { apply (f_equal (fun z => Z.testbit z 15)) in H. cbv beta in H.
    rewrite !Z.lxor_spec, !Hhi in H by done.
    by destruct (Z.testbit x 0), (Z.testbit y 0). }
  rewrite Hb in H. apply lxor_cancel_r in H.
  apply Z.bits_inj'. intros i Hi. destruct (decide (i = 0)) as [->|]; [done|].
  apply (f_equal (fun z => Z.testbit z (i - 1))) in H. cbv beta in H.
  rewrite !Z.shiftr_spec in H by lia. by rewrite Z.sub_add in H.
Qed.

Lemma iter_inj f n x y :
  (forall z, u16 z -> u16 (f z)) ->
  (forall a b, u16 a -> u16 b -> f a = f b -> a = b) ->
  u16 x -> u16 y -> Nat.iter n f x = Nat.iter n f y -> x = y.
Proof.
  intros Hf Hinj Hx Hy. induction n as [|n IH]; [done|]. simpl. intros H.
  apply IH, Hinj, H; apply u16_iter; auto.
Qed.

(** ** One changed byte changes the CRC *)

Section single_byte.
Variable step : Z -> Z -> Z.
Hypothesis step_u16 : forall c b, u16 c -> u8 b -> u16 (step c b).
Hypothesis step_inj_state : forall c c' b, u16 c -> u16 c' -> u8 b -> step c b = step c' b -> c = c'.
Hypothesis step_inj_byte : forall c b b', u16 c -> u8 b -> u8 b' -> step c b = step c b' -> b = b'.

Lemma fold_u16 l c : wf l -> u16 c -> u16 (fold_left step l c).
Proof. intros Hl. revert c. induction Hl; intros c Hc; simpl; auto. Qed.

Lemma fold_inj_state l c c' :
  wf l -> u16 c -> u16 c' -> fold_left step l c = fold_left step l c' -> c = c'.
Proof.
  intros Hl. revert c c'. induction Hl as [|b l Hb Hl IH]; intros c c' Hc Hc' H; [done|].
  simpl in H. apply IH in H; auto. eauto.
Qed.

Lemma fold_single_byte l k b b' c :
  wf (l ++ b :: k) -> u8 b' -> u16 c ->
  fold_left step (l ++ b :: k) c = fold_left step (l ++ b' :: k) c -> b = b'.
Proof.
  intros [Hl Hk]%wf_app_inv Hb' Hc. apply wf_cons_inv in Hk as [Hb Hk].
  rewrite !fold_left_app. simpl. intros H.
  assert (u16 (fold_left step l c)) by by apply fold_u16.
  apply fold_inj_state in H; eauto.
Qed.
End single_byte.

Lemma u16_tropic_byte c b : u16 c -> u8 b -> u16 (TropicCrc.crc16_byte c b).
Proof.
  intros. apply u16_iter; [apply u16_tropic_bit|]. apply u16_lxor; [done|by apply u8_u16_shift].
Qed.

Lemma tropic_byte_inj_state c c' b :
  u16 c -> u16 c' -> u8 b -> TropicCrc.crc16_byte c b = TropicCrc.crc16_byte c' b -> c = c'.
Proof.
  intros Hc Hc' Hb H. eapply iter_inj in H; [by eapply lxor_cancel_r|..];
    eauto using u16_tropic_bit, tropic_bit_inj, u16_lxor, u8_u16_shift.
Qed.

Lemma tropic_byte_inj_byte c b b' :
  u16 c -> u8 b -> u8 b' -> TropicCrc.crc16_byte c b = TropicCrc.crc16_byte c b' -> b = b'.
Proof.
  intros Hc Hb Hb' H. eapply iter_inj in H;
    eauto using u16_tropic_bit, tropic_bit_inj, u16_lxor, u8_u16_shift.
  apply lxor_cancel_l in H. rewrite !Z.shiftl_mul_pow2 in H by lia. lia.
Qed.

Lemma u16_stsafe_byte c b : u16 c -> u8 b -> u16 (StsafeCrc.crc16_byte c b).
Proof.
  intros. apply u16_iter; [apply u16_stsafe_bit|]. apply u16_lxor; [done|u_solve].
Qed.

Lemma stsafe_byte_inj_state c c' b :
  u16 c -> u16 c' -> u8 b -> StsafeCrc.crc16_byte c b = StsafeCrc.crc16_byte c' b -> c = c'.
Proof.
  intros Hc Hc' Hb H. assert (u16 b) by u_solve.
  eapply iter_inj in H; [by eapply lxor_cancel_r|..];
    eauto using u16_stsafe_bit, stsafe_bit_inj, u16_lxor.
Qed.

Lemma stsafe_byte_inj_byte c b b' :
  u16 c -> u8 b -> u8 b' -> StsafeCrc.crc16_byte c b = StsafeCrc.crc16_byte c b' -> b = b'.
Proof.
  intros Hc Hb Hb' H. assert (u16 b /\ u16 b') as [? ?] by u_solve.
  eapply iter_inj in H; [by eapply lxor_cancel_l|..];
    eauto using u16_stsafe_bit, stsafe_bit_inj, u16_lxor.
Qed.

Lemma u16_stsafe_crc l : wf l -> u16 (StsafeCrc.crc16_x25 l).
Proof.
  intros. apply u16_lxor; [|u_solve]. apply fold_u16; eauto using u16_stsafe_byte. u_solve.
Qed.

Lemma u16_tropic_state l : wf l -> u16 (TropicCrc.crc16_state l).
Proof. intros. apply fold_u16; eauto using u16_tropic_byte. u_solve. Qed.

(** Or-ing disjoint bit ranges adds them. *)
Lemma lor_shift_add n a b : 0 <= n -> 0 <= a < 2 ^ n -> Z.lor (Z.shiftl b n) a = a + 2 ^ n * b.
Proof.
  intros Hn Ha. assert (H : Z.land (Z.shiftl b n) a = 0).
  { apply Z.bits_inj'. intros i Hi. rewrite Z.land_spec, Z.bits_0.
    destruct (decide (i < n)); [by rewrite Z.shiftl_spec_low by lia|].
    by rewrite (testbit_high n a), andb_false_r by lia. }
  pose proof (Z.add_lor_land (Z.shiftl b n) a) as E. rewrite H in E.
  rewrite (Z.mul_comm (2 ^ n)), <- (Z.shiftl_mul_pow2 b) by lia. lia.
Qed.

Lemma div256_bound x : u16 x -> 0 <= x / 256 < 256.
Proof. unfold u16. intros. split; [apply Z.div_pos; lia|apply Z.div_lt_upper_bound; lia]. Qed.

(** TROPIC01's result is the state with its two bytes swapped: written
    big-endian it is the state in little-endian order. *)
Lemma bswap16 x : u16 x -> Z.lor (as_u16 (Z.shiftl x 8)) (Z.shiftr x 8) = be_val (le_bytes 2 x).
Proof.
  intros Hx. pose proof (div256_bound x Hx).
  rewrite (Z.shiftr_div_pow2 x) by lia. change (2 ^ 8) with 256.
  unfold be_val, reverse; simpl. rewrite (Z.mod_small (x / 256)) by lia.
  replace (as_u16 (Z.shiftl x 8)) with (Z.shiftl (x mod 256) 8).
  - rewrite lor_shift_add by lia. lia.
  - unfold as_u16. rewrite !Z.shiftl_mul_pow2 by lia. change 65536 with (256 * 2 ^ 8).
    by rewrite Z.mul_mod_distr_r by lia.
Qed.

Lemma tropic_crc_swap l : wf l -> TropicCrc.crc16 l = be_val (le_bytes 2 (TropicCrc.crc16_state l)).
Proof. intros. by apply bswap16, u16_tropic_state. Qed.

Lemma be_val_bounds l : wf l -> 0 <= be_val l < 256 ^ len l.
Proof. intros. unfold be_val. rewrite <- len_reverse. apply le_val_bounds. by apply wf_reverse. Qed.

Lemma u16_tropic_crc l : wf l -> u16 (TropicCrc.crc16 l).
Proof.
  intros. rewrite tropic_crc_swap by done. apply (be_val_bounds (le_bytes 2 _)), wf_le_bytes.
Qed.

Lemma append_crc_be l : wf l -> TropicCrc.append_crc l = l ++ be_bytes 2 (TropicCrc.crc16 l).
Proof.
  intros Hl. pose proof (u16_tropic_crc l Hl) as Hc. pose proof (div256_bound _ Hc).
  unfold TropicCrc.append_crc, as_u8.
  change (be_bytes 2 ?x) with [x / 256 mod 256; x mod 256].
  change 0xFF with (Z.ones 8). rewrite Z.land_ones, Z.shiftr_div_pow2 by lia.
  by rewrite (Z.mod_mod (TropicCrc.crc16 l)) by lia.
Qed.

Lemma be_bytes2_inj x y : u16 x -> u16 y -> be_bytes 2 x = be_bytes 2 y -> x = y.
Proof.
  intros Hx Hy H. apply (f_equal be_val) in H.
  by rewrite !be_val_be_bytes in H by (change (256 ^ Z.of_nat 2) with 65536; u_solve).
Qed.

Lemma tropic_crc_state_inj l k :
  wf l -> wf k -> TropicCrc.crc16 l = TropicCrc.crc16 k ->
  TropicCrc.crc16_state l = TropicCrc.crc16_state k.
Proof.
  intros Hl Hk H. rewrite !tropic_crc_swap in H by done.
  pose proof (u16_tropic_state l Hl). pose proof (u16_tropic_state k Hk).
  apply (f_equal (be_bytes 2)) in H.
  rewrite !be_bytes_be_val in H by (done || apply wf_le_bytes).
  apply (f_equal le_val) in H.
  by rewrite !le_val_le_bytes in H by (change (256 ^ Z.of_nat 2) with 65536; u_solve).
Qed.

(** One changed byte changes the CRC. *)
Lemma tropic_crc_single_byte l k b b' :
  wf (l ++ b :: k) -> u8 b' ->
  TropicCrc.crc16 (l ++ b :: k) = TropicCrc.crc16 (l ++ b' :: k) -> b = b'.
Proof.
  intros Hl Hb' H. apply tropic_crc_state_inj in H; [|done|].
  - refine (fold_single_byte _ u16_tropic_byte tropic_byte_inj_state tropic_byte_inj_byte
      _ _ _ _ 0 Hl Hb' _ H). u_solve.
  - apply wf_app_inv in Hl as [? [??]%wf_cons_inv]. auto with wfdb.
Qed.

Lemma stsafe_crc_single_byte l k b b' :
  wf (l ++ b :: k) -> u8 b' ->
  StsafeCrc.crc16_x25 (l ++ b :: k) = StsafeCrc.crc16_x25 (l ++ b' :: k) -> b = b'.
Proof.
  intros Hl Hb' H. apply lxor_cancel_r in H.
  refine (fold_single_byte _ u16_stsafe_byte stsafe_byte_inj_state stsafe_byte_inj_byte
    _ _ _ _ 0xFFFF Hl Hb' _ H). u_solve.
Qed.

(** ** The CRC as a polynomial remainder

    A binary polynomial is a [Z]; [gf2_mul q p] multiplies by the polynomial with
    the bit list [q], low coefficient first. *)

Fixpoint gf2_mul (q : list bool) (p : Z) : Z :=
  match q with
  | [] => 0
  | b :: q => Z.lxor (if b then p else 0) (2 * gf2_mul q p)
  end.

(** [a] and [b] are congruent modulo the polynomial [p]. *)
Definition gf2_congr (p a b : Z) : Prop := exists q, Z.lxor a b = gf2_mul q p.

Lemma gf2_congr_step p a y (t : bool) :
  gf2_congr p a y -> gf2_congr p (2 * a) (Z.lxor (2 * y) (if t then p else 0)).
Proof.
  intros [q Hq]. exists (t :: q). simpl. rewrite <- Hq, double_lxor.
  rewrite <- Z.lxor_assoc. apply Z.lxor_comm.
Qed.

Lemma gf2_congr_iter n a y :
  u16 y -> gf2_congr 0x18005 a y ->
  gf2_congr 0x18005 (2 ^ Z.of_nat n * a) (Nat.iter n TropicCrc.crc16_bit y).
Proof.
  intros Hy Ha. induction n as [|n IH]; [by rewrite Z.mul_1_l|].
  simpl Nat.iter. rewrite tropic_bit_spec by (apply u16_iter; [apply u16_tropic_bit|done]).
  rewrite Nat2Z.inj_succ, Z.pow_succ_r, <- Z.mul_assoc by lia. by apply gf2_congr_step.
Qed.

Lemma be_val_snoc l b : be_val (l ++ [b]) = b + 256 * be_val l.
Proof. unfold be_val. by rewrite reverse_snoc. Qed.

Lemma tropic_state_congr l :
  wf l -> gf2_congr 0x18005 (2 ^ 16 * be_val l) (TropicCrc.crc16_state l).
Proof.
  induction l as [|b l IH] using rev_ind; intros Hl; [by exists []|].
  apply wf_app_inv in Hl as [Hl [Hb _]%wf_cons_inv]. specialize (IH Hl).
  unfold TropicCrc.crc16_state. rewrite fold_left_app. simpl fold_left.
  fold (TropicCrc.crc16_state l). unfold TropicCrc.crc16_byte.
  set (y := Z.lxor (TropicCrc.crc16_state l) (Z.shiftl b 8)).
  assert (Hy : u16 y) by (apply u16_lxor; auto using u16_tropic_state, u8_u16_shift).
  assert (Hxy : gf2_congr 0x18005 (Z.lxor (2 ^ 16 * be_val l) (Z.shiftl b 8)) y).
  { destruct IH as [q Hq]. exists q. rewrite <- Hq. unfold y.
    rewrite Z.lxor_assoc, (Z.lxor_comm (Z.shiftl b 8)), Z.lxor_assoc, Z.lxor_nilpotent.
    by rewrite Z.lxor_0_r. }
  apply (gf2_congr_iter 8) in Hxy; [|done].
  replace (2 ^ 16 * be_val (l ++ [b])) with
    (2 ^ Z.of_nat 8 * Z.lxor (2 ^ 16 * be_val l) (Z.shiftl b 8)); [done|].
  rewrite be_val_snoc. replace (2 ^ 16 * be_val l) with (Z.shiftl (2 ^ 8 * be_val l) 8)
    by (rewrite Z.shiftl_mul_pow2; lia).
  rewrite <- Z.shiftl_lxor, Z.shiftl_mul_pow2 by lia.
  assert (E : Z.lxor (2 ^ 8 * be_val l) b = b + 256 * be_val l).
  { replace (2 ^ 8 * be_val l) with (Z.shiftl (be_val l) 8) by (rewrite Z.shiftl_mul_pow2; lia).
    rewrite <- (lor_shift_add 8) by (unfold u8 in Hb; lia). symmetry. apply Z.bits_inj'.
    intros i Hi. rewrite Z.lor_spec, Z.lxor_spec. destruct (decide (i < 8)).
    - by rewrite Z.shiftl_spec_low by lia.
    - rewrite (testbit_high 8 b) by (u_solve || lia). by rewrite orb_false_r, xorb_false_r. }
  rewrite E. lia.
Qed.

(** ** ATECC608's CRC is the same polynomial with the bits of each byte reversed *)

(** The register value a list of data bits, first bit on top, stands for. *)
Fixpoint top_bits (ds : list bool) : Z :=
  match ds with
  | [] => 0
  | d :: ds => Z.lxor (if d then 32768 else 0) (top_bits ds / 2)
  end.

Definition byte_bits (b : Z) : list bool :=
  Z.testbit b <$> [0; 1; 2; 3; 4; 5; 6; 7].

Definition bitrev8 (b : Z) : Z :=
  fold_left (fun acc d => 2 * acc + Z.b2z d) (byte_bits b) 0.

Lemma u16_top_bits ds : u16 (top_bits ds).
Proof.
  induction ds as [|d ds IH]; [simpl; u_solve|]. simpl. apply u16_lxor; [destruct d; u_solve|].
  unfold u16 in *. split; [apply Z.div_pos; lia|apply Z.div_lt_upper_bound; lia].
Qed.

(** Fifteen bits leave the bottom of the register clear. *)
Lemma top_bits_low ds i :
  0 <= i < 16 - len ds -> Z.testbit (top_bits ds) i = false.
Proof.
  revert i. induction ds as [|d ds IH]; intros i Hi; [apply Z.bits_0|].
  rewrite len_cons in Hi. pose proof (len_nonneg ds). simpl.
  rewrite Z.lxor_spec. change 2 with (2 ^ 1). rewrite <- Z.shiftr_div_pow2, Z.shiftr_spec by lia.
  rewrite IH by lia. destruct d; [|by rewrite Z.bits_0].
  change 32768 with (2 ^ 15). by rewrite Z.pow2_bits_false by lia.
Qed.

Lemma tropic_bit_lxor x y :
  u16 x -> u16 y ->
  TropicCrc.crc16_bit (Z.lxor x y) = Z.lxor (TropicCrc.crc16_bit x) (TropicCrc.crc16_bit y).
Proof.
  intros Hx Hy. rewrite !tropic_bit_spec by auto using u16_lxor.
  rewrite double_lxor, Z.lxor_spec. apply Z.bits_inj'. intros i Hi. rewrite !Z.lxor_spec.
  destruct (Z.testbit x 15), (Z.testbit y 15); simpl; rewrite ?Z.bits_0;
    destruct (Z.testbit (2 * x) i), (Z.testbit (2 * y) i), (Z.testbit 98309 i); done.
Qed.

Lemma tropic_bit_half w :
  u16 w -> Z.testbit w 0 = false -> TropicCrc.crc16_bit (w / 2) = w.
Proof.
  intros Hw H0. assert (u16 (w / 2)).
  { unfold u16 in *. split; [apply Z.div_pos; lia|apply Z.div_lt_upper_bound; lia]. }
  assert (Hlt : w / 2 < 32768) by (apply Z.div_lt_upper_bound; u_solve).
  rewrite tropic_bit_spec by done. rewrite (testbit_high 15) by (u_solve || lia).
  rewrite Z.lxor_0_r. rewrite Z.bit0_odd, <- Z.negb_even in H0.
  apply negb_false_iff, Z.even_spec in H0 as [k ->].
  rewrite (Z.mul_comm 2 k), Z.div_mul by lia. lia.
Qed.

Lemma feed_bits ds c :
  len ds <= 15 -> u16 c ->
  fold_left (fun c (d : bool) => TropicCrc.crc16_bit (Z.lxor c (if d then 32768 else 0))) ds c
  = Nat.iter (length ds) TropicCrc.crc16_bit (Z.lxor c (top_bits ds)).
Proof.
  revert c. induction ds as [|d ds IH]; intros c Hl Hc; [by rewrite Z.lxor_0_r|].
  rewrite len_cons in Hl. cbn [fold_left length top_bits].
  assert (Hd : u16 (if d then 32768 else 0)) by (destruct d; u_solve).
  assert (Hw : u16 (top_bits ds / 2)).
  { pose proof (u16_top_bits ds). unfold u16 in *.
    split; [apply Z.div_pos; lia|apply Z.div_lt_upper_bound; lia]. }
  rewrite IH by (lia || by apply u16_tropic_bit, u16_lxor).
  rewrite Nat.iter_succ_r. f_equal.
  rewrite <- Z.lxor_assoc, (tropic_bit_lxor _ (top_bits ds / 2)) by auto using u16_lxor.
  rewrite tropic_bit_half; [done|apply u16_top_bits|].
  apply top_bits_low. pose proof (len_nonneg ds). lia.
Qed.

Lemma atecc_bit_spec byte crc bit :
  u16 crc -> u8 byte -> 0 <= bit ->
  AteccCrc.crc16_bit byte crc bit
  = TropicCrc.crc16_bit (Z.lxor crc (if Z.testbit byte bit then 32768 else 0)).
Proof.
  intros Hc Hb Hbit. set (d := Z.testbit byte bit).
  assert (Hd : u16 (if d then 32768 else 0)) by (destruct d; u_solve).
  rewrite tropic_bit_lxor, !tropic_bit_spec by done. unfold AteccCrc.crc16_bit.
  assert (E1 : Z.land (Z.shiftr byte bit) 1 = Z.b2z d).
  { change 1 with (Z.ones 1). rewrite Z.land_ones, Z.shiftr_div_pow2 by lia.
    unfold d. by rewrite Z.testbit_spec' by lia. }
  assert (E2 : Z.shiftr crc 15 = Z.b2z (Z.testbit crc 15)).
  { rewrite Z.testbit_spec', Z.shiftr_div_pow2 by lia. symmetry. apply Z.mod_small.
    change (2 ^ 15) with 32768. unfold u16 in Hc.
    split; [apply Z.div_pos; lia|apply Z.div_lt_upper_bound; lia]. }
  rewrite E1, E2. unfold as_u16. rewrite Z.shiftl_mul_pow2, Z.mul_comm by lia.
  change (2 ^ 1) with 2. change 65536 with (2 ^ 16).
  rewrite mod_pow2_carry by (change (2 ^ (16 + 1)) with 131072; u_solve).
  change 16 with (Z.succ 15) at 1 3. rewrite Z.double_bits_succ.
  destruct d, (Z.testbit crc 15); cbn [negb Z.b2z Z.eqb Pos.eqb];
    rewrite ?Z.lxor_0_r, ?Z.lxor_assoc; done.
Qed.

Lemma atecc_byte_spec crc b :
  u16 crc -> u8 b -> AteccCrc.crc16_byte crc b = TropicCrc.crc16_byte crc (bitrev8 b).
Proof.
  intros Hc Hb. unfold AteccCrc.crc16_byte, TropicCrc.crc16_byte.
  assert (Hw : top_bits (byte_bits b) = Z.shiftl (bitrev8 b) 8).
  { assert (Hall : Forall (fun b => top_bits (byte_bits b) = Z.shiftl (bitrev8 b) 8) (seqZ 0 256)).
    { apply (bool_decide_unpack _). vm_compute. done. }
    rewrite Forall_forall in Hall. apply Hall. apply elem_of_seqZ. u_solve. }
  rewrite <- Hw. change 8%nat with (length (byte_bits b)).
  rewrite <- feed_bits by (done || by vm_compute).

  assert (Hpos : forall l, Forall (fun i => 0 <= i) l -> forall c, u16 c ->
    fold_left (AteccCrc.crc16_bit b) l c =
    fold_left (fun c (d : bool) => TropicCrc.crc16_bit (Z.lxor c (if d then 32768 else 0)))
      (Z.testbit b <$> l) c).
  { induction 1 as [|i l Hi Hl IH]; intros c Hcc; [done|]. simpl.
    rewrite atecc_bit_spec by done. apply IH. apply u16_tropic_bit, u16_lxor; [done|].
    destruct (Z.testbit b i); u_solve. }
  apply Hpos; [|done]. repeat constructor; lia.
Qed.

Lemma u8_bitrev8 b : u8 (bitrev8 b).
Proof.
  assert (Hd : forall d, 0 <= Z.b2z d <= 1) by (intros []; simpl; lia).
  unfold bitrev8, byte_bits, u8. cbn [fmap list_fmap fold_left].
  pose proof (Hd (Z.testbit b 0)). pose proof (Hd (Z.testbit b 1)).
  pose proof (Hd (Z.testbit b 2)). pose proof (Hd (Z.testbit b 3)).
  pose proof (Hd (Z.testbit b 4)). pose proof (Hd (Z.testbit b 5)).
  pose proof (Hd (Z.testbit b 6)). pose proof (Hd (Z.testbit b 7)). lia.
Qed.

Lemma atecc_crc_state l c :
  wf l -> u16 c ->
  fold_left AteccCrc.crc16_byte l c = fold_left TropicCrc.crc16_byte (bitrev8 <$> l) c.
Proof.
  intros Hl. revert c. induction Hl as [|b l Hb Hl IH]; intros c Hc; [done|]. simpl.
  rewrite atecc_byte_spec by done. apply IH. apply u16_tropic_byte; [done|apply u8_bitrev8].
Qed.

Lemma u16_atecc_crc l : wf l -> u16 (AteccCrc.crc16 l).
Proof.
  intros Hl. unfold AteccCrc.crc16. rewrite atecc_crc_state by (done || u_solve).
  apply fold_u16; [apply u16_tropic_byte| |u_solve]. apply Forall_fmap.
  eapply Forall_impl; [exact Hl|]. intros. apply u8_bitrev8.
Qed.

Lemma bitrev8_inj b b' : u8 b -> u8 b' -> bitrev8 b = bitrev8 b' -> b = b'.
Proof.
  assert (Hall : Forall (fun b => bitrev8 (bitrev8 b) = b) (seqZ 0 256)).
  { apply (bool_decide_unpack _). vm_compute. done. }
  rewrite Forall_forall in Hall. intros Hb Hb' H.
  rewrite <- (Hall b), <- (Hall b') by (apply elem_of_seqZ; u_solve). by rewrite H.
Qed.

Lemma wf_bitrev8 l : wf (bitrev8 <$> l).
Proof. apply Forall_fmap, Forall_true. intros. apply u8_bitrev8. Qed.

Lemma atecc_crc_single_byte l k b b' :
  wf (l ++ b :: k) -> u8 b' ->
  AteccCrc.crc16 (l ++ b :: k) = AteccCrc.crc16 (l ++ b' :: k) -> b = b'.
Proof.
  intros Hl Hb'. pose proof Hl as [Hl1 [Hb Hk]%wf_cons_inv]%wf_app_inv.
  unfold AteccCrc.crc16. rewrite !atecc_crc_state by (auto with wfdb; u_solve).
  rewrite !fmap_app, !fmap_cons. intros H. apply bitrev8_inj; [done|done|].
  refine (fold_single_byte _ u16_tropic_byte tropic_byte_inj_state tropic_byte_inj_byte
    _ _ _ _ 0 _ (u8_bitrev8 b') _ H); [|u_solve].
  apply wf_app, wf_cons; auto using wf_bitrev8, u8_bitrev8.
Qed.

Lemma crc16_le_bytes l : wf l -> AteccCrc.crc16_le l = le_bytes 2 (AteccCrc.crc16 l).
Proof.
  intros Hl. pose proof (div256_bound _ (u16_atecc_crc l Hl)) as Hd.
  unfold AteccCrc.crc16_le, as_u8. change 0xFF with (Z.ones 8).
  rewrite Z.land_ones, Z.shiftr_div_pow2 by lia. change (2 ^ 8) with 256. simpl.
  by rewrite (Z.mod_mod (AteccCrc.crc16 l)) by lia.
Qed.

(** A trailer that carries the CRC of the body detects every one-byte change: no
    two framed strings differ in exactly one byte. *)
Lemma crc_trailer_detects (crc : bytes -> Z) (enc : Z -> bytes) (l k p p' : bytes) (b b' : Z) :
  (forall x y, u16 x -> u16 y -> enc x = enc y -> x = y) ->
  (forall m, wf m -> u16 (crc m)) ->
  (forall l k b b', wf (l ++ b :: k) -> u8 b' -> crc (l ++ b :: k) = crc (l ++ b' :: k) -> b = b') ->
  wf p -> wf p' -> u8 b' -> length p = length p' ->
  l ++ b :: k = p ++ enc (crc p) -> l ++ b' :: k = p' ++ enc (crc p') -> b = b'.
Proof.
  intros Henc Hcrc Hone Hp Hp' Hb' Hlen H H'.
  destruct (single_split _ _ _ _ _ _ _ _ H H' Hlen) as [(m & -> & -> & E)|(-> & m & E & E')].
  - apply Henc in E; auto. by eapply Hone.
  - rewrite E in E'. by simplify_list_eq.
Qed.

Lemma le_bytes2_inj x y : u16 x -> u16 y -> le_bytes 2 x = le_bytes 2 y -> x = y.
Proof.
  intros Hx Hy H. apply (f_equal le_val) in H.
  by rewrite !le_val_le_bytes in H by (change (256 ^ Z.of_nat 2) with 65536; u_solve).
Qed.

(** ** The properties *)

(** TROPIC01's CRC register is the remainder of the message, shifted up by 16
    bits, in the division by x^16 + x^15 + x^2 + 1 over GF(2), and the value the
    code returns is that remainder with its two bytes swapped. *)
Theorem tropic_crc_remainder (l : bytes) (Hl : wf l) :
  let r := TropicCrc.crc16_state l in
  u16 r /\ gf2_congr 0x18005 (2 ^ 16 * be_val l) r /\ be_bytes 2 (TropicCrc.crc16 l) = le_bytes 2 r.
Proof.
  split; [by apply u16_tropic_state|]. split; [by apply tropic_state_congr|].
  rewrite tropic_crc_swap by done. by rewrite be_bytes_be_val by (done || apply wf_le_bytes).
Qed.

Lemma tropic_crc_remainder_witness :
  wf [0x01; 0x02; 0x01; 0x00] /\
  gf2_congr 0x18005 (2 ^ 16 * be_val [0x01; 0x02; 0x01; 0x00])
    (TropicCrc.crc16_state [0x01; 0x02; 0x01; 0x00]).
Proof.
  assert (H : wf [0x01; 0x02; 0x01; 0x00]) by (repeat constructor; u_solve).
  split; [exact H|]. exact (proj1 (proj2 (tropic_crc_remainder _ H))).
Defined.
