(* ===== verification/Host.v ===== *)
(** * The host the servers run on

    Streams and files, shared by the TCP servers of the simulators.  An input stream
    is the list of the bytes still to come.  The file system and the JSON encoding
    of a device are parameters: [fs_write] is [serde_json::to_vec_pretty] followed by
    [fs::write], and [fs_read] is [fs::read] followed by [serde_json::from_slice],
    [None] when the file does not exist. *)

From S2P Require Import Prelude.

(** [std::io::ErrorKind], as far as the servers use it. *)
Inductive io_error := UnexpectedEof | InvalidData | InvalidInput | Other.

(** [Read::read_exact] on the bytes that are still to come. *)
Definition read_exact (r : bytes) (n : Z) : option (bytes * bytes) :=
  if n <=? len r then Some (sub r 0 n, drop (Z.to_nat n) r) else None.

Lemma read_exact_app (a b : bytes) : read_exact (a ++ b) (len a) = Some (a, b).
Proof.
  unfold read_exact. pose proof (len_nonneg b).
  rewrite len_app, (proj2 (Z.leb_le _ _)) by lia. rewrite sub_prefix.
  unfold len. by rewrite Nat2Z.id, drop_app_length.
Qed.

Lemma read_exact_inv r n a b :
  0 <= n -> read_exact r n = Some (a, b) -> r = a ++ b /\ len a = n.
Proof.
  intros Hn. unfold read_exact. destruct (Z.leb_spec n (len r)) as [Hl|]; [|done].
  intros [= <- <-]. split.
  - unfold sub. rewrite drop_0, Z.sub_0_r. by rewrite take_drop.
  - len_solve.
Qed.

Lemma read_exact_wf stream n a b : 0 <= n -> wf stream -> read_exact stream n = Some (a, b) ->
  wf a /\ wf b /\ len a = n.
Proof. intros Hn Hw E. apply read_exact_inv in E as [-> <-]; [|done]. by apply wf_app_inv in Hw as [? ?]. Qed.

(** The files that hold the state of a [device]. *)
Class FileSystem (device : Type) := {
  fs : Type;
  path : Type;
  fs_write : fs -> path -> device -> Result fs io_error;
  fs_read : fs -> path -> option (Result device io_error);
}.

(** What was written is read back. *)
Class FileSystemOk {device} (F : FileSystem device) := {
  fs_read_write f p d f' : fs_write f p d = Ok f' -> fs_read f' p = Some (Ok d);
}.

(** A file system that holds one file, for examples. *)
Definition one_file (device : Type) : FileSystem device := {|
  fs := option device;
  path := unit;
  fs_write f p d := Ok (Some d);
  fs_read f p := Ok <$> f;
|}.

Lemma one_file_ok device : FileSystemOk (one_file device).
Proof. split. intros f p d f' [= <-]. done. Qed.
