(* ===== verification/Connections.v ===== *)
(** * Servers with many connections

    What the TCP servers of the four secure elements have in common: one shared
    server state, a session per connection, and a loop that serves one message of
    the connection's stream per turn.  [Protocol] is the interface a simulator
    implements ([step] is the body of its loop), [ProtocolOk] what it promises of one
    turn; the loop, the interleaving of connections and their guarantees are proved
    here once, against the interface. *)

From S2P Require Import Prelude.
From S2P Require Import Host.

(** How one turn of a connection's loop ends. *)
Inductive outcome :=
  | Again
  | Closed
  | Failed (e : io_error).

(** [step] gives the server, the session, the rest of the stream, what was written,
    and the outcome. *)
Class Protocol := {
  Srv : Type;
  Ses : Type;
  session_init : Ses;
  step : Srv -> Ses -> bytes -> res (Srv * Ses * bytes * bytes * outcome);
}.

Section loop.
Context `{P : Protocol}.

(** The loop; [None] when the fuel runs out. *)
Fixpoint serve (fuel : nat) (sv : Srv) (session : Ses) (stream : bytes)
  : res (Srv * Ses * bytes * option outcome) :=
  match fuel with
  | O => Ret (sv, session, [], None)
  | S fuel =>
      let! '(sv, session, stream, out, o) := step sv session stream in
      match o with
      | Again =>
          let! '(sv, session, out', o) := serve fuel sv session stream in
          Ret (sv, session, out ++ out', o)
      | _ => Ret (sv, session, out, Some o)
      end
  end.

(** A connection from its start.  Every turn that goes on takes at least one byte of
    the stream, so this fuel is enough ([serve_ends]). *)
Definition handle_connection (sv : Srv) (stream : bytes) : res (Srv * Ses * bytes * option outcome) :=
  serve (S (length stream)) sv session_init stream.

(** The state of one connection's thread: its session, what it has not read yet, what
    it has written, and whether its loop goes on. *)
Record Conn := mkConn {
  c_session : Ses;
  c_in : bytes;
  c_out : bytes;
  c_state : outcome;
}.

Definition conn_new (stream : bytes) : Conn := mkConn session_init stream [] Again.

Definition turn (sv : Srv) (c : Conn) : res (Srv * Conn) :=
  match c_state c with
  | Again =>
      let! '(sv, session, stream, out, o) := step sv (c_session c) (c_in c) in
      Ret (sv, mkConn session stream (c_out c ++ out) o)
  | _ => Ret (sv, c)
  end.

(** The threads take turns in any order: a schedule is a list of connection numbers. *)
Fixpoint run_schedule (sched : list nat) (sv : Srv) (conns : list Conn) : res (Srv * list Conn) :=
  match sched with
  | [] => Ret (sv, conns)
  | i :: sched =>
      match conns !! i with
      | None => run_schedule sched sv conns
      | Some c =>
          let! '(sv, c) := turn sv c in
          run_schedule sched sv (<[i := c]> conns)
      end
  end.
End loop.

(** What a simulator promises of one turn: an invariant [srv_ok] of the server, an
    order [srv_le] of how it may evolve, the shape of its answers, and that the
    device on disk stays the one in memory unless a write failed. *)
Class ProtocolOk (P : Protocol) := {
  srv_ok : Srv -> Prop;
  srv_le : Srv -> Srv -> Prop;
  srv_saved : Srv -> Prop;
  answer_ok : bytes -> Prop;
  srv_le_preorder :: PreOrder srv_le;
  step_safe sv s stream : srv_ok sv -> wf stream ->
    wp (step sv s stream) (fun '(sv', _, rest, out, o) =>
      srv_ok sv' /\ srv_le sv sv' /\ wf rest /\ (out = [] \/ answer_ok out) /\
      (o <> Failed Other -> srv_saved sv -> srv_saved sv'));
  step_shorter sv s stream :
    wlp (step sv s stream) (fun '(_, _, rest, _, o) => o = Again -> (length rest < length stream)%nat);
}.

Section safety.
Context `{POk : ProtocolOk}.

(** No connection has failed to save. *)
Definition disk_fine (conns : list Conn) : Prop := Forall (fun c => c_state c <> Failed Other) conns.

Record sim_ok (sv : Srv) (conns : list Conn) : Prop := {
  sim_server : srv_ok sv;
  sim_saved : disk_fine conns -> srv_saved sv;
  sim_streams : Forall (fun c => wf (c_in c)) conns;
  sim_answers : Forall (fun c => exists rs, c_out c = concat rs /\ Forall answer_ok rs) conns;
}.

Lemma turn_safe sv c :
  srv_ok sv -> wf (c_in c) ->
  wp (turn sv c) (fun '(sv', c') =>
    srv_ok sv' /\ srv_le sv sv' /\
    wf (c_in c') /\ (c_out c' = c_out c \/ exists r, answer_ok r /\ c_out c' = c_out c ++ r) /\
    (c_state c' <> Failed Other -> srv_saved sv -> srv_saved sv') /\
    (c_state c = Failed Other -> c_state c' = Failed Other)).
Proof.
  intros Hok Hw. unfold turn. destruct (c_state c) eqn:Es.
  2-3: apply wp_ret; split_and!; try congruence; auto; reflexivity.
  apply wp_bind. eapply wp_mono; [by apply step_safe|].
  intros [[[[sv' s'] rest] out] o] (Hd & Hle & Hr & Hout & Hsv). apply wp_ret.
  split_and!; cbn [c_in c_out c_state]; try done.
  destruct Hout as [->|Ho]; [left; apply app_nil_r|right; by exists out].
Qed.

Lemma turn_sim_ok sv conns i c sv1 c1 :
  sim_ok sv conns -> conns !! i = Some c -> turn sv c = Ret (sv1, c1) ->
  sim_ok sv1 (<[i := c1]> conns) /\ srv_le sv sv1.
Proof.
  intros [Hd Hs Hin Hout] Ei Et.
  pose proof (Forall_lookup_1 _ _ _ _ Hin Ei) as Hci. pose proof (Forall_lookup_1 _ _ _ _ Hout Ei) as Hco.
  pose proof (turn_safe sv c Hd Hci) as Ht. rewrite Et in Ht. cbn [wp] in Ht.
  destruct Ht as (Hd1 & Hle1 & Hw1 & Ho1 & Hs1 & Hf1). split; [split; [done| | |]|done].
  - intros Hfine. assert (Hc1 : c_state c1 <> Failed Other).
    { apply (Forall_lookup_1 _ _ i _ Hfine). apply list_lookup_insert_eq. by eapply lookup_lt_Some. }
    apply Hs1; [done|]. apply Hs. apply Forall_lookup. intros j cj Hj. destruct (decide (i = j)) as [<-|Hij].
    + rewrite Ei in Hj. injection Hj as <-. intros Hc. by apply Hc1, Hf1.
    + apply (Forall_lookup_1 _ _ j _ Hfine). by rewrite list_lookup_insert_ne.
  - by apply Forall_insert.
  - apply Forall_insert; [done|]. destruct Hco as (rs & Hrs & Hall).
    destruct Ho1 as [->|(r & Hr & ->)]; [by exists rs|]. exists (rs ++ [r]).
    rewrite Hrs, concat_app. cbn [concat]. rewrite app_nil_r. split; [done|].
    apply Forall_app_2; [done|]. by constructor.
Qed.

(** Whatever the streams and the schedule. *)
Lemma schedule_safe sched sv conns :
  sim_ok sv conns ->
  wp (run_schedule sched sv conns) (fun '(sv', conns') => sim_ok sv' conns' /\ srv_le sv sv').
Proof.
  revert sv conns. induction sched as [|i sched IH]; intros sv conns Hsim; cbn [run_schedule].
  { apply wp_ret. split; [done|reflexivity]. }
  destruct (conns !! i) as [c|] eqn:Ei; [|by apply IH].
  apply wp_bind, wp_value.
  - eapply wp_mono; [apply turn_safe; [apply Hsim|]|done].
    apply (Forall_lookup_1 _ _ _ _ (sim_streams _ _ Hsim) Ei).
  - intros [sv1 c1] Et. destruct (turn_sim_ok _ _ _ _ _ _ Hsim Ei Et) as [Hsim1 Hle1].
    eapply wp_mono; [by apply IH|]. intros [sv2 conns2] [Hsim2 Hle2]. split; [done|]. by etransitivity.
Qed.

(** Every loop ends: at the end of the stream, or by an outcome of the body. *)
Lemma serve_ends fuel sv s stream :
  (length stream < fuel)%nat -> srv_ok sv -> wf stream ->
  wp (serve fuel sv s stream) (fun '(sv', _, _, o) =>
    srv_ok sv' /\ (o = Some Closed \/ exists e, o = Some (Failed e))).
Proof.
  revert sv s stream. induction fuel as [|fuel IH]; intros sv s stream Hf Hok Hw; [lia|]. cbn [serve].
  pose proof (step_shorter sv s stream) as Hshort.
  apply wp_bind. eapply wp_mono; [apply wp_wlp; [by apply step_safe|exact Hshort]|].
  intros [[[[sv1 s1] rest] out] o] [(Hd & _ & Hr & _) Hlt]. destruct o as [| |e].
  - apply wp_bind. eapply wp_mono; [apply IH; [specialize (Hlt eq_refl); lia|done|done]|].
    intros [[[sv2 s2] out2] o2] Ho. exact Ho.
  - split; [done|by left].
  - split; [done|]. right. by exists e.
Qed.
End safety.

(** ** Turns that may panic

    When a turn can panic, and [cause] says when, a schedule either keeps the
    invariants or panics after a prefix of it has reached a server with the cause. *)
Section causes.
Context `{P : Protocol}.
Variable ok : Srv -> Prop.
Variable ses_ok : Ses -> Prop.
Variable le : Srv -> Srv -> Prop.
Variable ans : bytes -> Prop.
Variable cause : Srv -> Prop.
Context `{!PreOrder le}.
Hypothesis turn_ok : forall sv s stream, ok sv -> ses_ok s -> wf stream ->
  wpp (step sv s stream) (cause sv) (fun '(sv', s', rest, out, _) =>
    ok sv' /\ ses_ok s' /\ le sv sv' /\ wf rest /\ (out = [] \/ ans out)).

Definition conn_ok (c : Conn) : Prop :=
  ses_ok (c_session c) /\ wf (c_in c) /\ exists rs, c_out c = concat rs /\ Forall ans rs.

Lemma conn_new_ok stream : ses_ok session_init -> wf stream -> conn_ok (conn_new stream).
Proof. intros Hs Hw. split; [done|]. split; [done|]. by exists []. Qed.

Lemma turn_wpp sv c : ok sv -> conn_ok c ->
  wpp (turn sv c) (cause sv) (fun '(sv', c') => ok sv' /\ le sv sv' /\ conn_ok c').
Proof.
  intros Hok Hc. unfold turn. destruct (c_state c); [|by apply wpp_ret; split_and!..].
  destruct Hc as (Hs & Hw & rs & Hrs & Hall). apply wpp_bind.
  eapply wpp_mono; [by apply turn_ok|done|].
  intros [[[[sv' s'] rest] out] o] (Hok' & Hs' & Hle & Hr & Ho). apply wpp_ret. split; [done|]. split; [done|].
  split; [done|]. split; [done|]. cbn [c_out]. rewrite Hrs.
  destruct Ho as [->|Ho]; [exists rs; by rewrite app_nil_r|]. exists (rs ++ [out]).
  rewrite concat_app. cbn [concat]. rewrite app_nil_r. split; [done|]. apply Forall_app_2; [done|]. by constructor.
Qed.

Lemma schedule_wpp sched sv conns : ok sv -> Forall conn_ok conns ->
  wpp (run_schedule sched sv conns)
    (exists pre rest sv' conns', sched = pre ++ rest /\ run_schedule pre sv conns = Ret (sv', conns') /\
       le sv sv' /\ ok sv' /\ cause sv')
    (fun '(sv', conns') => ok sv' /\ le sv sv' /\ Forall conn_ok conns').
Proof.
  revert sv conns. induction sched as [|i sched IH]; intros sv conns Hok Hc; cbn [run_schedule].
  { apply wpp_ret. by split_and!. }
  destruct (conns !! i) as [c|] eqn:Ei.
  - pose proof (turn_wpp sv c Hok (Forall_lookup_1 _ _ _ _ Hc Ei)) as Ht.
    destruct (turn sv c) as [[sv1 c1]|] eqn:Et; cbn [rbind].
    + destruct Ht as (Hok1 & Hle1 & Hc1).
      eapply wpp_mono; [apply (IH sv1 (<[i := c1]> conns)); [done|by apply Forall_insert]| |].
      * intros (pre & rest & sv2 & conns2 & -> & Er & Hle & Ho & Hca). exists (i :: pre), rest, sv2, conns2.
        split; [done|]. split; [cbn [run_schedule]; by rewrite Ei, Et|]. split; [by etransitivity|done].
      * intros [sv2 conns2] (Ho & Hle & Hcs). split; [done|]. split; [by etransitivity|done].
    + exists [], (i :: sched), sv, conns. by split_and!.
  - eapply wpp_mono; [by apply IH| |done]. intros (pre & rest & sv2 & conns2 & -> & Er & Hx).
    exists (i :: pre), rest, sv2, conns2. split; [done|]. split; [cbn [run_schedule]; by rewrite Ei|done].
Qed.
End causes.

(** ** A stream of messages

    When the bytes of a message are one turn of the loop, and the turn does what an
    abstract execution [exec] of the message does, the loop over a sequence of
    messages is the abstract run of the sequence. *)
Section exec.
Context {A S M : Type}.
Variable wire1 : M -> bytes.
Variable exec : A -> S -> M -> res (A * S * bytes).

Definition wire (ms : list M) : bytes := ms ≫= wire1.

Fixpoint exec_all (a : A) (s : S) (ms : list M) : res (A * S * bytes) :=
  match ms with
  | [] => Ret (a, s, [])
  | m :: ms =>
      let! '(a, s, out) := exec a s m in
      let! '(a, s, out') := exec_all a s ms in
      Ret (a, s, out ++ out')
  end.

Lemma wire_cons m ms : wire (m :: ms) = wire1 m ++ wire ms.
Proof. reflexivity. Qed.

Lemma exec_all_app a s xs ys :
  exec_all a s (xs ++ ys) =
    (let! '(a, s, out) := exec_all a s xs in
     let! '(a, s, out') := exec_all a s ys in Ret (a, s, out ++ out')).
Proof.
  revert a s. induction xs as [|x xs IH]; intros a s; cbn [app exec_all].
  - cbn [rbind]. by destruct (exec_all a s ys) as [[[? ?] ?]|].
  - destruct (exec a s x) as [[[a1 s1] out1]|]; [|done]. cbn [rbind]. rewrite IH.
    destruct (exec_all a1 s1 xs) as [[[a2 s2] out2]|]; [|done]. cbn [rbind].
    destruct (exec_all a2 s2 ys) as [[[a3 s3] out3]|]; [|done]. cbn [rbind].
    by rewrite app_assoc.
Qed.

End exec.

(** The simulation of one turn. *)
Section messages.
Context `{P : Protocol} {A M : Type}.
Variable wire1 : M -> bytes.
Variable exec : A -> Ses -> M -> res (A * Ses * bytes).
Variable abs : Srv -> A.
Variable inv : Srv -> Prop.
Variable good : M -> Prop.
Hypothesis wire1_length : forall m, (1 <= length (wire1 m))%nat.
Hypothesis step_nil : forall sv s, step sv s [] = Ret (sv, s, [], [], Closed).
(** A turn that did its work and could not save it. *)
Variable lost : Srv -> Prop.
Hypothesis step_message : forall sv s m rest, inv sv -> good m ->
  exists sv1 s1 out, exec (abs sv) s m = Ret (abs sv1, s1, out) /\ inv sv1 /\
    (step sv s (wire1 m ++ rest) = Ret (sv1, s1, rest, out, Again) \/
     lost sv1 /\ step sv s (wire1 m ++ rest) = Ret (sv1, s1, rest, [], Failed Other)).

(** What the loop does with the messages [ms]: all are executed and answered, or the loop
    ended at the first that could not be saved, which is executed and not answered. *)
Definition served (sv : Srv) (s : Ses) (ms : list M) (sv1 : Srv) (s1 : Ses) (out : bytes) (o : option outcome) : Prop :=
  (exec_all exec (abs sv) s ms = Ret (abs sv1, s1, out) /\ o = Some Closed) \/
  (exists pre m post a0 s0 unsent, ms = pre ++ m :: post /\
    exec_all exec (abs sv) s pre = Ret (a0, s0, out) /\ exec a0 s0 m = Ret (abs sv1, s1, unsent) /\
    lost sv1 /\ o = Some (Failed Other)).

Lemma serve_messages ms sv s fuel :
  inv sv -> Forall good ms -> (length (wire wire1 ms) < fuel)%nat ->
  exists sv1 s1 out o, serve fuel sv s (wire wire1 ms) = Ret (sv1, s1, out, o) /\ inv sv1 /\
    served sv s ms sv1 s1 out o.
Proof.
  intros Hi Hms. revert sv s fuel Hi. induction Hms as [|m ms Hm _ IH]; intros sv s fuel Hi Hf;
    (destruct fuel as [|fuel]; [lia|]); cbn [serve exec_all].
  - exists sv, s, [], (Some Closed). cbn [wire mbind]. rewrite step_nil. split; [done|]. split; [done|].
    by left.
  - destruct (step_message sv s m (wire wire1 ms) Hi Hm) as (sv1 & s1 & out & E & Hi1 & [Es|[Hlost Es]]);
      rewrite wire_cons in *; rewrite Es; cbn [rbind].
    + rewrite length_app in Hf. pose proof (wire1_length m).
      destruct (IH sv1 s1 fuel Hi1) as (sv2 & s2 & out2 & o & Es2 & Hi2 & Hsv); [lia|].
      rewrite Es2. cbn [rbind]. exists sv2, s2, (out ++ out2), o. split; [done|]. split; [done|].
      destruct Hsv as [[E2 ->]|(pre & m' & post & a0 & s3 & un & -> & E2 & E3 & Hl & ->)].
      * left. split; [|done]. cbn [exec_all]. rewrite E. cbn [rbind]. by rewrite E2.
      * right. exists (m :: pre), m', post, a0, s3, un. split_and!; try done.
        cbn [exec_all]. rewrite E. cbn [rbind]. by rewrite E2.
    + exists sv1, s1, [], (Some (Failed Other)). split; [done|]. split; [done|]. right.
      exists [], m, ms, (abs sv), s, out. by split_and!.
Qed.
End messages.
