(* ===== verification/Crates.v ===== *)
(** * The third-party crates the simulators call

    Their code is not part of the repository: each crate is a class of
    operations, and the documented behaviour the proofs rely on is a second class
    of laws.  [Crates] bundles the operations, [CratesOk] the laws. *)

From S2P Require Import Prelude.

(** [rand]: the operating system's generator; [fill_bytes n] fills an [n]-byte
    buffer. *)
Class Rng := {
  rng : Type;
  fill_bytes : Z -> rng -> bytes * rng;
}.

Class RngOk `{Rng} := {
  fill_bytes_len n r : 0 <= n -> len (fst (fill_bytes n r)) = n;
  fill_bytes_wf n r : wf (fst (fill_bytes n r));
}.

(** [sha2], [hmac] and [tiny_keccak]: incremental hashes. *)
Class Hashes := {
  sha256_t : Type;
  sha256_new : sha256_t;
  sha256_update : sha256_t -> bytes -> sha256_t;
  sha256_finalize : sha256_t -> bytes;
  sha512_t : Type;
  sha512_new : sha512_t;
  sha512_update : sha512_t -> bytes -> sha512_t;
  sha512_finalize : sha512_t -> bytes;
  hmac_t : Type;
  hmac_new : bytes -> hmac_t;
  hmac_update : hmac_t -> bytes -> hmac_t;
  hmac_finalize : hmac_t -> bytes;
  kmac_t : Type;
  kmac_v256 : bytes -> bytes -> kmac_t;
  kmac_update : kmac_t -> bytes -> kmac_t;
  kmac_finalize : kmac_t -> Z -> bytes;
}.

Class HashesOk `{Hashes} := {
  sha256_len h : len (sha256_finalize h) = 32;
  sha256_wf h : wf (sha256_finalize h);
  sha256_update_app h a b : sha256_update (sha256_update h a) b = sha256_update h (a ++ b);
  sha256_update_nil h : sha256_update h [] = h;
  sha512_len h : len (sha512_finalize h) = 64;
  sha512_wf h : wf (sha512_finalize h);
  hmac_len m : len (hmac_finalize m) = 32;
  hmac_wf m : wf (hmac_finalize m);
  kmac_len m n : 0 <= n -> len (kmac_finalize m n) = n;
  kmac_wf m n : wf (kmac_finalize m n);
}.

(** [aes_gcm]: AES-256-GCM with a 12-byte nonce; the tag follows the
    ciphertext.  [gcm_decrypt] is [None] when the tag does not verify. *)
Class AesGcm := {
  gcm_encrypt (key nonce aad msg : bytes) : bytes;
  gcm_decrypt (key nonce aad ct : bytes) : option bytes;
}.

Class AesGcmOk `{AesGcm} := {
  gcm_encrypt_len key nonce aad msg : len (gcm_encrypt key nonce aad msg) = len msg + 16;
  gcm_encrypt_wf key nonce aad msg : wf (gcm_encrypt key nonce aad msg);
  gcm_decrypt_encrypt key nonce aad msg :
    wf msg -> gcm_decrypt key nonce aad (gcm_encrypt key nonce aad msg) = Some msg;
  gcm_decrypt_len key nonce aad ct msg :
    gcm_decrypt key nonce aad ct = Some msg -> len ct = len msg + 16;
  gcm_decrypt_wf key nonce aad ct msg : gcm_decrypt key nonce aad ct = Some msg -> wf msg;
}.

(** [x25519_dalek]: the public key of a secret, and Diffie-Hellman. *)
Class X25519 := {
  x25519_public : bytes -> bytes;
  x25519_dh : bytes -> bytes -> bytes;
}.

Class X25519Ok `{X25519} := {
  x25519_public_len s : len (x25519_public s) = 32;
  x25519_public_wf s : wf (x25519_public s);
  x25519_dh_comm a b : x25519_dh a (x25519_public b) = x25519_dh b (x25519_public a);
}.

(** [p256]: keys, ECDSA on a prehash, ECDH.  [p256_secret_from_slice] fails on a
    byte string that is not the 32-byte encoding of a scalar in range. *)
Class P256 `{Rng} := {
  p256_secret : Type;
  p256_public : Type;
  p256_random : rng -> p256_secret * rng;
  p256_secret_from_slice : bytes -> option p256_secret;
  p256_secret_to_bytes : p256_secret -> bytes;
  p256_public_of : p256_secret -> p256_public;
  p256_to_encoded_point : p256_public -> bytes;
  p256_from_xy : bytes -> bytes -> option p256_public;
  p256_sign_prehash : p256_secret -> bytes -> option bytes;
  p256_sign_prehash_with_rng : p256_secret -> rng -> bytes -> option bytes * rng;
  p256_signature : Type;
  p256_signature_from_slice : bytes -> option p256_signature;
  p256_verify_prehash : p256_public -> bytes -> p256_signature -> bool;
  p256_dh : p256_secret -> p256_public -> bytes;
}.

Class P256Ok `{P256} := {
  p256_to_bytes_len k : len (p256_secret_to_bytes k) = 32;
  p256_to_bytes_wf k : wf (p256_secret_to_bytes k);
  p256_from_to_bytes k : p256_secret_from_slice (p256_secret_to_bytes k) = Some k;
  p256_point_shape q : exists xy, p256_to_encoded_point q = 4 :: xy /\ len xy = 64 /\ wf xy;
  p256_from_xy_point q : p256_from_xy (sub (p256_to_encoded_point q) 1 33)
    (sub (p256_to_encoded_point q) 33 65) = Some q;
  p256_sign_len k m s : p256_sign_prehash k m = Some s -> len s = 64 /\ wf s;
  p256_sign_rng_len k r m s : fst (p256_sign_prehash_with_rng k r m) = Some s -> len s = 64 /\ wf s;
  p256_sign_some k m : len m = 32 -> is_Some (p256_sign_prehash k m);
  p256_dh_len k q : len (p256_dh k q) = 32;
  p256_dh_wf k q : wf (p256_dh k q);
  p256_dh_comm a b : p256_dh a (p256_public_of b) = p256_dh b (p256_public_of a);
  p256_sign_verify k m s : p256_sign_prehash k m = Some s ->
    exists g, p256_signature_from_slice s = Some g /\ p256_verify_prehash (p256_public_of k) m g = true;
}.

(** [curve25519_dalek] and [ed25519_dalek]: the scalars modulo the group order,
    the multiples of the base point, and the key derivation of RFC 8032. *)
Class Ed25519 := {
  scalar : Type;
  scalar_from_bytes_mod_order : bytes -> scalar;
  scalar_from_hash : bytes -> scalar;
  scalar_add : scalar -> scalar -> scalar;
  scalar_mul : scalar -> scalar -> scalar;
  scalar_bytes : scalar -> bytes;
  point : Type;
  mul_base : scalar -> point;
  compress : point -> bytes;
  ed25519_verifying_key : bytes -> bytes;
}.

Class Ed25519Ok `{Ed25519} := {
  scalar_bytes_len s : len (scalar_bytes s) = 32;
  scalar_bytes_wf s : wf (scalar_bytes s);
  compress_len q : len (compress q) = 32;
  compress_wf q : wf (compress q);
  ed25519_vk_len s : len (ed25519_verifying_key s) = 32;
  ed25519_vk_wf s : wf (ed25519_verifying_key s);
}.

(** RFC 8032: the clamping of a secret scalar. *)
Definition clamp (h : bytes) : bytes :=
  let l := <[0%nat := Z.land (default 0 (h !! 0%nat)) 248]> h in
  <[31%nat := Z.lor (Z.land (default 0 (h !! 31%nat)) 127) 64]> l.

(** The group behind [mul_base], and the public key RFC 8032 derives from a seed;
    only the verification equation of signatures needs these. *)
Class Ed25519Group `{Hashes} `{Ed25519} := {
  point_add : point -> point -> point;
  point_mul : scalar -> point -> point;
  mul_base_add x y : mul_base (scalar_add x y) = point_add (mul_base x) (mul_base y);
  mul_base_mul k x : mul_base (scalar_mul k x) = point_mul k (mul_base x);
  verifying_key_eq seed : ed25519_verifying_key seed = compress (mul_base
    (scalar_from_bytes_mod_order (clamp (sub (sha512_finalize (sha512_update sha512_new seed)) 0 32))));
}.

Class Crates := {
  crates_rng :: Rng;
  crates_hashes :: Hashes;
  crates_gcm :: AesGcm;
  crates_x25519 :: X25519;
  crates_p256 :: P256;
  crates_ed25519 :: Ed25519;
}.

Class CratesOk (C : Crates) := {
  crates_rng_ok :: RngOk;
  crates_hashes_ok :: HashesOk;
  crates_gcm_ok :: AesGcmOk;
  crates_x25519_ok :: X25519Ok;
  crates_p256_ok :: P256Ok;
  crates_ed25519_ok :: Ed25519Ok;
}.
