(* ===== verification/ToyCrates.v ===== *)
(** * A concrete instance of the third-party crates

    Small executable functions that satisfy every law of [CratesOk] and
    [Ed25519Group].  They are not cryptography: they show that the laws are
    consistent, and let the examples of the development evaluate. *)

From Stdlib Require Import Ascii.
From S2P Require Import Prelude.
From S2P Require Import Crates.

Definition digest (n : Z) (h : bytes) : bytes :=
  le_bytes (Z.to_nat n) (fold_left (fun a b => (a * 257 + b + 1) mod 2 ^ 256) h 5).

Lemma digest_len n h : 0 <= n -> len (digest n h) = n.
Proof. intros. unfold digest. rewrite len_le_bytes. lia. Qed.
Lemma digest_wf n h : wf (digest n h).
Proof. apply wf_le_bytes. Qed.

Definition toy_rng : Rng := {|
  rng := Z;
  fill_bytes n r := (vec_repeat (as_u8 r) n, r + 1);
|}.

Definition toy_hashes : Hashes := {|
  sha256_t := bytes; sha256_new := []; sha256_update := app; sha256_finalize := digest 32;
  sha512_t := bytes; sha512_new := []; sha512_update := app; sha512_finalize := digest 64;
  hmac_t := bytes; hmac_new k := k; hmac_update := app; hmac_finalize := digest 32;
  kmac_t := bytes; kmac_v256 k c := k ++ c; kmac_update := app; kmac_finalize m n := digest n m;
|}.

Definition is_u8 (b : Z) : bool := (0 <=? b) && (b <? 256).

Definition toy_tag (key nonce aad ct : bytes) : bytes := digest 16 (key ++ nonce ++ aad ++ ct).
Definition toy_gcm : AesGcm := {|
  gcm_encrypt key nonce aad msg :=
    let ct := as_u8 <$> msg in ct ++ toy_tag key nonce aad ct;
  gcm_decrypt key nonce aad ct :=
    let msg := take (length ct - 16) ct in
    if forallb is_u8 msg && bool_decide (drop (length ct - 16) ct = toy_tag key nonce aad msg)
    then Some msg else None;
|}.

Definition toy_x25519 : X25519 := {|
  x25519_public s := le_bytes 32 (le_val s mod 256 ^ 32);
  x25519_dh a b := le_bytes 32 ((le_val a * le_val b) mod 256 ^ 32);
|}.

Definition byte_of (a : ascii) : Z := Z.of_N (N_of_ascii a).
Definition of_byte (b : Z) : ascii := ascii_of_N (Z.to_N b).
Definition toy_sig (k : ascii) (m : bytes) : bytes := byte_of k :: vec_repeat 0 31 ++ digest 32 m.
Definition toy_p256 : @P256 toy_rng :=
  @Build_P256 toy_rng ascii ascii
    (fun r : Z => (of_byte (as_u8 r), r + 1))
    (fun b => if len b =? 32 then of_byte <$> last b else None)
    (fun k => vec_repeat 0 31 ++ [byte_of k])
    (fun k => k)
    (fun q => 4 :: byte_of q :: vec_repeat 0 63)
    (fun x y => of_byte <$> head x)
    (fun k m => Some (toy_sig k m))
    (fun k (r : Z) m => (Some (toy_sig k m), r + 1))
    bytes
    (fun s => if len s =? 64 then Some s else None)
    (fun q m g => bool_decide (g = toy_sig q m))
    (fun k q => le_bytes 32 (byte_of k * byte_of q)).

Definition toy_ed25519 : Ed25519 := {|
  scalar := Z;
  scalar_from_bytes_mod_order := le_val;
  scalar_from_hash := le_val;
  scalar_add := Z.add;
  scalar_mul := Z.mul;
  scalar_bytes := le_bytes 32;
  point := Z;
  mul_base s := s;
  compress := le_bytes 32;
  ed25519_verifying_key seed := le_bytes 32 (le_val (clamp (sub (digest 64 seed) 0 32)));
|}.

Lemma toy_rng_ok : @RngOk toy_rng.
Proof.
  split; intros; simpl; [len_solve|auto with wfdb].
Qed.

Lemma toy_hashes_ok : @HashesOk toy_hashes.
Proof.
  split; intros; simpl; try (by apply digest_len); try apply digest_wf; [|apply app_nil_r].
  by rewrite app_assoc.
Qed.

Lemma is_u8_spec b : is_u8 b = true <-> u8 b.
Proof. unfold is_u8, u8. lia. Qed.

Lemma forallb_is_u8 l : forallb is_u8 l = true <-> wf l.
Proof. unfold wf. rewrite forallb_forall, Forall_forall. setoid_rewrite <- list_elem_of_In. 
  by setoid_rewrite is_u8_spec. Qed.

Lemma toy_gcm_ok : @AesGcmOk toy_gcm.
Proof.
  assert (Hw : forall msg : bytes, wf (as_u8 <$> msg)).
  { intros msg. apply Forall_fmap, Forall_true. intros. apply u8_as_u8. }
  assert (Ht : forall k n a c, len (toy_tag k n a c) = 16) by (intros; by apply digest_len).
  split; intros; simpl in *.
  - rewrite len_app, len_fmap, Ht. done.
  - apply wf_app; [done|apply digest_wf].
  - assert (as_u8 <$> msg = msg) as ->.
    { induction H as [|x l Hx _ IH]; [done|]. simpl. f_equal; [|done]. apply Z.mod_small, Hx. }
    specialize (Ht key nonce aad msg). unfold len in Ht.
    rewrite length_app. replace (_ + _ - 16)%nat with (length msg) by lia.
    rewrite take_app_length, drop_app_length, (proj2 (forallb_is_u8 _)) by done.
    by rewrite bool_decide_true.
  - case_match eqn:E; [|done]. injection H as <-. apply andb_prop in E as [_ E].
    apply bool_decide_eq_true in E. apply (f_equal len) in E. rewrite Ht in E.
    rewrite len_take, len_drop in *. unfold len in *. lia.
  - case_match eqn:E; [|done]. injection H as <-. apply andb_prop in E as [E _].
    by apply forallb_is_u8.
Qed.

Lemma toy_x25519_ok : @X25519Ok toy_x25519.
Proof.
  split; intros; cbn [x25519_public x25519_dh toy_x25519].
  - by rewrite len_le_bytes.
  - apply wf_le_bytes.
  - assert (Hv : forall x, le_val (le_bytes 32 (x mod 256 ^ 32)) = x mod 256 ^ 32).
    { intros. apply le_val_le_bytes, Z.mod_pos_bound. done. }
    rewrite !Hv.
    rewrite !Zmult_mod_idemp_r. by rewrite Z.mul_comm.
Qed.

Lemma of_byte_of a : of_byte (byte_of a) = a.
Proof. unfold of_byte, byte_of. by rewrite N2Z.id, ascii_N_embedding. Qed.
Lemma byte_of_u8 a : u8 (byte_of a).
Proof. unfold byte_of, u8. pose proof (N_ascii_bounded a). lia. Qed.

Lemma toy_sig_ok k m : len (toy_sig k m) = 64 /\ wf (toy_sig k m).
Proof.
  unfold toy_sig. split.
  - rewrite len_cons, len_app, digest_len by done. done.
  - apply wf_cons; [apply byte_of_u8|]. apply wf_app; [auto with wfdb|apply digest_wf].
Qed.

Lemma toy_p256_ok : @P256Ok toy_rng toy_p256.
Proof.
  split; intros; cbn -[le_bytes of_byte byte_of toy_sig] in *.
  - done.
  - pose proof (byte_of_u8 k). apply wf_app; [auto with wfdb|by apply wf_cons, wf_nil].
  - change (Some (of_byte (byte_of k)) = Some k). by rewrite of_byte_of.
  - eexists. split; [done|]. split; [done|]. apply wf_cons; [apply byte_of_u8|auto with wfdb].
  - change (Some (of_byte (byte_of q)) = Some q). by rewrite of_byte_of.
  - injection H as <-. apply toy_sig_ok.
  - injection H as <-. apply toy_sig_ok.
  - by eexists.
  - by rewrite len_le_bytes.
  - apply wf_le_bytes.
  - by rewrite Z.mul_comm.
  - injection H as <-. destruct (toy_sig_ok k m) as [-> _]. eexists. split; [done|].
    by apply bool_decide_eq_true.
Qed.

Lemma toy_ed25519_ok : @Ed25519Ok toy_ed25519.
Proof. split; intros; first [apply len_le_bytes | apply wf_le_bytes]. Qed.

Definition toy : Crates := {|
  crates_rng := toy_rng; crates_hashes := toy_hashes; crates_gcm := toy_gcm;
  crates_x25519 := toy_x25519; crates_p256 := toy_p256; crates_ed25519 := toy_ed25519;
|}.

Lemma toy_ok : CratesOk toy.
Proof.
  split; [exact toy_rng_ok|exact toy_hashes_ok|exact toy_gcm_ok|exact toy_x25519_ok
    |exact toy_p256_ok|exact toy_ed25519_ok].
Qed.

Definition toy_group : @Ed25519Group toy_hashes toy_ed25519.
Proof.
  unshelve econstructor; [exact Z.add|exact Z.mul|done..].
Defined.
