(* ===== verification/TropicTypes.v ===== *)
(** * TROPIC01Sim: personalities and the persistent device

    [personality.rs] and [object_store/types.rs]: what the three simulated parts
    differ in, and the persistent state every L3 command works on, with the
    invariant [device_ok] the whole simulator maintains. *)

From Stdlib Require Import String.
From S2P Require Import Prelude.

(** ** [object_store/mod.rs]: the default pairing keys *)

Definition LT_SH0PUB_ENG_SAMPLE : bytes :=
  [0xe7; 0xf7; 0x35; 0xba; 0x19; 0xa3; 0x3f; 0xd6; 0x73; 0x23; 0xab; 0x37; 0x26; 0x2d; 0xe5; 0x36;
   0x08; 0xca; 0x57; 0x85; 0x76; 0x53; 0x43; 0x52; 0xe1; 0x8f; 0x64; 0xe6; 0x13; 0xd3; 0x8d; 0x54].

Definition LT_SH0PUB_PROD0 : bytes :=
  [0xf9; 0x75; 0xeb; 0x3c; 0x2f; 0xd7; 0x90; 0xc9; 0x6f; 0x29; 0x4f; 0x15; 0x57; 0xa5; 0x03; 0x17;
   0x80; 0xc9; 0xaa; 0xfa; 0x14; 0x0d; 0xa2; 0x8f; 0x55; 0xe7; 0x51; 0x57; 0x37; 0xb2; 0x50; 0x2c].

(** ** [personality.rs] *)

Inductive Personality := Es012 | Es220 | Fw220.
Inductive Part := EngineeringSample | Production.
Inductive Firmware := V0_1_2 | V2_2_0.

#[export] Instance personality_eq_dec : EqDecision Personality.
Proof. solve_decision. Defined.
#[export] Instance firmware_eq_dec : EqDecision Firmware.
Proof. solve_decision. Defined.

Definition ALL : list Personality := [Es012; Es220; Fw220].

Definition from_name (name : String.string) : option Personality :=
  if String.eqb name "es-0.1.2" || String.eqb name "0.1.2" || String.eqb name "es" then Some Es012
  else if String.eqb name "es-2.2.0" then Some Es220
  else if String.eqb name "2.2.0" || String.eqb name "prod" || String.eqb name "prod-2.2.0"
  then Some Fw220
  else None.

Definition name (p : Personality) : String.string :=
  match p with
  | Es012 => "es-0.1.2"
  | Es220 => "es-2.2.0"
  | Fw220 => "2.2.0"
  end.

Definition part (p : Personality) : Part :=
  match p with
  | Es012 | Es220 => EngineeringSample
  | Fw220 => Production
  end.

Definition firmware (p : Personality) : Firmware :=
  match p with
  | Es012 => V0_1_2
  | Es220 | Fw220 => V2_2_0
  end.

Definition riscv_fw_version (p : Personality) : bytes :=
  match firmware p with
  | V0_1_2 => [0x00; 0x02; 0x01; 0x00]
  | V2_2_0 => [0x00; 0x00; 0x02; 0x02]
  end.

Definition spect_fw_version (p : Personality) : bytes :=
  match firmware p with
  | V0_1_2 => [0x00; 0x01; 0x03; 0x00]
  | V2_2_0 => [0x00; 0x00; 0x03; 0x01]
  end.

Definition fw_image_sizes (p : Personality) : Z * Z :=
  match firmware p with
  | V0_1_2 => (0x5ec0, 0x2350)
  | V2_2_0 => (0x5374, 0x2920)
  end.

Definition fw_bank2_written (p : Personality) : bool := bool_decide (p = Es220).

Definition bootloader_version (p : Personality) : bytes :=
  match part p with
  | EngineeringSample => [0x00; 0x01; 0x00; 0x81]
  | Production => [0x00; 0x01; 0x00; 0x82]
  end.

Definition bootloader_spect_version (p : Personality) : bytes := [0x00; 0x00; 0x00; 0x80].

Definition fw_bank_header_len (p : Personality) : Z :=
  match part p with
  | EngineeringSample => 20
  | Production => 52
  end.

Definition r_mem_slot_max (p : Personality) : Z :=
  match firmware p with
  | V0_1_2 => 444
  | V2_2_0 => 475
  end.

Definition strict_l3_sizes (p : Personality) : bool := bool_decide (firmware p = V2_2_0).
Definition busy_poll_ready (p : Personality) : bool := bool_decide (firmware p = V2_2_0).
Definition bad_pairing_index_alarms (p : Personality) : bool := bool_decide (firmware p = V0_1_2).
Definition eddsa_empty_message_unsigned (p : Personality) : bool :=
  bool_decide (firmware p = V0_1_2).

Definition fw_log (p : Personality) : bytes :=
  match part p with
  | EngineeringSample =>
      let log := str_bytes "TROPIC01Sim: firmware debug log is not modelled" ++ [10] in
      resize log 252 0
  | Production => []
  end.

Definition default_sh0_pub (p : Personality) : bytes :=
  match part p with
  | EngineeringSample => LT_SH0PUB_ENG_SAMPLE
  | Production => LT_SH0PUB_PROD0
  end.

Definition default_r_config_start_up (p : Personality) : Z :=
  match p with
  | Es012 => 0xffffffef
  | Es220 => 0xffffffeb
  | Fw220 => 0xffffffff
  end.

Definition default_i_config_start_up (p : Personality) : Z :=
  match p with
  | Es220 => 0xfffffffb
  | Es012 | Fw220 => 0xffffffff
  end.

Definition chip_id (p : Personality) (serial : bytes) : res bytes :=
  let id := vec_repeat 0 128 in
  let! s0 := idx serial 0 in
  let! s1 := idx serial 1 in
  let! s2 := idx serial 2 in
  let! s3 := idx serial 3 in
  let! s4 := idx serial 4 in
  match part p with
  | EngineeringSample =>
      let! id := copy_from_slice id 0 4 [0x00; 0x00; 0x00; 0x01] in
      let! id := copy_from_slice id 36 40 [0x01; 0x00; 0x00; 0x00] in
      let! id := copy_from_slice id 40 42 [0x05; 0x44] in
      let! id := copy_from_slice id 46 52 (vec_repeat 0xff 6) in
      let! id := set_idx id 52 0x01 in
      let! id := copy_from_slice id 53 56 [0xf0; 0x0f; 0x00] in
      let! id := copy_from_slice id 56 58 [0x05; 0x44] in
      let! id := copy_from_slice id 58 63 (str_bytes "SIM01") in
      let! id := set_idx id 63 s0 in
      let! id := copy_from_slice id 64 66 [s1; s2] in
      let! id := copy_from_slice id 66 68 [s3; s4] in
      let! id := set_idx id 68 0x0b in
      let! id := copy_from_slice id 69 80 (str_bytes "TROPIC01-ES") in
      let! id := copy_from_slice id 80 84 (vec_repeat 0xff 4) in
      let! id := copy_from_slice id 84 104
        [0x00; 0x01; 0x00; 0x00; 0x00; 0x00; 0xff; 0xff; 0x00; 0x01; 0x00; 0x00; 0x00;
         0x00; 0xff; 0xff; 0xff; 0xff; 0xff; 0xff] in
      let! id := copy_from_slice id 104 124 (vec_repeat 0xff 20) in
      copy_from_slice id 124 128 [0x01; 0x03; 0x03; 0x00]
  | Production =>
      let! id := copy_from_slice id 0 4 [0x01; 0x00; 0x00; 0x00] in
      let! id := copy_from_slice id 28 32 (str_bytes "ACAB") in
      let! id := copy_from_slice id 32 36 [0x80; 0xaa; 0xff; 0xff] in
      let! id := copy_from_slice id 36 40 [0x01; 0xf0; 0x02; 0x00] in
      let! id := copy_from_slice id 50 52 [0xff; 0xff] in
      let! id := set_idx id 52 0x02 in
      let! id := copy_from_slice id 53 56 [0xf0; 0x02; 0x00] in
      let! id := copy_from_slice id 56 58 [0x00; 0x00] in
      let! id := copy_from_slice id 58 63 [0x19; 0x06; 0x1b; 0x09; 0x33] in
      let! id := set_idx id 63 s0 in
      let! id := copy_from_slice id 64 66 [s1; s2] in
      let! id := copy_from_slice id 66 68 [s3; s4] in
      let! id := set_idx id 68 0x0d in
      let! id := copy_from_slice id 69 82 (str_bytes "TR01-C2S-T200") in
      let! id := copy_from_slice id 82 84 [0xff; 0xff] in
      let! id := copy_from_slice id 84 86 [0x01; 0x04] in
      let! s5 := idx serial 5 in
      let! s6 := idx serial 6 in
      let! s7 := idx serial 7 in
      let! id := copy_from_slice id 86 91 [s5; s6; s7; 0x28; 0x00] in
      copy_from_slice id 96 128 (vec_repeat 0xff 32)
  end.

(** ** [object_store/types.rs] *)

Definition STORE_FORMAT_VERSION : Z := 2.
Definition CONFIG_REGISTERS : Z := 128.

Inductive CurveKind := CP256 | CEd25519.

#[export] Instance curve_kind_eq_dec : EqDecision CurveKind.
Proof. solve_decision. Defined.

Definition curve_wire_id (c : CurveKind) : Z :=
  match c with
  | CP256 => 1
  | CEd25519 => 2
  end.

Definition curve_from_wire_id (v : Z) : option CurveKind :=
  if v =? 1 then Some CP256 else if v =? 2 then Some CEd25519 else None.

Inductive KeyOrigin := Generated | Stored.

Definition origin_wire_id (o : KeyOrigin) : Z :=
  match o with
  | Generated => 1
  | Stored => 2
  end.

Record EccSlot := mkEccSlot {
  ecc_curve : CurveKind;
  ecc_origin : KeyOrigin;
  ecc_private_key : bytes;
}.

Inductive PairingState := Written | Invalidated.

#[export] Instance pairing_state_eq_dec : EqDecision PairingState.
Proof. solve_decision. Defined.

Record PairingSlot := mkPairingSlot {
  pairing_public_key : bytes;
  pairing_state : PairingState;
}.

Record Device := mkDevice {
  format_version : Z;
  personality : Personality;
  dev_chip_id : bytes;
  st_priv : bytes;
  st_pub : bytes;
  cert_store : bytes;
  pairing_slots : gmap Z PairingSlot;
  r_config : list Z;
  i_config : list Z;
  ecc_slots : gmap Z EccSlot;
  r_mem_slots : gmap Z bytes;
  mcounters : gmap Z Z;
  macandd_slots : gmap Z bytes;
  macandd_key0 : bytes;
  macandd_key1 : bytes;
}.

Definition effective_config (d : Device) : list Z :=
  zip_with Z.land (r_config d) (i_config d).

(** Field updates. *)
Definition set_pairing_slots (d : Device) m : Device :=
  mkDevice (format_version d) (personality d) (dev_chip_id d) (st_priv d) (st_pub d) (cert_store d)
    m (r_config d) (i_config d) (ecc_slots d) (r_mem_slots d) (mcounters d) (macandd_slots d)
    (macandd_key0 d) (macandd_key1 d).
Definition set_r_config (d : Device) c : Device :=
  mkDevice (format_version d) (personality d) (dev_chip_id d) (st_priv d) (st_pub d) (cert_store d)
    (pairing_slots d) c (i_config d) (ecc_slots d) (r_mem_slots d) (mcounters d) (macandd_slots d)
    (macandd_key0 d) (macandd_key1 d).
Definition set_i_config (d : Device) c : Device :=
  mkDevice (format_version d) (personality d) (dev_chip_id d) (st_priv d) (st_pub d) (cert_store d)
    (pairing_slots d) (r_config d) c (ecc_slots d) (r_mem_slots d) (mcounters d) (macandd_slots d)
    (macandd_key0 d) (macandd_key1 d).
Definition set_ecc_slots (d : Device) m : Device :=
  mkDevice (format_version d) (personality d) (dev_chip_id d) (st_priv d) (st_pub d) (cert_store d)
    (pairing_slots d) (r_config d) (i_config d) m (r_mem_slots d) (mcounters d) (macandd_slots d)
    (macandd_key0 d) (macandd_key1 d).
Definition set_r_mem_slots (d : Device) m : Device :=
  mkDevice (format_version d) (personality d) (dev_chip_id d) (st_priv d) (st_pub d) (cert_store d)
    (pairing_slots d) (r_config d) (i_config d) (ecc_slots d) m (mcounters d) (macandd_slots d)
    (macandd_key0 d) (macandd_key1 d).
Definition set_mcounters (d : Device) m : Device :=
  mkDevice (format_version d) (personality d) (dev_chip_id d) (st_priv d) (st_pub d) (cert_store d)
    (pairing_slots d) (r_config d) (i_config d) (ecc_slots d) (r_mem_slots d) m (macandd_slots d)
    (macandd_key0 d) (macandd_key1 d).
Definition set_macandd_slots (d : Device) m : Device :=
  mkDevice (format_version d) (personality d) (dev_chip_id d) (st_priv d) (st_pub d) (cert_store d)
    (pairing_slots d) (r_config d) (i_config d) (ecc_slots d) (r_mem_slots d) (mcounters d) m
    (macandd_key0 d) (macandd_key1 d).
