(* ===== verification/TropicFrame.v ===== *)
(** * TROPIC01Sim: L2 frames and the TCP envelope

    [frame.rs] (module-level definitions) and [tcp_proto.rs] (module [Tcp]).  A
    frame is [id][len][data][crc]; the parser is exactly the inverse of the
    builder, and rejects every frame with one corrupted byte. *)

From S2P Require Import Prelude.
From S2P Require Import Crc.
From S2P Require Import Host.

(** ** [frame.rs] *)

Definition GET_RESPONSE_REQ_ID : Z := 0xAA.
Definition MAX_L2_DATA_SIZE : Z := 252.
Definition MAX_L2_FRAME_SIZE : Z := 1 + 1 + MAX_L2_DATA_SIZE + 2.

Module status.
Definition REQUEST_OK : Z := 0x01.
Definition RESULT_OK : Z := 0x02.
Definition REQUEST_CONT : Z := 0x03.
Definition RESULT_CONT : Z := 0x04.
Definition RESP_DISABLED : Z := 0x78.
Definition HSK_ERR : Z := 0x79.
Definition NO_SESSION : Z := 0x7A.
Definition TAG_ERR : Z := 0x7B.
Definition CRC_ERR : Z := 0x7C.
Definition UNKNOWN_ERR : Z := 0x7E.
Definition GEN_ERR : Z := 0x7F.
Definition NO_RESP : Z := 0xFF.
End status.

Inductive FrameError := TooShort | LenMismatch | BadCrc | Overflow.

Record Request := mkRequest { req_id : Z; req_data : bytes }.

Definition parse_request (buf : bytes) : res (Result Request FrameError) :=
  if len buf <? 4 then Ret (Err TooShort)
  else if MAX_L2_FRAME_SIZE <? len buf then Ret (Err Overflow)
  else
    let! id := idx buf 0 in
    let! req_len := idx buf 1 in
    if negb (len buf =? 1 + 1 + req_len + 2) then Ret (Err LenMismatch)
    else
      let crc_offset := 2 + req_len in
      let! c0 := idx buf crc_offset in
      let! c1 := idx buf (crc_offset + 1) in
      let received_crc := be_val [c0; c1] in
      let! covered := slice buf 0 crc_offset in
      let computed := TropicCrc.crc16 covered in
      if negb (computed =? received_crc) then Ret (Err BadCrc)
      else
        let! data := slice buf 2 crc_offset in
        Ret (Ok (mkRequest id data)).

(** [build_response] and [build_request] build the same frame. *)
Definition build_frame (first : Z) (data : bytes) : res bytes :=
  let! _ := rassert (len data <=? MAX_L2_DATA_SIZE) in
  let out := [first] ++ [as_u8 (len data)] ++ data in
  Ret (TropicCrc.append_crc out).

Definition build_response (status : Z) (data : bytes) : res bytes := build_frame status data.
Definition build_request (req_id : Z) (data : bytes) : res bytes := build_frame req_id data.

(** ** [tcp_proto.rs] *)

Module Tcp.
Definition TAG_AND_LEN_SIZE : Z := 3.
Definition MAX_PAYLOAD_LEN : Z := 1 + 1 + 252 + 2.

Inductive TcpTag :=
  | SpiDriveCsnLow | SpiDriveCsnHigh | SpiSend | PowerOn | PowerOff | Wait
  | ResetTarget | Invalid | Unsupported.

Definition tag_as_u8 (t : TcpTag) : Z :=
  match t with
  | SpiDriveCsnLow => 0x01
  | SpiDriveCsnHigh => 0x02
  | SpiSend => 0x03
  | PowerOn => 0x04
  | PowerOff => 0x05
  | Wait => 0x06
  | ResetTarget => 0x10
  | Invalid => 0xFD
  | Unsupported => 0xFE
  end.

Definition tag_from_u8 (v : Z) : TcpTag :=
  if v =? 0x01 then SpiDriveCsnLow
  else if v =? 0x02 then SpiDriveCsnHigh
  else if v =? 0x03 then SpiSend
  else if v =? 0x04 then PowerOn
  else if v =? 0x05 then PowerOff
  else if v =? 0x06 then Wait
  else if v =? 0x10 then ResetTarget
  else if v =? 0xFD then Invalid
  else if v =? 0xFE then Unsupported
  else Invalid.

Record TcpFrame := mkTcpFrame { tag : Z; payload : bytes }.

Definition new (t : TcpTag) (payload : bytes) : TcpFrame := mkTcpFrame (tag_as_u8 t) payload.

(** [Ok None] is a clean end of file; the second component is what is left. *)
Definition read_from (r : bytes) : res (Result (option TcpFrame * bytes) io_error) :=
  match read_exact r TAG_AND_LEN_SIZE with
  | None => Ret (Ok (None, []))
  | Some (header, r) =>
      let! tag := idx header 0 in
      let! h1 := idx header 1 in
      let! h2 := idx header 2 in
      let n := le_val [h1; h2] in
      if MAX_PAYLOAD_LEN <? n then Ret (Err InvalidData)
      else if 0 <? n then
        match read_exact r n with
        | None => Ret (Err UnexpectedEof)
        | Some (payload, r) => Ret (Ok (Some (mkTcpFrame tag payload), r))
        end
      else Ret (Ok (Some (mkTcpFrame tag (vec_repeat 0 n)), r))
  end.

(** The bytes written. *)
Definition write_to (f : TcpFrame) : Result bytes io_error :=
  if MAX_PAYLOAD_LEN <? len (payload f) then Err InvalidInput
  else
    let header := tag f :: le_bytes 2 (as_u16 (len (payload f))) in
    Ok (header ++ (if negb (bool_decide (payload f = [])) then payload f else [])).
End Tcp.

(** ** Lemmas *)

Lemma pair_of_idx (l : bytes) c0 c1 :
  idx l 0 = Ret c0 -> idx l 1 = Ret c1 -> len l = 2 -> l = [c0; c1].
Proof.
  destruct l as [|a [|b [|c l]]]; intros H0 H1 Hl; try (exfalso; len_solve).
  rewrite idx_0 in H0. injection H0 as ->. rewrite idx_S, idx_0 in H1 by lia.
  by injection H1 as ->.
Qed.

Lemma build_frame_ret first data :
  len data <= 252 -> u8 first -> wf data ->
  build_frame first data =
    Ret ((first :: len data :: data) ++ be_bytes 2 (TropicCrc.crc16 (first :: len data :: data))).
Proof.
  intros Hl Hf Hd. unfold build_frame, MAX_L2_DATA_SIZE.
  rewrite (proj2 (Z.leb_le _ _)) by done. simpl.
  assert (Hn : as_u8 (len data) = len data).
  { unfold as_u8. apply Z.mod_small. pose proof (len_nonneg data). lia. }
  rewrite Hn, append_crc_be; [done|]. apply wf_cons, wf_cons; [done| |done].
  unfold u8. pose proof (len_nonneg data). lia.
Qed.

Lemma build_frame_inv first data buf :
  build_frame first data = Ret buf -> len data <= 252.
Proof.
  unfold build_frame, MAX_L2_DATA_SIZE. destruct (Z.leb_spec (len data) 252); done.
Qed.

(** A frame that the builder made, as the sum of its parts. *)
Lemma parse_body first data cc :
  u8 first -> len data <= 252 -> wf data -> len cc = 2 ->
  parse_request ((first :: len data :: data) ++ cc) =
    Ret (if negb (TropicCrc.crc16 (first :: len data :: data) =? be_val cc)
         then Err BadCrc else Ok (mkRequest first data)).
Proof.
  intros Hf Hl Hd Hc. set (body := first :: len data :: data).
  assert (Hb : len body = 2 + len data) by (unfold body; len_solve).
  pose proof (len_nonneg data). unfold parse_request, MAX_L2_FRAME_SIZE, MAX_L2_DATA_SIZE.
  rewrite len_app, Hb, Hc.
  rewrite (proj2 (Z.ltb_ge _ 4)), (proj2 (Z.ltb_ge _ _)) by lia.
  change (body ++ cc) with (first :: len data :: data ++ cc). rewrite idx_0. cbn [rbind].
  rewrite idx_S, idx_0 by lia. cbn [rbind].
  rewrite (proj2 (Z.eqb_eq _ (1 + 1 + len data + 2))) by lia. cbn [negb].
  change (first :: len data :: data ++ cc) with (body ++ cc).
  rewrite !idx_app_r by lia. rewrite Hb.
  replace (2 + len data - (2 + len data)) with 0 by lia.
  replace (2 + len data + 1 - (2 + len data)) with 1 by lia.
  destruct cc as [|c0 [|c1 [|c2 cc]]]; try (exfalso; len_solve).
  rewrite idx_0, idx_S, idx_0 by lia. cbn [rbind].
  rewrite slice_ret by (rewrite ?len_app; lia). rewrite <- Hb, sub_prefix. cbn [rbind].
  case_match; [done|].
  rewrite slice_ret by (rewrite ?len_app; lia). cbn [rbind].
  rewrite sub_app_l by lia. rewrite Hb. unfold body.
  rewrite !sub_cons by lia. rewrite sub_full by lia. done.
Qed.

(** Whatever parses is a body of the announced length followed by its CRC. *)
Lemma parse_request_ok_inv buf r :
  wf buf -> parse_request buf = Ret (Ok r) ->
  u8 (req_id r) /\ wf (req_data r) /\ len (req_data r) <= 252 /\
  buf = (req_id r :: len (req_data r) :: req_data r) ++
        be_bytes 2 (TropicCrc.crc16 (req_id r :: len (req_data r) :: req_data r)).
Proof.
  intros Hwf. unfold parse_request, MAX_L2_FRAME_SIZE, MAX_L2_DATA_SIZE.
  destruct (Z.ltb_spec (len buf) 4); [done|].
  destruct (Z.ltb_spec (1 + 1 + 252 + 2) (len buf)); [done|].
  destruct buf as [|id [|n rest]]; try (exfalso; len_solve).
  rewrite idx_0. cbn [rbind]. rewrite idx_S, idx_0 by lia. cbn [rbind].
  destruct (Z.eqb_spec (len (id :: n :: rest)) (1 + 1 + n + 2)) as [Hn|]; [|done].
  apply wf_cons_inv in Hwf as [Hid [Hn8 Hrest]%wf_cons_inv]. rewrite !len_cons in *.
  assert (Hr : rest = sub rest 0 n ++ sub rest n (len rest)) by (apply sub_split; u_solve).
  set (data := sub rest 0 n) in *. set (cc := sub rest n (len rest)) in *.
  assert (Hd : len data = n) by (unfold data; rewrite len_sub; u_solve).
  assert (Hcc : len cc = 2) by (unfold cc; rewrite len_sub; u_solve).
  assert (Hwd : wf data) by (unfold data; auto with wfdb).
  assert (Hwc : wf cc) by (unfold cc; auto with wfdb).
  intros Hp. assert (Hp' : parse_request (id :: n :: rest) = Ret (Ok r)).
  { unfold parse_request, MAX_L2_FRAME_SIZE, MAX_L2_DATA_SIZE.
    rewrite !len_cons, (proj2 (Z.ltb_ge _ 4)), (proj2 (Z.ltb_ge _ _)) by lia.
    rewrite idx_0. cbn [rbind]. rewrite idx_S, idx_0 by lia. cbn [rbind].
    rewrite (proj2 (Z.eqb_eq _ (1 + 1 + n + 2))) by lia. exact Hp. }
  clear Hp. rewrite Hr in Hp'. rewrite <- Hd in Hp' at 1.
  change (id :: len data :: data ++ cc) with ((id :: len data :: data) ++ cc) in Hp'.
  rewrite parse_body in Hp' by (done || lia).
  destruct (Z.eqb_spec (TropicCrc.crc16 (id :: len data :: data)) (be_val cc)) as [Hcrc|];
    [|done].
  injection Hp' as <-. simpl. split_and!; [done|done|lia|].
  rewrite Hcrc, be_bytes_be_val by (done || (unfold len in Hcc; lia)).
  rewrite Hd. simpl. by rewrite <- Hr.
Qed.

(** The parser never panics, on any byte string. *)
Lemma parse_request_total buf : wf buf -> exists x, parse_request buf = Ret x.
Proof.
  intros Hwf. apply (wp_true _ (fun _ => True)).
  unfold parse_request, MAX_L2_FRAME_SIZE, MAX_L2_DATA_SIZE. by wp_run.
Qed.

(** ** Properties *)

(** C12: The L2 request parser accepts exactly what the frame builder produces: for
    any byte string, [parse_request] returns the request (id, data) if and only
    if the string is the frame [build_request] makes of it. *)
Theorem parse_request_iff_built (buf : bytes) (r : Request) (Hbuf : wf buf) :
  parse_request buf = Ret (Ok r) <-> build_request (req_id r) (req_data r) = Ret buf.
Proof.
  split.
  - intros (Hid & Hd & Hl & ->)%parse_request_ok_inv; [|done]. by apply build_frame_ret.
  - intros H. pose proof (build_frame_inv _ _ _ H) as Hl.
    assert (Hparts : u8 (req_id r) /\ wf (req_data r)).
    { revert H. unfold build_request, build_frame. destruct (len _ <=? _); [|done].
      intros [= <-]. unfold TropicCrc.append_crc in Hbuf.
      apply wf_app_inv in Hbuf as [Hbuf _]. cbn [app] in Hbuf.
      by apply wf_cons_inv in Hbuf as [? [? ?]%wf_cons_inv]. }
    destruct Hparts as [Hid Hd]. unfold build_request in H.
    rewrite build_frame_ret in H by done.
    assert (buf = (req_id r :: len (req_data r) :: req_data r) ++
      be_bytes 2 (TropicCrc.crc16 (req_id r :: len (req_data r) :: req_data r))) as -> by congruence.
    rewrite parse_body by (done || apply len_be_bytes).
    rewrite be_val_be_bytes.
    + rewrite Z.eqb_refl. by destruct r.
    + apply u16_tropic_crc. apply wf_cons, wf_cons; [done| |done].
      pose proof (len_nonneg (req_data r)). u_solve.
Qed.

Lemma parse_request_iff_built_witness :
  wf [0x01; 0x02; 0x01; 0x00; 0x2b; 0x92] /\
  (parse_request [0x01; 0x02; 0x01; 0x00; 0x2b; 0x92] = Ret (Ok (mkRequest 0x01 [0x01; 0x00])) <->
   build_request 0x01 [0x01; 0x00] = Ret [0x01; 0x02; 0x01; 0x00; 0x2b; 0x92]).
Proof.
  assert (H : wf [0x01; 0x02; 0x01; 0x00; 0x2b; 0x92]) by (repeat constructor; u_solve).
  split; [exact H|]. exact (parse_request_iff_built _ (mkRequest 0x01 [0x01; 0x00]) H).
Defined.

(** A frame in which one byte was corrupted on the wire never parses: whatever
    position it is in (id, length, data or CRC), the parser answers an error. *)
Theorem corrupted_frame_rejected (l k : bytes) (b b' : Z) (r : Request)
  (Hwf : wf (l ++ b :: k)) (Hb' : u8 b') (Hne : b <> b')
  (Hok : parse_request (l ++ b :: k) = Ret (Ok r)) :
  exists e, parse_request (l ++ b' :: k) = Ret (Err e).
Proof.
  assert (Hwf' : wf (l ++ b' :: k)).
  { apply wf_app_inv in Hwf as [? [? ?]%wf_cons_inv]. auto with wfdb. }
  destruct (parse_request_total (l ++ b' :: k) Hwf') as [[r'|e] Hp]; [exfalso|by exists e].
  apply parse_request_ok_inv in Hok as (_ & _ & _ & Hok); [|done].
  apply parse_request_ok_inv in Hp as (_ & _ & _ & Hp); [|done].
  set (body := req_id r :: _) in Hok. set (body' := req_id r' :: _) in Hp.
  assert (Hlen : length body = length body').
  { apply (f_equal len) in Hok, Hp. rewrite !len_app, !len_be_bytes, !len_cons in *.
    unfold len in *. lia. }
  assert (wf body /\ wf body') as [Hb Hb2].
  { rewrite Hok in Hwf. rewrite Hp in Hwf'. by apply wf_app_inv in Hwf as [? _], Hwf' as [? _]. }
  apply Hne. exact (crc_trailer_detects _ _ _ _ _ _ _ _ be_bytes2_inj u16_tropic_crc
    tropic_crc_single_byte Hb Hb2 Hb' Hlen Hok Hp).
Qed.

Lemma corrupted_frame_rejected_witness :
  parse_request [0x01; 0x02; 0x01; 0x00; 0x2b; 0x92] = Ret (Ok (mkRequest 0x01 [0x01; 0x00])) /\
  exists e, parse_request [0x01; 0x02; 0x81; 0x00; 0x2b; 0x92] = Ret (Err e).
Proof.
  assert (H : parse_request [0x01; 0x02; 0x01; 0x00; 0x2b; 0x92]
    = Ret (Ok (mkRequest 0x01 [0x01; 0x00]))) by reflexivity.
  split; [exact H|].
  refine (corrupted_frame_rejected [0x01; 0x02] [0x00; 0x2b; 0x92] 0x01 0x81
    (mkRequest 0x01 [0x01; 0x00]) _ _ _ H).
  - repeat constructor; u_solve.
  - u_solve.
  - lia.
Defined.
