(* ===== verification/TropicL3.v ===== *)
(** * TROPIC01Sim: L3 commands

    [handlers/l3.rs]: every command of the secure channel, its privilege check,
    and the dispatcher with the size rules of the two firmware families.  [Ctx] is
    the mutable context the Rust methods work on; a method returns the context it
    leaves and the plaintext result. *)

From Stdlib Require Import String.
From S2P Require Import Prelude.
From S2P Require Import Crates.
From S2P Require Import TropicTypes.

Module result.
Definition OK : Z := 0xc3.
Definition FAIL : Z := 0x3c.
Definition UNAUTHORIZED : Z := 0x01.
Definition INVALID_CMD : Z := 0x02.
Definition SLOT_NOT_EMPTY : Z := 0x10.
Definition SLOT_EXPIRED : Z := 0x11.
Definition INVALID_KEY : Z := 0x12.
Definition UPDATE_ERR : Z := 0x13.
Definition COUNTER_INVALID : Z := 0x14.
Definition SLOT_EMPTY : Z := 0x15.
Definition SLOT_INVALID : Z := 0x16.
Definition HARDWARE_FAIL : Z := 0x17.
End result.

Module cmd_id.
Definition PING : Z := 0x01.
Definition PAIRING_KEY_WRITE : Z := 0x10.
Definition PAIRING_KEY_READ : Z := 0x11.
Definition PAIRING_KEY_INVALIDATE : Z := 0x12.
Definition R_CONFIG_WRITE : Z := 0x20.
Definition R_CONFIG_READ : Z := 0x21.
Definition R_CONFIG_ERASE : Z := 0x22.
Definition I_CONFIG_WRITE : Z := 0x30.
Definition I_CONFIG_READ : Z := 0x31.
Definition R_MEM_DATA_WRITE : Z := 0x40.
Definition R_MEM_DATA_READ : Z := 0x41.
Definition R_MEM_DATA_ERASE : Z := 0x42.
Definition RANDOM_VALUE_GET : Z := 0x50.
Definition ECC_KEY_GENERATE : Z := 0x60.
Definition ECC_KEY_STORE : Z := 0x61.
Definition ECC_KEY_READ : Z := 0x62.
Definition ECC_KEY_ERASE : Z := 0x63.
Definition ECDSA_SIGN : Z := 0x70.
Definition EDDSA_SIGN : Z := 0x71.
Definition MCOUNTER_INIT : Z := 0x80.
Definition MCOUNTER_UPDATE : Z := 0x81.
Definition MCOUNTER_GET : Z := 0x82.
Definition MAC_AND_DESTROY : Z := 0x90.
End cmd_id.

Module uap.
Definition PAIRING_KEY_WRITE : Z := 0x020.
Definition PAIRING_KEY_READ : Z := 0x024.
Definition PAIRING_KEY_INVALIDATE : Z := 0x028.
Definition R_CONFIG_WRITE_ERASE : Z := 0x030.
Definition R_CONFIG_READ : Z := 0x034.
Definition I_CONFIG_WRITE : Z := 0x040.
Definition I_CONFIG_READ : Z := 0x044.
Definition PING : Z := 0x100.
Definition R_MEM_DATA_WRITE : Z := 0x110.
Definition R_MEM_DATA_READ : Z := 0x114.
Definition R_MEM_DATA_ERASE : Z := 0x118.
Definition RANDOM_VALUE_GET : Z := 0x120.
Definition ECC_KEY_GENERATE : Z := 0x130.
Definition ECC_KEY_STORE : Z := 0x134.
Definition ECC_KEY_READ : Z := 0x138.
Definition ECC_KEY_ERASE : Z := 0x13c.
Definition ECDSA_SIGN : Z := 0x140.
Definition EDDSA_SIGN : Z := 0x144.
Definition MCOUNTER_INIT : Z := 0x150.
Definition MCOUNTER_GET : Z := 0x154.
Definition MCOUNTER_UPDATE : Z := 0x158.
Definition MAC_AND_DESTROY : Z := 0x160.
End uap.

Definition ECC_SLOT_MAX : Z := 31.
Definition R_MEM_SLOT_MAX : Z := 511.
Definition MCOUNTER_MAX : Z := 15.
Definition MCOUNTER_VALUE_MAX : Z := 0xfffffffe.
Definition MACANDD_SLOT_MAX : Z := 127.
Definition PING_MAX : Z := 4096.
Definition EDDSA_MSG_MAX : Z := 4096.
Definition CONFIG_OBJECT_SIZE : Z := 0x200.
Definition MACANDD_CUSTOM : bytes := str_bytes "My Tagged Application".

Inductive L3Outcome :=
  | Result_ (r : bytes)
  | GenErr.

Record L3State := mkL3State { spect_size_error : bool }.
Definition L3State_default : L3State := mkL3State false.

Inductive Lenient := LFail | LOkNoData | LExecute.

Definition ok (fields : bytes) : bytes := result.OK :: fields.
Definition code (c : Z) : bytes := [c].

Definition u16_at (b : bytes) (off : Z) : res Z :=
  let! b0 := idx b off in
  let! b1 := idx b (off + 1) in
  Ret (le_val [b0; b1]).

(** Is [x] one of the listed command ids? *)
Definition one_of (x : Z) (l : list Z) : bool := existsb (Z.eqb x) l.

(** [lo..=hi] contains [x]. *)
Definition within (lo hi x : Z) : bool := (lo <=? x) && (x <=? hi).

Definition size_ok (p : Personality) (id n : Z) : bool :=
  if id =? cmd_id.PING then within 1 (1 + PING_MAX) n
  else if id =? cmd_id.PAIRING_KEY_WRITE then n =? 36
  else if one_of id [cmd_id.PAIRING_KEY_READ; cmd_id.PAIRING_KEY_INVALIDATE] then n =? 3
  else if id =? cmd_id.R_CONFIG_WRITE then n =? 8
  else if one_of id [cmd_id.R_CONFIG_READ; cmd_id.I_CONFIG_READ] then n =? 3
  else if id =? cmd_id.R_CONFIG_ERASE then n =? 1
  else if id =? cmd_id.I_CONFIG_WRITE then n =? 4
  else if id =? cmd_id.R_MEM_DATA_WRITE then within 5 (4 + r_mem_slot_max p) n
  else if one_of id [cmd_id.R_MEM_DATA_READ; cmd_id.R_MEM_DATA_ERASE] then n =? 3
  else if id =? cmd_id.RANDOM_VALUE_GET then n =? 2
  else if id =? cmd_id.ECC_KEY_GENERATE then n =? 4
  else if id =? cmd_id.ECC_KEY_STORE then n =? 48
  else if one_of id [cmd_id.ECC_KEY_READ; cmd_id.ECC_KEY_ERASE] then n =? 3
  else if id =? cmd_id.ECDSA_SIGN then n =? 48
  else if id =? cmd_id.EDDSA_SIGN then within 16 (16 + EDDSA_MSG_MAX) n
  else if id =? cmd_id.MCOUNTER_INIT then n =? 8
  else if one_of id [cmd_id.MCOUNTER_UPDATE; cmd_id.MCOUNTER_GET] then n =? 3
  else if id =? cmd_id.MAC_AND_DESTROY then n =? 36
  else true.

Definition es_lenient (id n : Z) : Lenient :=
  if (id =? cmd_id.RANDOM_VALUE_GET) && (2 <? n) then LExecute
  else if one_of id [cmd_id.ECDSA_SIGN; cmd_id.MAC_AND_DESTROY; cmd_id.EDDSA_SIGN] then LOkNoData
  else LFail.

Definition is_spect (id : Z) : bool :=
  one_of id [cmd_id.ECC_KEY_GENERATE; cmd_id.ECC_KEY_STORE; cmd_id.ECC_KEY_READ;
    cmd_id.ECC_KEY_ERASE; cmd_id.ECDSA_SIGN; cmd_id.EDDSA_SIGN; cmd_id.MAC_AND_DESTROY].

Definition mutates_store (id : Z) : bool :=
  one_of id [cmd_id.PAIRING_KEY_WRITE; cmd_id.PAIRING_KEY_INVALIDATE; cmd_id.R_CONFIG_WRITE;
    cmd_id.R_CONFIG_ERASE; cmd_id.I_CONFIG_WRITE; cmd_id.R_MEM_DATA_WRITE;
    cmd_id.R_MEM_DATA_ERASE; cmd_id.ECC_KEY_GENERATE; cmd_id.ECC_KEY_STORE;
    cmd_id.ECC_KEY_ERASE; cmd_id.MCOUNTER_INIT; cmd_id.MCOUNTER_UPDATE;
    cmd_id.MAC_AND_DESTROY].

Definition known (id : Z) : bool :=
  one_of id [cmd_id.PING; cmd_id.PAIRING_KEY_WRITE; cmd_id.PAIRING_KEY_READ;
    cmd_id.PAIRING_KEY_INVALIDATE; cmd_id.R_CONFIG_WRITE; cmd_id.R_CONFIG_READ;
    cmd_id.R_CONFIG_ERASE; cmd_id.I_CONFIG_WRITE; cmd_id.I_CONFIG_READ;
    cmd_id.R_MEM_DATA_WRITE; cmd_id.R_MEM_DATA_READ; cmd_id.R_MEM_DATA_ERASE;
    cmd_id.RANDOM_VALUE_GET; cmd_id.ECC_KEY_GENERATE; cmd_id.ECC_KEY_STORE;
    cmd_id.ECC_KEY_READ; cmd_id.ECC_KEY_ERASE; cmd_id.ECDSA_SIGN; cmd_id.EDDSA_SIGN;
    cmd_id.MCOUNTER_INIT; cmd_id.MCOUNTER_UPDATE; cmd_id.MCOUNTER_GET;
    cmd_id.MAC_AND_DESTROY].

Section l3.
Context `{C : Crates}.

Record Ctx := mkCtx {
  dev : Device;
  cfg : list Z;
  pers : Personality;
  pkey : Z;
  ctx_rng : rng;
}.

Definition with_dev (self : Ctx) (d : Device) : Ctx :=
  mkCtx d (cfg self) (pers self) (pkey self) (ctx_rng self).
Definition with_rng (self : Ctx) (r : rng) : Ctx :=
  mkCtx (dev self) (cfg self) (pers self) (pkey self) r.

(** UAP check: field at bit [pos] of register [addr], bit [pkey]. *)
Definition allowed (self : Ctx) (addr pos : Z) : res bool :=
  let reg := default 0 (cfg self !! Z.to_nat (addr / 4)) in
  let! field := shr32 reg pos in
  let! bit := shl32 1 (pkey self) in
  Ret (negb (Z.land (Z.land field 0xff) bit =? 0)).

Definition ping (self : Ctx) (c : bytes) : res (Ctx * bytes) :=
  let! a := allowed self uap.PING 0 in
  if negb a then Ret (self, code result.UNAUTHORIZED)
  else
    let! data := slice c 1 (len c) in
    Ret (self, ok data).

Definition pairing_key_write (self : Ctx) (c : bytes) : res (Ctx * bytes) :=
  let! slot := u16_at c 1 in
  if 3 <? slot then Ret (self, code result.UNAUTHORIZED)
  else
    let! a := allowed self uap.PAIRING_KEY_WRITE (slot * 8) in
    if negb a then Ret (self, code result.UNAUTHORIZED)
    else if bool_decide (is_Some (pairing_slots (dev self) !! as_u8 slot))
    then Ret (self, code result.FAIL)
    else
      let! src := slice c 4 36 in
      let! public_key := copy_from_slice (vec_repeat 0 32) 0 32 src in
      Ret (with_dev self (set_pairing_slots (dev self)
             (<[as_u8 slot := mkPairingSlot public_key Written]> (pairing_slots (dev self)))),
           code result.OK).

Definition pairing_key_read (self : Ctx) (c : bytes) : res (Ctx * bytes) :=
  let! slot := u16_at c 1 in
  if 3 <? slot then Ret (self, code result.UNAUTHORIZED)
  else
    let! a := allowed self uap.PAIRING_KEY_READ (slot * 8) in
    if negb a then Ret (self, code result.UNAUTHORIZED)
    else
      match pairing_slots (dev self) !! as_u8 slot with
      | None => Ret (self, code result.SLOT_EMPTY)
      | Some s =>
          if bool_decide (pairing_state s = Invalidated) then Ret (self, code result.SLOT_INVALID)
          else Ret (self, ok (vec_repeat 0 3 ++ pairing_public_key s))
      end.

Definition pairing_key_invalidate (self : Ctx) (c : bytes) : res (Ctx * bytes) :=
  let! slot := u16_at c 1 in
  if 3 <? slot then Ret (self, code result.UNAUTHORIZED)
  else
    let! a := allowed self uap.PAIRING_KEY_INVALIDATE (slot * 8) in
    if negb a then Ret (self, code result.UNAUTHORIZED)
    else
      match pairing_slots (dev self) !! as_u8 slot with
      | None => Ret (self, code result.FAIL)
      | Some s =>
          Ret (with_dev self (set_pairing_slots (dev self)
                 (<[as_u8 slot := mkPairingSlot (pairing_public_key s) Invalidated]>
                    (pairing_slots (dev self)))),
               code result.OK)
      end.

Definition config_addr (self : Ctx) (addr uap_addr : Z) : res (Result Z Z) :=
  if CONFIG_OBJECT_SIZE <=? addr then Ret (Err result.UNAUTHORIZED)
  else
    let pos := if addr <? 0x100 then 0 else 8 in
    let! a := allowed self uap_addr pos in
    if negb a then Ret (Err result.UNAUTHORIZED)
    else if negb (addr mod 4 =? 0) then Ret (Err result.FAIL)
    else Ret (Ok (addr / 4)).

(** [u32::from_le_bytes([c[4], c[5], c[6], c[7]])]. *)
Definition u32_at4 (c : bytes) : res Z :=
  let! b4 := idx c 4 in
  let! b5 := idx c 5 in
  let! b6 := idx c 6 in
  let! b7 := idx c 7 in
  Ret (le_val [b4; b5; b6; b7]).

Definition r_config_write (self : Ctx) (c : bytes) : res (Ctx * bytes) :=
  let! a := allowed self uap.R_CONFIG_WRITE_ERASE 0 in
  if negb a then Ret (self, code result.UNAUTHORIZED)
  else
    let! addr := u16_at c 1 in
    if CONFIG_OBJECT_SIZE <=? addr then Ret (self, code result.UNAUTHORIZED)
    else if negb (addr mod 4 =? 0) then Ret (self, code result.FAIL)
    else
      let i := addr / 4 in
      let! cur := idx (r_config (dev self)) i in
      if negb (cur =? 0xffffffff) then Ret (self, code result.FAIL)
      else
        let! v := u32_at4 c in
        let! rc := set_idx (r_config (dev self)) i v in
        Ret (with_dev self (set_r_config (dev self) rc), code result.OK).

Definition config_read (self : Ctx) (c : bytes) (immutable : bool) : res (Ctx * bytes) :=
  let uap_addr := if immutable then uap.I_CONFIG_READ else uap.R_CONFIG_READ in
  let! addr := u16_at c 1 in
  let! r := config_addr self addr uap_addr in
  match r with
  | Err e => Ret (self, code e)
  | Ok i =>
      let! v := if immutable then idx (i_config (dev self)) i else idx (r_config (dev self)) i in
      Ret (self, ok (vec_repeat 0 3 ++ le_bytes 4 v))
  end.

Definition r_config_erase (self : Ctx) : res (Ctx * bytes) :=
  let! a := allowed self uap.R_CONFIG_WRITE_ERASE 0 in
  if negb a then Ret (self, code result.UNAUTHORIZED)
  else
    Ret (with_dev self (set_r_config (dev self) ((fun _ => 0xffffffff) <$> r_config (dev self))),
         code result.OK).

Definition i_config_write (self : Ctx) (c : bytes) : res (Ctx * bytes) :=
  let! addr := u16_at c 1 in
  let! r := config_addr self addr uap.I_CONFIG_WRITE in
  match r with
  | Err e => Ret (self, code e)
  | Ok i =>
      let! bit := idx c 3 in
      if 31 <? bit then Ret (self, code result.FAIL)
      else
        let! m := shl32 1 bit in
        let! cur := idx (i_config (dev self)) i in
        let! ic := set_idx (i_config (dev self)) i (Z.land cur (Z.lxor 0xffffffff m)) in
        Ret (with_dev self (set_i_config (dev self) ic), code result.OK)
  end.

Definition r_mem_slot (self : Ctx) (c : bytes) (uap_addr : Z) : res (Result Z Z) :=
  let! slot := u16_at c 1 in
  if R_MEM_SLOT_MAX <? slot then Ret (Err result.UNAUTHORIZED)
  else
    let! a := allowed self uap_addr (slot / 128 * 8) in
    if negb a then Ret (Err result.UNAUTHORIZED) else Ret (Ok slot).

Definition r_mem_write (self : Ctx) (c : bytes) : res (Ctx * bytes) :=
  let! r := r_mem_slot self c uap.R_MEM_DATA_WRITE in
  match r with
  | Err e => Ret (self, code e)
  | Ok slot =>
      let! data := slice c 4 (len c) in
      if bool_decide (data = []) || (r_mem_slot_max (pers self) <? len data)
      then Ret (self, code result.FAIL)
      else if bool_decide (is_Some (r_mem_slots (dev self) !! slot))
      then Ret (self, code result.SLOT_NOT_EMPTY)
      else
        Ret (with_dev self (set_r_mem_slots (dev self) (<[slot := data]> (r_mem_slots (dev self)))),
             code result.OK)
  end.

Definition r_mem_read (self : Ctx) (c : bytes) : res (Ctx * bytes) :=
  let! r := r_mem_slot self c uap.R_MEM_DATA_READ in
  match r with
  | Err e => Ret (self, code e)
  | Ok slot =>
      let f := vec_repeat 0 3 in
      let f := match r_mem_slots (dev self) !! slot with
               | Some d => f ++ d
               | None => f
               end in
      Ret (self, ok f)
  end.

Definition r_mem_erase (self : Ctx) (c : bytes) : res (Ctx * bytes) :=
  let! r := r_mem_slot self c uap.R_MEM_DATA_ERASE in
  match r with
  | Err e => Ret (self, code e)
  | Ok slot =>
      Ret (with_dev self (set_r_mem_slots (dev self) (delete slot (r_mem_slots (dev self)))),
           code result.OK)
  end.

Definition random (self : Ctx) (c : bytes) : res (Ctx * bytes) :=
  let! a := allowed self uap.RANDOM_VALUE_GET 0 in
  if negb a then Ret (self, code result.UNAUTHORIZED)
  else
    let! n := idx c 1 in
    let '(b, r) := fill_bytes n (ctx_rng self) in
    Ret (with_rng self r, ok (vec_repeat 0 3 ++ b)).

Definition ecc_slot (self : Ctx) (c : bytes) (uap_addr : Z) : res (Result Z Z) :=
  let! slot := u16_at c 1 in
  if ECC_SLOT_MAX <? slot then Ret (Err result.UNAUTHORIZED)
  else
    let! a := allowed self uap_addr (slot / 8 * 8) in
    if negb a then Ret (Err result.UNAUTHORIZED) else Ret (Ok slot).

Definition ecc_generate (self : Ctx) (c : bytes) : res (Ctx * bytes) :=
  let! r := ecc_slot self c uap.ECC_KEY_GENERATE in
  match r with
  | Err e => Ret (self, code e)
  | Ok slot =>
      let! cv := idx c 3 in
      match curve_from_wire_id cv with
      | None => Ret (self, code result.FAIL)
      | Some curve =>
          if bool_decide (is_Some (ecc_slots (dev self) !! slot))
          then Ret (self, code result.FAIL)
          else
            let '(private_key, rg) :=
              match curve with
              | CP256 => let '(k, rg) := p256_random (ctx_rng self) in (p256_secret_to_bytes k, rg)
              | CEd25519 => fill_bytes 32 (ctx_rng self)
              end in
            let self := with_rng self rg in
            Ret (with_dev self (set_ecc_slots (dev self)
                   (<[slot := mkEccSlot curve Generated private_key]> (ecc_slots (dev self)))),
                 code result.OK)
      end
  end.

Definition ecc_store (self : Ctx) (c : bytes) : res (Ctx * bytes) :=
  let! r := ecc_slot self c uap.ECC_KEY_STORE in
  match r with
  | Err e => Ret (self, code e)
  | Ok slot =>
      let! cv := idx c 3 in
      match curve_from_wire_id cv with
      | None => Ret (self, code result.FAIL)
      | Some curve =>
          if bool_decide (is_Some (ecc_slots (dev self) !! slot))
          then Ret (self, code result.FAIL)
          else
            let! k := slice c 16 48 in
            if bool_decide (curve = CP256) && bool_decide (p256_secret_from_slice k = None)
            then Ret (self, code result.FAIL)
            else
              Ret (with_dev self (set_ecc_slots (dev self)
                     (<[slot := mkEccSlot curve Stored k]> (ecc_slots (dev self)))),
                   code result.OK)
      end
  end.

(** Public key bytes for a slot as ECC_Key_Read returns them. *)
Definition public_key (entry : EccSlot) : res (option bytes) :=
  match ecc_curve entry with
  | CP256 =>
      match p256_secret_from_slice (ecc_private_key entry) with
      | None => Ret None
      | Some secret =>
          let! xy := slice (p256_to_encoded_point (p256_public_of secret)) 1 65 in
          Ret (Some xy)
      end
  | CEd25519 =>
      if len (ecc_private_key entry) =? 32
      then Ret (Some (ed25519_verifying_key (ecc_private_key entry)))
      else Ret None
  end.

Definition ecc_read (self : Ctx) (c : bytes) : res (Ctx * bytes) :=
  let! r := ecc_slot self c uap.ECC_KEY_READ in
  match r with
  | Err e => Ret (self, code e)
  | Ok slot =>
      match ecc_slots (dev self) !! slot with
      | None => Ret (self, code result.INVALID_KEY)
      | Some entry =>
          let! pk := public_key entry in
          match pk with
          | None => Ret (self, code result.FAIL)
          | Some public =>
              Ret (self, ok ([curve_wire_id (ecc_curve entry); origin_wire_id (ecc_origin entry)]
                             ++ vec_repeat 0 13 ++ public))
          end
      end
  end.

Definition ecc_erase (self : Ctx) (c : bytes) : res (Ctx * bytes) :=
  let! r := ecc_slot self c uap.ECC_KEY_ERASE in
  match r with
  | Err e => Ret (self, code e)
  | Ok slot =>
      Ret (with_dev self (set_ecc_slots (dev self) (delete slot (ecc_slots (dev self)))),
           code result.OK)
  end.

Definition ecdsa_sign (self : Ctx) (c : bytes) : res (Ctx * bytes) :=
  let! r := ecc_slot self c uap.ECDSA_SIGN in
  match r with
  | Err e => Ret (self, code e)
  | Ok slot =>
      match ecc_slots (dev self) !! slot with
      | None => Ret (self, code result.INVALID_KEY)
      | Some entry =>
          if negb (bool_decide (ecc_curve entry = CP256)) then Ret (self, code result.INVALID_KEY)
          else
            match p256_secret_from_slice (ecc_private_key entry) with
            | None => Ret (self, code result.FAIL)
            | Some secret =>
                let! hash := slice c 16 48 in
                let '(sig, rg) := p256_sign_prehash_with_rng secret (ctx_rng self) hash in
                let self := with_rng self rg in
                match sig with
                | None => Ret (self, code result.FAIL)
                | Some sig => Ret (self, ok (vec_repeat 0 15 ++ sig))
                end
            end
      end
  end.

(** Ed25519 with a hedged nonce: the nonce hash also takes 32 fresh random bytes. *)
Definition ed25519_sign_hedged (seed msg : bytes) (r : rng) : res (bytes * rng) :=
  let h := sha512_finalize (sha512_update sha512_new seed) in
  let! lo := slice h 0 32 in
  let! hi := slice h 32 (len h) in
  let! a_bytes := copy_from_slice (vec_repeat 0 32) 0 32 lo in
  let! a0 := idx a_bytes 0 in
  let! a_bytes := set_idx a_bytes 0 (Z.land a0 248) in
  let! a31 := idx a_bytes 31 in
  let! a_bytes := set_idx a_bytes 31 (Z.land a31 127) in
  let! a31 := idx a_bytes 31 in
  let! a_bytes := set_idx a_bytes 31 (Z.lor a31 64) in
  let a := scalar_from_bytes_mod_order a_bytes in
  let public := compress (mul_base a) in
  let '(z, r) := fill_bytes 32 r in
  let nonce := scalar_from_hash (sha512_finalize
    (sha512_update (sha512_update (sha512_update sha512_new z) hi) msg)) in
  let r_point := compress (mul_base nonce) in
  let k := scalar_from_hash (sha512_finalize
    (sha512_update (sha512_update (sha512_update sha512_new r_point) public) msg)) in
  let s := scalar_add nonce (scalar_mul k a) in
  let! sig := copy_from_slice (vec_repeat 0 64) 0 32 r_point in
  let! sig := copy_from_slice sig 32 64 (scalar_bytes s) in
  Ret (sig, r).

Definition eddsa_sign (self : Ctx) (c : bytes) : res (Ctx * bytes) :=
  let! r := ecc_slot self c uap.EDDSA_SIGN in
  match r with
  | Err e => Ret (self, code e)
  | Ok slot =>
      if (len c =? 16) && eddsa_empty_message_unsigned (pers self)
      then Ret (self, code result.OK)
      else
        match ecc_slots (dev self) !! slot with
        | None => Ret (self, code result.INVALID_KEY)
        | Some entry =>
            if negb (bool_decide (ecc_curve entry = CEd25519))
            then Ret (self, code result.INVALID_KEY)
            else
              let! seed := copy_from_slice (vec_repeat 0 32) 0 32 (ecc_private_key entry) in
              let! msg := slice c 16 (len c) in
              let! '(sig, rg) := ed25519_sign_hedged seed msg (ctx_rng self) in
              Ret (with_rng self rg, ok (vec_repeat 0 15 ++ sig))
        end
  end.

Definition mcounter_index (self : Ctx) (c : bytes) (uap_addr : Z) : res (Result Z Z) :=
  let! i := u16_at c 1 in
  if MCOUNTER_MAX <? i then Ret (Err result.UNAUTHORIZED)
  else
    let! a := allowed self uap_addr (i / 4 * 8) in
    if negb a then Ret (Err result.UNAUTHORIZED) else Ret (Ok i).

Definition mcounter_init (self : Ctx) (c : bytes) : res (Ctx * bytes) :=
  let! r := mcounter_index self c uap.MCOUNTER_INIT in
  match r with
  | Err e => Ret (self, code e)
  | Ok i =>
      let! v := u32_at4 c in
      if MCOUNTER_VALUE_MAX <? v then Ret (self, code result.FAIL)
      else
        Ret (with_dev self (set_mcounters (dev self) (<[i := v]> (mcounters (dev self)))),
             code result.OK)
  end.

Definition mcounter_update (self : Ctx) (c : bytes) : res (Ctx * bytes) :=
  let! r := mcounter_index self c uap.MCOUNTER_UPDATE in
  match r with
  | Err e => Ret (self, code e)
  | Ok i =>
      match mcounters (dev self) !! i with
      | None => Ret (self, code result.COUNTER_INVALID)
      | Some v =>
          if v =? 0 then Ret (self, code result.UPDATE_ERR)
          else
            Ret (with_dev self (set_mcounters (dev self) (<[i := v - 1]> (mcounters (dev self)))),
                 code result.OK)
      end
  end.

Definition mcounter_get (self : Ctx) (c : bytes) : res (Ctx * bytes) :=
  let! r := mcounter_index self c uap.MCOUNTER_GET in
  match r with
  | Err e => Ret (self, code e)
  | Ok i =>
      match mcounters (dev self) !! i with
      | None => Ret (self, code result.COUNTER_INVALID)
      | Some v => Ret (self, ok (vec_repeat 0 3 ++ le_bytes 4 v))
      end
  end.

Definition kmac256 (key : bytes) (parts : list bytes) : bytes :=
  kmac_finalize (fold_left kmac_update parts (kmac_v256 key MACANDD_CUSTOM)) 32.

Definition mac_and_destroy (self : Ctx) (c : bytes) : res (Ctx * bytes) :=
  let! slot := u16_at c 1 in
  if MACANDD_SLOT_MAX <? slot then Ret (self, code result.UNAUTHORIZED)
  else
    let! a := allowed self uap.MAC_AND_DESTROY (slot / 32 * 8) in
    if negb a then Ret (self, code result.UNAUTHORIZED)
    else
      let slot_byte := [as_u8 slot] in
      let s := default (vec_repeat 0xff 32) (macandd_slots (dev self) !! slot) in
      let! data_in := slice c 4 36 in
      let s_new := kmac256 (macandd_key0 (dev self)) [data_in; slot_byte] in
      let self := with_dev self
        (set_macandd_slots (dev self) (<[slot := s_new]> (macandd_slots (dev self)))) in
      let out := kmac256 (macandd_key1 (dev self)) [s; s_new; slot_byte] in
      Ret (self, ok (vec_repeat 0 3 ++ out)).

(** The [match id] of the dispatcher. *)
Definition run_command (self : Ctx) (id : Z) (c : bytes) : res (Ctx * bytes) :=
  if id =? cmd_id.PING then ping self c
  else if id =? cmd_id.PAIRING_KEY_WRITE then pairing_key_write self c
  else if id =? cmd_id.PAIRING_KEY_READ then pairing_key_read self c
  else if id =? cmd_id.PAIRING_KEY_INVALIDATE then pairing_key_invalidate self c
  else if id =? cmd_id.R_CONFIG_WRITE then r_config_write self c
  else if id =? cmd_id.R_CONFIG_READ then config_read self c false
  else if id =? cmd_id.R_CONFIG_ERASE then r_config_erase self
  else if id =? cmd_id.I_CONFIG_WRITE then i_config_write self c
  else if id =? cmd_id.I_CONFIG_READ then config_read self c true
  else if id =? cmd_id.R_MEM_DATA_WRITE then r_mem_write self c
  else if id =? cmd_id.R_MEM_DATA_READ then r_mem_read self c
  else if id =? cmd_id.R_MEM_DATA_ERASE then r_mem_erase self c
  else if id =? cmd_id.RANDOM_VALUE_GET then random self c
  else if id =? cmd_id.ECC_KEY_GENERATE then ecc_generate self c
  else if id =? cmd_id.ECC_KEY_STORE then ecc_store self c
  else if id =? cmd_id.ECC_KEY_READ then ecc_read self c
  else if id =? cmd_id.ECC_KEY_ERASE then ecc_erase self c
  else if id =? cmd_id.ECDSA_SIGN then ecdsa_sign self c
  else if id =? cmd_id.EDDSA_SIGN then eddsa_sign self c
  else if id =? cmd_id.MCOUNTER_INIT then mcounter_init self c
  else if id =? cmd_id.MCOUNTER_UPDATE then mcounter_update self c
  else if id =? cmd_id.MCOUNTER_GET then mcounter_get self c
  else if id =? cmd_id.MAC_AND_DESTROY then mac_and_destroy self c
  else Ret (self, code result.INVALID_CMD).

(** Execute one L3 command; also returns the firmware state it leaves. *)
Definition dispatch (self : Ctx) (state : L3State) (plaintext : bytes)
  : res (Ctx * L3State * L3Outcome) :=
  match plaintext with
  | [] => Ret (self, state, Result_ (code result.INVALID_CMD))
  | id :: _ =>
      let c := plaintext in
      let p := pers self in
      if negb (known id)
      then Ret (self, mkL3State false, Result_ (code result.INVALID_CMD))
      else
        let execute :=
          let taken := spect_size_error state in
          let state := mkL3State false in
          if taken && negb (is_spect id)
          then
            let n := if id =? cmd_id.PING then len c else 1 in
            Ret (self, state, Result_ (vec_repeat 0 n))
          else
            let! '(self, r) := run_command self id c in
            Ret (self, state, Result_ r) in
        if negb (size_ok p id (len c)) then
          if strict_l3_sizes p
          then Ret (self, (if is_spect id then mkL3State true else state), GenErr)
          else
            match es_lenient id (len c) with
            | LFail => Ret (self, state, Result_ (code result.FAIL))
            | LOkNoData => Ret (self, state, Result_ (code result.OK))
            | LExecute => execute
            end
        else execute
  end.
End l3.
