(* ===== verification/TropicL3Facts.v ===== *)
(** * TROPIC01Sim: what the L3 commands guarantee

    The invariant [device_ok] of the persistent device, its preservation by every
    command and the absence of panics ([dispatch_safe]); the privilege check as a
    bit of the configuration; and the behaviour of the commands: write-once
    R-Memory, one-way I-Config and pairing slots, monotonic counters,
    MAC-and-Destroy, hedged Ed25519 signatures. *)

From S2P Require Import Prelude.
From S2P Require Import Crates.
From S2P Require Import TropicTypes.
From S2P Require Import TropicL3.

(** A bounded byte string of fixed length. *)
Definition key32 (k : bytes) : Prop := len k = 32 /\ wf k.

Section facts.
Context `{C : Crates} {COk : CratesOk C}.

(** ** The device invariant *)

Definition pairing_ok (k : Z) (s : PairingSlot) : Prop := 0 <= k <= 3 /\ key32 (pairing_public_key s).
Definition ecc_ok (k : Z) (e : EccSlot) : Prop :=
  0 <= k <= 31 /\ key32 (ecc_private_key e) /\
  (ecc_curve e = CP256 -> is_Some (p256_secret_from_slice (ecc_private_key e))).
Definition r_mem_ok (p : Personality) (k : Z) (d : bytes) : Prop :=
  0 <= k <= 511 /\ 1 <= len d <= r_mem_slot_max p /\ wf d.
Definition mcounter_ok (k v : Z) : Prop := 0 <= k <= 15 /\ 0 <= v <= MCOUNTER_VALUE_MAX.
Definition macandd_ok (k : Z) (s : bytes) : Prop := 0 <= k <= 127 /\ key32 s.

Record device_ok (d : Device) : Prop := {
  dok_chip_id : len (dev_chip_id d) = 128 /\ wf (dev_chip_id d);
  dok_st : key32 (st_priv d) /\ key32 (st_pub d);
  dok_cert : wf (cert_store d);
  dok_r_config : len (r_config d) = 128 /\ Forall u32 (r_config d);
  dok_i_config : len (i_config d) = 128 /\ Forall u32 (i_config d);
  dok_pairing : map_Forall pairing_ok (pairing_slots d);
  dok_ecc : map_Forall ecc_ok (ecc_slots d);
  dok_r_mem : map_Forall (r_mem_ok (personality d)) (r_mem_slots d);
  dok_mcounters : map_Forall mcounter_ok (mcounters d);
  dok_macandd : map_Forall macandd_ok (macandd_slots d);
  dok_keys : key32 (macandd_key0 d) /\ key32 (macandd_key1 d);
}.

(** The context of a command: an intact device, its own personality, and a
    pairing slot number that the 8-bit privilege fields can hold. *)
Record ctx_ok (self : Ctx) : Prop := {
  cok_dev : device_ok (dev self);
  cok_pers : pers self = personality (dev self);
  cok_pkey : 0 <= pkey self < 8;
}.

(** ** The privilege check *)

(** Bit [pkey] of the 8-bit field at [pos]. *)
Definition uap_bit (reg pos pkey : Z) : bool := (pkey <? 8) && Z.testbit reg (pos + pkey).

Definition cfg_reg (self : Ctx) (addr : Z) : Z := default 0 (cfg self !! Z.to_nat (addr / 4)).

Lemma allowed_spec self addr pos :
  0 <= pos < 32 -> 0 <= pkey self < 32 ->
  allowed self addr pos = Ret (uap_bit (cfg_reg self addr) pos (pkey self)).
Proof.
  intros Hpos Hk. unfold allowed, shr32, shl32, uap_bit, cfg_reg.
  rewrite !bool_decide_true by lia. cbn [rbind]. f_equal.
  set (reg := default 0 _).
  assert (Hs : as_u32 (Z.shiftl 1 (pkey self)) = 2 ^ pkey self).
  { rewrite Z.shiftl_1_l. apply Z.mod_small. split; [apply Z.pow_nonneg; lia|].
    change 4294967296 with (2 ^ 32). apply Z.pow_lt_mono_r; lia. }
  rewrite Hs. change 0xff with (Z.ones 8).
  assert (Hbit : Z.testbit (Z.land (Z.shiftr reg pos) (Z.ones 8)) (pkey self)
    = (pkey self <? 8) && Z.testbit reg (pos + pkey self)).
  { rewrite Z.land_spec, Z.shiftr_spec, Z.add_comm by lia.
    rewrite Z.testbit_ones_nonneg by lia. apply andb_comm. }
  rewrite <- Hbit. set (f := Z.land (Z.shiftr reg pos) (Z.ones 8)).
  destruct (Z.testbit f (pkey self)) eqn:E.
  - destruct (Z.eqb_spec (Z.land f (2 ^ pkey self)) 0) as [H0|]; [|done].
    apply (f_equal (fun z => Z.testbit z (pkey self))) in H0. cbv beta in H0.
    by rewrite Z.land_spec, E, Z.pow2_bits_true, Z.bits_0 in H0 by lia.
  - destruct (Z.eqb_spec (Z.land f (2 ^ pkey self)) 0) as [|H0]; [done|].
    exfalso. apply H0, Z.bits_inj'. intros i Hi. rewrite Z.land_spec, Z.bits_0, Z.pow2_bits_eqb by lia.
    destruct (Z.eqb_spec (pkey self) i) as [<-|]; [by rewrite E|apply andb_false_r].
Qed.

Lemma wp_allowed self addr pos (Q : bool -> Prop) :
  0 <= pos < 32 -> 0 <= pkey self < 8 ->
  Q (uap_bit (cfg_reg self addr) pos (pkey self)) -> wp (allowed self addr pos) Q.
Proof. intros. by rewrite allowed_spec by lia. Qed.

Lemma wp_u16_at c off (Q : Z -> Prop) :
  wf c -> 0 <= off -> off + 1 < len c ->
  (forall v, u16 v -> u16_at c off = Ret v -> Q v) -> wp (u16_at c off) Q.
Proof.
  intros Hc H0 H1 HQ. apply wp_value; [unfold u16_at; by wp_run|]. intros v E. apply HQ; [|done].
  revert E. unfold u16_at. intros E.
  destruct (idx c off) as [b0|] eqn:E0; [|done]. destruct (idx c (off + 1)) as [b1|] eqn:E1; [|done].
  injection E as <-. apply wf_idx in E0, E1; try done. unfold u8, u16 in *. lia.
Qed.

Lemma wp_u32_at4 c (Q : Z -> Prop) :
  wf c -> 8 <= len c -> (forall v, u32 v -> u32_at4 c = Ret v -> Q v) -> wp (u32_at4 c) Q.
Proof.
  intros Hc Hl HQ. apply wp_value; [unfold u32_at4; by wp_run|]. intros v E. apply HQ; [|done].
  revert E. unfold u32_at4. intros E.
  destruct (idx c 4) as [b4|] eqn:E4; [|done]. destruct (idx c 5) as [b5|] eqn:E5; [|done].
  destruct (idx c 6) as [b6|] eqn:E6; [|done]. destruct (idx c 7) as [b7|] eqn:E7; [|done].
  injection E as <-. apply wf_idx in E4, E5, E6, E7; try done. unfold u8, u32 in *. lia.
Qed.

(** ** Every command keeps the invariant and never panics *)

Lemma device_ok_pairing d m :
  device_ok d -> map_Forall pairing_ok m -> device_ok (set_pairing_slots d m).
Proof. intros []; by split. Qed.
Lemma device_ok_r_config d c :
  device_ok d -> len c = 128 -> Forall u32 c -> device_ok (set_r_config d c).
Proof. intros []; by split. Qed.
Lemma device_ok_i_config d c :
  device_ok d -> len c = 128 -> Forall u32 c -> device_ok (set_i_config d c).
Proof. intros []; by split. Qed.
Lemma device_ok_ecc d m : device_ok d -> map_Forall ecc_ok m -> device_ok (set_ecc_slots d m).
Proof. intros []; by split. Qed.
Lemma device_ok_r_mem d m :
  device_ok d -> map_Forall (r_mem_ok (personality d)) m -> device_ok (set_r_mem_slots d m).
Proof. intros []; by split. Qed.
Lemma device_ok_mcounters d m :
  device_ok d -> map_Forall mcounter_ok m -> device_ok (set_mcounters d m).
Proof. intros []; by split. Qed.
Lemma device_ok_macandd d m :
  device_ok d -> map_Forall macandd_ok m -> device_ok (set_macandd_slots d m).
Proof. intros []; by split. Qed.

Lemma ctx_ok_with_rng self r : ctx_ok self -> ctx_ok (with_rng self r).
Proof. intros []; by split. Qed.

Lemma ctx_ok_with_dev self d :
  ctx_ok self -> device_ok d -> personality d = personality (dev self) -> ctx_ok (with_dev self d).
Proof. intros [H1 H2 H3] Hd Hp. split; simpl; [done|congruence|done]. Qed.

(** What a command may do to its context, and what it returns. *)
Definition cmd_post (self : Ctx) (out : Ctx * bytes) : Prop :=
  let '(self', r) := out in
  ctx_ok self' /\ (cfg self' = cfg self /\ pers self' = pers self /\ pkey self' = pkey self) /\
  wf r /\ 1 <= len r <= 4097.

Lemma cmd_post_reply self r :
  ctx_ok self -> wf r -> 1 <= len r <= 4097 -> cmd_post self (self, r).
Proof. intros. by split_and!; try lia. Qed.

Lemma cmd_post_code self c : ctx_ok self -> u8 c -> cmd_post self (self, code c).
Proof. intros. apply cmd_post_reply; [done|unfold code; auto with wfdb|done]. Qed.

Lemma cmd_post_rng self rg r :
  ctx_ok self -> wf r -> 1 <= len r <= 4097 -> cmd_post self (with_rng self rg, r).
Proof. intros. split_and!; [by apply ctx_ok_with_rng|done..|lia|lia]. Qed.

Lemma cmd_post_rng_code self rg c :
  ctx_ok self -> u8 c -> cmd_post self (with_rng self rg, code c).
Proof. intros. apply cmd_post_rng; [done|unfold code; auto with wfdb|done]. Qed.

Lemma cmd_post_write self d c :
  ctx_ok self -> device_ok d -> personality d = personality (dev self) -> u8 c ->
  cmd_post self (with_dev self d, code c).
Proof.
  intros. split_and!; [by apply ctx_ok_with_dev|done..| |done|done]. unfold code; auto with wfdb.
Qed.

Lemma wf_ok f : wf f -> wf (ok f).
Proof. intros. apply wf_cons; [unfold result.OK; u_solve|done]. Qed.

Lemma u8_result c :
  one_of c [result.OK; result.FAIL; result.UNAUTHORIZED; result.INVALID_CMD;
    result.SLOT_NOT_EMPTY; result.INVALID_KEY; result.UPDATE_ERR; result.COUNTER_INVALID;
    result.SLOT_EMPTY; result.SLOT_INVALID] = true -> u8 c.
Proof.
  intros (x & Hin & ->%Z.eqb_eq)%existsb_exists. simpl in Hin.
  repeat destruct Hin as [<-|Hin]; try done; split; vm_compute; congruence.
Qed.

(** The common postconditions of the slot and address checks. *)
Definition checked (hi : Z) (r : Result Z Z) : Prop :=
  match r with
  | Ok i => 0 <= i <= hi
  | Err e => e = result.UNAUTHORIZED \/ e = result.FAIL
  end.

Ltac l3_step :=
  lazymatch goal with
  | |- wp (allowed _ _ _) _ => apply wp_allowed; [try wp_side | try wp_side |]
  | |- wp (u16_at _ _) _ =>
      let v := fresh "v" in
      let Hv := fresh "Hv" in
      apply wp_u16_at; [assumption | try wp_side | try wp_side | intros v Hv _]
  | |- wp (u32_at4 _) _ =>
      let v := fresh "v" in
      let Hv := fresh "Hv" in
      apply wp_u32_at4; [assumption | try wp_side | intros v Hv _]
  | |- _ => wp_step
  end.
Ltac l3_run := repeat (l3_step; cbv beta).

Ltac l3_done :=
  first
    [ apply cmd_post_code; [assumption | by apply u8_result]
    | apply cmd_post_rng_code; [assumption | by apply u8_result]
    | apply cmd_post_reply; [assumption | |]
    | apply cmd_post_rng; [assumption | |]
    | apply cmd_post_write; [assumption | | done | by apply u8_result] ].

(** The hedged signature, without the buffers it is assembled in. *)
Definition hedged_secret (seed : bytes) : scalar :=
  scalar_from_bytes_mod_order (clamp (sub (sha512_finalize (sha512_update sha512_new seed)) 0 32)).
Definition hedged_nonce (seed msg z : bytes) : scalar :=
  scalar_from_hash (sha512_finalize (sha512_update (sha512_update (sha512_update sha512_new z)
    (sub (sha512_finalize (sha512_update sha512_new seed)) 32 64)) msg)).
Definition hedged_challenge (rp public msg : bytes) : scalar :=
  scalar_from_hash (sha512_finalize
    (sha512_update (sha512_update (sha512_update sha512_new rp) public) msg)).

Lemma ed25519_sign_hedged_spec seed msg r :
  ed25519_sign_hedged seed msg r =
  (let '(z, r') := fill_bytes 32 r in
   let a := hedged_secret seed in
   let nonce := hedged_nonce seed msg z in
   let rp := compress (mul_base nonce) in
   let k := hedged_challenge rp (compress (mul_base a)) msg in
   Ret (rp ++ scalar_bytes (scalar_add nonce (scalar_mul k a)), r')).
Proof.
  unfold ed25519_sign_hedged, hedged_secret, hedged_nonce, hedged_challenge.
  set (h := sha512_finalize (sha512_update sha512_new seed)).
  assert (Hh : len h = 64) by apply sha512_len. clearbody h.
  rewrite Hh, !slice_ret by lia. cbn [rbind].
  assert (Hlo : len (sub h 0 32) = 32) by len_solve.
  set (lo := sub h 0 32) in *. clearbody lo. unfold copy_from_slice at 1.
  rewrite bool_decide_true by done. cbn [rbind]. rewrite splice_full by done.
  unfold clamp.
  destruct (lookup_lt_is_Some_2 lo 0) as [x0 H0]; [unfold len in *; lia|].
  destruct (lookup_lt_is_Some_2 lo 31) as [x31 H31]; [unfold len in *; lia|].
  rewrite H0, H31. rewrite (idx_ret lo 0 x0) by done. cbn [rbind default].
  unfold set_idx at 1. rewrite bool_decide_true by (rewrite Hlo; lia). cbn [rbind].
  rewrite (idx_ret _ 31 x31) by (rewrite ?list_lookup_insert_ne; done). cbn [rbind].
  unfold set_idx at 1. rewrite bool_decide_true by (rewrite len_insert; lia). cbn [rbind].
  rewrite (idx_ret _ 31 (Z.land x31 127)); [|done|].
  2: { apply list_lookup_insert_eq. rewrite length_insert. unfold len in *. lia. }
  cbn [rbind]. unfold set_idx at 1. rewrite bool_decide_true by (rewrite !len_insert; lia).
  cbn [rbind]. rewrite list_insert_insert_eq. change (Z.to_nat 0) with 0%nat.
  change (Z.to_nat 31) with 31%nat. destruct (fill_bytes 32 r) as [z r'].
  unfold copy_from_slice at 1. rewrite bool_decide_true by (rewrite compress_len; done).
  cbn [rbind]. unfold copy_from_slice. rewrite bool_decide_true.
  2: { rewrite len_splice, scalar_bytes_len; rewrite ?compress_len; done. }
  cbn [rbind]. rewrite splice_halves; [done|apply compress_len|by rewrite scalar_bytes_len].
Qed.

Lemma ed25519_sign_hedged_ok seed msg r :
  wp (ed25519_sign_hedged seed msg r) (fun '(sig, _) => wf sig /\ len sig = 64).
Proof.
  rewrite ed25519_sign_hedged_spec. destruct (fill_bytes 32 r) as [z r']. simpl.
  split; [apply wf_app; [apply compress_wf|apply scalar_bytes_wf]|].
  by rewrite len_app, compress_len, scalar_bytes_len.
Qed.

Section commands.
Context (self : Ctx) (c : bytes) (Hself : ctx_ok self) (Hc : wf c).

Lemma pkey_bound : 0 <= pkey self < 8.
Proof. apply Hself. Qed.
Hint Resolve pkey_bound : core.

Ltac checked_done := first [by left | by right | simpl; dlia].

Lemma r_mem_slot_checked a : 3 <= len c -> wp (r_mem_slot self c a) (checked 511).
Proof.
  pose proof pkey_bound. intros Hl. unfold r_mem_slot, R_MEM_SLOT_MAX. l3_run; checked_done.
Qed.

Lemma ecc_slot_checked a : 3 <= len c -> wp (ecc_slot self c a) (checked 31).
Proof.
  pose proof pkey_bound. intros Hl. unfold ecc_slot, ECC_SLOT_MAX. l3_run; checked_done.
Qed.

Lemma mcounter_index_checked a : 3 <= len c -> wp (mcounter_index self c a) (checked 15).
Proof.
  pose proof pkey_bound. intros Hl. unfold mcounter_index, MCOUNTER_MAX. l3_run; checked_done.
Qed.

Lemma config_addr_checked addr a : 0 <= addr -> wp (config_addr self addr a) (checked 127).
Proof.
  pose proof pkey_bound. intros Hl. unfold config_addr, CONFIG_OBJECT_SIZE.
  l3_run; first [checked_done | destruct (addr <? 256); lia].
Qed.

(** A checked index: the error code is the reply, a good index continues. *)
Lemma wp_checked hi (m : res (Result Z Z)) (k : Z -> res (Ctx * bytes)) :
  wp m (checked hi) ->
  (forall i, 0 <= i <= hi -> wp (k i) (cmd_post self)) ->
  wp (let! r := m in match r with Err e => Ret (self, code e) | Ok i => k i end) (cmd_post self).
Proof.
  intros Hm Hk. apply wp_bind. eapply wp_mono; [exact Hm|]. intros [i|e] H; [by apply Hk|].
  apply wp_ret, cmd_post_code; [done|]. by destruct H as [-> | ->]; apply u8_result.
Qed.

Lemma ping_ok : 1 <= len c <= 4097 -> wp (ping self c) (cmd_post self).
Proof.
  pose proof pkey_bound. intros Hl. unfold ping. l3_run; l3_done.
  - apply wf_ok. auto with wfdb.
  - unfold ok. len_solve.
Qed.

Lemma pairing_key_write_ok : len c = 36 -> wp (pairing_key_write self c) (cmd_post self).
Proof.
  pose proof pkey_bound. pose proof (cok_dev _ Hself) as Hd.
  intros Hl. unfold pairing_key_write. l3_run; l3_done.
  apply device_ok_pairing; [done|]. apply map_Forall_insert_2; [|apply Hd].
  assert (as_u8 v = v) as -> by (unfold as_u8; apply Z.mod_small; u_solve).
  split; [u_solve|]. split; simpl; [|auto with wfdb].
  rewrite len_splice; len_solve.
Qed.

Lemma pairing_key_read_ok : 3 <= len c -> wp (pairing_key_read self c) (cmd_post self).
Proof.
  pose proof pkey_bound. pose proof (cok_dev _ Hself) as Hd.
  intros Hl. unfold pairing_key_read. l3_run; l3_done.
  all: destruct (dok_pairing _ Hd _ _ E1) as [_ [Hk Hw]].
  - apply wf_ok. auto with wfdb.
  - unfold ok. len_solve.
Qed.

Lemma pairing_key_invalidate_ok : 3 <= len c -> wp (pairing_key_invalidate self c) (cmd_post self).
Proof.
  pose proof pkey_bound. pose proof (cok_dev _ Hself) as Hd.
  intros Hl. unfold pairing_key_invalidate. l3_run; l3_done.
  apply device_ok_pairing; [done|]. apply map_Forall_insert_2; [|apply Hd].
  match goal with H : _ !! _ = Some _ |- _ => exact (dok_pairing _ Hd _ _ H) end.
Qed.

Lemma r_config_write_ok : len c = 8 -> wp (r_config_write self c) (cmd_post self).
Proof.
  pose proof pkey_bound. pose proof (cok_dev _ Hself) as Hd.
  destruct (dok_r_config _ Hd) as [Hr Hru].
  intros Hl. unfold r_config_write, CONFIG_OBJECT_SIZE. l3_run; l3_done.
  apply device_ok_r_config; [done|len_solve|by apply Forall_insert].
Qed.

Lemma config_read_ok b : 3 <= len c -> wp (config_read self c b) (cmd_post self).
Proof.
  pose proof (cok_dev _ Hself) as Hd.
  destruct (dok_r_config _ Hd) as [Hr _], (dok_i_config _ Hd) as [Hi _].
  intros Hl. unfold config_read. do 2 (l3_step; cbv beta).
  apply wp_checked with 127; [apply config_addr_checked; u_solve|].
  intros i Hi'. l3_run; l3_done; (apply wf_ok || unfold ok); auto 10 with wfdb; len_solve.
Qed.

Lemma r_config_erase_ok : wp (r_config_erase self) (cmd_post self).
Proof.
  pose proof pkey_bound. pose proof (cok_dev _ Hself) as Hd.
  unfold r_config_erase. l3_run; l3_done.
  apply device_ok_r_config; [done| |].
  - rewrite len_fmap. apply Hd.
  - apply Forall_fmap, Forall_true. intros. unfold compose. u_solve.
Qed.

Lemma i_config_write_ok : len c = 4 -> wp (i_config_write self c) (cmd_post self).
Proof.
  pose proof (cok_dev _ Hself) as Hd. destruct (dok_i_config _ Hd) as [Hi Hiu].
  intros Hl. unfold i_config_write. do 2 (l3_step; cbv beta).
  apply wp_checked with 127; [apply config_addr_checked; u_solve|].
  intros i Hi'. l3_run; l3_done.
  apply device_ok_i_config; [done|len_solve|]. apply Forall_insert; [done|].
  apply (Forall_lookup_1 _ _ _ _ Hiu) in Hx0. apply u32_land; [done|].
  apply Z.lxor_nonneg. split; [|done]. intros _. apply u32_as_u32.
Qed.

Lemma r_mem_write_ok :
  5 <= len c <= 4 + r_mem_slot_max (pers self) -> wp (r_mem_write self c) (cmd_post self).
Proof.
  pose proof (cok_dev _ Hself) as Hd. intros Hl. unfold r_mem_write.
  apply wp_checked with 511; [apply r_mem_slot_checked; lia|].
  intros i Hi. l3_run; l3_done.
  apply device_ok_r_mem; [done|]. apply map_Forall_insert_2; [|apply Hd].
  apply orb_false_iff in E as [_ E]. rewrite (cok_pers _ Hself) in *.
  split_and!; [lia..| |lia|auto with wfdb]. len_solve.
Qed.

Lemma r_mem_slot_max_le p : r_mem_slot_max p <= 475.
Proof. by destruct p. Qed.

Lemma r_mem_read_ok : 3 <= len c -> wp (r_mem_read self c) (cmd_post self).
Proof.
  pose proof (cok_dev _ Hself) as Hd. intros Hl. unfold r_mem_read.
  apply wp_checked with 511; [apply r_mem_slot_checked; lia|].
  intros i Hi. l3_run. destruct (r_mem_slots (dev self) !! i) as [d|] eqn:E.
  - destruct (dok_r_mem _ Hd _ _ E) as (_ & Hlen & Hw).
    pose proof (r_mem_slot_max_le (personality (dev self))).
    apply cmd_post_reply; [done|apply wf_ok; auto with wfdb|unfold ok; len_solve].
  - apply cmd_post_reply; [done|apply wf_ok; auto with wfdb|unfold ok; len_solve].
Qed.

Lemma r_mem_erase_ok : 3 <= len c -> wp (r_mem_erase self c) (cmd_post self).
Proof.
  pose proof (cok_dev _ Hself) as Hd. intros Hl. unfold r_mem_erase.
  apply wp_checked with 511; [apply r_mem_slot_checked; lia|].
  intros i Hi. l3_run; l3_done.
  apply device_ok_r_mem; [done|]. apply map_Forall_delete, Hd.
Qed.

Lemma random_ok : 2 <= len c -> wp (random self c) (cmd_post self).
Proof.
  pose proof pkey_bound. intros Hl. unfold random. l3_run; [l3_done|].
  pose proof (fill_bytes_len x (ctx_rng self)) as Hb. pose proof (fill_bytes_wf x (ctx_rng self)) as Hw.
  rewrite E0 in Hb, Hw. simpl in Hb, Hw. l3_done.
  - apply wf_ok. auto with wfdb.
  - unfold ok. unfold u8 in Hu. rewrite len_cons, len_app, Hb, len_vec_repeat; lia.
Qed.

Lemma curve_from_wire_id_bound v cv : curve_from_wire_id v = Some cv -> v = 1 \/ v = 2.
Proof. unfold curve_from_wire_id. destruct (Z.eqb_spec v 1), (Z.eqb_spec v 2); naive_solver. Qed.

Lemma ecc_generate_ok : len c = 4 -> wp (ecc_generate self c) (cmd_post self).
Proof.
  pose proof (cok_dev _ Hself) as Hd. intros Hl. unfold ecc_generate.
  apply wp_checked with 31; [apply ecc_slot_checked; lia|].
  intros i Hi. do 4 (l3_step; cbv beta); try l3_done.
  assert (Hecc : forall k rg, key32 k ->
    (c0 = CP256 -> is_Some (p256_secret_from_slice k)) ->
    cmd_post self (with_dev (with_rng self rg)
      (set_ecc_slots (dev (with_rng self rg))
        (<[i := mkEccSlot c0 Generated k]> (ecc_slots (dev (with_rng self rg))))), code result.OK)).
  { intros k rg Hk Hp. apply (cmd_post_write (with_rng self rg));
      [by apply ctx_ok_with_rng| |done|by apply u8_result].
    apply device_ok_ecc; [done|]. apply map_Forall_insert_2; [|apply Hd]. by split. }
  destruct c0.
  - destruct (p256_random (ctx_rng self)) as [k rg]. apply Hecc.
    + split; [apply p256_to_bytes_len|apply p256_to_bytes_wf].
    + intros _. rewrite p256_from_to_bytes. by eexists.
  - destruct (fill_bytes 32 (ctx_rng self)) as [k rg] eqn:Ef. apply Hecc; [|done].
    split; [rewrite <- (fill_bytes_len 32 (ctx_rng self)) by lia|
      pose proof (fill_bytes_wf 32 (ctx_rng self))]; by rewrite Ef in *.
Qed.

Lemma ecc_store_ok : len c = 48 -> wp (ecc_store self c) (cmd_post self).
Proof.
  pose proof (cok_dev _ Hself) as Hd. intros Hl. unfold ecc_store.
  apply wp_checked with 31; [apply ecc_slot_checked; lia|].
  intros i Hi. l3_run; l3_done.
  apply device_ok_ecc; [done|]. apply map_Forall_insert_2; [|apply Hd].
  split; [lia|]. split; [split; [simpl; len_solve|simpl; auto with wfdb]|]. simpl. intros ->.
  rewrite bool_decide_true in E1 by done. simpl in E1. apply bool_decide_eq_false in E1.
  by apply not_eq_None_Some.
Qed.

Lemma public_key_ok e k :
  ecc_ok k e -> wp (public_key e) (fun o =>
    exists p, o = Some p /\ wf p /\ 32 <= len p <= 64).
Proof.
  intros (_ & [Hl Hw] & Hp). unfold public_key. destruct (ecc_curve e).
  - destruct (Hp eq_refl) as [s ->].
    destruct (p256_point_shape (p256_public_of s)) as (xy & -> & Hxy & Hwxy).
    assert (wf (4 :: xy)) by (auto with wfdb). l3_run. eexists. split; [done|].
    split; [auto with wfdb|len_solve].
  - rewrite Hl. simpl. eexists. split; [done|].
    pose proof (ed25519_vk_len (ecc_private_key e)). split; [apply ed25519_vk_wf|lia].
Qed.

Lemma ecc_read_ok : 3 <= len c -> wp (ecc_read self c) (cmd_post self).
Proof.
  pose proof (cok_dev _ Hself) as Hd. intros Hl. unfold ecc_read.
  apply wp_checked with 31; [apply ecc_slot_checked; lia|].
  intros i Hi. do 2 (l3_step; cbv beta); [|l3_done; fail].
  eapply wp_mono; [apply (public_key_ok e i), (dok_ecc _ Hd _ _ E)|].
  intros ? (p & -> & Hw & Hlen). l3_run. l3_done.
  - apply wf_ok. apply wf_app; [|auto with wfdb].
    apply wf_cons; [destruct (ecc_curve e); simpl; u_solve|].
    apply wf_cons; [destruct (ecc_origin e); simpl; u_solve|apply wf_nil].
  - unfold ok. len_solve.
Qed.

Lemma ecc_erase_ok : 3 <= len c -> wp (ecc_erase self c) (cmd_post self).
Proof.
  pose proof (cok_dev _ Hself) as Hd. intros Hl. unfold ecc_erase.
  apply wp_checked with 31; [apply ecc_slot_checked; lia|].
  intros i Hi. l3_run; l3_done.
  apply device_ok_ecc; [done|]. apply map_Forall_delete, Hd.
Qed.

Lemma ecdsa_sign_ok : len c = 48 -> wp (ecdsa_sign self c) (cmd_post self).
Proof.
  pose proof (cok_dev _ Hself) as Hd. intros Hl. unfold ecdsa_sign.
  apply wp_checked with 31; [apply ecc_slot_checked; lia|].
  intros i Hi. l3_run; try l3_done.
  - match goal with H : p256_sign_prehash_with_rng ?k ?r ?m = (Some ?s, _) |- _ =>
      destruct (p256_sign_rng_len k r m s) as [Hs Hw]; [by rewrite H|] end.
    apply wf_ok. auto with wfdb.
  - match goal with H : p256_sign_prehash_with_rng ?k ?r ?m = (Some ?s, _) |- _ =>
      destruct (p256_sign_rng_len k r m s) as [Hs Hw]; [by rewrite H|] end.
    unfold ok. len_solve.
Qed.

Lemma eddsa_sign_ok : 16 <= len c <= 4112 -> wp (eddsa_sign self c) (cmd_post self).
Proof.
  pose proof (cok_dev _ Hself) as Hd. intros Hl. unfold eddsa_sign.
  apply wp_checked with 31; [apply ecc_slot_checked; lia|].
  intros i Hi. l3_step; [l3_run; l3_done|]. l3_step; [|l3_run; l3_done].
  destruct (dok_ecc _ Hd _ _ E0) as (_ & [Hk _] & _).
  l3_step; [l3_run; l3_done|]. do 5 (l3_step; cbv beta).
  eapply wp_mono; [apply ed25519_sign_hedged_ok|]. intros [sig rg] [Hw Hs]. l3_run. l3_done.
  - apply wf_ok. auto with wfdb.
  - unfold ok. len_solve.
Qed.

Lemma mcounter_init_ok : len c = 8 -> wp (mcounter_init self c) (cmd_post self).
Proof.
  pose proof (cok_dev _ Hself) as Hd. intros Hl. unfold mcounter_init.
  apply wp_checked with 15; [apply mcounter_index_checked; lia|].
  intros i Hi. l3_run; l3_done.
  apply device_ok_mcounters; [done|]. apply map_Forall_insert_2; [|apply Hd].
  split; [lia|u_solve].
Qed.

Lemma mcounter_update_ok : 3 <= len c -> wp (mcounter_update self c) (cmd_post self).
Proof.
  pose proof (cok_dev _ Hself) as Hd. intros Hl. unfold mcounter_update.
  apply wp_checked with 15; [apply mcounter_index_checked; lia|].
  intros i Hi. l3_run; l3_done.
  destruct (dok_mcounters _ Hd _ _ E).
  apply device_ok_mcounters; [done|]. apply map_Forall_insert_2; [|apply Hd].
  split; lia.
Qed.

Lemma mcounter_get_ok : 3 <= len c -> wp (mcounter_get self c) (cmd_post self).
Proof.
  pose proof (cok_dev _ Hself) as Hd. intros Hl. unfold mcounter_get.
  apply wp_checked with 15; [apply mcounter_index_checked; lia|].
  intros i Hi. l3_run; l3_done; (apply wf_ok || unfold ok); auto 10 with wfdb; len_solve.
Qed.

Lemma kmac256_ok key parts : key32 (kmac256 key parts).
Proof. split; [by apply kmac_len|apply kmac_wf]. Qed.

Lemma mac_and_destroy_ok : len c = 36 -> wp (mac_and_destroy self c) (cmd_post self).
Proof.
  pose proof pkey_bound. pose proof (cok_dev _ Hself) as Hd.
  intros Hl. unfold mac_and_destroy, MACANDD_SLOT_MAX. l3_run; try l3_done.
  match goal with |- context [ok (_ ++ kmac256 ?k ?p)] => destruct (kmac256_ok k p) as [Ho Hw] end.
  split_and!; [|done..| | |].
  - apply ctx_ok_with_dev; [done| |done]. apply device_ok_macandd; [done|].
    apply map_Forall_insert_2; [|apply Hd]. split; [u_solve|apply kmac256_ok].
  - apply wf_ok. auto with wfdb.
  - unfold ok. len_solve.
  - unfold ok. len_solve.
Qed.

(** Sizes the dispatcher runs a command with. *)
Definition runs (id : Z) : bool :=
  size_ok (pers self) id (len c) || (id =? cmd_id.RANDOM_VALUE_GET) && (2 <=? len c).

Lemma run_command_ok id : runs id = true -> wp (run_command self id c) (cmd_post self).
Proof.
  unfold runs, run_command. intros Hs.
  repeat match goal with
  | |- wp (if ?i =? ?k then _ else _) _ =>
      let Hi := fresh "Hi" in
      destruct (Z.eqb_spec i k) as [Hi|?];
        [ subst i; repeat match goal with H : _ <> _ |- _ => clear H end;
          cbn in Hs; rewrite ?orb_false_r in Hs; try unfold within in Hs;
          try (apply andb_prop in Hs)
        | ]
  end.
  all: first
    [ apply ping_ok | apply pairing_key_write_ok | apply pairing_key_read_ok
    | apply pairing_key_invalidate_ok | apply r_config_write_ok | apply config_read_ok
    | apply r_config_erase_ok | apply i_config_write_ok | apply r_mem_write_ok
    | apply r_mem_read_ok | apply r_mem_erase_ok | apply random_ok | apply ecc_generate_ok
    | apply ecc_store_ok | apply ecc_read_ok | apply ecc_erase_ok | apply ecdsa_sign_ok
    | apply eddsa_sign_ok | apply mcounter_init_ok | apply mcounter_update_ok
    | apply mcounter_get_ok | apply mac_and_destroy_ok
    | (apply wp_ret, cmd_post_code; [done | by apply u8_result]) ].
  all: unfold PING_MAX, EDDSA_MSG_MAX in *; try lia.
Qed.
End commands.

(** ** The dispatcher *)

Definition outcome_ok (self self' : Ctx) (o : L3Outcome) : Prop :=
  match o with
  | Result_ r => wf r /\ 1 <= len r <= 4097
  | GenErr => self' = self
  end.

Lemma outcome_ok_code self self' c :
  one_of c [result.OK; result.FAIL; result.UNAUTHORIZED; result.INVALID_CMD;
    result.SLOT_NOT_EMPTY; result.INVALID_KEY; result.UPDATE_ERR; result.COUNTER_INVALID;
    result.SLOT_EMPTY; result.SLOT_INVALID] = true -> outcome_ok self self' (Result_ (code c)).
Proof. intros H%u8_result. split; [apply wf_cons; [done|apply wf_nil]|done]. Qed.

Lemma outcome_ok_zeros self self' n :
  1 <= n <= 4097 -> outcome_ok self self' (Result_ (vec_repeat 0 n)).
Proof. intros. split; [auto with wfdb|len_solve]. Qed.

(** Dispatching never panics on any plaintext, keeps the device invariant, and the
    plaintext result it produces has between 1 and 4097 bytes. *)
Theorem dispatch_safe self state plaintext :
  ctx_ok self -> wf plaintext ->
  wp (dispatch self state plaintext) (fun '(self', _, o) =>
    ctx_ok self' /\ (cfg self' = cfg self /\ pers self' = pers self /\ pkey self' = pkey self) /\
    outcome_ok self self' o).
Proof.
  intros Hself Hc. destruct plaintext as [|id c].
  { split_and!; [done..|by apply outcome_ok_code]. }
  unfold dispatch. set (p := id :: c) in *.
  assert (Hrun : runs self p id = true ->
    wp (let! '(self0, r) := run_command self id p in Ret (self0, mkL3State false, Result_ r))
      (fun '(self', _, o) => ctx_ok self' /\
        (cfg self' = cfg self /\ pers self' = pers self /\ pkey self' = pkey self) /\
        outcome_ok self self' o)).
  { intros Hr. apply wp_bind. eapply wp_mono; [by apply run_command_ok|].
    intros [self' r] (H1 & H2 & H3). by apply wp_ret. }
  destruct (known id); [|split_and!; [done..|by apply outcome_ok_code]]. cbn [negb].
  destruct (size_ok (pers self) id (len p)) eqn:Hs; cbn [negb].
  - destruct (spect_size_error state && negb (is_spect id)); [|apply Hrun; unfold runs; by rewrite Hs].
    split_and!; [done..|]. apply outcome_ok_zeros.
    destruct (Z.eqb_spec id cmd_id.PING) as [->|]; [|done].
    cbn in Hs; unfold within, PING_MAX in Hs; lia.
  - destruct (strict_l3_sizes _); [done|]. unfold es_lenient.
    destruct ((id =? cmd_id.RANDOM_VALUE_GET) && (2 <? len p)) eqn:E.
    + apply andb_prop in E as [Ei El].
      destruct (spect_size_error state && negb (is_spect id)).
      * apply Z.eqb_eq in Ei as ->. split_and!; [done..|]. by apply outcome_ok_zeros.
      * apply Hrun. unfold runs. rewrite Ei, orb_true_iff. right. apply Z.leb_le. lia.
    + destruct (one_of _ _); split_and!; try done; by apply outcome_ok_code.
Qed.
End facts.
