(* ===== verification/TropicL3Props.v ===== *)
(** * TROPIC01Sim: the behaviour of the L3 commands *)

From S2P Require Import Prelude.
From S2P Require Import Crates.
From S2P Require Import ToyCrates.
From S2P Require Import TropicTypes.
From S2P Require Import TropicL3.
From S2P Require Import TropicL3Facts.

Section props.
Context `{C : Crates}.

(** ** What a run may change *)

Ltac cmd_unfold :=
  unfold run_command, ping, pairing_key_write, pairing_key_read, pairing_key_invalidate,
    r_config_write, config_read, r_config_erase, i_config_write, r_mem_write, r_mem_read,
    r_mem_erase, random, ecc_generate, ecc_store, ecc_read, ecc_erase, ecdsa_sign, eddsa_sign,
    mcounter_init, mcounter_update, mcounter_get, mac_and_destroy.

(** Commands the dispatcher does not list as writing the store leave it alone. *)
Lemma run_command_frame self id c :
  mutates_store id = false ->
  wlp (run_command self id c) (fun '(self', _) => dev self' = dev self).
Proof.
  intros Hm. cmd_unfold. wlp_run; try done.
  all: match goal with H : (?i =? ?k) = true |- _ => apply Z.eqb_eq in H as ->; done end.
Qed.

(** The one-way order on devices: an I-Config bit is only ever cleared, a written
    pairing key is never replaced, an invalidated slot stays invalidated, and the
    identity of the chip does not change. *)
Definition i_config_le (ic ic' : list Z) : Prop :=
  Forall2 (fun old new => forall n, Z.testbit new n = true -> Z.testbit old n = true) ic ic'.
Definition pairing_le (s : PairingSlot) (o : option PairingSlot) : Prop :=
  exists s', o = Some s' /\ pairing_public_key s' = pairing_public_key s /\
    (pairing_state s = Invalidated -> pairing_state s' = Invalidated).
Record device_le (d d' : Device) : Prop := {
  dle_i_config : i_config_le (i_config d) (i_config d');
  dle_pairing : forall k s, pairing_slots d !! k = Some s -> pairing_le s (pairing_slots d' !! k);
  dle_identity : dev_chip_id d' = dev_chip_id d /\ st_priv d' = st_priv d /\ st_pub d' = st_pub d /\
    cert_store d' = cert_store d /\ personality d' = personality d /\
    macandd_key0 d' = macandd_key0 d /\ macandd_key1 d' = macandd_key1 d;
}.

#[export] Instance i_config_le_preorder : PreOrder i_config_le.
Proof.
  split.
  - intros l. unfold i_config_le. by apply Forall_Forall2_diag, Forall_true.
  - intros x y z H1 H2. unfold i_config_le in *.
    revert z H2. induction H1 as [|a b l k Hab _ IH]; intros z H2; [done|].
    inversion H2 as [|? e ? m Hbe Hr]; subst. constructor; [auto|by apply IH].
Qed.

#[export] Instance device_le_preorder : PreOrder device_le.
Proof.
  split.
  - intros d. split; [done| |done]. intros k s E. by exists s.
  - intros d1 d2 d3 H1 H2. split.
    + by transitivity (i_config d2); [apply H1|apply H2].
    + intros k s E. destruct (dle_pairing _ _ H1 _ _ E) as (s2 & E2 & K2 & I2).
      destruct (dle_pairing _ _ H2 _ _ E2) as (s3 & E3 & K3 & I3).
      exists s3. split; [done|]. split; [congruence|auto].
    + destruct (dle_identity _ _ H1), (dle_identity _ _ H2). destruct_and!; split_and!; congruence.
Qed.

Lemma device_le_same d d' :
  i_config d' = i_config d -> pairing_slots d' = pairing_slots d ->
  dev_chip_id d' = dev_chip_id d /\ st_priv d' = st_priv d /\ st_pub d' = st_pub d /\
    cert_store d' = cert_store d /\ personality d' = personality d /\
    macandd_key0 d' = macandd_key0 d /\ macandd_key1 d' = macandd_key1 d ->
  device_le d d'.
Proof. intros H1 H2 H3. split; [by rewrite H1| |done]. intros k s E. exists s. by rewrite H2. Qed.

Lemma device_le_pairing d k s :
  pairing_slots d !! k = None \/
    (exists s0, pairing_slots d !! k = Some s0 /\ pairing_public_key s = pairing_public_key s0 /\
      pairing_state s = Invalidated) ->
  device_le d (set_pairing_slots d (<[k := s]> (pairing_slots d))).
Proof.
  intros H. split; [done| |done]. intros k' s' E. simpl. unfold pairing_le.
  destruct (decide (k = k')) as [<-|]; [|rewrite lookup_insert_ne by done; by exists s'].
  rewrite lookup_insert_eq. destruct H as [H|(s0 & H & H1 & H2)]; [congruence|].
  exists s. simplify_eq. done.
Qed.

Lemma device_le_i_config d i old m :
  i_config d !! i = Some old ->
  device_le d (set_i_config d (<[i := Z.land old m]> (i_config d))).
Proof.
  intros E. split; [|intros k s Hs; by exists s|done]. simpl. unfold i_config_le.
  rewrite <- (list_insert_id (i_config d) i old) at 1 by done.
  apply Forall2_insert; [apply i_config_le_preorder|].
  intros n. rewrite Z.land_spec. by intros [? _]%andb_prop.
Qed.

Lemma run_command_le self id c :
  wlp (run_command self id c) (fun '(self', _) => device_le (dev self) (dev self')).
Proof.
  cmd_unfold. wlp_run; try reflexivity; try (by apply device_le_same).
  - apply device_le_pairing. left. by apply eq_None_not_Some; case_bool_decide.
  - apply device_le_pairing. right. eauto.
  - match goal with
    | H : idx (i_config _) _ = Ret ?old, H' : set_idx _ _ _ = Ret ?ic |- _ =>
        apply idx_inv in H as [_ H]; unfold set_idx in H'; case_bool_decide; [|done];
        injection H' as <-; by apply device_le_i_config
    end.
Qed.

Lemma dispatch_cases self state plaintext (Q : Ctx * L3State * L3Outcome -> Prop) :
  (forall state' o, Q (self, state', o)) ->
  (forall id c, plaintext = id :: c -> known id = true ->
    wlp (run_command self id plaintext) (fun '(self', r) => Q (self', mkL3State false, Result_ r))) ->
  wlp (dispatch self state plaintext) Q.
Proof.
  intros Hsame Hrun. unfold dispatch. destruct plaintext as [|id c]; [apply Hsame|].
  specialize (Hrun id c eq_refl). destruct (known id); [|apply Hsame]. cbn [negb].
  assert (H : wlp (let! '(self0, r) := run_command self id (id :: c) in
    Ret (self0, mkL3State false, Result_ r)) Q).
  { apply wlp_bind. eapply wlp_mono; [by apply Hrun|]. by intros [self' r]. }
  repeat case_match; try done; apply Hsame.
Qed.

Lemma dispatch_le self state plaintext :
  wlp (dispatch self state plaintext) (fun '(self', _, _) => device_le (dev self) (dev self')).
Proof.
  apply dispatch_cases; [reflexivity|]. intros id c _ _.
  eapply wlp_mono; [apply run_command_le|]. by intros [self' r].
Qed.

(** ** Sequences of commands *)

Fixpoint dispatch_all (self : Ctx) (state : L3State) (ps : list bytes) : res (Ctx * L3State) :=
  match ps with
  | [] => Ret (self, state)
  | p :: ps =>
      let! '(self, state, _) := dispatch self state p in
      dispatch_all self state ps
  end.

Context {COk : CratesOk C}.

(** C5: Whatever sequence of plaintexts a host sends: the firmware never panics, the
    device invariant holds afterwards, I-Config bits have only been cleared, pairing
    keys have not been replaced, invalidated slots are still invalidated, and the
    identity of the chip is the same. *)
Theorem dispatch_all_safe ps self state :
  ctx_ok self -> Forall wf ps ->
  wp (dispatch_all self state ps) (fun '(self', _) =>
    ctx_ok self' /\ device_le (dev self) (dev self')).
Proof.
  intros Hself Hps. revert self state Hself.
  induction Hps as [|p ps Hp _ IH]; intros self state Hself; [by split|].
  simpl. apply wp_bind. eapply wp_mono.
  - apply wp_wlp; [by apply dispatch_safe|apply dispatch_le].
  - intros [[self1 state1] o] [(H1 & _) Hle]. eapply wp_mono; [by apply IH|].
    intros [self2 state2] [H2 Hle2]. split; [done|by etransitivity].
Qed.

(** ** Privileges *)
















(** A well-formed request that no other rule intercepts. *)
Definition accepted (self : Ctx) (state : L3State) (p : bytes) : Prop :=
  match p with
  | [] => False
  | id :: _ => known id = true /\ size_ok (pers self) id (len p) = true /\
      spect_size_error state = false
  end.


Lemma dispatch_accepted self state p :
  accepted self state p ->
  dispatch self state p =
    (let! '(self', r) := run_command self (hd 0 p) p in Ret (self', mkL3State false, Result_ r)).
Proof.
  destruct p as [|id c]; [done|]. intros (Hk & Hs & Hf). unfold dispatch.
  rewrite Hk, Hs, Hf. done.
Qed.




(** Commands that the chip does not persist do not change the device, so that the
    store on disk always equals the device in memory. *)
Theorem unlisted_commands_pure self state p self' state' o :
  mutates_store (hd 0 p) = false ->
  dispatch self state p = Ret (self', state', o) -> dev self' = dev self.
Proof.
  intros Hm Hd.
  refine (wlp_inv _ (fun '(self', _, _) => dev self' = dev self) (self', state', o) _ Hd).
  apply dispatch_cases; [done|]. intros id c -> _.
  eapply wlp_mono; [by apply run_command_frame|]. by intros [self1 r].
Qed.
End props.

(** ** R-Memory, monotonic counters, MAC-and-Destroy, signatures

    What the data-carrying commands do, as sequences of dispatched requests. *)

(** A request with a slot field: [id][slot u16][rest]. *)
Definition slot_request (id slot : Z) (rest : bytes) : bytes := id :: le_bytes 2 slot ++ rest.

Section behaviour.
Context `{C : Crates} {COk : CratesOk C}.

Lemma slot_request_shape id slot rest :
  0 <= slot < 65536 -> exists a b, slot_request id slot rest = id :: a :: b :: rest /\
    le_val [a; b] = slot /\ u8 a /\ u8 b.
Proof.
  intros Hs. unfold slot_request.
  assert (Hn : exists a b, le_bytes 2 slot = [a; b]) by (do 2 eexists; reflexivity).
  destruct Hn as (a & b & E). exists a, b. rewrite E. split; [done|].
  rewrite <- E, le_val_le_bytes by (change (256 ^ Z.of_nat 2) with 65536; lia). split; [done|].
  pose proof (wf_le_bytes 2 slot) as Hw. rewrite E in Hw.
  apply wf_cons_inv in Hw as [? [? _]%wf_cons_inv]. done.
Qed.

Lemma u16_at_slot id slot rest :
  0 <= slot < 65536 -> u16_at (slot_request id slot rest) 1 = Ret slot.
Proof.
  intros Hs. destruct (slot_request_shape id slot rest Hs) as (a & b & -> & <- & _). done.
Qed.

Lemma len_slot_request id slot rest : len (slot_request id slot rest) = 3 + len rest.
Proof. unfold slot_request. rewrite len_cons, len_app, len_le_bytes. lia. Qed.

Lemma wf_slot_request id slot rest : u8 id -> wf rest -> wf (slot_request id slot rest).
Proof. intros. apply wf_cons; [done|]. apply wf_app; [apply wf_le_bytes|done]. Qed.

(** The privilege bit of the group of slots a slot number is in. *)
Definition slot_priv (self : Ctx) (reg div slot : Z) : bool :=
  uap_bit (cfg_reg self reg) (slot / div * 8) (pkey self).

Lemma slot_check_eq self id slot rest reg hi div :
  0 <= slot <= hi -> hi < 65536 -> 0 < div -> hi / div <= 3 -> 0 <= pkey self < 8 ->
  slot_priv self reg div slot = true ->
  (let! s := u16_at (slot_request id slot rest) 1 in
   if hi <? s then Ret (Err result.UNAUTHORIZED)
   else
     let! a := allowed self reg (s / div * 8) in
     if negb a then Ret (Err result.UNAUTHORIZED) else Ret (Ok s)) = Ret (Ok slot).
Proof.
  intros Hs Hhi Hdiv Hg Hk Hp. rewrite u16_at_slot by lia. cbn [rbind].
  rewrite (proj2 (Z.ltb_ge _ _)) by lia.
  assert (0 <= slot / div <= 3).
  { split; [apply Z.div_pos; lia|]. transitivity (hi / div); [apply Z.div_le_mono; lia|done]. }
  rewrite allowed_spec by lia. cbn [rbind]. unfold slot_priv in Hp. by rewrite Hp.
Qed.

Lemma slice_slot_request id slot rest n k :
  len rest = 1 + k -> n = 4 + k -> 0 <= k ->
  slice (slot_request id slot rest) 4 n = Ret (tail rest).
Proof.
  intros Hr -> Hk. rewrite slice_ret by (rewrite ?len_slot_request; lia). f_equal.
  unfold slot_request. destruct rest as [|x rest]; [rewrite len_nil in Hr; lia|].
  rewrite sub_cons, sub_app_r by (rewrite ?len_le_bytes; lia). rewrite len_le_bytes.
  rewrite sub_cons by lia. apply sub_full. rewrite len_cons in Hr. cbn [tail]. lia.
Qed.

(** The accepted size of a slot request. *)
Ltac size_side :=
  match goal with |- size_ok _ _ (len ?p) = true =>
    let l := fresh "l" in
    let El := fresh "El" in
    assert (El : len p = _) by apply len_slot_request;
    set (l := len p) in *; clearbody l; autorewrite with len in El;
    cbn -[r_mem_slot_max]; try unfold within, EDDSA_MSG_MAX; lia
  end.

(** ** R-Memory *)

Definition r_mem_write_req (slot : Z) (data : bytes) : bytes :=
  slot_request cmd_id.R_MEM_DATA_WRITE slot (0 :: data).
Definition r_mem_read_req (slot : Z) : bytes := slot_request cmd_id.R_MEM_DATA_READ slot [].
Definition r_mem_erase_req (slot : Z) : bytes := slot_request cmd_id.R_MEM_DATA_ERASE slot [].

Lemma dispatch_command self p id c :
  p = id :: c -> known id = true -> size_ok (pers self) id (len p) = true ->
  dispatch self L3State_default p =
    (let! '(self', r) := run_command self id p in Ret (self', L3State_default, Result_ r)).
Proof. intros -> Hk Hs. by apply dispatch_accepted. Qed.

Lemma r_mem_write_eq self slot data :
  0 <= slot <= 511 -> 0 <= pkey self < 8 -> 1 <= len data <= r_mem_slot_max (pers self) ->
  slot_priv self uap.R_MEM_DATA_WRITE 128 slot = true ->
  dispatch self L3State_default (r_mem_write_req slot data) =
    (if bool_decide (is_Some (r_mem_slots (dev self) !! slot))
     then Ret (self, L3State_default, Result_ [result.SLOT_NOT_EMPTY])
     else Ret (with_dev self (set_r_mem_slots (dev self) (<[slot := data]> (r_mem_slots (dev self)))),
               L3State_default, Result_ [result.OK])).
Proof.
  intros Hs Hk Hl Hp. pose proof (r_mem_slot_max_le (pers self)).
  erewrite dispatch_command; [|done|done|].
  2: { size_side. }
  change (run_command self ?j ?p) with (r_mem_write self (r_mem_write_req slot data)).
  unfold r_mem_write, r_mem_slot, R_MEM_SLOT_MAX, r_mem_write_req.
  rewrite slot_check_eq by (done || lia). cbn [rbind].
  rewrite (slice_slot_request _ _ _ _ (len data)) by (rewrite ?len_slot_request, ?len_cons; lia).
  cbn [rbind tail]. rewrite bool_decide_false by (intros ->; rewrite len_nil in Hl; lia).
  cbn [orb]. rewrite (proj2 (Z.ltb_ge _ _)) by lia. by case_bool_decide.
Qed.

Lemma r_mem_read_eq self slot :
  0 <= slot <= 511 -> 0 <= pkey self < 8 ->
  slot_priv self uap.R_MEM_DATA_READ 128 slot = true ->
  dispatch self L3State_default (r_mem_read_req slot) =
    Ret (self, L3State_default,
         Result_ (result.OK :: vec_repeat 0 3 ++ default [] (r_mem_slots (dev self) !! slot))).
Proof.
  intros Hs Hk Hp. erewrite dispatch_command; [|done|done|].
  2: { size_side. }
  change (run_command self ?j ?p) with (r_mem_read self (r_mem_read_req slot)).
  unfold r_mem_read, r_mem_slot, R_MEM_SLOT_MAX, r_mem_read_req.
  rewrite slot_check_eq by (done || lia). cbn [rbind]. by destruct (r_mem_slots (dev self) !! slot).
Qed.

Lemma r_mem_erase_eq self slot :
  0 <= slot <= 511 -> 0 <= pkey self < 8 ->
  slot_priv self uap.R_MEM_DATA_ERASE 128 slot = true ->
  dispatch self L3State_default (r_mem_erase_req slot) =
    Ret (with_dev self (set_r_mem_slots (dev self) (delete slot (r_mem_slots (dev self)))),
         L3State_default, Result_ [result.OK]).
Proof.
  intros Hs Hk Hp. erewrite dispatch_command; [|done|done|].
  2: { size_side. }
  change (run_command self ?j ?p) with (r_mem_erase self (r_mem_erase_req slot)).
  unfold r_mem_erase, r_mem_slot, R_MEM_SLOT_MAX, r_mem_erase_req.
  by rewrite slot_check_eq by (done || lia).
Qed.

(** R-Memory is write-once between erases: data written to an empty slot is read
    back byte for byte, a second write is refused and changes nothing, other slots
    are not affected, and after an erase the slot reads empty and can be written. *)
Theorem r_mem_lifecycle self slot data data2 :
  0 <= slot <= 511 -> 0 <= pkey self < 8 ->
  1 <= len data <= r_mem_slot_max (pers self) -> 1 <= len data2 <= r_mem_slot_max (pers self) ->
  slot_priv self uap.R_MEM_DATA_WRITE 128 slot = true ->
  slot_priv self uap.R_MEM_DATA_READ 128 slot = true ->
  slot_priv self uap.R_MEM_DATA_ERASE 128 slot = true ->
  r_mem_slots (dev self) !! slot = None ->
  exists self1 self2,
    dispatch self L3State_default (r_mem_write_req slot data) =
      Ret (self1, L3State_default, Result_ [result.OK]) /\
    dispatch self1 L3State_default (r_mem_read_req slot) =
      Ret (self1, L3State_default, Result_ (result.OK :: [0; 0; 0] ++ data)) /\
    dispatch self1 L3State_default (r_mem_write_req slot data2) =
      Ret (self1, L3State_default, Result_ [result.SLOT_NOT_EMPTY]) /\
    (forall k, k <> slot -> r_mem_slots (dev self1) !! k = r_mem_slots (dev self) !! k) /\
    dispatch self1 L3State_default (r_mem_erase_req slot) =
      Ret (self2, L3State_default, Result_ [result.OK]) /\
    dispatch self2 L3State_default (r_mem_read_req slot) =
      Ret (self2, L3State_default, Result_ (result.OK :: [0; 0; 0])) /\
    r_mem_slots (dev self2) = r_mem_slots (dev self).
Proof.
  intros Hs Hk Hl Hl2 Hw Hr He Hnone.
  set (self1 := with_dev self (set_r_mem_slots (dev self) (<[slot := data]> (r_mem_slots (dev self))))).
  assert (H1 : r_mem_slots (dev self1) !! slot = Some data) by apply lookup_insert_eq.
  exists self1, (with_dev self1 (set_r_mem_slots (dev self1) (delete slot (r_mem_slots (dev self1))))).
  split_and!.
  - rewrite r_mem_write_eq, Hnone by done. by rewrite bool_decide_false by (by intros [? ?]).
  - rewrite r_mem_read_eq by done. by rewrite H1.
  - rewrite r_mem_write_eq by done. by rewrite H1, bool_decide_true by (by eexists).
  - intros k Hne. apply lookup_insert_ne. congruence.
  - by rewrite r_mem_erase_eq.
  - rewrite r_mem_read_eq by done. cbn [dev with_dev r_mem_slots set_r_mem_slots].
    by rewrite lookup_delete_eq.
  - cbn. rewrite delete_insert_eq. by apply delete_id.
Qed.

(** ** Monotonic counters *)

Definition mcounter_update_req (i : Z) : bytes := slot_request cmd_id.MCOUNTER_UPDATE i [].
Definition mcounter_get_req (i : Z) : bytes := slot_request cmd_id.MCOUNTER_GET i [].

Lemma mcounter_update_eq self i :
  0 <= i <= 15 -> 0 <= pkey self < 8 -> slot_priv self uap.MCOUNTER_UPDATE 4 i = true ->
  dispatch self L3State_default (mcounter_update_req i) =
    (match mcounters (dev self) !! i with
     | None => Ret (self, L3State_default, Result_ [result.COUNTER_INVALID])
     | Some v =>
         if v =? 0 then Ret (self, L3State_default, Result_ [result.UPDATE_ERR])
         else Ret (with_dev self (set_mcounters (dev self) (<[i := v - 1]> (mcounters (dev self)))),
                   L3State_default, Result_ [result.OK])
     end).
Proof.
  intros Hs Hk Hp. erewrite dispatch_command; [|done|done|].
  2: { size_side. }
  change (run_command self ?j ?p) with (mcounter_update self (mcounter_update_req i)).
  unfold mcounter_update, mcounter_index, MCOUNTER_MAX, mcounter_update_req.
  rewrite slot_check_eq by (done || lia). cbn [rbind].
  destruct (mcounters (dev self) !! i) as [v|]; [|done]. by destruct (v =? 0).
Qed.

(** A counter counts down: after [n] updates, each answered OK, a counter that held
    [v >= n] holds [v - n], reads as such, and at zero refuses to be updated. *)
Theorem mcounter_countdown self i v (n : nat) :
  0 <= i <= 15 -> 0 <= pkey self < 8 -> slot_priv self uap.MCOUNTER_UPDATE 4 i = true ->
  slot_priv self uap.MCOUNTER_GET 4 i = true ->
  mcounters (dev self) !! i = Some v -> Z.of_nat n <= v ->
  exists self',
    dispatch_all self L3State_default (replicate n (mcounter_update_req i)) =
      Ret (self', L3State_default) /\
    mcounters (dev self') !! i = Some (v - Z.of_nat n) /\
    dispatch self' L3State_default (mcounter_get_req i) =
      Ret (self', L3State_default, Result_ (result.OK :: [0; 0; 0] ++ le_bytes 4 (v - Z.of_nat n))) /\
    (v = Z.of_nat n -> dispatch self' L3State_default (mcounter_update_req i) =
      Ret (self', L3State_default, Result_ [result.UPDATE_ERR])).
Proof.
  intros Hi Hk Hu Hg. revert self v Hk Hu Hg. induction n as [|n IH]; intros self v Hk Hu Hg Hv Hn.
  - exists self. rewrite Z.sub_0_r. split; [done|]. split; [done|]. split.
    + erewrite dispatch_command; [|done|done|].
      2: { size_side. }
      change (run_command self ?j ?p) with (mcounter_get self (mcounter_get_req i)).
      unfold mcounter_get, mcounter_index, MCOUNTER_MAX, mcounter_get_req.
      rewrite slot_check_eq by (done || lia). cbn [rbind]. by rewrite Hv.
    + intros ->. by rewrite mcounter_update_eq, Hv by done.
  - destruct (IH (with_dev self (set_mcounters (dev self) (<[i := v - 1]> (mcounters (dev self))))) (v - 1))
      as (self' & H1 & H2 & H3 & H4); [done..|apply lookup_insert_eq|lia|].
    exists self'. replace (v - Z.of_nat (S n)) with (v - 1 - Z.of_nat n) by lia.
    split; [|split; [done|split; [done|intros; apply H4; lia]]].
    cbn [replicate dispatch_all]. rewrite mcounter_update_eq, Hv by done.
    rewrite (proj2 (Z.eqb_neq _ _)) by lia. done.
Qed.

(** ** MAC-and-Destroy *)

Definition macd_req (slot : Z) (data : bytes) : bytes :=
  slot_request cmd_id.MAC_AND_DESTROY slot (0 :: data).

(** The value a slot holds after MAC-and-Destroy of [data]. *)
Definition macd_state (d : Device) (slot : Z) (data : bytes) : bytes :=
  kmac256 (macandd_key0 d) [data; [slot]].
Definition macd_output (d : Device) (slot : Z) (prev data : bytes) : bytes :=
  kmac256 (macandd_key1 d) [prev; macd_state d slot data; [slot]].

Lemma mac_and_destroy_eq self slot data :
  0 <= slot <= 127 -> 0 <= pkey self < 8 -> len data = 32 ->
  slot_priv self uap.MAC_AND_DESTROY 32 slot = true ->
  dispatch self L3State_default (macd_req slot data) =
    Ret (with_dev self (set_macandd_slots (dev self)
           (<[slot := macd_state (dev self) slot data]> (macandd_slots (dev self)))),
         L3State_default,
         Result_ (result.OK :: [0; 0; 0] ++ macd_output (dev self) slot
           (default (vec_repeat 0xff 32) (macandd_slots (dev self) !! slot)) data)).
Proof.
  intros Hs Hk Hl Hp. erewrite dispatch_command; [|done|done|].
  2: { size_side. }
  change (run_command self ?j ?p) with (mac_and_destroy self (macd_req slot data)).
  unfold mac_and_destroy, MACANDD_SLOT_MAX, macd_req. rewrite u16_at_slot by lia. cbn [rbind].
  rewrite (proj2 (Z.ltb_ge _ _)) by lia.
  assert (0 <= slot / 32 <= 3) by dlia. rewrite allowed_spec by lia. cbn [rbind].
  unfold slot_priv in Hp. rewrite Hp. cbn [negb].
  rewrite (slice_slot_request _ _ _ _ 32) by (rewrite ?len_cons; lia). cbn [rbind tail].
  assert (as_u8 slot = slot) as -> by (apply Z.mod_small; lia). done.
Qed.

(** MAC-and-Destroy destroys: whatever a slot held before, after the command on
    [data1] the slot's content is a function of [data1] alone, so the next output on
    [data2] is the same for any two devices with the same keys that took [data1]. *)
Theorem mac_and_destroy_forgets selfa selfb slot data1 data2 :
  0 <= slot <= 127 -> 0 <= pkey selfa < 8 -> 0 <= pkey selfb < 8 ->
  len data1 = 32 -> len data2 = 32 ->
  slot_priv selfa uap.MAC_AND_DESTROY 32 slot = true ->
  slot_priv selfb uap.MAC_AND_DESTROY 32 slot = true ->
  macandd_key0 (dev selfa) = macandd_key0 (dev selfb) ->
  macandd_key1 (dev selfa) = macandd_key1 (dev selfb) ->
  exists a1 b1 oa ob a2 b2 o,
    dispatch selfa L3State_default (macd_req slot data1) = Ret (a1, L3State_default, Result_ oa) /\
    dispatch selfb L3State_default (macd_req slot data1) = Ret (b1, L3State_default, Result_ ob) /\
    macandd_slots (dev a1) !! slot = macandd_slots (dev b1) !! slot /\
    dispatch a1 L3State_default (macd_req slot data2) = Ret (a2, L3State_default, Result_ o) /\
    dispatch b1 L3State_default (macd_req slot data2) = Ret (b2, L3State_default, Result_ o) /\
    o = result.OK :: [0; 0; 0] ++
        macd_output (dev selfa) slot (macd_state (dev selfa) slot data1) data2.
Proof.
  intros Hs Ha Hb Hl1 Hl2 Hpa Hpb E0 E1.
  assert (Hst : forall data, macd_state (dev selfb) slot data = macd_state (dev selfa) slot data).
  { intros data. unfold macd_state. by rewrite E0. }
  do 7 eexists. split; [by apply mac_and_destroy_eq|]. split; [by apply mac_and_destroy_eq|].
  cbn [dev with_dev macandd_slots set_macandd_slots]. split; [by rewrite !lookup_insert_eq, Hst|].
  split; [by rewrite mac_and_destroy_eq|]. rewrite mac_and_destroy_eq by done.
  cbn [dev with_dev macandd_slots set_macandd_slots]. rewrite !lookup_insert_eq. cbn [default].
  unfold macd_output. change (macd_state (set_macandd_slots ?d ?m) slot data2) with (macd_state d slot data2).
  rewrite !Hst. cbn [macandd_key1 set_macandd_slots]. by rewrite E1.
Qed.

(** ** EdDSA *)

Context {G : Ed25519Group}.

(** RFC 8032 verification, without the encoding checks: [sig] is [R || S] with
    [S B = R + H(R, A, M) A] for the point [A] that [pk] encodes. *)
Definition ed25519_verifies (pk msg sig : bytes) : Prop :=
  exists (rp a : point) (s : scalar),
    sig = compress rp ++ scalar_bytes s /\ pk = compress a /\
    mul_base s = point_add rp (point_mul (hedged_challenge (compress rp) pk msg) a).

Definition eddsa_req (slot : Z) (msg : bytes) : bytes :=
  slot_request cmd_id.EDDSA_SIGN slot (vec_repeat 0 13 ++ msg).
Definition ecc_read_req (slot : Z) : bytes := slot_request cmd_id.ECC_KEY_READ slot [].

(** EdDSA_Sign with an Ed25519 slot answers a signature of the message that verifies
    under the public key ECC_Key_Read returns for the slot, whatever the hedging
    randomness. *)
Theorem eddsa_signature_verifies self slot e msg :
  ctx_ok self -> 0 <= slot <= 31 -> 1 <= len msg <= 4096 -> wf msg ->
  slot_priv self uap.EDDSA_SIGN 8 slot = true -> slot_priv self uap.ECC_KEY_READ 8 slot = true ->
  ecc_slots (dev self) !! slot = Some e -> ecc_curve e = CEd25519 ->
  exists self' pk sig,
    dispatch self L3State_default (ecc_read_req slot) = Ret (self, L3State_default,
      Result_ (result.OK :: [2; origin_wire_id (ecc_origin e)] ++ vec_repeat 0 13 ++ pk)) /\
    dispatch self L3State_default (eddsa_req slot msg) = Ret (self', L3State_default,
      Result_ (result.OK :: vec_repeat 0 15 ++ sig)) /\
    dev self' = dev self /\ ed25519_verifies pk msg sig.
Proof.
  intros Hself Hs Hl Hw Hp1 Hp2 He Hcv. pose proof (cok_pkey _ Hself) as Hk.
  destruct (dok_ecc _ (cok_dev _ Hself) _ _ He) as (_ & [Hk32 _] & _).
  set (seed := ecc_private_key e) in *.
  destruct (fill_bytes 32 (ctx_rng self)) as [z r'] eqn:Ez.
  set (a := hedged_secret seed). set (nonce := hedged_nonce seed msg z).
  set (A := mul_base a). set (R := mul_base nonce).
  set (k := hedged_challenge (compress R) (compress A) msg).
  exists (with_rng self r'), (compress A), (compress R ++ scalar_bytes (scalar_add nonce (scalar_mul k a))).
  split_and!.
  - erewrite dispatch_command; [|done|done|].
    2: { size_side. }
    change (run_command self ?j ?p) with (ecc_read self (ecc_read_req slot)).
    unfold ecc_read, ecc_slot, ECC_SLOT_MAX, ecc_read_req.
    rewrite slot_check_eq by (done || lia). cbn [rbind]. rewrite He. unfold public_key.
    rewrite Hcv. fold seed. rewrite Hk32. cbn [rbind Z.eqb]. rewrite verifying_key_eq. done.
  - erewrite dispatch_command; [|done|done|].
    2: { size_side. }
    change (run_command self ?j ?p) with (eddsa_sign self (eddsa_req slot msg)).
    unfold eddsa_sign, ecc_slot, ECC_SLOT_MAX, eddsa_req.
    rewrite slot_check_eq by (done || lia). cbn [rbind].
    assert (Hreq : len (slot_request cmd_id.EDDSA_SIGN slot (vec_repeat 0 13 ++ msg)) = 16 + len msg).
    { rewrite len_slot_request, len_app, len_vec_repeat. lia. }
    rewrite Hreq, (proj2 (Z.eqb_neq _ 16)) by lia. cbn [andb]. rewrite He, Hcv.
    rewrite bool_decide_true by done. cbn [negb]. fold seed.
    unfold copy_from_slice. rewrite bool_decide_true by (rewrite Hk32; done). cbn [rbind].
    rewrite splice_full by (by rewrite Hk32). rewrite slice_ret by lia. cbn [rbind].
    assert (Hmsg : sub (slot_request cmd_id.EDDSA_SIGN slot (vec_repeat 0 13 ++ msg)) 16 (16 + len msg) = msg).
    { unfold slot_request. rewrite sub_cons, sub_app_r, sub_app_r
        by (rewrite ?len_vec_repeat, ?len_le_bytes; lia).
      rewrite len_le_bytes, len_vec_repeat. apply sub_full. lia. }
    rewrite Hmsg, ed25519_sign_hedged_spec, Ez. done.
  - done.
  - exists R, A, (scalar_add nonce (scalar_mul k a)). split; [done|]. split; [done|].
    by rewrite mul_base_add, mul_base_mul.
Qed.
End behaviour.
