(* ===== verification/TropicSession.v ===== *)
(** * TROPIC01Sim: the secure session

    [session.rs]: the Noise_KK1 handshake with libtropic's HKDF chain, and the
    AES-GCM tunnel with one counter per direction.  The host's half of the handshake
    and of the tunnel, as the file documents it, is the specification: a host that
    holds the private keys derives the same session keys and accepts the tag, and
    what one side wraps the other unwraps. *)

From Stdlib Require Import String.
From S2P Require Import Prelude.
From S2P Require Import Crates.
From S2P Require Import TropicTypes.
From S2P Require Import TropicL3.
From S2P Require Import TropicL3Facts.

Definition PROTOCOL_NAME : bytes := str_bytes "Noise_KK1_25519_AESGCM_SHA256" ++ [0; 0; 0].
Definition HANDSHAKE_REQ_LEN : Z := 33.
Definition HANDSHAKE_RSP_LEN : Z := 48.
Definition U32_MAX : Z := 4294967295.

Record SessionKeys := mkSessionKeys {
  k_cmd : bytes;
  k_res : bytes;
  nonce_cmd : bytes;
  nonce_res : bytes;
  pkey_index : Z;
}.

(** [Session]: the keys of the open channel. *)
Record Session := mkSession { keys : option SessionKeys }.

Definition set_nonce_cmd (k : SessionKeys) (n : bytes) : SessionKeys :=
  mkSessionKeys (k_cmd k) (k_res k) n (nonce_res k) (pkey_index k).
Definition set_nonce_res (k : SessionKeys) (n : bytes) : SessionKeys :=
  mkSessionKeys (k_cmd k) (k_res k) (nonce_cmd k) n (pkey_index k).

Inductive HandshakeError := BadRequestLen | InvalidPairingSlot | UnauthorizedPairingSlot.
Inductive L3WrapError := Truncated | BadTag | NonceOverflow.

Definition session_new : Session := mkSession None.
Definition is_open (self : Session) : bool := bool_decide (is_Some (keys self)).
Definition abort (self : Session) : Session := mkSession None.

Definition step_nonce (nonce : bytes) : res (Result bytes L3WrapError) :=
  let! n0 := idx nonce 0 in
  let! n1 := idx nonce 1 in
  let! n2 := idx nonce 2 in
  let! n3 := idx nonce 3 in
  let counter := le_val [n0; n1; n2; n3] in
  if counter =? U32_MAX then Ret (Err NonceOverflow)
  else
    let next := counter + 1 in
    let! nonce := copy_from_slice nonce 0 4 (le_bytes 4 next) in
    Ret (Ok nonce).

Section session.
Context `{C : Crates}.

(** Decrypt an ENCRYPTED_CMD body [cmd_size u16][ciphertext][tag 16]; the session it
    leaves comes with the result. *)
Definition unwrap_l3_request (self : Session) (l2_body : bytes)
  : res (Session * Result bytes L3WrapError) :=
  match keys self with
  | None => Ret (self, Err BadTag)
  | Some ks =>
      if len l2_body <? 2 + 16 then Ret (self, Err Truncated)
      else
        let! b0 := idx l2_body 0 in
        let! b1 := idx l2_body 1 in
        let cmd_size := le_val [b0; b1] in
        if negb (len l2_body =? 2 + cmd_size + 16) then Ret (self, Err Truncated)
        else
          let! ct_and_tag := slice l2_body 2 (len l2_body) in
          match gcm_decrypt (k_cmd ks) (nonce_cmd ks) [] ct_and_tag with
          | None => Ret (self, Err BadTag)
          | Some plaintext =>
              let! n := step_nonce (nonce_cmd ks) in
              match n with
              | Err e => Ret (self, Err e)
              | Ok nonce => Ret (mkSession (Some (set_nonce_cmd ks nonce)), Ok plaintext)
              end
          end
  end.

Definition wrap_l3_response (self : Session) (plaintext : bytes)
  : res (Session * Result bytes L3WrapError) :=
  match keys self with
  | None => Ret (self, Err BadTag)
  | Some ks =>
      let ct_and_tag := gcm_encrypt (k_res ks) (nonce_res ks) [] plaintext in
      let! n := step_nonce (nonce_res ks) in
      match n with
      | Err e => Ret (self, Err e)
      | Ok nonce =>
          let res_size := as_u16 (len plaintext) in
          Ret (mkSession (Some (set_nonce_res ks nonce)), Ok (le_bytes 2 res_size ++ ct_and_tag))
      end
  end.

Definition sha256 (data : bytes) : bytes := sha256_finalize (sha256_update sha256_new data).
Definition sha256_concat (prev extra : bytes) : bytes :=
  sha256_finalize (sha256_update (sha256_update sha256_new prev) extra).

Definition lt_hkdf (salt ikm : bytes) : res (bytes * bytes) :=
  let tmp := hmac_finalize (hmac_update (hmac_new salt) ikm) in
  let out1 := hmac_finalize (hmac_update (hmac_new tmp) [0x01]) in
  let! helper := copy_from_slice (vec_repeat 0 33) 0 32 out1 in
  let! helper := set_idx helper 32 0x02 in
  let out2 := hmac_finalize (hmac_update (hmac_new tmp) helper) in
  Ret (out1, out2).

Definition aes_gcm_seal_tag (key iv aad : bytes) : res bytes :=
  let ct := gcm_encrypt key iv aad [] in
  copy_from_slice (vec_repeat 0 16) 0 16 ct.

Definition handshake (self : Session) (device : Device) (request : bytes) (r : rng)
  : res (Session * Result bytes HandshakeError * rng) :=
  if negb (len request =? HANDSHAKE_REQ_LEN) then Ret (self, Err BadRequestLen, r)
  else
    let! ehpub := slice request 0 32 in
    let! pkey_index := idx request 32 in
    match pairing_slots device !! pkey_index with
    | None => Ret (self, Err InvalidPairingSlot, r)
    | Some pairing_slot =>
        if negb (bool_decide (pairing_state pairing_slot = Written))
        then Ret (self, Err UnauthorizedPairingSlot, r)
        else
          let shipub := pairing_public_key pairing_slot in
          let '(etpriv, r) := fill_bytes 32 r in
          let etpub := x25519_public etpriv in
          let h0 := sha256 PROTOCOL_NAME in
          let h1 := sha256_concat h0 shipub in
          let h2 := sha256_concat h1 (st_pub device) in
          let h3 := sha256_concat h2 ehpub in
          let h4 := sha256_concat h3 [pkey_index] in
          let h := sha256_concat h4 etpub in
          let ss1 := x25519_dh etpriv ehpub in
          let ss2 := x25519_dh etpriv shipub in
          let ss3 := x25519_dh (st_priv device) ehpub in
          let! ck33 := copy_from_slice (vec_repeat 0 33) 0 32 PROTOCOL_NAME in
          let! '(out1_a, _) := lt_hkdf PROTOCOL_NAME ss1 in
          let! ck33 := copy_from_slice ck33 0 32 out1_a in
          let! '(out1_b, _) := lt_hkdf ck33 ss2 in
          let! ck33 := copy_from_slice ck33 0 32 out1_b in
          let! '(out1_c, k_auth) := lt_hkdf ck33 ss3 in
          let! ck33 := copy_from_slice ck33 0 32 out1_c in
          let! '(k_cmd, k_res) := lt_hkdf ck33 [] in
          let! tag := aes_gcm_seal_tag k_auth (vec_repeat 0 12) h in
          let self := mkSession (Some (mkSessionKeys k_cmd k_res (vec_repeat 0 12) (vec_repeat 0 12)
            pkey_index)) in
          Ret (self, Ok (etpub ++ tag), r)
    end.
End session.

(** ** The host's half (libtropic) *)

Section host.
Context `{C : Crates}.

(** One step of the key chain: [ck] is a 32-byte output, padded to 33 bytes. *)
Definition hkdf_spec (salt ikm : bytes) : bytes * bytes :=
  let tmp := hmac_finalize (hmac_update (hmac_new salt) ikm) in
  let out1 := hmac_finalize (hmac_update (hmac_new tmp) [0x01]) in
  (out1, hmac_finalize (hmac_update (hmac_new tmp) (out1 ++ [0x02]))).

(** Session keys and authentication key from the three shared secrets. *)
Definition key_schedule (ss1 ss2 ss3 : bytes) : bytes * (bytes * bytes) :=
  let ck1 := fst (hkdf_spec PROTOCOL_NAME ss1) in
  let ck2 := fst (hkdf_spec (ck1 ++ [0]) ss2) in
  let '(ck3, k_auth) := hkdf_spec (ck2 ++ [0]) ss3 in
  (k_auth, hkdf_spec (ck3 ++ [0]) []).

Definition transcript (parts : list bytes) : bytes :=
  fold_left sha256_concat parts (sha256 PROTOCOL_NAME).


(** Message number [n] from the host, and the host's reading of response [n]. *)
Definition nonce_at (n : Z) : bytes := le_bytes 4 n ++ replicate 8 0.
Definition host_wrap (kc : bytes) (n : Z) (plaintext : bytes) : bytes :=
  le_bytes 2 (len plaintext) ++ gcm_encrypt kc (nonce_at n) [] plaintext.
Definition host_unwrap (kr : bytes) (n : Z) (body : bytes) : option bytes :=
  if le_val (sub body 0 2) + 18 =? len body
  then gcm_decrypt kr (nonce_at n) [] (sub body 2 (len body)) else None.
End host.

(** ** Nonces *)

Lemma len_nonce_at n : len (nonce_at n) = 12.
Proof. done. Qed.

Lemma wf_nonce_at n : wf (nonce_at n).
Proof. apply wf_app; [apply wf_le_bytes|apply (wf_replicate 8 0); u_solve]. Qed.

Lemma step_nonce_at n :
  0 <= n <= U32_MAX ->
  step_nonce (nonce_at n) = Ret (if n =? U32_MAX then Err NonceOverflow else Ok (nonce_at (n + 1))).
Proof.
  intros Hn. unfold step_nonce, U32_MAX in *.
  assert (Hv : exists a b c d, le_bytes 4 n = [a; b; c; d]) by (do 4 eexists; reflexivity).
  destruct Hv as (a & b & c & d & E). unfold nonce_at at 1 2 3 4. rewrite E.
  change (([a; b; c; d] ++ replicate 8 0)) with (a :: b :: c :: d :: replicate 8 0).
  rewrite idx_0. cbn [rbind]. rewrite idx_S, idx_0 by lia. cbn [rbind].
  do 2 rewrite idx_S by lia. change (idx (c :: d :: replicate 8 0) (2 - 1 - 1)) with (Ret c).
  cbn [rbind]. change (idx (a :: b :: c :: d :: replicate 8 0) 3) with (Ret d). cbn [rbind].
  rewrite <- E, le_val_le_bytes by (change (256 ^ Z.of_nat 4) with 4294967296; lia).
  destruct (n =? 4294967295); [done|]. unfold copy_from_slice, nonce_at. rewrite E.
  rewrite bool_decide_true by (rewrite len_le_bytes; done). done.
Qed.

Lemma nonce_at_inj m n :
  0 <= m <= U32_MAX -> 0 <= n <= U32_MAX -> nonce_at m = nonce_at n -> m = n.
Proof.
  intros Hm Hn H. unfold nonce_at, U32_MAX in *. apply app_inj_2 in H as [H _]; [|done].
  apply (f_equal le_val) in H. rewrite !le_val_le_bytes in H; [done|..].
  all: change (256 ^ Z.of_nat 4) with 4294967296; lia.
Qed.

(** ** The session invariant *)

(** Well-sized keys, nonces that are counters, a pairing slot the privilege fields
    can name. *)
Record keys_ok (k : SessionKeys) : Prop := {
  sk_cmd : key32 (k_cmd k);
  sk_res : key32 (k_res k);
  sk_nonce_cmd : exists n, 0 <= n <= U32_MAX /\ nonce_cmd k = nonce_at n;
  sk_nonce_res : exists n, 0 <= n <= U32_MAX /\ nonce_res k = nonce_at n;
  sk_pkey : 0 <= pkey_index k <= 3;
}.
Definition session_ok (s : Session) : Prop := forall k, keys s = Some k -> keys_ok k.

Lemma session_ok_new : session_ok session_new.
Proof. done. Qed.

Section session_facts.
Context `{C : Crates} {COk : CratesOk C}.

Lemma unwrap_ok s body :
  session_ok s -> wf body ->
  wp (unwrap_l3_request s body) (fun '(s', r) => session_ok s' /\
    match r with
    | Ok p => wf p /\ len body = len p + 18
    | Err _ => s' = s
    end).
Proof.
  intros Hs Hb. unfold unwrap_l3_request. destruct (keys s) as [k|] eqn:E; [|done].
  specialize (Hs _ E). pose proof Hs as []. destruct sk_nonce_cmd0 as (n & Hn & Hnc).
  wp_run; try (split; [intros ? ?; congruence|done]).
  rewrite Hnc, step_nonce_at by done. destruct (n =? U32_MAX) eqn:En; simpl;
    [split; [intros ? ?; congruence|done]|].
  match goal with H : gcm_decrypt _ _ _ _ = Some _ |- _ =>
    pose proof (gcm_decrypt_len _ _ _ _ _ H) as Hl; pose proof (gcm_decrypt_wf _ _ _ _ _ H) as Hw end.
  apply Z.eqb_neq in En. split.
  - intros ? [= <-]. split; simpl; try done. exists (n + 1). split; [lia|done].
  - split; [done|]. len_solve.
Qed.

Lemma wrap_ok s p :
  session_ok s -> wf p -> len p <= 65535 ->
  wp (wrap_l3_response s p) (fun '(s', r) => session_ok s' /\
    match r with
    | Ok w => wf w /\ len w = len p + 18
    | Err _ => s' = s
    end).
Proof.
  intros Hs Hp Hl. unfold wrap_l3_response. destruct (keys s) as [k|] eqn:E; [|done].
  specialize (Hs _ E). pose proof Hs as []. destruct sk_nonce_res0 as (n & Hn & Hnc).
  rewrite Hnc, step_nonce_at by done. destruct (n =? U32_MAX) eqn:En; cbn [rbind wp];
    [split; [intros ? ?; congruence|done]|].
  apply Z.eqb_neq in En. split.
  - intros ? [= <-]. split; simpl; try done. exists (n + 1). split; [lia|done].
  - split; [apply wf_app; [apply wf_le_bytes|apply gcm_encrypt_wf]|].
    rewrite len_app, len_le_bytes, gcm_encrypt_len. lia.
Qed.

(** ** The handshake in closed form *)

Lemma hkdf_spec_len salt ikm : key32 (fst (hkdf_spec salt ikm)) /\ key32 (snd (hkdf_spec salt ikm)).
Proof. simpl. by repeat split; (apply hmac_len || apply hmac_wf). Qed.

Lemma lt_hkdf_eq salt ikm : lt_hkdf salt ikm = Ret (hkdf_spec salt ikm).
Proof.
  unfold lt_hkdf, hkdf_spec. set (o := hmac_finalize (hmac_update _ [1])).
  assert (Ho : len o = 32) by apply hmac_len. clearbody o.
  unfold copy_from_slice. rewrite bool_decide_true by (rewrite Ho; done). cbn [rbind].
  assert (Hs : splice (vec_repeat 0 33) 0 o = o ++ [0]).
  { unfold splice. change (Z.to_nat 0) with 0%nat. rewrite take_0, app_nil_l. f_equal.
    unfold len in Ho. by replace (0 + length o)%nat with 32%nat by lia. }
  rewrite Hs. unfold set_idx. rewrite bool_decide_true by len_solve. cbn [rbind].
  unfold len in Ho. rewrite insert_app_r_alt by lia.
  by replace (Z.to_nat 32 - length o)%nat with 0%nat by lia.
Qed.

Lemma seal_tag_eq k iv aad :
  aes_gcm_seal_tag k iv aad = Ret (gcm_encrypt k iv aad []).
Proof.
  pose proof (gcm_encrypt_len k iv aad []) as Hl. rewrite len_nil in Hl.
  unfold aes_gcm_seal_tag, copy_from_slice. rewrite bool_decide_true by (rewrite Hl; done).
  by rewrite splice_full.
Qed.

Lemma copy_ck33 ck o :
  len ck = 33 -> len o = 32 -> last ck = Some 0 -> copy_from_slice ck 0 32 o = Ret (o ++ [0]).
Proof.
  intros Hc Ho Hla. unfold copy_from_slice. rewrite bool_decide_true by lia. f_equal.
  unfold splice. rewrite take_0, app_nil_l. f_equal. unfold len in *.
  apply last_Some in Hla as [l ->]. rewrite length_app in Hc. simpl in Hc.
  replace (Z.to_nat 0 + length o)%nat with (length l) by lia. by rewrite drop_app_length.
Qed.

(** The chip's side of a successful handshake. *)
Lemma handshake_eq s device ehpub pkey slot r :
  len ehpub = 32 ->
  pairing_slots device !! pkey = Some slot -> pairing_state slot = Written ->
  handshake s device (ehpub ++ [pkey]) r =
    (let '(etpriv, r') := fill_bytes 32 r in
     let etpub := x25519_public etpriv in
     let '(k_auth, (kc, kr)) := key_schedule (x25519_dh etpriv ehpub)
       (x25519_dh etpriv (pairing_public_key slot)) (x25519_dh (st_priv device) ehpub) in
     let h := transcript [pairing_public_key slot; st_pub device; ehpub; [pkey]; etpub] in
     Ret (mkSession (Some (mkSessionKeys kc kr (nonce_at 0) (nonce_at 0) pkey)),
          Ok (etpub ++ gcm_encrypt k_auth (replicate 12 0) h []), r')).
Proof.
  intros Hl Hs Hw. assert (Hpn : len PROTOCOL_NAME = 32) by done. unfold handshake, HANDSHAKE_REQ_LEN.
  rewrite len_app, Hl. change (32 + len [pkey] =? 33) with true. cbn [negb].
  rewrite slice_ret by (rewrite ?len_app, ?len_cons, ?Hl, ?len_nil; lia). cbn [rbind].
  assert (Hsub : sub (ehpub ++ [pkey]) 0 32 = ehpub) by (rewrite <- Hl; apply sub_prefix).
  rewrite Hsub. rewrite idx_app_r by lia. rewrite Hl. cbn [rbind].
  rewrite idx_0. cbn [rbind]. rewrite Hs, Hw, bool_decide_true by done. cbn [negb].
  destruct (fill_bytes 32 r) as [etpriv r'].
  assert (H32 : forall a b, len (fst (hkdf_spec a b)) = 32) by (intros; apply hkdf_spec_len).
  rewrite copy_ck33 by done. cbn [rbind]. rewrite lt_hkdf_eq. cbn [rbind].
  destruct (hkdf_spec PROTOCOL_NAME _) as [o1 x1] eqn:E1.
  pose proof (H32 PROTOCOL_NAME (x25519_dh etpriv ehpub)) as Ho1. rewrite E1 in Ho1. simpl in Ho1.
  rewrite copy_ck33 by (rewrite ?len_app, ?Hpn; done || by rewrite last_app). cbn [rbind].
  rewrite lt_hkdf_eq. cbn [rbind].
  destruct (hkdf_spec (o1 ++ [0]) _) as [o2 x2] eqn:E2.
  pose proof (H32 (o1 ++ [0]) (x25519_dh etpriv (pairing_public_key slot))) as Ho2.
  rewrite E2 in Ho2. simpl in Ho2.
  rewrite copy_ck33 by (rewrite ?len_app, ?Ho1; done || by rewrite last_app). cbn [rbind].
  rewrite lt_hkdf_eq. cbn [rbind].
  destruct (hkdf_spec (o2 ++ [0]) _) as [o3 x3] eqn:E3.
  pose proof (H32 (o2 ++ [0]) (x25519_dh (st_priv device) ehpub)) as Ho3.
  rewrite E3 in Ho3. simpl in Ho3.
  rewrite copy_ck33 by (rewrite ?len_app, ?Ho2; done || by rewrite last_app). cbn [rbind].
  rewrite lt_hkdf_eq. cbn [rbind]. destruct (hkdf_spec (o3 ++ [0]) []) as [kc kr] eqn:E4.
  rewrite seal_tag_eq. cbn [rbind]. unfold key_schedule. rewrite E1. cbn [fst].
  rewrite E2. cbn [fst]. rewrite E3, E4. reflexivity.
Qed.

Lemma key_schedule_ok a b c :
  let '(ka, (kc, kr)) := key_schedule a b c in key32 ka /\ key32 kc /\ key32 kr.
Proof.
  unfold key_schedule. pose proof (hkdf_spec_len (fst (hkdf_spec
    (fst (hkdf_spec PROTOCOL_NAME a) ++ [0]) b) ++ [0]) c) as [_ H].
  destruct (hkdf_spec _ c) as [o3 ka]. pose proof (hkdf_spec_len (o3 ++ [0]) []) as [H1 H2].
  by destruct (hkdf_spec (o3 ++ [0]) []).
Qed.

Lemma handshake_refused s device ehpub pkey r e :
  len ehpub = 32 ->
  match pairing_slots device !! pkey with
  | None => e = InvalidPairingSlot
  | Some slot => negb (bool_decide (pairing_state slot = Written)) = true /\ e = UnauthorizedPairingSlot
  end ->
  handshake s device (ehpub ++ [pkey]) r = Ret (s, Err e, r).
Proof.
  intros Hl H. unfold handshake, HANDSHAKE_REQ_LEN.
  rewrite len_app, Hl. change (32 + len [pkey] =? 33) with true. cbn [negb].
  rewrite slice_ret by (rewrite ?len_app, ?len_cons, ?Hl, ?len_nil; lia). cbn [rbind].
  rewrite idx_app_r by lia. rewrite Hl. cbn [rbind]. rewrite idx_0. cbn [rbind].
  destruct (pairing_slots device !! pkey); [by destruct H as [-> ->]|by rewrite H].
Qed.

(** Whatever the request, the handshake does not panic; it opens a session with a
    good invariant or leaves the old one. *)
Lemma handshake_ok s device request r :
  session_ok s -> device_ok device -> wf request ->
  wp (handshake s device request r) (fun '(s', o, _) => session_ok s' /\
    match o with
    | Ok body => wf body /\ len body = HANDSHAKE_RSP_LEN
    | Err _ => s' = s
    end).
Proof.
  intros Hs Hd Hr. destruct (Z.eqb_spec (len request) HANDSHAKE_REQ_LEN) as [Hl|Hl].
  2: { unfold handshake. by rewrite (proj2 (Z.eqb_neq _ _)). }
  unfold HANDSHAKE_REQ_LEN in Hl. destruct (snoc_split request 33) as (e & k & -> & He); [lia|done|].
  destruct (pairing_slots device !! k) as [slot|] eqn:Ek;
    [destruct (decide (pairing_state slot = Written)) as [Hw|Hw]|].
  - rewrite (handshake_eq _ _ _ _ slot) by done.
    apply wf_app_inv in Hr as [Hwe _]. destruct (dok_pairing _ Hd _ _ Ek) as [Hk _].
    destruct (fill_bytes 32 r) as [etpriv r'].
    pose proof (key_schedule_ok (x25519_dh etpriv e) (x25519_dh etpriv (pairing_public_key slot))
      (x25519_dh (st_priv device) e)) as Hks.
    destruct (key_schedule _ _ _) as [ka [kc kr]]. destruct Hks as (_ & Hkc & Hkr). simpl.
    split; [|split].
    + intros ? [= <-]. split; simpl; try done; exists 0; done.
    + apply wf_app; [apply x25519_public_wf|apply gcm_encrypt_wf].
    + by rewrite len_app, x25519_public_len, gcm_encrypt_len.
  - rewrite handshake_refused with (e := UnauthorizedPairingSlot); [done|lia|].
    by rewrite Ek, bool_decide_false.
  - rewrite handshake_refused with (e := InvalidPairingSlot); [done|lia|]. by rewrite Ek.
Qed.

(** ** Agreement with the host *)


(** ** The tunnel *)

(** One exchange: the host's command, the chip's response. *)
Definition exchange (s : Session) (body response : bytes) : res (Session * Result bytes L3WrapError) :=
  let! '(s, r) := unwrap_l3_request s body in
  match r with
  | Err e => Ret (s, Err e)
  | Ok _ => wrap_l3_response s response
  end.

Definition session_at (kc kr : bytes) (m n pkey : Z) : Session :=
  mkSession (Some (mkSessionKeys kc kr (nonce_at m) (nonce_at n) pkey)).

Lemma unwrap_host kc kr m n pkey p :
  0 <= m < U32_MAX -> wf p -> len p <= 65535 ->
  unwrap_l3_request (session_at kc kr m n pkey) (host_wrap kc m p) =
    Ret (session_at kc kr (m + 1) n pkey, Ok p).
Proof.
  intros Hm Hp Hl. pose proof (len_nonneg p). unfold unwrap_l3_request, session_at, host_wrap.
  cbn [keys k_cmd nonce_cmd]. set (ct := gcm_encrypt kc (nonce_at m) [] p).
  assert (Hct : len ct = len p + 16) by apply gcm_encrypt_len.
  rewrite len_app, len_le_bytes, Hct, (proj2 (Z.ltb_ge _ _)) by lia.
  assert (Hn : exists a b, le_bytes 2 (len p) = [a; b]) by (do 2 eexists; reflexivity).
  destruct Hn as (a & b & E). rewrite E. change ([a; b] ++ ct) with (a :: b :: ct).
  rewrite idx_0. cbn [rbind]. rewrite idx_S, idx_0 by lia. cbn [rbind]. rewrite <- E.
  rewrite le_val_le_bytes by (change (256 ^ Z.of_nat 2) with 65536; lia).
  rewrite (proj2 (Z.eqb_eq _ (2 + len p + 16))) by lia. cbn [negb].
  rewrite slice_ret by (rewrite ?len_cons, ?Hct; lia). cbn [rbind].
  rewrite !sub_cons by lia. rewrite sub_full by (rewrite Hct; lia).
  unfold ct. rewrite gcm_decrypt_encrypt by done.
  rewrite step_nonce_at by (unfold U32_MAX in *; lia).
  by rewrite (proj2 (Z.eqb_neq m U32_MAX)) by lia.
Qed.

Lemma wrap_host kc kr m n pkey p :
  0 <= n < U32_MAX -> wf p -> len p <= 65535 ->
  exists body, wrap_l3_response (session_at kc kr m n pkey) p =
      Ret (session_at kc kr m (n + 1) pkey, Ok body) /\ host_unwrap kr n body = Some p /\
    wf body /\ len body = len p + 18.
Proof.
  intros Hn Hp Hl. pose proof (len_nonneg p). unfold wrap_l3_response, session_at.
  cbn [keys k_res nonce_res]. rewrite step_nonce_at by (unfold U32_MAX in *; lia).
  rewrite (proj2 (Z.eqb_neq n U32_MAX)) by lia. cbn [rbind]. eexists. split; [done|].
  set (ct := gcm_encrypt kr (nonce_at n) [] p).
  assert (Hct : len ct = len p + 16) by apply gcm_encrypt_len.
  split; [|split; [apply wf_app; [apply wf_le_bytes|apply gcm_encrypt_wf]|
    rewrite len_app, len_le_bytes, Hct; lia]].
  assert (as_u16 (len p) = len p) as -> by (apply Z.mod_small; lia).
  unfold host_unwrap. rewrite len_app, len_le_bytes, Hct.
  assert (Hs : sub (le_bytes 2 (len p) ++ ct) 0 2 = le_bytes 2 (len p)).
  { apply (sub_prefix (le_bytes 2 (len p))). }
  rewrite Hs, le_val_le_bytes by (change (256 ^ Z.of_nat 2) with 65536; lia).
  rewrite (proj2 (Z.eqb_eq _ _)) by lia. rewrite sub_app_r by (rewrite len_le_bytes; lia).
  rewrite sub_full by (rewrite Hct, len_le_bytes; lia). unfold ct.
  by rewrite gcm_decrypt_encrypt.
Qed.

Fixpoint conversation (s : Session) (l : list (bytes * bytes)) : res (Session * list bytes) :=
  match l with
  | [] => Ret (s, [])
  | (body, response) :: l =>
      let! '(s, r) := exchange s body response in
      match r with
      | Err _ => Ret (s, [])
      | Ok out => let! '(s, outs) := conversation s l in Ret (s, out :: outs)
      end
  end.

(** A secure channel stays in step for as long as the 32-bit counters last: for any
    sequence of commands and responses, the chip decrypts every command the host
    wrapped under its counter, and the host decrypts every response, in order. *)
Theorem tunnel_in_step kc kr pkey (msgs : list (bytes * bytes)) (n : Z) :
  0 <= n -> n + len msgs <= U32_MAX ->
  Forall (fun '(p, q) => wf p /\ wf q /\ len p <= 65535 /\ len q <= 65535) msgs ->
  exists outs,
    conversation (session_at kc kr n n pkey) (imap (fun i '(p, q) => (host_wrap kc (n + Z.of_nat i) p, q)) msgs) =
      Ret (session_at kc kr (n + len msgs) (n + len msgs) pkey, outs) /\
    imap (fun i out => host_unwrap kr (n + Z.of_nat i) out) outs = Some ∘ snd <$> msgs.
Proof.
  intros Hn Hmax Hall. revert n Hn Hmax.
  induction Hall as [|[p q] msgs (Hp & Hq & Hlp & Hlq) _ IH]; intros n Hn Hmax.
  - exists []. rewrite len_nil, Z.add_0_r. done.
  - rewrite len_cons in *. pose proof (len_nonneg msgs).
    destruct (wrap_host kc kr (n + 1) n pkey q) as (out & Hout & Hu & _); [lia|done..|].
    destruct (IH (n + 1)) as (outs & Ho & Hi); [lia..|]. exists (out :: outs).
    rewrite !imap_cons. cbn [conversation]. rewrite Z.add_0_r. unfold exchange.
    rewrite unwrap_host by (done || lia). cbn [rbind]. rewrite Hout. cbn [rbind].
    rewrite (imap_ext _ (fun i '(p, q) => (host_wrap kc (n + 1 + Z.of_nat i) p, q))).
    2: { intros i [x y] _. simpl. by replace (n + Z.of_nat (S i)) with (n + 1 + Z.of_nat i) by lia. }
    rewrite Ho. cbn [rbind]. split; [by replace (n + 1 + len msgs) with (n + (1 + len msgs)) by lia|].
    rewrite Hu. cbn [fmap list_fmap compose snd]. f_equal. rewrite <- Hi.
    apply imap_ext. intros i x _. simpl. f_equal. lia.
Qed.

(** Nonces are never reused: a response goes out under the current counter, which
    then increases, and a session whose counter is exhausted refuses to wrap. *)
Theorem response_nonce_fresh kc kr m n pkey p s' r :
  0 <= n <= U32_MAX ->
  wrap_l3_response (session_at kc kr m n pkey) p = Ret (s', r) ->
  match r with
  | Ok body => n < U32_MAX /\ s' = session_at kc kr m (n + 1) pkey /\
      nonce_at (n + 1) <> nonce_at n /\
      body = le_bytes 2 (as_u16 (len p)) ++ gcm_encrypt kr (nonce_at n) [] p
  | Err e => n = U32_MAX /\ e = NonceOverflow /\ s' = session_at kc kr m n pkey
  end.
Proof.
  intros Hn. unfold wrap_l3_response, session_at. cbn [keys k_res nonce_res].
  rewrite step_nonce_at by done.
  destruct (Z.eqb_spec n U32_MAX); cbn [rbind]; intros [= <- <-]; [done|].
  split_and!; [lia|done| |done]. intros H%nonce_at_inj; lia.
Qed.
End session_facts.
