(* ===== verification/TropicGetInfo.v ===== *)
(** * TROPIC01Sim: Get_Info

    [handlers/get_info.rs]: the objects a host can read without a session.  The
    certificate store is read in 128-byte blocks; the last block is zero-padded. *)

From S2P Require Import Prelude.
From S2P Require Import Crates.
From S2P Require Import TropicTypes.
From S2P Require Import TropicFrame.
From S2P Require Import TropicL3Facts.

(** [certs.rs] *)
Definition CERT_STORE_BLOCKS : Z := 30.
Definition CERT_STORE_BLOCK_SIZE : Z := 128.

Definition OBJECT_X509_CERTIFICATE : Z := 0x00.
Definition OBJECT_CHIP_ID : Z := 0x01.
Definition OBJECT_RISCV_FW_VERSION : Z := 0x02.
Definition OBJECT_SPECT_FW_VERSION : Z := 0x04.
Definition OBJECT_FW_BANK : Z := 0xb0.
Definition BANK_FW1 : Z := 0x01.
Definition BANK_FW2 : Z := 0x02.
Definition BANK_SPECT1 : Z := 0x11.
Definition BANK_SPECT2 : Z := 0x12.

Section get_info.
Context `{C : Crates}.

Definition bank_header (device : Device) (fw_type : Z) (version : bytes) (size : Z) : res bytes :=
  let digest := sha256_finalize
    (sha256_update (sha256_update sha256_new (dev_chip_id device)) [fw_type]) in
  if fw_bank_header_len (personality device) =? 20 then
    let! d8 := slice digest 0 8 in
    Ret ([fw_type; 0; 0; 0] ++ version ++ le_bytes 4 size ++ d8)
  else
    let! d4 := slice digest 0 4 in
    Ret (le_bytes 2 fw_type ++ [0; 2] ++ version ++ le_bytes 4 size ++ d4 ++ digest ++ [0; 0; 0; 0]).

Definition handle (device : Device) (maintenance : bool) (object_id block : Z) : res bytes :=
  let p := personality device in
  if object_id =? OBJECT_X509_CERTIFICATE then
    if CERT_STORE_BLOCKS <=? block then build_response status.GEN_ERR []
    else
      let chunk := vec_repeat 0 CERT_STORE_BLOCK_SIZE in
      let start := block * CERT_STORE_BLOCK_SIZE in
      let! chunk :=
        if start <? len (cert_store device) then
          let end_ := Z.min (start + CERT_STORE_BLOCK_SIZE) (len (cert_store device)) in
          let! src := slice (cert_store device) start end_ in
          copy_from_slice chunk 0 (end_ - start) src
        else Ret chunk in
      build_response status.REQUEST_OK chunk
  else if object_id =? OBJECT_CHIP_ID then build_response status.REQUEST_OK (dev_chip_id device)
  else if object_id =? OBJECT_RISCV_FW_VERSION then
    let v := if maintenance then bootloader_version p else riscv_fw_version p in
    build_response status.REQUEST_OK v
  else if object_id =? OBJECT_SPECT_FW_VERSION then
    let v := if maintenance then bootloader_spect_version p else spect_fw_version p in
    build_response status.REQUEST_OK v
  else if (object_id =? OBJECT_FW_BANK) && maintenance then
    let '(fw_size, spect_size) := fw_image_sizes p in
    if ((block =? BANK_FW2) || (block =? BANK_SPECT2)) && negb (fw_bank2_written p)
    then build_response status.REQUEST_OK (vec_repeat 0xff (fw_bank_header_len p))
    else if (block =? BANK_FW1) || (block =? BANK_FW2) then
      let! h := bank_header device 1 (riscv_fw_version p) fw_size in
      build_response status.REQUEST_OK h
    else if (block =? BANK_SPECT1) || (block =? BANK_SPECT2) then
      let! h := bank_header device 2 (spect_fw_version p) spect_size in
      build_response status.REQUEST_OK h
    else build_response status.REQUEST_OK []
  else build_response status.GEN_ERR [].

(** ** Facts *)

Context {COk : CratesOk C}.

(** A response frame the chip may queue. *)
Definition frame_ok (f : bytes) : Prop := wf f /\ 4 <= len f <= MAX_L2_FRAME_SIZE.

Lemma build_response_ok st data :
  u8 st -> wf data -> len data <= 252 -> wp (build_response st data) frame_ok.
Proof.
  intros Hs Hd Hl. unfold build_response. rewrite build_frame_ret by done. cbn [wp].
  pose proof (len_nonneg data). split.
  - apply wf_app; [|apply wf_be_bytes]. apply wf_cons, wf_cons; [done|u_solve|done].
  - unfold MAX_L2_FRAME_SIZE, MAX_L2_DATA_SIZE.
    rewrite len_app, len_be_bytes, !len_cons. lia.
Qed.

Lemma bank_header_ok device ty v size :
  u8 ty -> wf v -> len v = 4 -> wp (bank_header device ty v size) (fun h => wf h /\ len h <= 252).
Proof.
  intros Ht Hv Hl. unfold bank_header.
  set (d := sha256_finalize _). assert (Hd : len d = 32) by apply sha256_len.
  assert (Hdw : wf d) by apply sha256_wf. clearbody d.
  destruct (_ =? 20).
  - rewrite slice_ret by lia. cbn [rbind wp]. split; [|len_solve].
    apply wf_app; [do 4 (apply wf_cons; [u_solve|]); apply wf_nil|].
    repeat apply wf_app; auto with wfdb.
  - rewrite slice_ret by lia. cbn [rbind wp]. split; [|len_solve].
    apply wf_app; [auto with wfdb|]. apply wf_app; [apply wf_cons, wf_cons; [u_solve..|apply wf_nil]|].
    repeat apply wf_app; auto with wfdb.
Qed.

Lemma version_ok p :
  wf (riscv_fw_version p) /\ wf (spect_fw_version p) /\ wf (bootloader_version p) /\
  wf (bootloader_spect_version p) /\ len (riscv_fw_version p) = 4 /\ len (spect_fw_version p) = 4 /\
  len (bootloader_version p) = 4.
Proof.
  destruct p; cbn; split_and!; try done; repeat (apply wf_cons; [u_solve|]); apply wf_nil.
Qed.

Lemma handle_ok device maint object_id block :
  device_ok device -> 0 <= block -> wp (handle device maint object_id block) frame_ok.
Proof.
  intros Hd Hb. destruct (dok_chip_id _ Hd) as [Hci Hcw]. pose proof (dok_cert _ Hd) as Hce.
  pose proof (version_ok (personality device)) as (V1 & V2 & V3 & V4 & V5 & V6 & V7).
  assert (Hok : forall data, wf data -> len data <= 252 ->
    wp (build_response status.REQUEST_OK data) frame_ok).
  { intros. apply build_response_ok; [|done..]. unfold status.REQUEST_OK. u_solve. }
  assert (Hge : wp (build_response status.GEN_ERR []) frame_ok).
  { apply build_response_ok; [unfold status.GEN_ERR; u_solve|apply wf_nil|done]. }
  unfold handle, CERT_STORE_BLOCKS, CERT_STORE_BLOCK_SIZE.
  destruct (object_id =? OBJECT_X509_CERTIFICATE).
  { destruct (Z.leb_spec 30 block); [done|]. apply wp_bind.
    apply (wp_mono _ (fun c => wf c /\ len c = 128)); [|intros c [? ?]; apply Hok; [done|lia]].
    destruct (Z.ltb_spec (block * 128) (len (cert_store device))); [|split; auto with wfdb].
    rewrite slice_ret by lia. cbn [rbind]. set (s := sub _ _ _).
    assert (Hs : len s = Z.min (block * 128 + 128) (len (cert_store device)) - block * 128).
    { unfold s. rewrite len_sub. lia. }
    unfold copy_from_slice. rewrite bool_decide_true by (rewrite len_vec_repeat; lia). simpl.
    split; [apply wf_splice; [auto with wfdb|by apply wf_sub]|].
    rewrite len_splice; rewrite ?len_vec_repeat; lia. }
  destruct (object_id =? OBJECT_CHIP_ID); [apply Hok; [done|lia]|].
  destruct (object_id =? OBJECT_RISCV_FW_VERSION); [destruct maint; apply Hok; done || lia|].
  destruct (object_id =? OBJECT_SPECT_FW_VERSION);
    [destruct maint; apply Hok; try done; rewrite V6; lia|].
  destruct (_ && maint); [|done]. destruct (fw_image_sizes _) as [fs ss].
  destruct (_ && _); [apply Hok; [auto with wfdb|by destruct (personality device)]|].
  assert (Hbh : forall ty v size, u8 ty -> wf v -> len v = 4 ->
    wp (let! h := bank_header device ty v size in build_response status.REQUEST_OK h) frame_ok).
  { intros. apply wp_bind. eapply wp_mono; [by apply bank_header_ok|]. intros h [? ?]. by apply Hok. }
  destruct (_ || _); [apply Hbh; [u_solve|done..]|].
  destruct (_ || _); [apply Hbh; [u_solve|done..]|]. apply Hok; [apply wf_nil|done].
Qed.
End get_info.
