(* ===== verification/TropicCerts.v ===== *)
(** * TROPIC01Sim: the certificate store

    [certs.rs]: DER encoding, the four-certificate chain built at provisioning, and
    the blob GET_INFO serves.  The P-384 and P-521 keys and the clock are parameters.
    Shown here: the DER length field is read back, the store of any chain fits the
    30 blocks (the [assert!] of [build_cert_store] never fires), and splitting the
    store gives the four certificates back. *)

From Stdlib Require Import String.
From S2P Require Import Prelude.
From S2P Require Import Crates.
From S2P Require Import TropicGetInfo.

(** [p384] and [p521]: key generation, the uncompressed public point, and the DER
    encoding of a signature. *)
Class NistKeys `{Rng} := {
  p384_key : Type;
  p384_random : rng -> p384_key * rng;
  p384_point : p384_key -> bytes;
  p384_sign_der : p384_key -> bytes -> bytes;
  p521_key : Type;
  p521_random : rng -> p521_key * rng;
  p521_point : p521_key -> bytes;
  p521_sign_der : p521_key -> bytes -> bytes;
}.

(** An uncompressed point is one tag byte and two field elements; a DER signature is
    at most a sequence header and two integers with a sign byte each. *)
Class NistKeysOk `{NistKeys} := {
  p384_point_len k : len (p384_point k) = 97 /\ wf (p384_point k);
  p384_sign_len k m : len (p384_sign_der k m) <= 104 /\ wf (p384_sign_der k m);
  p521_point_len k : len (p521_point k) = 133 /\ wf (p521_point k);
  p521_sign_len k m : len (p521_sign_der k m) <= 139 /\ wf (p521_sign_der k m);
}.

Definition OID_COUNTRY : bytes := [0x55; 0x04; 0x06].
Definition OID_ORG : bytes := [0x55; 0x04; 0x0a].
Definition OID_CN : bytes := [0x55; 0x04; 0x03].
Definition OID_EC_PUBLIC_KEY : bytes := [0x2a; 0x86; 0x48; 0xce; 0x3d; 0x02; 0x01].
Definition OID_SECP384R1 : bytes := [0x2b; 0x81; 0x04; 0x00; 0x22].
Definition OID_SECP521R1 : bytes := [0x2b; 0x81; 0x04; 0x00; 0x23].
Definition OID_X25519 : bytes := [0x2b; 0x65; 0x6e].
Definition OID_ECDSA_SHA384 : bytes := [0x2a; 0x86; 0x48; 0xce; 0x3d; 0x04; 0x03; 0x03].
Definition OID_ECDSA_SHA512 : bytes := [0x2a; 0x86; 0x48; 0xce; 0x3d; 0x04; 0x03; 0x04].
Definition OID_BASIC_CONSTRAINTS : bytes := [0x55; 0x1d; 0x13].
Definition OID_KEY_USAGE : bytes := [0x55; 0x1d; 0x0f].
Definition OID_SKI : bytes := [0x55; 0x1d; 0x0e].
Definition OID_AKI : bytes := [0x55; 0x1d; 0x23].

Definition ORG : bytes := str_bytes "wolfSSL Inc. (TROPIC01Sim)".
Definition ROOT_CN : bytes := str_bytes "TROPIC01Sim Root CA v1".
Definition XCA_CN : bytes := str_bytes "TROPIC01Sim-X CA v1".

(** ** DER *)

Definition der_len (n : Z) : bytes :=
  if n <? 0x80 then [as_u8 n]
  else if n <=? 0xff then [0x81; as_u8 n]
  else [0x82; as_u8 (Z.shiftr n 8); as_u8 n].

Definition tlv (tag : Z) (content : bytes) : bytes := tag :: der_len (len content) ++ content.
Definition seq (parts : list bytes) : bytes := tlv 0x30 (concat parts).
Definition set (parts : list bytes) : bytes := tlv 0x31 (concat parts).
Definition oid (encoded : bytes) : bytes := tlv 0x06 encoded.

Fixpoint skip_zeros (be : bytes) : bytes :=
  match be with
  | 0 :: be => skip_zeros be
  | _ => be
  end.
Definition integer (be : bytes) : bytes :=
  let v := skip_zeros be in
  let v := match v with
           | [] => 0 :: v
           | v0 :: _ => if negb (Z.land v0 0x80 =? 0) then 0 :: v else v
           end in
  tlv 0x02 v.

Definition bit_string (b : bytes) (unused_bits : Z) : bytes := tlv 0x03 (unused_bits :: b).
Definition utf8 (s : bytes) : bytes := tlv 0x0c s.
Definition printable (s : bytes) : bytes := tlv 0x13 s.

(** ** Dates *)

(** [format!("{:0w}", n)] for [n >= 0]: at least [w] decimal digits. *)
Fixpoint digits (fuel : nat) (n : Z) (acc : bytes) : bytes :=
  match fuel with
  | O => acc
  | S fuel => if n <? 10 then (48 + n) :: acc else digits fuel (n / 10) ((48 + n mod 10) :: acc)
  end.
Definition dec (w : nat) (n : Z) : bytes :=
  let d := digits 20 n [] in replicate (w - length d) 48 ++ d.

Definition x509_time (y mo d h mi s : Z) : bytes :=
  if y <? 2050
  then tlv 0x17 (dec 2 (Z.rem y 100) ++ dec 2 mo ++ dec 2 d ++ dec 2 h ++ dec 2 mi ++ dec 2 s
                 ++ str_bytes "Z")
  else tlv 0x18 (dec 4 y ++ dec 2 mo ++ dec 2 d ++ dec 2 h ++ dec 2 mi ++ dec 2 s
                 ++ str_bytes "Z").

(** Days since 1970-01-01 to (year, month, day). *)
Definition civil_from_days (z : Z) : Z * Z * Z :=
  let z := z + 719468 in
  let era := z / 146097 in
  let doe := z mod 146097 in
  let yoe := (doe - doe / 1460 + doe / 36524 - doe / 146096) / 365 in
  let y := yoe + era * 400 in
  let doy := doe - (365 * yoe + yoe / 4 - yoe / 100) in
  let mp := (5 * doy + 2) / 153 in
  let d := as_u32 (doy - (153 * mp + 2) / 5 + 1) in
  let m := as_u32 (if mp <? 10 then mp + 3 else mp - 9) in
  ((if m <=? 2 then y + 1 else y), m, d).

Record Validity := mkValidity {
  not_before : bytes;
  year : Z;
  rest : Z * Z * Z * Z * Z;
}.

(** [secs]: the system time, in seconds since the epoch. *)
Definition now (secs : Z) : Validity :=
  let '(y, mo, d) := civil_from_days (secs / 86400) in
  let tod := secs mod 86400 in
  let h := tod / 3600 in
  let mi := (tod / 60) mod 60 in
  let s := tod mod 60 in
  mkValidity (x509_time y mo d h mi s) y (mo, Z.min d 28, h, mi, s).

Definition for_years (self : Validity) (years : Z) : bytes :=
  let '(mo, d, h, mi, s) := rest self in
  seq [not_before self; x509_time (year self + years) mo d h mi s].

(** ** Certificates *)

Definition name (country_and_org : bool) (cn : bytes) : bytes :=
  let rdns := if country_and_org
              then [set [seq [oid OID_COUNTRY; printable (str_bytes "US")]];
                    set [seq [oid OID_ORG; utf8 ORG]]]
              else [] in
  seq (rdns ++ [set [seq [oid OID_CN; utf8 cn]]]).

Definition extension (id : bytes) (critical : bool) (value : bytes) : bytes :=
  seq ([oid id] ++ (if critical then [[0x01; 0x01; 0xff]] else []) ++ [tlv 0x04 value]).

Definition ec_spki (curve_oid point : bytes) : bytes :=
  seq [seq [oid OID_EC_PUBLIC_KEY; oid curve_oid]; bit_string point 0].

Definition basic_constraints (ca : bool) (pathlen : option Z) : bytes :=
  if negb ca then seq []
  else
    seq ([[0x01; 0x01; 0xff]] ++ match pathlen with
                                 | Some p => [integer [p]]
                                 | None => []
                                 end).

Section certs.
Context `{C : Crates} {N : NistKeys}.

Definition key_id (spki_key_bits : bytes) : res bytes :=
  slice (sha256_finalize (sha256_update sha256_new spki_key_bits)) 0 20.

Inductive Issuer :=
  | IP384 (k : p384_key)
  | IP521 (k : p521_key).

Record CertSpec := mkCertSpec {
  cs_serial : bytes;
  cs_issuer_name : bytes;
  cs_subject_name : bytes;
  cs_validity : bytes;
  cs_spki : bytes;
  cs_basic_constraints : bytes;
  cs_key_usage : bytes;
  cs_ski : option bytes;
  cs_aki : option bytes;
  cs_issuer : Issuer;
}.

Definition build_cert (spec : CertSpec) : bytes :=
  let sig_oid := match cs_issuer spec with
                 | IP384 _ => OID_ECDSA_SHA384
                 | IP521 _ => OID_ECDSA_SHA512
                 end in
  let exts := [extension OID_BASIC_CONSTRAINTS true (cs_basic_constraints spec);
               extension OID_KEY_USAGE true (cs_key_usage spec)] in
  let exts := match cs_ski spec with
              | Some ski => exts ++ [extension OID_SKI false (tlv 0x04 ski)]
              | None => exts
              end in
  let exts := match cs_aki spec with
              | Some aki => exts ++ [extension OID_AKI false (seq [tlv 0x80 aki])]
              | None => exts
              end in
  let tbs := seq [tlv 0xa0 (integer [2]); integer (cs_serial spec); seq [oid sig_oid];
                  cs_issuer_name spec; cs_validity spec; cs_subject_name spec; cs_spki spec;
                  tlv 0xa3 (seq exts)] in
  let sig_der := match cs_issuer spec with
                 | IP384 k => p384_sign_der k tbs
                 | IP521 k => p521_sign_der k tbs
                 end in
  seq [tbs; seq [oid sig_oid]; bit_string sig_der 0].

(** [format!("{b:02X}")]. *)
Definition hex_digit (n : Z) : Z := if n <? 10 then 48 + n else 55 + n.
Definition hex2 (b : Z) : bytes := [hex_digit (b / 16); hex_digit (b mod 16)].

(** The four certificates: device, X CA, cross root, root. *)
Definition build_chain (secs : Z) (st_pub serial : bytes) (r : rng) : res (list bytes * rng) :=
  let validity := now secs in
  let '(root_key, r) := p521_random r in
  let root_point := p521_point root_key in
  let root_spki := ec_spki OID_SECP521R1 root_point in
  let! root_kid := key_id root_point in
  let '(mid_key, r) := p384_random r in
  let mid_point := p384_point mid_key in
  let mid_spki := ec_spki OID_SECP384R1 mid_point in
  let! mid_kid := key_id mid_point in
  let '(xca_key, r) := p384_random r in
  let xca_point := p384_point xca_key in
  let xca_spki := ec_spki OID_SECP384R1 xca_point in
  let! xca_kid := key_id xca_point in
  let root_name := name true ROOT_CN in
  let xca_name := name true XCA_CN in
  let root := build_cert (mkCertSpec [0x65] root_name root_name (for_years validity 50) root_spki
    (basic_constraints true None) (bit_string [0x06] 1) (Some root_kid) None (IP521 root_key)) in
  let cross := build_cert (mkCertSpec [0x03; 0xe9] root_name root_name (for_years validity 40)
    mid_spki (basic_constraints true (Some 1)) (bit_string [0x06] 1) (Some mid_kid) (Some root_kid)
    (IP521 root_key)) in
  let xca := build_cert (mkCertSpec [0x27; 0x11] root_name xca_name (for_years validity 35)
    xca_spki (basic_constraints true (Some 0)) (bit_string [0x04] 2) (Some xca_kid) (Some mid_kid)
    (IP384 mid_key)) in
  let dev_serial := 0x01 :: serial in
  let device_cn := str_bytes "TROPIC01Sim eSE " ++ concat (hex2 <$> serial) in
  let device := build_cert (mkCertSpec dev_serial xca_name (name false device_cn)
    (for_years validity 20) (seq [seq [oid OID_X25519]; bit_string st_pub 0])
    (basic_constraints false None) (bit_string [0x08] 3) None (Some xca_kid) (IP384 xca_key)) in
  Ret ([device; xca; cross; root], r).

(** The blob of a list of certificates. *)
Definition cert_blob (certs : list bytes) : bytes :=
  [1; as_u8 (len certs)] ++ concat ((fun c => be_bytes 2 (as_u16 (len c))) <$> certs) ++ concat certs.

Definition build_cert_store (secs : Z) (st_pub serial : bytes) (r : rng) : res (bytes * rng) :=
  let! '(certs, r) := build_chain secs st_pub serial r in
  let out := cert_blob certs in
  let! _ := rassert (len out <=? CERT_STORE_BLOCKS * CERT_STORE_BLOCK_SIZE) in
  Ret (out, r).
End certs.

(** Split a store blob into its certificates. *)
Fixpoint split_loop (n : nat) (blob : bytes) (i off : Z) : res (list bytes) :=
  match n with
  | O => Ret []
  | S n =>
      let! h := idx blob (2 + 2 * i) in
      let! l := idx blob (3 + 2 * i) in
      let k := be_val [h; l] in
      let! c := slice blob off (off + k) in
      let! rest := split_loop n blob (i + 1) (off + k) in
      Ret (c :: rest)
  end.
Definition split_cert_store (blob : bytes) : res (list bytes) :=
  let! n := idx blob 1 in
  split_loop (Z.to_nat n) blob 0 (2 + 2 * n).

(** ** Reading DER back *)

(** A DER reader: tag, contents, and what follows. *)
Definition read_tlv (b : bytes) : option (Z * bytes * bytes) :=
  let split tag n b := if n <=? len b then Some (tag, sub b 0 n, drop (Z.to_nat n) b) else None in
  match b with
  | tag :: l :: b =>
      if l <? 0x80 then split tag l b
      else
        match b with
        | h :: b' =>
            if l =? 0x81 then split tag h b'
            else
              match b' with
              | h2 :: b'' => if l =? 0x82 then split tag (be_val [h; h2]) b'' else None
              | [] => None
              end
        | [] => None
        end
  | _ => None
  end.

Lemma split_app (tag : Z) (c rest : bytes) :
  (if len c <=? len (c ++ rest)
   then Some (tag, sub (c ++ rest) 0 (len c), drop (Z.to_nat (len c)) (c ++ rest)) else None) =
  Some (tag, c, rest).
Proof.
  rewrite len_app, (proj2 (Z.leb_le _ _)) by (pose proof (len_nonneg rest); lia).
  rewrite sub_prefix. unfold len. rewrite Nat2Z.id, drop_app_length. done.
Qed.

Lemma shiftr8 n : Z.shiftr n 8 = n / 256.
Proof. by rewrite Z.shiftr_div_pow2. Qed.

Lemma der_len_short n : 0 <= n < 128 -> der_len n = [n].
Proof.
  intros. unfold der_len. rewrite (proj2 (Z.ltb_lt _ _)) by lia. unfold as_u8.
  by rewrite Z.mod_small by lia.
Qed.

Lemma be_val2 a b : be_val [a; b] = 256 * a + b.
Proof. unfold be_val. cbn. lia. Qed.

(** Every object the encoder writes with fewer than 65536 content bytes is read back:
    the reader finds the tag, the contents and the bytes that follow. *)
Theorem der_roundtrip tag content rest :
  len content < 65536 ->
  read_tlv (tlv tag content ++ rest) = Some (tag, content, rest).
Proof.
  intros Hl. pose proof (len_nonneg content). unfold tlv, der_len.
  set (n := len content) in *. unfold as_u8.
  destruct (Z.ltb_spec n 128); [|destruct (Z.leb_spec n 255)]; cbn [app].
  - rewrite Z.mod_small by lia. unfold read_tlv. rewrite (proj2 (Z.ltb_lt _ _)) by lia. apply split_app.
  - rewrite Z.mod_small by lia. cbn -[Z.to_nat Z.leb]. apply split_app.
  - rewrite shiftr8. rewrite (Z.mod_small (n / 256)) by (split; [apply Z.div_pos|apply Z.div_lt_upper_bound]; lia).
    unfold read_tlv. cbn [Z.ltb Z.eqb Z.compare Pos.compare Pos.compare_cont Pos.eqb].
    rewrite be_val2, <- Z.div_mod by lia. apply split_app.
Qed.

(** ** Sizes *)

Lemma len_der_len n : 1 <= len (der_len n) <= 3.
Proof. unfold der_len. destruct (_ <? _); [|destruct (_ <=? _)]; done. Qed.

Lemma len_tlv t c : len c + 2 <= len (tlv t c) <= len c + 4.
Proof. unfold tlv. rewrite len_cons, len_app. pose proof (len_der_len (len c)). lia. Qed.

Lemma len_integer be : len (integer be) <= len be + 5.
Proof.
  unfold integer. pose proof (len_tlv 2 (skip_zeros be)).
  assert (Hs : len (skip_zeros be) <= len be).
  { clear. induction be as [|[] be IH]; cbn [skip_zeros]; rewrite ?len_cons; lia. }
  set (v := skip_zeros be) in *. clearbody v. destruct v as [|v0 v].
  - pose proof (len_tlv 2 [0]). rewrite len_cons, len_nil in *. lia.
  - destruct (negb _); [|lia]. pose proof (len_tlv 2 (0 :: v0 :: v)). rewrite !len_cons in *. lia.
Qed.

Lemma digits_len fuel n acc : len (digits fuel n acc) <= Z.of_nat fuel + len acc.
Proof.
  revert n acc. induction fuel as [|fuel IH]; intros n acc; cbn [digits]; [lia|].
  destruct (n <? 10); [rewrite len_cons; lia|]. etransitivity; [apply IH|]. rewrite len_cons. lia.
Qed.

(** A number below [10 ^ k] has at most [k] digits. *)
Lemma digits_len_pow fuel (k : nat) n acc :
  (0 < k)%nat -> n < 10 ^ Z.of_nat k -> len (digits fuel n acc) <= Z.of_nat k + len acc.
Proof.
  intros Hk. revert n acc k Hk. induction fuel as [|fuel IH]; intros n acc k Hk Hn; cbn [digits]; [lia|].
  destruct (Z.ltb_spec n 10); [rewrite len_cons; lia|]. destruct k as [|[|k]]; [lia|cbn in Hn; lia|].
  etransitivity; [apply (IH _ _ (S k)); [lia|]|rewrite len_cons; lia].
  apply Z.div_lt_upper_bound; [lia|]. rewrite (Nat2Z.inj_succ (S k)), Z.pow_succ_r in Hn by lia. lia.
Qed.

Lemma len_dec w (k : nat) n :
  (0 < k)%nat -> (w <= k)%nat -> n < 10 ^ Z.of_nat k -> len (dec w n) <= Z.of_nat k.
Proof.
  intros Hk Hw Hn. unfold dec. pose proof (digits_len_pow 20 k n [] Hk Hn).
  rewrite len_app, len_replicate, len_nil in *. unfold len in *. lia.
Qed.

Lemma len_dec_any w n : (w <= 20)%nat -> len (dec w n) <= 20.
Proof.
  intros Hw. unfold dec. pose proof (digits_len 20 n []).
  rewrite len_app, len_replicate, len_nil in *. unfold len in *. lia.
Qed.

(** The fields of a date, as far as their printed size goes. *)
Definition fields_ok (mo d h mi s : Z) : Prop :=
  u32 mo /\ u32 d /\ h < 100 /\ mi < 100 /\ s < 100.

Lemma len_x509_time y mo d h mi s : fields_ok mo d h mi s -> len (x509_time y mo d h mi s) <= 51.
Proof.
  intros (Hmo & Hd & Hh & Hmi & Hs). unfold u32 in *.
  pose proof (len_dec 2 10 mo ltac:(lia) ltac:(lia) ltac:(change (10 ^ Z.of_nat 10) with 10000000000; lia)).
  pose proof (len_dec 2 10 d ltac:(lia) ltac:(lia) ltac:(change (10 ^ Z.of_nat 10) with 10000000000; lia)).
  pose proof (len_dec 2 2 h ltac:(lia) ltac:(lia) ltac:(change (10 ^ Z.of_nat 2) with 100; lia)).
  pose proof (len_dec 2 2 mi ltac:(lia) ltac:(lia) ltac:(change (10 ^ Z.of_nat 2) with 100; lia)).
  pose proof (len_dec 2 2 s ltac:(lia) ltac:(lia) ltac:(change (10 ^ Z.of_nat 2) with 100; lia)).
  pose proof (len_dec_any 2 (Z.rem y 100) ltac:(lia)). pose proof (len_dec_any 4 y ltac:(lia)).
  assert (Hz : len (str_bytes "Z") = 1) by done.
  unfold x509_time. case_match; (etransitivity; [apply len_tlv|]); rewrite !len_app, Hz; lia.
Qed.

Lemma now_fields secs :
  let '(mo, d, h, mi, s) := rest (now secs) in fields_ok mo d h mi s /\ len (not_before (now secs)) <= 51.
Proof.
  unfold now. destruct (civil_from_days (secs / 86400)) as [[y mo] d] eqn:E.
  assert (Hmd : u32 mo /\ u32 d).
  { unfold civil_from_days in E. injection E as _ <- <-. split; apply u32_as_u32. }
  assert (Ht : secs mod 86400 / 3600 < 100 /\ (secs mod 86400 / 60) mod 60 < 100 /\
    secs mod 86400 mod 60 < 100) by dlia.
  cbn [rest not_before]. split; [|apply len_x509_time].
  - destruct Hmd as [? ?], Ht as (? & ? & ?). unfold fields_ok, u32 in *. split_and!; lia.
  - destruct Hmd as [? ?], Ht as (? & ? & ?). unfold fields_ok, u32 in *. split_and!; lia.
Qed.

Lemma len_for_years secs n : len (for_years (now secs) n) <= 106.
Proof.
  pose proof (now_fields secs) as H. unfold for_years. destruct (rest (now secs)) as [[[[mo d] h] mi] s].
  destruct H as [H1 H2]. pose proof (len_x509_time (year (now secs) + n) _ _ _ _ _ H1).
  etransitivity; [apply len_tlv|]. cbn [concat]. rewrite !len_app, len_nil. lia.
Qed.

(** Bound the length of a nest of [tlv]s. *)
Ltac len_bound :=
  cbn [concat app];
  repeat match goal with
  | |- context [len (tlv ?t ?c)] =>
      let l := fresh "l" in
      pose proof (len_tlv t c); set (l := len (tlv t c)) in *; clearbody l
  | H : context [len (concat (_ :: _))] |- _ => cbn [concat app] in H
  | H : context [len (_ ++ _)] |- _ => rewrite len_app in H
  | H : context [len (_ :: _)] |- _ => rewrite len_cons in H
  | H : context [@len Z []] |- _ => change (@len Z []) with 0 in H
  | H : context [len (tlv ?t ?c)] |- _ =>
      let l := fresh "l" in
      pose proof (len_tlv t c); set (l := len (tlv t c)) in *; clearbody l
  end.

Lemma len_name b cn : len (name b cn) <= len cn + 89.
Proof.
  assert (Ho : len ORG = 26) by done. assert (Hu : len (str_bytes "US") = 2) by done.
  unfold name, seq, set, oid, printable, utf8, OID_COUNTRY, OID_ORG, OID_CN.
  destruct b; len_bound; lia.
Qed.

Lemma len_extension id b v : len (extension id b v) <= len id + len v + 15.
Proof. unfold extension, seq, oid. destruct b; len_bound; lia. Qed.

Lemma len_ec_spki o q : len (ec_spki o q) <= len o + len q + 28.
Proof. unfold ec_spki, seq, oid, bit_string, OID_EC_PUBLIC_KEY. len_bound. lia. Qed.

Lemma len_bit_string q u : len (bit_string q u) <= len q + 5.
Proof. unfold bit_string. len_bound. lia. Qed.

(** ** Bytes *)

Lemma wf_der_len n : wf (der_len n).
Proof. unfold der_len. repeat case_match; auto with wfdb. Qed.
Lemma wf_tlv t c : u8 t -> wf c -> wf (tlv t c).
Proof. intros. apply wf_cons; [done|]. apply wf_app; [apply wf_der_len|done]. Qed.
Lemma wf_concat (ls : list bytes) : Forall wf ls -> wf (concat ls).
Proof. induction 1; [apply wf_nil|by apply wf_app]. Qed.
Lemma wf_seq ls : Forall wf ls -> wf (seq ls).
Proof. intros. apply wf_tlv; [u_solve|by apply wf_concat]. Qed.
Lemma wf_set ls : Forall wf ls -> wf (set ls).
Proof. intros. apply wf_tlv; [u_solve|by apply wf_concat]. Qed.
Lemma wf_oid e : wf e -> wf (oid e).
Proof. intros. apply wf_tlv; [u_solve|done]. Qed.
Lemma wf_skip_zeros be : wf be -> wf (skip_zeros be).
Proof. induction 1 as [|x l Hx Hl IH]; [apply wf_nil|]. destruct x; cbn; auto with wfdb. Qed.
Lemma wf_integer be : wf be -> wf (integer be).
Proof.
  intros H%wf_skip_zeros. apply wf_tlv; [u_solve|]. destruct (skip_zeros be); [auto with wfdb|].
  case_match; auto with wfdb.
Qed.
Lemma wf_bit_string b u : wf b -> u8 u -> wf (bit_string b u).
Proof. intros. apply wf_tlv; [u_solve|by apply wf_cons]. Qed.
Lemma wf_str_bytes s : wf (str_bytes s).
Proof.
  induction s as [|a s IH]; [apply wf_nil|]. apply wf_cons; [|done].
  unfold u8. pose proof (Ascii.N_ascii_bounded a). lia.
Qed.
Lemma wf_digits fuel n acc : 0 <= n -> wf acc -> wf (digits fuel n acc).
Proof.
  revert n acc. induction fuel as [|fuel IH]; intros n acc Hn Ha; [done|]. cbn [digits].
  destruct (Z.ltb_spec n 10); [apply wf_cons; [u_solve|done]|].
  apply IH; [apply Z.div_pos; lia|]. apply wf_cons; [dlia|done].
Qed.
Lemma wf_dec w n : 0 <= n -> wf (dec w n).
Proof. intros. apply wf_app; [apply wf_replicate; u_solve|by apply wf_digits, wf_nil]. Qed.
Lemma wf_extension id b v : wf id -> wf v -> wf (extension id b v).
Proof.
  intros. apply wf_seq. apply Forall_app_2; [by apply Forall_singleton, wf_oid|].
  apply Forall_app_2; [|by apply Forall_singleton, wf_tlv; [u_solve|]].
  destruct b; [|done]. apply Forall_singleton. auto with wfdb.
Qed.

#[export] Hint Resolve wf_tlv wf_seq wf_set wf_oid wf_integer wf_bit_string wf_str_bytes wf_dec
  wf_extension Forall_nil_2 Forall_cons_2 : wfdb.

Section certs_facts.
Context `{C : Crates} {COk : CratesOk C} {N : NistKeys} {NOk : NistKeysOk}.

Definition opt_len (o : option bytes) : Z := match o with Some l => len l | None => 0 end.

Lemma sign_len i m :
  len (match i with IP384 k => p384_sign_der k m | IP521 k => p521_sign_der k m end) <= 139 /\
  wf (match i with IP384 k => p384_sign_der k m | IP521 k => p521_sign_der k m end).
Proof. destruct i; [pose proof (p384_sign_len k m)|pose proof (p521_sign_len k m)]; split; lia || tauto. Qed.

Lemma len_exts (spec : CertSpec) exts :
  exts = [extension OID_BASIC_CONSTRAINTS true (cs_basic_constraints spec);
          extension OID_KEY_USAGE true (cs_key_usage spec)] ->
  let e1 := match cs_ski spec with
            | Some ski => exts ++ [extension OID_SKI false (tlv 0x04 ski)]
            | None => exts
            end in
  let e2 := match cs_aki spec with
            | Some aki => e1 ++ [extension OID_AKI false (seq [tlv 0x80 aki])]
            | None => e1
            end in
  len (concat e2) <= len (cs_basic_constraints spec) + len (cs_key_usage spec) +
    opt_len (cs_ski spec) + opt_len (cs_aki spec) + 84.
Proof.
  intros ->. cbv zeta.
  pose proof (len_extension OID_BASIC_CONSTRAINTS true (cs_basic_constraints spec)).
  pose proof (len_extension OID_KEY_USAGE true (cs_key_usage spec)).
  assert (Hs : forall ski, len (extension OID_SKI false (tlv 0x04 ski)) <= len ski + 22).
  { intros ski. pose proof (len_extension OID_SKI false (tlv 4 ski)). pose proof (len_tlv 4 ski).
    change (len OID_SKI) with 3 in *. lia. }
  assert (Ha : forall aki, len (extension OID_AKI false (seq [tlv 0x80 aki])) <= len aki + 26).
  { intros aki. etransitivity; [apply len_extension|]. change (len OID_AKI) with 3.
    unfold seq. len_bound; lia. }
  change (len OID_BASIC_CONSTRAINTS) with 3 in *. change (len OID_KEY_USAGE) with 3 in *.
  destruct (cs_ski spec) as [ski|], (cs_aki spec) as [aki|]; cbn [app concat opt_len];
    try specialize (Hs ski); try specialize (Ha aki); rewrite !len_app, len_nil; lia.
Qed.

Lemma len_build_cert spec :
  len (build_cert spec) <= len (cs_serial spec) + len (cs_issuer_name spec) +
    len (cs_subject_name spec) + len (cs_validity spec) + len (cs_spki spec) +
    len (cs_basic_constraints spec) + len (cs_key_usage spec) + opt_len (cs_ski spec) +
    opt_len (cs_aki spec) + 291.
Proof.
  unfold build_cert. pose proof (len_exts spec _ eq_refl) as He. cbv zeta in *.
  set (exts := match cs_aki spec with Some _ => _ | None => _ end) in *. clearbody exts.
  set (so := match cs_issuer spec with IP384 _ => _ | IP521 _ => _ end).
  assert (Hso : len so = 8) by (unfold so; by destruct (cs_issuer spec)). clearbody so.
  pose proof (len_integer [2]) as Hv. pose proof (len_integer (cs_serial spec)) as Hser.
  set (tbs := seq [tlv 0xa0 _; _; _; _; _; _; _; _]).
  assert (Ht : len tbs <= len (cs_serial spec) + len (cs_issuer_name spec) +
    len (cs_subject_name spec) + len (cs_validity spec) + len (cs_spki spec) +
    len (cs_basic_constraints spec) + len (cs_key_usage spec) + opt_len (cs_ski spec) +
    opt_len (cs_aki spec) + 127).
  { unfold tbs, seq, oid. rewrite len_cons, len_nil in Hv. len_bound; lia. }
  clearbody tbs. pose proof (sign_len (cs_issuer spec) tbs) as [Hs _].
  set (sig := match cs_issuer spec with IP384 _ => _ | IP521 _ => _ end) in *. clearbody sig.
  pose proof (len_bit_string sig 0). unfold seq, oid. len_bound; lia.
Qed.

(** The parts of a certificate are bytes. *)
Definition spec_wf (spec : CertSpec) : Prop :=
  wf (cs_serial spec) /\ wf (cs_issuer_name spec) /\ wf (cs_subject_name spec) /\
  wf (cs_validity spec) /\ wf (cs_spki spec) /\ wf (cs_basic_constraints spec) /\
  wf (cs_key_usage spec) /\ (forall l, cs_ski spec = Some l -> wf l) /\
  (forall l, cs_aki spec = Some l -> wf l).

Lemma wf_oids : wf OID_BASIC_CONSTRAINTS /\ wf OID_KEY_USAGE /\ wf OID_SKI /\ wf OID_AKI /\
  wf OID_ECDSA_SHA384 /\ wf OID_ECDSA_SHA512 /\ wf OID_COUNTRY /\ wf OID_ORG /\ wf OID_CN /\
  wf OID_EC_PUBLIC_KEY /\ wf OID_SECP384R1 /\ wf OID_SECP521R1 /\ wf OID_X25519.
Proof. split_and!; repeat (apply wf_cons; [u_solve|]); apply wf_nil. Qed.

Lemma wf_build_cert spec : spec_wf spec -> wf (build_cert spec).
Proof.
  intros (H1 & H2 & H3 & H4 & H5 & H6 & H7 & Hski & Haki).
  destruct wf_oids as (O1 & O2 & O3 & O4 & O5 & O6 & _).
  assert (Hi2 : wf (integer [2])) by auto with wfdb.
  unfold build_cert. set (exts := match cs_aki spec with Some _ => _ | None => _ end).
  assert (He : Forall wf exts).
  { unfold exts. destruct (cs_ski spec), (cs_aki spec); repeat apply Forall_app_2; auto 12 with wfdb. }
  clearbody exts. set (so := match cs_issuer spec with IP384 _ => OID_ECDSA_SHA384 | IP521 _ => _ end).
  assert (Hso : wf so) by (unfold so; by destruct (cs_issuer spec)). clearbody so.
  set (tbs := seq [tlv 0xa0 _; _; _; _; _; _; _; _]).
  assert (Ht : wf tbs).
  { apply wf_seq. repeat (apply Forall_cons_2; [auto 10 with wfdb|]). apply Forall_nil_2. }
  clearbody tbs. pose proof (sign_len (cs_issuer spec) tbs) as [_ Hs].
  apply wf_seq. repeat (apply Forall_cons_2; [auto 10 with wfdb|]). apply Forall_nil_2.
Qed.

Lemma key_id_ok p : wp (key_id p) (fun k => len k = 20 /\ wf k).
Proof.
  unfold key_id. pose proof (sha256_len (sha256_update sha256_new p)).
  pose proof (sha256_wf (sha256_update sha256_new p)).
  apply wp_slice; [lia|lia|]. split; [rewrite len_sub; lia|by apply wf_sub].
Qed.

Lemma wf_x509_time y mo d h mi s :
  0 <= y -> 0 <= mo -> 0 <= d -> 0 <= h -> 0 <= mi -> 0 <= s -> wf (x509_time y mo d h mi s).
Proof.
  intros. assert (0 <= Z.rem y 100) by (apply Z.rem_nonneg; lia).
  unfold x509_time. case_match; apply wf_tlv; try u_solve; auto 10 with wfdb.
Qed.

Lemma civil_nonneg z : 0 <= z -> 0 <= fst (fst (civil_from_days z)).
Proof.
  intros Hz. unfold civil_from_days. cbn [fst].
  assert (0 <= (z + 719468) / 146097) by (apply Z.div_pos; lia).
  pose proof (Z.mod_pos_bound (z + 719468) 146097 ltac:(lia)) as Hd.
  set (doe := (z + 719468) mod 146097) in *. set (era := (z + 719468) / 146097) in *.
  assert (0 <= (doe - doe / 1460 + doe / 36524 - doe / 146096) / 365).
  { apply Z.div_pos; [|lia]. clearbody doe. dlia. }
  case_match; lia.
Qed.

Lemma now_nonneg secs :
  0 <= secs -> 0 <= year (now secs) /\ wf (not_before (now secs)) /\
  let '(mo, d, h, mi, s) := rest (now secs) in 0 <= mo /\ 0 <= d /\ 0 <= h /\ 0 <= mi /\ 0 <= s.
Proof.
  intros Hs. unfold now. pose proof (civil_nonneg (secs / 86400)) as Hy.
  destruct (civil_from_days (secs / 86400)) as [[y mo] d] eqn:E. cbn [fst] in Hy.
  assert (Hmd : u32 mo /\ u32 d).
  { unfold civil_from_days in E. injection E as _ <- <-. split; apply u32_as_u32. }
  destruct Hmd as [[Hmo _] [Hd _]]. specialize (Hy ltac:(apply Z.div_pos; lia)).
  assert (0 <= secs mod 86400) by (apply Z.mod_pos_bound; lia).
  assert (0 <= secs mod 86400 / 3600) by (apply Z.div_pos; lia).
  assert (0 <= (secs mod 86400 / 60) mod 60) by (apply Z.mod_pos_bound; lia).
  assert (0 <= secs mod 86400 mod 60) by (apply Z.mod_pos_bound; lia).
  cbn [year not_before rest]. split; [done|]. split; [by apply wf_x509_time|]. lia.
Qed.

Lemma wf_for_years secs n : 0 <= secs -> 0 <= n -> wf (for_years (now secs) n).
Proof.
  intros Hs Hn. destruct (now_nonneg secs Hs) as (Hy & Hb & Hr). unfold for_years.
  destruct (rest (now secs)) as [[[[mo d] h] mi] s]. destruct Hr as (? & ? & ? & ? & ?).
  apply wf_seq, Forall_cons_2; [done|]. apply Forall_singleton, wf_x509_time; lia.
Qed.

Lemma wf_name b cn : wf cn -> wf (name b cn).
Proof.
  intros Hcn. destruct wf_oids as (_ & _ & _ & _ & _ & _ & O1 & O2 & O3 & _).
  assert (wf ORG) by apply wf_str_bytes. unfold name, utf8, printable.
  destruct b; cbn [app]; auto 20 with wfdb.
Qed.

Lemma wf_ec_spki o q : wf o -> wf q -> wf (ec_spki o q).
Proof.
  intros Ho Hq. destruct wf_oids as (_ & _ & _ & _ & _ & _ & _ & _ & _ & O1 & _).
  unfold ec_spki. auto 20 with wfdb.
Qed.

Lemma wf_hex b : u8 b -> wf (hex2 b).
Proof.
  intros Hb. unfold hex2, hex_digit. apply wf_cons; [|apply wf_cons; [|apply wf_nil]].
  all: case_match; dlia.
Qed.

Lemma len_hex (l : bytes) : len (concat (hex2 <$> l)) = 2 * len l.
Proof. induction l as [|x l IH]; [done|]. cbn [fmap list_fmap concat]. 
  rewrite len_app, len_cons, IH. change (len (hex2 x)) with 2. lia.
Qed.

Lemma wf_hexs (l : bytes) : wf l -> wf (concat (hex2 <$> l)).
Proof. intros H. apply wf_concat, Forall_fmap. eapply Forall_impl; [exact H|]. apply wf_hex. Qed.

(** Every certificate of a chain fits its share of the store. *)
Lemma build_chain_ok secs st_pub serial r :
  0 <= secs -> len st_pub = 32 -> wf st_pub -> len serial = 8 -> wf serial ->
  wp (build_chain secs st_pub serial r) (fun '(certs, _) =>
    exists device xca cross root, certs = [device; xca; cross; root] /\ Forall wf certs /\
      Forall (fun c => len c <= 830) certs).
Proof.
  intros Hsecs Hlp Hwp Hls Hws. unfold build_chain.
  destruct wf_oids as (_ & _ & _ & _ & _ & _ & _ & _ & _ & _ & O384 & O521 & OX).
  destruct (p521_random r) as [rk r1]. apply wp_bind. eapply wp_mono; [apply key_id_ok|].
  intros rkid [Hrk Wrk]. destruct (p384_random r1) as [mk r2]. apply wp_bind.
  eapply wp_mono; [apply key_id_ok|]. intros mkid [Hmk Wmk].
  destruct (p384_random r2) as [xk r3]. apply wp_bind. eapply wp_mono; [apply key_id_ok|].
  intros xkid [Hxk Wxk]. apply wp_ret. do 4 eexists. split; [done|].
  assert (Hrn := len_name true ROOT_CN). assert (Hxn := len_name true XCA_CN).
  assert (Wrn : wf (name true ROOT_CN)) by apply wf_name, wf_str_bytes.
  assert (Wxn : wf (name true XCA_CN)) by apply wf_name, wf_str_bytes.
  change (len ROOT_CN) with 22 in Hrn. change (len XCA_CN) with 19 in Hxn.
  destruct (p521_point_len rk) as [Lrp Wrp], (p384_point_len mk) as [Lmp Wmp],
    (p384_point_len xk) as [Lxp Wxp].
  set (cn := str_bytes "TROPIC01Sim eSE " ++ concat (hex2 <$> serial)).
  assert (Hcn : len cn = 32).
  { unfold cn. rewrite len_app, len_hex, Hls. done. }
  assert (Wcn : wf cn) by (apply wf_app; [apply wf_str_bytes|by apply wf_hexs]).
  pose proof (len_name false cn) as Hdn. pose proof (wf_name false cn Wcn) as Wdn. clearbody cn.
  assert (Wdev : wf (seq [seq [oid OID_X25519]; bit_string st_pub 0])) by auto 20 with wfdb.
  assert (Hdev : len (seq [seq [oid OID_X25519]; bit_string st_pub 0]) <= 60).
  { unfold seq, oid, bit_string, OID_X25519. len_bound. lia. }
  assert (Hbc : forall a b, len (basic_constraints a b) <= 13).
  { intros [] [p|]; unfold basic_constraints, seq; cbn [negb]; len_bound; try lia.
    pose proof (len_integer [p]) as Hi. rewrite len_cons, len_nil in Hi. lia. }
  assert (Wbc : forall a b, (forall p, b = Some p -> u8 p) -> wf (basic_constraints a b)).
  { intros [] [p|] Hb; unfold basic_constraints; cbn [negb app]; auto 20 with wfdb. }
  assert (Hfy := fun n => len_for_years secs n).
  assert (Wfy : forall n, 0 <= n -> wf (for_years (now secs) n)) by (intros; by apply wf_for_years).
  assert (Hbs : forall a u, len (bit_string [a] u) <= 6) by (intros; apply (len_bit_string [a] u)).
  split; (apply Forall_cons_2; [|apply Forall_cons_2; [|apply Forall_cons_2;
    [|apply Forall_cons_2; [|apply Forall_nil_2]]]]).
  1-4: apply wf_build_cert; unfold spec_wf;
    cbn [cs_serial cs_issuer_name cs_subject_name cs_validity cs_spki cs_basic_constraints
      cs_key_usage cs_ski cs_aki]; split_and!; try done; try (by intros ? [= <-]);
    try (by apply Wfy); try (by apply wf_ec_spki);
    try (apply Wbc; intros ? [= <-]; u_solve); auto 10 with wfdb.
  all: etransitivity; [apply len_build_cert|];
    cbn [cs_serial cs_issuer_name cs_subject_name cs_validity cs_spki cs_basic_constraints
      cs_key_usage cs_ski cs_aki opt_len].
  - pose proof (Hfy 20). pose proof (Hbc false None). pose proof (Hbs 8 3). rewrite len_cons. lia.
  - pose proof (Hfy 35). pose proof (Hbc true (Some 0)). pose proof (Hbs 4 2).
    pose proof (len_ec_spki OID_SECP384R1 (p384_point xk)) as Hk. rewrite Lxp in Hk.
    change (len OID_SECP384R1) with 5 in Hk. change (len [39; 17]) with 2. lia.
  - pose proof (Hfy 40). pose proof (Hbc true (Some 1)). pose proof (Hbs 6 1).
    pose proof (len_ec_spki OID_SECP384R1 (p384_point mk)) as Hk. rewrite Lmp in Hk.
    change (len OID_SECP384R1) with 5 in Hk. change (len [3; 233]) with 2. lia.
  - pose proof (Hfy 50). pose proof (Hbc true None). pose proof (Hbs 6 1).
    pose proof (len_ec_spki OID_SECP521R1 (p521_point rk)) as Hk. rewrite Lrp in Hk.
    change (len OID_SECP521R1) with 5 in Hk. change (len [101]) with 1. lia.
Qed.

(** ** The store *)

Lemma concat_len_bound (certs : list bytes) (n : Z) :
  Forall (fun c => len c <= n) certs -> len (concat certs) <= n * len certs.
Proof.
  induction 1 as [|c certs Hc _ IH]; [change (0 <= n * 0); lia|].
  cbn [concat]. rewrite len_app, len_cons, Z.mul_add_distr_l. lia.
Qed.

Definition length_fields (certs : list bytes) : bytes :=
  concat ((fun c => be_bytes 2 (as_u16 (len c))) <$> certs).

Lemma len_length_fields certs : len (length_fields certs) = 2 * len certs.
Proof.
  induction certs as [|c certs IH]; [done|]. unfold length_fields in *.
  cbn [fmap list_fmap concat]. rewrite len_app, len_be_bytes, len_cons, IH. lia.
Qed.

Lemma split_loop_spec (pre post certs1 : list bytes) (hd : bytes) :
  len hd = 2 -> Forall (fun c => len c < 65536) post -> Forall wf post ->
  certs1 = pre ++ post ->
  split_loop (length post) (hd ++ length_fields certs1 ++ concat certs1)
    (len pre) (2 + 2 * len certs1 + len (concat pre)) = Ret post.
Proof.
  intros Hh Hl Hw. revert pre certs1.
  induction Hl as [|c post Hc Hl IH]; intros pre certs1 Hcs; [done|].
  apply Forall_cons in Hw as [Hwc Hw]. pose proof (len_nonneg pre). pose proof (len_nonneg c).
  cbn [split_loop length].
  assert (Hf : length_fields certs1 = length_fields pre ++ be_bytes 2 (len c) ++ length_fields post).
  { rewrite Hcs. unfold length_fields. rewrite fmap_app, concat_app. cbn [fmap list_fmap concat].
    unfold as_u16. by rewrite Z.mod_small by lia. }
  assert (Hb : exists h l, be_bytes 2 (len c) = [h; l]) by (do 2 eexists; reflexivity).
  destruct Hb as (h & l & Eb).
  assert (Hcat : concat certs1 = concat pre ++ c ++ concat post).
  { by rewrite Hcs, concat_app. }
  assert (Hi : forall i x, idx [h; l] i = Ret x -> 0 <= i < 2 ->
    idx (hd ++ length_fields certs1 ++ concat certs1) (2 + 2 * len pre + i) = Ret x).
  { intros i x Hx Hi. rewrite idx_app_r by lia. rewrite Hf, Eb, <- !app_assoc.
    rewrite idx_app_r by (rewrite len_length_fields; lia). rewrite len_length_fields, Hh.
    rewrite idx_app_l by (change (len [h; l]) with 2; lia).
    by replace (2 + 2 * len pre + i - 2 - 2 * len pre) with i by lia. }
  rewrite <- (Z.add_0_r (2 + 2 * len pre)), (Hi 0 h) by (done || lia). cbn [rbind].
  replace (3 + 2 * len pre) with (2 + 2 * len pre + 1) by lia. rewrite (Hi 1 l) by (done || lia).
  cbn [rbind]. rewrite <- Eb, be_val_be_bytes by (change (256 ^ Z.of_nat 2) with 65536; lia).
  set (off := 2 + 2 * len certs1 + len (concat pre)).
  assert (Hpre : len (hd ++ length_fields certs1 ++ concat pre) = off).
  { rewrite !len_app, Hh, len_length_fields. unfold off. lia. }
  assert (Hwhole : hd ++ length_fields certs1 ++ concat certs1 =
    (hd ++ length_fields certs1 ++ concat pre) ++ c ++ concat post).
  { rewrite Hcat, <- !app_assoc. done. }
  assert (Hslice : slice (hd ++ length_fields certs1 ++ concat certs1) off (off + len c) = Ret c).
  { rewrite Hwhole. pose proof (len_nonneg (hd ++ length_fields certs1 ++ concat pre)).
    pose proof (len_nonneg (concat post)).
    rewrite slice_ret by (rewrite ?len_app in *; lia). f_equal.
    rewrite sub_app_r by lia. rewrite Hpre.
    replace (off - off) with 0 by lia. replace (off + len c - off) with (len c) by lia.
    apply sub_prefix. }
  rewrite Hslice. cbn [rbind].
  specialize (IH Hw (pre ++ [c]) certs1).
  replace (len pre + 1) with (len (pre ++ [c])) by (rewrite len_app; done).
  replace (off + len c) with (2 + 2 * len certs1 + len (concat (pre ++ [c]))).
  2: { rewrite concat_app, len_app. cbn [concat]. rewrite app_nil_r. unfold off. lia. }
  rewrite IH; [done|]. by rewrite Hcs, <- app_assoc.
Qed.

(** Provisioning builds a store of four certificates that fits the 30 blocks GET_INFO
    serves, so that its assertion never fails, and splitting the store gives the
    certificates back in order. *)
Theorem cert_store_roundtrip secs st_pub serial r :
  0 <= secs -> len st_pub = 32 -> wf st_pub -> len serial = 8 -> wf serial ->
  exists blob r' certs,
    build_cert_store secs st_pub serial r = Ret (blob, r') /\
    build_chain secs st_pub serial r = Ret (certs, r') /\ length certs = 4%nat /\
    wf blob /\ len blob <= CERT_STORE_BLOCKS * CERT_STORE_BLOCK_SIZE /\
    split_cert_store blob = Ret certs.
Proof.
  intros Hs Hlp Hwp Hls Hws.
  destruct (wp_elim _ _ (build_chain_ok secs st_pub serial r Hs Hlp Hwp Hls Hws))
    as ([certs r'] & E & (device & xca & cross & root & Ec & Hw & Hl)).
  assert (Hn : len certs = 4) by (by rewrite Ec).
  pose proof (concat_len_bound certs 830 Hl) as Hcl. rewrite Hn in Hcl.
  exists (cert_blob certs), r', certs.
  assert (Hblob : cert_blob certs = [1; 4] ++ length_fields certs ++ concat certs).
  { unfold cert_blob. by rewrite Hn. }
  assert (Hlen : len (cert_blob certs) <= CERT_STORE_BLOCKS * CERT_STORE_BLOCK_SIZE).
  { rewrite Hblob, !len_app, len_length_fields, Hn. change (len [1; 4]) with 2.
    unfold CERT_STORE_BLOCKS, CERT_STORE_BLOCK_SIZE. lia. }
  split. { unfold build_cert_store. rewrite E. cbn [rbind]. by rewrite (proj2 (Z.leb_le _ _)). }
  split; [done|]. split; [by rewrite Ec|].
  split.
  { rewrite Hblob. apply wf_app; [apply wf_cons; [u_solve|]; apply wf_cons; [u_solve|apply wf_nil]|].
    apply wf_app; [|by apply wf_concat]. apply wf_concat, Forall_fmap, Forall_true.
    intros. apply wf_be_bytes. }
  split; [done|]. unfold split_cert_store. rewrite Hblob.
  change (idx ([1; 4] ++ ?l) 1) with (Ret 4). cbn [rbind].
  assert (H4 : Z.to_nat 4 = length certs) by (by rewrite Ec). rewrite H4.
  pose proof (split_loop_spec [] certs certs [1; 4] eq_refl) as Hsp. rewrite Hn in Hsp.
  apply Hsp; [|done|done]. eapply Forall_impl; [exact Hl|]. cbn. lia.
Qed.
End certs_facts.
