(* ===== verification/TropicStore.v ===== *)
(** * TROPIC01Sim: the store and its provisioning

    [object_store/mod.rs]: a fresh device, and its life on disk ([Host]).  A provisioned
    device satisfies the invariant of the chip. *)

From S2P Require Import Prelude.
From S2P Require Import Host.
From S2P Require Import Crates.
From S2P Require Import TropicTypes.
From S2P Require Import TropicFrame.
From S2P Require Import TropicL3Facts.
From S2P Require Import TropicCerts.

Record Provisioning := mkProvisioning {
  prov_personality : Personality;
  wolfssl_fixtures : bool;
}.

(** [b\[i\] = f(i)] for every index of a 32-byte buffer. *)
Definition table32 (f : Z -> Z) : bytes := f ∘ Z.of_nat <$> List.seq 0 32.

Definition wolfssl_fixture_aes_key : bytes := table32 (fun i => as_u8 (as_u8 i * 0x11)).
Definition wolfssl_fixture_aes_iv : bytes := table32 (fun i => as_u8 i).
Definition wolfssl_fixture_ed25519_priv : bytes := table32 (fun i => Z.lor 0x40 (Z.land (as_u8 i) 0x3F)).

Section store.
Context `{C : Crates} {N : NistKeys} {F : FileSystem Device}.

Definition wolfssl_fixture_ed25519_pub : bytes := ed25519_verifying_key wolfssl_fixture_ed25519_priv.

Record Store := mkStore {
  device : Device;
  store_path : option path;
}.

Definition random32 (r : rng) : bytes * rng := fill_bytes 32 r.

(** [secs] is the system time. *)
Definition provision (prov : Provisioning) (secs : Z) (r : rng) : res (Device * rng) :=
  let p := prov_personality prov in
  let '(serial, r) := fill_bytes 8 r in
  let '(st_priv, r) := random32 r in
  let st_pub := x25519_public st_priv in
  let! '(cert_store, r) := build_cert_store secs st_pub serial r in
  let pairing_slots : gmap Z PairingSlot := <[0 := mkPairingSlot (default_sh0_pub p) Written]> ∅ in
  let! r_config := set_idx (vec_repeat 0xffffffff CONFIG_REGISTERS) 0 (default_r_config_start_up p) in
  let! i_config := set_idx (vec_repeat 0xffffffff CONFIG_REGISTERS) 0 (default_i_config_start_up p) in
  let r_mem_slots : gmap Z bytes :=
    if wolfssl_fixtures prov then
      <[3 := wolfssl_fixture_ed25519_priv]> (<[2 := wolfssl_fixture_ed25519_pub]>
        (<[1 := wolfssl_fixture_aes_iv]> (<[0 := wolfssl_fixture_aes_key]> ∅)))
    else ∅ in
  let! chip_id := chip_id p serial in
  let '(key0, r) := random32 r in
  let '(key1, r) := random32 r in
  Ret (mkDevice STORE_FORMAT_VERSION p chip_id st_priv st_pub cert_store pairing_slots r_config
         i_config ∅ r_mem_slots ∅ ∅ key0 key1, r).

Definition persist (self : Store) (f : fs) : Result fs io_error :=
  match store_path self with
  | None => Ok f
  | Some p => fs_write f p (device self)
  end.

Definition load_or_init (p : path) (prov : Provisioning) (f : fs) (secs : Z) (r : rng)
  : res (Result Store io_error * fs * rng) :=
  match fs_read f p with
  | Some (Err _) => Ret (Err InvalidData, f, r)
  | Some (Ok d) =>
      if negb (format_version d =? STORE_FORMAT_VERSION) then Ret (Err InvalidData, f, r)
      else Ret (Ok (mkStore d (Some p)), f, r)
  | None =>
      let! '(d, r) := provision prov secs r in
      let store := mkStore d (Some p) in
      match persist store f with
      | Ok f => Ret (Ok store, f, r)
      | Err e => Ret (Err e, f, r)
      end
  end.

Definition fresh_with (prov : Provisioning) (secs : Z) (r : rng) : res (Store * rng) :=
  let! '(d, r) := provision prov secs r in
  Ret (mkStore d None, r).

Definition create (p : path) (prov : Provisioning) (f : fs) (secs : Z) (r : rng)
  : res (Result Store io_error * fs * rng) :=
  let! '(d, r) := provision prov secs r in
  let store := mkStore d (Some p) in
  match persist store f with
  | Ok f => Ret (Ok store, f, r)
  | Err e => Ret (Err e, f, r)
  end.

(** ** Provisioning establishes the invariant *)

Context {COk : CratesOk C} {NOk : NistKeysOk}.

Lemma wp_copy_id l a b src (k : bytes -> res bytes) (Q : bytes -> Prop) :
  len l = 128 -> wf l -> 0 <= a <= b -> b <= 128 -> len src = b - a -> wf src ->
  (forall l', len l' = 128 -> wf l' -> wp (k l') Q) ->
  wp (let! l' := copy_from_slice l a b src in k l') Q.
Proof.
  intros Hl Hw Ha Hb Hs Hws Hk. apply wp_bind, wp_copy_from_slice; [lia|lia|done|].
  apply Hk; [rewrite len_splice; lia|by apply wf_splice].
Qed.

Lemma wp_set_id l i x (k : bytes -> res bytes) (Q : bytes -> Prop) :
  len l = 128 -> wf l -> 0 <= i < 128 -> u8 x ->
  (forall l', len l' = 128 -> wf l' -> wp (k l') Q) ->
  wp (let! l' := set_idx l i x in k l') Q.
Proof.
  intros Hl Hw Hi Hx Hk. apply wp_bind, wp_set_idx; [lia|].
  apply Hk; [by rewrite len_insert|by apply wf_insert].
Qed.

Ltac wf_list := first [ by apply wf_vec_repeat; u_solve | by apply wf_str_bytes
  | repeat (apply wf_cons; [u_solve|]); apply wf_nil ].

Lemma chip_id_ok p serial :
  len serial = 8 -> wf serial -> wp (chip_id p serial) (fun id => len id = 128 /\ wf id).
Proof.
  intros Hl Hw. unfold chip_id.
  do 5 (apply wp_bind, wp_idx_wf; [done|lia|]; intros ? ? _).
  assert (Hz : len (vec_repeat 0 128) = 128 /\ wf (vec_repeat 0 128)) by (split; auto with wfdb).
  destruct Hz as [Hz Hzw]. set (id := vec_repeat 0 128) in *. clearbody id.
  assert (Hlast : forall l a b src, len l = 128 -> wf l -> 0 <= a <= b -> b <= 128 ->
    len src = b - a -> wf src -> wp (copy_from_slice l a b src) (fun id => len id = 128 /\ wf id)).
  { intros. apply wp_copy_from_slice; [lia|lia|done|]. split; [rewrite len_splice; lia|by apply wf_splice]. }
  destruct (part p).
  all: repeat first
    [ apply wp_copy_id; [assumption|assumption|lia|lia|done|wf_list|]; intros ? ? ?
    | apply wp_set_id; [assumption|assumption|lia|u_solve|]; intros ? ? ?
    | apply wp_bind, wp_idx_wf; [done|lia|]; intros ? ? _
    | apply Hlast; [assumption|assumption|lia|lia|done|wf_list] ].
Qed.

Lemma default_sh0_ok p : key32 (default_sh0_pub p).
Proof.
  destruct p; (split; [done|]); cbn; unfold LT_SH0PUB_ENG_SAMPLE, LT_SH0PUB_PROD0; wf_list.
Qed.

Lemma table32_ok f : (forall i, u8 (f i)) -> key32 (table32 f).
Proof. intros Hf. split; [done|]. apply Forall_fmap, Forall_true. intros. apply Hf. Qed.

Lemma fixtures_ok :
  key32 wolfssl_fixture_aes_key /\ key32 wolfssl_fixture_aes_iv /\
  key32 wolfssl_fixture_ed25519_priv /\ key32 wolfssl_fixture_ed25519_pub.
Proof.
  split_and!; try (apply table32_ok; intros; apply u8_as_u8).
  - split; [done|]. vm_compute; wf_list.
  - split; [apply ed25519_vk_len|apply ed25519_vk_wf].
Qed.

Lemma random32_ok r : let '(k, _) := random32 r in key32 k.
Proof.
  pose proof (fill_bytes_len 32 r ltac:(lia)). pose proof (fill_bytes_wf 32 r).
  unfold random32. by destruct (fill_bytes 32 r).
Qed.

(** A fresh device satisfies the invariant of the chip, whatever the random bytes
    and the date: provisioning never panics, for any personality. *)
Theorem provision_ok prov secs r :
  0 <= secs ->
  wp (provision prov secs r) (fun '(d, _) => device_ok d /\
    personality d = prov_personality prov /\ format_version d = STORE_FORMAT_VERSION /\
    st_pub d = x25519_public (st_priv d) /\
    split_cert_store (cert_store d) <> Panic).
Proof.
  intros Hs. unfold provision.
  pose proof (fill_bytes_len 8 r ltac:(lia)) as Hls. pose proof (fill_bytes_wf 8 r) as Hws.
  destruct (fill_bytes 8 r) as [serial r1]. cbn [fst] in *.
  pose proof (random32_ok r1) as Hst. destruct (random32 r1) as [sp r2].
  destruct (cert_store_roundtrip secs (x25519_public sp) serial r2)
    as (blob & r3 & certs & -> & _ & _ & Hwb & _ & Hsplit);
    [done|apply x25519_public_len|apply x25519_public_wf|done|done|].
  cbn [rbind]. apply wp_bind, wp_set_idx; [done|]. apply wp_bind, wp_set_idx; [done|].
  apply wp_bind. eapply wp_mono; [by apply chip_id_ok|]. intros id [Hid Wid].
  pose proof (random32_ok r3) as Hk0. destruct (random32 r3) as [key0 r4].
  pose proof (random32_ok r4) as Hk1. destruct (random32 r4) as [key1 r5].
  set (p := prov_personality prov). destruct fixtures_ok as (X0 & X1 & X2 & X3).
  assert (Hreg : forall v, u32 v -> len (<[Z.to_nat 0 := v]> (vec_repeat 0xffffffff CONFIG_REGISTERS)) = 128 /\
    Forall u32 (<[Z.to_nat 0 := v]> (vec_repeat 0xffffffff CONFIG_REGISTERS))).
  { intros v Hv. split; [by rewrite len_insert|]. apply Forall_insert; [|done].
    apply Forall_replicate. u_solve. }
  apply wp_ret. split; [|split_and!; try done; cbn; by rewrite Hsplit].
  split; cbn [dev_chip_id st_priv st_pub cert_store pairing_slots r_config i_config ecc_slots
    r_mem_slots mcounters macandd_slots personality macandd_key0 macandd_key1]; try done.
  - split; [done|]. split; [apply x25519_public_len|apply x25519_public_wf].
  - apply Hreg. unfold p. destruct (prov_personality prov); cbn; u_solve.
  - apply Hreg. unfold p. destruct (prov_personality prov); cbn; u_solve.
  - apply map_Forall_insert_2; [|apply map_Forall_empty]. split; [lia|]. apply default_sh0_ok.
  - assert (Hm : forall k l, 0 <= k <= 511 -> key32 l -> r_mem_ok p k l).
    { intros k l Hk [Hl Hw]. split; [done|]. split; [|done]. rewrite Hl. unfold p.
      destruct (prov_personality prov); cbn; lia. }
    destruct (wolfssl_fixtures prov); [|apply map_Forall_empty].
    repeat (apply map_Forall_insert_2; [apply Hm; [lia|done]|]). apply map_Forall_empty.
Qed.

(** A store that was just created is what a later start loads from its file. *)
Theorem create_then_load {FOk : FileSystemOk F} p prov prov2 f secs r store f' r' secs2 r2 :
  0 <= secs ->
  create p prov f secs r = Ret (Ok store, f', r') ->
  load_or_init p prov2 f' secs2 r2 = Ret (Ok store, f', r2) /\ device_ok (device store).
Proof.
  intros Hs. unfold create. pose proof (provision_ok prov secs r Hs) as Hp.
  destruct (provision prov secs r) as [[d r1]|]; [|done]. destruct Hp as (Hd & _ & Hv & _).
  cbn [rbind]. unfold persist. cbn [store_path device].
  destruct (fs_write f p d) as [f1|e] eqn:E; [|done]. intros [= <- <- <-].
  split; [|done]. unfold load_or_init. rewrite (fs_read_write _ _ _ _ E), Hv. done.
Qed.
End store.
