(* ===== verification/TropicChip.v ===== *)
(** * TROPIC01Sim: the chip on the SPI bus

    [chip.rs]: the L1 byte exchange and the L2 layer.  [transfer] clocks bytes
    through the chip; a complete request frame is executed when its last byte
    arrives, and the response frames it queues are polled by later transactions. *)

From S2P Require Import Prelude.
From S2P Require Import Crates.
From S2P Require Import TropicTypes.
From S2P Require Import TropicFrame.
From S2P Require Import TropicL3.
From S2P Require Import TropicSession.
From S2P Require Import TropicGetInfo.

Module chip_status.
Definition READY : Z := 0x01.
Definition ALARM : Z := 0x02.
Definition STARTUP : Z := 0x04.
End chip_status.

Module req.
Definition GET_INFO : Z := 0x01.
Definition HANDSHAKE : Z := 0x02.
Definition ENCRYPTED_CMD : Z := 0x04.
Definition ENCRYPTED_SESSION_ABT : Z := 0x08.
Definition RESEND : Z := 0x10.
Definition SLEEP : Z := 0x20.
Definition GET_LOG : Z := 0xa2.
Definition STARTUP : Z := 0xb3.
End req.

Definition SLEEP_KIND_SLEEP : Z := 0x05.
Definition STARTUP_REBOOT : Z := 0x01.
Definition STARTUP_MAINTENANCE_REBOOT : Z := 0x03.
Definition L3_SIZE_LEN : Z := 2.
Definition L3_TAG_LEN : Z := 16.

Inductive Mode := Application | Maintenance | Alarm.
Inductive Phase := Idle | First | PRequest | PResponse | NoResponse.

#[export] Instance mode_eq_dec : EqDecision Mode.
Proof. solve_decision. Defined.
#[export] Instance phase_eq_dec : EqDecision Phase.
Proof. solve_decision. Defined.

Record Chip := mkChip {
  c_personality : Personality;
  c_mode : Mode;
  alarm_fresh : bool;
  c_session : Session;
  c_phase : Phase;
  c_request : bytes;
  c_queue : list bytes;
  c_cursor : Z;
  last_response : option bytes;
  busy_polls : Z;
  busy_left : Z;
  l3_packet : bytes;
  l3_expected : Z;
  active_config_of : option (list Z);
  store_dirty : bool;
  c_l3_state : L3State;
}.

(** Field updates. *)
Definition set_personality (self : Chip) (v : Personality) : Chip :=
  mkChip v (c_mode self) (alarm_fresh self) (c_session self) (c_phase self) (c_request self)
    (c_queue self) (c_cursor self) (last_response self) (busy_polls self) (busy_left self)
    (l3_packet self) (l3_expected self) (active_config_of self) (store_dirty self) (c_l3_state
    self).
Definition set_mode (self : Chip) (v : Mode) : Chip :=
  mkChip (c_personality self) v (alarm_fresh self) (c_session self) (c_phase self) (c_request
    self) (c_queue self) (c_cursor self) (last_response self) (busy_polls self) (busy_left self)
    (l3_packet self) (l3_expected self) (active_config_of self) (store_dirty self) (c_l3_state
    self).
Definition set_alarm_fresh (self : Chip) (v : bool) : Chip :=
  mkChip (c_personality self) (c_mode self) v (c_session self) (c_phase self) (c_request self)
    (c_queue self) (c_cursor self) (last_response self) (busy_polls self) (busy_left self)
    (l3_packet self) (l3_expected self) (active_config_of self) (store_dirty self) (c_l3_state
    self).
Definition set_session (self : Chip) (v : Session) : Chip :=
  mkChip (c_personality self) (c_mode self) (alarm_fresh self) v (c_phase self) (c_request
    self) (c_queue self) (c_cursor self) (last_response self) (busy_polls self) (busy_left self)
    (l3_packet self) (l3_expected self) (active_config_of self) (store_dirty self) (c_l3_state
    self).
Definition set_phase (self : Chip) (v : Phase) : Chip :=
  mkChip (c_personality self) (c_mode self) (alarm_fresh self) (c_session self) v (c_request
    self) (c_queue self) (c_cursor self) (last_response self) (busy_polls self) (busy_left self)
    (l3_packet self) (l3_expected self) (active_config_of self) (store_dirty self) (c_l3_state
    self).
Definition set_request (self : Chip) (v : bytes) : Chip :=
  mkChip (c_personality self) (c_mode self) (alarm_fresh self) (c_session self) (c_phase self)
    v (c_queue self) (c_cursor self) (last_response self) (busy_polls self) (busy_left self)
    (l3_packet self) (l3_expected self) (active_config_of self) (store_dirty self) (c_l3_state
    self).
Definition set_queue (self : Chip) (v : list bytes) : Chip :=
  mkChip (c_personality self) (c_mode self) (alarm_fresh self) (c_session self) (c_phase self)
    (c_request self) v (c_cursor self) (last_response self) (busy_polls self) (busy_left self)
    (l3_packet self) (l3_expected self) (active_config_of self) (store_dirty self) (c_l3_state
    self).
Definition set_cursor (self : Chip) (v : Z) : Chip :=
  mkChip (c_personality self) (c_mode self) (alarm_fresh self) (c_session self) (c_phase self)
    (c_request self) (c_queue self) v (last_response self) (busy_polls self) (busy_left self)
    (l3_packet self) (l3_expected self) (active_config_of self) (store_dirty self) (c_l3_state
    self).
Definition set_last_response (self : Chip) (v : option bytes) : Chip :=
  mkChip (c_personality self) (c_mode self) (alarm_fresh self) (c_session self) (c_phase self)
    (c_request self) (c_queue self) (c_cursor self) v (busy_polls self) (busy_left self)
    (l3_packet self) (l3_expected self) (active_config_of self) (store_dirty self) (c_l3_state
    self).
Definition set_busy_polls (self : Chip) (v : Z) : Chip :=
  mkChip (c_personality self) (c_mode self) (alarm_fresh self) (c_session self) (c_phase self)
    (c_request self) (c_queue self) (c_cursor self) (last_response self) v (busy_left self)
    (l3_packet self) (l3_expected self) (active_config_of self) (store_dirty self) (c_l3_state
    self).
Definition set_busy_left (self : Chip) (v : Z) : Chip :=
  mkChip (c_personality self) (c_mode self) (alarm_fresh self) (c_session self) (c_phase self)
    (c_request self) (c_queue self) (c_cursor self) (last_response self) (busy_polls self) v
    (l3_packet self) (l3_expected self) (active_config_of self) (store_dirty self) (c_l3_state
    self).
Definition set_l3_packet (self : Chip) (v : bytes) : Chip :=
  mkChip (c_personality self) (c_mode self) (alarm_fresh self) (c_session self) (c_phase self)
    (c_request self) (c_queue self) (c_cursor self) (last_response self) (busy_polls self)
    (busy_left self) v (l3_expected self) (active_config_of self) (store_dirty self) (c_l3_state
    self).
Definition set_l3_expected (self : Chip) (v : Z) : Chip :=
  mkChip (c_personality self) (c_mode self) (alarm_fresh self) (c_session self) (c_phase self)
    (c_request self) (c_queue self) (c_cursor self) (last_response self) (busy_polls self)
    (busy_left self) (l3_packet self) v (active_config_of self) (store_dirty self) (c_l3_state
    self).
Definition set_active_config_of (self : Chip) (v : option (list Z)) : Chip :=
  mkChip (c_personality self) (c_mode self) (alarm_fresh self) (c_session self) (c_phase self)
    (c_request self) (c_queue self) (c_cursor self) (last_response self) (busy_polls self)
    (busy_left self) (l3_packet self) (l3_expected self) v (store_dirty self) (c_l3_state self).
Definition set_store_dirty (self : Chip) (v : bool) : Chip :=
  mkChip (c_personality self) (c_mode self) (alarm_fresh self) (c_session self) (c_phase self)
    (c_request self) (c_queue self) (c_cursor self) (last_response self) (busy_polls self)
    (busy_left self) (l3_packet self) (l3_expected self) (active_config_of self) v (c_l3_state
    self).
Definition set_l3_state (self : Chip) (v : L3State) : Chip :=
  mkChip (c_personality self) (c_mode self) (alarm_fresh self) (c_session self) (c_phase self)
    (c_request self) (c_queue self) (c_cursor self) (last_response self) (busy_polls self)
    (busy_left self) (l3_packet self) (l3_expected self) (active_config_of self) (store_dirty
    self) v.

Definition new (p : Personality) : Chip :=
  mkChip p Application false session_new Idle [] [] 0 None 1 0 [] 0 None false L3State_default.

Definition take_store_dirty (self : Chip) : Chip * bool :=
  (set_store_dirty self false, store_dirty self).

Definition active_config (self : Chip) (d : Device) : Chip * list Z :=
  match active_config_of self with
  | Some c => (self, c)
  | None => (set_active_config_of self (Some (effective_config d)), effective_config d)
  end.

Definition power_cycle (self : Chip) : Chip :=
  let busy := busy_polls self in
  set_busy_polls (new (c_personality self)) busy.

Definition read_chip_status (self : Chip) : Chip * Z :=
  match c_mode self with
  | Application => (self, chip_status.READY)
  | Maintenance => (self, Z.lor chip_status.READY chip_status.STARTUP)
  | Alarm =>
      if alarm_fresh self
      then (set_alarm_fresh self false, Z.lor chip_status.READY chip_status.ALARM)
      else (self, chip_status.ALARM)
  end.

Definition csn_low (self : Chip) : Chip :=
  let self := set_phase self First in
  let self := set_request self [] in
  set_cursor self 0.

Definition csn_high (self : Chip) : Chip :=
  let self :=
    if bool_decide (c_phase self = PResponse) then
      match c_queue self with
      | front :: rest =>
          if len front <=? c_cursor self
          then set_queue (set_last_response self (Some front)) rest
          else self
      | [] => self
      end
    else self in
  let self := set_cursor self 0 in
  set_phase self Idle.

Definition drop_session (self : Chip) : Chip :=
  let self := set_session self (abort (c_session self)) in
  let self := set_l3_packet self [] in
  set_l3_expected self 0.

Definition reboot (self : Chip) (m : Mode) : Chip :=
  let self := drop_session self in
  let self := set_mode self m in
  let self := set_active_config_of self None in
  set_l3_state self L3State_default.

Definition gen_err : res bytes := build_response status.GEN_ERR [].

(** [vec![f]]. *)
Definition vec1 (f : res bytes) : res (list bytes) := let! x := f in Ret [x].
Definition vec2 (f g : res bytes) : res (list bytes) :=
  let! x := f in
  let! y := g in
  Ret [x; y].

(** The RESULT_CONT / RESULT_OK frames of a wrapped result. *)
Fixpoint result_frames (cs : list bytes) : res (list bytes) :=
  match cs with
  | [] => Ret []
  | c :: rest =>
      let st := if bool_decide (rest = []) then status.RESULT_OK else status.RESULT_CONT in
      let! f := build_response st c in
      let! fs := result_frames rest in
      Ret (f :: fs)
  end.

Section chip.
Context `{C : Crates}.

(** What a method of [Chip] leaves: the chip, the device of the store, the
    operating system's generator, and the method's value. *)
Definition out (A : Type) : Type := res (Chip * Device * rng * A).

Definition chip_handshake (self : Chip) (d : Device) (r : rng) (data : bytes) : out (list bytes) :=
  if negb (len data =? HANDSHAKE_REQ_LEN) then
    let! fs := vec1 gen_err in
    Ret (self, d, r, fs)
  else
    let! d32 := idx data 32 in
    if (3 <? d32) && bad_pairing_index_alarms (c_personality self) then
      let self := drop_session self in
      let self := set_mode self Alarm in
      let self := set_alarm_fresh self true in
      Ret (self, d, r, [])
    else
      let self := set_l3_packet self [] in
      let self := set_l3_expected self 0 in
      let! '(s, o, r) := handshake (c_session self) d data r in
      let self := set_session self s in
      match o with
      | Ok body =>
          let! fs := vec1 (build_response status.REQUEST_OK body) in
          Ret (self, d, r, fs)
      | Err _ =>
          let self := set_session self (abort (c_session self)) in
          let! fs := vec1 (build_response status.HSK_ERR []) in
          Ret (self, d, r, fs)
      end.

Definition encrypted_cmd (self : Chip) (d : Device) (r : rng) (chunk : bytes) : out (list bytes) :=
  if negb (is_open (c_session self)) then
    let self := set_l3_packet self [] in
    let self := set_l3_expected self 0 in
    let! fs := vec1 (build_response status.NO_SESSION []) in
    Ret (self, d, r, fs)
  else
    let start := bool_decide (l3_packet self = []) in
    if start && (len chunk <? L3_SIZE_LEN) then
      let! fs := vec1 gen_err in
      Ret (self, d, r, fs)
    else
      let! self :=
        if start then
          let! c0 := idx chunk 0 in
          let! c1 := idx chunk 1 in
          let size := le_val [c0; c1] in
          Ret (set_l3_expected self (L3_SIZE_LEN + size + L3_TAG_LEN))
        else Ret self in
      let self := set_l3_packet self (l3_packet self ++ chunk) in
      if len (l3_packet self) <? l3_expected self then
        let! fs := vec1 (build_response status.REQUEST_CONT []) in
        Ret (self, d, r, fs)
      else
        let packet := l3_packet self in
        let self := set_l3_packet self [] in
        let complete := len packet =? l3_expected self in
        let self := set_l3_expected self 0 in
        let ack := build_response status.REQUEST_OK [] in
        if negb complete then
          let self := drop_session self in
          let! fs := vec2 ack gen_err in
          Ret (self, d, r, fs)
        else
          let! '(s, o) := unwrap_l3_request (c_session self) packet in
          let self := set_session self s in
          match o with
          | Err _ =>
              let self := drop_session self in
              let! fs := vec2 ack (build_response status.TAG_ERR []) in
              Ret (self, d, r, fs)
          | Ok plaintext =>
              let pkey := match keys (c_session self) with
                          | Some k => pkey_index k
                          | None => 0
                          end in
              let '(self, cfg) := active_config self d in
              let! '(ctx, l3, outcome) :=
                dispatch (mkCtx d cfg (c_personality self) pkey r) (c_l3_state self) plaintext in
              let d := dev ctx in
              let r := ctx_rng ctx in
              let self := set_l3_state self l3 in
              let self :=
                match plaintext with
                | id :: _ => if mutates_store id then set_store_dirty self true else self
                | [] => self
                end in
              match outcome with
              | GenErr =>
                  let self := drop_session self in
                  let! fs := vec2 ack gen_err in
                  Ret (self, d, r, fs)
              | Result_ result =>
                  let! '(s, w) := wrap_l3_response (c_session self) result in
                  let self := set_session self s in
                  match w with
                  | Err _ =>
                      let self := drop_session self in
                      let! fs := vec2 ack gen_err in
                      Ret (self, d, r, fs)
                  | Ok wire =>
                      let! a := ack in
                      let! fs := result_frames (chunks MAX_L2_DATA_SIZE wire) in
                      Ret (self, d, r, a :: fs)
                  end
              end
          end.

(** Execute one L2 request and return the response frames to queue. *)
Definition process (self : Chip) (d : Device) (r : rng) (raw : bytes) : out (list bytes) :=
  let reply f self :=
    let! fs := vec1 f in
    Ret (self, d, r, fs) in
  let! p := parse_request raw in
  match p with
  | Err BadCrc => reply (build_response status.CRC_ERR []) self
  | Err _ => reply (build_response status.GEN_ERR []) self
  | Ok rq =>
      let data := req_data rq in
      let id := req_id rq in
      let app := bool_decide (c_mode self = Application) in
      if id =? req.RESEND then reply (build_response status.GEN_ERR []) self
      else if id =? req.GET_INFO then
        if negb (len data =? 2) then reply gen_err self
        else
          let! d0 := idx data 0 in
          let! d1 := idx data 1 in
          reply (handle d (bool_decide (c_mode self = Maintenance)) d0 d1) self
      else if id =? req.GET_LOG then
        if negb (bool_decide (data = [])) then reply gen_err self
        else reply (build_response status.REQUEST_OK (fw_log (c_personality self))) self
      else if id =? req.STARTUP then
        if negb (len data =? 1) then reply gen_err self
        else
          let! d0 := idx data 0 in
          if d0 =? STARTUP_REBOOT then
            reply (build_response status.REQUEST_OK []) (reboot self Application)
          else if d0 =? STARTUP_MAINTENANCE_REBOOT then
            let '(self, cfg) := active_config self d in
            let! c0 := idx cfg (0x000 / 4) in
            let ena := negb (Z.land c0 (Z.shiftl 1 3) =? 0) in
            reply (build_response status.REQUEST_OK [])
              (reboot self (if ena then Maintenance else Application))
          else reply gen_err self
      else if app && (id =? req.HANDSHAKE) then chip_handshake self d r data
      else if app && (id =? req.ENCRYPTED_CMD) then encrypted_cmd self d r data
      else if app && (id =? req.ENCRYPTED_SESSION_ABT) then
        if negb (bool_decide (data = [])) then reply gen_err self
        else reply (build_response status.REQUEST_OK []) (drop_session self)
      else if app && (id =? req.SLEEP) then
        let! bad :=
          if negb (len data =? 1) then Ret true
          else
            let! d0 := idx data 0 in
            Ret (negb (d0 =? SLEEP_KIND_SLEEP)) in
        if bad then reply gen_err self
        else
          let '(self, cfg) := active_config self d in
          let! c6 := idx cfg (0x018 / 4) in
          if Z.land c6 1 =? 0 then reply (build_response status.RESP_DISABLED []) self
          else reply (build_response status.REQUEST_OK []) (drop_session self)
      else reply (build_response status.UNKNOWN_ERR []) self
  end.

Definition execute (self : Chip) (d : Device) (r : rng) (raw : bytes) : out unit :=
  if bool_decide (c_mode self = Alarm) then Ret (self, d, r, tt)
  else
    let! p := parse_request raw in
    let resend := match p with
                  | Ok rq => (req_id rq =? req.RESEND) && bool_decide (req_data rq = [])
                  | Err _ => false
                  end in
    let normal :=
      let! '(self, d, r, frames) := process self d r raw in
      let self := set_queue self frames in
      let self := set_busy_left self
        (if bool_decide (c_queue self = []) then 0 else busy_polls self) in
      Ret (self, d, r, tt) in
    if resend then
      match last_response self with
      | Some f =>
          let self := set_queue self (f :: c_queue self) in
          Ret (set_busy_left self (busy_polls self), d, r, tt)
      | None => normal
      end
    else normal.

Definition push_request_byte (self : Chip) (d : Device) (r : rng) (b : Z) : out unit :=
  let self := if len (c_request self) <? MAX_L2_FRAME_SIZE
              then set_request self (c_request self ++ [b]) else self in
  let! complete :=
    if 2 <=? len (c_request self) then
      let! n := idx (c_request self) 1 in
      Ret (len (c_request self) =? n + 4)
    else Ret false in
  if complete then
    let raw := c_request self in
    let self := set_request self [] in
    let! '(self, d, r, _) := execute self d r raw in
    Ret (set_phase self NoResponse, d, r, tt)
  else Ret (self, d, r, tt).

Definition first_byte (self : Chip) (d : Device) (r : rng) (b : Z) : out Z :=
  let '(self, cs) := read_chip_status self in
  if b =? GET_RESPONSE_REQ_ID then
    if bool_decide (c_mode self = Alarm) then Ret (set_phase self NoResponse, d, r, cs)
    else if negb (bool_decide (c_queue self = [])) && (0 <? busy_left self) then
      let self := set_busy_left self (busy_left self - 1) in
      let self := set_phase self NoResponse in
      if bool_decide (c_mode self = Application) && busy_poll_ready (c_personality self)
      then Ret (self, d, r, cs)
      else Ret (self, d, r, Z.land cs (Z.lxor 0xff chip_status.READY))
    else if bool_decide (c_queue self = []) then Ret (set_phase self NoResponse, d, r, cs)
    else
      let self := set_phase self PResponse in
      Ret (set_cursor self 0, d, r, cs)
  else
    let self := set_phase self PRequest in
    let! '(self, d, r, _) := push_request_byte self d r b in
    Ret (self, d, r, cs).

(** One byte of a transaction. *)
Definition clock (self : Chip) (d : Device) (r : rng) (b : Z) : out Z :=
  match c_phase self with
  | Idle => Ret (self, d, r, 0xff)
  | First => first_byte self d r b
  | PRequest =>
      let! '(self, d, r, _) := push_request_byte self d r b in
      Ret (self, d, r, 0xff)
  | PResponse =>
      let o := match c_queue self with
               | f :: _ => default 0xff (f !! Z.to_nat (c_cursor self))
               | [] => 0xff
               end in
      Ret (set_cursor self (c_cursor self + 1), d, r, o)
  | NoResponse => Ret (self, d, r, status.NO_RESP)
  end.

(** Clock [mosi] through the chip and return the MISO bytes. *)
Fixpoint transfer (self : Chip) (d : Device) (r : rng) (mosi : bytes) : out bytes :=
  match mosi with
  | [] => Ret (self, d, r, [])
  | b :: mosi =>
      let! '(self, d, r, o) := clock self d r b in
      let! '(self, d, r, miso) := transfer self d r mosi in
      Ret (self, d, r, o :: miso)
  end.
End chip.
