(* ===== verification/TropicChipFacts.v ===== *)
(** * TROPIC01Sim: the chip never panics and keeps its invariant

    [chip_ok] ties the volatile state to the device; [transfer_safe] runs any byte
    sequence, in any phase and mode, through the chip. *)

From S2P Require Import Prelude.
From S2P Require Import Crates.
From S2P Require Import TropicTypes.
From S2P Require Import TropicFrame.
From S2P Require Import TropicL3.
From S2P Require Import TropicL3Facts.
From S2P Require Import TropicL3Props.
From S2P Require Import TropicSession.
From S2P Require Import TropicGetInfo.
From S2P Require Import TropicChip.

Section chip_facts.
Context `{C : Crates} {COk : CratesOk C}.

(** ** The invariant *)

Record chip_ok (c : Chip) (d : Device) : Prop := {
  ck_dev : device_ok d;
  ck_pers : c_personality c = personality d;
  ck_session : session_ok (c_session c);
  ck_request : wf (c_request c);
  ck_queue : Forall frame_ok (c_queue c);
  ck_last : forall f, last_response c = Some f -> frame_ok f;
  ck_cursor : 0 <= c_cursor c;
  ck_packet : wf (l3_packet c);
  ck_config : forall l, active_config_of c = Some l -> len l = 128;
}.

(** What a step may do to the device: only what [device_le] allows, and only with
    the dirty flag set. *)
Record step_ok (c : Chip) (d : Device) (c' : Chip) (d' : Device) : Prop := {
  so_ok : chip_ok c' d';
  so_le : device_le d d';
  so_dirty : store_dirty c = true -> store_dirty c' = true;
  so_clean : store_dirty c' = false -> d' = d;
}.

Lemma step_ok_refl c d : chip_ok c d -> step_ok c d c d.
Proof. by split. Qed.

Lemma step_ok_trans c1 d1 c2 d2 c3 d3 :
  step_ok c1 d1 c2 d2 -> step_ok c2 d2 c3 d3 -> step_ok c1 d1 c3 d3.
Proof.
  intros [A1 A2 A3 A4] [B1 B2 B3 B4]. split; [done|by etransitivity|auto|].
  intros H. rewrite B4 by done. apply A4. destruct (store_dirty c2); [|done].
  by rewrite B3 in H.
Qed.

(** A change of the volatile state that keeps the dirty flag. *)
Lemma step_ok_volatile c d c' :
  chip_ok c' d -> store_dirty c' = store_dirty c -> step_ok c d c' d.
Proof. intros H E. split; [done|reflexivity|congruence|done]. Qed.

(** Close [chip_ok] of an updated chip, and the step to it. *)
Ltac chip_done :=
  match goal with
  | H : chip_ok _ _ |- chip_ok _ _ =>
      destruct H; split; simpl in *; try done; try lia; auto using wf_nil
  | |- step_ok _ _ _ _ => apply step_ok_volatile; [chip_done | done]
  end.

Lemma effective_config_len d : device_ok d -> len (effective_config d) = 128.
Proof.
  intros Hd. destruct (dok_r_config _ Hd) as [Hr _], (dok_i_config _ Hd) as [Hi _].
  unfold effective_config, len in *. rewrite length_zip_with. lia.
Qed.

Lemma active_config_ok c d :
  chip_ok c d -> let '(c', l) := active_config c d in chip_ok c' d /\ len l = 128 /\
    c' = set_active_config_of c (Some l).
Proof.
  intros H. unfold active_config. destruct (active_config_of c) as [l|] eqn:E.
  - split; [done|]. split; [by apply (ck_config _ _ H)|]. destruct c; simpl in *. by rewrite E.
  - split_and!; [|by apply effective_config_len, H|done].
    chip_done. intros l [= <-]. by apply effective_config_len.
Qed.

(** ** Response frames *)

Definition post (c : Chip) (d : Device) (o : Chip * Device * rng * list bytes) : Prop :=
  let '(c', d', _, fs) := o in step_ok c d c' d' /\ Forall frame_ok fs.

Lemma wp_vec1 f (Q : list bytes -> Prop) :
  wp f frame_ok -> (forall x, frame_ok x -> Q [x]) -> wp (vec1 f) Q.
Proof. intros Hf HQ. apply wp_bind. eapply wp_mono; [exact Hf|]. intros x Hx. by apply HQ. Qed.

Lemma wp_vec2 f g (Q : list bytes -> Prop) :
  wp f frame_ok -> wp g frame_ok -> (forall x y, frame_ok x -> frame_ok y -> Q [x; y]) ->
  wp (vec2 f g) Q.
Proof.
  intros Hf Hg HQ. apply wp_bind. eapply wp_mono; [exact Hf|]. intros x Hx.
  apply wp_bind. eapply wp_mono; [exact Hg|]. intros y Hy. by apply HQ.
Qed.

Lemma status_ok st :
  u8 st -> wp (build_response st []) frame_ok.
Proof. intros. apply build_response_ok; [done|apply wf_nil|done]. Qed.

Lemma gen_err_ok : wp gen_err frame_ok.
Proof. apply status_ok. unfold status.GEN_ERR. u_solve. Qed.

Lemma reply1 c d r f c' :
  wp f frame_ok -> step_ok c d c' d ->
  wp (let! fs := vec1 f in Ret (c', d, r, fs)) (post c d).
Proof.
  intros Hf Hs. apply wp_bind, wp_vec1; [done|]. intros x Hx. split; [done|].
  by apply Forall_singleton.
Qed.

Lemma reply2 c d d' r f g c' :
  wp f frame_ok -> wp g frame_ok -> step_ok c d c' d' ->
  wp (let! fs := vec2 f g in Ret (c', d', r, fs)) (post c d).
Proof.
  intros Hf Hg Hs. apply wp_bind, wp_vec2; [done..|]. intros x y Hx Hy. split; [done|].
  by apply Forall_cons_2, Forall_singleton.
Qed.

Ltac st_ok := apply status_ok;
  unfold status.REQUEST_OK, status.HSK_ERR, status.NO_SESSION, status.REQUEST_CONT,
    status.TAG_ERR, status.CRC_ERR, status.GEN_ERR, status.RESP_DISABLED, status.UNKNOWN_ERR;
  u_solve.

(** ** Handshake and encrypted commands *)

Lemma chip_handshake_ok c d r data :
  chip_ok c d -> wf data -> wp (chip_handshake c d r data) (post c d).
Proof.
  intros Hc Hd. unfold chip_handshake.
  destruct (Z.eqb_spec (len data) HANDSHAKE_REQ_LEN) as [Hl|]; cbn [negb].
  2: { apply reply1; [apply gen_err_ok|by apply step_ok_refl]. }
  apply wp_bind, wp_idx_wf; [done|by rewrite Hl|]. intros d32 _ _.
  destruct (_ && _).
  { split; [|done]. chip_done. }
  apply wp_bind. eapply wp_mono; [apply handshake_ok; [apply Hc|apply Hc|done]|].
  intros [[s o] r'] [Hs Ho]. destruct o as [body|e].
  - apply reply1; [|chip_done]. apply build_response_ok; [unfold status.REQUEST_OK; u_solve|apply Ho|].
    destruct Ho as [_ ->]. done.
  - apply reply1; [st_ok|chip_done].
Qed.

Lemma result_frames_ok cs :
  Forall wf cs -> Forall (fun c => 1 <= len c <= 252) cs ->
  wp (result_frames cs) (Forall frame_ok).
Proof.
  induction 1 as [|c cs Hc _ IH]; [intros _; apply Forall_nil_2|].
  intros [Hl Hcs]%Forall_cons. simpl.
  apply wp_bind. eapply wp_mono.
  - apply build_response_ok; [|done|lia].
    case_bool_decide; unfold status.RESULT_OK, status.RESULT_CONT; u_solve.
  - intros f Hf. apply wp_bind. eapply wp_mono; [by apply IH|]. intros fs Hfs.
    by apply Forall_cons_2.
Qed.

(** Running an L3 command from the chip. *)
Lemma chip_dispatch_ok c d r cfg pkey plaintext :
  chip_ok c d -> wf plaintext -> 0 <= pkey <= 3 ->
  wp (dispatch (mkCtx d cfg (c_personality c) pkey r) (c_l3_state c) plaintext)
    (fun '(ctx, _, o) => device_ok (dev ctx) /\ personality (dev ctx) = personality d /\
      device_le d (dev ctx) /\
      (match plaintext with
       | id :: _ => mutates_store id = false
       | [] => True
       end -> dev ctx = d) /\
      match o with
      | Result_ q => wf q /\ 1 <= len q <= 4097
      | GenErr => True
      end).
Proof.
  intros Hc Hp Hk. set (self := mkCtx _ _ _ _ _).
  assert (Hself : ctx_ok self) by (split; simpl; [apply Hc|apply Hc|lia]).
  assert (Hpure : wlp (dispatch self (c_l3_state c) plaintext) (fun '(ctx, _, _) =>
    match plaintext with
    | id :: _ => mutates_store id = false
    | [] => True
    end -> dev ctx = d)).
  { apply dispatch_cases; [done|]. intros id c' -> _.
    apply wlp_any. intros [ctx q] E Hm.
    pose proof (run_command_frame self id (id :: c') Hm) as Hf. by rewrite E in Hf. }
  pose proof (wp_wlp _ _ _ (wp_wlp _ _ _ (dispatch_safe _ (c_l3_state c) _ Hself Hp)
    (dispatch_le self (c_l3_state c) plaintext)) Hpure) as H.
  eapply wp_mono; [exact H|]. intros [[ctx l3] o] [[(H1 & (_ & Hp' & _) & H3) H4] H5].
  split_and!; [apply H1| |done|done|by destruct o].
  rewrite <- (cok_pers _ H1), Hp'. apply Hc.
Qed.

Lemma set_dirty_ok c d d' (b : bool) :
  chip_ok c d' -> (b = false -> d' = d) -> device_le d d' ->
  step_ok c d (if b then set_store_dirty c true else c) d'.
Proof.
  intros Hc Hb Hle. destruct b.
  - split; [destruct Hc; by split|done|done|done].
  - split; [done|done|done|auto].
Qed.

(** The state between two calls, where only the volatile part changed: the next
    steps may be counted from the updated chip. *)
Lemma post_from c d c1 o : step_ok c d c1 d -> post c1 d o -> post c d o.
Proof. destruct o as [[[c' d'] r'] fs]. intros H [H1 H2]. split; [by eapply step_ok_trans|done]. Qed.

Lemma drop_session_ok c d : chip_ok c d -> chip_ok (drop_session c) d.
Proof. intros H. unfold drop_session. chip_done. Qed.

(** The tail of [encrypted_cmd]: the result goes out encrypted, or the session ends. *)
Lemma respond_ok c d c1 d1 r outcome :
  step_ok c d c1 d1 ->
  match outcome with
  | Result_ q => wf q /\ 1 <= len q <= 4097
  | GenErr => True
  end ->
  wp (match outcome with
      | GenErr =>
          let! fs := vec2 (build_response status.REQUEST_OK []) gen_err in
          Ret (drop_session c1, d1, r, fs)
      | Result_ result =>
          let! '(s, w) := wrap_l3_response (c_session c1) result in
          match w with
          | Err _ =>
              let! fs := vec2 (build_response status.REQUEST_OK []) gen_err in
              Ret (drop_session (set_session c1 s), d1, r, fs)
          | Ok wire =>
              let! a := build_response status.REQUEST_OK [] in
              let! fs := result_frames (chunks MAX_L2_DATA_SIZE wire) in
              Ret (set_session c1 s, d1, r, a :: fs)
          end
      end) (post c d).
Proof.
  intros Hst Hout. assert (Hc1 : chip_ok c1 d1) by apply Hst. destruct outcome as [q|].
  2: { apply reply2; [st_ok|apply gen_err_ok|]. eapply step_ok_trans; [exact Hst|chip_done]. }
  destruct Hout as [Hq Hl]. apply wp_bind.
  eapply wp_mono; [apply wrap_ok; [apply Hc1|done|lia]|]. intros [s w] [Hs Hw].
  assert (Hst' : step_ok c d (set_session c1 s) d1).
  { eapply step_ok_trans; [exact Hst|]. chip_done. }
  destruct w as [wire|e].
  2: { apply reply2; [st_ok|apply gen_err_ok|]. eapply step_ok_trans; [exact Hst'|].
       apply step_ok_volatile; [apply drop_session_ok, Hst'|done]. }
  destruct Hw as [Hww _]. apply wp_bind. eapply wp_mono; [st_ok|]. intros a Ha.
  apply wp_bind. eapply wp_mono.
  - apply result_frames_ok; [|by apply chunks_len].
    apply wf_concat_inv. by rewrite concat_chunks.
  - intros fs Hfs. split; [done|]. by apply Forall_cons_2.
Qed.

(** A complete packet: decrypt, dispatch, encrypt. *)
Lemma encrypted_cmd_ok c d r chunk :
  chip_ok c d -> wf chunk -> wp (encrypted_cmd c d r chunk) (post c d).
Proof.
  intros Hc Hch. unfold encrypted_cmd.
  destruct (is_open (c_session c)) eqn:Hopen; cbn [negb].
  2: { apply reply1; [st_ok|chip_done]. }
  destruct (_ && _) eqn:Eshort; [apply reply1; [apply gen_err_ok|by apply step_ok_refl]|].
  apply wp_bind.
  apply (wp_mono _ (fun c' => exists n, c' = set_l3_expected c n)).
  { destruct (bool_decide _) eqn:E; [|by exists (l3_expected c); destruct c].
    cbn [andb] in Eshort. apply Z.ltb_ge in Eshort. unfold L3_SIZE_LEN in Eshort.
    wp_run. by eexists. }
  intros c1 [n ->]. set (packet := l3_packet (set_l3_expected c n) ++ chunk).
  assert (Hpk : wf packet) by (apply wf_app; [apply (ck_packet _ _ Hc)|done]).
  cbn [l3_packet l3_expected set_l3_packet set_l3_expected]. clearbody packet.
  destruct (len packet <? n); [apply reply1; [st_ok|chip_done]|].
  destruct (len packet =? n); cbn [negb].
  2: { apply reply2; [st_ok|apply gen_err_ok|chip_done]. }
  set (c2 := set_l3_expected _ 0).
  assert (H2 : step_ok c d c2 d) by (unfold c2; chip_done).
  assert (Hc2 : chip_ok c2 d) by apply H2. clearbody c2.
  apply wp_bind. eapply wp_mono; [apply unwrap_ok; [apply Hc2|done]|].
  intros [s o] [Hs Ho]. destruct o as [plaintext|e].
  2: { apply reply2; [st_ok|st_ok|]. eapply step_ok_trans; [exact H2|]. chip_done. }
  destruct Ho as [Hpw _].
  set (pkey := match keys _ with Some k => _ | None => 0 end).
  assert (Hpk' : 0 <= pkey <= 3).
  { unfold pkey. cbn. destruct (keys s) as [k|] eqn:Ek; [by apply (Hs _ Ek)|lia]. }
  clearbody pkey. set (c3 := set_session c2 s).
  assert (Hc3 : chip_ok c3 d) by (unfold c3; chip_done).
  assert (H3 : step_ok c d c3 d).
  { eapply step_ok_trans; [exact H2|]. by apply step_ok_volatile. }
  clearbody c3. pose proof (active_config_ok c3 d Hc3) as Hac.
  destruct (active_config c3 d) as [c4 cfg]. destruct Hac as (Hc4 & _ & E4).
  assert (H4 : step_ok c d c4 d).
  { eapply step_ok_trans; [exact H3|]. apply step_ok_volatile; [done|by rewrite E4]. }
  cbn zeta beta iota. apply wp_bind.
  eapply wp_mono; [apply (chip_dispatch_ok c4 d r cfg pkey plaintext Hc4 Hpw Hpk')|].
  intros [[ctx l3] outcome] (D1 & D2 & D3 & D4 & D5).
  set (c5 := match plaintext with [] => _ | _ => _ end).
  assert (H5 : step_ok c d c5 (dev ctx)).
  { eapply step_ok_trans; [exact H4|].
    assert (Hb : exists b, c5 = (if b : bool then set_store_dirty (set_l3_state c4 l3) true
      else set_l3_state c4 l3) /\ (b = false -> dev ctx = d)).
    { unfold c5. destruct plaintext as [|id rest]; [by exists false; auto|].
      exists (mutates_store id). split; [by destruct (mutates_store id)|auto]. }
    destruct Hb as (b & -> & Hb).
    eapply step_ok_trans; [apply (step_ok_volatile _ _ (set_l3_state c4 l3)); [chip_done|done]|].
    apply set_dirty_ok; [|done|done]. destruct Hc4; split; simpl in *; try done. congruence. }
  exact (respond_ok c d c5 (dev ctx) (ctx_rng ctx) outcome H5 D5).
Qed.

(** ** Requests *)

Lemma fw_log_ok p : wf (fw_log p) /\ len (fw_log p) <= 252.
Proof.
  unfold fw_log. destruct (part p); [|split; [apply wf_nil|done]].
  split; [|by rewrite len_resize]. apply wf_resize; [|u_solve].
  apply wf_app; [|apply wf_cons, wf_nil; u_solve]. cbn.
  repeat (apply wf_cons; [u_solve|]). apply wf_nil.
Qed.

Lemma reboot_ok c d m : chip_ok c d -> step_ok c d (reboot c m) d.
Proof. intros Hc. chip_done. Qed.

Lemma process_ok c d r raw :
  chip_ok c d -> wf raw -> wp (process c d r raw) (post c d).
Proof.
  intros Hc Hraw. assert (Hr : step_ok c d c d) by by apply step_ok_refl.
  unfold process. apply wp_bind, wp_value.
  { destruct (parse_request_total raw Hraw) as [x ->]. done. }
  intros [rq|e] Hp.
  2: { destruct e; apply reply1; (st_ok || done). }
  apply parse_request_ok_inv in Hp as (_ & Hd & Hdl & _); [|done]. pose proof gen_err_ok as Hge.
  assert (Hac := active_config_ok c d Hc).
  assert (Hok : wp (build_response status.REQUEST_OK []) frame_ok) by st_ok.
  destruct (req_id rq =? req.RESEND); [apply reply1; (st_ok || done)|].
  destruct (req_id rq =? req.GET_INFO).
  { destruct (Z.eqb_spec (len (req_data rq)) 2) as [Hl|]; cbn [negb]; [|by apply reply1].
    apply wp_bind, wp_idx_wf; [done|lia|]. intros d0 Hd0 _.
    apply wp_bind, wp_idx_wf; [done|lia|]. intros d1 Hd1 _.
    apply reply1; [apply handle_ok; [apply Hc|u_solve]|done]. }
  destruct (req_id rq =? req.GET_LOG).
  { destruct (negb _); apply reply1; try done. apply build_response_ok; [|apply fw_log_ok..].
    unfold status.REQUEST_OK. u_solve. }
  destruct (req_id rq =? req.STARTUP).
  { destruct (Z.eqb_spec (len (req_data rq)) 1) as [Hl|]; cbn [negb]; [|by apply reply1].
    apply wp_bind, wp_idx_wf; [done|lia|]. intros d0 Hd0 _.
    destruct (d0 =? STARTUP_REBOOT); [apply reply1; [done|by apply reboot_ok]|].
    destruct (d0 =? STARTUP_MAINTENANCE_REBOOT); [|by apply reply1].
    destruct (active_config c d) as [c1 cfg]. destruct Hac as (Hc1 & Hlc & ->).
    apply wp_bind, wp_idx; [rewrite Hlc; done|]. intros c0 _.
    apply reply1; [done|]. eapply step_ok_trans; [by apply step_ok_volatile|by apply reboot_ok]. }
  destruct (_ && _); [by apply chip_handshake_ok|].
  destruct (_ && _); [by apply encrypted_cmd_ok|].
  destruct (_ && _).
  { destruct (negb _); apply reply1; try done. apply step_ok_volatile; [by apply drop_session_ok|done]. }
  destruct (_ && _); [|apply reply1; (st_ok || done)].
  apply wp_bind. apply (wp_mono _ (fun _ => True)).
  { destruct (Z.eqb_spec (len (req_data rq)) 1) as [Hl|]; cbn [negb]; [|done].
    apply wp_bind, wp_idx; [lia|done]. }
  intros [] _; [by apply reply1|].
  destruct (active_config c d) as [c1 cfg]. destruct Hac as (Hc1 & Hlc & ->).
  apply wp_bind, wp_idx; [rewrite Hlc; done|]. intros c6 _.
  destruct (_ =? 0); apply reply1; try done; try st_ok; try by apply step_ok_volatile.
  apply step_ok_volatile; [by apply drop_session_ok|done].
Qed.

Definition post0 {A} (c : Chip) (d : Device) (o : Chip * Device * rng * A) : Prop :=
  let '(c', d', _, _) := o in step_ok c d c' d'.

Lemma execute_ok c d r raw :
  chip_ok c d -> wf raw -> wp (execute c d r raw) (post0 c d).
Proof.
  intros Hc Hraw. unfold execute. case_bool_decide; [by apply step_ok_refl|].
  apply wp_bind, wp_value.
  { destruct (parse_request_total raw Hraw) as [x ->]. done. }
  intros p _. cbn zeta.
  assert (Hn : wp (let! '(self, d0, r0, frames) := process c d r raw in
      Ret (set_busy_left (set_queue self frames)
        (if bool_decide (c_queue (set_queue self frames) = []) then 0
         else busy_polls (set_queue self frames)), d0, r0, tt)) (post0 c d)).
  { apply wp_bind. eapply wp_mono; [by apply process_ok|]. intros [[[c1 d1] r1] fs] [H1 Hfs].
    apply wp_ret. eapply step_ok_trans; [exact H1|]. destruct H1 as [H1 _ _ _]. chip_done. }
  destruct (match p with Ok _ => _ | Err _ => _ end); [|exact Hn].
  destruct (last_response c) as [f|] eqn:E; [|exact Hn]. apply wp_ret.
  pose proof (ck_last _ _ Hc _ E) as Hf. unfold post0. chip_done.
Qed.

Lemma push_request_byte_ok c d r b :
  chip_ok c d -> u8 b -> wp (push_request_byte c d r b) (post0 c d).
Proof.
  intros Hc Hb. unfold push_request_byte.
  set (c1 := if len (c_request c) <? MAX_L2_FRAME_SIZE then _ else _).
  assert (H1 : step_ok c d c1 d).
  { unfold c1. destruct (_ <? _); [|by apply step_ok_refl]. chip_done.
    apply wf_app; [done|]. apply wf_cons; [done|apply wf_nil]. }
  assert (Hc1 : chip_ok c1 d) by apply H1. clearbody c1.
  apply wp_bind. apply (wp_mono _ (fun _ => True)).
  { destruct (Z.leb_spec 2 (len (c_request c1))); [|done]. apply wp_bind, wp_idx; [lia|done]. }
  intros [] _; [|done]. apply wp_bind.
  assert (H2 : step_ok c1 d (set_request c1 []) d) by chip_done.
  eapply wp_mono; [apply execute_ok; [apply H2|apply (ck_request _ _ Hc1)]|].
  intros [[[c2 d2] r2] []] H3. simpl in H3. apply wp_ret. simpl.
  eapply step_ok_trans; [exact H1|]. eapply step_ok_trans; [exact H2|].
  eapply step_ok_trans; [exact H3|]. destruct H3 as [H3 _ _ _]. chip_done.
Qed.

Definition post_byte (c : Chip) (d : Device) (o : Chip * Device * rng * Z) : Prop :=
  let '(c', d', _, b) := o in step_ok c d c' d' /\ u8 b.

Lemma read_chip_status_ok c d :
  chip_ok c d -> let '(c', cs) := read_chip_status c in step_ok c d c' d /\ u8 cs.
Proof.
  intros Hc. pose proof (step_ok_refl c d Hc). unfold read_chip_status.
  destruct (c_mode c), (alarm_fresh c); (split; [try done; chip_done|done]).
Qed.

Lemma first_byte_ok c d r b :
  chip_ok c d -> u8 b -> wp (first_byte c d r b) (post_byte c d).
Proof.
  intros Hc Hb. unfold first_byte. pose proof (read_chip_status_ok c d Hc) as H.
  destruct (read_chip_status c) as [c1 cs]. destruct H as [H1 Hcs].
  assert (Hc1 : chip_ok c1 d) by apply H1.
  assert (Hstep : forall c2 o, step_ok c1 d c2 d -> u8 o -> post_byte c d (c2, d, r, o)).
  { intros. split; [by eapply step_ok_trans|done]. }
  destruct (b =? GET_RESPONSE_REQ_ID).
  - case_bool_decide; [apply wp_ret, Hstep; [chip_done|done]|].
    destruct (_ && _).
    { destruct (_ && _); apply wp_ret, Hstep; try done; [chip_done..|]. apply u8_land; [done|].
      apply Z.lxor_nonneg. done. }
    case_bool_decide; apply wp_ret, Hstep; try done; chip_done.
  - apply wp_bind.
    assert (H2 : step_ok c1 d (set_phase c1 PRequest) d) by chip_done.
    eapply wp_mono; [apply push_request_byte_ok; [apply H2|done]|].
    intros [[[c3 d3] r3] []] H3. apply wp_ret. split; [|done].
    eapply step_ok_trans; [exact H1|]. by eapply step_ok_trans.
Qed.

Lemma clock_ok c d r b :
  chip_ok c d -> u8 b -> wp (clock c d r b) (post_byte c d).
Proof.
  intros Hc Hb. unfold clock. destruct (c_phase c).
  - apply wp_ret. split; [by apply step_ok_refl|u_solve].
  - by apply first_byte_ok.
  - apply wp_bind. eapply wp_mono; [by apply push_request_byte_ok|].
    intros [[[c1 d1] r1] []] H1. apply wp_ret. split; [done|u_solve].
  - apply wp_ret. split; [chip_done|].
    destruct (c_queue c) as [|f q] eqn:E; [u_solve|].
    destruct (f !! Z.to_nat (c_cursor c)) as [x|] eqn:Ex; simpl; [|u_solve].
    pose proof (ck_queue _ _ Hc) as Hq. rewrite E in Hq. apply Forall_cons in Hq as [[Hf _] _].
    by eapply wf_lookup.
  - apply wp_ret. split; [by apply step_ok_refl|]. unfold status.NO_RESP. u_solve.
Qed.

(** Clocking any bytes through the chip in any state never panics; it answers one
    byte per byte, keeps the invariant that ties the chip to its device, respects
    the one-way order of the device, and leaves the device as it was unless the
    dirty flag says otherwise. *)
Theorem transfer_safe c d r mosi :
  chip_ok c d -> wf mosi ->
  wp (transfer c d r mosi) (fun '(c', d', _, miso) =>
    step_ok c d c' d' /\ wf miso /\ len miso = len mosi).
Proof.
  intros Hc Hm. revert c d r Hc. induction Hm as [|b mosi Hb _ IH]; intros c d r Hc.
  { split; [by apply step_ok_refl|]. split; [apply wf_nil|done]. }
  cbn [transfer]. apply wp_bind. eapply wp_mono; [by apply clock_ok|].
  intros [[[c1 d1] r1] o] [H1 Ho]. apply wp_bind. eapply wp_mono; [apply IH, H1|].
  intros [[[c2 d2] r2] miso] (H2 & Hw & Hl). apply wp_ret.
  split; [by eapply step_ok_trans|]. split; [by apply wf_cons|]. rewrite !len_cons. lia.
Qed.
End chip_facts.
