(* ===== verification/TropicChipProps.v ===== *)
(** * TROPIC01Sim: what the chip promises on the bus

    Transactions may be cut anywhere ([transfer_app]); an L3 packet may be chunked
    anywhere ([reassembly]); a long result comes back in frames the host joins
    ([result_frames_collect]); a queued frame is delivered by polling, consumed, and
    replayed by Resend; Alarm mode is left by a power cycle only; and an encrypted
    command sent and received through all of these layers is the dispatch of its
    plaintext. *)

From S2P Require Import Prelude.
From S2P Require Import Crc.
From S2P Require Import Crates.
From S2P Require Import TropicTypes.
From S2P Require Import TropicFrame.
From S2P Require Import TropicL3.
From S2P Require Import TropicL3Facts.
From S2P Require Import TropicL3Props.
From S2P Require Import TropicSession.
From S2P Require Import TropicGetInfo.
From S2P Require Import TropicChip.
From S2P Require Import TropicChipFacts.

Section chip_props.
Context `{C : Crates} {COk : CratesOk C}.

(** ** Transactions *)

Lemma rbind_assoc {A B D} (m : res A) (k : A -> res B) (h : B -> res D) :
  rbind (rbind m k) h = rbind m (fun x => rbind (k x) h).
Proof. by destruct m. Qed.

(** Clocking two pieces one after the other is clocking their concatenation: how a
    client splits a transaction into SPI_SEND messages does not matter. *)
Theorem transfer_app c d r a b :
  transfer c d r (a ++ b) =
    (let! '(c, d, r, ma) := transfer c d r a in
     let! '(c, d, r, mb) := transfer c d r b in
     Ret (c, d, r, ma ++ mb)).
Proof.
  revert c d r. induction a as [|x a IH]; intros c d r.
  - cbn. destruct (transfer c d r b) as [[[[c' d'] r'] mb]|]; done.
  - cbn [transfer app]. destruct (clock c d r x) as [[[[c1 d1] r1] o]|]; [|done]. cbn [rbind].
    rewrite IH. destruct (transfer c1 d1 r1 a) as [[[[c2 d2] r2] ma]|]; [|done]. cbn [rbind].
    by destruct (transfer c2 d2 r2 b) as [[[[c3 d3] r3] mb]|].
Qed.

Lemma transfer_cons c d r b mosi :
  transfer c d r (b :: mosi) =
    (let! '(c, d, r, o) := clock c d r b in
     let! '(c, d, r, miso) := transfer c d r mosi in
     Ret (c, d, r, o :: miso)).
Proof. done. Qed.

(** ** Chunks *)

(** The size announced by the first two bytes of a packet. *)
Definition announces (e : Z) (p : bytes) : Prop :=
  exists a b rest, p = a :: b :: rest /\ e = L3_SIZE_LEN + le_val [a; b] + L3_TAG_LEN.

Lemma announces_app e p q : announces e p -> announces e (p ++ q).
Proof. intros (a & b & rest & -> & ->). by exists a, b, (rest ++ q). Qed.

Lemma encrypted_cmd_resume c d r e acc x :
  l3_packet c = [] -> announces e acc ->
  encrypted_cmd (set_l3_packet (set_l3_expected c e) acc) d r x = encrypted_cmd c d r (acc ++ x).
Proof.
  intros Hp (a & b & rest & -> & He). unfold encrypted_cmd. rewrite Hp.
  cbn [c_session set_l3_packet set_l3_expected l3_packet]. destruct (is_open (c_session c)); [|by destruct c].
  cbn [negb]. rewrite (bool_decide_false (_ :: _ = [])), bool_decide_true by done. cbn [andb].
  rewrite (proj2 (Z.ltb_ge (len ((a :: b :: rest) ++ x)) L3_SIZE_LEN)).
  2: { unfold L3_SIZE_LEN. pose proof (len_nonneg rest). pose proof (len_nonneg x).
       rewrite len_app, !len_cons. lia. }
  change ((a :: b :: rest) ++ x) with (a :: b :: rest ++ x).
  rewrite idx_0. cbn [rbind]. rewrite idx_S, idx_0 by lia. cbn [rbind]. rewrite <- He.
  cbn [set_l3_packet set_l3_expected l3_packet l3_expected]. rewrite Hp. cbn [app]. by destruct c.
Qed.

Lemma encrypted_cmd_partial c d r e acc :
  is_open (c_session c) = true -> l3_packet c = [] -> announces e acc -> len acc < e ->
  encrypted_cmd c d r acc =
    (let! fs := vec1 (build_response status.REQUEST_CONT []) in
     Ret (set_l3_packet (set_l3_expected c e) acc, d, r, fs)).
Proof.
  intros Ho Hp (a & b & rest & -> & He) Hlt. unfold encrypted_cmd. rewrite Ho, Hp. cbn [negb].
  rewrite bool_decide_true by done. cbn [andb]. rewrite (proj2 (Z.ltb_ge _ L3_SIZE_LEN)).
  2: { unfold L3_SIZE_LEN. pose proof (len_nonneg rest). rewrite !len_cons. lia. }
  rewrite idx_0. cbn [rbind]. rewrite idx_S, idx_0 by lia. cbn [rbind]. rewrite <- He.
  cbn [set_l3_packet set_l3_expected l3_packet l3_expected]. rewrite Hp. cbn [app].
  by rewrite (proj2 (Z.ltb_lt _ _)) by done.
Qed.

(** The host sends chunk after chunk; the frames of every answer. *)
Fixpoint feed (c : Chip) (d : Device) (r : rng) (xs : list bytes) : out (list (list bytes)) :=
  match xs with
  | [] => Ret (c, d, r, [])
  | x :: xs =>
      let! '(c, d, r, fs) := encrypted_cmd c d r x in
      let! '(c, d, r, fss) := feed c d r xs in
      Ret (c, d, r, fs :: fss)
  end.

(** The frame of a status without data. *)
Definition status_frame (st : Z) : bytes := [st; 0] ++ be_bytes 2 (TropicCrc.crc16 [st; 0]).

Lemma build_status st : u8 st -> build_response st [] = Ret (status_frame st).
Proof. intros. unfold build_response. by rewrite build_frame_ret by (done || apply wf_nil). Qed.

Lemma feed_acc e c d r acc xs x :
  is_open (c_session c) = true -> l3_packet c = [] -> announces e acc ->
  len (acc ++ concat xs) < e ->
  feed (set_l3_packet (set_l3_expected c e) acc) d r (xs ++ [x]) =
    (let! '(c, d, r, fs) := encrypted_cmd c d r (acc ++ concat xs ++ x) in
     Ret (c, d, r, replicate (length xs) [status_frame status.REQUEST_CONT] ++ [fs])).
Proof.
  intros Ho Hp. revert acc. induction xs as [|y xs IH]; intros acc Ha Hl.
  - cbn [app feed concat replicate length]. rewrite encrypted_cmd_resume by done.
    by destruct (encrypted_cmd _ _ _ _) as [[[[c1 d1] r1] fs]|].
  - cbn [app feed concat replicate length]. rewrite encrypted_cmd_resume by done.
    cbn [concat] in Hl. rewrite !len_app in Hl. pose proof (len_nonneg (concat xs)).
    assert (Ha' : announces e (acc ++ y)) by (by apply announces_app).
    assert (Hl' : len (acc ++ y) < e) by (rewrite len_app; lia).
    rewrite (encrypted_cmd_partial c d r e) by done.
    rewrite build_status by (unfold status.REQUEST_CONT; u_solve). cbn [rbind vec1].
    rewrite IH by (done || rewrite !len_app; lia).
    rewrite <- !app_assoc. by destruct (encrypted_cmd _ _ _ _) as [[[[c1 d1] r1] fs]|].
Qed.

(** Reassembly: however the host cuts a packet into chunks, as long as the first
    holds the size field and only the last completes the packet, every chunk but the
    last is acknowledged with REQUEST_CONT and the last is answered exactly as if the
    packet had arrived in one piece. *)
Theorem reassembly c d r e x0 xs x :
  is_open (c_session c) = true -> l3_packet c = [] -> announces e x0 ->
  len (x0 ++ concat xs) < e ->
  feed c d r ((x0 :: xs) ++ [x]) =
    (let! '(c, d, r, fs) := encrypted_cmd c d r (x0 ++ concat xs ++ x) in
     Ret (c, d, r, replicate (S (length xs)) [status_frame status.REQUEST_CONT] ++ [fs])).
Proof.
  intros Ho Hp Ha Hl. cbn [app feed].
  assert (Hl' : len x0 < e) by (rewrite len_app in Hl; pose proof (len_nonneg (concat xs)); lia).
  rewrite (encrypted_cmd_partial c d r e) by done.
  rewrite build_status by (unfold status.REQUEST_CONT; u_solve). cbn [rbind vec1].
  rewrite feed_acc by done. by destruct (encrypted_cmd _ _ _ _) as [[[[c1 d1] r1] fs]|].
Qed.

(** The shape of a frame on the wire: its second byte is its length. *)
Definition is_frame (raw : bytes) : Prop :=
  exists id n rest, raw = id :: n :: rest /\ len raw = n + 4 /\ 0 <= n <= 252.

Lemma built_is_frame id data raw :
  u8 id -> wf data -> build_request id data = Ret raw -> is_frame raw /\ head raw = Some id.
Proof.
  intros Hid Hd E. pose proof (build_frame_inv _ _ _ E) as Hl. unfold build_request in E.
  rewrite build_frame_ret in E by done. injection E as <-. split; [|done].
  exists id, (len data), (data ++ be_bytes 2 (TropicCrc.crc16 (id :: len data :: data))).
  split; [done|]. len_solve.
Qed.

(** A response frame: its status is not the idle level of the bus. *)
Definition resp_frame (f : bytes) : Prop := is_frame f /\ head f <> Some status.NO_RESP.

Lemma built_resp st data f : u8 st -> st <> status.NO_RESP -> wf data -> build_response st data = Ret f -> resp_frame f.
Proof. intros Hs Hn Hd E. destruct (built_is_frame st data f Hs Hd E) as [Hf Hh]. split; [done|]. rewrite Hh. congruence. Qed.

Lemma status_resp st : u8 st -> st <> status.NO_RESP -> resp_frame (status_frame st).
Proof. intros Hs Hn. apply (built_resp st []); [done|done|apply wf_nil|by apply build_status]. Qed.

(** ** Results *)

(** The host joins RESULT_CONT frames up to the RESULT_OK frame. *)
Fixpoint collect (fs : list bytes) : option bytes :=
  match fs with
  | [] => None
  | f :: fs =>
      match parse_request f with
      | Ret (Ok (mkRequest st data)) =>
          if st =? status.RESULT_OK then (if bool_decide (fs = []) then Some data else None)
          else if st =? status.RESULT_CONT then (app data) <$> collect fs
          else None
      | _ => None
      end
  end.

Lemma parse_built st data :
  u8 st -> wf data -> len data <= 252 ->
  exists f, build_response st data = Ret f /\ parse_request f = Ret (Ok (mkRequest st data)).
Proof.
  intros Hs Hd Hl. unfold build_response. rewrite build_frame_ret by done. eexists. split; [done|].
  rewrite parse_body by (done || apply len_be_bytes). pose proof (len_nonneg data).
  rewrite be_val_be_bytes, Z.eqb_refl; [done|]. apply u16_tropic_crc, wf_cons, wf_cons; [done|u_solve|done].
Qed.

Lemma length_chunks {A} n (l : list A) : (length (chunks n l) <= length l)%nat.
Proof.
  unfold chunks. generalize (length l) as fuel. intros fuel. revert l.
  induction fuel as [|fuel IH]; intros l; [done|]. destruct l as [|x l]; cbn [chunks_fuel length]; [lia|].
  specialize (IH (drop (Z.to_nat n) (x :: l))). lia.
Qed.

Lemma result_frames_collect cs :
  cs <> [] -> Forall wf cs -> Forall (fun c => 1 <= len c <= 252) cs ->
  exists fs, result_frames cs = Ret fs /\ collect fs = Some (concat cs) /\ length fs = length cs /\
    Forall resp_frame fs.
Proof.
  intros Hne Hw Hl. induction Hw as [|c cs Hc _ IH]; [done|].
  apply Forall_cons in Hl as [Hl Hls]. cbn [result_frames].
  destruct (decide (cs = [])) as [->|Hcs].
  - rewrite bool_decide_true by done.
    destruct (parse_built status.RESULT_OK c) as (f & E & Hp);
      [unfold status.RESULT_OK; u_solve|done|lia|].
    rewrite E. cbn [rbind]. eexists. split; [done|]. cbn [collect]. rewrite Hp.
    cbn. rewrite app_nil_r. split_and!; [done..|]. apply Forall_singleton.
    apply (built_resp status.RESULT_OK c); [unfold status.RESULT_OK; u_solve|done..].
  - rewrite bool_decide_false by done. destruct (IH Hcs Hls) as (fs & Hfs & Hco & Hlen & Hr).
    destruct (parse_built status.RESULT_CONT c) as (f & E & Hp);
      [unfold status.RESULT_CONT; u_solve|done|lia|].
    rewrite E. cbn [rbind]. rewrite Hfs. cbn [rbind]. eexists. split; [done|].
    cbn [collect]. rewrite Hp. cbn -[collect resp_frame]. rewrite Hco. cbn -[resp_frame].
    split; [done|]. split; [by rewrite Hlen|]. constructor; [|done].
    apply (built_resp status.RESULT_CONT c); [unfold status.RESULT_CONT; u_solve|done..].
Qed.

Lemma host_wrap_announces kc m p :
  len p <= 65535 -> len (host_wrap kc m p) = len p + 18 /\
  exists a b rest, host_wrap kc m p = a :: b :: rest /\ len p = le_val [a; b].
Proof.
  intros Hl. pose proof (len_nonneg p). unfold host_wrap.
  split; [rewrite len_app, len_le_bytes, gcm_encrypt_len; lia|].
  assert (Hn : exists a b, le_bytes 2 (len p) = [a; b]) by (do 2 eexists; reflexivity).
  destruct Hn as (a & b & E). exists a, b, (gcm_encrypt kc (nonce_at m) [] p). split; [by rewrite E|].
  rewrite <- E, le_val_le_bytes; [done|]. change (256 ^ Z.of_nat 2) with 65536. lia.
Qed.

(** The whole packet in one piece. *)
Lemma encrypted_cmd_whole c d r kc kr m n pkey p ctx l3 q :
  chip_ok c d -> c_session c = session_at kc kr m n pkey -> l3_packet c = [] ->
  0 <= m < U32_MAX -> 0 <= n < U32_MAX -> wf p -> len p <= 65535 -> wf q -> len q <= 65535 ->
  dispatch (mkCtx d (snd (active_config c d)) (c_personality c) pkey r) (c_l3_state c) p =
    Ret (ctx, l3, Result_ q) ->
  exists c' fs body,
    encrypted_cmd c d r (host_wrap kc m p) =
      Ret (c', dev ctx, ctx_rng ctx, status_frame status.REQUEST_OK :: fs) /\
    collect fs = Some body /\ host_unwrap kr n body = Some q /\
    c_session c' = session_at kc kr (m + 1) (n + 1) pkey /\ l3_packet c' = [] /\
    c_mode c' = c_mode c /\ busy_polls c' = busy_polls c /\ Forall resp_frame fs /\
    len body = len q + 18 /\ (length fs <= length body)%nat.
Proof.
  intros Hc Hs Hp Hm Hn Hwp Hlp Hwq Hlq Hdis. unfold encrypted_cmd. rewrite Hs, Hp.
  destruct (host_wrap_announces kc m p Hlp) as (Hlen & a & b & rest & E & Hab).
  pose proof (len_nonneg p). change (is_open (session_at kc kr m n pkey)) with true. cbn [negb].
  rewrite bool_decide_true by done. cbn [andb].
  rewrite (proj2 (Z.ltb_ge _ L3_SIZE_LEN)) by (rewrite Hlen; unfold L3_SIZE_LEN; lia).
  assert (E0 : idx (host_wrap kc m p) 0 = Ret a) by (by rewrite E).
  assert (E1 : idx (host_wrap kc m p) 1 = Ret b) by (by rewrite E).
  rewrite E0. cbn [rbind]. rewrite E1. cbn [rbind].
  rewrite <- Hab. unfold L3_SIZE_LEN, L3_TAG_LEN.
  cbn [set_l3_packet set_l3_expected l3_packet l3_expected c_session]. rewrite Hp. cbn [app].
  rewrite Hlen, (proj2 (Z.ltb_ge _ _)), (proj2 (Z.eqb_eq _ _)) by lia. cbn [negb].
  rewrite Hs, unwrap_host by done. cbn [rbind].
  set (c1 := set_session _ (session_at kc kr (m + 1) n pkey)).
  assert (Hac : active_config c1 d =
    (set_active_config_of c1 (Some (snd (active_config c d))), snd (active_config c d))).
  { unfold active_config. change (active_config_of c1) with (active_config_of c).
    destruct (active_config_of c) as [l|] eqn:El; [|done]. unfold c1. destruct c; simpl in *. by rewrite El. }
  rewrite Hac. change (match keys (c_session c1) with Some k => pkey_index k | None => 0 end) with pkey.
  cbn [c_personality c_l3_state set_active_config_of]. 
  change (c_personality c1) with (c_personality c). change (c_l3_state c1) with (c_l3_state c).
  rewrite Hdis. cbn [rbind].
  set (c2 := match p with [] => _ | _ => _ end).
  assert (H2 : c_session c2 = session_at kc kr (m + 1) n pkey /\ l3_packet c2 = [] /\
    c_mode c2 = c_mode c /\ busy_polls c2 = busy_polls c).
  { unfold c2. destruct p; [done|]. by destruct (mutates_store _). }
  destruct H2 as (H2 & H2p & H2m & H2b). clearbody c2. rewrite H2.
  destruct (wrap_host kc kr (m + 1) n pkey q) as (body & Hw & Hu & Hwb & Hlb);
    [done..|].
  rewrite Hw. cbn [rbind]. rewrite build_status by (unfold status.REQUEST_OK; u_solve). cbn [rbind].
  destruct (result_frames_collect (chunks MAX_L2_DATA_SIZE body)) as (fs & Hfs & Hco & Hcl & Hr).
  - apply chunks_nonempty. intros ->. rewrite len_nil in Hlb. pose proof (len_nonneg q). lia.
  - apply wf_concat_inv. by rewrite concat_chunks.
  - by apply chunks_len.
  - rewrite Hfs. cbn [rbind]. rewrite concat_chunks in Hco by done.
    do 3 eexists. split; [done|]. split_and!; try done. rewrite Hcl. by apply length_chunks.
Qed.

Lemma chunks_announce n (a b : Z) rest :
  2 <= n -> exists x0 xs, chunks n (a :: b :: rest) = x0 :: xs /\
    (exists rest', x0 = a :: b :: rest') /\ Forall (fun x => x <> []) xs /\
    x0 ++ concat xs = a :: b :: rest.
Proof.
  intros Hn. pose proof (concat_chunks n (a :: b :: rest)) as Hc.
  pose proof (chunks_len n (a :: b :: rest)) as Hl.
  assert (Hh : exists rest', sub (a :: b :: rest) 0 n = a :: b :: rest').
  { unfold sub. rewrite drop_0. replace (Z.to_nat (n - 0)) with (S (S (Z.to_nat (n - 2)))) by lia.
    simpl. by eexists. }
  set (xs := chunks_fuel (length (b :: rest)) n (drop (Z.to_nat n) (a :: b :: rest))).
  assert (E : chunks n (a :: b :: rest) = sub (a :: b :: rest) 0 n :: xs) by done.
  rewrite E in *. clearbody xs. exists (sub (a :: b :: rest) 0 n), xs.
  split; [done|]. split; [exact Hh|]. split; [|apply Hc; lia].
  specialize (Hl ltac:(lia)). apply Forall_cons in Hl as [_ Hl].
  eapply Forall_impl; [exact Hl|]. intros x Hx ->. rewrite len_nil in Hx. lia.
Qed.

(** ** Polling *)

Definition transaction (c : Chip) (d : Device) (r : rng) (mosi : bytes) : out bytes :=
  let! '(c, d, r, miso) := transfer (csn_low c) d r mosi in
  Ret (csn_high c, d, r, miso).

Lemma transfer_no_response c d r mosi :
  c_phase c = NoResponse ->
  transfer c d r mosi = Ret (c, d, r, replicate (length mosi) 0xff).
Proof.
  intros Hp. induction mosi as [|b mosi IH]; [done|]. cbn [transfer length replicate].
  unfold clock. rewrite Hp. cbn [rbind]. by rewrite IH.
Qed.

Lemma transfer_response c d r f q mosi :
  c_phase c = PResponse -> c_queue c = f :: q -> 0 <= c_cursor c ->
  transfer c d r mosi = Ret (set_cursor c (c_cursor c + len mosi), d, r,
    imap (fun i _ => default 0xff (f !! (Z.to_nat (c_cursor c) + i)%nat)) mosi).
Proof.
  revert c. induction mosi as [|b mosi IH]; intros c Hp Hq Hcur.
  { cbn. rewrite len_nil, Z.add_0_r. by destruct c. }
  cbn [transfer]. unfold clock. rewrite Hp, Hq. cbn [rbind].
  rewrite IH by (simpl; done || lia). cbn [rbind]. rewrite len_cons.
  cbn [set_cursor c_cursor]. rewrite imap_cons.
  replace (Z.to_nat (c_cursor c) + 0)%nat with (Z.to_nat (c_cursor c)) by lia.
  assert (E : set_cursor (set_cursor c (c_cursor c + 1)) (c_cursor c + 1 + len mosi) =
    set_cursor c (c_cursor c + (1 + len mosi))) by (unfold set_cursor; simpl; f_equal; lia).
  rewrite E. do 3 f_equal. apply imap_ext. intros i x _. simpl. do 2 f_equal. lia.
Qed.

Lemma imap_read (f : bytes) k : (length f <= k)%nat ->
  imap (fun i _ => default 0xff (f !! i)) (replicate k 0) = f ++ replicate (k - length f) 0xff.
Proof.
  intros Hk. apply list_eq. intros i. rewrite list_lookup_imap.
  destruct (decide (i < k)%nat) as [Hi|Hi].
  - rewrite lookup_replicate_2 by done. simpl. destruct (decide (i < length f)%nat) as [Hf|Hf].
    + rewrite lookup_app_l by done. destruct (lookup_lt_is_Some_2 f i Hf) as [x ->]. done.
    + rewrite lookup_app_r, lookup_replicate_2, (lookup_ge_None_2 f i) by lia. done.
  - rewrite (lookup_ge_None_2 (replicate _ _)) by (rewrite length_replicate; lia).
    symmetry. apply lookup_ge_None_2. rewrite length_app, length_replicate. lia.
Qed.

(** The status byte of a mode other than Alarm. *)
Definition ready_status (m : Mode) : Z :=
  match m with
  | Maintenance => Z.lor chip_status.READY chip_status.STARTUP
  | _ => chip_status.READY
  end.

Lemma read_chip_status_ready c :
  c_mode c <> Alarm -> read_chip_status c = (c, ready_status (c_mode c)).
Proof. unfold read_chip_status. by destruct (c_mode c). Qed.

(** What polling leaves alone: everything but the queue and the state of the bus. *)
Definition same_core (c c' : Chip) : Prop :=
  c_mode c' = c_mode c /\ c_personality c' = c_personality c /\ c_session c' = c_session c /\
  active_config_of c' = active_config_of c /\ c_l3_state c' = c_l3_state c /\
  busy_polls c' = busy_polls c /\ l3_packet c' = l3_packet c /\ l3_expected c' = l3_expected c.

Lemma same_core_trans c1 c2 c3 : same_core c1 c2 -> same_core c2 c3 -> same_core c1 c3.
Proof. unfold same_core. intros. destruct_and!. split_and!; congruence. Qed.

(** A poll while the chip is busy answers no frame and uses up one busy poll. *)
Lemma poll_busy c d r f q zs :
  c_mode c <> Alarm -> c_queue c = f :: q -> 0 < busy_left c ->
  exists c' s, transaction c d r (GET_RESPONSE_REQ_ID :: zs) =
      Ret (c', d, r, s :: replicate (length zs) 0xff) /\
    c_mode c' = c_mode c /\ c_queue c' = f :: q /\ busy_left c' = busy_left c - 1 /\ same_core c c'.
Proof.
  intros Hm Hq Hb. unfold transaction. cbn [transfer]. unfold clock. cbn [csn_low c_phase set_phase
    set_request set_cursor]. unfold first_byte.
  rewrite read_chip_status_ready by done. rewrite Z.eqb_refl.
  cbn [csn_low c_mode c_queue busy_left set_phase set_request set_cursor].
  rewrite bool_decide_false by done. rewrite Hq, (bool_decide_false (_ :: _ = [])) by done.
  rewrite (proj2 (Z.ltb_lt _ _)) by done. cbn [negb andb].
  destruct (_ && _); cbn [rbind]; rewrite transfer_no_response by done; cbn [rbind].
  all: do 2 eexists; split; [done|]; done.
Qed.

Lemma cursor_set c v : c_cursor (set_cursor c v) = v.
Proof. done. Qed.

(** A poll of a ready chip delivers the first queued frame after the status byte;
    reading it to the end consumes it and remembers it for Resend. *)
Lemma poll_ready c d r f q k :
  c_mode c <> Alarm -> c_queue c = f :: q -> busy_left c <= 0 -> (length f <= k)%nat ->
  exists c', transaction c d r (GET_RESPONSE_REQ_ID :: replicate k 0) =
      Ret (c', d, r, ready_status (c_mode c) :: f ++ replicate (k - length f) 0xff) /\
    c_mode c' = c_mode c /\ c_queue c' = q /\ last_response c' = Some f /\
    busy_left c' = busy_left c /\ same_core c c'.
Proof.
  intros Hm Hq Hb Hk. unfold transaction. cbn [transfer]. unfold clock. cbn [csn_low c_phase set_phase
    set_request set_cursor]. unfold first_byte.
  rewrite read_chip_status_ready by done. rewrite Z.eqb_refl.
  cbn [csn_low c_mode c_queue busy_left set_phase set_request set_cursor].
  rewrite bool_decide_false by done. rewrite Hq, (bool_decide_false (_ :: _ = [])) by done.
  rewrite (proj2 (Z.ltb_ge _ _)) by done. cbn [negb andb rbind].
  rewrite (transfer_response _ d r f q) by (simpl; done). cbn [rbind].
  cbn [c_cursor set_cursor]. change (Z.to_nat 0) with 0%nat. cbn [Nat.add]. rewrite imap_read by done.
  eexists. split; [done|]. unfold csn_high. cbn [c_phase set_cursor set_phase].
  rewrite bool_decide_true by done. cbn [c_queue set_cursor set_phase]. 
  unfold csn_low. cbn [c_queue set_cursor set_phase set_request]. rewrite Hq.
  rewrite !cursor_set, len_replicate, (proj2 (Z.leb_le _ _)) by (unfold len; lia).
  done.
Qed.

(** [n] polls of [k] bytes each; what the host saw. *)
Fixpoint polls (n : nat) (c : Chip) (d : Device) (r : rng) (zs : bytes) : out (list bytes) :=
  match n with
  | O => Ret (c, d, r, [])
  | S n =>
      let! '(c, d, r, m) := transaction c d r (GET_RESPONSE_REQ_ID :: zs) in
      let! '(c, d, r, ms) := polls n c d r zs in
      Ret (c, d, r, m :: ms)
  end.

(** Delivery: outside Alarm mode a queued frame is answered after exactly as many
    "not ready" polls as the chip is busy for: each of those carries no data, the
    next one is the chip status followed by the frame, and the frame has then been
    consumed and can be replayed. *)
Theorem poll_delivers c d r f q :
  c_mode c <> Alarm -> c_queue c = f :: q -> 0 <= busy_left c ->
  exists c' busy,
    polls (S (Z.to_nat (busy_left c))) c d r (replicate (length f) 0) =
      Ret (c', d, r, busy ++ [ready_status (c_mode c) :: f]) /\
    Forall (fun m => tail m = replicate (length f) 0xff) busy /\
    length busy = Z.to_nat (busy_left c) /\
    c_queue c' = q /\ last_response c' = Some f.
Proof.
  intros Hm Hq Hb. remember (Z.to_nat (busy_left c)) as n eqn:En. revert c Hm Hq Hb En.
  induction n as [|n IH]; intros c Hm Hq Hb En.
  - destruct (poll_ready c d r f q (length f)) as (c' & E & H1 & H2 & H3 & _); [done..|lia|lia|].
    rewrite Nat.sub_diag, app_nil_r in E.
    exists c', []. cbn [polls]. rewrite E. cbn [rbind]. done.
  - destruct (poll_busy c d r f q (replicate (length f) 0)) as (c1 & s & E & H1 & H2 & H3 & _);
      [done..|lia|].
    destruct (IH c1) as (c' & busy & E' & Hbusy & Hlb & H4); [by rewrite H1|done|lia|lia|].
    exists c', ((s :: replicate (length (replicate (length f) 0)) 0xff) :: busy).
    change (polls (S (S n)) c d r ?z) with
      (let! '(c, d, r, m) := transaction c d r (GET_RESPONSE_REQ_ID :: z) in
       let! '(c, d, r, ms) := polls (S n) c d r z in Ret (c, d, r, m :: ms)).
    rewrite E. cbn [rbind]. rewrite E'. cbn [rbind]. rewrite H1. split; [done|].
    split; [constructor; [simpl; by rewrite length_replicate|done]|]. split; [simpl; lia|done].
Qed.

(** ** Requests *)

Lemma push_incomplete c d r b raw rest :
  is_frame raw -> c_request c ++ b :: rest = raw -> rest <> [] ->
  push_request_byte c d r b = Ret (set_request c (c_request c ++ [b]), d, r, tt).
Proof.
  intros (id & n & k & -> & Hlen & Hn) E Hr. unfold push_request_byte.
  assert (Hl : len (c_request c ++ [b]) < n + 4).
  { rewrite <- Hlen, <- E, !len_app, len_cons. destruct rest; [done|]. rewrite !len_cons, len_nil.
    pose proof (len_nonneg rest). lia. }
  rewrite len_app, len_cons, len_nil in Hl. unfold MAX_L2_FRAME_SIZE, MAX_L2_DATA_SIZE.
  rewrite (proj2 (Z.ltb_lt _ _)) by lia. cbn [c_request set_request].
  destruct (Z.leb_spec 2 (len (c_request c ++ [b]))) as [H2|]; [|done].
  assert (Hi : idx (c_request c ++ [b]) 1 = Ret n).
  { rewrite <- (idx_app_l (c_request c ++ [b]) rest) by lia.
    rewrite <- app_assoc. cbn [app]. by rewrite E. }
  rewrite Hi. cbn [rbind]. rewrite (proj2 (Z.eqb_neq _ _)); [done|].
  rewrite len_app, len_cons, len_nil. lia.
Qed.

Lemma push_complete c d r b raw :
  is_frame raw -> c_request c ++ [b] = raw ->
  push_request_byte c d r b =
    (let! '(c2, d2, r2, _) := execute (set_request c []) d r raw in
     Ret (set_phase c2 NoResponse, d2, r2, tt)).
Proof.
  intros (id & n & k & -> & Hlen & Hn) E. unfold push_request_byte.
  assert (Hl : len (c_request c) < MAX_L2_FRAME_SIZE).
  { rewrite <- E, len_app, len_cons, len_nil in Hlen. unfold MAX_L2_FRAME_SIZE, MAX_L2_DATA_SIZE. lia. }
  rewrite (proj2 (Z.ltb_lt _ _)) by done. cbn [c_request set_request]. rewrite E.
  rewrite (proj2 (Z.leb_le 2 _)) by (rewrite Hlen; lia). rewrite idx_S, idx_0 by lia. cbn [rbind].
  rewrite (proj2 (Z.eqb_eq _ _)) by done. done.
Qed.

Lemma transfer_request c d r raw b rest :
  is_frame raw -> c_phase c = PRequest -> c_request c ++ b :: rest = raw ->
  transfer c d r (b :: rest) =
    (let! '(c2, d2, r2, _) := execute (set_request c []) d r raw in
     Ret (set_phase c2 NoResponse, d2, r2, replicate (S (length rest)) 0xff)).
Proof.
  intros Hf Hp E. revert c b Hp E. induction rest as [|b' rest IH]; intros c b Hp E.
  - cbn [transfer]. unfold clock. rewrite Hp, (push_complete _ _ _ _ raw) by done.
    by destruct (execute _ _ _ _) as [[[[c2 d2] r2] []]|].
  - rewrite (transfer_cons _ _ _ b). unfold clock. rewrite Hp, (push_incomplete _ _ _ _ raw (b' :: rest)) by done. cbn [rbind].
    rewrite IH; [|done|]. 2: { cbn [c_request set_request]. by rewrite <- app_assoc. }
    change (set_request (set_request c ?x) []) with (set_request c []).
    by destruct (execute _ _ _ _) as [[[[c2 d2] r2] []]|].
Qed.

(** Clocking a complete request frame executes it when its last byte arrives: the
    answer on the wire is the chip status and then 0xFF, and the chip is left as
    [execute] leaves it, between transactions. *)
Theorem request_executed c d r raw :
  is_frame raw -> head raw <> Some GET_RESPONSE_REQ_ID ->
  transaction c d r raw =
    (let '(c1, cs) := read_chip_status (csn_low c) in
     let! '(c2, d2, r2, _) := execute (set_phase c1 PRequest) d r raw in
     Ret (csn_high (set_phase c2 NoResponse), d2, r2, cs :: replicate (length raw - 1) 0xff)).
Proof.
  intros Hf Hh. pose proof Hf as (id & n & rest & -> & Hlen & Hn).
  assert (Hid : id <> GET_RESPONSE_REQ_ID) by (intros ->; by apply Hh).
  unfold transaction. rewrite (transfer_cons _ _ _ id). unfold clock at 1.
  change (c_phase (csn_low c)) with First.
  cbv iota. unfold first_byte. destruct (read_chip_status (csn_low c)) as [c1 cs] eqn:Ecs.
  assert (Hrq : c_request c1 = []).
  { revert Ecs. unfold read_chip_status. repeat case_match; by intros [= <- _]. }
  rewrite (proj2 (Z.eqb_neq _ _)) by done.
  rewrite (push_incomplete _ _ _ _ (id :: n :: rest) (n :: rest));
    [|done|by cbn [c_request set_phase]; rewrite Hrq|done]. cbn [rbind].
  rewrite (transfer_request _ _ _ (id :: n :: rest)); [|done|done|].
  2: { cbn [c_request set_request set_phase]. by rewrite Hrq. }
  change (set_request (set_request ?y ?x) []) with (set_request y []).
  assert (E : set_request (set_phase c1 PRequest) [] = set_phase c1 PRequest).
  { unfold set_phase, set_request. simpl. by rewrite Hrq. }
  rewrite E. destruct (execute _ _ _ _) as [[[[c2 d2] r2] []]|]; [done|done].
Qed.

(** ** A host on the bus *)

Lemma csn_low_ok c d : chip_ok c d -> chip_ok (csn_low c) d /\ store_dirty (csn_low c) = store_dirty c.
Proof. intros []. split; [|done]. split; cbn; try done; apply wf_nil. Qed.

Lemma csn_high_ok c d : chip_ok c d -> chip_ok (csn_high c) d /\ store_dirty (csn_high c) = store_dirty c.
Proof.
  intros Hc. unfold csn_high.
  set (c1 := if bool_decide (c_phase c = PResponse) then _ else c).
  assert (H1 : chip_ok c1 d /\ store_dirty c1 = store_dirty c).
  { unfold c1. case_bool_decide; [|done]. destruct (c_queue c) as [|f q] eqn:E; [done|].
    destruct (_ <=? _); [|done]. split; [|done]. destruct Hc. rewrite E in ck_queue.
    apply Forall_cons in ck_queue as [Hf Hq]. split; cbn; try done. by intros ? [= <-]. }
  clearbody c1. destruct H1 as [[] <-]. split; [|done]. by split; cbn.
Qed.

Lemma transaction_chip_ok c d r mosi c' d' r' m :
  chip_ok c d -> wf mosi -> transaction c d r mosi = Ret (c', d', r', m) -> chip_ok c' d'.
Proof.
  intros Hc Hm E. unfold transaction in E. pose proof (transfer_safe (csn_low c) d r mosi
    (proj1 (csn_low_ok c d Hc)) Hm) as H. destruct (transfer _ _ _ _) as [[[[c1 d1] r1] m1]|]; [|done].
  injection E as <- <- <- <-. destruct H as (H & _). by apply csn_high_ok, H.
Qed.

(** A host reads a poll of the size of the longest frame: nothing when the second byte is
    the idle level, else the frame that the length byte announces. *)
Definition frame_in (miso : bytes) : option bytes :=
  match miso with
  | _ :: st :: n :: _ => if st =? status.NO_RESP then None else Some (sub miso 1 (n + 5))
  | _ => None
  end.

Definition poll_bytes : bytes := GET_RESPONSE_REQ_ID :: replicate (Z.to_nat MAX_L2_FRAME_SIZE) 0.

(** It polls until a frame comes, at most [fuel] times. *)
Fixpoint fetch (fuel : nat) (c : Chip) (d : Device) (r : rng) : out (option bytes) :=
  match fuel with
  | O => Ret (c, d, r, None)
  | S fuel =>
      let! '(c, d, r, miso) := transaction c d r poll_bytes in
      match frame_in miso with
      | Some f => Ret (c, d, r, Some f)
      | None => fetch fuel c d r
      end
  end.

(** Every chunk goes in a request frame of its own, and is answered by one frame. *)
Fixpoint send_chunks (fuel : nat) (c : Chip) (d : Device) (r : rng) (xs : list bytes) : out (list (option bytes)) :=
  match xs with
  | [] => Ret (c, d, r, [])
  | x :: xs =>
      let! raw := build_request req.ENCRYPTED_CMD x in
      let! '(c, d, r, _) := transaction c d r raw in
      let! '(c, d, r, f) := fetch fuel c d r in
      let! '(c, d, r, fs) := send_chunks fuel c d r xs in
      Ret (c, d, r, f :: fs)
  end.

(** The result: the data of RESULT_CONT frames up to a RESULT_OK frame. *)
Fixpoint receive (frames fuel : nat) (c : Chip) (d : Device) (r : rng) : out (option bytes) :=
  match frames with
  | O => Ret (c, d, r, None)
  | S frames =>
      let! '(c, d, r, f) := fetch fuel c d r in
      match parse_request <$> f with
      | Some (Ret (Ok (mkRequest st data))) =>
          if st =? status.RESULT_OK then Ret (c, d, r, Some data)
          else if st =? status.RESULT_CONT then
            let! '(c, d, r, rest) := receive frames fuel c d r in
            Ret (c, d, r, app data <$> rest)
          else Ret (c, d, r, None)
      | _ => Ret (c, d, r, None)
      end
  end.

(** A command: the packet in chunks, each acknowledged, and the result. *)
Definition bus_command (fuel frames : nat) (c : Chip) (d : Device) (r : rng) (packet : bytes) : out (option bytes) :=
  let xs := chunks MAX_L2_DATA_SIZE packet in
  let! '(c, d, r, acks) := send_chunks fuel c d r xs in
  if bool_decide (acks = replicate (length xs - 1) (Some (status_frame status.REQUEST_CONT)) ++
                         [Some (status_frame status.REQUEST_OK)])
  then receive frames fuel c d r
  else Ret (c, d, r, None).

Lemma frame_in_frame s f : resp_frame f -> frame_in (s :: f ++ replicate (256 - length f) 0xff) = Some f.
Proof.
  intros [(id & n & rest & -> & Hl & Hn) Hh]. cbn [app frame_in].
  rewrite (proj2 (Z.eqb_neq _ _)) by (intros ->; by apply Hh). f_equal.
  rewrite sub_cons by lia. replace (n + 5 - 1) with (len (id :: n :: rest)) by lia.
  exact (sub_prefix (id :: n :: rest) _).
Qed.

Lemma frame_in_busy s k : frame_in (s :: replicate k 0xff) = None.
Proof. by destruct k as [|[|k]]. Qed.

Lemma fetch_delivers fuel c d r f q :
  c_mode c <> Alarm -> c_queue c = f :: q -> resp_frame f -> (Z.to_nat (busy_left c) < fuel)%nat ->
  exists c', fetch fuel c d r = Ret (c', d, r, Some f) /\ c_queue c' = q /\ busy_left c' <= 0 /\ same_core c c'.
Proof.
  revert c. induction fuel as [|fuel IH]; intros c Hm Hq Hf Hb; [lia|]. cbn [fetch]. unfold poll_bytes.
  destruct (Z.ltb_spec 0 (busy_left c)) as [Hpos|Hneg].
  - destruct (poll_busy c d r f q (replicate (Z.to_nat MAX_L2_FRAME_SIZE) 0)) as (c1 & s & -> & H1 & H2 & H3 & H4);
      [done..|]. cbn [rbind]. rewrite frame_in_busy.
    destruct (IH c1) as (c' & -> & G1 & G2 & G3); [by rewrite H1|done|done|lia|].
    exists c'. split_and!; try done. by eapply same_core_trans.
  - destruct (poll_ready c d r f q (Z.to_nat MAX_L2_FRAME_SIZE)) as (c' & -> & H1 & H2 & _ & H3 & H4); [done..| |].
    { destruct Hf as [(id & n & rest & -> & Hl & Hn) _]. unfold len in Hl.
      change (Z.to_nat MAX_L2_FRAME_SIZE) with 256%nat. lia. }
    cbn [rbind]. change (Z.to_nat MAX_L2_FRAME_SIZE) with 256%nat. rewrite frame_in_frame by done.
    exists c'. split_and!; try done. lia.
Qed.

Lemma receive_collects fuel frames c d r fs body :
  c_mode c <> Alarm -> c_queue c = fs -> Forall resp_frame fs -> (Z.to_nat (busy_left c) < fuel)%nat ->
  collect fs = Some body -> (length fs <= frames)%nat ->
  exists c', receive frames fuel c d r = Ret (c', d, r, Some body) /\ c_queue c' = [] /\ same_core c c'.
Proof.
  intros Hm Hq Hf Hb Hc Hl. revert c frames body Hm Hq Hb Hc Hl.
  induction Hf as [|f fs Hf _ IH]; intros c frames body Hm Hq Hb Hc Hl; [done|].
  destruct frames as [|frames]; [cbn in Hl; lia|]. cbn [receive].
  destruct (fetch_delivers fuel c d r f fs) as (c1 & -> & H1 & H2 & H3); [done..|]. cbn [rbind fmap option_fmap option_map].
  cbn [collect] in Hc. destruct (parse_request f) as [[[st data]|]|]; try done.
  destruct (st =? status.RESULT_OK).
  - case_bool_decide as E; [|done]. injection Hc as <-. exists c1. by rewrite H1, E.
  - destruct (st =? status.RESULT_CONT); [|done].
    destruct (collect fs) as [rest|] eqn:Er; [|done]. injection Hc as <-.
    destruct (IH c1 frames rest) as (c2 & -> & G1 & G2);
      [destruct H3 as [-> _]; done|done|lia|done|cbn in Hl; lia|].
    exists c2. split_and!; try done. by eapply same_core_trans.
Qed.

Lemma wf_poll : wf poll_bytes.
Proof. apply wf_cons; [unfold GET_RESPONSE_REQ_ID; u_solve|apply wf_vec_repeat; u_solve]. Qed.

Lemma fetch_chip_ok fuel c d r c' d' r' f : chip_ok c d -> fetch fuel c d r = Ret (c', d', r', f) -> chip_ok c' d'.
Proof.
  revert c d r. induction fuel as [|fuel IH]; intros c d r Hc; cbn [fetch]; [by intros [= <- <- _ _]|].
  destruct (transaction c d r poll_bytes) as [[[[c1 d1] r1] m]|] eqn:E; [|done]. cbn [rbind].
  apply transaction_chip_ok in E; [|done|apply wf_poll].
  destruct (frame_in m); [by intros [= <- <- _ _]|by apply IH].
Qed.

Lemma receive_chip_ok frames fuel c d r c' d' r' o :
  chip_ok c d -> receive frames fuel c d r = Ret (c', d', r', o) -> chip_ok c' d'.
Proof.
  revert c d r c' d' r' o. induction frames as [|frames IH]; intros c d r c' d' r' o Hc; cbn [receive];
    [by intros [= <- <- _ _]|].
  destruct (fetch fuel c d r) as [[[[c1 d1] r1] f]|] eqn:E; [|done]. cbn [rbind]. apply fetch_chip_ok in E; [|done].
  destruct (parse_request <$> f) as [[[[st data]|]|]|]; try by intros [= <- <- _ _].
  destruct (st =? status.RESULT_OK); [by intros [= <- <- _ _]|].
  destruct (st =? status.RESULT_CONT); [|by intros [= <- <- _ _]].
  destruct (receive frames fuel c1 d1 r1) as [[[[c2 d2] r2] o2]|] eqn:E2; [|done]. intros [= <- <- _ _].
  by eapply IH.
Qed.

Lemma host_wrap_wf kc m p : wf p -> wf (host_wrap kc m p).
Proof. intros Hp. unfold host_wrap. apply wf_app; [apply wf_le_bytes|apply gcm_encrypt_wf]. Qed.

(** A request frame with a chunk: [encrypted_cmd] runs, its frames are queued. *)
Definition received (c : Chip) : Chip := set_phase (csn_low c) PRequest.
Definition queued (c : Chip) (fs : list bytes) : Chip :=
  csn_high (set_phase (set_busy_left (set_queue c fs) (if bool_decide (fs = []) then 0 else busy_polls c)) NoResponse).

Definition chunk_ok (x : bytes) : Prop := wf x /\ len x <= 252.

Lemma send_chunk c d r x raw :
  c_mode c = Application -> chunk_ok x -> build_request req.ENCRYPTED_CMD x = Ret raw ->
  exists m, transaction c d r raw =
    (let! '(c, d, r, fs) := encrypted_cmd (received c) d r x in Ret (queued c fs, d, r, m)).
Proof.
  intros Hm [Hw Hl] Eb.
  destruct (built_is_frame req.ENCRYPTED_CMD x raw) as [Hf Hh]; [unfold req.ENCRYPTED_CMD; u_solve|done..|].
  destruct (parse_built req.ENCRYPTED_CMD x) as (g & Eg & Hp); [unfold req.ENCRYPTED_CMD; u_solve|done..|].
  assert (g = raw) as -> by (unfold build_request, build_response in *; congruence).
  rewrite request_executed by (done || rewrite Hh; done).
  rewrite read_chip_status_ready by (change (c_mode (csn_low c)) with (c_mode c); by rewrite Hm). exists (ready_status (c_mode (csn_low c)) :: replicate (length raw - 1) 0xff).
  fold (received c). unfold execute, process.
  change (c_mode (received c)) with (c_mode c). rewrite Hm, bool_decide_false by done. rewrite Hp. cbn [rbind req_id req_data].
  change (req.ENCRYPTED_CMD =? req.RESEND) with false. change (req.ENCRYPTED_CMD =? req.GET_INFO) with false.
  change (req.ENCRYPTED_CMD =? req.GET_LOG) with false. change (req.ENCRYPTED_CMD =? req.STARTUP) with false.
  change (req.ENCRYPTED_CMD =? req.HANDSHAKE) with false. cbn [andb].
  rewrite Z.eqb_refl, (bool_decide_true (Application = Application)) by done. cbn [andb].
  destruct (encrypted_cmd (received c) d r x) as [[[[c1 d1] r1] fs]|]; [|done]. done.
Qed.

(** The host can send every chunk. *)
Lemma chunk_request x : chunk_ok x -> exists raw, build_request req.ENCRYPTED_CMD x = Ret raw /\ wf raw.
Proof.
  intros [Hw Hl]. assert (H : wp (build_response req.ENCRYPTED_CMD x) frame_ok)
    by (apply build_response_ok; [unfold req.ENCRYPTED_CMD; u_solve|done..]).
  apply wp_elim in H as (raw & E & [Hr _]). by exists raw.
Qed.

(** Between two chunks: [acc] has arrived, [c0] is the chip before the first. *)
Record carries (c0 : Chip) (d : Device) (e : Z) (c : Chip) (acc : bytes) : Prop := {
  ca_ok : chip_ok c d;
  ca_mode : c_mode c = c_mode c0;
  ca_pers : c_personality c = c_personality c0;
  ca_session : c_session c = c_session c0;
  ca_config : active_config_of c = active_config_of c0;
  ca_l3 : c_l3_state c = c_l3_state c0;
  ca_polls : busy_polls c = busy_polls c0;
  ca_packet : l3_packet c = acc;
  ca_expected : acc = [] \/ (announces e acc /\ l3_expected c = e);
}.

Lemma encrypted_cmd_acc c0 d e c acc r x : carries c0 d e c acc ->
  encrypted_cmd (received c) d r x = encrypted_cmd (set_l3_packet (received c) []) d r (acc ++ x).
Proof.
  intros []. destruct ca_expected0 as [->|[Ha He]].
  - cbn [app]. f_equal. destruct c. cbn in *. by subst.
  - rewrite <- (encrypted_cmd_resume _ d r e acc x) by done. f_equal. destruct c. cbn in *. by subst.
Qed.

Lemma received_ok c d : chip_ok c d -> chip_ok (set_l3_packet (received c) []) d.
Proof. intros []. split; cbn; try done; apply wf_nil. Qed.

(** One chunk that does not complete the packet. *)
Lemma send_partial fuel c0 d e c acc r x xs :
  carries c0 d e c acc -> c_mode c0 = Application -> is_open (c_session c0) = true ->
  announces e (acc ++ x) -> len (acc ++ x) < e -> chunk_ok x -> (Z.to_nat (busy_polls c0) < fuel)%nat ->
  exists c1, carries c0 d e c1 (acc ++ x) /\
    send_chunks fuel c d r (x :: xs) =
      (let! '(c, d, r, fs) := send_chunks fuel c1 d r xs in
       Ret (c, d, r, Some (status_frame status.REQUEST_CONT) :: fs)).
Proof.
  intros Hca Hm Ho Ha Hlt Hx Hfuel. cbn [send_chunks].
  destruct (chunk_request x Hx) as (raw & Eb & Hraw). rewrite Eb.
  cbn [rbind]. destruct (send_chunk c d r x raw) as [m Et]; [by rewrite (ca_mode _ _ _ _ _ Hca)|done..|].
  rewrite (encrypted_cmd_acc _ _ _ _ _ _ _ Hca) in Et.
  rewrite (encrypted_cmd_partial _ d r e) in Et; [|by rewrite <- Ho, <- (ca_session _ _ _ _ _ Hca)|done..].
  rewrite build_status in Et by (unfold status.REQUEST_CONT; u_solve). cbn [rbind vec1] in Et.
  pose proof (transaction_chip_ok _ _ _ _ _ _ _ _ (ca_ok _ _ _ _ _ Hca) Hraw Et) as Hok.
  rewrite Et. cbn [rbind]. set (c1 := queued _ _) in *.
  destruct (fetch_delivers fuel c1 d r (status_frame status.REQUEST_CONT) []) as (c2 & Ef & _ & _ & Hsame).
  - change (c_mode c1) with (c_mode c). by rewrite (ca_mode _ _ _ _ _ Hca), Hm.
  - done.
  - apply status_resp; [unfold status.REQUEST_CONT; u_solve|done].
  - change (busy_left c1) with (busy_polls c). by rewrite (ca_polls _ _ _ _ _ Hca).
  - exists c2. split; [|by rewrite Ef]. apply fetch_chip_ok in Ef; [|done].
    destruct Hca, Hsame as (S1 & S2 & S3 & S4 & S5 & S6 & S7 & S8).
    split; try done; try (etransitivity; [eassumption|done]). right. split; [done|]. by rewrite S8.
Qed.

Lemma send_partials fuel c0 d e c acc r xs x :
  carries c0 d e c acc -> c_mode c0 = Application -> is_open (c_session c0) = true ->
  (acc = [] -> forall y, head (xs ++ [x]) = Some y -> announces e y) ->
  len (acc ++ concat xs) < e -> Forall chunk_ok xs -> (Z.to_nat (busy_polls c0) < fuel)%nat ->
  exists c1, carries c0 d e c1 (acc ++ concat xs) /\
    send_chunks fuel c d r (xs ++ [x]) =
      (let! '(c, d, r, fs) := send_chunks fuel c1 d r [x] in
       Ret (c, d, r, replicate (length xs) (Some (status_frame status.REQUEST_CONT)) ++ fs)).
Proof.
  intros Hca Hm Ho Hann Hlt Hxs Hfuel. revert c acc Hca Hann Hlt.
  induction Hxs as [|y xs Hy _ IH]; intros c acc Hca Hann Hlt.
  - exists c. cbn [concat app replicate length]. rewrite app_nil_r. split; [done|].
    by destruct (send_chunks _ _ _ _ _) as [[[[c2 d2] r2] fs]|].
  - assert (Ha : announces e (acc ++ y)).
    { destruct (ca_expected _ _ _ _ _ Hca) as [->|[Ha _]]; [by apply Hann|by apply announces_app]. }
    cbn [concat] in Hlt. rewrite app_assoc in Hlt.
    destruct (send_partial fuel c0 d e c acc r y (xs ++ [x])) as (c1 & Hc1 & E); try done.
    { rewrite len_app in Hlt. pose proof (len_nonneg (concat xs)). lia. }
    destruct (IH c1 (acc ++ y) Hc1) as (c2 & Hc2 & E2); [|done|].
    { intros E0. destruct Ha as (? & ? & ? & Ha & _). by rewrite E0 in Ha. }
    exists c2. cbn [concat]. rewrite app_assoc. split; [done|]. cbn [app]. rewrite E, E2.
    destruct (send_chunks fuel c2 d r [x]) as [[[[c3 d3] r3] fs]|]; reflexivity.
Qed.

(** C2: An encrypted command, end to end on the bus: a host encrypts a plaintext under the
    session's command key and counter, cuts the packet into chunks, clocks each chunk in a
    request frame of its own and polls for the answer.  All chunks but the last are answered
    REQUEST_CONT and the last REQUEST_OK; the frames it polls then, joined and decrypted, are
    exactly the result [dispatch] gives for the plaintext; device, generator and both
    counters end where [dispatch] and one step of each counter leave them. *)
Theorem encrypted_command_end_to_end fuel frames c d r kc kr m n pkey p ctx l3 q :
  chip_ok c d -> c_mode c = Application -> c_session c = session_at kc kr m n pkey -> l3_packet c = [] ->
  0 <= m < U32_MAX -> 0 <= n < U32_MAX -> wf p -> len p <= 65535 -> wf q -> len q <= 65535 ->
  (Z.to_nat (busy_polls c) < fuel)%nat -> (Z.to_nat (len q + 18) <= frames)%nat ->
  dispatch (mkCtx d (snd (active_config c d)) (c_personality c) pkey r) (c_l3_state c) p =
    Ret (ctx, l3, Result_ q) ->
  exists c' body,
    bus_command fuel frames c d r (host_wrap kc m p) = Ret (c', dev ctx, ctx_rng ctx, Some body) /\
    host_unwrap kr n body = Some q /\ chip_ok c' (dev ctx) /\ c_mode c' = Application /\
    c_session c' = session_at kc kr (m + 1) (n + 1) pkey /\ l3_packet c' = [].
Proof.
  intros Hc Hmode Hs Hp Hm Hn Hwp Hlp Hwq Hlq Hfuel Hframes Hdis. unfold bus_command.
  destruct (host_wrap_announces kc m p Hlp) as (Hlen & a & b & rest & Ew & Hab).
  destruct (chunks_announce MAX_L2_DATA_SIZE a b rest) as (x0 & xs0 & Ec & (rest' & Ex) & Hne & Hcat).
  { unfold MAX_L2_DATA_SIZE. lia. }
  assert (Hchunks : Forall chunk_ok (x0 :: xs0)).
  { rewrite <- Ec. apply Forall_and. split.
    - apply wf_concat_inv. rewrite concat_chunks by done. rewrite <- Ew. by apply host_wrap_wf.
    - eapply Forall_impl; [apply chunks_len|]; [done|]. unfold MAX_L2_DATA_SIZE. intros y. lia. }
  rewrite Ew, Ec. rewrite <- Ew in Hcat. set (e := len p + 18).
  pose proof (chunks_len MAX_L2_DATA_SIZE (a :: b :: rest) eq_refl) as Hlens. rewrite Ec in Hlens.
  assert (Ha0 : announces e x0).
  { exists a, b, rest'. split; [done|]. unfold e, L3_SIZE_LEN, L3_TAG_LEN. lia. }
  destruct (exists_last (l := x0 :: xs0)) as (xs & x & El); [done|]. rewrite El in *.
  apply Forall_app in Hchunks as [Hxs [Hx _]%Forall_cons]. apply Forall_app in Hlens as [_ [Hxl _]%Forall_cons].
  assert (Hpk : concat xs ++ x = host_wrap kc m p).
  { rewrite <- Hcat. change (x0 ++ concat xs0) with (concat (x0 :: xs0)). rewrite El, concat_app. cbn. by rewrite app_nil_r. }
  destruct (send_partials fuel c d e c [] r xs x) as (c1 & Hc1 & E); try done.
  { split; try done. by left. }
  { by rewrite Hs. }
  { intros _ y. rewrite <- El. by intros [= <-]. }
  { cbn [app]. unfold e. rewrite <- Hlen, <- Hpk, len_app. lia. }
  cbn [app] in Hc1. rewrite E. clear E. cbn [send_chunks].
  destruct (chunk_request x Hx) as (raw & Eb & Hraw). rewrite Eb. cbn [rbind].
  destruct (send_chunk c1 d r x raw) as [miso Et]; [by rewrite (ca_mode _ _ _ _ _ Hc1)|done..|].
  rewrite (encrypted_cmd_acc _ _ _ _ _ _ _ Hc1), Hpk in Et.
  destruct (encrypted_cmd_whole (set_l3_packet (received c1) []) d r kc kr m n pkey p ctx l3 q)
    as (c2 & fs & body & Ecmd & Hco & Hu & Hs2 & Hp2 & Hm2 & Hb2 & Hr2 & Hlb & Hlf);
    [apply received_ok, Hc1| |reflexivity|exact Hm|exact Hn|exact Hwp|exact Hlp|exact Hwq|exact Hlq| |].
  { change (c_session c1 = session_at kc kr m n pkey). by rewrite (ca_session _ _ _ _ _ Hc1). }
  { assert (Hac : snd (active_config (set_l3_packet (received c1) []) d) = snd (active_config c d)).
    { unfold active_config. change (active_config_of (set_l3_packet (received c1) [])) with (active_config_of c1).
      rewrite (ca_config _ _ _ _ _ Hc1). by destruct (active_config_of c). }
    change (c_personality (set_l3_packet (received c1) [])) with (c_personality c1).
    change (c_l3_state (set_l3_packet (received c1) [])) with (c_l3_state c1).
    rewrite Hac, (ca_pers _ _ _ _ _ Hc1), (ca_l3 _ _ _ _ _ Hc1). exact Hdis. }
  rewrite Ecmd in Et. cbn [rbind] in Et. pose proof (transaction_chip_ok _ _ _ _ _ _ _ _ (ca_ok _ _ _ _ _ Hc1) Hraw Et) as Hok3.
  rewrite Et. cbn [rbind]. set (c3 := queued _ _) in *.
  change (c_mode c2 = c_mode c1) in Hm2. change (busy_polls c2 = busy_polls c1) in Hb2.
  rewrite (ca_mode _ _ _ _ _ Hc1), Hmode in Hm2. rewrite (ca_polls _ _ _ _ _ Hc1) in Hb2.
  destruct (fetch_delivers fuel c3 (dev ctx) (ctx_rng ctx) (status_frame status.REQUEST_OK) fs)
    as (c4 & Ef & Hq4 & Hb4 & Hsame4).
  { change (c_mode c3) with (c_mode c2). by rewrite Hm2. }
  { done. }
  { apply status_resp; [unfold status.REQUEST_OK; u_solve|done]. }
  { change (busy_left c3) with (busy_polls c2). by rewrite Hb2. }
  rewrite Ef. cbn [rbind]. apply fetch_chip_ok in Ef; [|done].
  rewrite length_app, Nat.add_sub, bool_decide_true by done.
  destruct (receive_collects fuel frames c4 (dev ctx) (ctx_rng ctx) fs body) as (c5 & Er & Hq5 & Hsame5); try done.
  { destruct Hsame4 as [-> _]. change (c_mode c3) with (c_mode c2). by rewrite Hm2. }
  { lia. }
  { rewrite <- Hlb in Hframes. unfold len in Hframes. lia. }
  exists c5, body. rewrite Er. apply receive_chip_ok in Er; [|done].
  pose proof (same_core_trans _ _ _ Hsame4 Hsame5) as (S1 & S2 & S3 & S4 & S5 & S6 & S7 & S8).
  split_and!; try done; by etransitivity.
Qed.

(** ** Resend *)

(** Reading a frame and asking for it again: a Resend request puts the frame that
    was last read in front of those not fetched yet, unchanged. *)
Theorem resend_replays c d r f raw :
  c_mode c <> Alarm -> last_response c = Some f -> build_request req.RESEND [] = Ret raw ->
  exists c' s, transaction c d r raw = Ret (c', d, r, s :: replicate (length raw - 1) 0xff) /\
    c_queue c' = f :: c_queue c /\ busy_left c' = busy_polls c /\ c_mode c' = c_mode c /\
    l3_packet c' = l3_packet c /\ c_session c' = c_session c.
Proof.
  intros Hm Hl Hb.
  destruct (built_is_frame req.RESEND [] raw) as [Hf Hh];
    [unfold req.RESEND; u_solve|apply wf_nil|done|].
  rewrite request_executed by (done || rewrite Hh; done).
  rewrite read_chip_status_ready by done.
  assert (Hp : parse_request raw = Ret (Ok (mkRequest req.RESEND []))).
  { destruct (parse_built req.RESEND []) as (g & Eg & Hg);
      [unfold req.RESEND; u_solve|apply wf_nil|done|].
    unfold build_request, build_response in *. congruence. }
  unfold execute. change (c_mode (set_phase (csn_low c) PRequest)) with (c_mode c).
  rewrite bool_decide_false by done. rewrite Hp. cbn [rbind req_id req_data].
  rewrite Z.eqb_refl, bool_decide_true by done. cbn [andb].
  change (last_response (set_phase (csn_low c) PRequest)) with (last_response c). rewrite Hl.
  cbn [rbind]. do 2 eexists. split; [done|]. done.
Qed.

(** ** Alarm *)

(** In Alarm mode no byte sequence executes anything: the device, the generator, the
    queue and the session are untouched and the chip stays in Alarm mode. *)
Theorem alarm_absorbing c d r mosi :
  c_mode c = Alarm -> wf mosi ->
  wlp (transfer c d r mosi) (fun '(c', d', r', _) =>
    d' = d /\ r' = r /\ c_mode c' = Alarm /\ c_queue c' = c_queue c /\ c_session c' = c_session c).
Proof.
  intros Hm Hw. revert c Hm. induction Hw as [|b mosi Hb _ IH]; intros c Hm; [done|].
  assert (Hpush : forall c, c_mode c = Alarm -> wlp (push_request_byte c d r b) (fun '(c', d', r', _) =>
    d' = d /\ r' = r /\ c_mode c' = Alarm /\ c_queue c' = c_queue c /\ c_session c' = c_session c)).
  { clear c Hm. intros c Hm. unfold push_request_byte, execute. apply wlp_bind, wlp_any.
    intros [] _; [|by destruct (_ <? _)]. 
    set (c1 := if len _ <? _ then _ else _).
    assert (H1 : c_mode c1 = Alarm /\ c_queue c1 = c_queue c /\ c_session c1 = c_session c)
      by (unfold c1; by destruct (_ <? _)). clearbody c1. destruct H1 as (H1 & H2 & H3).
    change (c_mode (set_request c1 [])) with (c_mode c1). rewrite bool_decide_true by done.
    by cbn [rbind wlp]. }
  cbn [transfer]. apply wlp_bind.
  apply (wlp_mono _ (fun '(c', d', r', _) =>
    d' = d /\ r' = r /\ c_mode c' = Alarm /\ c_queue c' = c_queue c /\ c_session c' = c_session c)).
  - unfold clock. destruct (c_phase c) eqn:Ep; try done.
    + unfold first_byte. pose proof Hm as Hm'.
      destruct (read_chip_status c) as [c1 cs] eqn:E.
      assert (H1 : c_mode c1 = Alarm /\ c_queue c1 = c_queue c /\ c_session c1 = c_session c).
      { revert E. unfold read_chip_status. rewrite Hm. case_match; by intros [= <- _]. }
      destruct H1 as (H1 & H2 & H3). rewrite H1.
      destruct (b =? GET_RESPONSE_REQ_ID); [by rewrite bool_decide_true|].
      apply wlp_bind. eapply wlp_mono; [by apply Hpush|].
      intros [[[c2 d2] r2] u] (-> & -> & G1 & G2 & G3). apply wlp_ret. simpl in *.
      split_and!; congruence.
    + apply wlp_bind. eapply wlp_mono; [by apply Hpush|]. by intros [[[c2 d2] r2] u].
  - intros [[[c1 d1] r1] o] (-> & -> & H1 & H2 & H3). apply wlp_bind.
    eapply wlp_mono; [by apply IH|]. intros [[[c2 d2] r2] miso] (-> & -> & G1 & G2 & G3).
    apply wlp_ret. split_and!; congruence.
Qed.
End chip_props.
