(* ===== verification/TropicServer.v ===== *)
(** * TROPIC01Sim: the TCP server

    [bin/tcp_server.rs]: one simulated chip and its store behind a TCP socket.  Every
    connection has a thread that reads frames and locks the simulator for one frame at a
    time ([serve_one]), so a run of the server is a schedule: a sequence of connection
    numbers, each of which serves its next frame.  A frame that is refused or cannot be
    saved ends its own connection, the others go on. *)

From S2P Require Import Prelude.
From S2P Require Import Host.
From S2P Require Import Connections.
From S2P Require Import Crates.
From S2P Require Import TropicTypes.
From S2P Require Import TropicFrame.
From S2P Require Import TropicL3Facts.
From S2P Require Import TropicL3Props.
From S2P Require Import TropicSession.
From S2P Require Import TropicCerts.
From S2P Require Import TropicStore.
From S2P Require Import TropicChip.
From S2P Require Import TropicChipFacts.
From S2P Require Import TropicChipProps.

(** ** The envelope *)

(** Every message the server or a client writes is read back by the other side, with
    whatever follows it on the stream untouched. *)
Theorem tcp_roundtrip (f : Tcp.TcpFrame) (bs rest : bytes) :
  Tcp.write_to f = Ok bs -> Tcp.read_from (bs ++ rest) = Ret (Ok (Some f, rest)).
Proof.
  unfold Tcp.write_to. destruct (Z.ltb_spec Tcp.MAX_PAYLOAD_LEN (len (Tcp.payload f))) as [|Hl]; [done|].
  intros E. set (out := _ ++ _) in E. assert (bs = out) as -> by congruence. unfold out. clear E out.
  unfold Tcp.MAX_PAYLOAD_LEN in Hl. pose proof (len_nonneg (Tcp.payload f)).
  assert (Hn : as_u16 (len (Tcp.payload f)) = len (Tcp.payload f)) by (apply Z.mod_small; lia).
  rewrite Hn.
  assert (Hb : exists a b, le_bytes 2 (len (Tcp.payload f)) = [a; b]) by (do 2 eexists; reflexivity).
  destruct Hb as (a & b & Eb).
  assert (Hv : le_val [a; b] = len (Tcp.payload f)).
  { rewrite <- Eb. apply le_val_le_bytes. change (256 ^ Z.of_nat 2) with 65536. lia. }
  rewrite Eb, <- app_assoc. unfold Tcp.read_from.
  change Tcp.TAG_AND_LEN_SIZE with (len [Tcp.tag f; a; b]). rewrite read_exact_app.
  rewrite idx_0. cbn [rbind]. rewrite idx_S, idx_0 by lia. cbn [rbind].
  change (idx [Tcp.tag f; a; b] 2) with (Ret b). cbn [rbind]. rewrite Hv.
  unfold Tcp.MAX_PAYLOAD_LEN. rewrite (proj2 (Z.ltb_ge _ _)) by lia.
  destruct f as [tag [|x p]]; cbn [Tcp.payload Tcp.tag] in *; [done|].
  rewrite bool_decide_false by done. cbn [negb].
  rewrite (proj2 (Z.ltb_lt 0 _)) by (rewrite len_cons; pose proof (len_nonneg p); lia).
  by rewrite read_exact_app.
Qed.

(** ** The server *)

Section server.
Context `{C : Crates} {N : NistKeys} {F : FileSystem Device}.

(** The simulated chip, with the disk and the generator of the host it runs on. *)
Record Sim := mkSim {
  chip : Chip;
  store : Store;
  disk : fs;
  sim_rng : rng;
}.

Definition handle_tcp_frame (sim : Sim) (frame : Tcp.TcpFrame) : res (Sim * Result Tcp.TcpFrame io_error) :=
  let tag := Tcp.tag_from_u8 (Tcp.tag frame) in
  let with_chip c := mkSim c (store sim) (disk sim) (sim_rng sim) in
  match tag with
  | Tcp.SpiDriveCsnLow => Ret (with_chip (csn_low (chip sim)), Ok (Tcp.new Tcp.SpiDriveCsnLow []))
  | Tcp.SpiDriveCsnHigh => Ret (with_chip (csn_high (chip sim)), Ok (Tcp.new Tcp.SpiDriveCsnHigh []))
  | Tcp.SpiSend =>
      let! '(c, d, r, miso) := transfer (chip sim) (device (store sim)) (sim_rng sim) (Tcp.payload frame) in
      let s := mkStore d (store_path (store sim)) in
      let '(c, dirty) := take_store_dirty c in
      if dirty then
        match persist s (disk sim) with
        | Ok f => Ret (mkSim c s f r, Ok (Tcp.new Tcp.SpiSend miso))
        | Err _ => Ret (mkSim c s (disk sim) r, Err Other)
        end
      else Ret (mkSim c s (disk sim) r, Ok (Tcp.new Tcp.SpiSend miso))
  | Tcp.PowerOn | Tcp.PowerOff | Tcp.ResetTarget =>
      Ret (with_chip (power_cycle (chip sim)), Ok (Tcp.new tag []))
  | Tcp.Wait => Ret (sim, Ok (Tcp.new Tcp.Wait []))
  | Tcp.Invalid | Tcp.Unsupported => Ret (sim, Err InvalidData)
  end.

(** The body of a connection's loop: the simulator, the rest of the stream, what was
    written, and how the turn ends. *)
Definition serve_one (sim : Sim) (session : unit) (stream : bytes)
  : res (Sim * unit * bytes * bytes * outcome) :=
  let! rd := Tcp.read_from stream in
  match rd with
  | Err e => Ret (sim, session, [], [], Failed e)
  | Ok (None, rest) => Ret (sim, session, rest, [], Closed)
  | Ok (Some frame, rest) =>
      let! '(sim, reply) := handle_tcp_frame sim frame in
      match reply with
      | Err e => Ret (sim, session, rest, [], Failed e)
      | Ok reply =>
          match Tcp.write_to reply with
          | Err e => Ret (sim, session, rest, [], Failed e)
          | Ok bs => Ret (sim, session, rest, bs, Again)
          end
      end
  end.

(** The server as an instance of the interface of [Connections], which runs the loop. *)
#[export] Instance tropic_protocol : Protocol := {|
  Srv := Sim; Ses := unit; session_init := tt; step := serve_one;
|}.

(** The start of the server: the chip over its store. *)
Definition sim_new (s : Store) (busy : Z) (f : fs) (r : rng) : Sim :=
  mkSim (set_busy_polls (new (personality (device s))) busy) s f r.

(** ** Invariant *)

Context {COk : CratesOk C} {FOk : FileSystemOk F}.

(** The chip is consistent with its device, and every change was offered to the disk. *)
Definition simulator_ok (s : Sim) : Prop :=
  chip_ok (chip s) (device (store s)) /\ store_dirty (chip s) = false.

(** The file holds the device in memory. *)
Definition saved (s : Sim) : Prop :=
  forall p, store_path (store s) = Some p -> fs_read (disk s) p = Some (Ok (device (store s))).

(** What a simulator may become: the one-way changes of the device, the same file. *)
Definition sim_le (s s' : Sim) : Prop :=
  device_le (device (store s)) (device (store s')) /\ store_path (store s') = store_path (store s).

(** What a client reads: envelopes with bytes in them. *)
Definition tcp_answer (out : bytes) : Prop :=
  exists f, Tcp.read_from out = Ret (Ok (Some f, [])) /\ wf (Tcp.payload f).

Lemma chip_ok_new p d busy :
  device_ok d -> personality d = p -> chip_ok (set_busy_polls (new p) busy) d.
Proof.
  intros Hd Hp. split; cbn; try done; first [apply wf_nil | apply Forall_nil_2].
Qed.

Lemma power_cycle_ok c d : chip_ok c d -> chip_ok (power_cycle c) d /\ store_dirty (power_cycle c) = false.
Proof. intros Hc. split; [|done]. apply chip_ok_new; [apply Hc|]. by rewrite (ck_pers _ _ Hc). Qed.

(** What one frame may do. *)
Definition frame_post (s : Sim) (o : Sim * Result Tcp.TcpFrame io_error) : Prop :=
  let '(s', r) := o in
  simulator_ok s' /\ sim_le s s' /\
  (r <> Err Other -> saved s -> saved s') /\
  match r with Ok reply => wf (Tcp.payload reply) | Err _ => True end.

Lemma handle_tcp_frame_ok s frame :
  simulator_ok s -> wf (Tcp.payload frame) -> wp (handle_tcp_frame s frame) (frame_post s).
Proof.
  intros [Hc Hd] Hw.
  assert (Hvol : forall c t, chip_ok c (device (store s)) -> store_dirty c = false ->
    frame_post s (mkSim c (store s) (disk s) (sim_rng s), Ok (Tcp.new t []))).
  { intros c t H1 H2. split; [done|]. split; [split; [reflexivity|done]|]. split; [done|apply wf_nil]. }
  unfold handle_tcp_frame. destruct (Tcp.tag_from_u8 (Tcp.tag frame)).
  - destruct (csn_low_ok _ _ Hc). apply wp_ret, Hvol; [done|congruence].
  - destruct (csn_high_ok _ _ Hc). apply wp_ret, Hvol; [done|congruence].
  - apply wp_bind. eapply wp_mono; [by apply transfer_safe|].
    intros [[[c d] r] miso] (Hst & Hm & _). destruct Hst as [Hc' Hle Hdirty Hclean].
    unfold take_store_dirty. cbv beta iota zeta.
    assert (Hc2 : simulator_ok (mkSim (set_store_dirty c false) (mkStore d (store_path (store s))) (disk s) r))
      by (destruct Hc'; by split).
    destruct (store_dirty c) eqn:Ed.
    + unfold persist. cbn [store_path device]. destruct (store_path (store s)) as [p|] eqn:Ep.
      * destruct (fs_write (disk s) p d) as [f|e] eqn:Ef; apply wp_ret.
        -- split; [exact Hc2|]. split; [done|]. split; [|done]. intros _ _ p' [= <-]. by eapply fs_read_write.
        -- split; [exact Hc2|]. done.
      * apply wp_ret. split; [exact Hc2|]. split; [done|]. split; [|done]. by intros _ _ p' [=].
    + rewrite Hclean in * by done. apply wp_ret. split; [exact Hc2|]. done.
  - destruct (power_cycle_ok _ _ Hc). by apply wp_ret, Hvol.
  - destruct (power_cycle_ok _ _ Hc). by apply wp_ret, Hvol.
  - apply wp_ret. destruct s; by apply Hvol.
  - destruct (power_cycle_ok _ _ Hc). by apply wp_ret, Hvol.
  - by apply wp_ret.
  - by apply wp_ret.
Qed.

Lemma read_from_inv stream :
  wf stream -> wp (Tcp.read_from stream) (fun o => match o with
    | Ok (Some f, rest) => wf (Tcp.payload f) /\ wf rest
    | Ok (None, rest) => wf rest
    | Err _ => True
    end).
Proof.
  intros Hw. unfold Tcp.read_from. destruct (read_exact stream Tcp.TAG_AND_LEN_SIZE) as [[h r]|] eqn:E; [|apply wf_nil].
  apply read_exact_wf in E as (Hh & Hr & Hl); [|done|done]. unfold Tcp.TAG_AND_LEN_SIZE in Hl.
  apply wp_bind, wp_idx; [lia|]. intros tag _. apply wp_bind, wp_idx; [lia|]. intros h1 _.
  apply wp_bind, wp_idx; [lia|]. intros h2 _. destruct (_ <? _); [done|]. destruct (Z.ltb_spec 0 (le_val [h1; h2])).
  - destruct (read_exact r (le_val [h1; h2])) as [[p r']|] eqn:E2; [|done].
    apply read_exact_wf in E2 as (Hp & Hr' & _); [|lia|done]. by apply wp_ret.
  - apply wp_ret. split; [apply wf_vec_repeat; u_solve|done].
Qed.

Lemma tropic_serve_one_safe s u stream :
  simulator_ok s -> wf stream ->
  wp (serve_one s u stream) (fun '(s', _, rest, out, o) =>
    simulator_ok s' /\ sim_le s s' /\ wf rest /\ (out = [] \/ tcp_answer out) /\
    (o <> Failed Other -> saved s -> saved s')).
Proof.
  intros Hs Hw. unfold serve_one. apply wp_bind. eapply wp_mono; [by apply read_from_inv|].
  assert (Hle : sim_le s s) by (split; [reflexivity|done]).
  intros [[[f|] rest]|e] H.
  - destruct H as [Hf Hr]. apply wp_bind. eapply wp_mono; [by apply handle_tcp_frame_ok|].
    intros [s' [reply|e]] (H1 & H2 & H3 & H4).
    + destruct (Tcp.write_to reply) as [bs|e] eqn:Ew; apply wp_ret.
      * split_and!; try done; [|by auto]. right. exists reply. split; [|done].
        rewrite <- (app_nil_r bs). by apply tcp_roundtrip.
      * split_and!; try done; by auto.
    + apply wp_ret. split_and!; try done; [by left|]. intros Ho. apply H3. congruence.
  - apply wp_ret. split_and!; auto.
  - apply wp_ret. split_and!; auto. apply wf_nil.
Qed.

Lemma read_from_shorter stream :
  wlp (Tcp.read_from stream) (fun o => match o with
    | Ok (Some _, rest) => (length rest < length stream)%nat
    | _ => True
    end).
Proof.
  unfold Tcp.read_from. destruct (read_exact stream Tcp.TAG_AND_LEN_SIZE) as [[h r]|] eqn:E; [|done].
  apply read_exact_inv in E as [-> Hl]; [|done].
  unfold Tcp.TAG_AND_LEN_SIZE in Hl. assert (length h = 3%nat) by (unfold len in Hl; lia). rewrite length_app.
  apply wlp_bind, wlp_any. intros tag _. apply wlp_bind, wlp_any. intros h1 _. apply wlp_bind, wlp_any. intros h2 _.
  destruct (_ <? _); [done|]. destruct (Z.ltb_spec 0 (le_val [h1; h2])); [|cbn; lia].
  destruct (read_exact r _) as [[p r']|] eqn:E2; [|done].
  apply read_exact_inv in E2 as [-> _]; [|lia]. cbn. rewrite length_app. lia.
Qed.

Lemma tropic_serve_one_shorter s u stream :
  wlp (serve_one s u stream) (fun '(_, _, rest, _, o) => o = Again -> (length rest < length stream)%nat).
Proof.
  unfold serve_one. apply wlp_bind. eapply wlp_mono; [apply read_from_shorter|].
  intros [[[f|] rest]|e] H; [|by intros [=]..]. apply wlp_bind, wlp_any. intros [s' [reply|e]] _; [|by intros [=]].
  destruct (Tcp.write_to reply); [exact (fun _ => H)|by intros [=]].
Qed.

#[export] Instance tropic_protocol_ok : ProtocolOk tropic_protocol := {|
  srv_ok := simulator_ok;
  srv_le := sim_le;
  srv_saved := saved;
  answer_ok := tcp_answer;
  srv_le_preorder := ltac:(split; [intros s; split; reflexivity|intros s1 s2 s3 [H1 H2] [H3 H4]; split;
    [by transitivity (device (store s2))|congruence]]);
  step_safe := tropic_serve_one_safe;
  step_shorter := tropic_serve_one_shorter;
|}.

(** C1: Whatever byte streams any number of connections send and however their frames
    interleave, no thread panics: a frame that is refused or cannot be saved ends its own
    connection and the frames of the others go on; the chip stays consistent with its
    device, the one-way changes of the device are respected, every client reads a sequence
    of envelopes, and unless a write to the file failed the file holds exactly the device in
    memory, so that a crash loses nothing. *)
Theorem server_safe (sched : list nat) (s : Sim) (conns : list Conn) :
  sim_ok s conns ->
  wp (run_schedule sched s conns) (fun '(s', conns') =>
    simulator_ok s' /\ sim_le s s' /\ (disk_fine conns' -> saved s') /\
    Forall (fun c => exists rs, c_out c = concat rs /\ Forall tcp_answer rs) conns').
Proof.
  intros Hs. eapply wp_mono; [by apply (schedule_safe (POk := tropic_protocol_ok))|].
  intros [s' conns'] [[H1 H2 _ H4] Hle]. by split_and!.
Qed.

(** A server started over a fresh device satisfies the invariant. *)
Theorem server_start {NOk : NistKeysOk} p prov f secs r st f' r' busy :
  0 <= secs -> create p prov f secs r = Ret (Ok st, f', r') ->
  simulator_ok (sim_new st busy f' r') /\ saved (sim_new st busy f' r').
Proof.
  intros Hs E. destruct (create_then_load p prov prov f secs r st f' r' secs r Hs E) as [Hl Hd].
  unfold create in E. destruct (provision prov secs r) as [[d r1]|]; [|done]. cbn [rbind] in E.
  unfold persist in E. cbn [store_path device] in E.
  destruct (fs_write f p d) as [f1|e] eqn:Ew; [|done]. injection E as <- <- <-.
  split; [split; [by apply chip_ok_new|done]|]. intros p' [= <-]. by eapply fs_read_write.
Qed.
End server.
