(* ===== verification/TropicWitness.v ===== *)
(** * TROPIC01Sim: the properties at concrete inputs

    A sample device over the executable crates of [ToyCrates], and for each property
    with hypotheses an application at inputs where they hold. *)

From S2P Require Import Prelude.
From S2P Require Import Crc.
From S2P Require Import Host.
From S2P Require Import Connections.
From S2P Require Import Crates.
From S2P Require Import ToyCrates.
From S2P Require Import TropicTypes.
From S2P Require Import TropicFrame.
From S2P Require Import TropicL3.
From S2P Require Import TropicL3Facts.
From S2P Require Import TropicL3Props.
From S2P Require Import TropicSession.
From S2P Require Import TropicGetInfo.
From S2P Require Import TropicCerts.
From S2P Require Import TropicStore.
From S2P Require Import TropicChip.
From S2P Require Import TropicChipFacts.
From S2P Require Import TropicChipProps.
From S2P Require Import TropicServer.

#[local] Existing Instances toy toy_ok.
#[local] Existing Instance toy_group.

#[local] Instance toy_nist : @NistKeys toy_rng :=
  @Build_NistKeys toy_rng unit (fun r => (tt, r)) (fun _ => vec_repeat 4 97)
    (fun _ m => vec_repeat 0x30 72) unit (fun r => (tt, r)) (fun _ => vec_repeat 4 133)
    (fun _ m => vec_repeat 0x30 100).

#[local] Instance toy_nist_ok : @NistKeysOk toy_rng toy_nist.
Proof. split; intros; (split; [done|apply wf_vec_repeat; u_solve]). Qed.

(** A disk with one file. *)
#[local] Instance toy_fs : FileSystem Device := one_file Device.

#[local] Instance toy_fs_ok : FileSystemOk toy_fs := one_file_ok Device.

(** A device with a pairing key, an Ed25519 key in slot 7 and a counter. *)
Definition key_of (b : Z) : bytes := vec_repeat b 32.
Definition sample_device : Device :=
  mkDevice STORE_FORMAT_VERSION Fw220 (vec_repeat 1 128) (key_of 2) (x25519_public (key_of 2)) []
    (<[0 := mkPairingSlot (x25519_public (key_of 3)) Written]> ∅)
    (vec_repeat 0xffffffff 128) (vec_repeat 0xffffffff 128)
    (<[7 := mkEccSlot CEd25519 Stored (key_of 9)]> ∅) ∅ (<[2 := 5]> ∅) ∅ (key_of 4) (key_of 5).

Lemma key_of_ok b : u8 b -> key32 (key_of b).
Proof. intros. split; [done|]. by apply wf_vec_repeat. Qed.

Lemma sample_device_ok : device_ok sample_device.
Proof.
  assert (Hr : len (vec_repeat 0xffffffff 128) = 128 /\ Forall u32 (vec_repeat 0xffffffff 128)).
  { split; [done|]. apply Forall_replicate. u_solve. }
  split; cbn [sample_device dev_chip_id st_priv st_pub cert_store r_config i_config pairing_slots
    ecc_slots r_mem_slots mcounters macandd_slots macandd_key0 macandd_key1]; try done.
  - split; [done|]. by apply wf_vec_repeat; u_solve.
  - split; [by apply key_of_ok; u_solve|]. split; [apply x25519_public_len|apply x25519_public_wf].
  - apply wf_nil.
  - apply map_Forall_insert_2; [|apply map_Forall_empty]. split; [lia|].
    split; [apply x25519_public_len|apply x25519_public_wf].
  - apply map_Forall_insert_2; [|apply map_Forall_empty]. split; [lia|].
    split; [apply key_of_ok; u_solve|done].
  - apply map_Forall_insert_2; [|apply map_Forall_empty]. split; [lia|]. unfold MCOUNTER_VALUE_MAX. lia.
  - split; apply key_of_ok; u_solve.
Qed.

Definition r0 : @rng toy_rng := 0.
Definition sample_ctx : Ctx :=
  mkCtx sample_device (effective_config sample_device) Fw220 0 r0.

Lemma sample_ctx_ok : ctx_ok sample_ctx.
Proof. split; [apply sample_device_ok|done|cbn; lia]. Qed.

(** Every privilege bit is set. *)
Lemma sample_priv reg div slot :
  0 <= reg -> reg < 512 -> 0 < div -> 0 <= slot -> slot / div <= 3 ->
  slot_priv sample_ctx reg div slot = true.
Proof.
  intros H0 H1 Hd Hs Hg. unfold slot_priv, cfg_reg, uap_bit.
  assert (0 <= slot / div) by (apply Z.div_pos; lia).
  assert (Hreg : cfg sample_ctx !! Z.to_nat (reg / 4) = Some 0xffffffff).
  { change (cfg sample_ctx) with (zip_with Z.land (vec_repeat 0xffffffff 128) (vec_repeat 0xffffffff 128)).
    rewrite lookup_zip_with. unfold vec_repeat. rewrite lookup_replicate_2; [done|].
    assert (reg / 4 < 128) by dlia. change (Z.to_nat 128) with 128%nat. lia. }
  rewrite Hreg. change (default 0 (Some 0xffffffff)) with (Z.ones 32). cbn [pkey sample_ctx]. change (0 <? 8) with true. cbn [andb].
  rewrite Z.add_0_r. rewrite Z.testbit_ones_nonneg by lia.
  apply Z.ltb_lt. lia.
Qed.

(** ** L3 *)

Definition msg5 : bytes := [104; 101; 108; 108; 111].
Lemma msg5_wf : wf msg5.
Proof. do 5 (apply wf_cons; [u_solve|]). apply wf_nil. Qed.

Ltac small := first [done | lia | (cbn; lia)].

Lemma r_mem_lifecycle_witness :
  r_mem_slots (dev sample_ctx) !! 300 = None /\
  exists self1 self2,
    dispatch sample_ctx L3State_default (r_mem_write_req 300 msg5) =
      Ret (self1, L3State_default, Result_ [result.OK]) /\
    dispatch self1 L3State_default (r_mem_read_req 300) =
      Ret (self1, L3State_default, Result_ (result.OK :: [0; 0; 0] ++ msg5)) /\
    dispatch self1 L3State_default (r_mem_write_req 300 [1]) =
      Ret (self1, L3State_default, Result_ [result.SLOT_NOT_EMPTY]) /\
    (forall k, k <> 300 -> r_mem_slots (dev self1) !! k = r_mem_slots (dev sample_ctx) !! k) /\
    dispatch self1 L3State_default (r_mem_erase_req 300) =
      Ret (self2, L3State_default, Result_ [result.OK]) /\
    dispatch self2 L3State_default (r_mem_read_req 300) =
      Ret (self2, L3State_default, Result_ (result.OK :: [0; 0; 0])) /\
    r_mem_slots (dev self2) = r_mem_slots (dev sample_ctx).
Proof.
  split; [done|]. apply (r_mem_lifecycle sample_ctx 300 msg5 [1]); try small.
  all: apply sample_priv; try small; dlia.
Defined.

Lemma mcounter_countdown_witness :
  mcounters (dev sample_ctx) !! 2 = Some 5 /\
  exists self',
    dispatch_all sample_ctx L3State_default (replicate 5 (mcounter_update_req 2)) =
      Ret (self', L3State_default) /\
    mcounters (dev self') !! 2 = Some (5 - Z.of_nat 5) /\
    dispatch self' L3State_default (mcounter_get_req 2) =
      Ret (self', L3State_default, Result_ (result.OK :: [0; 0; 0] ++ le_bytes 4 (5 - Z.of_nat 5))) /\
    (5 = Z.of_nat 5 -> dispatch self' L3State_default (mcounter_update_req 2) =
      Ret (self', L3State_default, Result_ [result.UPDATE_ERR])).
Proof.
  split; [done|]. apply (mcounter_countdown sample_ctx 2 5 5); try small.
  all: apply sample_priv; try small; dlia.
Defined.

Definition other_ctx : Ctx :=
  with_dev sample_ctx (set_macandd_slots sample_device (<[9 := key_of 200]> ∅)).

Lemma mac_and_destroy_forgets_witness :
  macandd_slots (dev sample_ctx) !! 9 <> macandd_slots (dev other_ctx) !! 9 /\
  exists a1 b1 oa ob a2 b2 o,
    dispatch sample_ctx L3State_default (macd_req 9 (key_of 1)) = Ret (a1, L3State_default, Result_ oa) /\
    dispatch other_ctx L3State_default (macd_req 9 (key_of 1)) = Ret (b1, L3State_default, Result_ ob) /\
    macandd_slots (dev a1) !! 9 = macandd_slots (dev b1) !! 9 /\
    dispatch a1 L3State_default (macd_req 9 (key_of 6)) = Ret (a2, L3State_default, Result_ o) /\
    dispatch b1 L3State_default (macd_req 9 (key_of 6)) = Ret (b2, L3State_default, Result_ o) /\
    o = result.OK :: [0; 0; 0] ++
        macd_output (dev sample_ctx) 9 (macd_state (dev sample_ctx) 9 (key_of 1)) (key_of 6).
Proof.
  split; [done|]. apply (mac_and_destroy_forgets sample_ctx other_ctx 9 (key_of 1) (key_of 6)); small.
Defined.

Lemma eddsa_signature_verifies_witness :
  ctx_ok sample_ctx /\
  exists self' pk sig,
    dispatch sample_ctx L3State_default (ecc_read_req 7) = Ret (sample_ctx, L3State_default,
      Result_ (result.OK :: [2; 2] ++ vec_repeat 0 13 ++ pk)) /\
    dispatch sample_ctx L3State_default (eddsa_req 7 msg5) = Ret (self', L3State_default,
      Result_ (result.OK :: vec_repeat 0 15 ++ sig)) /\
    dev self' = dev sample_ctx /\ ed25519_verifies pk msg5 sig.
Proof.
  split; [apply sample_ctx_ok|].
  apply (eddsa_signature_verifies sample_ctx 7 (mkEccSlot CEd25519 Stored (key_of 9)) msg5); try small.
  - apply sample_ctx_ok.
  - apply msg5_wf.
Defined.


Lemma dispatch_all_safe_witness :
  ctx_ok sample_ctx /\
  wp (dispatch_all sample_ctx L3State_default [mcounter_update_req 2; macd_req 9 (key_of 1)])
    (fun '(self', _) => ctx_ok self' /\ device_le (dev sample_ctx) (dev self')).
Proof.
  split; [apply sample_ctx_ok|]. apply dispatch_all_safe; [apply sample_ctx_ok|].
  apply Forall_cons_2; [apply wf_slot_request; [unfold cmd_id.MCOUNTER_UPDATE; u_solve|apply wf_nil]|].
  apply Forall_cons_2; [|apply Forall_nil_2].
  apply wf_slot_request; [unfold cmd_id.MAC_AND_DESTROY; u_solve|].
  apply wf_cons; [u_solve|apply key_of_ok; u_solve].
Defined.

(** ** The session *)


Lemma tunnel_in_step_witness :
  Forall (fun '(p, q) => wf p /\ wf q /\ len p <= 65535 /\ len q <= 65535) [(msg5, msg5)] /\
  exists outs,
    conversation (session_at (key_of 1) (key_of 2) 7 7 0)
      (imap (fun i '(p, q) => (host_wrap (key_of 1) (7 + Z.of_nat i) p, q)) [(msg5, msg5)]) =
      Ret (session_at (key_of 1) (key_of 2) (7 + len [(msg5, msg5)]) (7 + len [(msg5, msg5)]) 0, outs) /\
    imap (fun i out => host_unwrap (key_of 2) (7 + Z.of_nat i) out) outs =
      Some ∘ snd <$> [(msg5, msg5)].
Proof.
  assert (H : Forall (fun '(p, q) => wf p /\ wf q /\ len p <= 65535 /\ len q <= 65535) [(msg5, msg5)]).
  { apply Forall_cons_2; [|apply Forall_nil_2]. split; [apply msg5_wf|]. split; [apply msg5_wf|done]. }
  split; [exact H|]. apply (tunnel_in_step (key_of 1) (key_of 2) 0 [(msg5, msg5)] 7); try done.
Defined.

Lemma response_nonce_fresh_witness :
  exists s' r,
    wrap_l3_response (session_at (key_of 1) (key_of 2) 3 7 0) msg5 = Ret (s', r) /\
    match r with
    | Ok body => 7 < U32_MAX /\ s' = session_at (key_of 1) (key_of 2) 3 (7 + 1) 0 /\
        nonce_at (7 + 1) <> nonce_at 7 /\
        body = le_bytes 2 (as_u16 (len msg5)) ++ gcm_encrypt (key_of 2) (nonce_at 7) [] msg5
    | Err e => 7 = U32_MAX /\ e = NonceOverflow /\ s' = session_at (key_of 1) (key_of 2) 3 7 0
    end.
Proof.
  destruct (wrap_host (key_of 1) (key_of 2) 3 7 0 msg5) as (body & E & _);
    [unfold U32_MAX; lia|apply msg5_wf|done|].
  exists (session_at (key_of 1) (key_of 2) 3 (7 + 1) 0), (Ok body). split; [exact E|].
  apply (response_nonce_fresh (key_of 1) (key_of 2) 3 7 0 msg5 _ (Ok body)); [unfold U32_MAX; lia|exact E].
Defined.

(** ** The chip *)

Definition sample_chip : Chip := new Fw220.
Lemma sample_chip_ok : chip_ok sample_chip sample_device.
Proof. apply (chip_ok_new Fw220 sample_device 1); [apply sample_device_ok|done]. Qed.

Definition open_chip : Chip := set_session sample_chip (session_at (key_of 1) (key_of 2) 3 7 0).
Lemma open_chip_ok : chip_ok open_chip sample_device.
Proof.
  pose proof sample_chip_ok as []. split; cbn; try done.
  intros k [= <-]. split; cbn -[nonce_at].
  - apply key_of_ok; u_solve.
  - apply key_of_ok; u_solve.
  - exists 3. unfold U32_MAX. split; [lia|done].
  - exists 7. unfold U32_MAX. split; [lia|done].
  - lia.
Qed.

Lemma encrypted_command_end_to_end_witness :
  exists c' body ctx q,
    bus_command 2 19 open_chip sample_device r0 (host_wrap (key_of 1) 3 (mcounter_update_req 2)) =
      Ret (c', dev ctx, ctx_rng ctx, Some body) /\
    mcounters (dev ctx) !! 2 = Some 4 /\ host_unwrap (key_of 2) 7 body = Some q /\
    c_session c' = session_at (key_of 1) (key_of 2) (3 + 1) (7 + 1) 0 /\ l3_packet c' = [].
Proof.
  set (self' := with_dev sample_ctx (set_mcounters sample_device (<[2 := 4]> (mcounters sample_device)))).
  assert (Hd : dispatch sample_ctx L3State_default (mcounter_update_req 2) =
    Ret (self', L3State_default, Result_ [result.OK])) by (rewrite mcounter_update_eq by small; done).
  destruct (encrypted_command_end_to_end (C := toy) 2 19 open_chip sample_device r0 (key_of 1) (key_of 2) 3 7 0
    (mcounter_update_req 2) self' L3State_default [result.OK])
    as (c' & body & H1 & H2 & _ & _ & H3 & H4).
  - apply open_chip_ok.
  - reflexivity.
  - reflexivity.
  - reflexivity.
  - unfold U32_MAX; lia.
  - unfold U32_MAX; lia.
  - apply wf_slot_request; [unfold cmd_id.MCOUNTER_UPDATE; u_solve|apply wf_nil].
  - discriminate.
  - apply wf_cons; [unfold result.OK; u_solve|apply wf_nil].
  - discriminate.
  - apply le_n.
  - apply le_n.
  - exact Hd.
  - exists c', body, self', [result.OK].
    split; [exact H1|]. split; [reflexivity|]. split; [exact H2|]. split; [exact H3|exact H4].
Defined.

Definition ok_frame : bytes := status_frame status.REQUEST_OK.

Definition polled_chip : Chip := set_busy_left (set_queue sample_chip [ok_frame]) 2.

Lemma poll_delivers_witness :
  c_queue polled_chip = [ok_frame] /\
  exists c' busy,
    polls (S (Z.to_nat (busy_left polled_chip))) polled_chip sample_device r0
      (replicate (length ok_frame) 0) =
      Ret (c', sample_device, r0, busy ++ [ready_status (c_mode polled_chip) :: ok_frame]) /\
    Forall (fun m => tail m = replicate (length ok_frame) 0xff) busy /\
    length busy = Z.to_nat (busy_left polled_chip) /\
    c_queue c' = [] /\ last_response c' = Some ok_frame.
Proof.
  split; [reflexivity|].
  apply (poll_delivers (C := toy) polled_chip sample_device r0 ok_frame []); [discriminate|reflexivity|].
  cbn. lia.
Defined.

Definition resend_frame : bytes := status_frame req.RESEND.

Lemma resend_replays_witness :
  exists c' s,
    transaction (set_last_response sample_chip (Some ok_frame)) sample_device r0 resend_frame =
      Ret (c', sample_device, r0, s :: replicate (length resend_frame - 1) 0xff) /\
    c_queue c' = [ok_frame] /\ busy_left c' = 1 /\ c_mode c' = Application /\
    l3_packet c' = [] /\ c_session c' = session_new.
Proof.
  apply (resend_replays (C := toy) (set_last_response sample_chip (Some ok_frame)) sample_device r0 ok_frame
    resend_frame); [discriminate|reflexivity|].
  apply (build_status req.RESEND). unfold req.RESEND. u_solve.
Defined.

Lemma alarm_absorbing_witness :
  c_mode (set_mode sample_chip Alarm) = Alarm /\
  wlp (transfer (set_mode sample_chip Alarm) sample_device r0 ok_frame) (fun '(c', d', r', _) =>
    d' = sample_device /\ r' = r0 /\ c_mode c' = Alarm /\
    c_queue c' = c_queue (set_mode sample_chip Alarm) /\
    c_session c' = c_session (set_mode sample_chip Alarm)).
Proof.
  split; [reflexivity|].
  apply (alarm_absorbing (C := toy) (set_mode sample_chip Alarm) sample_device r0 ok_frame); [reflexivity|].
  apply wf_cons; [unfold status.REQUEST_OK; u_solve|]. apply wf_cons; [u_solve|apply wf_be_bytes].
Defined.

(** ** The server *)

Definition the_path : @path Device toy_fs := tt.
Definition no_file : @fs Device toy_fs := None.
Definition file (d : Device) : @fs Device toy_fs := Some d.
Definition sample_sim : Sim :=
  mkSim sample_chip (mkStore sample_device (Some the_path)) (file sample_device) r0.
Lemma sample_sim_ok : simulator_ok sample_sim /\ saved sample_sim.
Proof. split; [split; [apply sample_chip_ok|reflexivity]|]. by intros p [= <-]. Qed.

(** Two clients: one clocks a frame, the other sends a frame that is refused. *)
Definition client_a : bytes := [1; 0; 0; 3; 4; 0] ++ ok_frame ++ [2; 0; 0].
Definition client_b : bytes := [0xFD; 0; 0; 1; 0; 0].

Lemma server_safe_witness :
  sim_ok sample_sim [conn_new client_a; conn_new client_b] /\
  wp (run_schedule [0%nat; 1%nat; 0%nat; 1%nat; 0%nat; 0%nat] sample_sim [conn_new client_a; conn_new client_b])
    (fun '(s', conns') => simulator_ok s' /\ sim_le sample_sim s' /\ (disk_fine conns' -> saved s') /\
      Forall (fun c => exists rs, c_out c = concat rs /\ Forall tcp_answer rs) conns').
Proof.
  assert (H : sim_ok sample_sim [conn_new client_a; conn_new client_b]).
  { split; [apply sample_sim_ok|intros _; apply sample_sim_ok| |].
    - apply Forall_cons_2; [by apply wf_literal; vm_compute|].
      apply Forall_cons_2; [by apply wf_literal; vm_compute|apply Forall_nil_2].
    - do 2 (apply Forall_cons_2; [by exists []|]). apply Forall_nil_2. }
  split; [exact H|]. exact (server_safe (C := toy) [0%nat; 1%nat; 0%nat; 1%nat; 0%nat; 0%nat] sample_sim _ H).
Defined.

Definition sample_prov : Provisioning := mkProvisioning Fw220 true.

Lemma server_start_witness :
  exists st f' r', create the_path sample_prov no_file 1700000000 r0 = Ret (Ok st, f', r') /\
    simulator_ok (sim_new st 1 f' r') /\ saved (sim_new st 1 f' r').
Proof.
  destruct (wp_elim _ _ (provision_ok (C := toy) sample_prov 1700000000 r0 ltac:(lia))) as ([d r1] & E & _).
  assert (Hc : create the_path sample_prov no_file 1700000000 r0 =
    Ret (Ok (mkStore d (Some the_path)), (file d), r1)) by (unfold create; rewrite E; reflexivity).
  exists (@mkStore toy_fs d (Some the_path)), (file d), r1. split; [exact Hc|].
  apply (server_start (C := toy) the_path sample_prov no_file 1700000000 r0 _ _ _ 1); [lia|exact Hc].
Defined.

Lemma tcp_roundtrip_witness :
  exists bs, Tcp.write_to (Tcp.new Tcp.SpiSend msg5) = Ok bs /\
    Tcp.read_from (bs ++ [1; 0]) = Ret (Ok (Some (Tcp.new Tcp.SpiSend msg5), [1; 0])).
Proof.
  exists [3; 5; 0; 104; 101; 108; 108; 111]. split; [reflexivity|].
  apply (tcp_roundtrip (Tcp.new Tcp.SpiSend msg5) [3; 5; 0; 104; 101; 108; 108; 111] [1; 0]).
  reflexivity.
Defined.

Lemma der_roundtrip_witness :
  len msg5 < 65536 /\ read_tlv (tlv 4 msg5 ++ [9]) = Some (4, msg5, [9]).
Proof. split; [reflexivity|]. apply (der_roundtrip 4 msg5 [9]). reflexivity. Defined.
