(* ===== verification/AteccTypes.v ===== *)
(** * ATECC608Sim: packets, the device and the session

    [atca.rs] (the packet format), [object_store] (the persistent device, its
    factory configuration and its file) and [session.rs] (the volatile state of a
    connection). *)

From S2P Require Import Prelude.
From S2P Require Import Crc.
From S2P Require Import Host.
From S2P Require Import Crates.
Import AteccCrc.

(** ** [atca.rs] *)

Definition MIN_CMD_LEN : Z := 7.

Module status.
Definition SUCCESS : Z := 0x00.
Definition MISCOMPARE : Z := 0x01.
Definition PARSE_ERROR : Z := 0x03.
Definition EXECUTION_ERROR : Z := 0x0F.
Definition AFTER_WAKE : Z := 0x11.
Definition CRC_ERROR : Z := 0xFF.
End status.

Definition WAKE_RESPONSE : bytes := [0x04; 0x11; 0x33; 0x43].

Record Command := mkCommand {
  opcode : Z;
  p1 : Z;
  p2 : Z;
  cmd_data : bytes;
}.

Definition parse (packet : bytes) : res (Result Command Z) :=
  if len packet <? MIN_CMD_LEN then Ret (Err status.PARSE_ERROR)
  else
    let! count := idx packet 0 in
    if negb (count =? len packet) || (count <? MIN_CMD_LEN) then Ret (Err status.PARSE_ERROR)
    else
      let crc_start := count - 2 in
      let! covered := slice packet 0 crc_start in
      let! lo := idx packet crc_start in
      let! hi := idx packet (crc_start + 1) in
      if negb (crc16 covered =? le_val [lo; hi]) then Ret (Err status.CRC_ERROR)
      else
        let! opcode := idx packet 1 in
        let! p1 := idx packet 2 in
        let! p2_lo := idx packet 3 in
        let! p2_hi := idx packet 4 in
        let! data := slice packet 5 crc_start in
        Ret (Ok (mkCommand opcode p1 (le_val [p2_lo; p2_hi]) data)).

Definition build_response (body : bytes) : res bytes :=
  let count := 1 + len body + 2 in
  let! _ := rassert (count <=? 0xFF) in
  let out := as_u8 count :: body in
  Ret (out ++ crc16_le out).

Definition status_response (status : Z) : res bytes := build_response [status].

(** ** [object_store] *)

Definition CONFIG_SIZE : Z := 128.
Definition OTP_SIZE : Z := 64.
Definition NUM_SLOTS : Z := 16.
Definition SLOT_SIZE : Z := 72.

Module zone.
Definition CONFIG : Z := 0x00.
Definition OTP : Z := 0x01.
Definition DATA : Z := 0x02.
End zone.

Record SlotData := mkSlotData { data : bytes }.

Definition empty : SlotData := mkSlotData [].

Record Device := mkDevice {
  config : bytes;
  otp : bytes;
  slots : list SlotData;
}.

Definition set_config (d : Device) (c : bytes) : Device := mkDevice c (otp d) (slots d).
Definition set_otp (d : Device) (o : bytes) : Device := mkDevice (config d) o (slots d).
Definition set_slots (d : Device) (s : list SlotData) : Device := mkDevice (config d) (otp d) s.

Definition config_locked (self : Device) : res bool :=
  let! b := idx (config self) 87 in Ret (negb (b =? 0x55)).

Definition data_locked (self : Device) : res bool :=
  let! b := idx (config self) 86 in Ret (negb (b =? 0x55)).

(** A clear bit of the SlotLocked word means that the slot is locked. *)
Definition slot_locked (self : Device) (slot : Z) : res bool :=
  let! lo := idx (config self) 88 in
  let! hi := idx (config self) 89 in
  let! w := shr16 (le_val [lo; hi]) slot in
  Ret (Z.land w 1 =? 0).

Definition set_config_locked (self : Device) (locked : bool) : res Device :=
  let! c := set_idx (config self) 87 (if locked then 0x00 else 0x55) in
  Ret (set_config self c).

Definition set_data_locked (self : Device) (locked : bool) : res Device :=
  let! c := set_idx (config self) 86 (if locked then 0x00 else 0x55) in
  Ret (set_config self c).

Definition set_slot_locked (self : Device) (slot : Z) (locked : bool) : res Device :=
  let! lo := idx (config self) 88 in
  let! hi := idx (config self) 89 in
  let word := le_val [lo; hi] in
  let! bit := shl16 1 slot in
  let word := if locked then Z.land word (Z.lxor bit 0xFFFF) else Z.lor word bit in
  let b := le_bytes 2 word in
  let! b0 := idx b 0 in
  let! b1 := idx b 1 in
  let! c := set_idx (config self) 88 b0 in
  let! c := set_idx c 89 b1 in
  Ret (set_config self c).

(** [for slot in lo..hi { config\[base + slot * 2\] = a; config\[base + slot * 2 + 1\] = b; }] *)
Fixpoint fill_pairs (config : bytes) (base : Z) (slots : list Z) (a b : Z) : res bytes :=
  match slots with
  | [] => Ret config
  | slot :: slots =>
      let off := base + slot * 2 in
      let! config := set_idx config off a in
      let! config := set_idx config (off + 1) b in
      fill_pairs config base slots a b
  end.

Fixpoint set_all (config : bytes) (writes : list (Z * Z)) : res bytes :=
  match writes with
  | [] => Ret config
  | (i, x) :: writes => let! config := set_idx config i x in set_all config writes
  end.

Definition default_device : res Device :=
  let config := vec_repeat 0 CONFIG_SIZE in
  let! config := set_all config
    [(0, 0x01); (1, 0x23); (2, 0x00); (3, 0x00); (4, 0x00); (5, 0x00); (6, 0x60); (7, 0x02);
     (8, 0xEE); (9, 0xCC); (10, 0xBB); (11, 0xAA); (12, 0x99); (13, 0x88); (14, 0xEE); (15, 0x01);
     (16, 0xC0)] in
  let! config := fill_pairs config 20 [0; 1; 2; 3; 4; 5; 6; 7] 0x87 0x20 in
  let! config := fill_pairs config 20 [8; 9; 10; 11; 12; 13; 14; 15] 0x0F 0x0F in
  let! config := set_all config [(86, 0x00); (87, 0x00); (88, 0xFF); (89, 0xFF)] in
  let! config := fill_pairs config 96 [0; 1; 2; 3; 4; 5; 6; 7] 0x33 0x00 in
  let! config := fill_pairs config 96 [8; 9; 10; 11; 12; 13; 14; 15] 0x3C 0x00 in
  let slots := vec_repeat empty NUM_SLOTS in
  Ret (mkDevice config (vec_repeat 0 OTP_SIZE) slots).

Section store.
Context {F : FileSystem Device}.

Record Store := mkStore {
  device : Device;
  store_path : option (path);
}.

Definition fresh : res Store := let! d := default_device in Ret (mkStore d None).

Definition persist (self : Store) (f : fs) : Result fs io_error :=
  match store_path self with
  | Some p => fs_write f p (device self)
  | None => Ok f
  end.

Definition load_or_init (p : path) (f : fs) : res (Result Store io_error * fs) :=
  match fs_read f p with
  | Some (Ok d) => Ret (Ok (mkStore d (Some p)), f)
  | Some (Err e) => Ret (Err e, f)
  | None =>
      let! d := default_device in
      let s := mkStore d (Some p) in
      match persist s f with
      | Ok f => Ret (Ok s, f)
      | Err e => Ret (Err e, f)
      end
  end.
End store.

(** ** [session.rs] *)

Inductive TempKeySource := NoncePassThrough.

Record TempKey := mkTempKey {
  value : bytes;
  valid : bool;
  source : option TempKeySource;
}.

Definition load_passthrough (self : TempKey) (data : bytes) : TempKey :=
  mkTempKey data true (Some NoncePassThrough).

Definition tempkey_clear (self : TempKey) : TempKey := mkTempKey (vec_repeat 0 32) false None.

Section session.
Context `{H : Hashes}.

Record ShaCtx := mkShaCtx { hasher : option sha256_t }.

Definition sha_start (self : ShaCtx) : ShaCtx := mkShaCtx (Some sha256_new).

Definition sha_update (self : ShaCtx) (data : bytes) : ShaCtx * bool :=
  match hasher self with
  | Some h => (mkShaCtx (Some (sha256_update h data)), true)
  | None => (self, false)
  end.

(** [take] leaves the context empty. *)
Definition sha_finish (self : ShaCtx) (trailing : bytes) : ShaCtx * option bytes :=
  match hasher self with
  | None => (self, None)
  | Some h =>
      let digest :=
        if bool_decide (trailing = []) then sha256_finalize h
        else sha256_finalize (sha256_update h trailing) in
      (mkShaCtx None, Some digest)
  end.

Definition sha_clear (self : ShaCtx) : ShaCtx := mkShaCtx None.

Record Session := mkSession {
  tempkey : TempKey;
  sha : ShaCtx;
}.

Definition session_new : Session :=
  mkSession (mkTempKey (vec_repeat 0 32) false None) (mkShaCtx None).

Definition volatile_reset (self : Session) : Session :=
  mkSession (tempkey_clear (tempkey self)) (sha_clear (sha self)).
End session.
