(* ===== verification/AteccHandlers.v ===== *)
(** * ATECC608Sim: the commands and the dispatcher

    [handlers/*.rs], one module per file, and [dispatch.rs].  Handlers take the
    device, the session or the generator only where the code does; [dispatch]
    threads all three. *)

From S2P Require Import Prelude.
From S2P Require Import Crates.
From S2P Require Import AteccTypes.

(** Whether a bit of a mask is set: [x & mask != 0]. *)
Definition has (x mask : Z) : bool := negb (Z.land x mask =? 0).

Module info.
Definition handle (device : Device) (cmd : Command) : res bytes :=
  if negb (p1 cmd =? 0x00) then status_response status.PARSE_ERROR
  else
    let! rev := slice (config device) 4 8 in
    build_response rev.
End info.

Module random.
Section random.
Context `{C : Crates}.
Definition handle (r : rng) : res (bytes * rng) :=
  let '(buf, r) := fill_bytes 32 r in
  let! resp := build_response buf in
  Ret (resp, r).
End random.
End random.

Module read_zone.
Definition read_linear (zone : bytes) (size addr len_ : Z) : res bytes :=
  let offset := Z.land addr 0x7 in
  let block := Z.land (Z.shiftr addr 3) 0x3 in
  let byte_offset := block * 32 + (if len_ =? 32 then 0 else offset * 4) in
  if size <? byte_offset + len_ then status_response status.PARSE_ERROR
  else
    let! out := slice zone byte_offset (byte_offset + len_) in
    build_response out.

Definition read_data (device : Device) (addr len_ : Z) : res bytes :=
  let offset := Z.land addr 0x7 in
  let block := Z.land (Z.shiftr addr 3) 0x1F in
  let slot := Z.land (Z.shiftr addr 8) 0x0F in
  if NUM_SLOTS <=? slot then status_response status.PARSE_ERROR
  else
    let byte_offset := block * 32 + (if len_ =? 32 then 0 else offset * 4) in
    if SLOT_SIZE <? byte_offset + len_ then status_response status.PARSE_ERROR
    else
      let! s := idx (slots device) slot in
      let slot_data := data s in
      let out := vec_repeat 0 len_ in
      let avail := Z.min (len slot_data) (byte_offset + len_) in
      let! out :=
        (if byte_offset <? avail then
           let! src := slice slot_data byte_offset avail in
           copy_from_slice out 0 (avail - byte_offset) src
         else Ret out) in
      build_response out.

Definition handle (device : Device) (cmd : Command) : res bytes :=
  let is_32 := has (p1 cmd) 0x80 in
  let zone_id := Z.land (p1 cmd) 0x03 in
  let addr := p2 cmd in
  let len_ := if is_32 then 32 else 4 in
  if zone_id =? zone.CONFIG then read_linear (config device) CONFIG_SIZE addr len_
  else if zone_id =? zone.OTP then read_linear (otp device) OTP_SIZE addr len_
  else if zone_id =? zone.DATA then read_data device addr len_
  else status_response status.PARSE_ERROR.
End read_zone.

Module write_zone.
Definition addr_to_byte_offset (addr len_ : Z) : Z :=
  let offset := Z.land addr 0x7 in
  let block := Z.land (Z.shiftr addr 3) 0x3 in
  block * 32 + (if len_ =? 32 then 0 else offset * 4).

Definition write_config (device : Device) (addr : Z) (src : bytes) : res (Device * Result unit Z) :=
  let! locked := config_locked device in
  if locked then Ret (device, Err status.EXECUTION_ERROR)
  else
    let off := addr_to_byte_offset addr (len src) in
    if CONFIG_SIZE <? off + len src then Ret (device, Err status.PARSE_ERROR)
    else
      let! c := copy_from_slice (config device) off (off + len src) src in
      Ret (set_config device c, Ok tt).

Definition write_otp (device : Device) (addr : Z) (src : bytes) : res (Device * Result unit Z) :=
  let! locked := data_locked device in
  if locked then Ret (device, Err status.EXECUTION_ERROR)
  else
    let off := addr_to_byte_offset addr (len src) in
    if OTP_SIZE <? off + len src then Ret (device, Err status.PARSE_ERROR)
    else
      let! o := copy_from_slice (otp device) off (off + len src) src in
      Ret (set_otp device o, Ok tt).

Definition write_data (device : Device) (addr : Z) (src : bytes) : res (Device * Result unit Z) :=
  let offset := Z.land addr 0x7 in
  let block := Z.land (Z.shiftr addr 3) 0x1F in
  let slot := Z.land (Z.shiftr addr 8) 0x0F in
  if NUM_SLOTS <=? slot then Ret (device, Err status.PARSE_ERROR)
  else
    let! dl := data_locked device in
    let! locked := (if dl then slot_locked device slot else Ret false) in
    if locked then Ret (device, Err status.EXECUTION_ERROR)
    else
      let off := block * 32 + (if len src =? 32 then 0 else offset * 4) in
      if SLOT_SIZE <? off + len src then Ret (device, Err status.PARSE_ERROR)
      else
        let! s := idx (slots device) slot in
        let slot_data := data s in
        let slot_data :=
          if len slot_data <? off + len src then resize slot_data (off + len src) 0 else slot_data in
        let! slot_data := copy_from_slice slot_data off (off + len src) src in
        let! sl := set_idx (slots device) slot (mkSlotData slot_data) in
        Ret (set_slots device sl, Ok tt).

Definition handle (device : Device) (cmd : Command) : res (Device * bytes) :=
  let fail sw := let! resp := status_response sw in Ret (device, resp) in
  if has (p1 cmd) 0x40 then fail status.EXECUTION_ERROR
  else
    let is_32 := has (p1 cmd) 0x80 in
    let zone_id := Z.land (p1 cmd) 0x03 in
    let expected := if is_32 then 32 else 4 in
    if negb (len (cmd_data cmd) =? expected) then fail status.PARSE_ERROR
    else
      let answer (m : res (Device * Result unit Z)) :=
        let! '(device, result) := m in
        match result with
        | Ok tt => let! resp := status_response status.SUCCESS in Ret (device, resp)
        | Err sw => let! resp := status_response sw in Ret (device, resp)
        end in
      if zone_id =? zone.CONFIG then answer (write_config device (p2 cmd) (cmd_data cmd))
      else if zone_id =? zone.OTP then answer (write_otp device (p2 cmd) (cmd_data cmd))
      else if zone_id =? zone.DATA then answer (write_data device (p2 cmd) (cmd_data cmd))
      else fail status.PARSE_ERROR.
End write_zone.

Module lock.
Definition handle (device : Device) (cmd : Command) : res (Device * bytes) :=
  let answer device sw := let! resp := status_response sw in Ret (device, resp) in
  let mode_bits := Z.land (p1 cmd) 0x03 in
  if mode_bits =? 0 then
    let! locked := config_locked device in
    if locked then answer device status.EXECUTION_ERROR
    else
      let! device := set_config_locked device true in
      answer device status.SUCCESS
  else if mode_bits =? 1 then
    let! locked := data_locked device in
    if locked then answer device status.EXECUTION_ERROR
    else
      let! device := set_data_locked device true in
      answer device status.SUCCESS
  else if mode_bits =? 2 then
    let slot := Z.land (Z.shiftr (p1 cmd) 2) 0x0F in
    if NUM_SLOTS <=? slot then answer device status.PARSE_ERROR
    else
      let! locked := slot_locked device slot in
      if locked then answer device status.EXECUTION_ERROR
      else
        let! device := set_slot_locked device slot true in
        answer device status.SUCCESS
  else answer device status.PARSE_ERROR.
End lock.

(** The session commands. *)
Module sha.
Section sha.
Context `{C : Crates}.
Definition set_sha (s : Session) (c : ShaCtx) : Session := mkSession (tempkey s) c.

Definition handle (session : Session) (cmd : Command) : res (Session * bytes) :=
  let answer session sw := let! resp := status_response sw in Ret (session, resp) in
  if p1 cmd =? 0x00 then
    answer (set_sha session (sha_start (AteccTypes.sha session))) status.SUCCESS
  else if p1 cmd =? 0x01 then
    let '(c, ok) := sha_update (AteccTypes.sha session) (cmd_data cmd) in
    if negb ok then answer (set_sha session c) status.EXECUTION_ERROR
    else answer (set_sha session c) status.SUCCESS
  else if p1 cmd =? 0x02 then
    let '(c, digest) := sha_finish (AteccTypes.sha session) (cmd_data cmd) in
    match digest with
    | None => answer (set_sha session c) status.EXECUTION_ERROR
    | Some d => let! resp := build_response d in Ret (set_sha session c, resp)
    end
  else if p1 cmd =? 0x03 then
    let! resp := build_response (sha256_finalize (sha256_update sha256_new (cmd_data cmd))) in
    Ret (session, resp)
  else answer session status.PARSE_ERROR.
End sha.
End sha.

Module nonce.
Section nonce.
Context `{C : Crates}.
Definition handle (session : Session) (cmd : Command) : res (Session * bytes) :=
  let answer session sw := let! resp := status_response sw in Ret (session, resp) in
  let mode := Z.land (p1 cmd) 0x07 in
  if negb (mode =? 0x03) then answer session status.PARSE_ERROR
  else if negb (len (cmd_data cmd) =? 32) then answer session status.PARSE_ERROR
  else
    let! buf := copy_from_slice (vec_repeat 0 32) 0 32 (cmd_data cmd) in
    answer (mkSession (load_passthrough (tempkey session) buf) (AteccTypes.sha session))
      status.SUCCESS.
End nonce.
End nonce.

Module genkey.
Section genkey.
Context `{C : Crates}.
Definition pubkey_raw (sk : p256_secret) : res bytes :=
  let bytes := p256_to_encoded_point (p256_public_of sk) in
  let! xy := slice bytes 1 65 in
  copy_from_slice (vec_repeat 0 64) 0 64 xy.

Definition slot_scalar (device : Device) (slot : Z) : res (option bytes) :=
  let! s := idx (slots device) slot in
  let data := data s in
  if len data <? 32 then Ret None
  else
    let! src := slice data 0 32 in
    let! out := copy_from_slice (vec_repeat 0 32) 0 32 src in
    Ret (Some out).

Definition handle (device : Device) (cmd : Command) (r : rng) : res (Device * bytes * rng) :=
  let fail sw := let! resp := status_response sw in Ret (device, resp, r) in
  let slot := p2 cmd in
  if NUM_SLOTS <=? slot then fail status.PARSE_ERROR
  else if p1 cmd =? 0x04 then
    let! locked := slot_locked device slot in
    if locked then fail status.EXECUTION_ERROR
    else
      let '(sk, r) := p256_random r in
      let priv_scalar := p256_secret_to_bytes sk in
      let! pk_bytes := pubkey_raw sk in
      let! s := idx (slots device) slot in
      let slot_data := data s in
      let slot_data := if len slot_data <? 32 then resize slot_data 32 0 else slot_data in
      let! slot_data := copy_from_slice slot_data 0 32 priv_scalar in
      let! sl := set_idx (slots device) slot (mkSlotData slot_data) in
      let! resp := build_response pk_bytes in
      Ret (set_slots device sl, resp, r)
  else if p1 cmd =? 0x00 then
    let! scalar := slot_scalar device slot in
    match scalar with
    | None => fail status.EXECUTION_ERROR
    | Some s =>
        match p256_secret_from_slice s with
        | None => fail status.EXECUTION_ERROR
        | Some k =>
            let! pk := pubkey_raw k in
            let! resp := build_response pk in
            Ret (device, resp, r)
        end
    end
  else fail status.PARSE_ERROR.
End genkey.
End genkey.

Module sign.
Section sign.
Context `{C : Crates}.
Definition handle (device : Device) (session : Session) (cmd : Command) : res bytes :=
  if negb (has (p1 cmd) 0x80) then status_response status.EXECUTION_ERROR
  else
    let slot := p2 cmd in
    if NUM_SLOTS <=? slot then status_response status.PARSE_ERROR
    else if negb (valid (tempkey session)) then status_response status.EXECUTION_ERROR
    else
      let! scalar := genkey.slot_scalar device slot in
      match scalar with
      | None => status_response status.EXECUTION_ERROR
      | Some s =>
          match p256_secret_from_slice s with
          | None => status_response status.EXECUTION_ERROR
          | Some sk =>
              match p256_sign_prehash sk (value (tempkey session)) with
              | None => status_response status.EXECUTION_ERROR
              | Some sig => build_response sig
              end
          end
      end.
End sign.
End sign.

Module verify.
Section verify.
Context `{C : Crates}.
Definition handle (session : Session) (cmd : Command) : res bytes :=
  if negb (Z.land (p1 cmd) 0x07 =? 0x02) then status_response status.EXECUTION_ERROR
  else if negb (len (cmd_data cmd) =? 128) then status_response status.PARSE_ERROR
  else if negb (valid (tempkey session)) then status_response status.EXECUTION_ERROR
  else
    let! sig_bytes := slice (cmd_data cmd) 0 64 in
    let! pk_bytes := slice (cmd_data cmd) 64 128 in
    match p256_signature_from_slice sig_bytes with
    | None => status_response status.PARSE_ERROR
    | Some sig =>
        match p256_from_xy (sub pk_bytes 0 32) (sub pk_bytes 32 64) with
        | None => status_response status.PARSE_ERROR
        | Some vk =>
            if p256_verify_prehash vk (value (tempkey session)) sig
            then status_response status.SUCCESS
            else status_response status.MISCOMPARE
        end
    end.
End verify.
End verify.

Module ecdh.
Section ecdh.
Context `{C : Crates}.
Definition handle (device : Device) (cmd : Command) : res bytes :=
  if negb (p1 cmd =? 0x00) then status_response status.EXECUTION_ERROR
  else
    let slot := p2 cmd in
    if NUM_SLOTS <=? slot then status_response status.PARSE_ERROR
    else if negb (len (cmd_data cmd) =? 64) then status_response status.PARSE_ERROR
    else
      let! scalar_bytes := genkey.slot_scalar device slot in
      match scalar_bytes with
      | None => status_response status.EXECUTION_ERROR
      | Some s =>
          match p256_secret_from_slice s with
          | None => status_response status.EXECUTION_ERROR
          | Some sk =>
              let! xy := slice (cmd_data cmd) 0 64 in
              match p256_from_xy (sub xy 0 32) (sub xy 32 64) with
              | None => status_response status.PARSE_ERROR
              | Some peer_pk => build_response (p256_dh sk peer_pk)
              end
          end
      end.
End ecdh.
End ecdh.

(** ** [dispatch.rs] *)

Module op.
Definition READ : Z := 0x02.
Definition WRITE : Z := 0x12.
Definition LOCK : Z := 0x17.
Definition NONCE : Z := 0x16.
Definition RANDOM : Z := 0x1B.
Definition INFO : Z := 0x30.
Definition GENKEY : Z := 0x40.
Definition SIGN : Z := 0x41.
Definition ECDH : Z := 0x43.
Definition VERIFY : Z := 0x45.
Definition SHA : Z := 0x47.
End op.

Section dispatch.
Context `{C : Crates}.

(** The [match] on the opcode. *)
Definition run (device : Device) (session : Session) (r : rng) (cmd : Command)
  : res (Device * Session * rng * bytes) :=
  let pure m := let! resp := m in Ret (device, session, r, resp) in
  let on_device m := let! '(device, resp) := m in Ret (device, session, r, resp) in
  let on_session m := let! '(session, resp) := m in Ret (device, session, r, resp) in
  if opcode cmd =? op.INFO then pure (info.handle device cmd)
  else if opcode cmd =? op.RANDOM then
    let! '(resp, r) := random.handle r in Ret (device, session, r, resp)
  else if opcode cmd =? op.READ then pure (read_zone.handle device cmd)
  else if opcode cmd =? op.WRITE then on_device (write_zone.handle device cmd)
  else if opcode cmd =? op.LOCK then on_device (lock.handle device cmd)
  else if opcode cmd =? op.SHA then on_session (sha.handle session cmd)
  else if opcode cmd =? op.NONCE then on_session (nonce.handle session cmd)
  else if opcode cmd =? op.GENKEY then
    let! '(device, resp, r) := genkey.handle device cmd r in Ret (device, session, r, resp)
  else if opcode cmd =? op.SIGN then pure (sign.handle device session cmd)
  else if opcode cmd =? op.VERIFY then pure (verify.handle session cmd)
  else if opcode cmd =? op.ECDH then pure (ecdh.handle device cmd)
  else pure (status_response status.PARSE_ERROR).

Definition dispatch (device : Device) (session : Session) (r : rng) (raw_packet : bytes)
  : res (Device * Session * rng * bytes) :=
  let! parsed := parse raw_packet in
  match parsed with
  | Err sw => let! resp := status_response sw in Ret (device, session, r, resp)
  | Ok cmd => run device session r cmd
  end.
End dispatch.
