(* ===== verification/AteccFacts.v ===== *)
(** * ATECC608Sim: packets and the invariant

    What the packet parser accepts ([atecc_parse_cases]), the frames the device answers,
    the invariant [device_ok] of the persistent device, and the order [device_le] of
    its lock bits; every command preserves both and never panics
    ([atecc_dispatch_safe]). *)

From S2P Require Import Prelude.
From S2P Require Import Crc.
From S2P Require Import Host.
From S2P Require Import Crates.
From S2P Require Import AteccTypes.
From S2P Require Import AteccHandlers.
Import AteccCrc.

(** ** Packets *)

(** The packet a host sends for a command, and the frame the device answers. *)
Definition command_body (cmd : Command) : bytes :=
  (7 + len (cmd_data cmd)) :: opcode cmd :: p1 cmd :: p2 cmd mod 256 :: p2 cmd / 256 :: cmd_data cmd.
Definition command_packet (cmd : Command) : bytes :=
  command_body cmd ++ le_bytes 2 (crc16 (command_body cmd)).
Definition command_ok (cmd : Command) : Prop :=
  u8 (opcode cmd) /\ u8 (p1 cmd) /\ u16 (p2 cmd) /\ wf (cmd_data cmd) /\ len (cmd_data cmd) <= 248.

Definition response_frame (body : bytes) : bytes :=
  let out := (3 + len body) :: body in out ++ crc16_le out.

Lemma build_response_ret body : len body <= 252 -> build_response body = Ret (response_frame body).
Proof.
  intros Hl. pose proof (len_nonneg body). unfold build_response, response_frame.
  rewrite (proj2 (Z.leb_le _ _)) by lia. cbn [rassert rbind].
  assert (as_u8 (1 + len body + 2) = 3 + len body) as -> by (unfold as_u8; rewrite Z.mod_small; lia).
  done.
Qed.

Lemma status_response_ret sw : status_response sw = Ret (response_frame [sw]).
Proof. apply build_response_ret. done. Qed.

Lemma atecc_parse_body count op p lo hi d cc :
  count = 7 + len d -> len cc = 2 ->
  parse ((count :: op :: p :: lo :: hi :: d) ++ cc) =
    Ret (if negb (crc16 (count :: op :: p :: lo :: hi :: d) =? le_val cc)
         then Err status.CRC_ERROR else Ok (mkCommand op p (le_val [lo; hi]) d)).
Proof.
  intros Hcount Hc. set (body := count :: op :: p :: lo :: hi :: d).
  pose proof (len_nonneg d) as Hd.
  assert (Hb : len body = 5 + len d) by (unfold body; len_solve).
  unfold parse, MIN_CMD_LEN. rewrite len_app, Hb, Hc.
  rewrite (proj2 (Z.ltb_ge _ 7)) by lia.
  change (body ++ cc) with (count :: op :: p :: lo :: hi :: d ++ cc).
  rewrite idx_0. cbn [rbind].
  rewrite (proj2 (Z.eqb_eq count _)), (proj2 (Z.ltb_ge count 7)) by lia. cbn [negb orb].
  change (count :: op :: p :: lo :: hi :: d ++ cc) with (body ++ cc).
  replace (count - 2) with (len body) by lia.
  rewrite slice_ret by (rewrite ?len_app; lia). rewrite sub_prefix. cbn [rbind].
  rewrite !idx_app_r by lia. rewrite Z.sub_diag.
  replace (len body + 1 - len body) with 1 by lia.
  destruct cc as [|c0 [|c1 [|c2 cc]]]; try (exfalso; len_solve).
  rewrite idx_0, (idx_S _ _ 1), idx_0 by lia. cbn [rbind].
  case_match; [done|].
  rewrite slice_ret by (rewrite ?len_app; lia).
  rewrite sub_app_l by lia. rewrite Hb. unfold body at 5.
  rewrite !sub_cons by lia. rewrite sub_full by lia.
  unfold body. cbn [app]. rewrite !idx_S by lia. rewrite !idx_0. done.
Qed.

(** Every byte string is refused for its length, or is a body with a CRC. *)
Lemma atecc_parse_cases packet :
  (parse packet = Ret (Err status.PARSE_ERROR) /\ (len packet < 7 \/ hd 0 packet <> len packet)) \/
  (exists op p lo hi d cc,
     packet = (len packet :: op :: p :: lo :: hi :: d) ++ cc /\ len packet = 7 + len d /\ len cc = 2).
Proof.
  unfold parse, MIN_CMD_LEN. destruct (Z.ltb_spec (len packet) 7) as [|Hl]; [by left; auto|].
  destruct packet as [|count rest]; [exfalso; len_solve|]. rewrite idx_0. cbn [rbind hd].
  destruct (Z.eqb_spec count (len (count :: rest))) as [Hc|]; [|by left; auto].
  cbn [negb orb]. destruct (Z.ltb_spec count 7); [exfalso; lia|]. right.
  destruct rest as [|op [|p [|lo [|hi rest]]]]; try (exfalso; len_solve).
  rewrite !len_cons in *. exists op, p, lo, hi, (sub rest 0 (len rest - 2)), (sub rest (len rest - 2) (len rest)).
  rewrite <- Hc. split_and!.
  - cbn [app]. do 5 f_equal. apply sub_split. lia.
  - rewrite len_sub. lia.
  - rewrite len_sub. lia.
Qed.

Lemma atecc_parse_total packet : exists x, parse packet = Ret x.
Proof.
  destruct (atecc_parse_cases packet) as [[-> _]|(op & p & lo & hi & d & cc & E & Hl & Hc)]; [by eexists|].
  rewrite E, atecc_parse_body by done. by eexists.
Qed.

Lemma atecc_parse_ok_inv packet cmd :
  wf packet -> parse packet = Ret (Ok cmd) -> command_ok cmd /\ packet = command_packet cmd.
Proof.
  intros Hwf Hp. destruct (atecc_parse_cases packet) as [[E _]|(op & p & lo & hi & d & cc & E & Hl & Hc)];
    [by rewrite E in Hp|].
  rewrite E in Hwf, Hp. rewrite atecc_parse_body in Hp by done.
  apply wf_app_inv in Hwf as [Hb Hcc].
  pose proof Hb as [Hn [Hop [Hp1 [Hlo [Hhi Hd]%wf_cons_inv]%wf_cons_inv]%wf_cons_inv]%wf_cons_inv]%wf_cons_inv.
  destruct (Z.eqb_spec (crc16 (len packet :: op :: p :: lo :: hi :: d)) (le_val cc)) as [Hcrc|]; [|done].
  cbn [negb] in Hp. injection Hp as <-.
  assert (Hm : le_val [lo; hi] mod 256 = lo) by (cbn [le_val]; dlia).
  assert (Hdv : le_val [lo; hi] / 256 = hi) by (cbn [le_val]; dlia).
  split.
  - split_and!; cbn [opcode p1 p2 cmd_data le_val]; try done; u_solve.
  - unfold command_packet, command_body. cbn [opcode p1 p2 cmd_data le_val] in *.
    rewrite Hm, Hdv, <- Hl, Hcrc.
    rewrite le_bytes_le_val; [done|done|unfold len in Hc; lia].
Qed.

Lemma wf_command_body cmd : command_ok cmd -> wf (command_body cmd).
Proof.
  intros (Ho & H1 & H2 & Hd & Hl). pose proof (len_nonneg (cmd_data cmd)).
  unfold command_body. repeat apply wf_cons; try done; dlia.
Qed.

Lemma wf_command_packet cmd : command_ok cmd -> wf (command_packet cmd).
Proof. intros. apply wf_app; [by apply wf_command_body|apply wf_le_bytes]. Qed.

Lemma parse_packet cmd : command_ok cmd -> parse (command_packet cmd) = Ret (Ok cmd).
Proof.
  intros Hok. pose proof (wf_command_body cmd Hok) as Hw. destruct Hok as (Ho & H1 & H2 & Hd & Hl).
  unfold command_packet, command_body. rewrite atecc_parse_body by (done || apply len_le_bytes).
  rewrite le_val_le_bytes by (apply (u16_atecc_crc (command_body cmd) Hw)).
  rewrite Z.eqb_refl. cbn [negb]. destruct cmd as [o a b d]. cbn [opcode p1 p2 cmd_data] in *.
  do 3 f_equal. cbn [le_val]. dlia.
Qed.

Lemma command_packet_len cmd : len (command_packet cmd) = 7 + len (cmd_data cmd).
Proof. unfold command_packet, command_body. len_solve. Qed.

(** ** The persistent device *)

Definition slot_ok (s : SlotData) : Prop := wf (data s) /\ len (data s) <= SLOT_SIZE.

Record device_ok (d : Device) : Prop := {
  ok_config : len (config d) = CONFIG_SIZE;
  ok_config_wf : wf (config d);
  ok_otp : len (otp d) = OTP_SIZE;
  ok_otp_wf : wf (otp d);
  ok_slots : len (slots d) = NUM_SLOTS;
  ok_slots_wf : Forall slot_ok (slots d);
}.

(** The facts of a well-formed device, with the sizes as numbers. *)
Ltac dev_facts Hok :=
  destruct Hok as [Hconfig Hconfig_wf Hotp Hotp_wf Hslots Hslots_wf];
  unfold CONFIG_SIZE, OTP_SIZE, NUM_SLOTS, SLOT_SIZE in *.

(** A locked zone or slot stays locked, and what is locked does not change. *)
Record device_le (d d' : Device) : Prop := {
  le_config : config_locked d = Ret true -> config_locked d' = Ret true;
  le_config_bytes i : config_locked d = Ret true -> (i <> 86 /\ i <> 88 /\ i <> 89)%nat ->
    config d' !! i = config d !! i;
  le_data : config_locked d = Ret true -> data_locked d = Ret true ->
    data_locked d' = Ret true /\ otp d' = otp d;
  le_slot i : config_locked d = Ret true -> slot_locked d i = Ret true -> slot_locked d' i = Ret true;
  le_slot_data i : config_locked d = Ret true -> data_locked d = Ret true ->
    slot_locked d i = Ret true -> slots d' !! Z.to_nat i = slots d !! Z.to_nat i;
}.

#[export] Instance device_le_preorder : PreOrder device_le.
Proof.
  split.
  - intros d. by split.
  - intros a b c [a1 a2 a3 a4 a5] [b1 b2 b3 b4 b5]. split.
    + auto.
    + intros i Hc Hi. rewrite b2; auto.
    + intros Hc Hd. destruct (a3 Hc Hd) as [Hd' <-]. auto.
    + auto.
    + intros i Hc Hd Hs. rewrite b5; [auto| |apply a3|]; auto.
Qed.

(** The lock functions read bytes 86 to 89. *)
Lemma idx_ext {A} (l k : list A) i : l !! Z.to_nat i = k !! Z.to_nat i -> idx l i = idx k i.
Proof. intros H. unfold idx. by rewrite H. Qed.

Lemma config_locked_ext d d' : config d' !! 87%nat = config d !! 87%nat -> config_locked d' = config_locked d.
Proof. intros H. unfold config_locked. by rewrite (idx_ext _ _ 87 H). Qed.
Lemma data_locked_ext d d' : config d' !! 86%nat = config d !! 86%nat -> data_locked d' = data_locked d.
Proof. intros H. unfold data_locked. by rewrite (idx_ext _ _ 86 H). Qed.
Lemma slot_locked_ext d d' i : config d' !! 88%nat = config d !! 88%nat ->
  config d' !! 89%nat = config d !! 89%nat -> slot_locked d' i = slot_locked d i.
Proof. intros H H'. unfold slot_locked. by rewrite (idx_ext _ _ 88 H), (idx_ext _ _ 89 H'). Qed.

Lemma config_locked_ret d : device_ok d -> exists b, config_locked d = Ret b.
Proof. intros Hok. dev_facts Hok. apply (wp_true _ (fun _ => True)). unfold config_locked. by wp_run. Qed.
Lemma data_locked_ret d : device_ok d -> exists b, data_locked d = Ret b.
Proof. intros Hok. dev_facts Hok. apply (wp_true _ (fun _ => True)). unfold data_locked. by wp_run. Qed.

Lemma lock_word d : device_ok d -> exists lo hi, u8 lo /\ u8 hi /\
  idx (config d) 88 = Ret lo /\ idx (config d) 89 = Ret hi.
Proof.
  intros Hok. dev_facts Hok. assert (H : wp (idx (config d) 88) u8) by (wp_run; done).
  assert (H' : wp (idx (config d) 89) u8) by (wp_run; done).
  apply wp_elim in H as (lo & E & ?), H' as (hi & E' & ?). by exists lo, hi.
Qed.

Lemma testbit_locked w i : 0 <= i -> (Z.land (Z.shiftr w i) 1 =? 0) = negb (Z.testbit w i).
Proof.
  intros Hi. change 1 with (2 ^ 0) at 1. rewrite land_pow2, Z.shiftr_spec by lia.
  rewrite Z.add_0_l. by destruct (Z.testbit w i).
Qed.

(** A slot is locked when its bit of the word at 88 is clear. *)
Lemma slot_locked_word d i lo hi : 0 <= i < 16 ->
  idx (config d) 88 = Ret lo -> idx (config d) 89 = Ret hi ->
  slot_locked d i = Ret (negb (Z.testbit (le_val [lo; hi]) i)).
Proof.
  intros Hi E E'. unfold slot_locked. rewrite E, E'. cbn [rbind].
  unfold shr16. rewrite bool_decide_true by done. cbn [rbind]. by rewrite testbit_locked by lia.
Qed.

Lemma slot_locked_range d i b : slot_locked d i = Ret b -> 0 <= i < 16.
Proof.
  unfold slot_locked. destruct (idx _ 88), (idx _ 89); cbn [rbind]; try done.
  unfold shr16. case_bool_decide; cbn [rbind]; [by intros _|done].
Qed.

Lemma slot_locked_ret d i : device_ok d -> 0 <= i < 16 -> exists b, slot_locked d i = Ret b.
Proof.
  intros Hok Hi. destruct (lock_word d Hok) as (lo & hi & _ & _ & E & E').
  rewrite (slot_locked_word d i lo hi) by done. by eexists.
Qed.

(** Writing one slot. *)
Lemma slot_update_ok d k s : device_ok d -> slot_ok s -> device_ok (set_slots d (<[k := s]> (slots d))).
Proof.
  intros [] Hs. split; cbn [config otp slots set_slots]; try done; [by rewrite len_insert|].
  by apply Forall_insert.
Qed.

Lemma slot_update_le d k s : 0 <= k ->
  (config_locked d = Ret true -> data_locked d = Ret true -> slot_locked d k <> Ret true) ->
  device_le d (set_slots d (<[Z.to_nat k := s]> (slots d))).
Proof.
  intros Hk Hlock. split; try done. intros i Hc Hd Hs. cbn [slots set_slots].
  rewrite list_lookup_insert_ne; [done|]. intros E.
  pose proof (slot_locked_range _ _ _ Hs). assert (k = i) as -> by lia. by apply Hlock.
Qed.

(** Setting the lock bytes. *)
Lemma set_config_ok d c : device_ok d -> len c = CONFIG_SIZE -> wf c -> device_ok (set_config d c).
Proof. intros [] Hl Hw. by split. Qed.

Lemma unlocked_le d c : config_locked d = Ret false -> device_le d (set_config d c).
Proof. intros H. split; by rewrite H. Qed.

Lemma wp_set_data_locked d (Q : Device -> Prop) :
  device_ok d -> data_locked d = Ret false ->
  (forall d', device_ok d' -> device_le d d' -> Q d') -> wp (set_data_locked d true) Q.
Proof.
  intros Hok Hd HQ. pose proof (ok_config _ Hok) as Hl. unfold CONFIG_SIZE in Hl.
  unfold set_data_locked. wp_run. apply HQ.
  - apply set_config_ok; [done|by rewrite len_insert|apply wf_insert; [apply Hok|u_solve]].
  - change (Z.to_nat 86) with 86%nat. split; cbn [config otp slots set_config]; try by rewrite Hd.
    + intros <-. by apply config_locked_ext, list_lookup_insert_ne.
    + intros i _ (Hi & _). by apply list_lookup_insert_ne.
    + intros i _ <-. apply slot_locked_ext; by apply list_lookup_insert_ne.
Qed.

Lemma wp_set_slot_locked d s (Q : Device -> Prop) :
  device_ok d -> 0 <= s < 16 ->
  (forall d', device_ok d' -> device_le d d' -> slot_locked d' s = Ret true -> Q d') ->
  wp (set_slot_locked d s true) Q.
Proof.
  intros Hok Hs HQ. pose proof (ok_config _ Hok) as Hl. unfold CONFIG_SIZE in Hl.
  destruct (lock_word d Hok) as (lo & hi & Hlo & Hhi & E & E').
  unfold set_slot_locked. rewrite E, E'. cbn [rbind]. unfold shl16.
  rewrite bool_decide_true by done. cbn [rbind].
  set (w := le_val [lo; hi]). assert (Hw : u16 w) by (unfold w; cbn [le_val]; u_solve).
  assert (Hbit : as_u16 (Z.shiftl 1 s) = 2 ^ s).
  { unfold as_u16. rewrite Z.shiftl_1_l. apply Z.mod_small. split; [apply Z.pow_nonneg; lia|].
    change 65536 with (2 ^ 16). apply Z.pow_lt_mono_r; lia. }
  rewrite Hbit. set (w' := Z.land w (Z.lxor (2 ^ s) 0xFFFF)).
  assert (Hw' : u16 w').
  { apply (land_bound 16); [lia|exact Hw|]. apply Z.lxor_nonneg.
    split; [lia|intros _; apply Z.pow_nonneg; lia]. }
  assert (Hb : exists b0 b1, le_bytes 2 w' = [b0; b1]) by (do 2 eexists; reflexivity).
  destruct Hb as (b0 & b1 & Eb). rewrite Eb. rewrite idx_0, idx_S, idx_0 by lia. cbn [rbind].
  assert (Hbits : forall i, 0 <= i < 16 -> Z.testbit w' i = Z.testbit w i && negb (i =? s)).
  { intros i Hi. unfold w'. rewrite Z.land_spec, Z.lxor_spec, Z.pow2_bits_eqb by lia.
    change 0xFFFF with (Z.ones 16). rewrite Z.ones_spec_low by lia.
    rewrite (Z.eqb_sym s i). by destruct (i =? s). }
  assert (Hv : le_val [b0; b1] = w').
  { rewrite <- Eb. apply le_val_le_bytes. exact Hw'. }
  assert (u8 b0 /\ u8 b1) as [Hb0 Hb1].
  { pose proof (wf_le_bytes 2 w') as Hwb. rewrite Eb in Hwb.
    by apply wf_cons_inv in Hwb as [? [? _]%wf_cons_inv]. }
  wp_run.
  change (Z.to_nat 88) with 88%nat. change (Z.to_nat 89) with 89%nat.
  set (d' := set_config d _).
  assert (Hlk : forall i, (i <> 88)%nat -> (i <> 89)%nat -> config d' !! i = config d !! i).
  { intros i H8 H9. cbn [d' config set_config]. by rewrite !list_lookup_insert_ne by done. }
  assert (Hidx : idx (config d') 88 = Ret b0 /\ idx (config d') 89 = Ret b1).
  { unfold len in Hl. split; apply idx_ret; try lia; cbn [d' config set_config].
    - change (Z.to_nat 88) with 88%nat. rewrite list_lookup_insert_ne by done.
      apply list_lookup_insert_eq. lia.
    - apply list_lookup_insert_eq. rewrite length_insert. lia. }
  destruct Hidx as [H8 H9].
  assert (Hsl : forall i, 0 <= i < 16 -> slot_locked d' i = Ret (negb (Z.testbit w i && negb (i =? s)))).
  { intros i Hi. rewrite (slot_locked_word d' i b0 b1), Hv, Hbits by done. done. }
  apply HQ.
  - apply set_config_ok; [done|by rewrite !len_insert|].
    apply wf_insert; [apply wf_insert; [apply Hok|done]|done].
  - split; try done.
    + intros <-. apply config_locked_ext, Hlk; done.
    + intros i _ (_ & ? & ?). by apply Hlk.
    + intros _ <-. split; [|done]. apply data_locked_ext, Hlk; done.
    + intros i _ Hi. pose proof (slot_locked_range _ _ _ Hi) as Hr.
      rewrite Hsl by done. rewrite (slot_locked_word d i lo hi) in Hi by done.
      fold w in Hi. injection Hi as Hi. by destruct (Z.testbit w i).
  - rewrite Hsl, Z.eqb_refl, andb_false_r by done. done.
Qed.

(** ** The commands *)

(** Every answer is a frame of the device. *)
Definition response_ok (resp : bytes) : Prop :=
  exists body, wf body /\ 1 <= len body <= 64 /\ resp = response_frame body.

Lemma wp_build body (Q : bytes -> Prop) :
  wf body -> 1 <= len body <= 64 -> (forall resp, response_ok resp -> Q resp) ->
  wp (build_response body) Q.
Proof. intros Hw Hl HQ. rewrite build_response_ret by lia. apply HQ. by exists body. Qed.

Lemma wp_status sw (Q : bytes -> Prop) :
  u8 sw -> (forall resp, response_ok resp -> Q resp) -> wp (status_response sw) Q.
Proof. intros. apply wp_build; [auto with wfdb|done|done]. Qed.

Lemma land_small x m : 0 <= m -> 0 <= Z.land x m <= m.
Proof.
  intros Hm. split; [apply Z.land_nonneg; auto|]. destruct (decide (m = 0)) as [->|]; [by rewrite Z.land_0_r|].
  apply Z.ldiff_le; [done|]. apply Z.bits_inj'. intros i Hi.
  rewrite Z.ldiff_spec, Z.land_spec, Z.bits_0. by destruct (Z.testbit x i), (Z.testbit m i).
Qed.

(** Runs the code of a handler, closing the calls that answer. *)
Ltac at_step :=
  lazymatch goal with
  | |- wp (status_response _) _ =>
      apply wp_status; [unfold u8; unfold status.SUCCESS, status.PARSE_ERROR, status.EXECUTION_ERROR,
        status.MISCOMPARE; lia | let resp := fresh "resp" in let H := fresh "Hresp" in intros resp H]
  | |- wp (config_locked ?d) _ => apply wp_value; [|let b := fresh "b" in let E := fresh "Elock" in intros b E]
  | |- wp (data_locked ?d) _ => apply wp_value; [|let b := fresh "b" in let E := fresh "Elock" in intros b E]
  | |- wp (slot_locked ?d ?s) _ => apply wp_value; [|let b := fresh "b" in let E := fresh "Elock" in intros b E]
  | _ => wp_step
  end.
Ltac at_run := repeat (at_step; cbv beta).

Lemma ret_wp {A} (m : res A) : (exists b, m = Ret b) -> wp m (fun _ => True).
Proof. by intros [b ->]. Qed.

Section safety.
Context `{C : Crates} {COk : CratesOk C}.

Lemma info_safe d cmd : device_ok d -> wp (info.handle d cmd) response_ok.
Proof.
  intros Hok. dev_facts Hok. unfold info.handle. at_run; [done|].
  apply wp_build; [auto with wfdb|len_solve|done].
Qed.

Lemma atecc_random_safe r : wp (random.handle r) (fun '(resp, _) => response_ok resp).
Proof.
  unfold random.handle. pose proof (fill_bytes_len 32 r) as Hl. pose proof (fill_bytes_wf 32 r).
  destruct (fill_bytes 32 r) as [buf r']. cbn [fst] in *. apply wp_bind, wp_build; [done|lia|].
  by intros resp Hresp.
Qed.

(** The address arithmetic of reads and writes. *)
Lemma linear_offset addr len_ :
  (len_ = 4 \/ len_ = 32) ->
  0 <= Z.land (Z.shiftr addr 3) 0x3 * 32 + (if len_ =? 32 then 0 else Z.land addr 0x7 * 4).
Proof.
  intros Hl. pose proof (land_small (Z.shiftr addr 3) 0x3). pose proof (land_small addr 0x7).
  destruct (len_ =? 32); lia.
Qed.
Lemma data_offset addr len_ :
  (len_ = 4 \/ len_ = 32) ->
  0 <= Z.land (Z.shiftr addr 3) 0x1F * 32 + (if len_ =? 32 then 0 else Z.land addr 0x7 * 4).
Proof.
  intros Hl. pose proof (land_small (Z.shiftr addr 3) 0x1F). pose proof (land_small addr 0x7).
  destruct (len_ =? 32); lia.
Qed.

Lemma read_linear_safe z size addr len_ :
  wf z -> len z = size -> (len_ = 4 \/ len_ = 32) ->
  wp (read_zone.read_linear z size addr len_) response_ok.
Proof.
  intros Hw Hs Hl. pose proof (linear_offset addr len_ Hl). unfold read_zone.read_linear.
  set (off := _ + _) in *. destruct (Z.ltb_spec size (off + len_)); at_run; [done|].
  apply wp_build; [auto with wfdb|rewrite len_sub; lia|done].
Qed.

Lemma slot_lookup d i : device_ok d -> 0 <= i < 16 ->
  exists s, slots d !! Z.to_nat i = Some s /\ idx (slots d) i = Ret s /\ wf (data s) /\ len (data s) <= 72.
Proof.
  intros Hok Hi. dev_facts Hok.
  destruct (lookup_lt_is_Some_2 (slots d) (Z.to_nat i)) as [s E]; [unfold len in *; lia|].
  exists s. pose proof (Forall_lookup_1 _ _ _ _ Hslots_wf E) as [Hw Hl].
  split_and!; [done|apply idx_ret; [lia|done]|done|exact Hl].
Qed.

Lemma read_data_safe d addr len_ :
  device_ok d -> (len_ = 4 \/ len_ = 32) -> wp (read_zone.read_data d addr len_) response_ok.
Proof.
  intros Hok Hl. pose proof (data_offset addr len_ Hl). unfold read_zone.read_data.
  set (off := _ + _) in *. set (slot := Z.land (Z.shiftr addr 8) 0x0F).
  pose proof (land_small (Z.shiftr addr 8) 0x0F) as Hs. unfold SLOT_SIZE, NUM_SLOTS.
  destruct (Z.leb_spec 16 slot); [at_run; done|].
  destruct (Z.ltb_spec 72 (off + len_)); [at_run; done|].
  destruct (slot_lookup d slot Hok) as (s & _ & -> & Hw & Hsl); [unfold slot; lia|]. cbn [rbind].
  apply wp_bind. destruct (Z.ltb_spec off (Z.min (len (data s)) (off + len_))).
  - wp_run.
    apply wp_build; [auto with wfdb| |done].
    rewrite len_splice, len_vec_repeat; rewrite ?len_sub, ?len_vec_repeat; lia.
  - apply wp_ret, wp_build; [auto with wfdb|rewrite len_vec_repeat; lia|done].
Qed.

Lemma atecc_read_safe d cmd : device_ok d -> wp (read_zone.handle d cmd) response_ok.
Proof.
  intros Hok. unfold read_zone.handle. set (n := if has _ _ then 32 else 4).
  assert (n = 4 \/ n = 32) by (unfold n; destruct (has _ _); auto).
  destruct (_ =? zone.CONFIG); [apply read_linear_safe; (apply Hok || done)|].
  destruct (_ =? zone.OTP); [apply read_linear_safe; (apply Hok || done)|].
  destruct (_ =? zone.DATA); [by apply read_data_safe|]. at_run. done.
Qed.

(** A command on the device. *)
Definition on_device_ok (d : Device) (o : Device * bytes) : Prop :=
  let '(d', resp) := o in device_ok d' /\ device_le d d' /\ response_ok resp.

Lemma atecc_stay d resp : device_ok d -> response_ok resp -> on_device_ok d (d, resp).
Proof. intros. split_and!; done. Qed.

Lemma lock_safe d cmd : device_ok d -> wp (lock.handle d cmd) (on_device_ok d).
Proof.
  intros Hok. pose proof Hok as Hok'. dev_facts Hok'. unfold lock.handle. unfold NUM_SLOTS.
  pose proof (land_small (Z.shiftr (p1 cmd) 2) 0x0F) as Hs.
  destruct (_ =? 0); [|destruct (_ =? 1); [|destruct (_ =? 2)]]; cbv zeta.
  - at_step. at_step; [by apply ret_wp, config_locked_ret|]. at_run; try by apply atecc_stay. unfold set_config_locked.
    at_run. split_and!; [|by apply unlocked_le; destruct b|done].
    apply set_config_ok; [done|by rewrite len_insert|apply wf_insert; [done|u_solve]].
  - at_step. at_step; [by apply ret_wp, data_locked_ret|]. at_run; try by apply atecc_stay.
    destruct b; [done|]. apply wp_set_data_locked; [done|done|]. intros d' Hd Hle. at_run. done.
  - destruct (Z.leb_spec 16 (Z.land (Z.shiftr (p1 cmd) 2) 0x0F)); [at_run; by apply atecc_stay|].
    at_step. at_step; [apply ret_wp, slot_locked_ret; [done|lia]|]. at_run; try by apply atecc_stay.
    apply wp_set_slot_locked; [done|lia|]. intros d' Hd Hle _. at_run. done.
  - at_run. by apply atecc_stay.
Qed.

Definition write_ok (d : Device) (o : Device * Result unit Z) : Prop :=
  let '(d', r) := o in
  device_ok d' /\ device_le d d' /\ match r with Ok _ => True | Err sw => u8 sw end.

Lemma refuse d sw : device_ok d -> u8 sw -> write_ok d (d, Err sw).
Proof. intros. split_and!; done. Qed.

Ltac refuse := at_run; apply refuse; [done|unfold status.EXECUTION_ERROR, status.PARSE_ERROR; u_solve].

Lemma write_config_safe d addr src :
  device_ok d -> wf src -> (len src = 4 \/ len src = 32) ->
  wp (write_zone.write_config d addr src) (write_ok d).
Proof.
  intros Hok Hw Hl. pose proof (linear_offset addr _ Hl). pose proof Hok as Hok'. dev_facts Hok'.
  unfold write_zone.write_config, write_zone.addr_to_byte_offset. set (off := _ + _) in *.
  at_step. at_step; [by apply ret_wp, config_locked_ret|]. destruct b; [refuse|].
  unfold CONFIG_SIZE. destruct (Z.ltb_spec 128 (off + len src)); [refuse|].
  wp_run. split_and!; [|by apply unlocked_le|done].
  apply set_config_ok; [done|rewrite len_splice; unfold CONFIG_SIZE; lia|auto with wfdb].
Qed.

Lemma write_otp_safe d addr src :
  device_ok d -> wf src -> (len src = 4 \/ len src = 32) ->
  wp (write_zone.write_otp d addr src) (write_ok d).
Proof.
  intros Hok Hw Hl. pose proof (linear_offset addr _ Hl). pose proof Hok as Hok'. dev_facts Hok'.
  unfold write_zone.write_otp, write_zone.addr_to_byte_offset. set (off := _ + _) in *.
  at_step. at_step; [by apply ret_wp, data_locked_ret|]. destruct b; [refuse|].
  unfold OTP_SIZE. destruct (Z.ltb_spec 64 (off + len src)); [refuse|].
  wp_run. split_and!; [| |done].
  - split; cbn [config otp slots set_otp]; try apply Hok; [rewrite len_splice; unfold OTP_SIZE; lia|auto with wfdb].
  - split; try done. intros _ Hd. congruence.
Qed.

(** The contents of a slot after a write: extended with zeros, then overwritten. *)
Definition written (old : bytes) (off : Z) (src : bytes) : bytes :=
  splice (if len old <? off + len src then resize old (off + len src) 0 else old) off src.

Lemma wp_written old off src (Q : bytes -> Prop) :
  0 <= off -> Q (written old off src) ->
  wp (copy_from_slice (if len old <? off + len src then resize old (off + len src) 0 else old)
        off (off + len src) src) Q.
Proof.
  intros Ho HQ. pose proof (len_nonneg src). apply wp_copy_from_slice; [lia| |lia|done].
  destruct (Z.ltb_spec (len old) (off + len src)); [rewrite len_resize; lia|lia].
Qed.

Lemma written_ok old off src :
  0 <= off -> wf old -> len old <= 72 -> wf src -> off + len src <= 72 -> slot_ok (mkSlotData (written old off src)).
Proof.
  intros Ho Hw Hl Hs Hb. pose proof (len_nonneg src). unfold slot_ok, written, SLOT_SIZE. cbn [data].
  destruct (Z.ltb_spec (len old) (off + len src));
    (split; [auto with wfdb|rewrite len_splice; rewrite ?len_resize; lia]).
Qed.

Lemma write_data_safe d addr src :
  device_ok d -> wf src -> (len src = 4 \/ len src = 32) ->
  wp (write_zone.write_data d addr src) (write_ok d).
Proof.
  intros Hok Hw Hl. pose proof (data_offset addr _ Hl). pose proof Hok as Hok'. dev_facts Hok'.
  pose proof (land_small (Z.shiftr addr 8) 0x0F) as Hs.
  unfold write_zone.write_data. set (off := _ + _) in *. set (slot := Z.land (Z.shiftr addr 8) 0x0F) in *.
  unfold NUM_SLOTS, SLOT_SIZE. destruct (Z.leb_spec 16 slot); [refuse|].
  at_step. at_step; [by apply ret_wp, data_locked_ret|].
  apply wp_bind, wp_value; [destruct b; [|done]; apply ret_wp, slot_locked_ret; [done|lia]|].
  intros locked Eslot. destruct locked; [refuse|].
  destruct (Z.ltb_spec 72 (off + len src)); [refuse|].
  destruct (slot_lookup d slot Hok) as (s & _ & -> & Hsw & Hsl); [lia|]. cbn [rbind].
  apply wp_bind, wp_written; [done|]. wp_run. split_and!; [| |done].
  - apply slot_update_ok; [done|]. apply written_ok; (done || lia).
  - apply slot_update_le; [lia|]. intros _ Hd. rewrite Elock in Hd. injection Hd as ->. by rewrite Eslot.
Qed.

Lemma write_safe d cmd : device_ok d -> wf (cmd_data cmd) -> wp (write_zone.handle d cmd) (on_device_ok d).
Proof.
  intros Hok Hw. unfold write_zone.handle. destruct (has _ 0x40); [at_run; by apply atecc_stay|].
  destruct (Z.eqb_spec (len (cmd_data cmd)) (if has (p1 cmd) 0x80 then 32 else 4)) as [Hl|];
    [|cbn [negb]; at_run; by apply atecc_stay]. cbn [negb].
  assert (Hl' : len (cmd_data cmd) = 4 \/ len (cmd_data cmd) = 32) by (destruct (has _ _); auto).
  assert (Hans : forall m, wp m (write_ok d) -> wp
    (let! '(device, result) := m in
     match result with
     | Ok tt => let! resp := status_response status.SUCCESS in Ret (device, resp)
     | Err sw => let! resp := status_response sw in Ret (device, resp)
     end) (on_device_ok d)).
  { intros m Hm. apply wp_bind. eapply wp_mono; [exact Hm|]. intros [d' [[]|sw]] (Hd & Hle & Hr).
    - at_run. done.
    - apply wp_bind, wp_status; [done|]. intros resp Hresp. done. }
  cbv zeta. destruct (_ =? zone.CONFIG); [by apply Hans, write_config_safe|].
  destruct (_ =? zone.OTP); [by apply Hans, write_otp_safe|].
  destruct (_ =? zone.DATA); [by apply Hans, write_data_safe|]. at_run. by apply atecc_stay.
Qed.

Definition on_session_ok (o : Session * bytes) : Prop := response_ok (snd o).

Lemma digest_ok h (Q : bytes -> Prop) :
  (forall resp, response_ok resp -> Q resp) -> wp (build_response (sha256_finalize h)) Q.
Proof.
  intros. pose proof (sha256_len h). apply wp_build; [apply sha256_wf|lia|done].
Qed.

Lemma sha_safe s cmd : wp (sha.handle s cmd) on_session_ok.
Proof.
  unfold sha.handle, sha_update, sha_finish.
  destruct (_ =? 0x00); [at_run; done|]. destruct (_ =? 0x01); [destruct (hasher _); at_run; done|].
  destruct (_ =? 0x02).
  - destruct (hasher _); [|at_run; done]. case_bool_decide; apply wp_bind, digest_ok; done.
  - destruct (_ =? 0x03); [|at_run; done]. apply wp_bind, digest_ok. done.
Qed.

Lemma nonce_safe s cmd : wp (nonce.handle s cmd) on_session_ok.
Proof.
  unfold nonce.handle. destruct (_ =? 0x03); cbn [negb]; [|at_run; done].
  destruct (Z.eqb_spec (len (cmd_data cmd)) 32); cbn [negb]; at_run; done.
Qed.

Lemma wp_pubkey_raw k (Q : bytes -> Prop) :
  (forall xy, p256_to_encoded_point (p256_public_of k) = 4 :: xy -> len xy = 64 -> wf xy -> Q xy) ->
  wp (genkey.pubkey_raw k) Q.
Proof.
  intros HQ. destruct (p256_point_shape (p256_public_of k)) as (xy & E & Hl & Hw).
  unfold genkey.pubkey_raw. rewrite E. apply wp_bind, wp_slice; [lia|rewrite len_cons; lia|].
  rewrite sub_cons, sub_full by lia.
  apply wp_copy_from_slice; [lia|by rewrite len_vec_repeat|lia|].
  rewrite splice_full by (by rewrite len_vec_repeat). by apply HQ.
Qed.

(** The scalar of a slot: its first 32 bytes, when it has them. *)
Definition scalar_of (b : bytes) : option bytes := if len b <? 32 then None else Some (sub b 0 32).

Lemma slot_scalar_ret d i s : slots d !! Z.to_nat i = Some s -> 0 <= i ->
  genkey.slot_scalar d i = Ret (scalar_of (data s)).
Proof.
  intros E Hi. unfold genkey.slot_scalar, scalar_of. rewrite (idx_ret _ _ _ Hi E). cbn [rbind].
  destruct (Z.ltb_spec (len (data s)) 32); [done|].
  rewrite slice_ret by lia. cbn [rbind]. unfold copy_from_slice.
  rewrite bool_decide_true by (rewrite len_vec_repeat, len_sub; lia). cbn [rbind].
  rewrite splice_full; [done|]. rewrite len_sub, len_vec_repeat. lia.
Qed.

Lemma wp_slot_scalar d i (Q : option bytes -> Prop) :
  device_ok d -> 0 <= i < 16 -> (forall o, Q o) -> wp (genkey.slot_scalar d i) Q.
Proof.
  intros Hok Hi HQ. destruct (slot_lookup d i Hok Hi) as (s & E & _).
  rewrite (slot_scalar_ret _ _ _ E) by lia. by apply wp_ret.
Qed.

Lemma genkey_safe d cmd r : device_ok d -> u16 (p2 cmd) ->
  wp (genkey.handle d cmd r) (fun '(d', resp, _) => on_device_ok d (d', resp)).
Proof.
  intros Hok Hp. pose proof Hok as Hok'. dev_facts Hok'. unfold genkey.handle, NUM_SLOTS.
  destruct (Z.leb_spec 16 (p2 cmd)); [at_run; by apply atecc_stay|].
  destruct (_ =? 0x04); [|destruct (_ =? 0x00)].
  - at_step. at_step; [apply ret_wp, slot_locked_ret; [done|u_solve]|].
    destruct b; [at_run; by apply atecc_stay|]. destruct (p256_random r) as [sk r'].
    apply wp_bind, wp_pubkey_raw. intros xy _ Hxl Hxw.
    destruct (slot_lookup d (p2 cmd) Hok) as (s & _ & -> & Hsw & Hsl); [u_solve|]. cbn [rbind].
    apply wp_bind. replace 32 with (0 + len (p256_secret_to_bytes sk)) by (rewrite p256_to_bytes_len; done).
    apply wp_written; [done|]. wp_step. wp_step. wp_step. apply wp_build; [done|lia|].
    intros resp Hresp. wp_step. split_and!; [| |done].
    + apply slot_update_ok; [done|]. apply written_ok; try done; [apply p256_to_bytes_wf|].
      rewrite p256_to_bytes_len. lia.
    + apply slot_update_le; [u_solve|]. intros _ _. by rewrite Elock.
  - apply wp_bind, wp_slot_scalar; [done|u_solve|]. intros [sc|]; [|at_run; by apply atecc_stay].
    destruct (p256_secret_from_slice sc); [|at_run; by apply atecc_stay].
    apply wp_bind, wp_pubkey_raw. intros xy _ Hxl Hxw. apply wp_bind, wp_build; [done|lia|].
    intros resp Hresp. by apply atecc_stay.
  - at_run. by apply atecc_stay.
Qed.

Lemma atecc_sign_safe d s cmd : device_ok d -> u16 (p2 cmd) -> wp (sign.handle d s cmd) response_ok.
Proof.
  intros Hok Hp. unfold sign.handle, NUM_SLOTS. destruct (has _ 0x80); [|cbn [negb]; at_run; done]. cbn [negb].
  destruct (Z.leb_spec 16 (p2 cmd)); [at_run; done|]. destruct (valid _); [|cbn [negb]; at_run; done]. cbn [negb].
  apply wp_bind, wp_slot_scalar; [done|u_solve|]. intros [sc|]; [|at_run; done].
  destruct (p256_secret_from_slice sc) as [k|]; [|at_run; done].
  destruct (p256_sign_prehash k _) as [sig|] eqn:E; [|at_run; done].
  destruct (p256_sign_len _ _ _ E). apply wp_build; [done|lia|done].
Qed.

Lemma atecc_verify_safe s cmd : wp (verify.handle s cmd) response_ok.
Proof.
  unfold verify.handle. destruct (_ =? 0x02); [|cbn [negb]; at_run; done]. cbn [negb].
  destruct (Z.eqb_spec (len (cmd_data cmd)) 128); [|cbn [negb]; at_run; done]. cbn [negb].
  destruct (valid _); [|cbn [negb]; at_run; done]. cbn [negb]. at_run; done.
Qed.

Lemma atecc_ecdh_safe d cmd : device_ok d -> u16 (p2 cmd) -> wp (ecdh.handle d cmd) response_ok.
Proof.
  intros Hok Hp. unfold ecdh.handle, NUM_SLOTS. destruct (_ =? 0x00); [|cbn [negb]; at_run; done]. cbn [negb].
  destruct (Z.leb_spec 16 (p2 cmd)); [at_run; done|].
  destruct (Z.eqb_spec (len (cmd_data cmd)) 64); [|cbn [negb]; at_run; done]. cbn [negb].
  apply wp_bind, wp_slot_scalar; [done|u_solve|]. intros [sc|]; [|at_run; done].
  destruct (p256_secret_from_slice sc) as [k|]; [|at_run; done]. at_step. at_step.
  destruct (p256_from_xy _ _) as [q|]; [|at_run; done].
  pose proof (p256_dh_len k q). apply wp_build; [apply p256_dh_wf|lia|done].
Qed.

(** ** The dispatcher *)

Definition dispatch_post (d : Device) (o : Device * Session * rng * bytes) : Prop :=
  let '(d', _, _, resp) := o in device_ok d' /\ device_le d d' /\ response_ok resp.

Lemma atecc_run_safe d s r cmd :
  device_ok d -> command_ok cmd -> wp (run d s r cmd) (dispatch_post d).
Proof.
  intros Hok (_ & _ & Hp2 & Hw & _). unfold run.
  assert (Hpure : forall m, wp m response_ok -> wp (let! resp := m in Ret (d, s, r, resp)) (dispatch_post d)).
  { intros m Hm. apply wp_bind. eapply wp_mono; [exact Hm|]. intros resp Hr. split_and!; done. }
  assert (Hdev : forall m, wp m (on_device_ok d) ->
    wp (let! '(device, resp) := m in Ret (device, s, r, resp)) (dispatch_post d)).
  { intros m Hm. apply wp_bind. eapply wp_mono; [exact Hm|]. intros [d' resp] Hr. done. }
  assert (Hses : forall m, wp m on_session_ok ->
    wp (let! '(session, resp) := m in Ret (d, session, r, resp)) (dispatch_post d)).
  { intros m Hm. apply wp_bind. eapply wp_mono; [exact Hm|]. intros [s' resp] Hr. split_and!; done. }
  destruct (_ =? op.INFO); [by apply Hpure, info_safe|].
  destruct (_ =? op.RANDOM).
  { apply wp_bind. eapply wp_mono; [apply atecc_random_safe|]. intros [resp r'] Hr. split_and!; done. }
  destruct (_ =? op.READ); [by apply Hpure, atecc_read_safe|].
  destruct (_ =? op.WRITE); [by apply Hdev, write_safe|].
  destruct (_ =? op.LOCK); [by apply Hdev, lock_safe|].
  destruct (_ =? op.SHA); [by apply Hses, sha_safe|].
  destruct (_ =? op.NONCE); [by apply Hses, nonce_safe|].
  destruct (_ =? op.GENKEY).
  { apply wp_bind. eapply wp_mono; [by apply genkey_safe|]. intros [[d' resp] r'] Hr. done. }
  destruct (_ =? op.SIGN); [by apply Hpure, atecc_sign_safe|].
  destruct (_ =? op.VERIFY); [by apply Hpure, atecc_verify_safe|].
  destruct (_ =? op.ECDH); [by apply Hpure, atecc_ecdh_safe|].
  apply Hpure. at_run. done.
Qed.

Lemma atecc_dispatch_safe d s r packet :
  device_ok d -> wf packet -> wp (dispatch d s r packet) (dispatch_post d).
Proof.
  intros Hok Hw. unfold dispatch. destruct (atecc_parse_total packet) as [[cmd|sw] E]; rewrite E; cbn [rbind].
  - apply atecc_run_safe; [done|]. by apply (atecc_parse_ok_inv packet cmd Hw).
  - assert (Hsw : u8 sw).
    { destruct (atecc_parse_cases packet) as [[Ep _]|(op & p & lo & hi & x & cc & Ep & Hl & Hc)].
      - rewrite Ep in E. injection E as <-. unfold status.PARSE_ERROR. u_solve.
      - rewrite Ep, atecc_parse_body in E by done. case_match; [|done]. injection E as <-.
        unfold status.CRC_ERROR. u_solve. }
    apply wp_bind, wp_status; [done|]. intros resp Hr. split_and!; done.
Qed.
End safety.
