(* ===== verification/AteccServer.v ===== *)
(** * ATECC608Sim: the TCP server

    [bin/tcp_server.rs].  One device is shared by the connections; each connection
    has its own session.  A connection's thread works through its stream one word
    address at a time ([serve_one]) and holds the lock of the store while a packet
    is executed and saved, so a run of the server is a schedule: a sequence of
    connection numbers, each of which serves its next word address. *)

From S2P Require Import Prelude.
From S2P Require Import Crc.
From S2P Require Import Host.
From S2P Require Import Connections.
From S2P Require Import Crates.
From S2P Require Import AteccTypes.
From S2P Require Import AteccHandlers.
From S2P Require Import AteccFacts.

Section server.
Context `{C : Crates} {F : FileSystem Device}.

(** What the connections share: the store, and the disk and generator of the host. *)
Record Server := mkServer {
  store : Store;
  disk : fs;
  host_rng : rng;
}.

Definition read_and_dispatch (sv : Server) (session : Session) (stream : bytes)
  : res (Server * Session * bytes * Result bytes io_error) :=
  match read_exact stream 1 with
  | None => Ret (sv, session, [], Err UnexpectedEof)
  | Some (count_byte, stream) =>
      let! count := idx count_byte 0 in
      if count <? 1 then Ret (sv, session, stream, Err InvalidData)
      else
        match read_exact stream (count - 1) with
        | None => Ret (sv, session, [], Err UnexpectedEof)
        | Some (rest, stream) =>
            let packet := count :: rest in
            let! '(d, session, r, resp) := dispatch (device (store sv)) session (host_rng sv) packet in
            let st := mkStore d (store_path (store sv)) in
            match persist st (disk sv) with
            | Ok f => Ret (mkServer st f r, session, stream, Ok resp)
            | Err _ => Ret (mkServer st (disk sv) r, session, stream, Err Other)
            end
        end
  end.

(** The body of the loop: the server, the session, the rest of the stream, and what
    was written. *)
Definition serve_one (sv : Server) (session : Session) (stream : bytes)
  : res (Server * Session * bytes * bytes * outcome) :=
  match read_exact stream 1 with
  | None => Ret (sv, session, [], [], Closed)
  | Some (word_addr, stream) =>
      let! w := idx word_addr 0 in
      if (w =? 0x00) || (w =? 0x02) then Ret (sv, session, stream, [], Again)
      else if w =? 0x01 then Ret (sv, volatile_reset session, stream, [], Again)
      else if w =? 0x03 then
        let! '(sv, session, stream, reply) := read_and_dispatch sv session stream in
        match reply with
        | Ok resp => Ret (sv, session, stream, resp, Again)
        | Err e => Ret (sv, session, stream, [], Failed e)
        end
      else Ret (sv, session, stream, [], Closed)
  end.

(** The server as an instance of the interface of [Connections], which runs the loop. *)
#[export] Instance atecc_protocol : Protocol := {|
  Srv := Server; Ses := Session; session_init := session_new; step := serve_one;
|}.

(** ** Invariant *)

Context {COk : CratesOk C} {FOk : FileSystemOk F}.

(** The file on disk is the device in memory. *)
Definition saved (sv : Server) : Prop :=
  forall p, store_path (store sv) = Some p -> fs_read (disk sv) p = Some (Ok (device (store sv))).

Definition serve_post (sv : Server) (o : Server * Session * bytes * bytes * outcome) : Prop :=
  let '(sv', s', rest, out, oc) := o in
  device_ok (device (store sv')) /\ device_le (device (store sv)) (device (store sv')) /\
  wf rest /\ (out = [] \/ response_ok out) /\
  (oc <> Failed Other -> saved sv -> saved sv').

Lemma single_byte (a : bytes) : wf a -> len a = 1 -> exists x, a = [x] /\ u8 x.
Proof.
  destruct a as [|x [|y a]]; intros Hw Hl; try (exfalso; len_solve).
  exists x. split; [done|]. by apply wf_cons_inv in Hw as [? _].
Qed.

Ltac stay H := apply H; (done || apply wf_nil).

Lemma read_and_dispatch_safe sv s stream :
  device_ok (device (store sv)) -> wf stream ->
  wp (read_and_dispatch sv s stream) (fun '(sv', s', rest, reply) =>
    serve_post sv (sv', s', rest, match reply with Ok resp => resp | Err _ => [] end,
      match reply with Ok _ => Again | Err e => Failed e end)).
Proof.
  intros Hok Hw. unfold read_and_dispatch.
  assert (Hstay : forall rest e, wf rest -> e <> Other -> serve_post sv (sv, s, rest, [], Failed e)).
  { intros rest e Hr He. split_and!; try done; by left. }
  destruct (read_exact stream 1) as [[cb rest]|] eqn:E1; [|stay Hstay].
  apply read_exact_wf in E1 as (Hcb & Hrest & Hl); [|done|done].
  destruct (single_byte cb Hcb Hl) as (count & -> & Hc). rewrite idx_0. cbn [rbind].
  destruct (Z.ltb_spec count 1); [stay Hstay|].
  destruct (read_exact rest (count - 1)) as [[body rest']|] eqn:E2; [|stay Hstay].
  apply read_exact_wf in E2 as (Hb & Hrest' & _); [|lia|done].
  apply wp_bind. eapply wp_mono; [apply atecc_dispatch_safe; [done|by apply wf_cons]|].
  intros [[[d s'] r] resp] (Hd & Hle & Hresp). unfold persist. cbn [store_path device].
  destruct (store_path (store sv)) as [p|] eqn:Ep.
  - destruct (fs_write (disk sv) p d) as [f|e] eqn:Ef; apply wp_ret.
    + assert (Hs : saved (mkServer (mkStore d (Some p)) f r)).
      { intros p' [= <-]. by eapply fs_read_write. }
      split_and!; cbn [store device]; auto.
    + split_and!; cbn [store device]; auto. congruence.
  - apply wp_ret. split_and!; cbn [store device]; auto. by intros _ _ ? [=].
Qed.

Lemma atecc_serve_one_safe sv s stream :
  device_ok (device (store sv)) -> wf stream -> wp (serve_one sv s stream) (serve_post sv).
Proof.
  intros Hok Hw. unfold serve_one.
  assert (Hstay : forall s rest o, wf rest -> o <> Failed Other -> serve_post sv (sv, s, rest, [], o)).
  { intros s' rest e Hr He. split_and!; try done; by left. }
  destruct (read_exact stream 1) as [[wb rest]|] eqn:E1; [|stay Hstay].
  apply read_exact_wf in E1 as (Hwb & Hrest & Hl); [|done|done].
  destruct (single_byte wb Hwb Hl) as (w & -> & Hw8). rewrite idx_0. cbn [rbind].
  destruct (_ || _); [stay Hstay|]. destruct (w =? 1); [stay Hstay|].
  destruct (w =? 3); [|stay Hstay]. apply wp_bind.
  eapply wp_mono; [by apply read_and_dispatch_safe|]. intros [[[sv' s'] rest'] [resp|e]] Hpost; exact Hpost.
Qed.

Lemma atecc_serve_one_shorter sv s stream :
  wlp (serve_one sv s stream) (fun '(_, _, rest, _, o) => o = Again -> (length rest < length stream)%nat).
Proof.
  unfold serve_one. destruct (read_exact stream 1) as [[wb rest]|] eqn:E; [|by intros [=]].
  apply read_exact_inv in E as [-> Hl]; [|done]. assert (length wb = 1%nat) by (unfold len in Hl; lia).
  rewrite length_app. apply wlp_bind, wlp_any. intros w _.
  destruct (_ || _); [cbn; lia|]. destruct (w =? 1); [cbn; lia|]. destruct (w =? 3); [|by intros [=]].
  apply wlp_bind. unfold read_and_dispatch.
  destruct (read_exact rest 1) as [[cb rest1]|] eqn:E1; [|by intros [=]].
  apply read_exact_inv in E1 as [-> Hl1]; [|done].
  apply wlp_bind, wlp_any. intros count _. destruct (Z.ltb_spec count 1); [by intros [=]|].
  destruct (read_exact rest1 (count - 1)) as [[body rest2]|] eqn:E2; [|by intros [=]].
  apply read_exact_inv in E2 as [-> _]; [|lia].
  apply wlp_bind, wlp_any. intros [[[d s'] r] resp] _. rewrite !length_app.
  destruct (persist _ _); cbn; [lia|by intros [=]].
Qed.

#[export] Instance atecc_protocol_ok : ProtocolOk atecc_protocol := {|
  srv_ok sv := device_ok (device (store sv));
  srv_le sv sv' := device_le (device (store sv)) (device (store sv'));
  srv_saved := saved;
  answer_ok := response_ok;
  srv_le_preorder := ltac:(split; [intros sv; reflexivity|intros ???; apply transitivity]);
  step_safe := atecc_serve_one_safe;
  step_shorter := atecc_serve_one_shorter;
|}.

(** ** What a connection does *)

(** The word addresses a host sends, and their bytes on the wire. *)
Inductive item := Wake | Idle | Sleep | Cmd (c : Command).
Definition item_wire (it : item) : bytes :=
  match it with
  | Wake => [0x00]
  | Idle => [0x02]
  | Sleep => [0x01]
  | Cmd c => 0x03 :: command_packet c
  end.
Definition item_ok (it : item) : Prop := match it with Cmd c => command_ok c | _ => True end.

(** What an item does to the device, the generator and the session, and its answer. *)
Definition item_run (a : Device * rng) (s : Session) (it : item) : res (Device * rng * Session * bytes) :=
  match it with
  | Wake | Idle => Ret (a, s, [])
  | Sleep => Ret (a, volatile_reset s, [])
  | Cmd c => let! '(d, s, r, out) := run (fst a) s (snd a) c in Ret (d, r, s, out)
  end.

Definition items_run := exec_all item_run.

Definition server_abs (sv : Server) : Device * rng := (device (store sv), host_rng sv).

Lemma read_exact_one w stream : read_exact (w :: stream) 1 = Some ([w], stream).
Proof. exact (read_exact_app [w] stream). Qed.

Lemma item_wire_length it : (1 <= length (item_wire it))%nat.
Proof. destruct it; cbn [item_wire length]; lia. Qed.

(** The file system refused the device of the server. *)
Definition unsaved (sv : Server) : Prop :=
  exists p e, store_path (store sv) = Some p /\ fs_write (disk sv) p (device (store sv)) = Err e.

Lemma serve_cmd sv s c rest :
  device_ok (device (store sv)) -> command_ok c ->
  exists d s1 r out f, run (device (store sv)) s (host_rng sv) c = Ret (d, s1, r, out) /\ device_ok d /\
    let sv1 := mkServer (mkStore d (store_path (store sv))) f r in
    (serve_one sv s (0x03 :: command_packet c ++ rest) = Ret (sv1, s1, rest, out, Again) \/
     unsaved sv1 /\ serve_one sv s (0x03 :: command_packet c ++ rest) = Ret (sv1, s1, rest, [], Failed Other)).
Proof.
  intros Hok Hc. destruct sv as [[dev pth] f r]. cbn [store device host_rng] in *.
  unfold serve_one. rewrite read_exact_one, idx_0. cbn [rbind].
  change ((3 =? 0) || (3 =? 2)) with false. change (3 =? 1) with false. change (3 =? 3) with true.
  cbv iota. unfold read_and_dispatch.
  pose proof (command_packet_len c) as Hl. pose proof (len_nonneg (cmd_data c)) as Hn.
  pose proof (parse_packet c Hc) as Hp.
  destruct (command_packet c) as [|count body] eqn:Epk; [exfalso; len_solve|].
  assert (Hcount : count = 7 + len (cmd_data c)).
  { unfold command_packet, command_body in Epk. by injection Epk. }
  cbn [app]. rewrite read_exact_one, idx_0. cbn [rbind].
  rewrite (proj2 (Z.ltb_ge count 1)) by lia.
  rewrite len_cons in Hl. replace (count - 1) with (len body) by lia. rewrite read_exact_app.
  cbn [store device host_rng disk store_path].
  pose proof (atecc_run_safe dev s r c Hok Hc) as Hrun. apply wp_elim in Hrun as ([[[d s'] r'] resp] & Er & Hd & _ & _).
  unfold dispatch. rewrite Hp. cbn [rbind]. rewrite Er. cbn [rbind]. unfold persist. cbn [store_path device].
  destruct pth as [p|]; [|exists d, s', r', resp, f; split_and!; [done..|by left]].
  destruct (fs_write f p d) as [f'|e] eqn:Ef.
  - exists d, s', r', resp, f'. split_and!; [done..|by left].
  - exists d, s', r', resp, f. split_and!; [done..|]. right. split; [by exists p, e|done].
Qed.

(** One item is one turn of the loop. *)
Lemma serve_item sv s it rest : srv_ok sv -> item_ok it ->
  exists sv1 s1 out, item_run (server_abs sv) s it = Ret (server_abs sv1, s1, out) /\ srv_ok sv1 /\
    (step sv s (item_wire it ++ rest) = Ret (sv1, s1, rest, out, Again) \/
     unsaved sv1 /\ step sv s (item_wire it ++ rest) = Ret (sv1, s1, rest, [], Failed Other)).
Proof.
  intros Hok Hit. cbn [step atecc_protocol]. destruct it as [| | |c].
  - exists sv, s, []. split; [done|]. split; [done|]. left. cbn [item_wire app]. unfold serve_one.
    by rewrite read_exact_one.
  - exists sv, s, []. split; [done|]. split; [done|]. left. cbn [item_wire app]. unfold serve_one.
    by rewrite read_exact_one.
  - exists sv, (volatile_reset s), []. split; [done|]. split; [done|]. left.
    cbn [item_wire app]. unfold serve_one. by rewrite read_exact_one.
  - destruct (serve_cmd sv s c rest Hok Hit) as (d & s1 & r & out & f & E & Hd & Es).
    exists (mkServer (mkStore d (store_path (store sv))) f r), s1, out. split; [|split; [exact Hd|exact Es]].
    cbn [item_run server_abs fst snd]. by rewrite E.
Qed.

(** ** Properties *)

(** C13: Whatever byte streams any number of connections send and however the server
    schedules them, no thread panics; the device stays well-formed, every connection reads a
    sequence of well-formed response frames; once the configuration is locked it stays
    locked and unchanged but for the lock bytes, from then on the data zone and a slot that
    are locked stay locked, and with the data zone locked the OTP zone and the locked slots
    keep their contents; and unless a write to the file failed the file holds the device in
    memory. *)
Theorem any_schedule_safe sched (sv : Server) conns :
  sim_ok sv conns ->
  wp (run_schedule sched sv conns) (fun '(sv', conns') =>
    sim_ok sv' conns' /\ device_le (device (store sv)) (device (store sv'))).
Proof. exact (schedule_safe (POk := atecc_protocol_ok) sched sv conns). Qed.

(** C14: The server implements the command set: for any sequence of wake, idle and
    sleep pulses and well-formed commands, a connection that sends their bytes reads
    exactly the answers of the commands run one after the other on the device from a
    fresh session (sleep resets the session, wake and idle do not), and the server
    is left with the device and generator of that run; or it reads the answers up to the
    first command after which the file system refused the device, that command has been
    executed, and the connection ends. *)
Theorem conversation_served (sv : Server) items :
  device_ok (device (store sv)) -> Forall item_ok items ->
  exists (sv' : Server) s out,
    (items_run (device (store sv), host_rng sv) session_new items =
       Ret (device (store sv'), host_rng sv', s, out) /\
     handle_connection sv (wire item_wire items) = Ret (sv', s, out, Some Closed)) \/
    (exists pre it post a s0 unsent, items = pre ++ it :: post /\
       items_run (device (store sv), host_rng sv) session_new pre = Ret (a, s0, out) /\
       item_run a s0 it = Ret (device (store sv'), host_rng sv', s, unsent) /\ unsaved sv' /\
       handle_connection sv (wire item_wire items) = Ret (sv', s, out, Some (Failed Other))).
Proof.
  intros Hok Hits.
  destruct (serve_messages (P := atecc_protocol) item_wire item_run server_abs srv_ok item_ok item_wire_length
    (fun sv s => eq_refl) unsaved serve_item items sv session_new (S (length (wire item_wire items))))
    as (sv1 & s1 & out & o & E & _ & [[E2 ->]|(pre & it & post & a & s0 & un & H1 & H2 & H3 & H4 & ->)]);
    [done|done|lia| |]; exists sv1, s1, out; [by left|]. right. by exists pre, it, post, a, s0, un.
Qed.

(** Every connection ends: whatever its bytes are, the loop reaches the end of
    the stream, an unknown word address or an error. *)
Theorem connection_ends (sv : Server) stream :
  device_ok (device (store sv)) -> wf stream ->
  wp (handle_connection sv stream) (fun '(sv', _, _, o) =>
    device_ok (device (store sv')) /\ (o = Some Closed \/ exists e, o = Some (Failed e))).
Proof.
  exact (serve_ends (POk := atecc_protocol_ok) _ sv session_new stream (Nat.lt_succ_diag_r _)).
Qed.
End server.
