(* ===== verification/AteccProps.v ===== *)
(** * ATECC608Sim: what the commands promise

    The packet format, the data zone as a zero-filled memory, the SHA engine, and
    the key commands, as sequences of the items of [AteccServer]. *)

From S2P Require Import Prelude.
From S2P Require Import Crc.
From S2P Require Import Host.
From S2P Require Import Connections.
From S2P Require Import Crates.
From S2P Require Import ToyCrates.
From S2P Require Import AteccTypes.
From S2P Require Import AteccHandlers.
From S2P Require Import AteccFacts.
From S2P Require Import AteccServer.

Import AteccCrc.

(** ** Packets *)

(** The packet parser accepts exactly the packets a host builds: the parse of a
    byte string is the command [cmd] if and only if [cmd] has fields in range and
    the string is its packet. *)
Theorem command_packet_iff packet cmd :
  wf packet -> parse packet = Ret (Ok cmd) <-> command_ok cmd /\ packet = command_packet cmd.
Proof.
  intros Hw. split; [by apply atecc_parse_ok_inv|]. intros [Hok ->]. by apply parse_packet.
Qed.

Section props.
Context `{C : Crates} {COk : CratesOk C}.

(** A packet with one corrupted byte executes nothing: the device, the session
    and the generator stay as they are, and the answer is a parse error when the
    count was hit and a CRC error everywhere else. *)
Theorem corrupted_packet_refused d s r cmd l b b' k :
  command_ok cmd -> command_packet cmd = l ++ b :: k -> u8 b' -> b <> b' ->
  dispatch d s r (l ++ b' :: k) = Ret (d, s, r,
    response_frame [if bool_decide (l = []) then status.PARSE_ERROR else status.CRC_ERROR]).
Proof.
  intros Hok Hpk Hb' Hne. pose proof (wf_command_packet cmd Hok) as Hw. rewrite Hpk in Hw.
  assert (Hw' : wf (l ++ b' :: k)).
  { apply wf_app_inv in Hw as [? [_ ?]%wf_cons_inv]. auto with wfdb. }
  assert (Hlen : len (l ++ b' :: k) = len (command_packet cmd)) by (rewrite Hpk; len_solve).
  assert (Hhd : hd 0 (command_packet cmd) = len (command_packet cmd)).
  { rewrite command_packet_len. reflexivity. }
  assert (Hsame : l <> [] -> hd 0 (l ++ b' :: k) = len (l ++ b' :: k)).
  { intros Hl. rewrite Hlen, <- Hhd, Hpk. by destruct l. }
  unfold dispatch. destruct (atecc_parse_total (l ++ b' :: k)) as [[c|sw] E].
  - exfalso. apply Hne. destruct (atecc_parse_ok_inv _ _ Hw' E) as [Hc Ec].
    rewrite command_packet_len, Ec, command_packet_len in Hlen.
    eapply (crc_trailer_detects crc16 (le_bytes 2) l k (command_body cmd) (command_body c));
      eauto using le_bytes2_inj, u16_atecc_crc, atecc_crc_single_byte, wf_command_body.
    unfold command_body, len in *. cbn [length]. lia.
  - rewrite E. cbn [rbind]. rewrite status_response_ret. cbn [rbind]. do 4 f_equal.
    destruct (atecc_parse_cases (l ++ b' :: k)) as [[Ep Hwhy]|(op & p & lo & hi & x & cc & Ep & Hl & Hc)].
    + rewrite Ep in E. injection E as <-. rewrite Hlen, command_packet_len in Hwhy.
      pose proof (len_nonneg (cmd_data cmd)). case_bool_decide as Hl; [done|].
      rewrite (Hsame Hl), Hlen, command_packet_len in Hwhy. lia.
    + rewrite bool_decide_false.
      * rewrite Ep, atecc_parse_body in E by done. case_match; [|done]. by injection E as <-.
      * intros ->. cbn [app] in *. injection Ep as Ep _. rewrite Hlen, <- Hhd, Hpk in Ep. done.
Qed.

(** ** The data zone *)

(** A slot as the Read command sees it: 72 bytes, unwritten ones zero. *)
Definition slot_mem (d : Device) (slot : Z) : bytes :=
  match slots d !! Z.to_nat slot with
  | Some s => resize (data s) SLOT_SIZE 0
  | None => []
  end.

(** The fields of a data address, and the first byte an access of [n] bytes touches. *)
Definition addr_slot (addr : Z) : Z := Z.land (Z.shiftr addr 8) 0x0F.
Definition addr_offset (addr n : Z) : Z :=
  Z.land (Z.shiftr addr 3) 0x1F * 32 + (if n =? 32 then 0 else Z.land addr 0x7 * 4).

Lemma resize_ge (l : bytes) n : len l <= n -> resize l n 0 = l ++ replicate (Z.to_nat n - length l) 0.
Proof. intros. unfold resize. rewrite take_ge; [done|]. unfold len in *. lia. Qed.

(** Writing extends the memory's view of the slot the way it writes the slot. *)
Lemma resize_written (old src : bytes) off :
  0 <= off -> len old <= SLOT_SIZE -> off + len src <= SLOT_SIZE ->
  resize (written old off src) SLOT_SIZE 0 = splice (resize old SLOT_SIZE 0) off src.
Proof.
  unfold SLOT_SIZE. intros Ho Hl Hs. pose proof (len_nonneg src). pose proof (len_nonneg old).
  unfold written. destruct (Z.ltb_spec (len old) (off + len src)) as [Hlt|Hge].
  - rewrite (resize_ge (splice _ _ _)) by (rewrite len_splice; rewrite ?len_resize; lia).
    rewrite !(resize_ge old) by lia. unfold splice, len in *.
    rewrite !length_app, length_take, length_drop, !length_app, !length_replicate.
    rewrite (drop_ge (old ++ _)) by (rewrite length_app, length_replicate; lia).
    rewrite !firstn_app, skipn_app, !take_replicate, drop_replicate, (drop_ge old) by lia.
    rewrite <- !app_assoc. f_equal. f_equal; [f_equal; lia|]. f_equal. cbn [app]. f_equal. lia.
  - rewrite (resize_ge (splice _ _ _)) by (rewrite len_splice; lia).
    rewrite (resize_ge old) by lia. unfold splice, len in *.
    rewrite !length_app, length_take, length_drop.
    rewrite take_app_le, drop_app_le by lia. rewrite <- !app_assoc. do 4 f_equal. lia.
Qed.

(** Reading gives the bytes of the memory. *)
Lemma read_data_mem d addr n :
  device_ok d -> (n = 4 \/ n = 32) -> addr_offset addr n + n <= SLOT_SIZE ->
  read_zone.read_data d addr n =
    Ret (response_frame (sub (slot_mem d (addr_slot addr)) (addr_offset addr n) (addr_offset addr n + n))).
Proof.
  intros Hok Hn Hb. pose proof (data_offset addr n Hn) as Ho. fold (addr_offset addr n) in Ho.
  pose proof (land_small (Z.shiftr addr 8) 0x0F) as Hs. fold (addr_slot addr) in Hs.
  destruct (slot_lookup d (addr_slot addr) Hok) as (s & Es & Ei & Hw & Hsl); [lia|].
  unfold read_zone.read_data, slot_mem. rewrite Es.
  fold (addr_slot addr). fold (addr_offset addr n). cbv zeta. set (off := addr_offset addr n) in *.
  unfold NUM_SLOTS. rewrite (proj2 (Z.leb_gt 16 _)), (proj2 (Z.ltb_ge SLOT_SIZE _)) by lia.
  rewrite Ei. cbn [rbind]. unfold SLOT_SIZE in *. rewrite resize_ge by lia.
  set (avail := Z.min _ _). pose proof (len_nonneg (data s)).
  assert (E : (if off <? avail then let! src := slice (data s) off avail in
      copy_from_slice (vec_repeat 0 n) 0 (avail - off) src else Ret (vec_repeat 0 n)) =
    Ret (sub (data s ++ replicate (Z.to_nat 72 - length (data s)) 0) off (off + n))).
  { unfold len in *. destruct (Z.ltb_spec off avail).
    - rewrite slice_ret by (unfold len; lia). cbn [rbind]. unfold copy_from_slice.
      rewrite bool_decide_true by (rewrite len_vec_repeat, len_sub; unfold len; lia). f_equal.
      unfold splice, vec_repeat, sub. rewrite firstn_O, drop_replicate, length_take, length_drop. cbn [app].
      rewrite skipn_app, firstn_app, length_drop. rewrite drop_replicate, take_replicate.
      f_equal; [|f_equal; lia]. destruct (decide (Z.of_nat (length (data s)) <= off + n)).
      + rewrite !take_ge; [done|rewrite length_drop; lia..].
      + f_equal. lia.
    - f_equal. unfold vec_repeat, sub. rewrite drop_app_ge by lia.
      rewrite drop_replicate, take_replicate. f_equal. lia. }
  rewrite E. cbn [rbind]. apply build_response_ret. rewrite len_sub. lia.
Qed.

(** C15: The data zone is a memory of zero-filled slots: a write the locks allow and
    that fits overwrites its bytes in its slot and no others, and every read that
    fits, of any slot, answers the bytes of the memory. *)
Theorem data_zone_is_memory d addr src addr' n :
  device_ok d -> wf src -> (len src = 4 \/ len src = 32) -> (n = 4 \/ n = 32) ->
  addr_offset addr (len src) + len src <= SLOT_SIZE -> addr_offset addr' n + n <= SLOT_SIZE ->
  (data_locked d = Ret false \/ slot_locked d (addr_slot addr) = Ret false) ->
  exists d', write_zone.write_data d addr src = Ret (d', Ok tt) /\
    (forall i, 0 <= i < 16 -> slot_mem d' i =
      if i =? addr_slot addr then splice (slot_mem d i) (addr_offset addr (len src)) src else slot_mem d i) /\
    read_zone.read_data d' addr' n = Ret (response_frame
      (sub (slot_mem d' (addr_slot addr')) (addr_offset addr' n) (addr_offset addr' n + n))).
Proof.
  intros Hok Hw Hl Hn Hb Hb' Hlock. pose proof (data_offset addr _ Hl) as Ho.
  fold (addr_offset addr (len src)) in Ho.
  pose proof (land_small (Z.shiftr addr 8) 0x0F) as Hs. fold (addr_slot addr) in Hs.
  destruct (slot_lookup d (addr_slot addr) Hok) as (s & Es & Ei & Hsw & Hsl); [lia|].
  set (off := addr_offset addr (len src)) in *.
  set (d' := set_slots d (<[Z.to_nat (addr_slot addr) := mkSlotData (written (data s) off src)]> (slots d))).
  assert (E : write_zone.write_data d addr src = Ret (d', Ok tt)).
  { unfold write_zone.write_data. fold (addr_slot addr). fold (addr_offset addr (len src)). fold off. cbv zeta.
    unfold NUM_SLOTS. rewrite (proj2 (Z.leb_gt 16 _)), (proj2 (Z.ltb_ge SLOT_SIZE _)) by lia.
    assert (Hfree : (let! dl := data_locked d in if dl then slot_locked d (addr_slot addr) else Ret false) = Ret false).
    { destruct (data_locked_ret d Hok) as [[] Ed]; rewrite Ed in *; cbn [rbind]; [|done].
      by destruct Hlock. }
    destruct (data_locked_ret d Hok) as [dl Ed]. rewrite Ed in *. cbn [rbind] in *. rewrite Hfree.
    cbn [rbind]. rewrite Ei. cbn [rbind].
    apply wp_eq, wp_bind, wp_written; [done|]. pose proof (ok_slots _ Hok) as Hls. unfold NUM_SLOTS in Hls.
    by wp_run. }
  assert (Hok' : device_ok d').
  { apply slot_update_ok; [done|]. apply written_ok; (done || unfold SLOT_SIZE in *; lia). }
  exists d'. split; [done|]. split.
  - intros i Hi. unfold slot_mem. cbn [d' slots set_slots]. destruct (Z.eqb_spec i (addr_slot addr)) as [->|Hne].
    + rewrite list_lookup_insert_eq, Es by (by eapply lookup_lt_Some). cbn [data].
      apply resize_written; unfold SLOT_SIZE in *; lia.
    + rewrite list_lookup_insert_ne by lia. done.
  - by apply read_data_mem.
Qed.

(** ** The SHA engine *)

Definition sha_cmd (mode : Z) (data : bytes) : Command := mkCommand op.SHA mode 0 data.
Definition ok_frame : bytes := response_frame [status.SUCCESS].
Definition error_frame : bytes := response_frame [status.EXECUTION_ERROR].
Definition sha256 (m : bytes) : bytes := sha256_finalize (sha256_update sha256_new m).

Lemma build_ret_any body (Q : bytes) : len body <= 252 -> response_frame body = Q -> build_response body = Ret Q.
Proof. intros Hl <-. by apply build_response_ret. Qed.

(** The updates a host sends, with the idle and wake pulses of its driver between. *)
Definition sha_updates (chunks : list bytes) : list item :=
  chunks ≫= fun c => [Idle; Cmd (sha_cmd 0x01 c); Wake].

Lemma items_run_app a s xs ys :
  items_run a s (xs ++ ys) =
    (let! '(a, s, out) := items_run a s xs in
     let! '(a, s, out') := items_run a s ys in Ret (a, s, out ++ out')).
Proof. apply exec_all_app. Qed.
Lemma items_run_cons a s x xs :
  items_run a s (x :: xs) =
    (let! '(a, s, out) := item_run a s x in
     let! '(a, s, out') := items_run a s xs in Ret (a, s, out ++ out')).
Proof. reflexivity. Qed.
Lemma items_run_nil a s : items_run a s [] = Ret (a, s, []).
Proof. reflexivity. Qed.
Lemma items_run_cmd d s r c d' s' r' out xs : run d s r c = Ret (d', s', r', out) ->
  items_run (d, r) s (Cmd c :: xs) =
    (let! '(a, s, out') := items_run (d', r') s' xs in Ret (a, s, out ++ out')).
Proof. intros E. rewrite items_run_cons. cbn [item_run fst snd]. by rewrite E. Qed.
Lemma items_run_idle a s xs : items_run a s (Idle :: xs) = items_run a s xs.
Proof. rewrite items_run_cons. cbn [item_run rbind]. by destruct (items_run a s xs) as [[[? ?] ?]|]. Qed.
Lemma items_run_wake a s xs : items_run a s (Wake :: xs) = items_run a s xs.
Proof. rewrite items_run_cons. cbn [item_run rbind]. by destruct (items_run a s xs) as [[[? ?] ?]|]. Qed.
Lemma items_run_sleep a s xs : items_run a s (Sleep :: xs) = items_run a (volatile_reset s) xs.
Proof. rewrite items_run_cons. cbn [item_run rbind]. by destruct (items_run a _ xs) as [[[? ?] ?]|]. Qed.

Definition sha_at (s : Session) (h : option sha256_t) : Session := mkSession (tempkey s) (mkShaCtx h).

Lemma sha_run d s r mode data s' resp :
  sha.handle s (sha_cmd mode data) = Ret (s', resp) -> run d s r (sha_cmd mode data) = Ret (d, s', r, resp).
Proof. intros E. unfold run. cbn. by rewrite E. Qed.

Lemma sha_updates_run d s r h chunks :
  items_run (d, r) (sha_at s (Some h)) (sha_updates chunks) =
    Ret (d, r, sha_at s (Some (sha256_update h (concat chunks))), concat (replicate (length chunks) ok_frame)).
Proof.
  revert h. induction chunks as [|c chunks IH]; intros h.
  - cbn. by rewrite sha256_update_nil.
  - change (sha_updates (c :: chunks)) with ([Idle; Cmd (sha_cmd 0x01 c); Wake] ++ sha_updates chunks).
    rewrite items_run_app, items_run_idle.
    rewrite (items_run_cmd d _ r _ d (sha_at s (Some (sha256_update h c))) r ok_frame).
    + rewrite items_run_wake, items_run_nil. cbn [rbind]. rewrite IH. cbn [rbind concat length replicate]. rewrite app_nil_r.
      by rewrite sha256_update_app.
    + apply sha_run. unfold sha.handle. cbn [sha_cmd p1 cmd_data sha_at AteccTypes.sha sha_update hasher].
      change (1 =? 0) with false. change (1 =? 1) with true. cbn [negb].
      by rewrite status_response_ret.
Qed.

(** C16: Hashing in pieces is hashing at once: after a start, any number of updates
    with idle and wake pulses between them, and an end with any trailing bytes, the
    device answers the digest the one-shot mode gives for the concatenation; the
    TempKey is not touched.  A sleep in between discards the context. *)
Theorem sha_streaming d s r chunks last :
  let m := concat chunks ++ last in
  items_run (d, r) s (Cmd (sha_cmd 0x00 []) :: sha_updates chunks ++ [Cmd (sha_cmd 0x02 last)]) =
    Ret (d, r, sha_at s None,
      ok_frame ++ concat (replicate (length chunks) ok_frame) ++ response_frame (sha256 m)) /\
  run d s r (sha_cmd 0x03 m) = Ret (d, s, r, response_frame (sha256 m)) /\
  items_run (d, r) s (Cmd (sha_cmd 0x00 []) :: sha_updates chunks ++ [Sleep; Cmd (sha_cmd 0x02 last)]) =
    Ret (d, r, volatile_reset s, ok_frame ++ concat (replicate (length chunks) ok_frame) ++ error_frame).
Proof.
  intros m. pose proof (sha256_len (sha256_update sha256_new m)) as Hl.
  assert (Hstart : run d s r (sha_cmd 0x00 []) = Ret (d, sha_at s (Some sha256_new), r, ok_frame)).
  { apply sha_run. unfold sha.handle. cbn. by rewrite status_response_ret. }
  split; [|split].
  - rewrite (items_run_cmd _ _ _ _ _ _ _ _ _ Hstart), items_run_app, sha_updates_run. cbn [rbind].
    rewrite (items_run_cmd d _ r _ d (sha_at s None) r (response_frame (sha256 m))).
    + rewrite items_run_nil. cbn [rbind]. by rewrite app_nil_r.
    + apply sha_run. unfold sha.handle. cbn [sha_cmd p1 cmd_data sha_at AteccTypes.sha sha_finish hasher].
      change (2 =? 0) with false. change (2 =? 1) with false. change (2 =? 2) with true. cbv iota.
      assert (E : (if bool_decide (last = []) then sha256_finalize (sha256_update sha256_new (concat chunks))
        else sha256_finalize (sha256_update (sha256_update sha256_new (concat chunks)) last)) = sha256 m).
      { unfold m, sha256. case_bool_decide as Hlast; [by rewrite Hlast, app_nil_r|].
        by rewrite sha256_update_app. }
      rewrite E. rewrite build_response_ret by (unfold sha256; lia). done.
  - apply sha_run. unfold sha.handle. cbn [sha_cmd p1 cmd_data].
    change (3 =? 0) with false. change (3 =? 1) with false. change (3 =? 2) with false.
    change (3 =? 3) with true. cbv iota. by rewrite build_response_ret by lia.
  - rewrite (items_run_cmd _ _ _ _ _ _ _ _ _ Hstart), items_run_app, sha_updates_run. cbn [rbind].
    rewrite items_run_sleep, (items_run_cmd d _ r _ d (volatile_reset s) r error_frame).
    + rewrite items_run_nil. cbn [rbind]. by rewrite app_nil_r.
    + apply sha_run. unfold sha.handle. cbn. by rewrite status_response_ret.
Qed.

(** ** Keys *)

Definition genkey_cmd (slot : Z) : Command := mkCommand op.GENKEY 0x04 slot [].
Definition pubkey_cmd (slot : Z) : Command := mkCommand op.GENKEY 0x00 slot [].
Definition nonce_cmd (m : bytes) : Command := mkCommand op.NONCE 0x03 0 m.
Definition sign_cmd (slot : Z) : Command := mkCommand op.SIGN 0x80 slot [].
Definition verify_cmd (sig pk : bytes) : Command := mkCommand op.VERIFY 0x02 0 (sig ++ pk).
Definition ecdh_cmd (slot : Z) (pk : bytes) : Command := mkCommand op.ECDH 0x00 slot pk.

(** What [run] does with them. *)
Lemma run_genkey d s r a b x : run d s r (mkCommand op.GENKEY a b x) =
  (let! '(d, resp, r) := genkey.handle d (mkCommand op.GENKEY a b x) r in Ret (d, s, r, resp)).
Proof. reflexivity. Qed.
Lemma run_nonce d s r a b x : run d s r (mkCommand op.NONCE a b x) =
  (let! '(s, resp) := nonce.handle s (mkCommand op.NONCE a b x) in Ret (d, s, r, resp)).
Proof. reflexivity. Qed.
Lemma atecc_run_sign d s r a b x : run d s r (mkCommand op.SIGN a b x) =
  (let! resp := sign.handle d s (mkCommand op.SIGN a b x) in Ret (d, s, r, resp)).
Proof. reflexivity. Qed.
Lemma atecc_run_verify d s r a b x : run d s r (mkCommand op.VERIFY a b x) =
  (let! resp := verify.handle s (mkCommand op.VERIFY a b x) in Ret (d, s, r, resp)).
Proof. reflexivity. Qed.
Lemma atecc_run_ecdh d s r a b x : run d s r (mkCommand op.ECDH a b x) =
  (let! resp := ecdh.handle d (mkCommand op.ECDH a b x) in Ret (d, s, r, resp)).
Proof. reflexivity. Qed.

(** The device holds the private key [sk], whose public key is [pk], in a slot. *)
Record holds_key (d : Device) (slot : Z) (sk : p256_secret) (pk : bytes) : Prop := {
  hk_ok : device_ok d;
  hk_slot : 0 <= slot < 16;
  hk_point : p256_to_encoded_point (p256_public_of sk) = 4 :: pk;
  hk_len : len pk = 64;
  hk_wf : wf pk;
  hk_scalar : genkey.slot_scalar d slot = Ret (Some (p256_secret_to_bytes sk));
}.

Lemma pubkey_raw_ret sk pk : p256_to_encoded_point (p256_public_of sk) = 4 :: pk -> len pk = 64 ->
  genkey.pubkey_raw sk = Ret pk.
Proof. intros E Hl. apply wp_eq, wp_pubkey_raw. congruence. Qed.

Lemma genkey_run d s r slot :
  device_ok d -> 0 <= slot < 16 -> slot_locked d slot = Ret false ->
  exists sk pk d' r', p256_random r = (sk, r') /\
    run d s r (genkey_cmd slot) = Ret (d', s, r', response_frame pk) /\ holds_key d' slot sk pk.
Proof.
  intros Hok Hs Hlock. destruct (p256_random r) as [sk r'] eqn:Er.
  destruct (p256_point_shape (p256_public_of sk)) as (pk & Ept & Hpl & Hpw).
  destruct (slot_lookup d slot Hok Hs) as (sl & Es & Ei & Hsw & Hsl).
  pose proof (p256_to_bytes_len sk) as Hkl.
  set (w := written (data sl) 0 (p256_secret_to_bytes sk)).
  set (d' := set_slots d (<[Z.to_nat slot := mkSlotData w]> (slots d))).
  assert (Hd' : device_ok d').
  { apply slot_update_ok; [done|]. apply written_ok; try done; [apply p256_to_bytes_wf|lia]. }
  exists sk, pk, d', r'. split; [done|]. split.
  - unfold genkey_cmd. rewrite run_genkey.
    unfold genkey.handle. cbn [p1 p2]. unfold NUM_SLOTS. rewrite (proj2 (Z.leb_gt 16 slot)) by lia.
    change (4 =? 4) with true. cbv iota. rewrite Hlock. cbn [rbind]. rewrite Er.
    rewrite (pubkey_raw_ret sk pk Ept Hpl). cbn [rbind]. rewrite Ei. cbn [rbind].
    pose proof (ok_slots _ Hok) as Hls. unfold NUM_SLOTS in Hls.
    apply wp_eq, wp_bind, wp_bind. replace 32 with (0 + len (p256_secret_to_bytes sk)) by lia.
    apply wp_written; [done|]. wp_run. rewrite build_response_ret by lia. by wp_run.
  - split; try done. rewrite (slot_scalar_ret d' slot (mkSlotData w)).
    + unfold scalar_of. cbn [data]. f_equal. unfold w, written. rewrite Z.add_0_l, Hkl.
      set (old := if len (data sl) <? 32 then resize (data sl) 32 0 else data sl).
      assert (Hold : 32 <= len old).
      { unfold old. destruct (Z.ltb_spec (len (data sl)) 32); [rewrite len_resize|]; lia. }
      rewrite (proj2 (Z.ltb_ge _ 32)) by (rewrite len_splice; lia).
      f_equal. unfold splice. rewrite firstn_O. cbn [app]. rewrite <- Hkl. apply sub_prefix.
    + cbn [d' slots set_slots]. apply list_lookup_insert_eq. by eapply lookup_lt_Some.
    + lia.
Qed.

Lemma from_xy_pk sk pk : p256_to_encoded_point (p256_public_of sk) = 4 :: pk ->
  p256_from_xy (sub pk 0 32) (sub pk 32 64) = Some (p256_public_of sk).
Proof.
  intros E. pose proof (p256_from_xy_point (p256_public_of sk)) as H.
  rewrite E, !sub_cons in H by lia. exact H.
Qed.

(** Sign uses the TempKey, and answers an error without one. *)
Lemma atecc_sign_run d s r slot sk pk :
  holds_key d slot sk pk ->
  run d s r (sign_cmd slot) = Ret (d, s, r,
    if valid (tempkey s) then
      match p256_sign_prehash sk (value (tempkey s)) with
      | Some sig => response_frame sig
      | None => error_frame
      end
    else error_frame).
Proof.
  intros [Hok Hs Hpt Hpl Hpw Hsc]. unfold sign_cmd. rewrite atecc_run_sign. unfold sign.handle. cbn [p1 p2].
  change (has 0x80 0x80) with true. cbn [negb]. unfold NUM_SLOTS. rewrite (proj2 (Z.leb_gt 16 slot)) by lia.
  destruct (valid (tempkey s)); cbn [negb]; [|by rewrite status_response_ret].
  rewrite Hsc. cbn [rbind]. rewrite p256_from_to_bytes.
  destruct (p256_sign_prehash sk (value (tempkey s))) as [sig|] eqn:E; [|by rewrite status_response_ret].
  destruct (p256_sign_len _ _ _ E) as [Hl _]. by rewrite build_response_ret by lia.
Qed.

Lemma nonce_run d s r m : len m = 32 -> exists s', run d s r (nonce_cmd m) = Ret (d, s', r, ok_frame) /\
  valid (tempkey s') = true /\ value (tempkey s') = m.
Proof.
  intros Hl. unfold nonce_cmd. rewrite run_nonce. unfold nonce.handle. cbn [p1 cmd_data].
  change (Z.land 3 7 =? 3) with true. cbn [negb]. rewrite Hl, Z.eqb_refl. cbn [negb].
  unfold copy_from_slice. rewrite bool_decide_true by (rewrite len_vec_repeat; lia). cbn [rbind].
  rewrite status_response_ret. cbn [rbind]. eexists. split; [done|]. split; [done|].
  cbn [tempkey load_passthrough value]. apply splice_full. by rewrite len_vec_repeat, Hl.
Qed.

(** A generated key signs: after GenKey in an unlocked slot the device answers
    the public key, also when it is asked for again; the digest loaded by Nonce, an
    idle pulse later, is signed with the slot's key, and Verify accepts that
    signature under that public key.  After a sleep, Sign answers an error. *)
Theorem generated_key_signs d s r slot m :
  device_ok d -> 0 <= slot < 16 -> slot_locked d slot = Ret false -> len m = 32 ->
  exists d' s' r' pk sig,
    items_run (d, r) s [Cmd (genkey_cmd slot); Cmd (pubkey_cmd slot); Cmd (nonce_cmd m); Idle; Cmd (sign_cmd slot)] =
      Ret (d', r', s', response_frame pk ++ response_frame pk ++ ok_frame ++ response_frame sig) /\
    run d' s' r' (verify_cmd sig pk) = Ret (d', s', r', ok_frame) /\
    items_run (d', r') s' [Sleep; Cmd (sign_cmd slot)] = Ret (d', r', volatile_reset s', error_frame).
Proof.
  intros Hok Hs Hlock Hm.
  destruct (genkey_run d s r slot Hok Hs Hlock) as (sk & pk & d' & r' & _ & Eg & Hk).
  destruct (nonce_run d' s r' m Hm) as (s' & En & Hv & Hval).
  destruct (p256_sign_some sk m Hm) as [sig Esig].
  destruct (p256_sign_verify _ _ _ Esig) as (g & Eg1 & Everify).
  destruct (p256_sign_len _ _ _ Esig) as [Hsl _].
  pose proof Hk as [_ _ Hpt Hpl _ Hsc].
  assert (Epub : run d' s r' (pubkey_cmd slot) = Ret (d', s, r', response_frame pk)).
  { unfold pubkey_cmd. rewrite run_genkey. unfold genkey.handle. cbn [p1 p2]. unfold NUM_SLOTS.
    rewrite (proj2 (Z.leb_gt 16 slot)) by lia. change (0 =? 4) with false. change (0 =? 0) with true.
    cbv iota. rewrite Hsc. cbn [rbind]. rewrite p256_from_to_bytes, (pubkey_raw_ret sk pk Hpt Hpl).
    cbn [rbind]. by rewrite build_response_ret by lia. }
  exists d', s', r', pk, sig. split; [|split].
  - rewrite (items_run_cmd _ _ _ _ _ _ _ _ _ Eg), (items_run_cmd _ _ _ _ _ _ _ _ _ Epub),
      (items_run_cmd _ _ _ _ _ _ _ _ _ En), items_run_idle,
      (items_run_cmd _ _ _ _ _ _ _ _ _ (atecc_sign_run _ _ _ _ _ _ Hk)), Hv, Hval, Esig, items_run_nil.
    cbn [rbind]. by rewrite app_nil_r.
  - unfold verify_cmd. rewrite atecc_run_verify. unfold verify.handle. cbn [p1 cmd_data].
    change (Z.land 2 7 =? 2) with true. cbn [negb]. rewrite len_app, Hsl, Hpl.
    change (64 + 64 =? 128) with true. cbn [negb]. rewrite Hv. cbn [negb].
    rewrite !slice_ret by (rewrite ?len_app; lia). cbn [rbind].
    rewrite sub_app_l, sub_full by lia. rewrite sub_app_r by lia. rewrite Hsl.
    change (64 - 64) with 0. change (128 - 64) with 64. rewrite (sub_full pk 64) by lia.
    rewrite Eg1, (from_xy_pk sk pk Hpt), Hval, Everify. by rewrite status_response_ret.
  - rewrite items_run_sleep, (items_run_cmd _ _ _ _ _ _ _ _ _ (atecc_sign_run _ _ _ _ _ _ Hk)), items_run_nil. done.
Qed.

Lemma atecc_ecdh_run d s r slot sk pk sk' pk' :
  holds_key d slot sk pk -> p256_to_encoded_point (p256_public_of sk') = 4 :: pk' -> len pk' = 64 ->
  run d s r (ecdh_cmd slot pk') = Ret (d, s, r, response_frame (p256_dh sk (p256_public_of sk'))).
Proof.
  intros [Hok Hs Hpt Hpl Hpw Hsc] Hpt' Hpl'. unfold ecdh_cmd. rewrite atecc_run_ecdh. unfold ecdh.handle.
  cbn [p1 p2 cmd_data]. change (0 =? 0) with true. cbn [negb]. unfold NUM_SLOTS.
  rewrite (proj2 (Z.leb_gt 16 slot)) by lia. rewrite Hpl'. change (64 =? 64) with true. cbn [negb].
  rewrite Hsc. cbn [rbind]. rewrite p256_from_to_bytes. rewrite slice_ret by lia. cbn [rbind].
  rewrite (sub_full pk' 64), (from_xy_pk sk' pk' Hpt') by lia.
  pose proof (p256_dh_len sk (p256_public_of sk')). by rewrite build_response_ret by lia.
Qed.

(** Two devices agree: when each generates a key and is given the public key the
    other answered, both answer the same 32-byte secret. *)
Theorem ecdh_agreement da sa ra i db sb rb j :
  device_ok da -> 0 <= i < 16 -> slot_locked da i = Ret false ->
  device_ok db -> 0 <= j < 16 -> slot_locked db j = Ret false ->
  exists da' ra' pka db' rb' pkb z,
    run da sa ra (genkey_cmd i) = Ret (da', sa, ra', response_frame pka) /\
    run db sb rb (genkey_cmd j) = Ret (db', sb, rb', response_frame pkb) /\
    run da' sa ra' (ecdh_cmd i pkb) = Ret (da', sa, ra', response_frame z) /\
    run db' sb rb' (ecdh_cmd j pka) = Ret (db', sb, rb', response_frame z) /\ len z = 32.
Proof.
  intros Ha Hi Hla Hb Hj Hlb.
  destruct (genkey_run da sa ra i Ha Hi Hla) as (ka & pka & da' & ra' & _ & Ea & Hka).
  destruct (genkey_run db sb rb j Hb Hj Hlb) as (kb & pkb & db' & rb' & _ & Eb & Hkb).
  exists da', ra', pka, db', rb', pkb, (p256_dh ka (p256_public_of kb)).
  split; [done|]. split; [done|]. split; [|split].
  - apply (atecc_ecdh_run _ _ _ _ _ _ _ _ Hka); apply Hkb.
  - rewrite p256_dh_comm. apply (atecc_ecdh_run _ _ _ _ _ _ _ _ Hkb); apply Hka.
  - apply p256_dh_len.
Qed.
End props.

(** ** The properties at concrete inputs

    The factory device is well-formed, and each property with hypotheses is applied
    where they hold, over the executable crates of [ToyCrates]. *)

#[local] Existing Instance toy.
#[local] Existing Instance toy_ok.
#[local] Instance toy_fs : FileSystem Device := one_file Device.
#[local] Instance toy_fs_ok : FileSystemOk toy_fs := one_file_ok Device.

(** The device as it ships. *)
Definition factory : Device :=
  match default_device with Ret d => d | Panic => mkDevice [] [] [] end.

Lemma factory_ret : default_device = Ret factory.
Proof. reflexivity. Qed.

Lemma forallb_u8 l : forallb is_u8 l = true -> wf l.
Proof. apply forallb_is_u8. Qed.

Lemma atecc_factory_ok : device_ok factory.
Proof.
  split; try reflexivity; try (apply forallb_u8; vm_compute; reflexivity).
  change (slots factory) with (replicate 16 empty). apply Forall_replicate.
  split; [apply wf_nil|done].
Qed.

(** Both zones ship locked, and every slot unlocked. *)
Lemma factory_locks :
  config_locked factory = Ret true /\ data_locked factory = Ret true /\
  (forall i, 0 <= i < 16 -> slot_locked factory i = Ret false).
Proof.
  split; [reflexivity|]. split; [reflexivity|]. intros i Hi.
  assert (Hall : Forall (fun i => slot_locked factory i = Ret false) (seqZ 0 16)).
  { repeat constructor. }
  rewrite Forall_forall in Hall. apply Hall, elem_of_seqZ. lia.
Qed.

Definition seed : @rng (@crates_rng toy) := 9.
Definition server0 : Server := mkServer (mkStore factory (Some tt)) (Some factory) seed.
Definition digest32 : bytes := vec_repeat 7 32.
Definition fresh_session : Session := session_new.

Definition items0 : list item := [Wake; Cmd (genkey_cmd 3); Idle; Cmd (nonce_cmd digest32); Sleep].

Lemma items0_ok : Forall item_ok items0.
Proof.
  assert (Hg : command_ok (genkey_cmd 3)).
  { unfold command_ok, genkey_cmd, nonce_cmd, sign_cmd, u8, u16, op.GENKEY. cbn. split_and!; first [lia | apply wf_nil | done]. }
  assert (Hn : command_ok (nonce_cmd digest32)).
  { unfold command_ok, genkey_cmd, nonce_cmd, sign_cmd, u8, u16, op.NONCE. cbn. split_and!; first [lia | done | apply forallb_u8; reflexivity]. }
  repeat apply Forall_cons_2; try exact I; [exact Hg|exact Hn|apply Forall_nil_2].
Qed.

Lemma atecc_wf_wire items : Forall item_ok items -> wf (wire item_wire items).
Proof.
  induction 1 as [|it items Hit _ IH]; [apply wf_nil|]. rewrite wire_cons. apply wf_app; [|exact IH].
  destruct it; cbn [item_wire]; try (apply wf_cons; [u_solve|apply wf_nil]).
  apply wf_cons; [u_solve|]. by apply wf_command_packet.
Qed.

Lemma any_schedule_safe_witness :
  sim_ok server0 [conn_new (wire item_wire items0); conn_new [3; 1]] /\
  wp (run_schedule [0; 1; 0; 0; 1; 0]%nat server0 [conn_new (wire item_wire items0); conn_new [3; 1]])
    (fun '(sv', conns') => sim_ok sv' conns' /\ device_le (device (store server0)) (device (store sv'))).
Proof.
  assert (H : sim_ok server0 [conn_new (wire item_wire items0); conn_new [3; 1]]).
  { split.
    - apply atecc_factory_ok.
    - intros _ p [= <-]. reflexivity.
    - apply Forall_cons_2; [apply atecc_wf_wire, items0_ok|]. apply Forall_cons_2; [|apply Forall_nil_2].
      apply forallb_u8. reflexivity.
    - apply Forall_cons_2; [exists []; by split|]. apply Forall_cons_2; [|apply Forall_nil_2].
      exists []. by split. }
  split; [exact H|]. exact (any_schedule_safe [0; 1; 0; 0; 1; 0]%nat server0 _ H).
Defined.

Lemma conversation_served_witness :
  exists (sv' : Server) s out,
    items_run (factory, seed) session_new items0 = Ret (device (store sv'), host_rng sv', s, out) /\
    handle_connection server0 (wire item_wire items0) = Ret (sv', s, out, Some Closed).
Proof.
  destruct (conversation_served server0 items0) as (sv' & s & out & [H|H]).
  - apply atecc_factory_ok.
  - apply items0_ok.
  - by exists sv', s, out.
  - destruct H as (pre & it & post & a & s0 & un & _ & _ & _ & (p & e & _ & Hw) & _). discriminate Hw.
Defined.

Lemma connection_ends_witness :
  wf [3; 200; 1] /\
  wp (handle_connection server0 [3; 200; 1]) (fun '(sv', _, _, o) =>
    device_ok (device (store sv')) /\ (o = Some Closed \/ exists e, o = Some (Failed e))).
Proof.
  assert (H : wf [3; 200; 1]) by (apply forallb_u8; reflexivity).
  split; [exact H|]. apply (connection_ends server0 [3; 200; 1]); [apply atecc_factory_ok|exact H].
Defined.

Lemma command_packet_iff_witness :
  wf (command_packet (sign_cmd 3)) /\
  (parse (command_packet (sign_cmd 3)) = Ret (Ok (sign_cmd 3)) <->
   command_ok (sign_cmd 3) /\ command_packet (sign_cmd 3) = command_packet (sign_cmd 3)).
Proof.
  assert (H : wf (command_packet (sign_cmd 3))) by (apply forallb_u8; vm_compute; reflexivity).
  split; [exact H|]. exact (command_packet_iff _ _ H).
Defined.

Lemma corrupted_packet_refused_witness :
  dispatch factory fresh_session seed [7; 0x42; 0x80; 3; 0; 39; 5] =
    Ret (factory, fresh_session, seed, response_frame [status.CRC_ERROR]).
Proof.
  apply (corrupted_packet_refused factory fresh_session seed (sign_cmd 3) [7] 0x41 0x42 [0x80; 3; 0; 39; 5]).
  - unfold command_ok, genkey_cmd, nonce_cmd, sign_cmd, u8, u16, op.SIGN. cbn. split_and!; first [lia | apply wf_nil | done].
  - vm_compute. reflexivity.
  - u_solve.
  - discriminate.
Defined.

Lemma data_zone_is_memory_witness :
  exists d', write_zone.write_data factory 0x0308 digest32 = Ret (d', Ok tt) /\
    (forall i, 0 <= i < 16 -> slot_mem d' i =
      if i =? addr_slot 0x0308 then splice (slot_mem factory i) (addr_offset 0x0308 (len digest32)) digest32
      else slot_mem factory i) /\
    read_zone.read_data d' 0x0309 4 = Ret (response_frame
      (sub (slot_mem d' (addr_slot 0x0309)) (addr_offset 0x0309 4) (addr_offset 0x0309 4 + 4))).
Proof.
  apply data_zone_is_memory; [apply atecc_factory_ok|apply forallb_u8; reflexivity|by right|by left| | |].
  - apply Z.leb_le. reflexivity.
  - apply Z.leb_le. reflexivity.
  - right. apply factory_locks. split; [apply Z.leb_le|apply Z.ltb_lt]; reflexivity.
Defined.

Lemma sha_streaming_witness :
  let m := concat [[1; 2]; [3]] ++ [4] in
  items_run (factory, seed) fresh_session
    (Cmd (sha_cmd 0x00 []) :: sha_updates [[1; 2]; [3]] ++ [Cmd (sha_cmd 0x02 [4])]) =
    Ret (factory, seed, sha_at fresh_session None,
      ok_frame ++ concat (replicate 2 ok_frame) ++ response_frame (sha256 m)) /\
  run factory fresh_session seed (sha_cmd 0x03 m) =
    Ret (factory, fresh_session, seed, response_frame (sha256 m)) /\
  items_run (factory, seed) fresh_session
    (Cmd (sha_cmd 0x00 []) :: sha_updates [[1; 2]; [3]] ++ [Sleep; Cmd (sha_cmd 0x02 [4])]) =
    Ret (factory, seed, volatile_reset fresh_session, ok_frame ++ concat (replicate 2 ok_frame) ++ error_frame).
Proof. exact (sha_streaming factory fresh_session seed [[1; 2]; [3]] [4]). Defined.

Lemma generated_key_signs_witness :
  exists d' s' r' pk sig,
    items_run (factory, seed) fresh_session
      [Cmd (genkey_cmd 3); Cmd (pubkey_cmd 3); Cmd (nonce_cmd digest32); Idle; Cmd (sign_cmd 3)] =
      Ret (d', r', s', response_frame pk ++ response_frame pk ++ ok_frame ++ response_frame sig) /\
    run d' s' r' (verify_cmd sig pk) = Ret (d', s', r', ok_frame) /\
    items_run (d', r') s' [Sleep; Cmd (sign_cmd 3)] = Ret (d', r', volatile_reset s', error_frame).
Proof.
  apply (generated_key_signs factory fresh_session seed 3 digest32);
    [apply atecc_factory_ok|lia|apply factory_locks; lia|reflexivity].
Defined.

Lemma ecdh_agreement_witness :
  exists da' ra' pka db' rb' pkb z,
    run factory fresh_session seed (genkey_cmd 1) = Ret (da', fresh_session, ra', response_frame pka) /\
    run factory fresh_session (9 + 4) (genkey_cmd 2) = Ret (db', fresh_session, rb', response_frame pkb) /\
    run da' fresh_session ra' (ecdh_cmd 1 pkb) = Ret (da', fresh_session, ra', response_frame z) /\
    run db' fresh_session rb' (ecdh_cmd 2 pka) = Ret (db', fresh_session, rb', response_frame z) /\ len z = 32.
Proof.
  apply (ecdh_agreement factory fresh_session seed 1 factory fresh_session (9 + 4) 2);
    try apply atecc_factory_ok; try lia; apply factory_locks; lia.
Defined.
