(* ===== verification/StsafeTypes.v ===== *)
(** * STSAFEA120Sim: frames and the device

    [frame.rs] (command and response frames), [object_store] (the persistent device,
    its provisioning and its file) and [session.rs]. *)

From S2P Require Import Prelude.
From S2P Require Import Crc.
From S2P Require Import Host.
From S2P Require Import Crates.
Import StsafeCrc.

(** ** [frame.rs] *)

Definition STATUS_MASK : Z := 0x1F.
Definition EXTENDED_PREFIX : Z := 0x1F.
Definition MAX_FRAME_LENGTH_A120 : Z := 752.

Module status.
Definition OK : Z := 0x00.
Definition COMMUNICATION_ERROR : Z := 0x01.
Definition LENGTH_ERROR : Z := 0x02.
Definition UNEXPECTED_ERROR : Z := 0x03.
Definition INVALID_PARAMETER : Z := 0x09.
Definition COMMAND_CODE_NOT_SUPPORTED : Z := 0x0E.
Definition CRC_ERROR : Z := 0x16.
Definition ACCESS_CONDITION_NOT_SATISFIED : Z := 0x05.
End status.

Inductive FrameError := TooShort | BadCrc | Overflow.

Record Command := mkCommand {
  header : Z;
  extended : option Z;
  body : bytes;
}.

Definition is_extended (self : Command) : bool := bool_decide (is_Some (extended self)).

Definition parse_command (buf : bytes) : res (Result Command FrameError) :=
  if len buf <? 3 then Ret (Err TooShort)
  else if MAX_FRAME_LENGTH_A120 + 2 <? len buf then Ret (Err Overflow)
  else
    let payload_end := len buf - 2 in
    let! hi := idx buf payload_end in
    let! lo := idx buf (payload_end + 1) in
    let received_crc := be_val [hi; lo] in
    let! payload := slice buf 0 payload_end in
    let computed := crc16_x25 payload in
    if negb (computed =? received_crc) then Ret (Err BadCrc)
    else
      let! header := idx buf 0 in
      if header =? EXTENDED_PREFIX then
        if len buf <? 4 then Ret (Err TooShort)
        else
          let! ext := idx buf 1 in
          let! body := slice buf 2 payload_end in
          Ret (Ok (mkCommand header (Some ext) body))
      else
        let! body := slice buf 1 payload_end in
        Ret (Ok (mkCommand header None body)).

Definition build_response (status : Z) (body : bytes) : bytes :=
  let header := Z.land status STATUS_MASK in
  let length := as_u16 (len body + 2) in
  let out := [header] ++ be_bytes 2 length ++ body in
  let crc_input := [header] ++ body in
  let crc := crc16_x25 crc_input in
  out ++ be_bytes 2 crc.

Definition build_error (status : Z) : bytes := build_response status [].

Definition build_command (header : Z) (body : bytes) : bytes :=
  let frame := [header] ++ body in
  let crc := crc16_x25 frame in
  frame ++ be_bytes 2 crc.

(** ** [object_store] *)

Inductive CurveKind := NistP256.
#[export] Instance CurveKind_eq_dec : EqDecision CurveKind.
Proof. solve_decision. Defined.

Definition coordinate_size (self : CurveKind) : Z := match self with NistP256 => 32 end.
Definition signature_size (self : CurveKind) : Z := match self with NistP256 => 64 end.

Record EccSlot := mkEccSlot {
  curve : CurveKind;
  private_key : bytes;
}.

Record DataZone := mkDataZone { data : bytes }.

(** The [BTreeMap<u8, _>]s are finite maps from bytes. *)
Record Device := mkDevice {
  serial_number : bytes;
  ecc_slots : gmap Z EccSlot;
  data_zones : gmap Z DataZone;
}.

Definition DEVICE_CERT_ZONE : Z := 0.
Definition DEVICE_KEY_SLOT : Z := 0.
Definition EPHEMERAL_KEY_SLOT : Z := 0xFF.

Definition build_minimal_device_certificate (serial pub_bytes : bytes) : bytes :=
  let inner := [0x80] ++ [as_u8 (len serial)] ++ serial ++
               [0x81] ++ [as_u8 (len pub_bytes)] ++ pub_bytes in
  [0x30] ++ [0x82] ++ be_bytes 2 (as_u16 (len inner)) ++ inner.

Section store.
Context `{C : Crates} {F : FileSystem Device}.

Definition fresh_device (r : rng) : Device * rng :=
  let '(serial, r) := fill_bytes 8 r in
  let '(secret, r) := p256_random r in
  let priv_bytes := p256_secret_to_bytes secret in
  let pub_bytes := p256_to_encoded_point (p256_public_of secret) in
  let cert := build_minimal_device_certificate serial pub_bytes in
  let ecc_slots := <[DEVICE_KEY_SLOT := mkEccSlot NistP256 priv_bytes]> ∅ in
  let data_zones := <[DEVICE_CERT_ZONE := mkDataZone cert]> ∅ in
  (mkDevice serial ecc_slots data_zones, r).

Record Store := mkStore {
  device : Device;
  store_path : option path;
}.

Definition persist (self : Store) (f : fs) : Result fs io_error :=
  match store_path self with
  | None => Ok f
  | Some p => fs_write f p (device self)
  end.

Definition load_or_init (p : path) (f : fs) (r : rng) : Result Store io_error * fs * rng :=
  match fs_read f p with
  | Some (Ok d) => (Ok (mkStore d (Some p)), f, r)
  | Some (Err e) => (Err e, f, r)
  | None =>
      let '(d, r) := fresh_device r in
      let store := mkStore d (Some p) in
      match persist store f with
      | Ok f => (Ok store, f, r)
      | Err e => (Err e, f, r)
      end
  end.

Definition fresh (r : rng) : Store * rng :=
  let '(d, r) := fresh_device r in (mkStore d None, r).

(** ** [session.rs] *)

Record Session := mkSession { ecdhe_private : option p256_secret }.

Definition session_new : Session := mkSession None.
Definition reset (self : Session) : Session := mkSession None.
End store.
