(* ===== verification/StsafeHandlers.v ===== *)
(** * STSAFEA120Sim: the commands and the dispatcher

    [handlers/*.rs], one module per file, and [dispatch.rs]. *)

From S2P Require Import Prelude.
From S2P Require Import Crates.
From S2P Require Import StsafeTypes.

Definition NIST_P256_CURVE_ID : bytes := [0x00; 0x08; 0x2A; 0x86; 0x48; 0xCE; 0x3D; 0x03; 0x01; 0x07].
Definition is_nist_p256 (curve_id : bytes) : bool := bool_decide (curve_id = NIST_P256_CURVE_ID).
Definition POINT_REPRESENTATION_UNCOMPRESSED : Z := 0x04.

Definition P256_DIGEST_SIZE : Z := 32.

Module echo.
Definition handle (body : bytes) : res bytes := Ret (build_response status.OK body).
End echo.

Module random.
Section random.
Context `{C : Crates}.
Definition handle (body : bytes) (r : rng) : res (bytes * rng) :=
  if negb (len body =? 2) then Ret (build_error status.LENGTH_ERROR, r)
  else
    let! size := idx body 1 in
    if size =? 0 then Ret (build_error status.INVALID_PARAMETER, r)
    else
      let '(out, r) := fill_bytes size r in
      Ret (build_response status.OK out, r).
End random.
End random.

Module query.
Definition PRODUCT_DATA : Z := 0x11.

Definition handle (device : Device) (body : bytes) : res bytes :=
  if bool_decide (body = []) then Ret (build_error status.LENGTH_ERROR)
  else
    let! tag := idx body 0 in
    if tag =? PRODUCT_DATA then
      let rsp := be_bytes 2 8 ++ serial_number device in
      Ret (build_response status.OK rsp)
    else Ret (build_error status.INVALID_PARAMETER).
End query.

Module read.
Definition handle (device : Device) (body : bytes) : res bytes :=
  if len body <? 1 + 1 + 2 + 2 then Ret (build_error status.LENGTH_ERROR)
  else
    let! zone_index := idx body 1 in
    let p := if len body =? 1 + 4 + 2 + 2 then 1 + 4 else 2 in
    let! b0 := idx body p in
    let! b1 := idx body (p + 1) in
    let offset := be_val [b0; b1] in
    let! b2 := idx body (p + 2) in
    let! b3 := idx body (p + 3) in
    let length := be_val [b2; b3] in
    match data_zones device !! zone_index with
    | None => Ret (build_error status.INVALID_PARAMETER)
    | Some zone =>
        if len (data zone) <? offset + length then Ret (build_error status.INVALID_PARAMETER)
        else
          let! slice := slice (data zone) offset (offset + length) in
          Ret (build_response status.OK slice)
    end.
End read.

Module keypair.
Section keypair.
Context `{C : Crates}.
Definition handle (device : Device) (body : bytes) (r : rng) : res (Device * bytes * rng) :=
  if len body <? 6 + len NIST_P256_CURVE_ID then Ret (device, build_error status.LENGTH_ERROR, r)
  else
    let! slot := idx body 1 in
    let! curve_id := slice body 6 (len body) in
    if negb (is_nist_p256 curve_id) then Ret (device, build_error status.INVALID_PARAMETER, r)
    else
      let '(secret, r) := p256_random r in
      let priv_bytes := p256_secret_to_bytes secret in
      let pub_bytes := p256_to_encoded_point (p256_public_of secret) in
      if negb (len pub_bytes =? 65) then Ret (device, build_error status.UNEXPECTED_ERROR, r)
      else
        let! x := slice pub_bytes 1 33 in
        let! y := slice pub_bytes 33 65 in
        let device := mkDevice (serial_number device)
          (<[slot := mkEccSlot NistP256 priv_bytes]> (ecc_slots device)) (data_zones device) in
        let rsp := [POINT_REPRESENTATION_UNCOMPRESSED] ++ be_bytes 2 32 ++ x ++ be_bytes 2 32 ++ y in
        Ret (device, build_response status.OK rsp, r).
End keypair.
End keypair.

Module sign.
Section sign.
Context `{C : Crates}.
Definition handle (device : Device) (body : bytes) : res bytes :=
  if len body <? 1 + 2 then Ret (build_error status.LENGTH_ERROR)
  else
    let! slot := idx body 0 in
    let! b1 := idx body 1 in
    let! b2 := idx body 2 in
    let msg_len := be_val [b1; b2] in
    if negb (len body =? 3 + msg_len) then Ret (build_error status.LENGTH_ERROR)
    else
      let! msg := slice body 3 (3 + msg_len) in
      match ecc_slots device !! slot with
      | None => Ret (build_error status.INVALID_PARAMETER)
      | Some slot_entry =>
          if negb (bool_decide (curve slot_entry = NistP256)) then Ret (build_error status.INVALID_PARAMETER)
          else if negb (len (private_key slot_entry) =? 32) then Ret (build_error status.INVALID_PARAMETER)
          else
            match p256_secret_from_slice (private_key slot_entry) with
            | None => Ret (build_error status.INVALID_PARAMETER)
            | Some signing =>
                if negb (len msg =? P256_DIGEST_SIZE) then Ret (build_error status.INVALID_PARAMETER)
                else
                  match p256_sign_prehash signing msg with
                  | None => Ret (build_error status.UNEXPECTED_ERROR)
                  | Some bytes =>
                      let! r := slice bytes 0 32 in
                      let! s := slice bytes 32 (len bytes) in
                      let rsp := be_bytes 2 32 ++ r ++ be_bytes 2 32 ++ s in
                      Ret (build_response status.OK rsp)
                  end
            end
      end.
End sign.
End sign.

Module verify.
Section verify.
Context `{C : Crates}.
Definition read_xy (buf : bytes) : res (option (bytes * Z)) :=
  if len buf <? 2 + 32 + 2 + 32 then Ret None
  else
    let! b0 := idx buf 0 in
    let! b1 := idx buf 1 in
    if negb (be_val [b0; b1] =? 32) then Ret None
    else
      let! x := slice buf 2 34 in
      let! b34 := idx buf 34 in
      let! b35 := idx buf 35 in
      if negb (be_val [b34; b35] =? 32) then Ret None
      else
        let! y := slice buf 36 68 in
        let! out := copy_from_slice (vec_repeat 0 64) 0 32 x in
        let! out := copy_from_slice out 32 64 y in
        Ret (Some (out, 68)).

Definition read_rs (buf : bytes) : res (option (bytes * Z)) := read_xy buf.

Definition need (p n : Z) (body : bytes) : bool := p + n <=? len body.

(** The signature check, once the fields are parsed. *)
Definition check (pubkey sig_rs digest : bytes) : res bytes :=
  let! x := slice pubkey 0 32 in
  let! y := slice pubkey 32 (len pubkey) in
  match p256_from_xy x y with
  | None => Ret (build_response status.OK [0])
  | Some verifying =>
      match p256_signature_from_slice sig_rs with
      | None => Ret (build_response status.OK [0])
      | Some signature =>
          let valid := p256_verify_prehash verifying digest signature in
          Ret (build_response status.OK [if valid then 1 else 0])
      end
  end.

Definition handle (body : bytes) : res bytes :=
  let p := 0 in
  if negb (need p 1 body) then Ret (build_error status.LENGTH_ERROR)
  else
    let p := p + 1 in
    if negb (need p (len NIST_P256_CURVE_ID) body) then Ret (build_error status.LENGTH_ERROR)
    else
      let! curve_id := slice body p (p + len NIST_P256_CURVE_ID) in
      if negb (is_nist_p256 curve_id) then Ret (build_error status.INVALID_PARAMETER)
      else
        let p := p + len NIST_P256_CURVE_ID in
        if negb (need p 1 body) then Ret (build_error status.LENGTH_ERROR)
        else
          let! repr := idx body p in
          if negb (repr =? POINT_REPRESENTATION_UNCOMPRESSED) then Ret (build_error status.INVALID_PARAMETER)
          else
            let p := p + 1 in
            let! rest := slice body p (len body) in
            let! xy := read_xy rest in
            match xy with
            | None => Ret (build_error status.LENGTH_ERROR)
            | Some (pubkey, used) =>
                let p := p + used in
                let! rest := slice body p (len body) in
                let! rs := read_rs rest in
                match rs with
                | None => Ret (build_error status.LENGTH_ERROR)
                | Some (sig_rs, used) =>
                    let p := p + used in
                    if negb (need p 2 body) then Ret (build_error status.LENGTH_ERROR)
                    else
                      let! b0 := idx body p in
                      let! b1 := idx body (p + 1) in
                      let msg_len := be_val [b0; b1] in
                      let p := p + 2 in
                      if negb (need p msg_len body) then Ret (build_error status.LENGTH_ERROR)
                      else if negb (msg_len =? P256_DIGEST_SIZE) then Ret (build_error status.INVALID_PARAMETER)
                      else
                        let! digest := slice body p (p + msg_len) in
                        check pubkey sig_rs digest
                end
            end.
End verify.
End verify.

Module ecdh.
Section ecdh.
Context `{C : Crates}.
Definition handle (device : Device) (body : bytes) : res bytes :=
  if len body <? 1 + 1 + 2 + 32 + 2 + 32 then Ret (build_error status.LENGTH_ERROR)
  else
    let! slot := idx body 0 in
    let! repr := idx body 1 in
    if negb (repr =? POINT_REPRESENTATION_UNCOMPRESSED) then Ret (build_error status.INVALID_PARAMETER)
    else
      let! b2 := idx body 2 in
      let! b3 := idx body 3 in
      if negb (be_val [b2; b3] =? 32) then Ret (build_error status.INVALID_PARAMETER)
      else
        let! x := slice body 4 36 in
        let! b36 := idx body 36 in
        let! b37 := idx body 37 in
        if negb (be_val [b36; b37] =? 32) then Ret (build_error status.INVALID_PARAMETER)
        else
          let! y := slice body 38 70 in
          match ecc_slots device !! slot with
          | None => Ret (build_error status.INVALID_PARAMETER)
          | Some slot_entry =>
              if negb (bool_decide (curve slot_entry = NistP256)) then Ret (build_error status.INVALID_PARAMETER)
              else if negb (len (private_key slot_entry) =? 32) then Ret (build_error status.INVALID_PARAMETER)
              else
                match p256_secret_from_slice (private_key slot_entry) with
                | None => Ret (build_error status.INVALID_PARAMETER)
                | Some secret =>
                    match p256_from_xy x y with
                    | None => Ret (build_error status.INVALID_PARAMETER)
                    | Some pubkey =>
                        let raw := p256_dh secret pubkey in
                        if negb (len raw =? 32) then Ret (build_error status.UNEXPECTED_ERROR)
                        else Ret (build_response status.OK (be_bytes 2 32 ++ raw))
                    end
                end
          end.
End ecdh.
End ecdh.

(** ** [dispatch.rs] *)

Module cmd.
Definition ECHO : Z := 0x00.
Definition RESET : Z := 0x01.
Definition GENERATE_RANDOM : Z := 0x02.
Definition READ : Z := 0x05.
Definition HIBERNATE : Z := 0x0D.
Definition GENERATE_KEY : Z := 0x11.
Definition QUERY : Z := 0x14.
Definition GENERATE_SIGNATURE : Z := 0x16.
Definition VERIFY_SIGNATURE : Z := 0x17.
Definition ESTABLISH_KEY : Z := 0x18.
Definition STANDBY : Z := 0x19.
End cmd.

Section dispatch.
Context `{C : Crates}.

(** What follows the parse. *)
Definition run (device : Device) (session : Session) (r : rng) (c : Command)
  : res (Device * Session * rng * bytes) :=
  let pure m := let! resp := m in Ret (device, session, r, resp) in
  if is_extended c then Ret (device, session, r, build_error status.COMMAND_CODE_NOT_SUPPORTED)
  else if header c =? cmd.ECHO then pure (echo.handle (body c))
  else if header c =? cmd.GENERATE_RANDOM then
    let! '(resp, r) := random.handle (body c) r in Ret (device, session, r, resp)
  else if header c =? cmd.READ then pure (read.handle device (body c))
  else if header c =? cmd.GENERATE_KEY then
    let! '(device, resp, r) := keypair.handle device (body c) r in Ret (device, session, r, resp)
  else if header c =? cmd.GENERATE_SIGNATURE then pure (sign.handle device (body c))
  else if header c =? cmd.VERIFY_SIGNATURE then pure (verify.handle (body c))
  else if header c =? cmd.ESTABLISH_KEY then pure (ecdh.handle device (body c))
  else if header c =? cmd.QUERY then pure (query.handle device (body c))
  else if (header c =? cmd.HIBERNATE) || (header c =? cmd.STANDBY) || (header c =? cmd.RESET) then
    Ret (device, reset session, r, build_response status.OK [])
  else Ret (device, session, r, build_error status.COMMAND_CODE_NOT_SUPPORTED).

Definition dispatch (device : Device) (session : Session) (r : rng) (raw : bytes)
  : res (Device * Session * rng * bytes) :=
  let! parsed := parse_command raw in
  match parsed with
  | Ok c => run device session r c
  | Err BadCrc => Ret (device, session, r, build_error status.CRC_ERROR)
  | Err TooShort => Ret (device, session, r, build_error status.LENGTH_ERROR)
  | Err Overflow => Ret (device, session, r, build_error status.LENGTH_ERROR)
  end.
End dispatch.
