(* ===== verification/StsafeFacts.v ===== *)
(** * STSAFEA120Sim: frames and the invariant

    What the frame parser accepts ([stsafe_parse_cases]), the shape of the answers, the
    invariant of the persistent device, and that every command keeps it and never
    panics ([stsafe_dispatch_safe]). *)

From S2P Require Import Prelude.
From S2P Require Import Crc.
From S2P Require Import Host.
From S2P Require Import Crates.
From S2P Require Import StsafeTypes.
From S2P Require Import StsafeHandlers.
Import StsafeCrc.

(** ** Frames *)

(** The bytes a command's fields stand for, between the start of its frame and the
    CRC, and the frame. *)
Definition command_payload (c : Command) : bytes :=
  match extended c with
  | Some ext => header c :: ext :: body c
  | None => header c :: body c
  end.
Definition command_frame (c : Command) : bytes :=
  command_payload c ++ be_bytes 2 (crc16_x25 (command_payload c)).
Definition command_ok (c : Command) : Prop :=
  wf (command_payload c) /\ len (command_payload c) <= 752 /\
  (header c = EXTENDED_PREFIX <-> is_Some (extended c)).

(** [build_command] makes these frames. *)
Lemma build_command_frame h b : build_command h b = command_frame (mkCommand h None b).
Proof. reflexivity. Qed.
Lemma build_command_ext e b : build_command EXTENDED_PREFIX (e :: b) = command_frame (mkCommand EXTENDED_PREFIX (Some e) b).
Proof. reflexivity. Qed.

Lemma u16_crc l : wf l -> u16 (crc16_x25 l).
Proof. apply u16_stsafe_crc. Qed.

(** The command a payload stands for. *)
Definition payload_command (p : bytes) : Result Command FrameError :=
  match p with
  | h :: rest =>
      if h =? EXTENDED_PREFIX then
        match rest with
        | ext :: b => Ok (mkCommand h (Some ext) b)
        | [] => Err TooShort
        end
      else Ok (mkCommand h None rest)
  | [] => Err TooShort
  end.

Lemma parse_payload h rest cc :
  len cc = 2 -> 1 + len rest <= 752 ->
  parse_command ((h :: rest) ++ cc) =
    Ret (if negb (crc16_x25 (h :: rest) =? be_val cc) then Err BadCrc else payload_command (h :: rest)).
Proof.
  intros Hc Hl. set (p := h :: rest). assert (Hp : len p = 1 + len rest) by (unfold p; len_solve).
  pose proof (len_nonneg rest). unfold parse_command, MAX_FRAME_LENGTH_A120.
  rewrite len_app, Hc, Hp. rewrite (proj2 (Z.ltb_ge _ 3)), (proj2 (Z.ltb_ge _ _)) by lia.
  replace (1 + len rest + 2 - 2) with (len p) by lia.
  rewrite !idx_app_r by lia. rewrite Z.sub_diag. replace (len p + 1 - len p) with 1 by lia.
  destruct cc as [|c0 [|c1 [|c2 cc]]]; try (exfalso; len_solve).
  rewrite idx_0, (idx_S _ _ 1), idx_0 by lia. cbn [rbind].
  rewrite slice_ret by (rewrite ?len_app; lia). rewrite sub_prefix. cbn [rbind].
  case_match; [done|]. unfold p. cbn [app]. rewrite idx_0. cbn [rbind payload_command].
  destruct (h =? EXTENDED_PREFIX).
  - destruct rest as [|ext b].
    + done.
    + rewrite !len_cons in *. pose proof (len_nonneg b). rewrite (proj2 (Z.ltb_ge _ 4)) by lia.
      rewrite idx_S by lia. cbn [app]. rewrite idx_0. cbn [rbind].
      rewrite slice_ret by len_solve. cbn [rbind].
      rewrite !sub_cons by lia. rewrite sub_app_l, sub_full by len_solve. done.
  - rewrite slice_ret by len_solve. cbn [rbind].
    rewrite sub_cons by lia. rewrite sub_app_l, sub_full by len_solve. done.
Qed.

Lemma stsafe_parse_cases buf :
  (parse_command buf = Ret (Err TooShort) /\ len buf < 3) \/
  (parse_command buf = Ret (Err Overflow) /\ 754 < len buf) \/
  (exists h rest cc, buf = (h :: rest) ++ cc /\ len cc = 2 /\ 1 + len rest <= 752).
Proof.
  unfold parse_command, MAX_FRAME_LENGTH_A120.
  destruct (Z.ltb_spec (len buf) 3); [by left|]. destruct (Z.ltb_spec (752 + 2) (len buf)); [right; left; split; [done|lia]|].
  right. right. pose proof (sub_split buf (len buf - 2)) as E.
  destruct (sub buf 0 (len buf - 2)) as [|h rest] eqn:Es.
  - exfalso. assert (Hl : len (sub buf 0 (len buf - 2)) = 0) by (rewrite Es; done).
    rewrite len_sub in Hl. lia.
  - exists h, rest, (sub buf (len buf - 2) (len buf)). split; [apply E; lia|].
    assert (Hl : len (sub buf 0 (len buf - 2)) = 1 + len rest) by (rewrite Es; apply len_cons).
    rewrite len_sub in *. lia.
Qed.

Lemma stsafe_parse_total buf : exists x, parse_command buf = Ret x.
Proof.
  destruct (stsafe_parse_cases buf) as [[-> _]|[[-> _]|(h & rest & cc & -> & Hc & Hl)]]; [by eexists..|].
  rewrite parse_payload by done. by eexists.
Qed.

Lemma payload_command_inv p c : payload_command p = Ok c ->
  command_payload c = p /\ (header c = EXTENDED_PREFIX <-> is_Some (extended c)).
Proof.
  destruct p as [|h rest]; [done|]. cbn [payload_command]. destruct (Z.eqb_spec h EXTENDED_PREFIX) as [->|Hne].
  - destruct rest as [|e b]; [done|]. intros [= <-]. split; [done|]. cbn. split; [by eexists|done].
  - intros [= <-]. split; [done|]. cbn. split; [done|]. by intros [].
Qed.

Lemma payload_command_of c : command_ok c -> payload_command (command_payload c) = Ok c.
Proof.
  intros (_ & _ & Hx). unfold command_payload, payload_command. destruct c as [h [e|] b]; cbn in *.
  - by rewrite (proj2 (Z.eqb_eq h EXTENDED_PREFIX)) by (by apply Hx).
  - destruct (Z.eqb_spec h EXTENDED_PREFIX) as [E|]; [|done]. apply Hx in E as [? ?]. done.
Qed.

Lemma stsafe_parse_ok_inv buf c : wf buf -> parse_command buf = Ret (Ok c) -> command_ok c /\ buf = command_frame c.
Proof.
  intros Hw Hp. destruct (stsafe_parse_cases buf) as [[E _]|[[E _]|(h & rest & cc & -> & Hc & Hl)]]; [by rewrite E in Hp..|].
  rewrite parse_payload in Hp by done. apply wf_app_inv in Hw as [Hwp Hwc].
  destruct (Z.eqb_spec (crc16_x25 (h :: rest)) (be_val cc)) as [Hcrc|]; [|done]. cbn [negb] in Hp.
  assert (Hp' : payload_command (h :: rest) = Ok c) by congruence.
  apply payload_command_inv in Hp' as [Epl Hx].
  unfold command_ok, command_frame. rewrite Epl. split; [split_and!; [done|rewrite len_cons; lia|apply Hx..]|].
  rewrite Hcrc, be_bytes_be_val; [done|done|unfold len in Hc; lia].
Qed.

Lemma parse_frame c : command_ok c -> parse_command (command_frame c) = Ret (Ok c).
Proof.
  intros Hok. pose proof (payload_command_of c Hok) as Hp. destruct Hok as (Hw & Hl & Hx).
  unfold command_frame. destruct (command_payload c) as [|h rest] eqn:E; [done|].
  rewrite len_cons in Hl. rewrite parse_payload by (lia || apply len_be_bytes).
  rewrite be_val_be_bytes by (apply (u16_crc _ Hw)). by rewrite Z.eqb_refl, Hp.
Qed.

Lemma wf_command_frame c : command_ok c -> wf (command_frame c).
Proof. intros (Hw & _). apply wf_app; [done|apply wf_be_bytes]. Qed.

Lemma command_frame_len c : command_ok c -> 3 <= len (command_frame c) <= 754.
Proof.
  intros (_ & Hl & _). unfold command_frame. rewrite len_app, len_be_bytes.
  assert (1 <= len (command_payload c)); [|lia]. pose proof (len_nonneg (body c)).
  unfold command_payload. destruct (extended c); rewrite ?len_cons; lia.
Qed.

(** ** Answers *)

(** An answer is the status, the length of what follows, a body and the CRC. *)
Definition response_ok (resp : bytes) : Prop :=
  exists st b, 0 <= st < 32 /\ wf b /\ len b <= 65530 /\
    resp = st :: be_bytes 2 (len b + 2) ++ b ++ be_bytes 2 (crc16_x25 (st :: b)).

Lemma build_response_eq st b : 0 <= st < 32 -> len b <= 65530 ->
  build_response st b = st :: be_bytes 2 (len b + 2) ++ b ++ be_bytes 2 (crc16_x25 (st :: b)).
Proof.
  intros Hs Hl. pose proof (len_nonneg b). unfold build_response, STATUS_MASK.
  change 0x1F with (Z.ones 5). rewrite Z.land_ones, (Z.mod_small st) by lia.
  unfold as_u16. rewrite (Z.mod_small (len b + 2)) by lia. cbn [app]. by rewrite <- app_assoc.
Qed.

Lemma stsafe_build_response_ok st b : 0 <= st < 32 -> wf b -> len b <= 65530 -> response_ok (build_response st b).
Proof. intros. exists st, b. do 3 (split; [done|]). by apply build_response_eq. Qed.

Lemma build_error_ok st : 0 <= st < 32 -> response_ok (build_error st).
Proof. intros. apply stsafe_build_response_ok; [done|apply wf_nil|done]. Qed.

Lemma response_len resp : response_ok resp -> 5 <= len resp <= 65535.
Proof.
  intros (st & b & _ & _ & Hl & ->). pose proof (len_nonneg b). len_solve.
Qed.
Lemma response_wf resp : response_ok resp -> wf resp.
Proof.
  intros (st & b & Hs & Hw & _ & ->). apply wf_cons; [u_solve|]. auto using wf_app, wf_be_bytes.
Qed.

(** ** The persistent device *)

Section safety.
Context `{C : Crates} {COk : CratesOk C}.

(** Every slot holds the encoding of a private key; zones fit a frame. *)
Record device_ok (d : Device) : Prop := {
  ok_serial : len (serial_number d) = 8;
  ok_serial_wf : wf (serial_number d);
  ok_keys k e : ecc_slots d !! k = Some e -> exists sk, private_key e = p256_secret_to_bytes sk;
  ok_zones k z : data_zones d !! k = Some z -> wf (data z) /\ len (data z) <= 65530;
}.

(** The serial number and the zones never change, and no slot is ever emptied. *)
Record device_le (d d' : Device) : Prop := {
  le_serial : serial_number d' = serial_number d;
  le_zones : data_zones d' = data_zones d;
  le_slots k : is_Some (ecc_slots d !! k) -> is_Some (ecc_slots d' !! k);
}.

#[export] Instance device_le_preorder : PreOrder device_le.
Proof.
  split.
  - intros d. by split.
  - intros a b c [a1 a2 a3] [b1 b2 b3]. split; [congruence|congruence|auto].
Qed.

Lemma fresh_device_ok r : device_ok (fst (fresh_device r)).
Proof.
  unfold fresh_device. pose proof (fill_bytes_len 8 r). pose proof (fill_bytes_wf 8 r).
  destruct (fill_bytes 8 r) as [serial r1]. cbn [fst] in *. destruct (p256_random r1) as [sk r2].
  destruct (p256_point_shape (p256_public_of sk)) as (xy & E & Hl & Hw).
  split; cbn [fst serial_number ecc_slots data_zones]; [lia|done| |].
  - intros k e [[<- <-]|[_ He]]%lookup_insert_Some; [by exists sk|]. by rewrite lookup_empty in He.
  - intros k z [[<- <-]|[_ Hz]]%lookup_insert_Some; [|by rewrite lookup_empty in Hz].
    cbn [data]. rewrite E. unfold build_minimal_device_certificate. split.
    + apply wf_app; [apply wf_cons, wf_nil; u_solve|]. apply wf_app; [apply wf_cons, wf_nil; u_solve|].
      apply wf_app; [apply wf_be_bytes|]. repeat apply wf_app; auto with wfdb.
    + len_solve.
Qed.

(** ** The commands *)

Ltac answers :=
  repeat match goal with
  | |- response_ok (build_error _) => apply build_error_ok; done
  | |- response_ok (build_response status.OK []) => apply stsafe_build_response_ok; [done|apply wf_nil|done]
  end.

Lemma echo_safe b : wf b -> len b <= 752 -> wp (echo.handle b) response_ok.
Proof. intros. apply wp_ret, stsafe_build_response_ok; [done|done|lia]. Qed.

Lemma stsafe_random_safe b r : wf b -> wp (random.handle b r) (fun '(resp, _) => response_ok resp).
Proof.
  intros Hw. unfold random.handle. destruct (Z.eqb_spec (len b) 2); cbn [negb]; [|apply wp_ret; by answers].
  wp_step. wp_step. destruct (x =? 0); [apply wp_ret; by answers|].
  pose proof (fill_bytes_len x r). pose proof (fill_bytes_wf x r).
  destruct (fill_bytes x r) as [out r']. cbn [fst] in *. apply wp_ret, stsafe_build_response_ok; [done|done|u_solve].
Qed.

Lemma query_safe d b : device_ok d -> wf b -> wp (query.handle d b) response_ok.
Proof.
  intros [] Hw. unfold query.handle. case_bool_decide as Hb; [apply wp_ret; by answers|].
  assert (0 < len b) by (destruct b; [done|]; rewrite len_cons; pose proof (len_nonneg b); lia).
  wp_step. wp_step. destruct (x =? query.PRODUCT_DATA); apply wp_ret; answers.
  apply stsafe_build_response_ok; [done|auto with wfdb|len_solve].
Qed.

Lemma u16_be b0 b1 : u8 b0 -> u8 b1 -> u16 (be_val [b0; b1]).
Proof. intros. change (be_val [b0; b1]) with (le_val [b1; b0]). cbn [le_val]. u_solve. Qed.

Lemma stsafe_read_safe d b : device_ok d -> wf b -> wp (read.handle d b) response_ok.
Proof.
  intros Hok Hw. unfold read.handle. destruct (Z.ltb_spec (len b) (1 + 1 + 2 + 2)); [apply wp_ret; by answers|].
  wp_step. wp_step. set (p := if _ =? _ then _ else _).
  assert (Hp : 0 <= p /\ p + 4 <= len b) by (unfold p; destruct (Z.eqb_spec (len b) (1 + 4 + 2 + 2)); lia).
  do 8 wp_step. destruct (data_zones d !! x) as [z|] eqn:Ez; [|apply wp_ret; by answers].
  pose proof (u16_be _ _ Hu0 Hu1). pose proof (u16_be _ _ Hu2 Hu3).
  destruct (ok_zones _ Hok _ _ Ez) as [Hz Hzl].
  destruct (Z.ltb_spec (len (data z)) (be_val [x0; x1] + be_val [x2; x3])); [apply wp_ret; by answers|].
  wp_run. apply stsafe_build_response_ok; [done|auto with wfdb|]. rewrite len_sub. u_solve.
Qed.

Definition on_device_ok (d : Device) (o : Device * bytes * rng) : Prop :=
  let '(d', resp, _) := o in device_ok d' /\ device_le d d' /\ response_ok resp.

Lemma stsafe_stay d st r : device_ok d -> 0 <= st < 32 -> on_device_ok d (d, build_error st, r).
Proof. intros. split_and!; [done|done|by apply build_error_ok]. Qed.

(** The 70 bytes of two length-prefixed coordinates. *)
Definition two_coords (x y : bytes) : bytes := be_bytes 2 32 ++ x ++ be_bytes 2 32 ++ y.

Lemma set_slot_ok d slot sk : device_ok d ->
  let d' := mkDevice (serial_number d) (<[slot := mkEccSlot NistP256 (p256_secret_to_bytes sk)]> (ecc_slots d))
    (data_zones d) in
  device_ok d' /\ device_le d d'.
Proof.
  intros [] d'. split; split; try done.
  - cbn [d' ecc_slots]. intros k e [[<- <-]|[_ He]]%lookup_insert_Some; [by exists sk|eauto].
  - cbn [d' ecc_slots]. intros k Hk. apply lookup_insert_is_Some. destruct (decide (slot = k)); auto.
Qed.

(** A key-pair request that is well-formed installs a random key and answers its
    public key. *)
Lemma keypair_run d b r : wf b -> len b = 16 -> sub b 6 16 = NIST_P256_CURVE_ID -> exists slot sk xy r',
  b !! 1%nat = Some slot /\ u8 slot /\ p256_random r = (sk, r') /\
  p256_to_encoded_point (p256_public_of sk) = 4 :: xy /\ len xy = 64 /\ wf xy /\
  keypair.handle d b r = Ret
    (mkDevice (serial_number d) (<[slot := mkEccSlot NistP256 (p256_secret_to_bytes sk)]> (ecc_slots d))
       (data_zones d),
     build_response status.OK (4 :: two_coords (sub xy 0 32) (sub xy 32 64)), r').
Proof.
  intros Hw Hl Hc. destruct (lookup_lt_is_Some_2 b 1) as [slot Es]; [unfold len in Hl; lia|].
  destruct (p256_random r) as [sk r'] eqn:Er.
  destruct (p256_point_shape (p256_public_of sk)) as (xy & Ept & Hxl & Hxw).
  exists slot, sk, xy, r'. split_and!; try done; [by apply (wf_lookup b 1)|].
  unfold keypair.handle. rewrite Hl. change (16 <? 6 + len NIST_P256_CURVE_ID) with false. cbv iota.
  rewrite (idx_ret b 1 slot) by done. cbn [rbind]. rewrite slice_ret by lia. cbn [rbind].
  unfold is_nist_p256. rewrite bool_decide_true by done. cbn [negb]. rewrite Er, Ept.
  rewrite (proj2 (Z.eqb_eq (len (4 :: xy)) 65)) by (rewrite len_cons; lia). cbn [negb].
  rewrite !slice_ret by (rewrite ?len_cons; lia). cbn [rbind]. rewrite !sub_cons by lia. done.
Qed.

Lemma keypair_safe d b r : device_ok d -> wf b -> wp (keypair.handle d b r) (on_device_ok d).
Proof.
  intros Hok Hw. destruct (decide (len b = 16 /\ sub b 6 16 = NIST_P256_CURVE_ID)) as [[Hl Hc]|Hno].
  - destruct (keypair_run d b r Hw Hl Hc) as (slot & sk & xy & r' & _ & _ & _ & _ & Hxl & Hxw & E).
    rewrite E. destruct (set_slot_ok d slot sk Hok) as [Hd Hle]. split; [done|]. split; [done|].
    apply stsafe_build_response_ok; [done|apply wf_cons; [u_solve|]; unfold two_coords; auto 10 with wfdb|].
    unfold two_coords. len_solve.
  - unfold keypair.handle. change (6 + len NIST_P256_CURVE_ID) with 16.
    destruct (Z.ltb_spec (len b) 16); [by apply wp_ret, stsafe_stay|].
    wp_step. wp_step. wp_step. wp_step. unfold is_nist_p256. case_bool_decide as Hc; [exfalso|by apply wp_ret, stsafe_stay].
    pose proof (f_equal len Hc) as Hl. rewrite len_sub in Hl. change (len NIST_P256_CURVE_ID) with 10 in Hl.
    apply Hno. assert (len b = 16) as Hb by lia. by rewrite Hb in Hc.
Qed.

Lemma stsafe_sign_safe d b : wf b -> wp (sign.handle d b) response_ok.
Proof.
  intros Hw. unfold sign.handle. destruct (Z.ltb_spec (len b) (1 + 2)); [apply wp_ret; by answers|].
  do 6 wp_step. pose proof (u16_be _ _ Hu0 Hu1).
  destruct (Z.eqb_spec (len b) (3 + be_val [x0; x1])) as [Hlen|]; cbn [negb]; [|apply wp_ret; by answers].
  wp_step. wp_step. destruct (ecc_slots d !! x) as [e|]; [|apply wp_ret; by answers].
  destruct (negb _); [apply wp_ret; by answers|]. destruct (negb _); [apply wp_ret; by answers|].
  destruct (p256_secret_from_slice _) as [sk|]; [|apply wp_ret; by answers].
  destruct (negb _); [apply wp_ret; by answers|].
  destruct (p256_sign_prehash sk _) as [sig|] eqn:E; [|apply wp_ret; by answers].
  destruct (p256_sign_len _ _ _ E) as [Hl Hsw]. wp_run.
  apply stsafe_build_response_ok; [done|auto 10 with wfdb|len_solve].
Qed.

(** What [read_xy] answers: the two coordinates, when their lengths are 32. *)
Definition read_xy_spec (buf : bytes) : option (bytes * Z) :=
  if bool_decide (68 <= len buf /\ sub buf 0 2 = [0; 32] /\ sub buf 34 36 = [0; 32])
  then Some (sub buf 2 34 ++ sub buf 36 68, 68) else None.

Lemma be_pair_eq (buf : bytes) a b0 b1 : 0 <= a -> u8 b0 -> u8 b1 ->
  buf !! Z.to_nat a = Some b0 -> buf !! Z.to_nat (a + 1) = Some b1 ->
  sub buf a (a + 2) = [b0; b1] /\ (be_val [b0; b1] = 32 <-> [b0; b1] = [0; 32]).
Proof.
  intros Ha H0 H1 E0 E1. split.
  - unfold sub. replace (Z.to_nat (a + 2 - a)) with 2%nat by lia.
    replace (Z.to_nat (a + 1)) with (S (Z.to_nat a)) in E1 by lia.
    rewrite (drop_S _ _ _ E0), (drop_S _ _ _ E1). done.
  - change (be_val [b0; b1]) with (le_val [b1; b0]). cbn [le_val]. split; [|by intros [= -> ->]].
    intros E. assert (b0 = 0 /\ b1 = 32) as [-> ->] by u_solve. done.
Qed.

Lemma read_xy_ret buf : wf buf -> verify.read_xy buf = Ret (read_xy_spec buf).
Proof.
  intros Hw. apply wp_eq. unfold verify.read_xy, read_xy_spec.
  destruct (Z.ltb_spec (len buf) (2 + 32 + 2 + 32)) as [|Hl]; [rewrite bool_decide_false by lia; by apply wp_ret|].
  do 4 wp_step. destruct (be_pair_eq buf 0 x x0) as [E1 H1]; try done. change (0 + 2) with 2 in E1.
  destruct (Z.eqb_spec (be_val [x; x0]) 32) as [Hx32|Hx32]; cbn [negb]; cycle 1.
  { apply wp_ret. rewrite bool_decide_false; [done|]. rewrite E1. intros (_ & E & _). by apply Hx32, H1. }
  do 6 wp_step. destruct (be_pair_eq buf 34 x1 x2) as [E2 H2]; try done. change (34 + 2) with 36 in E2.
  destruct (Z.eqb_spec (be_val [x1; x2]) 32) as [Hy32|Hy32]; cbn [negb]; cycle 1.
  { apply wp_ret. rewrite bool_decide_false; [done|]. rewrite E2. intros (_ & _ & E). by apply Hy32, H2. }
  rewrite bool_decide_true by (rewrite E1, E2; split; [lia|split; [by apply H1|by apply H2]]).
  wp_step. wp_step. apply wp_bind, wp_copy_from_slice; [lia|done|rewrite len_sub; lia|].
  apply wp_bind, wp_copy_from_slice; [lia| |rewrite len_sub; lia|].
  - rewrite len_splice; [done|lia|rewrite len_sub, len_vec_repeat; lia].
  - apply wp_ret. do 2 f_equal. symmetry.
    apply splice_halves; rewrite ?len_sub, ?len_vec_repeat, ?len_sub; lia.
Qed.

Lemma wp_read_xy buf (Q : option (bytes * Z) -> Prop) :
  wf buf -> Q None -> (forall out, wf out -> len out = 64 -> 68 <= len buf -> Q (Some (out, 68))) ->
  wp (verify.read_xy buf) Q.
Proof.
  intros Hw Hn Hs. rewrite read_xy_ret by done. apply wp_ret. unfold read_xy_spec.
  case_bool_decide as Hb; [|done]. apply Hs; [auto with wfdb|rewrite len_app, !len_sub; lia|lia].
Qed.

Lemma check_safe pk rs dg : len pk = 64 -> wp (verify.check pk rs dg) response_ok.
Proof.
  intros Hl. assert (Hb : forall b : bool, response_ok (build_response status.OK [if b then 1 else 0])).
  { intros b. apply stsafe_build_response_ok; [done|apply wf_cons, wf_nil; destruct b; u_solve|done]. }
  unfold verify.check. do 4 wp_step. destruct (p256_from_xy _ _); [|apply wp_ret, (Hb false)].
  destruct (p256_signature_from_slice _); [apply wp_ret, Hb|apply wp_ret, (Hb false)].
Qed.

Lemma stsafe_verify_safe b : wf b -> wp (verify.handle b) response_ok.
Proof.
  intros Hw. unfold verify.handle, verify.need, verify.read_rs. change (len NIST_P256_CURVE_ID) with 10.
  destruct (Z.leb_spec (0 + 1) (len b)); cbn [negb]; [|apply wp_ret; by answers].
  destruct (Z.leb_spec (0 + 1 + 10) (len b)); cbn [negb]; [|apply wp_ret; by answers].
  wp_step. wp_step. destruct (negb _); [apply wp_ret; by answers|].
  destruct (Z.leb_spec (0 + 1 + 10 + 1) (len b)); cbn [negb]; [|apply wp_ret; by answers].
  wp_step. wp_step. destruct (negb _); [apply wp_ret; by answers|]. wp_step. wp_step. wp_step.
  apply wp_read_xy; [auto with wfdb|apply wp_ret; by answers|]. intros pk Hpw Hpl Hb1. rewrite len_sub in Hb1.
  wp_step. wp_step. wp_step.
  apply wp_read_xy; [auto with wfdb|apply wp_ret; by answers|]. intros rs Hrw Hrl Hb2. rewrite len_sub in Hb2.
  destruct (Z.leb_spec (0 + 1 + 10 + 1 + 68 + 68 + 2) (len b)); cbn [negb]; [|apply wp_ret; by answers].
  do 4 wp_step. pose proof (u16_be _ _ Hu0 Hu1).
  destruct (Z.leb_spec (0 + 1 + 10 + 1 + 68 + 68 + 2 + be_val [x0; x1]) (len b)); cbn [negb]; [|apply wp_ret; by answers].
  destruct (negb _); [apply wp_ret; by answers|]. wp_step. wp_step. by apply check_safe.
Qed.

Lemma stsafe_ecdh_safe d b : wf b -> wp (ecdh.handle d b) response_ok.
Proof.
  intros Hw. unfold ecdh.handle. destruct (Z.ltb_spec (len b) (1 + 1 + 2 + 32 + 2 + 32)); [apply wp_ret; by answers|].
  do 4 wp_step. destruct (negb _); [apply wp_ret; by answers|].
  do 4 wp_step. destruct (negb _); [apply wp_ret; by answers|].
  do 6 wp_step. destruct (negb _); [apply wp_ret; by answers|]. wp_step. wp_step.
  destruct (ecc_slots d !! x) as [e|]; [|apply wp_ret; by answers].
  destruct (negb _); [apply wp_ret; by answers|]. destruct (negb _); [apply wp_ret; by answers|].
  destruct (p256_secret_from_slice _) as [sk|]; [|apply wp_ret; by answers].
  destruct (p256_from_xy _ _) as [q|]; [|apply wp_ret; by answers].
  destruct (negb _); [apply wp_ret; by answers|]. apply wp_ret.
  pose proof (p256_dh_len sk q). pose proof (p256_dh_wf sk q).
  apply stsafe_build_response_ok; [done|auto with wfdb|len_solve].
Qed.

(** ** The dispatcher *)

Definition dispatch_post (d : Device) (o : Device * Session * rng * bytes) : Prop :=
  let '(d', _, _, resp) := o in device_ok d' /\ device_le d d' /\ response_ok resp.

Lemma body_ok c : command_ok c -> wf (body c) /\ len (body c) <= 752.
Proof.
  unfold command_ok, command_payload. destruct (extended c); intros (Hw & Hl & _);
    repeat apply wf_cons_inv in Hw as [_ Hw]; rewrite ?len_cons in Hl; (split; [done|lia]).
Qed.

Lemma stsafe_run_safe d s r c : device_ok d -> command_ok c -> wp (run d s r c) (dispatch_post d).
Proof.
  intros Hok Hc. destruct (body_ok c Hc) as [Hw Hl]. unfold run.
  assert (Hret : forall s resp, response_ok resp -> wp (Ret (d, s, r, resp)) (dispatch_post d)).
  { intros s' resp Hr. apply wp_ret. split_and!; done. }
  assert (Hpure : forall m, wp m response_ok -> wp (let! resp := m in Ret (d, s, r, resp)) (dispatch_post d)).
  { intros m Hm. apply wp_bind. eapply wp_mono; [exact Hm|]. intros resp Hr. by apply Hret. }
  destruct (is_extended c); [apply Hret; by answers|].
  destruct (_ =? cmd.ECHO); [by apply Hpure, echo_safe|].
  destruct (_ =? cmd.GENERATE_RANDOM).
  { apply wp_bind. eapply wp_mono; [by apply stsafe_random_safe|]. intros [resp r'] Hr. split_and!; done. }
  destruct (_ =? cmd.READ); [by apply Hpure, stsafe_read_safe|].
  destruct (_ =? cmd.GENERATE_KEY).
  { apply wp_bind. eapply wp_mono; [by apply keypair_safe|]. intros [[d' resp] r'] Hr. done. }
  destruct (_ =? cmd.GENERATE_SIGNATURE); [by apply Hpure, stsafe_sign_safe|].
  destruct (_ =? cmd.VERIFY_SIGNATURE); [by apply Hpure, stsafe_verify_safe|].
  destruct (_ =? cmd.ESTABLISH_KEY); [by apply Hpure, stsafe_ecdh_safe|].
  destruct (_ =? cmd.QUERY); [by apply Hpure, query_safe|].
  destruct (_ || _); apply Hret; by answers.
Qed.

Lemma stsafe_dispatch_safe d s r raw : device_ok d -> wf raw -> wp (dispatch d s r raw) (dispatch_post d).
Proof.
  intros Hok Hw. unfold dispatch. destruct (stsafe_parse_total raw) as [[c|e] E]; rewrite E; cbn [rbind].
  - apply stsafe_run_safe; [done|]. by apply (stsafe_parse_ok_inv raw c Hw).
  - destruct e; apply wp_ret; (split_and!; [done|done|by answers]).
Qed.
End safety.
