(* ===== verification/StsafeServer.v ===== *)
(** * STSAFEA120Sim: the TCP server

    [bin/tcp_server.rs]: frames behind a two-byte length, in both directions.  The
    body of the loop is [serve_one]; [Connections] runs the loop and interleaves the
    connections. *)

From S2P Require Import Prelude.
From S2P Require Import Crc.
From S2P Require Import Host.
From S2P Require Import Connections.
From S2P Require Import Crates.
From S2P Require Import StsafeTypes.
From S2P Require Import StsafeHandlers.
From S2P Require Import StsafeFacts.

Section server.
Context `{C : Crates} {F : FileSystem Device}.

(** What the connections share: the store, and the disk and generator of the host. *)
Record Server := mkServer {
  store : Store;
  disk : fs;
  host_rng : rng;
}.

Definition serve_one (sv : Server) (session : Session) (stream : bytes)
  : res (Server * Session * bytes * bytes * outcome) :=
  match read_exact stream 2 with
  | None => Ret (sv, session, [], [], Closed)
  | Some (len_buf, stream) =>
      let frame_len := be_val len_buf in
      if (frame_len =? 0) || (MAX_FRAME_LENGTH_A120 + 4 <? frame_len) then
        Ret (sv, session, stream, [], Closed)
      else
        match read_exact stream frame_len with
        | None => Ret (sv, session, [], [], Failed UnexpectedEof)
        | Some (frame, stream) =>
            let! '(d, session, r, response) := dispatch (device (store sv)) session (host_rng sv) frame in
            let st := mkStore d (store_path (store sv)) in
            match persist st (disk sv) with
            | Ok f =>
                let resp_len := as_u16 (len response) in
                Ret (mkServer st f r, session, stream, be_bytes 2 resp_len ++ response, Again)
            | Err _ => Ret (mkServer st (disk sv) r, session, stream, [], Failed Other)
            end
        end
  end.

#[export] Instance stsafe_protocol : Protocol := {|
  Srv := Server; Ses := Session; session_init := session_new; step := serve_one;
|}.

Context {COk : CratesOk C} {FOk : FileSystemOk F}.

(** The file on disk is the device in memory. *)
Definition saved (sv : Server) : Prop :=
  forall p, store_path (store sv) = Some p -> fs_read (disk sv) p = Some (Ok (device (store sv))).

(** An answer is a response frame behind its length. *)
Definition framed_answer (out : bytes) : Prop :=
  exists resp, response_ok resp /\ out = be_bytes 2 (len resp) ++ resp.

Lemma framed resp : response_ok resp -> framed_answer (be_bytes 2 (as_u16 (len resp)) ++ resp).
Proof.
  intros Hr. pose proof (response_len _ Hr). unfold as_u16. rewrite Z.mod_small by lia. by exists resp.
Qed.

Lemma stsafe_serve_one_safe sv s stream :
  device_ok (device (store sv)) -> wf stream ->
  wp (serve_one sv s stream) (fun '(sv', _, rest, out, o) =>
    device_ok (device (store sv')) /\ device_le (device (store sv)) (device (store sv')) /\
    wf rest /\ (out = [] \/ framed_answer out) /\ (o <> Failed Other -> saved sv -> saved sv')).
Proof.
  intros Hok Hw. unfold serve_one.
  destruct (read_exact stream 2) as [[lb rest]|] eqn:E1;
    [|apply wp_ret; split_and!; auto; (reflexivity || apply wf_nil)].
  apply read_exact_wf in E1 as (Hlb & Hrest & Hl); [|done|done].
  pose proof (be_val_bounds lb Hlb) as Hv. rewrite Hl in Hv.
  destruct (_ || _) eqn:E0; [apply wp_ret; split_and!; auto; (reflexivity || done)|].
  destruct (read_exact rest (be_val lb)) as [[frame rest']|] eqn:E2;
    [|apply wp_ret; split_and!; auto; (reflexivity || apply wf_nil)].
  apply read_exact_wf in E2 as (Hf & Hrest' & _); [|lia|done].
  apply wp_bind. eapply wp_mono; [by apply stsafe_dispatch_safe|].
  intros [[[d s'] r] resp] (Hd & Hle & Hresp). unfold persist. cbn [store_path device].
  pose proof (framed resp Hresp) as Hframed.
  destruct (store_path (store sv)) as [p|] eqn:Ep.
  - destruct (fs_write (disk sv) p d) as [f|e] eqn:Ef; apply wp_ret.
    + assert (Hs : saved (mkServer (mkStore d (Some p)) f r)).
      { intros p' [= <-]. by eapply fs_read_write. }
      split_and!; cbn [store device]; auto.
    + split_and!; cbn [store device]; auto. congruence.
  - apply wp_ret. split_and!; cbn [store device]; auto. by intros _ _ ? [=].
Qed.

Lemma stsafe_serve_one_shorter sv s stream :
  wlp (serve_one sv s stream) (fun '(_, _, rest, _, o) => o = Again -> (length rest < length stream)%nat).
Proof.
  unfold serve_one. destruct (read_exact stream 2) as [[lb rest]|] eqn:E; [|by intros [=]].
  apply read_exact_inv in E as [-> Hl]; [|done]. assert (length lb = 2%nat) by (unfold len in Hl; lia).
  rewrite length_app. destruct (_ || _); [by intros [=]|].
  destruct (read_exact rest (be_val lb)) as [[frame rest']|] eqn:E2; [|by intros [=]].
  unfold read_exact in E2. destruct (_ <=? _); [|done]. injection E2 as _ <-.
  apply wlp_bind, wlp_any. intros [[[d s'] r] resp] _.
  destruct (persist _ _); cbn; [rewrite length_drop; lia|by intros [=]].
Qed.

#[export] Instance stsafe_protocol_ok : ProtocolOk stsafe_protocol := {|
  srv_ok sv := device_ok (device (store sv));
  srv_le sv sv' := device_le (device (store sv)) (device (store sv'));
  srv_saved := saved;
  answer_ok := framed_answer;
  srv_le_preorder := ltac:(split; [intros sv; reflexivity|intros ???; apply transitivity]);
  step_safe := stsafe_serve_one_safe;
  step_shorter := stsafe_serve_one_shorter;
|}.

(** ** What a connection does *)

Definition command_wire (c : Command) : bytes := be_bytes 2 (len (command_frame c)) ++ command_frame c.

(** What a command does, and its answer behind the length. *)
Definition command_run (a : Device * rng) (s : Session) (c : Command) : res (Device * rng * Session * bytes) :=
  let! '(d, s, r, resp) := run (fst a) s (snd a) c in Ret (d, r, s, be_bytes 2 (len resp) ++ resp).

Definition commands_run := exec_all command_run.

Definition server_abs (sv : Server) : Device * rng := (device (store sv), host_rng sv).

(** One command is one turn of the loop. *)
Lemma serve_command :
  (forall f p d, exists f', fs_write f p d = Ok f') ->
  forall sv s c rest, srv_ok sv -> command_ok c ->
  exists sv1 s1 out, command_run (server_abs sv) s c = Ret (server_abs sv1, s1, out) /\ srv_ok sv1 /\
    step sv s (command_wire c ++ rest) = Ret (sv1, s1, rest, out, Again).
Proof.
  intros Hdisk [[dev pth] f r] s c rest Hok Hc.
  change (device_ok dev) in Hok. pose proof (command_frame_len c Hc) as Hl.
  destruct (wp_elim _ _ (stsafe_run_safe dev s r c Hok Hc)) as ([[[d s1] r1] resp] & Er & Hd & _ & Hresp).
  pose proof (response_len resp Hresp) as Hrl.
  assert (Hf : exists f', persist (mkStore d pth) f = Ok f').
  { unfold persist. destruct pth as [p|]; [apply Hdisk|by eexists]. }
  destruct Hf as [f' Ef].
  exists (mkServer (mkStore d pth) f' r1), s1, (be_bytes 2 (len resp) ++ resp).
  split; [|split; [exact Hd|]].
  - unfold command_run. cbn [server_abs store device host_rng fst snd]. by rewrite Er.
  - cbn [step stsafe_protocol]. unfold serve_one, command_wire. rewrite <- app_assoc.
    change 2 with (len (be_bytes 2 (len (command_frame c)))) at 1. rewrite read_exact_app.
    rewrite be_val_be_bytes by (change (256 ^ Z.of_nat 2) with 65536; lia).
    unfold MAX_FRAME_LENGTH_A120. rewrite (proj2 (Z.eqb_neq _ 0)), (proj2 (Z.ltb_ge _ _)) by lia.
    cbn [orb]. rewrite read_exact_app. unfold dispatch. rewrite (parse_frame c Hc).
    cbn [store device host_rng disk store_path rbind]. rewrite Er. cbn [rbind]. rewrite Ef.
    unfold as_u16. by rewrite (Z.mod_small (len resp)) by lia.
Qed.

Lemma command_wire_length c : (1 <= length (command_wire c))%nat.
Proof.
  unfold command_wire. rewrite length_app. pose proof (len_be_bytes 2 (len (command_frame c))) as H.
  unfold len in H at 1. lia.
Qed.

(** ** Properties *)

(** C17: Whatever byte streams any number of connections send and however the server
    schedules them, no thread panics; every connection reads length-prefixed response
    frames; the serial number and the zones never change, a slot with a key always
    has one and it is a valid key, and unless a write to the file failed the file
    holds the device in memory. *)
Theorem stsafe_any_schedule_safe sched (sv : Server) conns :
  sim_ok sv conns ->
  wp (run_schedule sched sv conns) (fun '(sv', conns') =>
    sim_ok sv' conns' /\ device_le (device (store sv)) (device (store sv'))).
Proof. exact (schedule_safe (POk := stsafe_protocol_ok) sched sv conns). Qed.

(** The server implements the command set: a connection that sends any sequence
    of well-formed commands reads exactly the answers of the commands run one after
    the other, and the server is left with the device and generator of that run. *)
Theorem stsafe_conversation_served (sv : Server) cs :
  device_ok (device (store sv)) -> Forall command_ok cs ->
  (forall f p d, exists f', fs_write f p d = Ok f') ->
  exists (sv' : Server) s out,
    commands_run (device (store sv), host_rng sv) session_new cs =
      Ret (device (store sv'), host_rng sv', s, out) /\
    handle_connection sv (wire command_wire cs) = Ret (sv', s, out, Some Closed).
Proof.
  intros Hok Hcs Hdisk.
  destruct (serve_messages (P := stsafe_protocol) command_wire command_run server_abs srv_ok command_ok
    command_wire_length (fun sv s => eq_refl) (fun _ => False)) with (ms := cs) (sv := sv) (s := session_new)
    (fuel := S (length (wire command_wire cs))) as (sv1 & s1 & out & o & E & _ & Hsv); [|done|done|lia|].
  { intros sv' s m rest Hs Hm. destruct (serve_command Hdisk sv' s m rest Hs Hm) as (sv1 & s1 & out & H1 & H2 & H3).
    exists sv1, s1, out. split_and!; [done..|by left]. }
  destruct Hsv as [[E2 ->]|(? & ? & ? & ? & ? & ? & _ & _ & _ & [] & _)]. by exists sv1, s1, out.
Qed.
End server.
