(* ===== verification/StsafeProps.v ===== *)
(** * STSAFEA120Sim: what the commands promise

    The frame format, keys that sign and agree, and the device certificate. *)

From S2P Require Import Prelude.
From S2P Require Import Crc.
From S2P Require Import Host.
From S2P Require Import Connections.
From S2P Require Import Crates.
From S2P Require Import ToyCrates.
From S2P Require Import StsafeTypes.
From S2P Require Import StsafeHandlers.
From S2P Require Import StsafeFacts.
From S2P Require Import StsafeServer.

Import StsafeCrc.

(** ** Frames *)

(** The frame parser accepts exactly the frames hosts build: the parse of a byte
    string is the command [c] if and only if [c]'s fields are in range, the extended
    opcode is there exactly under the prefix, and the string is its frame. *)
Theorem command_frame_iff buf c :
  wf buf -> parse_command buf = Ret (Ok c) <-> command_ok c /\ buf = command_frame c.
Proof. intros Hw. split; [by apply stsafe_parse_ok_inv|]. intros [Hok ->]. by apply parse_frame. Qed.

Section props.
Context `{C : Crates} {COk : CratesOk C}.

(** A frame with one corrupted byte, wherever it is, executes nothing and is
    answered with the CRC status. *)
Theorem corrupted_command_refused d s r c l b b' k :
  command_ok c -> command_frame c = l ++ b :: k -> u8 b' -> b <> b' ->
  dispatch d s r (l ++ b' :: k) = Ret (d, s, r, build_error status.CRC_ERROR).
Proof.
  intros Hok Hf Hb' Hne. pose proof (wf_command_frame c Hok) as Hw. rewrite Hf in Hw.
  assert (Hw' : wf (l ++ b' :: k)).
  { apply wf_app_inv in Hw as [? [_ ?]%wf_cons_inv]. auto with wfdb. }
  assert (Hlen : len (l ++ b' :: k) = len (command_frame c)) by (rewrite Hf; len_solve).
  pose proof (command_frame_len c Hok) as Hl. unfold dispatch.
  destruct (stsafe_parse_cases (l ++ b' :: k)) as [[_ E]|[[_ E]|(h & rest & cc & E & Hc & Hr)]]; [lia..|].
  pose proof (parse_payload h rest cc Hc Hr) as Hp. rewrite <- E in Hp. rewrite Hp. cbn [rbind].
  destruct (Z.eqb_spec (crc16_x25 (h :: rest)) (be_val cc)) as [Hcrc|]; [exfalso|done]. apply Hne.
  assert (wf (h :: rest) /\ wf cc) as [Hwp Hwc] by (apply wf_app_inv; by rewrite <- E).
  assert (Ecc : cc = be_bytes 2 (crc16_x25 (h :: rest))).
  { rewrite Hcrc. symmetry. apply be_bytes_be_val; [done|unfold len in Hc; lia]. }
  eapply (crc_trailer_detects crc16_x25 (be_bytes 2) l k (command_payload c) (h :: rest));
    eauto using be_bytes2_inj, u16_crc, stsafe_crc_single_byte.
  - apply Hok.
  - rewrite E in Hlen. unfold command_frame in Hlen. rewrite !len_app, len_be_bytes, Hc in Hlen.
    unfold len in Hlen. lia.
  - rewrite E, Ecc. done.
Qed.

(** ** Keys *)

Definition keypair_cmd (slot : Z) : Command :=
  mkCommand cmd.GENERATE_KEY None ([0; slot; 0; 0; 0; 0] ++ NIST_P256_CURVE_ID).
Definition sign_cmd (slot : Z) (m : bytes) : Command :=
  mkCommand cmd.GENERATE_SIGNATURE None (slot :: be_bytes 2 32 ++ m).
Definition verify_cmd (x y rr ss m : bytes) : Command :=
  mkCommand cmd.VERIFY_SIGNATURE None
    ((0 :: NIST_P256_CURVE_ID ++ [POINT_REPRESENTATION_UNCOMPRESSED]) ++
     two_coords x y ++ two_coords rr ss ++ be_bytes 2 32 ++ m).
Definition ecdh_cmd (slot : Z) (x y : bytes) : Command :=
  mkCommand cmd.ESTABLISH_KEY None (slot :: POINT_REPRESENTATION_UNCOMPRESSED :: two_coords x y).

(** What [run] does with them. *)
Lemma run_keypair d s r b : run d s r (mkCommand cmd.GENERATE_KEY None b) =
  (let! '(d, resp, r) := keypair.handle d b r in Ret (d, s, r, resp)).
Proof. reflexivity. Qed.
Lemma stsafe_run_sign d s r b : run d s r (mkCommand cmd.GENERATE_SIGNATURE None b) =
  (let! resp := sign.handle d b in Ret (d, s, r, resp)).
Proof. reflexivity. Qed.
Lemma stsafe_run_verify d s r b : run d s r (mkCommand cmd.VERIFY_SIGNATURE None b) =
  (let! resp := verify.handle b in Ret (d, s, r, resp)).
Proof. reflexivity. Qed.
Lemma stsafe_run_ecdh d s r b : run d s r (mkCommand cmd.ESTABLISH_KEY None b) =
  (let! resp := ecdh.handle d b in Ret (d, s, r, resp)).
Proof. reflexivity. Qed.
Lemma run_read d s r b : run d s r (mkCommand cmd.READ None b) =
  (let! resp := read.handle d b in Ret (d, s, r, resp)).
Proof. reflexivity. Qed.

(** The device holds [sk], whose public key has the coordinates [x] and [y], in a slot. *)
Record holds_key (d : Device) (slot : Z) (sk : p256_secret) (x y : bytes) : Prop := {
  hk_slot : ecc_slots d !! slot = Some (mkEccSlot NistP256 (p256_secret_to_bytes sk));
  hk_x : len x = 32;
  hk_y : len y = 32;
  hk_point : p256_to_encoded_point (p256_public_of sk) = 4 :: x ++ y;
}.

Lemma holds_from_xy d slot sk x y : holds_key d slot sk x y -> p256_from_xy x y = Some (p256_public_of sk).
Proof.
  intros [_ Hx Hy E]. pose proof (p256_from_xy_point (p256_public_of sk)) as H.
  rewrite E in H. rewrite (sub_middle [4] x y), (sub_suffix (4 :: x) y) in H by (rewrite ?len_cons; done || lia).
  exact H.
Qed.

Lemma genkey_holds d s r slot : device_ok d -> u8 slot -> exists sk x y d' r',
  run d s r (keypair_cmd slot) = Ret (d', s, r', build_response status.OK (4 :: two_coords x y)) /\
  device_ok d' /\ holds_key d' slot sk x y /\ (wf x /\ wf y) /\
  (forall k, k <> slot -> ecc_slots d' !! k = ecc_slots d !! k).
Proof.
  intros Hok Hs. unfold keypair_cmd. rewrite run_keypair. set (b := _ ++ _).
  assert (Hb : wf b).
  { unfold b. apply wf_app; [|repeat (apply wf_cons; [u_solve|]); apply wf_nil].
    repeat (apply wf_cons; [u_solve|]). apply wf_nil. }
  destruct (keypair_run d b r Hb eq_refl eq_refl) as (slot' & sk & xy & r' & Es & _ & _ & Ept & Hl & Hw & E).
  cbn in Es. injection Es as <-. rewrite E. cbn [rbind].
  exists sk, (sub xy 0 32), (sub xy 32 64). eexists _, r'. split; [reflexivity|].
  split; [apply set_slot_ok; done|]. split; [|split; [auto with wfdb|]].
  - split; cbn [ecc_slots]; [apply lookup_insert_eq|rewrite len_sub; lia..|].
    rewrite Ept. f_equal. rewrite (sub_split xy 32) at 1 by lia. by rewrite Hl.
  - intros k Hk. cbn [ecc_slots]. by apply lookup_insert_ne.
Qed.

Lemma stsafe_sign_run d s r slot sk x y m sig :
  holds_key d slot sk x y -> len m = 32 -> p256_sign_prehash sk m = Some sig ->
  run d s r (sign_cmd slot m) =
    Ret (d, s, r, build_response status.OK (two_coords (sub sig 0 32) (sub sig 32 64))).
Proof.
  intros [Hs _ _ _] Hm Hsig. destruct (p256_sign_len _ _ _ Hsig) as [Hsl _]. unfold sign_cmd. rewrite stsafe_run_sign.
  change (be_bytes 2 32) with [0; 32]. cbn [app]. unfold sign.handle. rewrite !len_cons, Hm.
  change (1 + (1 + (1 + 32)) <? 1 + 2) with false. cbv iota.
  change (idx (slot :: 0 :: 32 :: m) 0) with (Ret slot). change (idx (slot :: 0 :: 32 :: m) 1) with (Ret 0).
  change (idx (slot :: 0 :: 32 :: m) 2) with (Ret 32). cbn [rbind].
  change (be_val [0; 32]) with 32. change (1 + (1 + (1 + 32)) =? 3 + 32) with true. cbn [negb].
  rewrite slice_ret by (rewrite ?len_cons; lia). cbn [rbind].
  rewrite (sub_suffix [slot; 0; 32] m) by (rewrite ?Hm; reflexivity || lia).
  rewrite Hs. cbn [curve private_key]. rewrite bool_decide_true by done. cbn [negb].
  rewrite p256_to_bytes_len. change (32 =? 32) with true. cbn [negb]. rewrite p256_from_to_bytes, Hm.
  change (32 =? P256_DIGEST_SIZE) with true. cbn [negb]. rewrite Hsig.
  rewrite !slice_ret by lia. rewrite Hsl. reflexivity.
Qed.

Lemma two_coords_len x y : len x = 32 -> len y = 32 -> len (two_coords x y) = 68.
Proof. intros. unfold two_coords. len_solve. Qed.

Lemma read_xy_two_coords x y rest : wf x -> wf y -> wf rest -> len x = 32 -> len y = 32 ->
  verify.read_xy (two_coords x y ++ rest) = Ret (Some (x ++ y, 68)).
Proof.
  intros Hwx Hwy Hwr Hx Hy. rewrite read_xy_ret by (unfold two_coords; auto 10 with wfdb).
  unfold read_xy_spec, two_coords. change (be_bytes 2 32) with [0; 32]. rewrite <- !app_assoc.
  rewrite bool_decide_true.
  - do 3 f_equal. f_equal.
    + apply sub_middle; [done|lia].
    + change ([0; 32] ++ x ++ [0; 32] ++ y ++ rest) with (([0; 32] ++ x) ++ [0; 32] ++ y ++ rest).
      rewrite (app_assoc ([0; 32] ++ x)). apply sub_middle; len_solve.
  - split; [len_solve|]. split; [done|].
    change ([0; 32] ++ x ++ [0; 32] ++ y ++ rest) with (([0; 32] ++ x) ++ [0; 32] ++ y ++ rest).
    apply sub_middle; len_solve.
Qed.

(** Verify answers whether the signature is valid for the key and digest. *)
Lemma verify_run d s r x y rr ss m :
  wf x -> wf y -> wf rr -> wf ss -> wf m ->
  len x = 32 -> len y = 32 -> len rr = 32 -> len ss = 32 -> len m = 32 ->
  run d s r (verify_cmd x y rr ss m) = (let! resp := verify.check (x ++ y) (rr ++ ss) m in Ret (d, s, r, resp)).
Proof.
  intros Hwx Hwy Hwr Hws Hwm Hx Hy Hr Hs Hm. unfold verify_cmd. rewrite stsafe_run_verify.
  pose proof (two_coords_len x y Hx Hy) as Hxy. pose proof (two_coords_len rr ss Hr Hs) as Hrs.
  set (pre := 0 :: _ ++ _). set (kc := two_coords x y) in *. set (sc := two_coords rr ss) in *.
  assert (Hpre : len pre = 12) by done. set (b := pre ++ _).
  assert (Hb : len b = 182) by (unfold b; rewrite !len_app, Hpre, Hxy, Hrs, len_be_bytes, Hm; done).
  unfold verify.handle, verify.need, verify.read_rs. change (len NIST_P256_CURVE_ID) with 10. rewrite Hb.
  cbn [negb Z.leb Z.add Z.compare Pos.compare Pos.compare_cont Pos.add].
  rewrite slice_ret by lia. cbn [rbind].
  assert (Hc : sub b (0 + 1) (0 + 1 + 10) = NIST_P256_CURVE_ID).
  { unfold b. rewrite sub_app_l by lia. reflexivity. }
  rewrite Hc. unfold is_nist_p256. rewrite bool_decide_true by done. cbn [negb].
  assert (Hi : idx b (0 + 1 + 10) = Ret 4) by (unfold b; rewrite idx_app_l by lia; reflexivity).
  rewrite Hi. cbn [rbind]. change (4 =? POINT_REPRESENTATION_UNCOMPRESSED) with true. cbn [negb].
  change (0 + 1 + 10 + 1) with 12.
  assert (S1 : sub b 12 182 = kc ++ sc ++ be_bytes 2 32 ++ m).
  { apply sub_suffix; [done|]. rewrite !len_app, Hxy, Hrs, len_be_bytes, Hm. lia. }
  assert (S2 : sub b (12 + 68) 182 = sc ++ be_bytes 2 32 ++ m).
  { unfold b. rewrite app_assoc. apply sub_suffix; rewrite !len_app, ?len_be_bytes; lia. }
  assert (Hl3 : len (pre ++ kc ++ sc) = 148) by (rewrite !len_app, Hpre, Hxy, Hrs; done).
  assert (S3 : b = (pre ++ kc ++ sc) ++ [0; 32] ++ m) by (unfold b; by rewrite <- !app_assoc).
  assert (I0 : idx b 148 = Ret 0) by (rewrite S3, idx_app_r by lia; by rewrite Hl3).
  assert (I1 : idx b (148 + 1) = Ret 32) by (rewrite S3, idx_app_r by lia; by rewrite Hl3).
  assert (S4 : sub b (148 + 2) (148 + 2 + 32) = m).
  { rewrite S3, app_assoc. apply sub_suffix; [by rewrite len_app, Hl3|lia]. }
  rewrite slice_ret by lia. rewrite S1. cbn [rbind]. unfold kc at 1.
  rewrite read_xy_two_coords by (unfold sc, two_coords; auto 10 with wfdb). cbn [rbind].
  rewrite slice_ret by lia. rewrite S2. cbn [rbind]. unfold sc at 1.
  rewrite read_xy_two_coords by auto with wfdb. cbn [rbind].
  change (12 + 68 + 68) with 148. change (148 + 2 <=? 182) with true. cbn [negb].
  rewrite I0. cbn [rbind]. rewrite I1. cbn [rbind]. change (be_val [0; 32]) with 32.
  change (148 + 2 + 32 <=? 182) with true. change (32 =? P256_DIGEST_SIZE) with true. cbn [negb].
  rewrite slice_ret by lia. cbn [rbind]. by rewrite S4.
Qed.

Lemma check_ret x y rr ss m : len x = 32 -> len y = 32 ->
  verify.check (x ++ y) (rr ++ ss) m = Ret (build_response status.OK
    [match p256_from_xy x y, p256_signature_from_slice (rr ++ ss) with
     | Some q, Some g => if p256_verify_prehash q m g then 1 else 0
     | _, _ => 0
     end]).
Proof.
  intros Hx Hy. unfold verify.check. rewrite !slice_ret by (rewrite ?len_app; lia). cbn [rbind].
  rewrite sub_app_l, sub_full, sub_suffix by (rewrite ?len_app; lia).
  destruct (p256_from_xy x y); [|done]. by destruct (p256_signature_from_slice _).
Qed.

(** C18: A generated key signs and its signatures verify: Generate Key Pair answers a
    public key and touches no other slot, Generate Signature of a 32-byte digest
    answers a signature, and Verify Signature of the two answers "valid"; on any
    other well-formed request Verify answers "valid" exactly when the P-256
    verification accepts. *)
Theorem generated_pair_signs d s r slot m :
  device_ok d -> u8 slot -> wf m -> len m = 32 ->
  exists d' r' x y rr ss,
    run d s r (keypair_cmd slot) = Ret (d', s, r', build_response status.OK (4 :: two_coords x y)) /\
    (forall k, k <> slot -> ecc_slots d' !! k = ecc_slots d !! k) /\
    run d' s r' (sign_cmd slot m) = Ret (d', s, r', build_response status.OK (two_coords rr ss)) /\
    run d' s r' (verify_cmd x y rr ss m) = Ret (d', s, r', build_response status.OK [1]) /\
    (forall x' y' r1 s1 m', wf (x' ++ y' ++ r1 ++ s1 ++ m') ->
      Forall (fun v => len v = 32) [x'; y'; r1; s1; m'] ->
      run d' s r' (verify_cmd x' y' r1 s1 m') = Ret (d', s, r', build_response status.OK
        [match p256_from_xy x' y', p256_signature_from_slice (r1 ++ s1) with
         | Some q, Some g => if p256_verify_prehash q m' g then 1 else 0
         | _, _ => 0
         end])).
Proof.
  intros Hok Hs Hwm Hm.
  destruct (genkey_holds d s r slot Hok Hs) as (sk & x & y & d' & r' & E & _ & Hk & [Hwx Hwy] & Hother).
  destruct (p256_sign_some sk m Hm) as [sig Esig].
  destruct (p256_sign_len _ _ _ Esig) as [Hsl Hsw].
  destruct (p256_sign_verify _ _ _ Esig) as (g & Eg & Everify).
  pose proof Hk as [_ Hx Hy _].
  assert (Hsplit : sub sig 0 32 ++ sub sig 32 64 = sig).
  { rewrite <- Hsl. symmetry. apply sub_split. lia. }
  exists d', r', x, y, (sub sig 0 32), (sub sig 32 64). split; [done|]. split; [done|].
  split; [by eapply stsafe_sign_run|]. split.
  - rewrite verify_run by (try done; auto with wfdb; rewrite len_sub; lia).
    rewrite check_ret by done. cbn [rbind].
    by rewrite (holds_from_xy _ _ _ _ _ Hk), Hsplit, Eg, Everify.
  - intros x' y' r1 s1 m' Hw Hl.
    apply wf_app_inv in Hw as [? [? [? [? ?]%wf_app_inv]%wf_app_inv]%wf_app_inv].
    repeat match goal with H : Forall _ (_ :: _) |- _ => apply Forall_cons in H as [? H] end.
    rewrite verify_run by done. by rewrite check_ret by done.
Qed.

Lemma stsafe_ecdh_run d s r slot sk x y d2 slot2 sk2 x2 y2 :
  holds_key d slot sk x y -> holds_key d2 slot2 sk2 x2 y2 ->
  run d s r (ecdh_cmd slot x2 y2) =
    Ret (d, s, r, build_response status.OK (be_bytes 2 32 ++ p256_dh sk (p256_public_of sk2))).
Proof.
  intros [Hs _ _ _] H2. pose proof (holds_from_xy _ _ _ _ _ H2) as Exy. destruct H2 as [_ Hx Hy _].
  unfold ecdh_cmd. rewrite stsafe_run_ecdh. unfold two_coords. change (be_bytes 2 32) with [0; 32].
  set (b := slot :: _). assert (Hb : len b = 70) by (unfold b; len_solve).
  unfold ecdh.handle. rewrite Hb. change (70 <? 1 + 1 + 2 + 32 + 2 + 32) with false. cbv iota.
  assert (b = [slot; 4; 0; 32] ++ x2 ++ [0; 32] ++ y2) as -> by done.
  rewrite !(idx_app_l [slot; 4; 0; 32]) by done.
  change (idx [slot; 4; 0; 32] 0) with (Ret slot). change (idx [slot; 4; 0; 32] 1) with (Ret 4).
  change (idx [slot; 4; 0; 32] 2) with (Ret 0). change (idx [slot; 4; 0; 32] 3) with (Ret 32).
  cbn [rbind]. change (4 =? POINT_REPRESENTATION_UNCOMPRESSED) with true. cbn [negb].
  change (be_val [0; 32]) with 32. change (32 =? 32) with true. cbn [negb].
  rewrite slice_ret by len_solve. cbn [rbind].
  rewrite !(idx_app_r [slot; 4; 0; 32]) by done. change (len [slot; 4; 0; 32]) with 4.
  rewrite !(idx_app_r x2) by lia. rewrite Hx. change (36 - 4 - 32) with 0. change (37 - 4 - 32) with 1.
  cbn [app]. rewrite idx_0, idx_S, idx_0 by lia. cbn [rbind]. change (be_val [0; 32]) with 32.
  change (32 =? 32) with true. cbn [negb]. rewrite slice_ret by len_solve. cbn [rbind].
  rewrite !sub_cons by lia. rewrite (sub_app_l x2), (sub_full x2) by lia.
  rewrite (sub_app_r x2) by lia. rewrite Hx, !sub_cons, (sub_full y2) by lia.
  rewrite Hs. cbn [curve private_key]. rewrite bool_decide_true by done. cbn [negb].
  rewrite p256_to_bytes_len. change (32 =? 32) with true. cbn [negb].
  rewrite p256_from_to_bytes, Exy, p256_dh_len. change (32 =? 32) with true. reflexivity.
Qed.

(** Two devices agree: when each generates a key pair and is given the public key
    the other answered, both answer the same 32-byte secret. *)
Theorem stsafe_ecdh_agreement da sa ra i db sb rb j :
  device_ok da -> device_ok db -> u8 i -> u8 j ->
  exists da' ra' xa ya db' rb' xb yb z,
    run da sa ra (keypair_cmd i) = Ret (da', sa, ra', build_response status.OK (4 :: two_coords xa ya)) /\
    run db sb rb (keypair_cmd j) = Ret (db', sb, rb', build_response status.OK (4 :: two_coords xb yb)) /\
    run da' sa ra' (ecdh_cmd i xb yb) = Ret (da', sa, ra', build_response status.OK (be_bytes 2 32 ++ z)) /\
    run db' sb rb' (ecdh_cmd j xa ya) = Ret (db', sb, rb', build_response status.OK (be_bytes 2 32 ++ z)) /\
    len z = 32.
Proof.
  intros Ha Hb Hi Hj.
  destruct (genkey_holds da sa ra i Ha Hi) as (ka & xa & ya & da' & ra' & Ea & _ & Hka & _).
  destruct (genkey_holds db sb rb j Hb Hj) as (kb & xb & yb & db' & rb' & Eb & _ & Hkb & _).
  exists da', ra', xa, ya, db', rb', xb, yb, (p256_dh ka (p256_public_of kb)).
  split; [done|]. split; [done|]. split; [by eapply stsafe_ecdh_run|]. split; [|apply p256_dh_len].
  rewrite p256_dh_comm. by eapply stsafe_ecdh_run.
Qed.

(** ** The device certificate *)

Definition read_cmd (zone offset length : Z) : Command :=
  mkCommand cmd.READ None ([0; zone] ++ be_bytes 2 offset ++ be_bytes 2 length).

Lemma be_two x : u16 x -> exists a b, be_bytes 2 x = [a; b] /\ be_val [a; b] = x.
Proof.
  intros Hx. exists (x / 256 mod 256), (x mod 256). split; [done|].
  change [x / 256 mod 256; x mod 256] with (be_bytes 2 x). by apply be_val_be_bytes.
Qed.

Lemma read_run d s r k z a n : data_zones d !! k = Some z -> u16 a -> u16 n ->
  run d s r (read_cmd k a n) = Ret (d, s, r,
    if len (data z) <? a + n then build_error status.INVALID_PARAMETER
    else build_response status.OK (sub (data z) a (a + n))).
Proof.
  intros Ez Ha Hn. unfold read_cmd. rewrite run_read.
  destruct (be_two a Ha) as (a0 & a1 & -> & Eva), (be_two n Hn) as (n0 & n1 & -> & Evn).
  unfold read.handle. cbn [app]. change (len [0; k; a0; a1; n0; n1]) with 6.
  change (6 <? 1 + 1 + 2 + 2) with false. change (6 =? 1 + 4 + 2 + 2) with false. cbv iota.
  change (idx [0; k; a0; a1; n0; n1] 1) with (Ret k). change (idx [0; k; a0; a1; n0; n1] 2) with (Ret a0).
  change (idx [0; k; a0; a1; n0; n1] (2 + 1)) with (Ret a1). change (idx [0; k; a0; a1; n0; n1] (2 + 2)) with (Ret n0).
  change (idx [0; k; a0; a1; n0; n1] (2 + 3)) with (Ret n1). cbn [rbind]. rewrite Eva, Evn, Ez.
  destruct (Z.ltb_spec (len (data z)) (a + n)); [done|]. by rewrite slice_ret by u_solve.
Qed.

(** The certificate a device is provisioned with: its first four bytes are a
    SEQUENCE header with the length of the rest, its last 65 bytes are the public
    key of the key in the device slot, any part of it can be read, and reading past
    its end is refused. *)
Theorem device_certificate r d r' :
  fresh_device r = (d, r') ->
  exists cert sk xy,
    ecc_slots d !! DEVICE_KEY_SLOT = Some (mkEccSlot NistP256 (p256_secret_to_bytes sk)) /\
    p256_to_encoded_point (p256_public_of sk) = 4 :: xy /\
    len cert = 81 /\ sub cert 0 4 = [0x30; 0x82] ++ be_bytes 2 (len cert - 4) /\
    sub cert 16 81 = 4 :: xy /\
    (forall s rg a n, 0 <= a -> 0 <= n -> a + n <= 65535 ->
      run d s rg (read_cmd DEVICE_CERT_ZONE a n) = Ret (d, s, rg,
        if a + n <=? 81 then build_response status.OK (sub cert a (a + n))
        else build_error status.INVALID_PARAMETER)).
Proof.
  intros E. unfold fresh_device in E. pose proof (fill_bytes_len 8 r) as Hl.
  destruct (fill_bytes 8 r) as [serial r1]. cbn [fst] in *. destruct (p256_random r1) as [sk r2].
  destruct (p256_point_shape (p256_public_of sk)) as (xy & Ept & Hxl & _). rewrite Ept in E.
  injection E as <- <-. set (cert := build_minimal_device_certificate _ _).
  specialize (Hl ltac:(lia)).
  assert (Hcert : cert = ([0x30; 0x82; 0; 77; 0x80; 8] ++ serial ++ [0x81; 65]) ++ 4 :: xy).
  { unfold cert, build_minimal_device_certificate. rewrite !len_app, !len_cons, len_nil, Hl, Hxl.
    change (be_bytes 2 _) with [0; 77]. change (as_u8 8) with 8. change (as_u8 (1 + 64)) with 65.
    cbn [app]. by rewrite <- app_assoc. }
  assert (Hcl : len cert = 81) by (rewrite Hcert; len_solve).
  exists cert, sk, xy. split; [apply lookup_insert_eq|]. split; [done|]. split; [done|]. split; [|split].
  - rewrite Hcl. rewrite Hcert. reflexivity.
  - rewrite Hcert. apply sub_suffix; len_solve.
  - intros s rg a n Ha Hn Hb.
    rewrite (read_run _ _ _ _ (mkDataZone cert)) by (u_solve || apply lookup_insert_eq). cbn [data].
    rewrite Hcl. destruct (Z.ltb_spec 81 (a + n)), (Z.leb_spec (a + n) 81); (done || lia).
Qed.
End props.

(** ** The properties at concrete inputs

    A provisioned device over the executable crates of [ToyCrates], and each property
    with hypotheses applied where they hold. *)

#[local] Existing Instance toy.
#[local] Existing Instance toy_ok.
#[local] Instance toy_fs : FileSystem Device := one_file Device.
#[local] Instance toy_fs_ok : FileSystemOk toy_fs := one_file_ok Device.

Definition seed : @rng (@crates_rng toy) := 9.
Definition factory : Device := fst (fresh_device seed).
Definition server0 : Server := mkServer (mkStore factory (Some tt)) (Some factory) seed.
Definition digest32 : bytes := vec_repeat 7 32.
Definition session0 : Session := session_new.

Lemma stsafe_factory_ok : device_ok factory.
Proof. apply fresh_device_ok. Qed.

Lemma digest32_wf : wf digest32.
Proof. apply wf_vec_repeat. u_solve. Qed.

Lemma command_ok_dec c :
  forallb is_u8 (command_payload c) && (len (command_payload c) <=? 752) &&
  Bool.eqb (header c =? EXTENDED_PREFIX) (is_extended c) = true -> command_ok c.
Proof.
  intros [[Hw Hl%Z.leb_le]%andb_prop Hx%Bool.eqb_prop]%andb_prop.
  split; [by apply forallb_is_u8|]. split; [done|]. unfold is_extended in Hx.
  destruct (Z.eqb_spec (header c) EXTENDED_PREFIX), (bool_decide_reflect (is_Some (extended c))); done.
Qed.

Definition cmds0 : list Command := [keypair_cmd 1; sign_cmd 1 digest32; read_cmd 0 0 4].

Lemma cmds0_ok : Forall command_ok cmds0.
Proof.
  repeat apply Forall_cons_2; try apply Forall_nil_2; apply command_ok_dec; vm_compute; reflexivity.
Qed.

Lemma stsafe_wf_wire cs : Forall command_ok cs -> wf (wire command_wire cs).
Proof.
  induction 1 as [|c cs Hc _ IH]; [apply wf_nil|]. rewrite wire_cons. apply wf_app; [|exact IH].
  apply wf_app; [apply wf_be_bytes|by apply wf_command_frame].
Qed.

Lemma stsafe_any_schedule_safe_witness :
  sim_ok server0 [conn_new (wire command_wire cmds0); conn_new [0; 9; 1]] /\
  wp (run_schedule [0; 1; 0; 1; 0]%nat server0 [conn_new (wire command_wire cmds0); conn_new [0; 9; 1]])
    (fun '(sv', conns') => sim_ok sv' conns' /\ device_le (device (store server0)) (device (store sv'))).
Proof.
  assert (H : sim_ok server0 [conn_new (wire command_wire cmds0); conn_new [0; 9; 1]]).
  { split.
    - apply stsafe_factory_ok.
    - intros _ p [= <-]. reflexivity.
    - apply Forall_cons_2; [apply stsafe_wf_wire, cmds0_ok|]. apply Forall_cons_2; [|apply Forall_nil_2].
      apply forallb_is_u8. reflexivity.
    - apply Forall_cons_2; [exists []; by split|]. apply Forall_cons_2; [|apply Forall_nil_2].
      exists []. by split. }
  split; [exact H|]. exact (stsafe_any_schedule_safe [0; 1; 0; 1; 0]%nat server0 _ H).
Defined.

Lemma stsafe_conversation_served_witness :
  exists (sv' : Server) s out,
    commands_run (factory, seed) session_new cmds0 = Ret (device (store sv'), host_rng sv', s, out) /\
    handle_connection server0 (wire command_wire cmds0) = Ret (sv', s, out, Some Closed).
Proof.
  apply (stsafe_conversation_served server0 cmds0); [apply stsafe_factory_ok|apply cmds0_ok|].
  intros f p d. by eexists.
Defined.

Lemma command_frame_iff_witness :
  wf (command_frame (keypair_cmd 1)) /\
  (parse_command (command_frame (keypair_cmd 1)) = Ret (Ok (keypair_cmd 1)) <->
   command_ok (keypair_cmd 1) /\ command_frame (keypair_cmd 1) = command_frame (keypair_cmd 1)).
Proof.
  assert (H : wf (command_frame (keypair_cmd 1))) by (apply forallb_is_u8; vm_compute; reflexivity).
  split; [exact H|]. exact (command_frame_iff _ _ H).
Defined.

Lemma corrupted_command_refused_witness :
  dispatch factory session0 seed [2; 0; 9; 255; 60] =
    Ret (factory, session0, seed, build_error status.CRC_ERROR).
Proof.
  apply (corrupted_command_refused factory session0 seed (mkCommand cmd.GENERATE_RANDOM None [0; 8]) [2; 0] 8 9 [255; 60]).
  - apply command_ok_dec. reflexivity.
  - vm_compute. reflexivity.
  - u_solve.
  - discriminate.
Defined.

Lemma generated_pair_signs_witness :
  exists d' r' x y rr ss,
    run factory session0 seed (keypair_cmd 5) =
      Ret (d', session0, r', build_response status.OK (4 :: two_coords x y)) /\
    (forall k, k <> 5 -> ecc_slots d' !! k = ecc_slots factory !! k) /\
    run d' session0 r' (sign_cmd 5 digest32) =
      Ret (d', session0, r', build_response status.OK (two_coords rr ss)) /\
    run d' session0 r' (verify_cmd x y rr ss digest32) = Ret (d', session0, r', build_response status.OK [1]) /\
    (forall x' y' r1 s1 m', wf (x' ++ y' ++ r1 ++ s1 ++ m') ->
      Forall (fun v => len v = 32) [x'; y'; r1; s1; m'] ->
      run d' session0 r' (verify_cmd x' y' r1 s1 m') = Ret (d', session0, r', build_response status.OK
        [match p256_from_xy x' y', p256_signature_from_slice (r1 ++ s1) with
         | Some q, Some g => if p256_verify_prehash q m' g then 1 else 0
         | _, _ => 0
         end])).
Proof.
  apply (generated_pair_signs factory session0 seed 5 digest32);
    [apply stsafe_factory_ok|u_solve|apply digest32_wf|reflexivity].
Defined.

Lemma stsafe_ecdh_agreement_witness :
  exists da' ra' xa ya db' rb' xb yb z,
    run factory session0 seed (keypair_cmd 1) =
      Ret (da', session0, ra', build_response status.OK (4 :: two_coords xa ya)) /\
    run factory session0 (9 + 4) (keypair_cmd 2) =
      Ret (db', session0, rb', build_response status.OK (4 :: two_coords xb yb)) /\
    run da' session0 ra' (ecdh_cmd 1 xb yb) = Ret (da', session0, ra', build_response status.OK (be_bytes 2 32 ++ z)) /\
    run db' session0 rb' (ecdh_cmd 2 xa ya) = Ret (db', session0, rb', build_response status.OK (be_bytes 2 32 ++ z)) /\
    len z = 32.
Proof.
  apply (stsafe_ecdh_agreement factory session0 seed 1 factory session0 (9 + 4) 2);
    try apply stsafe_factory_ok; u_solve.
Defined.

Lemma device_certificate_witness :
  exists cert sk xy,
    ecc_slots factory !! DEVICE_KEY_SLOT = Some (mkEccSlot NistP256 (p256_secret_to_bytes sk)) /\
    p256_to_encoded_point (p256_public_of sk) = 4 :: xy /\
    len cert = 81 /\ sub cert 0 4 = [0x30; 0x82] ++ be_bytes 2 (len cert - 4) /\
    sub cert 16 81 = 4 :: xy /\
    (forall s rg a n, 0 <= a -> 0 <= n -> a + n <= 65535 ->
      run factory s rg (read_cmd DEVICE_CERT_ZONE a n) = Ret (factory, s, rg,
        if a + n <=? 81 then build_response status.OK (sub cert a (a + n))
        else build_error status.INVALID_PARAMETER)).
Proof. exact (device_certificate seed factory (snd (fresh_device seed)) eq_refl). Defined.
