(* ===== verification/Se050Crates.v ===== *)
(** * SE050Sim: the third-party crates

    The RustCrypto crates the SE050 simulator calls beyond those of [Crates]: AES,
    CMAC, HMAC, the digests, the curves behind the [elliptic-curve] and [ecdsa]
    traits, Ed25519 and X25519 keys, RSA, and the hexadecimal strings of [hex].
    Each is a class of operations; a second class holds the documented laws the
    proofs rely on. *)

From S2P Require Import Prelude.
From S2P Require Import Crc.
From S2P Require Import Crates.

(** [aes], [cmac]: a key schedule is built from a slice of the exact key size [n]
    (16, 24 or 32); blocks are 16 bytes. *)
Class AesCrate := {
  aes_t : Type;
  aes_new_from_slice : Z -> bytes -> option aes_t;
  aes_encrypt_block : aes_t -> bytes -> bytes;
  aes_decrypt_block : aes_t -> bytes -> bytes;
  cmac_t : Type;
  cmac_new_from_slice : Z -> bytes -> option cmac_t;
  cmac_update : cmac_t -> bytes -> cmac_t;
  cmac_finalize : cmac_t -> bytes;
}.

Class AesCrateOk `{AesCrate} := {
  aes_new_some n key : n ∈ [16; 24; 32] -> len key = n -> is_Some (aes_new_from_slice n key);
  aes_encrypt_len c b : len b = 16 -> len (aes_encrypt_block c b) = 16;
  aes_encrypt_wf c b : wf b -> wf (aes_encrypt_block c b);
  aes_decrypt_len c b : len b = 16 -> len (aes_decrypt_block c b) = 16;
  aes_decrypt_wf c b : wf b -> wf (aes_decrypt_block c b);
  aes_decrypt_encrypt c b : len b = 16 -> wf b -> aes_decrypt_block c (aes_encrypt_block c b) = b;
  cmac_new_some n key : n ∈ [16; 24; 32] -> len key = n -> is_Some (cmac_new_from_slice n key);
  cmac_finalize_len m : len (cmac_finalize m) = 16;
  cmac_finalize_wf m : wf (cmac_finalize m);
}.

(** [sha1], [sha2] in one shot, and [hmac::SimpleHmac] over each. *)
Inductive hash_alg := Sha1 | Sha224 | Sha256 | Sha384 | Sha512.

Definition hash_len (h : hash_alg) : Z :=
  match h with Sha1 => 20 | Sha224 => 28 | Sha256 => 32 | Sha384 => 48 | Sha512 => 64 end.

Class DigestCrate := {
  digest : hash_alg -> bytes -> bytes;
  simple_hmac : hash_alg -> bytes -> bytes -> bytes;
}.

Class DigestCrateOk `{DigestCrate} := {
  digest_len h m : len (digest h m) = hash_len h;
  digest_wf h m : wf (digest h m);
  simple_hmac_len h key m : len (simple_hmac h key m) = hash_len h;
  simple_hmac_wf h key m : wf (simple_hmac h key m);
}.

(** One Weierstrass curve of [p192], [p224], [p256], [p384], [p521].  A secret key
    is built from [FieldBytes]; [sk_from_bytes] is [from_bytes(slice.into())], whose
    conversion to a [GenericArray] panics on a slice of another length. *)
Record Curve `{R : Rng} := mkCurve {
  field_len : Z;
  sk_t : Type;
  pk_t : Type;
  sig_t : Type;
  sk_random : rng -> sk_t * rng;
  sk_from_bytes : bytes -> res (option sk_t);
  sk_to_bytes : sk_t -> bytes;
  sk_public : sk_t -> pk_t;
  pk_to_encoded_point : pk_t -> bytes;
  pk_from_sec1_bytes : bytes -> option pk_t;
  sign_prehash : sk_t -> bytes -> option sig_t;
  verify_prehash : pk_t -> bytes -> sig_t -> bool;
  sig_to_der : sig_t -> bytes;
  sig_from_der : bytes -> option sig_t;
  diffie_hellman : sk_t -> pk_t -> bytes;
}.

Record CurveOk `{R : Rng} (c : Curve) := mkCurveOk {
  sk_from_bytes_ret b : len b = field_len c -> exists o, sk_from_bytes c b = Ret o;
  sk_from_bytes_panic b : len b <> field_len c -> sk_from_bytes c b = Panic;
  sk_from_to_bytes k : sk_from_bytes c (sk_to_bytes c k) = Ret (Some k);
  sk_to_bytes_len k : len (sk_to_bytes c k) = field_len c;
  sk_to_bytes_wf k : wf (sk_to_bytes c k);
  pk_to_encoded_point_wf q : wf (pk_to_encoded_point c q);
  pk_to_encoded_point_len q : 0 < len (pk_to_encoded_point c q) < 256;
  pk_from_to_encoded q : pk_from_sec1_bytes c (pk_to_encoded_point c q) = Some q;
  sign_prehash_some k m : len m = field_len c -> is_Some (sign_prehash c k m);
  sign_verify k m s : sign_prehash c k m = Some s -> verify_prehash c (sk_public c k) m s = true;
  sig_to_der_wf s : wf (sig_to_der c s);
  sig_to_der_len s : len (sig_to_der c s) < 256;
  sig_from_to_der s : sig_from_der c (sig_to_der c s) = Some s;
  diffie_hellman_len k q : len (diffie_hellman c k q) = field_len c;
  diffie_hellman_wf k q : wf (diffie_hellman c k q);
  diffie_hellman_comm a b :
    diffie_hellman c a (sk_public c b) = diffie_hellman c b (sk_public c a);
}.

(** The arithmetic of [p192] the simulator signs with: [p192] ships no signer. *)
Class P192Arith `{R : Rng} (c : Curve) := {
  scalar_t : Type;
  to_nonzero_scalar : sk_t c -> scalar_t;
  reduce_bytes : bytes -> scalar_t;
  scalar_random : rng -> scalar_t * rng;
  scalar_invert : scalar_t -> option scalar_t;
  scalar_plus : scalar_t -> scalar_t -> scalar_t;
  scalar_times : scalar_t -> scalar_t -> scalar_t;
  scalar_is_zero : scalar_t -> bool;
  generator_times_x : scalar_t -> bytes;
  sig_from_scalars : scalar_t -> scalar_t -> option (sig_t c);
}.

(** The verification equation: a signature [s = k^-1 (e + r d)] with [r] the abscissa
    of [k G] verifies. *)
Class P192ArithOk `{R : Rng} (c : Curve) (A : P192Arith c) := {
  p192_equation sk h k k_inv r s g :
    scalar_invert k = Some k_inv ->
    r = reduce_bytes (generator_times_x k) ->
    s = scalar_times k_inv (scalar_plus (reduce_bytes h) (scalar_times r (to_nonzero_scalar sk))) ->
    sig_from_scalars r s = Some g ->
    verify_prehash c (sk_public c sk) h g = true;
}.

(** [ed25519_dalek] and [x25519_dalek] keys as byte strings. *)
Class DalekCrate `{R : Rng} := {
  ed25519_generate : rng -> bytes * rng;
  ed25519_public : bytes -> bytes;
  ed25519_sign : bytes -> bytes -> bytes;
  ed25519_vk : Type;
  ed25519_vk_from_bytes : bytes -> option ed25519_vk;
  ed25519_verify : ed25519_vk -> bytes -> bytes -> bool;
  x25519_random : rng -> bytes * rng;
  x25519_public_key : bytes -> bytes;
  x25519_diffie_hellman : bytes -> bytes -> bytes;
}.

Class DalekCrateOk `{R : Rng} {D : DalekCrate} := {
  ed25519_generate_len r : len (fst (ed25519_generate r)) = 32;
  ed25519_generate_wf r : wf (fst (ed25519_generate r));
  ed25519_public_len s : len (ed25519_public s) = 32;
  ed25519_public_wf s : wf (ed25519_public s);
  ed25519_sign_len s m : len (ed25519_sign s m) = 64;
  ed25519_sign_wf s m : wf (ed25519_sign s m);
  ed25519_sign_verify s m : exists vk, ed25519_vk_from_bytes (ed25519_public s) = Some vk /\
    ed25519_verify vk m (ed25519_sign s m) = true;
  x25519_random_len r : len (fst (x25519_random r)) = 32;
  x25519_random_wf r : wf (fst (x25519_random r));
  x25519_public_key_len s : len (x25519_public_key s) = 32;
  x25519_public_key_wf s : wf (x25519_public_key s);
  x25519_diffie_hellman_len a q : len (x25519_diffie_hellman a q) = 32;
  x25519_diffie_hellman_wf a q : wf (x25519_diffie_hellman a q);
  x25519_diffie_hellman_comm a b :
    x25519_diffie_hellman a (x25519_public_key b) = x25519_diffie_hellman b (x25519_public_key a);
}.

(** [num-bigint]: a [BigUint] is a non-negative [Z]. *)
Class BigUintCrate := {
  from_bytes_be : bytes -> Z;
  to_bytes_be : Z -> bytes;
  big_bits : Z -> Z;
  modpow : Z -> Z -> Z -> Z;
}.

(** [to_bytes_be] has no leading zero, except one zero byte for zero. *)
Class BigUintCrateOk `{BigUintCrate} := {
  from_bytes_be_val l : from_bytes_be l = be_val l;
  to_bytes_be_wf x : wf (to_bytes_be x);
  to_bytes_be_val x : 0 <= x -> be_val (to_bytes_be x) = x;
  to_bytes_be_len x n : 0 <= x < 256 ^ n -> 0 < n -> len (to_bytes_be x) <= n;
  big_bits_bound x : 0 < x -> 2 ^ (big_bits x - 1) <= x < 2 ^ big_bits x;
  big_bits_pos x : 0 < x -> 0 < big_bits x;
  modpow_mod x e n : modpow x e n = x ^ e mod n;
}.

(** [rsa].  The signers panic when the key is too
    small for the digest, so they are computations that may panic. *)
Inductive rsa_padding := Pkcs1v15Encrypt | OaepSha1.
Inductive rsa_scheme := Pkcs1v15 | Pss.

Class RsaCrate `{R : Rng} := {
  rsa_private : Type;
  rsa_public : Type;
  rsa_new : Z -> rng -> option rsa_private * rng;
  rsa_from_components : Z -> Z -> Z -> list Z -> option rsa_private;
  rsa_to_pkcs1_der : rsa_private -> option bytes;
  rsa_from_pkcs1_der : bytes -> option rsa_private;
  rsa_public_from : rsa_private -> rsa_public;
  rsa_public_new : Z -> Z -> option rsa_public;
  rsa_public_to_pkcs1_der : rsa_public -> option bytes;
  rsa_n : rsa_public -> Z;
  rsa_e : rsa_public -> Z;
  rsa_encrypt : rsa_padding -> rsa_public -> bytes -> rng -> option bytes * rng;
  rsa_decrypt : rsa_padding -> rsa_private -> bytes -> option bytes;
  rsa_hazmat_decrypt : rsa_private -> Z -> option Z;
  rsa_sign : rsa_scheme -> hash_alg -> rsa_private -> bytes -> rng -> res (bytes * rng);
  rsa_signature : Type;
  rsa_signature_try_from : rsa_scheme -> bytes -> option rsa_signature;
  rsa_verify : rsa_scheme -> hash_alg -> rsa_public -> bytes -> rsa_signature -> bool;
}.

Class RsaCrateOk `{R : Rng} {X : RsaCrate} := {
  rsa_der_round k der : rsa_to_pkcs1_der k = Some der -> rsa_from_pkcs1_der der = Some k;
  rsa_der_nonempty k der : rsa_to_pkcs1_der k = Some der -> der <> [];
  rsa_der_wf k der : rsa_to_pkcs1_der k = Some der -> wf der;
  rsa_public_der_wf k der : rsa_public_to_pkcs1_der k = Some der -> wf der;
  rsa_n_pos q : 0 < rsa_n q;
  rsa_e_nonneg q : 0 <= rsa_e q;
  rsa_encrypt_wf p q m r c r' : rsa_encrypt p q m r = (Some c, r') -> wf c;
  rsa_decrypt_wf p k c m : rsa_decrypt p k c = Some m -> wf m;
  rsa_decrypt_encrypt p k m r c r' :
    rsa_encrypt p (rsa_public_from k) m r = (Some c, r') -> rsa_decrypt p k c = Some m;
  rsa_hazmat_nonneg k c m : rsa_hazmat_decrypt k c = Some m -> 0 <= m;
  rsa_sign_wf sc h k m r s r' : rsa_sign sc h k m r = Ret (s, r') -> wf s;
  rsa_sign_verify sc h k m r s r' : rsa_sign sc h k m r = Ret (s, r') ->
    exists g, rsa_signature_try_from sc s = Some g /\
      rsa_verify sc h (rsa_public_from k) m g = true;
}.

(** [hex]: [encode] writes two lower-case digits a byte; [decode] accepts both cases
    and fails on an odd length or another character.  A string is the list of its
    characters' code points. *)
Class HexCrate := {
  hex_encode : bytes -> list Z;
  hex_decode : list Z -> option bytes;
}.
Class HexCrateOk `{HexCrate} := {
  hex_decode_encode b : wf b -> hex_decode (hex_encode b) = Some b;
  hex_decode_wf s b : hex_decode s = Some b -> wf b;
}.

(** [crc16]: [State::<X_25>::calculate] is the CRC-16/X-25, the one STSAFEA120Sim
    computes itself. *)
Class Crc16Crate := { x25_calculate : bytes -> Z }.
Class Crc16CrateOk `{Crc16Crate} := {
  x25_calculate_eq l : wf l -> x25_calculate l = StsafeCrc.crc16_x25 l;
}.

(** Everything SE050Sim calls. *)
Class Se050Crates := {
  se050_rng :: Rng;
  se050_aes :: AesCrate;
  se050_digest :: DigestCrate;
  p192 : Curve;
  p224 : Curve;
  p256 : Curve;
  p384 : Curve;
  p521 : Curve;
  p192_arith :: P192Arith p192;
  se050_dalek :: DalekCrate;
  se050_big :: BigUintCrate;
  se050_rsa :: RsaCrate;
  se050_hex :: HexCrate;
  se050_crc :: Crc16Crate;
}.

Class Se050CratesOk (C : Se050Crates) := {
  se050_rng_ok :: RngOk;
  se050_aes_ok :: AesCrateOk;
  se050_digest_ok :: DigestCrateOk;
  p192_ok : CurveOk p192;
  p224_ok : CurveOk p224;
  p256_ok : CurveOk p256;
  p384_ok : CurveOk p384;
  p521_ok : CurveOk p521;
  p192_arith_ok :: P192ArithOk p192 p192_arith;
  p192_field : field_len p192 = 24;
  p224_field : field_len p224 = 28;
  p256_field : field_len p256 = 32;
  p384_field : field_len p384 = 48;
  p521_field : field_len p521 = 66;
  se050_dalek_ok :: DalekCrateOk;
  se050_big_ok :: BigUintCrateOk;
  se050_rsa_ok :: RsaCrateOk;
  se050_hex_ok :: HexCrateOk;
  se050_crc_ok :: Crc16CrateOk;
}.
