(* ===== verification/Se050Types.v ===== *)
(** * SE050Sim: APDUs, TLVs, policies, objects and applet personalities

    [apdu.rs], [tlv.rs], [policy.rs], [object_store/types.rs] and [applet.rs].  The
    parsers read byte strings by index, so they are computations that may panic;
    that they never do is proved in [Se050StoreFacts]. *)

From Stdlib Require Import String.
From S2P Require Import Prelude.

(** ** [tlv.rs] *)

Record Tlv := mkTlv { tag : Z; value : bytes }.

Inductive TlvError := TlvTooShort | TlvInvalidLength.

Definition tlv_encode (self : Tlv) : bytes :=
  let n := len (value self) in
  [tag self] ++
  (if n <? 128 then [as_u8 n] else [0x82; as_u8 (Z.shiftr n 8); as_u8 n]) ++
  value self.

(** The loop of [parse_tlvs] from [offset]; every turn takes at least two bytes, so
    the length of the data is enough fuel. *)
Fixpoint parse_tlvs_from (fuel : nat) (data : bytes) (offset : Z) : res (Result (list Tlv) TlvError) :=
  if len data <=? offset then Ret (Ok [])
  else
    match fuel with
    | O => Ret (Ok [])
    | S fuel =>
        if len data <=? offset + 1 then Ret (Err TlvTooShort)
        else
          let! tag := idx data offset in
          let! b1 := idx data (offset + 1) in
          let! hdr :=
            (if b1 =? 0x82 then
               if len data <? offset + 4 then Ret (Err TlvTooShort)
               else
                 let! hi := idx data (offset + 2) in
                 let! lo := idx data (offset + 3) in
                 Ret (Ok (Z.lor (Z.shiftl hi 8) lo, 4))
             else if b1 <? 0x80 then Ret (Ok (b1, 2))
             else Ret (Err TlvInvalidLength)) in
          match hdr with
          | Err e => Ret (Err e)
          | Ok (n, header_size) =>
              if len data <? offset + header_size + n then Ret (Err TlvTooShort)
              else
                let! value := slice data (offset + header_size) (offset + header_size + n) in
                let! rest := parse_tlvs_from fuel data (offset + header_size + n) in
                match rest with
                | Err e => Ret (Err e)
                | Ok tlvs => Ret (Ok (mkTlv tag value :: tlvs))
                end
          end
    end.

Definition parse_tlvs (data : bytes) : res (Result (list Tlv) TlvError) :=
  parse_tlvs_from (List.length data) data 0.

Definition encode_tlvs (tlvs : list Tlv) : bytes := tlvs ≫= tlv_encode.

Definition find_tlv (tlvs : list Tlv) (t : Z) : option Tlv := List.find (fun x => tag x =? t) tlvs.
Definition find_tlvs (tlvs : list Tlv) (t : Z) : list Tlv := List.filter (fun x => tag x =? t) tlvs.

Definition TAG_SESSION_ID : Z := 0x10.
Definition TAG_POLICY : Z := 0x11.
Definition TAG_MAX_ATTEMPTS : Z := 0x12.
Definition TAG_1 : Z := 0x41.
Definition TAG_2 : Z := 0x42.
Definition TAG_3 : Z := 0x43.
Definition TAG_4 : Z := 0x44.
Definition TAG_5 : Z := 0x45.
Definition TAG_6 : Z := 0x46.
Definition TAG_7 : Z := 0x47.
Definition TAG_8 : Z := 0x48.
Definition TAG_9 : Z := 0x49.
Definition TAG_10 : Z := 0x4a.

(** ** [apdu.rs] *)

Record ParsedApdu := mkApdu {
  cla : Z;
  ins : Z;
  p1 : Z;
  p2 : Z;
  data : bytes;
  le : option Z;
}.

Inductive ApduError := ApduTooShort | ApduInvalidLength.

Definition apdu_parse (raw : bytes) : res (Result ParsedApdu ApduError) :=
  if len raw <? 4 then Ret (Err ApduTooShort)
  else
    let! cla := idx raw 0 in
    let! ins := idx raw 1 in
    let! p1 := idx raw 2 in
    let! p2 := idx raw 3 in
    if len raw =? 4 then Ret (Ok (mkApdu cla ins p1 p2 [] None))
    else
      let! r4 := idx raw 4 in
      if len raw =? 5 then Ret (Ok (mkApdu cla ins p1 p2 [] (Some r4)))
      else if (r4 =? 0x00) && (7 <=? len raw) then
        let! r5 := idx raw 5 in
        let! r6 := idx raw 6 in
        let lc := Z.lor (Z.shiftl r5 8) r6 in
        if lc =? 0 then
          let le := Z.lor (as_u16 (Z.shiftl r5 8)) r6 in
          Ret (Ok (mkApdu cla ins p1 p2 [] (Some le)))
        else
          let data_end := 7 + lc in
          if len raw <? data_end then Ret (Err ApduInvalidLength)
          else
            let! data := slice raw 7 data_end in
            let! le :=
              (if data_end + 2 <=? len raw then
                 let! hi := idx raw data_end in
                 let! lo := idx raw (data_end + 1) in
                 Ret (Some (Z.lor (as_u16 (Z.shiftl hi 8)) lo))
               else if data_end + 1 =? len raw then
                 let! b := idx raw data_end in Ret (Some b)
               else Ret None) in
            Ret (Ok (mkApdu cla ins p1 p2 data le))
      else
        let lc := r4 in
        let data_end := 5 + lc in
        if len raw <? data_end then Ret (Err ApduInvalidLength)
        else
          let! data := slice raw 5 data_end in
          let! le :=
            (if data_end <? len raw then let! b := idx raw data_end in Ret (Some b)
             else Ret None) in
          Ret (Ok (mkApdu cla ins p1 p2 data le)).

Definition apdu_parse_tlvs (self : ParsedApdu) : res (Result (list Tlv) TlvError) :=
  if bool_decide (data self = []) then Ret (Ok []) else parse_tlvs (data self).

Definition base_ins (self : ParsedApdu) : Z := Z.land (ins self) 0x1F.
Definition cred_type (self : ParsedApdu) : Z := Z.land (p1 self) 0x1F.
Definition key_type (self : ParsedApdu) : Z := Z.land (p1 self) 0x60.

Record ApduResponse := mkResponse { r_data : bytes; sw : Z }.

Definition success : ApduResponse := mkResponse [] 0x9000.
Definition success_with_data (d : bytes) : ApduResponse := mkResponse d 0x9000.
Definition success_with_tlvs (tlvs : list Tlv) : ApduResponse := mkResponse (encode_tlvs tlvs) 0x9000.
Definition error (s : Z) : ApduResponse := mkResponse [] s.
Definition to_bytes (self : ApduResponse) : bytes :=
  r_data self ++ [as_u8 (Z.shiftr (sw self) 8)] ++ [as_u8 (sw self)].

Definition SW_NO_ERROR : Z := 0x9000.
Definition SW_CONDITIONS_NOT_SATISFIED : Z := 0x6985.
Definition SW_SECURITY_STATUS : Z := 0x6982.
Definition SW_WRONG_DATA : Z := 0x6A80.
Definition SW_DATA_INVALID : Z := 0x6984.
Definition SW_COMMAND_NOT_ALLOWED : Z := 0x6986.
Definition SW_WRONG_P1P2 : Z := 0x6A86.
Definition SW_INS_NOT_SUPPORTED : Z := 0x6D00.
Definition SW_FILE_NOT_FOUND : Z := 0x6A82.
Definition SW_REF_DATA_NOT_FOUND : Z := 0x6A88.

Definition INS_WRITE : Z := 0x01.
Definition INS_READ : Z := 0x02.
Definition INS_CRYPTO : Z := 0x03.
Definition INS_MGMT : Z := 0x04.
Definition INS_PROCESS : Z := 0x05.
Definition INS_IMPORT_EXTERNAL : Z := 0x06.

Definition P1_DEFAULT : Z := 0x00.
Definition P1_EC : Z := 0x01.
Definition P1_RSA : Z := 0x02.
Definition P1_AES : Z := 0x03.
Definition P1_DES : Z := 0x04.
Definition P1_HMAC : Z := 0x05.
Definition P1_BINARY : Z := 0x06.
Definition P1_USERID : Z := 0x07.
Definition P1_COUNTER : Z := 0x08.
Definition P1_PCR : Z := 0x09.
Definition P1_CURVE : Z := 0x0B.
Definition P1_SIGNATURE : Z := 0x0C.
Definition P1_MAC : Z := 0x0D.
Definition P1_CIPHER : Z := 0x0E.
Definition P1_CRYPTO_OBJ : Z := 0x10.

Definition P1_KEY_PAIR : Z := 0x60.
Definition P1_PRIVATE_KEY : Z := 0x40.
Definition P1_PUBLIC_KEY : Z := 0x20.

Definition P2_DEFAULT : Z := 0x00.
Definition P2_GENERATE : Z := 0x03.
Definition P2_CREATE : Z := 0x04.
Definition P2_SIZE : Z := 0x07.
Definition P2_SIGN : Z := 0x09.
Definition P2_VERIFY : Z := 0x0A.
Definition P2_INIT : Z := 0x0B.
Definition P2_UPDATE : Z := 0x0C.
Definition P2_FINAL : Z := 0x0D.
Definition P2_ONESHOT : Z := 0x0E.
Definition P2_DH : Z := 0x0F.
Definition P2_VERSION : Z := 0x20.
Definition P2_MEMORY : Z := 0x22.
Definition P2_LIST : Z := 0x25.
Definition P2_TYPE : Z := 0x26.
Definition P2_EXIST : Z := 0x27.
Definition P2_DELETE_OBJECT : Z := 0x28.
Definition P2_DELETE_ALL : Z := 0x2A.
Definition P2_ID : Z := 0x36.
Definition P2_ENCRYPT_ONESHOT : Z := 0x37.
Definition P2_DECRYPT_ONESHOT : Z := 0x38.
Definition P2_ATTRIBUTES : Z := 0x3B.
Definition P2_PARAM : Z := 0x40.
Definition P2_ENCRYPT_INIT : Z := 0x42.
Definition P2_DECRYPT_INIT : Z := 0x43.
Definition P2_MAC_VALIDATE : Z := 0x44.
Definition P2_GENERATE_ONESHOT : Z := 0x45.
Definition P2_VALIDATE_ONESHOT : Z := 0x46.
Definition P2_CRYPTO_LIST : Z := 0x47.
Definition P2_RAW : Z := 0x4F.
Definition P2_RANDOM : Z := 0x49.
Definition P2_SCP : Z := 0x52.

Definition OBJ_TYPE_EC_KEY_PAIR : Z := 0x01.
Definition OBJ_TYPE_EC_PUB_KEY : Z := 0x03.
Definition OBJ_TYPE_AES_KEY : Z := 0x09.
Definition OBJ_TYPE_BINARY_FILE : Z := 0x0B.
Definition OBJ_TYPE_USERID : Z := 0x0C.
Definition OBJ_TYPE_COUNTER : Z := 0x0D.
Definition OBJ_TYPE_HMAC_KEY : Z := 0x11.

(** ** [policy.rs] *)

Definition POLICY_OBJ_ALLOW_READ : Z := 0x00200000.
Definition POLICY_OBJ_ALLOW_WRITE : Z := 0x00100000.
Definition POLICY_OBJ_ALLOW_DELETE : Z := 0x00040000.

Inductive InvalidPolicy := mkInvalidPolicy.

(** The loop of [ar_header_union]: [rest] is [rest[0]], the entry length, and the
    bytes after it; the guard puts [rest[5..9]] and [rest[1 + len..]] in range. *)
Fixpoint ar_header_loop (fuel : nat) (rest : bytes) (header : Z) (seen : bool) : option Z :=
  match rest with
  | [] => if seen then Some header else None
  | n :: body =>
      match fuel with
      | O => None
      | S fuel =>
          if (n <? 8) || (len rest <? 1 + n) then None
          else ar_header_loop fuel (drop (Z.to_nat n) body) (Z.lor header (be_val (sub body 4 8))) true
      end
  end.

Definition ar_header_union (value : bytes) : option Z :=
  ar_header_loop (List.length value) value 0 false.

Definition creation_policy (tlvs : list Tlv) : Result (option bytes) InvalidPolicy :=
  match find_tlv tlvs TAG_POLICY with
  | Some t =>
      if bool_decide (value t = []) then Ok None
      else if bool_decide (is_Some (ar_header_union (value t))) then Ok (Some (value t))
      else Err mkInvalidPolicy
  | None => Ok None
  end.

(** ** [object_store/types.rs] *)

Definition default_object_origin : Z := 0x01.
Definition default_counter_size : Z := 8.

Record ObjectMetadata := mkMetadata { policy : option bytes; origin : Z }.
Definition ObjectMetadata_default : ObjectMetadata := mkMetadata None default_object_origin.

Inductive ECCurve := NistP192 | NistP224 | NistP256 | NistP384 | NistP521 | Ed25519 | Curve25519.
#[export] Instance ECCurve_eq_dec : EqDecision ECCurve.
Proof. solve_decision. Defined.

Definition from_se050_byte (b : Z) : option ECCurve :=
  if b =? 0x01 then Some NistP192
  else if b =? 0x02 then Some NistP224
  else if b =? 0x03 then Some NistP256
  else if b =? 0x04 then Some NistP384
  else if b =? 0x05 then Some NistP521
  else if b =? 0x40 then Some Ed25519
  else if b =? 0x41 then Some Curve25519
  else None.

Definition scalar_len (self : ECCurve) : Z :=
  match self with
  | NistP192 => 24
  | NistP224 => 28
  | NistP256 => 32
  | NistP384 => 48
  | NistP521 => 66
  | Ed25519 | Curve25519 => 32
  end.

Definition needs_curve_object (self : ECCurve) : bool :=
  match self with Ed25519 | Curve25519 => false | _ => true end.

Record RsaComponents := mkRsaComponents {
  rc_n : option bytes;
  rc_e : option bytes;
  rc_d : option bytes;
  rc_p : option bytes;
  rc_q : option bytes;
  rc_dp : option bytes;
  rc_dq : option bytes;
  rc_qinv : option bytes;
}.
Definition RsaComponents_default : RsaComponents :=
  mkRsaComponents None None None None None None None None.

Inductive SecureObject :=
  | ECKeyPair (curve : ECCurve) (private_key public_key : bytes)
  | ECPublicKey (curve : ECCurve) (public_key : bytes)
  | RSAKeyPair (key_size_bits : Z) (private_key_der : bytes) (staged : RsaComponents)
  | AESKey (key : bytes)
  | Binary (data : bytes)
  | UserID (value : bytes)
  | Counter (value size : Z)
  | HMACKey (key : bytes) (policy : option Z).

Definition type_code (self : SecureObject) (v7 : bool) : Z :=
  match self with
  | ECKeyPair curve _ _ =>
      if negb v7 then 0x01
      else match curve with
           | NistP192 => 0x21
           | NistP224 => 0x25
           | NistP256 => 0x29
           | NistP384 => 0x2D
           | NistP521 => 0x31
           | Ed25519 => 0x65
           | Curve25519 => 0x69
           end
  | ECPublicKey curve _ =>
      if negb v7 then 0x03
      else match curve with
           | NistP192 => 0x22
           | NistP224 => 0x26
           | NistP256 => 0x2A
           | NistP384 => 0x2E
           | NistP521 => 0x32
           | Ed25519 => 0x67
           | Curve25519 => 0x6B
           end
  | RSAKeyPair _ _ _ => 0x04
  | AESKey _ => 0x09
  | Binary _ => 0x0B
  | UserID _ => 0x0C
  | Counter _ _ => 0x0D
  | HMACKey _ _ => 0x11
  end.

Definition curve_id (self : SecureObject) : option Z :=
  match self with
  | ECKeyPair curve _ _ | ECPublicKey curve _ =>
      Some (match curve with
            | NistP192 => 0x01
            | NistP224 => 0x02
            | NistP256 => 0x03
            | NistP384 => 0x04
            | NistP521 => 0x05
            | Ed25519 => 0x40
            | Curve25519 => 0x41
            end)
  | _ => None
  end.

Definition data_size (self : SecureObject) : Z :=
  match self with
  | ECKeyPair curve _ _ => scalar_len curve
  | ECPublicKey curve _ => scalar_len curve
  | RSAKeyPair key_size_bits _ _ => key_size_bits / 8
  | AESKey key => len key
  | Binary data => len data
  | UserID value => len value
  | Counter _ size => size
  | HMACKey key _ => len key
  end.

(** ** [applet.rs] *)

Inductive AppletVersion := V3_1_1 | V7_2_0 | V7_2_0E | V7_2_22F.

(** A Rust string is the list of its characters' code points.  [trim] removes
    Unicode white space at both ends; [to_ascii_lowercase] moves A-Z. *)
Definition is_whitespace (c : Z) : bool :=
  ((9 <=? c) && (c <=? 13)) || (c =? 0x20) || (c =? 0x85) || (c =? 0xA0) || (c =? 0x1680) ||
  ((0x2000 <=? c) && (c <=? 0x200A)) || (c =? 0x2028) || (c =? 0x2029) || (c =? 0x202F) ||
  (c =? 0x205F) || (c =? 0x3000).
Fixpoint trim_start (s : list Z) : list Z :=
  match s with
  | c :: s' => if is_whitespace c then trim_start s' else s
  | [] => []
  end.
Definition trim (s : list Z) : list Z := reverse (trim_start (reverse (trim_start s))).
Definition to_ascii_lowercase (s : list Z) : list Z :=
  (fun c => if (65 <=? c) && (c <=? 90) then c + 32 else c) <$> s.

Definition from_token (token : list Z) : AppletVersion :=
  let t := to_ascii_lowercase (trim token) in
  if bool_decide (last t = Some 0x66) || bool_decide (t = str_bytes "7.2.22") then V7_2_22F
  else if bool_decide (last t = Some 0x65) then V7_2_0E
  else if bool_decide (head t = Some 0x33) then V3_1_1
  else V7_2_0.

Definition version_bytes (self : AppletVersion) : bytes :=
  match self with
  | V3_1_1 => [0x03; 0x01; 0x01; 0x6F; 0xFF; 0x01; 0x0B]
  | V7_2_0 => [0x07; 0x02; 0x00; 0x3F; 0xFF; 0xFF; 0xFF]
  | V7_2_0E => [0x07; 0x02; 0x00; 0x3F; 0x9F; 0xFF; 0xFF]
  | V7_2_22F => [0x07; 0x02; 0x16; 0x26; 0xF2; 0xFF; 0xFF]
  end.

Definition get_random_max (self : AppletVersion) : Z :=
  match self with
  | V3_1_1 => 880
  | V7_2_0 | V7_2_0E => 1018
  | V7_2_22F => 1003
  end.

Definition supports_25519 (self : AppletVersion) : bool :=
  match self with V7_2_22F => false | _ => true end.

Definition rsa_min_key_bits (self : AppletVersion) : Z :=
  match self with
  | V7_2_22F => 2048
  | _ => 1024
  end.

Definition supports_rsa_public_import (self : AppletVersion) : bool :=
  match self with V7_2_22F => false | _ => true end.

Definition supports_rsa (self : AppletVersion) : bool :=
  match self with V7_2_0E => false | _ => true end.

Definition is_v7 (self : AppletVersion) : bool :=
  match self with V3_1_1 => false | _ => true end.

Definition free_memory_is_u32 (self : AppletVersion) : bool :=
  match self with V7_2_22F => true | _ => false end.

Definition free_memory_bytes (self : AppletVersion) (memory_type : Z) : option bytes :=
  let '(persistent, transient_reset, transient_deselect) :=
    match self with
    | V3_1_1 => (31304, 575, 560)
    | V7_2_0 => (21000, 605, 592)
    | V7_2_0E => (32767, 796, 784)
    | V7_2_22F => (86336, 1157, 1152)
    end in
  let encode value :=
    if free_memory_is_u32 self then be_bytes 4 value else be_bytes 2 (as_u16 value) in
  if memory_type =? 0x01 then Some (encode persistent)
  else if memory_type =? 0x02 then Some (encode transient_reset)
  else if memory_type =? 0x03 then Some (encode transient_deselect)
  else None.

(** The environment variables the simulator reads, as of one command. *)
Record Env := mkEnv {
  env_applet : option (list Z);
  env_scp03_kvn : option (list Z);
  env_scp03_enc : option (list Z);
  env_scp03_mac : option (list Z);
  env_scp03_dek : option (list Z);
  env_strict_ecdh : option (list Z);
}.

Definition applet_from_env (e : Env) : AppletVersion :=
  match env_applet e with
  | Some v => from_token v
  | None => V7_2_0
  end.
