(* ===== verification/Se050Store.v ===== *)
(** * SE050Sim: the object store

    [object_store/mod.rs] and the key configuration of [scp03/keys.rs].  A
    [HashMap] is a [gmap]; the order in which one is iterated is a parameter
    ([HashIter]).  The store writes its JSON document to a file when it has a path;
    the file system is part of the store's state, the document and its encoding are
    the class [Serde]. *)

From S2P Require Import Prelude.
From S2P Require Import Host.
From S2P Require Import Crates.
From S2P Require Import Se050Crates.
From S2P Require Import Se050Types.

(** ** [scp03/keys.rs]: the configuration *)

Definition DEFAULT_KVN : Z := 0x0B.
Definition I_PARAM : Z := 0x00.
Definition KEY_DIVERSIFICATION_DATA : bytes :=
  [0x90; 0x03; 0x20; 0x19; 0x07; 0x38; 0x24; 0x20; 0x25; 0x02].
Definition SE050E_ENC : bytes :=
  [0xD2; 0xDB; 0x63; 0xE7; 0xA0; 0xA5; 0xAE; 0xD7; 0x2A; 0x64; 0x60; 0xC4; 0xDF; 0xDC; 0xAF; 0x64].
Definition SE050E_MAC : bytes :=
  [0x73; 0x8D; 0x5B; 0x79; 0x8E; 0xD2; 0x41; 0xB0; 0xB2; 0x47; 0x68; 0x51; 0x4B; 0xFB; 0xA9; 0x5B].
Definition SE050E_DEK : bytes :=
  [0x67; 0x02; 0xDA; 0xC3; 0x09; 0x42; 0xB2; 0xC8; 0x5E; 0x7F; 0x47; 0xB4; 0x2C; 0xED; 0x4E; 0x7F].
Definition DEVKIT_ENC : bytes :=
  [0x35; 0xC2; 0x56; 0x45; 0x89; 0x58; 0xA3; 0x4F; 0x61; 0x36; 0x15; 0x5F; 0x82; 0x09; 0xD6; 0xCD].
Definition DEVKIT_MAC : bytes :=
  [0xAF; 0x17; 0x7D; 0x5D; 0xBD; 0xF7; 0xC0; 0xD5; 0xC1; 0x0A; 0x05; 0xB9; 0xF1; 0x60; 0x7F; 0x78].
Definition DEVKIT_DEK : bytes :=
  [0xA1; 0xBC; 0x84; 0x38; 0xBF; 0x77; 0x93; 0x5B; 0x36; 0x1A; 0x44; 0x25; 0xFE; 0x79; 0xFA; 0x29].

Record Scp03Config := mkScp03Config {
  kvn : Z;
  cfg_enc : bytes;
  cfg_mac : bytes;
  cfg_dek : bytes;
}.

(** A digit of [u8::from_str_radix(_, 16)]. *)
Definition hex_digit (c : Z) : option Z :=
  if (48 <=? c) && (c <=? 57) then Some (c - 48)
  else if (97 <=? c) && (c <=? 102) then Some (c - 87)
  else if (65 <=? c) && (c <=? 70) then Some (c - 55)
  else None.
Fixpoint hex_digits (s : list Z) (acc : Z) : option Z :=
  match s with
  | [] => Some acc
  | c :: s =>
      match hex_digit c with
      | Some d => if 255 <? acc * 16 + d then None else hex_digits s (acc * 16 + d)
      | None => None
      end
  end.
(** An optional [+], then at least one digit; [None] on overflow. *)
Definition u8_from_str_radix16 (s : list Z) : option Z :=
  let s := match s with 43 :: (_ :: _) as s' => tail s' | _ => s end in
  match s with [] => None | _ => hex_digits s 0 end.

(** [{:02x}] of a byte. *)
Definition hex_char (d : Z) : Z := if d <? 10 then 48 + d else 87 + d.
Definition format_02x (k : Z) : list Z := [hex_char (k / 16); hex_char (k mod 16)].

Section env.
Context `{H : HexCrate}.

Definition env_key (var : option (list Z)) : option bytes :=
  match var with
  | None => None
  | Some raw =>
      match hex_decode (trim raw) with
      | Some b => if (len b =? 16) || (len b =? 24) || (len b =? 32) then Some b else None
      | None => None
      end
  end.

Definition strip_0x (raw : list Z) : list Z :=
  match raw with
  | 48 :: 120 :: rest => rest
  | 48 :: 88 :: rest => rest
  | _ => raw
  end.
Definition env_u8 (var : option (list Z)) : option Z :=
  match var with
  | None => None
  | Some raw => u8_from_str_radix16 (strip_0x (trim raw))
  end.

Definition config_from_env (e : Env) (version : AppletVersion) : Scp03Config :=
  let '(enc, mac, dek) :=
    match version with
    | V3_1_1 => (DEVKIT_ENC, DEVKIT_MAC, DEVKIT_DEK)
    | _ => (SE050E_ENC, SE050E_MAC, SE050E_DEK)
    end in
  mkScp03Config (default DEFAULT_KVN (env_u8 (env_scp03_kvn e)))
    (default enc (env_key (env_scp03_enc e)))
    (default mac (env_key (env_scp03_mac e)))
    (default dek (env_key (env_scp03_dek e))).
End env.

(** ** [object_store/mod.rs] *)

Definition CURVE_PARAMS_COMPLETE : Z := 0x1F.

Inductive CryptoObjectState :=
  | Digest (algo : Z) (data : bytes)
  | Cipher (encrypting : bool) (mode : Z) (key_id chain pending : bytes)
  | Mac (algo : Z) (validate : bool) (key_id data : bytes).

(** The JSON document: [serde_json::Value] with the accessors [load] uses, and the
    document [persist] builds from the maps with string keys. *)
Class Serde := {
  Value : Type;
  value_get : Value -> list Z -> option Value;
  as_bool : Value -> option bool;
  as_u64 : Value -> option Z;
  as_object : Value -> option (list (list Z * Value));
  objects_from_value : Value -> option (gmap (list Z) SecureObject);
  metadata_from_value : Value -> option ObjectMetadata;
  config_from_value : Value -> option Scp03Config;
  json_doc : gmap (list Z) SecureObject -> gmap (list Z) ObjectMetadata -> gmap (list Z) Z ->
    bool -> option Scp03Config -> Value;
}.

(** The order of a [HashMap]'s iteration. *)
Class HashIter := {
  iter_objects : gmap bytes SecureObject -> list (bytes * SecureObject);
  iter_types : gmap Z (Z * Z) -> list (Z * (Z * Z));
}.
Class HashIterOk `{HashIter} := {
  iter_objects_perm m : iter_objects m ≡ₚ map_to_list m;
  iter_types_perm m : iter_types m ≡ₚ map_to_list m;
}.

Section store.
Context `{H : HexCrate} {S : Serde} {F : FileSystem Value} {I : HashIter}.

Record ObjectStore := mkStore {
  objects : gmap bytes SecureObject;
  metadata : gmap bytes ObjectMetadata;
  persist_path : option path;
  ec_curves : gmap Z Z;
  crypto_objects : gmap Z CryptoObjectState;
  crypto_object_types : gmap Z (Z * Z);
  scp_required : bool;
  platform_scp : option Scp03Config;
  disk : fs;
}.

Definition set_objects (s : ObjectStore) o : ObjectStore :=
  mkStore o (metadata s) (persist_path s) (ec_curves s) (crypto_objects s) (crypto_object_types s)
    (scp_required s) (platform_scp s) (disk s).
Definition set_metadata (s : ObjectStore) m : ObjectStore :=
  mkStore (objects s) m (persist_path s) (ec_curves s) (crypto_objects s) (crypto_object_types s)
    (scp_required s) (platform_scp s) (disk s).
Definition set_ec_curves (s : ObjectStore) c : ObjectStore :=
  mkStore (objects s) (metadata s) (persist_path s) c (crypto_objects s) (crypto_object_types s)
    (scp_required s) (platform_scp s) (disk s).
Definition set_crypto_objects (s : ObjectStore) c : ObjectStore :=
  mkStore (objects s) (metadata s) (persist_path s) (ec_curves s) c (crypto_object_types s)
    (scp_required s) (platform_scp s) (disk s).
Definition set_crypto_object_types (s : ObjectStore) t : ObjectStore :=
  mkStore (objects s) (metadata s) (persist_path s) (ec_curves s) (crypto_objects s) t
    (scp_required s) (platform_scp s) (disk s).
Definition set_required (s : ObjectStore) b : ObjectStore :=
  mkStore (objects s) (metadata s) (persist_path s) (ec_curves s) (crypto_objects s)
    (crypto_object_types s) b (platform_scp s) (disk s).
Definition set_platform (s : ObjectStore) p : ObjectStore :=
  mkStore (objects s) (metadata s) (persist_path s) (ec_curves s) (crypto_objects s)
    (crypto_object_types s) (scp_required s) p (disk s).
Definition set_disk (s : ObjectStore) d : ObjectStore :=
  mkStore (objects s) (metadata s) (persist_path s) (ec_curves s) (crypto_objects s)
    (crypto_object_types s) (scp_required s) (platform_scp s) d.

(** P-192 to P-521, fully parameterised. *)
Definition default_curves : gmap Z Z :=
  list_to_map ((fun id => (id, CURVE_PARAMS_COMPLETE)) <$> [0x01; 0x02; 0x03; 0x04; 0x05]).

Definition store_new (f : fs) : ObjectStore :=
  mkStore ∅ ∅ None default_curves ∅ ∅ false None f.

(** A map with its keys written as strings. *)
Definition string_keys {A} (key : bytes -> list Z) (m : gmap bytes A) : gmap (list Z) A :=
  list_to_map ((fun kv => (key (fst kv), snd kv)) <$> map_to_list m).

(** The document that is written. *)
Definition document (self : ObjectStore) : Value :=
  json_doc (string_keys hex_encode (objects self)) (string_keys hex_encode (metadata self))
    (list_to_map ((fun kv => (format_02x (fst kv), snd kv)) <$> map_to_list (ec_curves self)))
    (scp_required self) (platform_scp self).

(** A failed write is ignored. *)
Definition persist (self : ObjectStore) : ObjectStore :=
  match persist_path self with
  | None => self
  | Some p =>
      match fs_write (disk self) p (document self) with
      | Ok f => set_disk self f
      | Err _ => self
      end
  end.

(** The keys of a parsed map that are the hexadecimal form of four bytes. *)
Definition decode_id (hex_key : list Z) : option bytes :=
  match hex_decode hex_key with
  | Some b => if len b =? 4 then Some b else None
  | None => None
  end.

Definition load_curves (curves : list (list Z * Value)) : gmap Z Z :=
  list_to_map (reverse (omap (fun kv =>
    match u8_from_str_radix16 (fst kv) with
    | Some id =>
        match as_u64 (snd kv) with
        | Some mask => Some (id, as_u8 mask)
        | None => None
        end
    | None => None
    end) curves)).

Fixpoint load_metadata (entries : list (list Z * Value)) (m : gmap bytes ObjectMetadata)
  : gmap bytes ObjectMetadata :=
  match entries with
  | [] => m
  | (hex_key, v) :: entries =>
      match decode_id hex_key with
      | Some id =>
          match metadata_from_value v with
          | Some md => load_metadata entries (<[id := md]> m)
          | None => load_metadata entries m
          end
      | None => load_metadata entries m
      end
  end.

Fixpoint load_objects (entries : list (list Z * SecureObject)) (m : gmap bytes SecureObject)
  : gmap bytes SecureObject :=
  match entries with
  | [] => m
  | (hex_key, obj) :: entries =>
      match decode_id hex_key with
      | Some id => load_objects entries (<[id := obj]> m)
      | None => load_objects entries m
      end
  end.

Definition key_objects : list Z := [111; 98; 106; 101; 99; 116; 115].
Definition key_metadata : list Z := [109; 101; 116; 97; 100; 97; 116; 97].
Definition key_ec_curves : list Z := [101; 99; 95; 99; 117; 114; 118; 101; 115].
Definition key_scp_required : list Z := [115; 99; 112; 95; 114; 101; 113; 117; 105; 114; 101; 100].
Definition key_platform_scp : list Z := [112; 108; 97; 116; 102; 111; 114; 109; 95; 115; 99; 112].

Definition opt_bind {A B} (o : option A) (f : A -> option B) : option B :=
  match o with Some a => f a | None => None end.

(** The document of the current schema, or the flat map of the legacy one. *)
Definition load_value (self : ObjectStore) (v : Value) : ObjectStore :=
  let '(self, objects_value) :=
    match value_get v key_objects with
    | Some o =>
        let self := set_required self
          (default false (opt_bind (value_get v key_scp_required) as_bool)) in
        let self := set_platform self
          (opt_bind (value_get v key_platform_scp) config_from_value) in
        let self :=
          match opt_bind (value_get v key_ec_curves) as_object with
          | Some curves => set_ec_curves self (load_curves curves)
          | None => self
          end in
        let self :=
          match opt_bind (value_get v key_metadata) as_object with
          | Some entries => set_metadata self (load_metadata entries (metadata self))
          | None => self
          end in
        (self, o)
    | None => (self, v)
    end in
  match objects_from_value objects_value with
  | None => self
  | Some m => set_objects self (load_objects (map_to_list m) (objects self))
  end.

Definition load (self : ObjectStore) : ObjectStore :=
  match persist_path self with
  | None => self
  | Some p =>
      match fs_read (disk self) p with
      | Some (Ok v) => load_value self v
      | _ => self
      end
  end.

Definition with_persistence (p : path) (f : fs) : ObjectStore :=
  load (mkStore ∅ ∅ (Some p) default_curves ∅ ∅ false None f).

Definition insert (self : ObjectStore) (id : bytes) (obj : SecureObject) : ObjectStore :=
  persist (set_objects self (<[id := obj]> (objects self))).

Definition get (self : ObjectStore) (id : bytes) : option SecureObject := objects self !! id.

(** [entry(id).or_insert]: metadata is set once. *)
Definition set_creation_metadata (self : ObjectStore) (id : bytes) (policy : option bytes) (origin : Z)
  : ObjectStore :=
  persist (set_metadata self
    (match metadata self !! id with
     | Some _ => metadata self
     | None => <[id := mkMetadata policy origin]> (metadata self)
     end)).

Definition get_metadata (self : ObjectStore) (id : bytes) : option ObjectMetadata := metadata self !! id.

Definition policy_allows (self : ObjectStore) (id : bytes) (permission : Z) : bool :=
  match opt_bind (metadata self !! id) policy with
  | Some raw =>
      match ar_header_union raw with
      | Some header => negb (Z.land header permission =? 0)
      | None => false
      end
  | None => true
  end.

Definition remove (self : ObjectStore) (id : bytes) : ObjectStore * option SecureObject :=
  let result := objects self !! id in
  let self := set_objects self (delete id (objects self)) in
  match result with
  | Some _ => (persist (set_metadata self (delete id (metadata self))), result)
  | None => (self, result)
  end.

Definition exists_ (self : ObjectStore) (id : bytes) : bool := bool_decide (is_Some (objects self !! id)).

Definition list_ids (self : ObjectStore) : list bytes := fst <$> iter_objects (objects self).

Definition clear (self : ObjectStore) : ObjectStore :=
  persist (mkStore ∅ ∅ (persist_path self) default_curves ∅ ∅ (scp_required self)
    (platform_scp self) (disk self)).

Definition count (self : ObjectStore) : Z := Z.of_nat (size (objects self)).

Definition curve_exists (self : ObjectStore) (curve_id : Z) : bool :=
  bool_decide (is_Some (ec_curves self !! curve_id)).

Definition curve_ready (self : ObjectStore) (curve_id : Z) : bool :=
  bool_decide (ec_curves self !! curve_id = Some CURVE_PARAMS_COMPLETE).

Definition curve_create (self : ObjectStore) (curve_id : Z) : ObjectStore :=
  persist (set_ec_curves self (<[curve_id := 0]> (ec_curves self))).

Definition curve_reset (self : ObjectStore) (curve_id : Z) : ObjectStore :=
  persist (set_ec_curves self (<[curve_id := 0]> (ec_curves self))).

Definition curve_add_param (self : ObjectStore) (curve_id param : Z) : ObjectStore :=
  match ec_curves self !! curve_id with
  | Some mask =>
      persist (set_ec_curves self
        (<[curve_id := Z.lor mask (Z.land param CURVE_PARAMS_COMPLETE)]> (ec_curves self)))
  | None => self
  end.

Definition curve_delete (self : ObjectStore) (curve_id : Z) : ObjectStore * bool :=
  match ec_curves self !! curve_id with
  | Some _ => (persist (set_ec_curves self (delete curve_id (ec_curves self))), true)
  | None => (self, false)
  end.

Definition set_scp_required (self : ObjectStore) (required : bool) : ObjectStore :=
  persist (set_required self required).

Definition platform_scp_config (self : ObjectStore) (e : Env) (version : AppletVersion) : Scp03Config :=
  default (config_from_env e version) (platform_scp self).

Definition set_platform_scp_config (self : ObjectStore) (config : Scp03Config) : ObjectStore :=
  persist (set_platform self (Some config)).
End store.

(** The laws of the document: what [persist] writes is what [load] finds. *)
Class SerdeOk (S : Serde) := {
  doc_objects o m c r p : exists v, value_get (json_doc o m c r p) key_objects = Some v /\
    objects_from_value v = Some o;
  doc_metadata o m c r p : exists v l, value_get (json_doc o m c r p) key_metadata = Some v /\
    as_object v = Some l /\ NoDup (fst <$> l) /\
    forall k x, m !! k = Some x <-> exists w, (k, w) ∈ l /\ metadata_from_value w = Some x;
  doc_curves o m c r p : exists v l, value_get (json_doc o m c r p) key_ec_curves = Some v /\
    as_object v = Some l /\ NoDup (fst <$> l) /\
    forall k x, c !! k = Some x <-> exists w, (k, w) ∈ l /\ as_u64 w = Some x;
  doc_scp_required o m c r p : exists v, value_get (json_doc o m c r p) key_scp_required = Some v /\
    as_bool v = Some r;
  doc_platform_scp o m c r p : exists v, value_get (json_doc o m c r p) key_platform_scp = Some v /\
    config_from_value v = p;
}.
