(* ===== verification/Se050Handlers.v ===== *)
(** * SE050Sim: object, session and management handlers

    [handlers/session.rs], [management.rs], [object_mgmt.rs], [crypto_obj.rs],
    [curve.rs] and [digest.rs], a module per file.  A handler takes the parsed APDU
    and the store and gives the store it leaves and the response; one that draws
    random bytes threads the generator. *)

From S2P Require Import Prelude.
From S2P Require Import Host.
From S2P Require Import Crates.
From S2P Require Import Se050Crates.
From S2P Require Import Se050Types.
From S2P Require Import Se050Store.

(** [let Some(x) = o else { return e }]. *)
Notation "'let?' x := o 'else' e 'in' k" := (match o with Some x => k | None => e end)
  (at level 10, x binder, o at level 100, e at level 100, k at level 200) : rust_scope.
(** [let x = match m { Ok(x) => x, Err(_) => return e }]. *)
Notation "'let!?' x := m 'else' e 'in' k" := (rbind m (fun r => match r with Ok x => k | Err _ => e end))
  (at level 10, x binder, m at level 100, e at level 100, k at level 200) : rust_scope.

(** The patterns the handlers read their TLVs with: a value of exactly four bytes, a
    big-endian value of exactly two bytes, the first byte of a non-empty value, the
    value itself. *)
Definition tlv_id (tlvs : list Tlv) (t : Z) : option bytes :=
  match find_tlv tlvs t with
  | Some x => if len (value x) =? 4 then Some (value x) else None
  | None => None
  end.
Definition be16 (v : bytes) : option Z :=
  match v with
  | [hi; lo] => Some (Z.lor (Z.shiftl hi 8) lo)
  | _ => None
  end.
Definition tlv_u16 (tlvs : list Tlv) (t : Z) : option Z :=
  match find_tlv tlvs t with Some x => be16 (value x) | None => None end.
Definition tlv_first (tlvs : list Tlv) (t : Z) : option Z :=
  match find_tlv tlvs t with Some x => head (value x) | None => None end.
Definition tlv_value (tlvs : list Tlv) (t : Z) : option bytes := value <$> find_tlv tlvs t.

(** A response that is one TLV. *)
Definition tag1 (v : bytes) : ApduResponse := success_with_tlvs [mkTlv TAG_1 v].

Module session.
Section session.
Context `{H : HexCrate} {S : Serde} {F : FileSystem Value} {I : HashIter}.
Definition SE050_AID : bytes :=
  [0xA0; 0x00; 0x00; 0x03; 0x96; 0x54; 0x53; 0x00; 0x00; 0x00; 0x01; 0x03; 0x00; 0x00; 0x00; 0x00].
Definition SSD_AID : bytes := [0xD2; 0x76; 0x00; 0x00; 0x85; 0x30; 0x4A; 0x43; 0x4F; 0x90; 0x03].

Definition selects_ssd (apdu : ParsedApdu) : bool := bool_decide (data apdu = SSD_AID).

Definition handle_select (apdu : ParsedApdu) (version : AppletVersion) : ApduResponse :=
  if bool_decide (data apdu = SE050_AID) then success_with_data (version_bytes version)
  else if selects_ssd apdu then success
  else error 0x6A82.
End session.
End session.

Module management.
Section management.
Context `{R : Rng} {H : HexCrate} {S : Serde} {F : FileSystem Value} {I : HashIter}.

Definition handle_get_version (version : AppletVersion) : ApduResponse := tag1 (version_bytes version).

Definition handle_get_free_memory (apdu : ParsedApdu) (version : AppletVersion) : res ApduResponse :=
  let!? tlvs := apdu_parse_tlvs apdu else Ret (error 0x6A80) in
  let mem_type := default 0x01 (tlv_first tlvs TAG_1) in
  match free_memory_bytes version mem_type with
  | Some b => Ret (tag1 b)
  | None => Ret (error 0x6A80)
  end.

Definition handle_get_random (apdu : ParsedApdu) (version : AppletVersion) (r : rng)
  : res (rng * ApduResponse) :=
  let!? tlvs := apdu_parse_tlvs apdu else Ret (r, error 0x6A80) in
  let? v := tlv_value tlvs TAG_1 else Ret (r, error 0x6A80) in
  if len v <? 2 then Ret (r, error 0x6A80)
  else
    let! hi := idx v 0 in
    let! lo := idx v 1 in
    let requested_len := Z.lor (Z.shiftl hi 8) lo in
    if (requested_len =? 0) || (get_random_max version <? requested_len)
    then Ret (r, error SW_CONDITIONS_NOT_SATISFIED)
    else
      let '(random_data, r) := fill_bytes requested_len r in
      Ret (r, tag1 random_data).

Definition handle_delete_all (store : ObjectStore) : ObjectStore * ApduResponse := (clear store, success).

Definition handle (apdu : ParsedApdu) (store : ObjectStore) (r : rng) (version : AppletVersion)
  : res (ObjectStore * rng * ApduResponse) :=
  if p2 apdu =? P2_VERSION then Ret (store, r, handle_get_version version)
  else if p2 apdu =? P2_MEMORY then
    let! resp := handle_get_free_memory apdu version in Ret (store, r, resp)
  else if p2 apdu =? P2_RANDOM then
    let! '(r, resp) := handle_get_random apdu version r in Ret (store, r, resp)
  else if p2 apdu =? P2_DELETE_ALL then
    let '(store, resp) := handle_delete_all store in Ret (store, r, resp)
  else Ret (store, r, error 0x6A86).

Definition handle_set_platform_scp (apdu : ParsedApdu) (store : ObjectStore) (scp_active : bool)
  : res (ObjectStore * ApduResponse) :=
  if negb scp_active then Ret (store, error SW_CONDITIONS_NOT_SATISFIED)
  else
    let!? tlvs := apdu_parse_tlvs apdu else Ret (store, error SW_WRONG_DATA) in
    let? b := tlv_first tlvs TAG_1 else Ret (store, error SW_WRONG_DATA) in
    if b =? 0x01 then Ret (set_scp_required store true, success)
    else if b =? 0x02 then Ret (set_scp_required store false, success)
    else Ret (store, error SW_WRONG_DATA).
End management.
End management.

Module crypto_obj.
Section crypto_obj.
Context `{H : HexCrate} {S : Serde} {F : FileSystem Value} {I : HashIter}.

Definition handle_create (apdu : ParsedApdu) (store : ObjectStore) : res (ObjectStore * ApduResponse) :=
  let!? tlvs := apdu_parse_tlvs apdu else Ret (store, error SW_WRONG_DATA) in
  let? crypto_id := tlv_u16 tlvs TAG_1 else Ret (store, error SW_WRONG_DATA) in
  let? context_type := tlv_first tlvs TAG_2 else Ret (store, error SW_WRONG_DATA) in
  let subtype := default 0x00 (tlv_first tlvs TAG_3) in
  if bool_decide (is_Some (crypto_object_types store !! crypto_id))
  then Ret (store, error SW_COMMAND_NOT_ALLOWED)
  else
    Ret (set_crypto_object_types store
           (<[crypto_id := (context_type, subtype)]> (crypto_object_types store)), success).

Definition list_entry (e : Z * (Z * Z)) : bytes :=
  let '(id, (ctx_type, subtype)) := e in [as_u8 (Z.shiftr id 8); as_u8 id; ctx_type; subtype].

Definition handle_list (store : ObjectStore) : ApduResponse :=
  tag1 (iter_types (crypto_object_types store) ≫= list_entry).

Definition handle_delete (apdu : ParsedApdu) (store : ObjectStore) : res (ObjectStore * ApduResponse) :=
  let!? tlvs := apdu_parse_tlvs apdu else Ret (store, error SW_WRONG_DATA) in
  let? crypto_id := tlv_u16 tlvs TAG_1 else Ret (store, error SW_WRONG_DATA) in
  let store := set_crypto_object_types store (delete crypto_id (crypto_object_types store)) in
  Ret (set_crypto_objects store (delete crypto_id (crypto_objects store)), success).
End crypto_obj.
End crypto_obj.

Module curve.
Section curve.
Context `{H : HexCrate} {S : Serde} {F : FileSystem Value} {I : HashIter}.
Definition WEIERSTRASS_CURVE_COUNT : Z := 0x11.

Definition one_byte (v : bytes) : option Z := match v with [x] => Some x | _ => None end.

Definition curve_id_from_tag1 (apdu : ParsedApdu) : res (option Z) :=
  let!? tlvs := apdu_parse_tlvs apdu else Ret None in
  Ret (opt_bind (tlv_value tlvs TAG_1) one_byte).

Definition handle_create (apdu : ParsedApdu) (store : ObjectStore) (version : AppletVersion)
  : res (ObjectStore * ApduResponse) :=
  let! c := curve_id_from_tag1 apdu in
  let? curve_id := c else Ret (store, error SW_WRONG_DATA) in
  if (curve_id =? 0) || (WEIERSTRASS_CURVE_COUNT <? curve_id) then Ret (store, error SW_WRONG_DATA)
  else if curve_exists store curve_id then
    match version with
    | V7_2_0 | V7_2_0E | V7_2_22F => Ret (store, error SW_CONDITIONS_NOT_SATISFIED)
    | V3_1_1 => Ret (curve_reset store curve_id, success)
    end
  else Ret (curve_create store curve_id, success).

Definition handle_set_param (apdu : ParsedApdu) (store : ObjectStore) : res (ObjectStore * ApduResponse) :=
  let!? tlvs := apdu_parse_tlvs apdu else Ret (store, error SW_WRONG_DATA) in
  let? curve_id := opt_bind (tlv_value tlvs TAG_1) one_byte else Ret (store, error SW_WRONG_DATA) in
  let? param := opt_bind (tlv_value tlvs TAG_2) one_byte else Ret (store, error SW_WRONG_DATA) in
  if negb (existsb (Z.eqb param) [0x01; 0x02; 0x04; 0x08; 0x10]) then Ret (store, error SW_WRONG_DATA)
  else if negb (curve_exists store curve_id) then Ret (store, error SW_CONDITIONS_NOT_SATISFIED)
  else Ret (curve_add_param store curve_id param, success).

Definition handle_delete (apdu : ParsedApdu) (store : ObjectStore) : res (ObjectStore * ApduResponse) :=
  let! c := curve_id_from_tag1 apdu in
  let? curve_id := c else Ret (store, error SW_WRONG_DATA) in
  let '(store, removed) := curve_delete store curve_id in
  if removed then Ret (store, success) else Ret (store, error SW_CONDITIONS_NOT_SATISFIED).

Definition handle_list (store : ObjectStore) : ApduResponse :=
  tag1 ((fun i => if curve_exists store (Z.of_nat i) then 0x02 else 0x01)
          <$> seq 1 (Z.to_nat WEIERSTRASS_CURVE_COUNT)).
End curve.
End curve.

Module digest.
Section digest.
Context `{D : DigestCrate} {H : HexCrate} {S : Serde} {F : FileSystem Value} {I : HashIter}.

Definition compute_hash (mode : Z) (data : bytes) : option bytes :=
  if mode =? 0x01 then Some (digest Sha1 data)
  else if mode =? 0x07 then Some (digest Sha224 data)
  else if mode =? 0x04 then Some (digest Sha256 data)
  else if mode =? 0x05 then Some (digest Sha384 data)
  else if mode =? 0x06 then Some (digest Sha512 data)
  else None.

Definition hash_response (mode : Z) (data : bytes) : ApduResponse :=
  match compute_hash mode data with
  | Some hash => tag1 hash
  | None => error SW_WRONG_DATA
  end.

Definition handle_digest_oneshot (apdu : ParsedApdu) : res ApduResponse :=
  let!? tlvs := apdu_parse_tlvs apdu else Ret (error SW_WRONG_DATA) in
  let? digest_mode := tlv_first tlvs TAG_1 else Ret (error SW_WRONG_DATA) in
  let data := default [] (tlv_value tlvs TAG_2) in
  Ret (hash_response digest_mode data).

Definition handle_digest_init (apdu : ParsedApdu) (store : ObjectStore)
  : res (ObjectStore * ApduResponse) :=
  let!? tlvs := apdu_parse_tlvs apdu else Ret (store, error SW_WRONG_DATA) in
  let? crypto_id := tlv_u16 tlvs TAG_2 else Ret (store, error SW_WRONG_DATA) in
  match crypto_object_types store !! crypto_id with
  | None => Ret (store, error SW_CONDITIONS_NOT_SATISFIED)
  | Some (context, subtype) =>
      if negb (context =? 0x01) then Ret (store, error SW_CONDITIONS_NOT_SATISFIED)
      else Ret (set_crypto_objects store (<[crypto_id := Digest subtype []]> (crypto_objects store)),
                success)
  end.

Definition handle_digest_update (apdu : ParsedApdu) (store : ObjectStore)
  : res (ObjectStore * ApduResponse) :=
  let!? tlvs := apdu_parse_tlvs apdu else Ret (store, error SW_WRONG_DATA) in
  let? crypto_id := tlv_u16 tlvs TAG_2 else Ret (store, error SW_WRONG_DATA) in
  let? input := tlv_value tlvs TAG_3 else Ret (store, error SW_WRONG_DATA) in
  match crypto_objects store !! crypto_id with
  | Some (Digest algo data) =>
      Ret (set_crypto_objects store (<[crypto_id := Digest algo (data ++ input)]> (crypto_objects store)),
           success)
  | _ => Ret (store, error SW_CONDITIONS_NOT_SATISFIED)
  end.

(** The context is taken out whatever its kind. *)
Definition handle_digest_final (apdu : ParsedApdu) (store : ObjectStore)
  : res (ObjectStore * ApduResponse) :=
  let!? tlvs := apdu_parse_tlvs apdu else Ret (store, error SW_WRONG_DATA) in
  let? crypto_id := tlv_u16 tlvs TAG_2 else Ret (store, error SW_WRONG_DATA) in
  let remaining := tlv_value tlvs TAG_3 in
  match crypto_objects store !! crypto_id with
  | None => Ret (store, error SW_CONDITIONS_NOT_SATISFIED)
  | Some state =>
      let store := set_crypto_objects store (delete crypto_id (crypto_objects store)) in
      match state with
      | Digest algo data =>
          let data := match remaining with Some rem => data ++ rem | None => data end in
          Ret (store, hash_response algo data)
      | _ => Ret (store, error SW_CONDITIONS_NOT_SATISFIED)
      end
  end.
End digest.
End digest.
