(* ===== verification/Se050ObjectMgmt.v ===== *)
(** * SE050Sim: secure objects

    [handlers/object_mgmt.rs]: binary files, counters, reads, listings, attributes and
    deletion. *)

From stdpp Require Import sorting.
From S2P Require Import Prelude.
From S2P Require Import Host.
From S2P Require Import Crates.
From S2P Require Import Se050Crates.
From S2P Require Import Se050Types.
From S2P Require Import Se050Store.
From S2P Require Import Se050Handlers.

Module object_mgmt.

(** The order of [\[u8; 4\]]: lexicographic. *)
Fixpoint bytes_le (a b : bytes) : bool :=
  match a, b with
  | [], _ => true
  | _ :: _, [] => false
  | x :: a, y :: b => (x <? y) || ((x =? y) && bytes_le a b)
  end.
Definition id_le (a b : bytes) : Prop := bytes_le a b = true.
#[export] Instance id_le_dec : RelDecision id_le.
Proof. intros a b. unfold id_le. apply _. Defined.

Section object_mgmt.
Context `{R : Rng} {X : RsaCrate} {H : HexCrate} {S : Serde} {F : FileSystem Value} {I : HashIter}.

Definition extract_object_id (tlvs : list Tlv) : option bytes :=
  let? tag1 := find_tlv tlvs TAG_1 else None in
  if negb (len (value tag1) =? 4) then None else Some (value tag1).

(** What the loop of [handle_write_binary] collects. *)
Record WriteArgs := mkWriteArgs {
  wa_obj_id : option bytes;
  wa_data : option bytes;
  wa_offset : Z;
  wa_file_len : option Z;
}.

Definition write_arg (a : WriteArgs) (t : Tlv) : WriteArgs :=
  if tag t =? TAG_POLICY then a
  else if (tag t =? TAG_1) && bool_decide (wa_obj_id a = None) && (len (value t) =? 4) then
    mkWriteArgs (Some (value t)) (wa_data a) (wa_offset a) (wa_file_len a)
  else
    match (if tag t =? TAG_2 then be16 (value t) else None) with
    | Some o => mkWriteArgs (wa_obj_id a) (wa_data a) o (wa_file_len a)
    | None =>
        match (if tag t =? TAG_3 then be16 (value t) else None) with
        | Some n => mkWriteArgs (wa_obj_id a) (wa_data a) (wa_offset a) (Some n)
        | None =>
            if tag t =? TAG_4 then mkWriteArgs (wa_obj_id a) (Some (value t)) (wa_offset a) (wa_file_len a)
            else a
        end
    end.

Definition handle_write_binary (apdu : ParsedApdu) (store : ObjectStore)
  : res (ObjectStore * ApduResponse) :=
  let!? tlvs := apdu_parse_tlvs apdu else Ret (store, error SW_WRONG_DATA) in
  let a := foldl write_arg (mkWriteArgs None None 0 None) tlvs in
  let? obj_id := wa_obj_id a else Ret (store, error SW_WRONG_DATA) in
  match creation_policy tlvs with
  | Err _ => Ret (store, error SW_WRONG_DATA)
  | Ok creation_policy =>
      let object_existed := exists_ store obj_id in
      if object_existed && negb (policy_allows store obj_id POLICY_OBJ_ALLOW_WRITE)
      then Ret (store, error SW_CONDITIONS_NOT_SATISFIED)
      else
        let offset := wa_offset a in
        let write_data := default [] (wa_data a) in
        match get store obj_id with
        | Some (Binary existing) =>
            if len existing <? offset + len write_data then Ret (store, error SW_WRONG_DATA)
            else
              let! existing := copy_from_slice existing offset (offset + len write_data) write_data in
              Ret (insert store obj_id (Binary existing), success)
        | Some _ => Ret (store, error SW_CONDITIONS_NOT_SATISFIED)
        | None =>
            let size := default (len write_data) (wa_file_len a) in
            if size <? offset + len write_data then Ret (store, error SW_WRONG_DATA)
            else
              let! full := copy_from_slice (vec_repeat 0 size) offset (offset + len write_data) write_data in
              let store := insert store obj_id (Binary full) in
              Ret (set_creation_metadata store obj_id creation_policy 0x01, success)
        end
  end.

Definition U64 : Z := 18446744073709551616.

(** The value bytes shifted into a [u64]; the high ones fall off. *)
Definition be_u64 (v : bytes) : Z := foldl (fun val b => Z.lor (Z.shiftl val 8 mod U64) b) 0 v.

Definition handle_write_counter (apdu : ParsedApdu) (store : ObjectStore)
  : res (ObjectStore * ApduResponse) :=
  let!? tlvs := apdu_parse_tlvs apdu else Ret (store, error SW_WRONG_DATA) in
  let? obj_id := extract_object_id tlvs else Ret (store, error SW_WRONG_DATA) in
  match creation_policy tlvs with
  | Err _ => Ret (store, error SW_WRONG_DATA)
  | Ok creation_policy =>
      let size_tlv := tlv_u16 tlvs TAG_2 in
      let value_tlv := be_u64 <$> tlv_value tlvs TAG_3 in
      let existing :=
        match get store obj_id with
        | Some (Counter value size) => Some (Some (value, size))
        | Some _ => None
        | None => Some None
        end in
      let? existing := existing else Ret (store, error SW_CONDITIONS_NOT_SATISFIED) in
      if bool_decide (is_Some existing) && negb (policy_allows store obj_id POLICY_OBJ_ALLOW_WRITE)
      then Ret (store, error SW_CONDITIONS_NOT_SATISFIED)
      else
        match existing, size_tlv, value_tlv with
        | None, Some size, value =>
            if (size =? 0) || (8 <? size) then Ret (store, error SW_WRONG_DATA)
            else
              let store := insert store obj_id (Counter (default 0 value) size) in
              Ret (set_creation_metadata store obj_id creation_policy 0x01, success)
        | Some (_, size), _, Some value =>
            Ret (insert store obj_id (Counter value size), success)
        | Some (value, size), None, None =>
            let mask := if 8 <=? size then U64 - 1 else Z.shiftl 1 (size * 8) - 1 in
            Ret (insert store obj_id (Counter (Z.land ((value + 1) mod U64) mask) size), success)
        | Some _, Some _, None | None, _, _ => Ret (store, error SW_CONDITIONS_NOT_SATISFIED)
        end
  end.

Definition handle_write (apdu : ParsedApdu) (store : ObjectStore) : res (ObjectStore * ApduResponse) :=
  if cred_type apdu =? P1_BINARY then handle_write_binary apdu store
  else if cred_type apdu =? P1_USERID then Ret (store, error SW_CONDITIONS_NOT_SATISFIED)
  else if cred_type apdu =? P1_COUNTER then handle_write_counter apdu store
  else Ret (store, error SW_WRONG_P1P2).

(** The public key of a stored PKCS#1 key, encoded; empty when there is none. *)
Definition rsa_public_der (private_key_der : bytes) : bytes :=
  match rsa_from_pkcs1_der private_key_der with
  | Some priv_key => default [] (rsa_public_to_pkcs1_der (rsa_public_from priv_key))
  | None => []
  end.

Definition handle_read_object (apdu : ParsedApdu) (store : ObjectStore) : res ApduResponse :=
  let!? tlvs := apdu_parse_tlvs apdu else Ret (error SW_WRONG_DATA) in
  let? obj_id := extract_object_id tlvs else Ret (error SW_WRONG_DATA) in
  if negb (policy_allows store obj_id POLICY_OBJ_ALLOW_READ) then Ret (error SW_COMMAND_NOT_ALLOWED)
  else
    let offset := default 0 (tlv_u16 tlvs TAG_2) in
    let length := tlv_u16 tlvs TAG_3 in
    match get store obj_id with
    | Some (Binary data) =>
        let end_ := match length with Some l => offset + l | None => len data end in
        if (len data <=? offset) || (len data <? end_) then Ret (error SW_CONDITIONS_NOT_SATISFIED)
        else let! d := slice data offset end_ in Ret (tag1 d)
    | Some (ECKeyPair _ _ public_key) => Ret (tag1 public_key)
    | Some (ECPublicKey _ public_key) => Ret (tag1 public_key)
    | Some (RSAKeyPair _ private_key_der _) => Ret (tag1 (rsa_public_der private_key_der))
    | Some (AESKey _) => Ret (error SW_COMMAND_NOT_ALLOWED)
    | Some (UserID _) => Ret (error SW_COMMAND_NOT_ALLOWED)
    | Some (Counter value size) =>
        let be := be_bytes 8 value in
        let! d := slice be (8 - size) 8 in
        Ret (tag1 d)
    | Some (HMACKey _ _) => Ret (error SW_COMMAND_NOT_ALLOWED)
    | None => Ret (error SW_CONDITIONS_NOT_SATISFIED)
    end.

Definition handle_read_size (apdu : ParsedApdu) (store : ObjectStore) : res ApduResponse :=
  let!? tlvs := apdu_parse_tlvs apdu else Ret (error SW_WRONG_DATA) in
  let? obj_id := extract_object_id tlvs else Ret (error SW_WRONG_DATA) in
  match get store obj_id with
  | Some obj => Ret (tag1 (be_bytes 2 (as_u16 (data_size obj))))
  | None => Ret (error SW_CONDITIONS_NOT_SATISFIED)
  end.

Definition sort_ids (ids : list bytes) : list bytes := merge_sort id_le ids.

Definition id_matches (store : ObjectStore) (v7 : bool) (filter : Z) (id : bytes) : bool :=
  (filter =? 0xFF) || (filter =? 0x00) ||
  match get store id with
  | Some obj => type_code obj v7 =? filter
  | None => false
  end.

Definition handle_read_id_list (apdu : ParsedApdu) (store : ObjectStore) (v7 : bool) : res ApduResponse :=
  let!? tlvs := apdu_parse_tlvs apdu else Ret (error SW_WRONG_DATA) in
  let offset := default 0 (tlv_u16 tlvs TAG_1) in
  let filter := default 0xFF (tlv_first tlvs TAG_2) in
  let ids := sort_ids (list_ids store) in
  let id_bytes := concat (List.filter (id_matches store v7 filter) (drop (Z.to_nat offset) ids)) in
  Ret (success_with_tlvs [mkTlv TAG_1 [0x01]; mkTlv TAG_2 id_bytes]).

Definition handle_read_type (apdu : ParsedApdu) (store : ObjectStore) (v7 : bool) : res ApduResponse :=
  let!? tlvs := apdu_parse_tlvs apdu else Ret (error SW_WRONG_DATA) in
  let? obj_id := extract_object_id tlvs else Ret (error SW_WRONG_DATA) in
  match get store obj_id with
  | Some obj => Ret (success_with_tlvs [mkTlv TAG_1 [type_code obj v7]; mkTlv TAG_2 [0x01]])
  | None => Ret (error SW_CONDITIONS_NOT_SATISFIED)
  end.

Definition handle_read_attributes (apdu : ParsedApdu) (store : ObjectStore) (v7 : bool) : res ApduResponse :=
  if negb v7 then Ret (error SW_CONDITIONS_NOT_SATISFIED)
  else
    let!? tlvs := apdu_parse_tlvs apdu else Ret (error SW_WRONG_DATA) in
    let? obj_id := extract_object_id tlvs else Ret (error SW_WRONG_DATA) in
    let? object := get store obj_id else Ret (error SW_CONDITIONS_NOT_SATISFIED) in
    let attributes := obj_id ++ [type_code object true] ++ [0x01] ++ [0x00; 0x00] ++
      [0x00; 0x00; 0x00; 0x00] ++ [0x00; 0x00] in
    let attributes := attributes ++
      match get_metadata store obj_id with
      | Some m => match policy m with Some p => p | None => [] end ++ [origin m]
      | None => [0x01]
      end in
    Ret (success_with_tlvs [mkTlv TAG_3 (attributes ++ [0x00; 0x00; 0x00; 0x00])]).

Definition handle_read (apdu : ParsedApdu) (store : ObjectStore) (v7 : bool) : res ApduResponse :=
  if p2 apdu =? P2_DEFAULT then handle_read_object apdu store
  else if p2 apdu =? P2_SIZE then handle_read_size apdu store
  else if p2 apdu =? P2_LIST then handle_read_id_list apdu store v7
  else if p2 apdu =? P2_TYPE then handle_read_type apdu store v7
  else if p2 apdu =? P2_ATTRIBUTES then handle_read_attributes apdu store v7
  else Ret (error SW_WRONG_P1P2).

Definition handle_check_exists (apdu : ParsedApdu) (store : ObjectStore) : res ApduResponse :=
  let!? tlvs := apdu_parse_tlvs apdu else Ret (error SW_WRONG_DATA) in
  let? obj_id := extract_object_id tlvs else Ret (error SW_WRONG_DATA) in
  Ret (tag1 [if exists_ store obj_id then 0x01 else 0x02]).

Definition handle_delete (apdu : ParsedApdu) (store : ObjectStore) : res (ObjectStore * ApduResponse) :=
  let!? tlvs := apdu_parse_tlvs apdu else Ret (store, error SW_WRONG_DATA) in
  let? obj_id := extract_object_id tlvs else Ret (store, error SW_WRONG_DATA) in
  if negb (policy_allows store obj_id POLICY_OBJ_ALLOW_DELETE)
  then Ret (store, error SW_CONDITIONS_NOT_SATISFIED)
  else
    let '(store, removed) := remove store obj_id in
    match removed with
    | None => Ret (store, error SW_CONDITIONS_NOT_SATISFIED)
    | Some _ => Ret (store, success)
    end.

Definition handle_mgmt (apdu : ParsedApdu) (store : ObjectStore) : res (ObjectStore * ApduResponse) :=
  if p2 apdu =? P2_EXIST then
    let! resp := handle_check_exists apdu store in Ret (store, resp)
  else if p2 apdu =? P2_DELETE_OBJECT then handle_delete apdu store
  else Ret (store, error SW_WRONG_P1P2).
End object_mgmt.
End object_mgmt.
