(* ===== verification/Se050Aes.v ===== *)
(** * SE050Sim: symmetric keys, ciphers and MACs

    [handlers/aes.rs] and [handlers/mac.rs]. *)

From S2P Require Import Prelude.
From S2P Require Import Host.
From S2P Require Import Crates.
From S2P Require Import Se050Crates.
From S2P Require Import Se050Types.
From S2P Require Import Se050Store.
From S2P Require Import Se050Handlers.

(** The rest of a handler once its [TAG_POLICY] has been validated. *)
Notation "'let*' x := m 'else' e 'in' k" := (match m with Ok x => k | Err _ => e end)
  (at level 10, x binder, m at level 100, e at level 100, k at level 200) : rust_scope.

(** Bytewise exclusive or. *)
Definition xor_bytes (a b : bytes) : bytes := zip_with Z.lxor a b.

Module aes.
Definition CIPHER_MODE_CBC_NOPAD : Z := 0x0D.
Definition CIPHER_MODE_ECB_NOPAD : Z := 0x0E.
Definition CIPHER_MODE_CTR : Z := 0xF0.

Section aes.
Context `{R : Rng} {A : AesCrate} {H : HexCrate} {S : Serde} {F : FileSystem Value} {I : HashIter}.

Inductive AnyAes := A128 (c : aes_t) | A192 (c : aes_t) | A256 (c : aes_t).

Definition any_aes_new (key : bytes) : option AnyAes :=
  if len key =? 16 then A128 <$> aes_new_from_slice 16 key
  else if len key =? 24 then A192 <$> aes_new_from_slice 24 key
  else if len key =? 32 then A256 <$> aes_new_from_slice 32 key
  else None.

Definition encrypt_block (self : AnyAes) (block : bytes) : bytes :=
  match self with A128 c | A192 c | A256 c => aes_encrypt_block c block end.
Definition decrypt_block (self : AnyAes) (block : bytes) : bytes :=
  match self with A128 c | A192 c | A256 c => aes_decrypt_block c block end.

(** The loops over [data.chunks(16)]; a partial chunk makes [copy_from_slice] into
    the block panic. *)
Fixpoint ecb_chunks (cipher : AnyAes) (cs : list bytes) (encrypting : bool) : res bytes :=
  match cs with
  | [] => Ret []
  | chunk :: cs =>
      let! block := copy_from_slice (vec_repeat 0 16) 0 16 chunk in
      let block := if encrypting then encrypt_block cipher block else decrypt_block cipher block in
      let! out := ecb_chunks cipher cs encrypting in
      Ret (block ++ out)
  end.
Definition ecb_process (cipher : AnyAes) (data : bytes) (encrypting : bool) : res bytes :=
  ecb_chunks cipher (chunks 16 data) encrypting.

Fixpoint cbc_chunks (cipher : AnyAes) (chain : bytes) (cs : list bytes) (encrypting : bool)
  : res (bytes * bytes) :=
  match cs with
  | [] => Ret (chain, [])
  | chunk :: cs =>
      let! block := copy_from_slice (vec_repeat 0 16) 0 16 chunk in
      if encrypting then
        let block := encrypt_block cipher (xor_bytes block chain) in
        let! '(chain, out) := cbc_chunks cipher block cs encrypting in
        Ret (chain, block ++ out)
      else
        let pt := xor_bytes (decrypt_block cipher block) chain in
        let! '(chain, out) := cbc_chunks cipher block cs encrypting in
        Ret (chain, pt ++ out)
  end.
(** The chaining value left behind comes with the output. *)
Definition cbc_process (cipher : AnyAes) (chain data : bytes) (encrypting : bool) : res (bytes * bytes) :=
  cbc_chunks cipher chain (chunks 16 data) encrypting.

(** The big-endian increment: from the last byte up to the first that does not wrap
    to zero. *)
Fixpoint increment_rev (counter : bytes) : bytes :=
  match counter with
  | [] => []
  | b :: rest =>
      let b := as_u8 (b + 1) in
      if negb (b =? 0) then b :: rest else b :: increment_rev rest
  end.
Definition increment (counter : bytes) : bytes := reverse (increment_rev (reverse counter)).

Fixpoint ctr_chunks (cipher : AnyAes) (counter : bytes) (cs : list bytes) : bytes * bytes :=
  match cs with
  | [] => (counter, [])
  | chunk :: cs =>
      let keystream := encrypt_block cipher counter in
      let '(counter, out) := ctr_chunks cipher (increment counter) cs in
      (counter, xor_bytes chunk keystream ++ out)
  end.
Definition ctr_process (cipher : AnyAes) (counter data : bytes) : bytes * bytes :=
  ctr_chunks cipher counter (chunks 16 data).

Definition apply_mode (mode : Z) (key chain data : bytes) (encrypting is_final : bool)
  : res (bytes * Result bytes Z) :=
  let? cipher := any_aes_new key else Ret (chain, Err SW_CONDITIONS_NOT_SATISFIED) in
  if mode =? CIPHER_MODE_ECB_NOPAD then
    if negb (len data mod 16 =? 0) then Ret (chain, Err SW_CONDITIONS_NOT_SATISFIED)
    else let! out := ecb_process cipher data encrypting in Ret (chain, Ok out)
  else if mode =? CIPHER_MODE_CBC_NOPAD then
    if negb (len data mod 16 =? 0) then Ret (chain, Err SW_CONDITIONS_NOT_SATISFIED)
    else let! '(chain, out) := cbc_process cipher chain data encrypting in Ret (chain, Ok out)
  else if mode =? CIPHER_MODE_CTR then
    if negb is_final && negb (len data mod 16 =? 0) then Ret (chain, Err SW_CONDITIONS_NOT_SATISFIED)
    else let '(chain, out) := ctr_process cipher chain data in Ret (chain, Ok out)
  else Ret (chain, Err SW_WRONG_DATA).

Definition handle_write_aes_key (apdu : ParsedApdu) (store : ObjectStore) (r : rng)
  : res (ObjectStore * rng * ApduResponse) :=
  let!? tlvs := apdu_parse_tlvs apdu else Ret (store, r, error SW_WRONG_DATA) in
  let? obj_id := tlv_id tlvs TAG_1 else Ret (store, r, error SW_WRONG_DATA) in
  let* creation_policy := creation_policy tlvs else Ret (store, r, error SW_WRONG_DATA) in
  let object_existed := exists_ store obj_id in
  if object_existed && negb (policy_allows store obj_id POLICY_OBJ_ALLOW_WRITE)
  then Ret (store, r, error SW_CONDITIONS_NOT_SATISFIED)
  else
    let key_data := tlv_value tlvs TAG_3 in
    let generated := (p2 apdu =? P2_GENERATE) ||
      match key_data with Some d => len d <=? 2 | None => false end in
    let record store :=
      if negb object_existed
      then set_creation_metadata store obj_id creation_policy (if generated then 0x02 else 0x01)
      else store in
    if generated then
      let key_len := default 16 (opt_bind key_data be16) in
      let? key_len_bytes :=
        (if key_len =? 128 then Some 16
         else if key_len =? 192 then Some 24
         else if key_len =? 256 then Some 32
         else if (key_len =? 16) || (key_len =? 24) || (key_len =? 32) then Some key_len
         else None)
        else Ret (store, r, error SW_WRONG_DATA) in
      let '(key, r) := fill_bytes key_len_bytes r in
      Ret (record (insert store obj_id (AESKey key)), r, success)
    else
      let? key := key_data else Ret (store, r, error SW_WRONG_DATA) in
      if negb (len key =? 16) && negb (len key =? 24) && negb (len key =? 32)
      then Ret (store, r, error SW_WRONG_DATA)
      else Ret (record (insert store obj_id (AESKey key)), r, success).

Definition handle_write_hmac_key (apdu : ParsedApdu) (store : ObjectStore)
  : res (ObjectStore * ApduResponse) :=
  let!? tlvs := apdu_parse_tlvs apdu else Ret (store, error SW_WRONG_DATA) in
  let? obj_id := tlv_id tlvs TAG_1 else Ret (store, error SW_WRONG_DATA) in
  if bool_decide (tlv_value tlvs TAG_POLICY = Some []) then Ret (store, error SW_WRONG_DATA)
  else
    let* creation_policy := creation_policy tlvs else Ret (store, error SW_WRONG_DATA) in
    let policy := opt_bind creation_policy ar_header_union in
    let object_existed := exists_ store obj_id in
    if object_existed && negb (policy_allows store obj_id POLICY_OBJ_ALLOW_WRITE)
    then Ret (store, error SW_CONDITIONS_NOT_SATISFIED)
    else
      match tlv_value tlvs TAG_3 with
      | Some ((_ :: _) as key) =>
          let store := insert store obj_id (HMACKey key policy) in
          let store :=
            if negb object_existed then set_creation_metadata store obj_id creation_policy 0x01
            else store in
          Ret (store, success)
      | _ => Ret (store, error SW_WRONG_DATA)
      end.

(** The IV of [TAG_4]: sixteen bytes, or zeros when absent or empty. *)
Definition tlv_iv (tlvs : list Tlv) : option bytes :=
  match tlv_value tlvs TAG_4 with
  | None | Some [] => Some (vec_repeat 0 16)
  | Some iv => if len iv =? 16 then Some iv else None
  end.

Definition aes_key_of (store : ObjectStore) (key_id : bytes) : option bytes :=
  match get store key_id with Some (AESKey key) => Some key | _ => None end.

Definition mode_response (r : Result bytes Z) : ApduResponse :=
  match r with Ok out => tag1 out | Err sw => error sw end.

Definition handle_cipher_oneshot (apdu : ParsedApdu) (store : ObjectStore) (encrypting : bool)
  : res ApduResponse :=
  let!? tlvs := apdu_parse_tlvs apdu else Ret (error SW_WRONG_DATA) in
  let? key_id := tlv_id tlvs TAG_1 else Ret (error SW_WRONG_DATA) in
  let? cipher_mode := tlv_first tlvs TAG_2 else Ret (error SW_WRONG_DATA) in
  let? input := tlv_value tlvs TAG_3 else Ret (error SW_WRONG_DATA) in
  let? chain := tlv_iv tlvs else Ret (error SW_WRONG_DATA) in
  let? key_data := aes_key_of store key_id else Ret (error SW_CONDITIONS_NOT_SATISFIED) in
  let! '(_, out) := apply_mode cipher_mode key_data chain input encrypting true in
  Ret (mode_response out).

Definition handle_encrypt_oneshot (apdu : ParsedApdu) (store : ObjectStore) : res ApduResponse :=
  handle_cipher_oneshot apdu store true.
Definition handle_decrypt_oneshot (apdu : ParsedApdu) (store : ObjectStore) : res ApduResponse :=
  handle_cipher_oneshot apdu store false.

Definition handle_cipher_init (apdu : ParsedApdu) (store : ObjectStore) : res (ObjectStore * ApduResponse) :=
  let encrypting := p2 apdu =? P2_ENCRYPT_INIT in
  let!? tlvs := apdu_parse_tlvs apdu else Ret (store, error SW_WRONG_DATA) in
  let? key_id := tlv_id tlvs TAG_1 else Ret (store, error SW_WRONG_DATA) in
  let? crypto_id := tlv_u16 tlvs TAG_2 else Ret (store, error SW_WRONG_DATA) in
  let? ct := crypto_object_types store !! crypto_id else Ret (store, error SW_CONDITIONS_NOT_SATISFIED) in
  let '(context, subtype) := ct in
  if negb (context =? 0x02) then Ret (store, error SW_CONDITIONS_NOT_SATISFIED)
  else if negb (exists_ store key_id) then Ret (store, error SW_CONDITIONS_NOT_SATISFIED)
  else
    let? chain := tlv_iv tlvs else Ret (store, error SW_WRONG_DATA) in
    Ret (set_crypto_objects store
           (<[crypto_id := Cipher encrypting subtype key_id chain []]> (crypto_objects store)), success).

Definition handle_cipher_update (apdu : ParsedApdu) (store : ObjectStore) : res (ObjectStore * ApduResponse) :=
  let!? tlvs := apdu_parse_tlvs apdu else Ret (store, error SW_WRONG_DATA) in
  let? crypto_id := tlv_u16 tlvs TAG_2 else Ret (store, error SW_WRONG_DATA) in
  let? input := tlv_value tlvs TAG_3 else Ret (store, error SW_WRONG_DATA) in
  match crypto_objects store !! crypto_id with
  | Some (Cipher encrypting mode key_id chain pending) =>
      let? key := aes_key_of store key_id else Ret (store, error SW_CONDITIONS_NOT_SATISFIED) in
      let buffered := pending ++ input in
      let aligned_len := len buffered - len buffered mod 16 in
      let! aligned := slice buffered 0 aligned_len in
      let! rest := slice buffered aligned_len (len buffered) in
      let! chain_arr := copy_from_slice (vec_repeat 0 16) 0 16 chain in
      let! '(chain_arr, out) := apply_mode mode key chain_arr aligned encrypting false in
      match out with
      | Err sw => Ret (store, error sw)
      | Ok output =>
          Ret (set_crypto_objects store
                 (<[crypto_id := Cipher encrypting mode key_id chain_arr rest]> (crypto_objects store)),
               tag1 output)
      end
  | _ => Ret (store, error SW_CONDITIONS_NOT_SATISFIED)
  end.

Definition handle_cipher_final (apdu : ParsedApdu) (store : ObjectStore) : res (ObjectStore * ApduResponse) :=
  let!? tlvs := apdu_parse_tlvs apdu else Ret (store, error SW_WRONG_DATA) in
  let? crypto_id := tlv_u16 tlvs TAG_2 else Ret (store, error SW_WRONG_DATA) in
  let remaining := tlv_value tlvs TAG_3 in
  match crypto_objects store !! crypto_id with
  | None => Ret (store, error SW_CONDITIONS_NOT_SATISFIED)
  | Some state =>
      let store := set_crypto_objects store (delete crypto_id (crypto_objects store)) in
      match state with
      | Cipher encrypting mode key_id chain pending =>
          let pending := match remaining with Some rem => pending ++ rem | None => pending end in
          let? key := aes_key_of store key_id else Ret (store, error SW_CONDITIONS_NOT_SATISFIED) in
          let! chain_arr := copy_from_slice (vec_repeat 0 16) 0 16 chain in
          let! '(_, out) := apply_mode mode key chain_arr pending encrypting true in
          Ret (store, mode_response out)
      | _ => Ret (store, error SW_CONDITIONS_NOT_SATISFIED)
      end
  end.
End aes.
End aes.

Module mac.
Definition MAC_HMAC_SHA1 : Z := 0x18.
Definition MAC_HMAC_SHA256 : Z := 0x19.
Definition MAC_HMAC_SHA384 : Z := 0x1A.
Definition MAC_HMAC_SHA512 : Z := 0x1B.
Definition MAC_CMAC_AES : Z := 0x31.

Section mac.
Context `{A : AesCrate} {D : DigestCrate} {H : HexCrate} {S : Serde} {F : FileSystem Value} {I : HashIter}.

Definition hmac_compute (h : hash_alg) (key data : bytes) : bytes := simple_hmac h key data.

Definition do_cmac (n : Z) (key data : bytes) : option bytes :=
  let? mac := cmac_new_from_slice n key else None in
  Some (cmac_finalize (cmac_update mac data)).

Definition cmac_aes (key data : bytes) : option bytes :=
  if len key =? 16 then do_cmac 16 key data
  else if len key =? 24 then do_cmac 24 key data
  else if len key =? 32 then do_cmac 32 key data
  else None.

Definition compute_mac (algo : Z) (key_obj : SecureObject) (data : bytes) : Result bytes Z :=
  if (algo =? MAC_HMAC_SHA1) || (algo =? MAC_HMAC_SHA256) || (algo =? MAC_HMAC_SHA384) ||
     (algo =? MAC_HMAC_SHA512) then
    match key_obj with
    | HMACKey key _ =>
        Ok (if algo =? MAC_HMAC_SHA1 then hmac_compute Sha1 key data
            else if algo =? MAC_HMAC_SHA256 then hmac_compute Sha256 key data
            else if algo =? MAC_HMAC_SHA384 then hmac_compute Sha384 key data
            else hmac_compute Sha512 key data)
    | _ => Err SW_CONDITIONS_NOT_SATISFIED
    end
  else if algo =? MAC_CMAC_AES then
    match key_obj with
    | AESKey key =>
        match cmac_aes key data with
        | Some m => Ok m
        | None => Err SW_CONDITIONS_NOT_SATISFIED
        end
    | _ => Err SW_CONDITIONS_NOT_SATISFIED
    end
  else Err SW_WRONG_DATA.

Definition mac_response (mac : bytes) (expected : option bytes) : ApduResponse :=
  match expected with
  | None => tag1 mac
  | Some exp => tag1 [if bool_decide (exp = mac) then 0x01 else 0x02]
  end.

Definition mac_result (algo : Z) (key_obj : SecureObject) (data : bytes) (expected : option bytes)
  : ApduResponse :=
  match compute_mac algo key_obj data with
  | Ok mac => mac_response mac expected
  | Err sw => error sw
  end.

Definition handle_oneshot (apdu : ParsedApdu) (store : ObjectStore) (validate : bool) : res ApduResponse :=
  let!? tlvs := apdu_parse_tlvs apdu else Ret (error SW_WRONG_DATA) in
  let? key_id := tlv_id tlvs TAG_1 else Ret (error SW_WRONG_DATA) in
  let? algo := tlv_first tlvs TAG_2 else Ret (error SW_WRONG_DATA) in
  let data := default [] (tlv_value tlvs TAG_3) in
  let? expected :=
    (if validate then Some <$> tlv_value tlvs TAG_5 else Some None)
    else Ret (error SW_WRONG_DATA) in
  let? key_obj := get store key_id else Ret (error SW_CONDITIONS_NOT_SATISFIED) in
  Ret (mac_result algo key_obj data expected).

Definition handle_init (apdu : ParsedApdu) (store : ObjectStore) (validate : bool)
  : res (ObjectStore * ApduResponse) :=
  let!? tlvs := apdu_parse_tlvs apdu else Ret (store, error SW_WRONG_DATA) in
  let? key_id := tlv_id tlvs TAG_1 else Ret (store, error SW_WRONG_DATA) in
  let? crypto_id := tlv_u16 tlvs TAG_2 else Ret (store, error SW_WRONG_DATA) in
  let? ct := crypto_object_types store !! crypto_id else Ret (store, error SW_CONDITIONS_NOT_SATISFIED) in
  let '(context, subtype) := ct in
  if negb (context =? 0x03) then Ret (store, error SW_CONDITIONS_NOT_SATISFIED)
  else if negb (exists_ store key_id) then Ret (store, error SW_CONDITIONS_NOT_SATISFIED)
  else
    Ret (set_crypto_objects store
           (<[crypto_id := Mac subtype validate key_id []]> (crypto_objects store)), success).

Definition handle_update (apdu : ParsedApdu) (store : ObjectStore) : res (ObjectStore * ApduResponse) :=
  let!? tlvs := apdu_parse_tlvs apdu else Ret (store, error SW_WRONG_DATA) in
  let? crypto_id := tlv_u16 tlvs TAG_2 else Ret (store, error SW_WRONG_DATA) in
  let input := default [] (tlv_value tlvs TAG_1) in
  match crypto_objects store !! crypto_id with
  | Some (Mac algo validate key_id data) =>
      Ret (set_crypto_objects store
             (<[crypto_id := Mac algo validate key_id (data ++ input)]> (crypto_objects store)), success)
  | _ => Ret (store, error SW_CONDITIONS_NOT_SATISFIED)
  end.

Definition handle_final (apdu : ParsedApdu) (store : ObjectStore) : res (ObjectStore * ApduResponse) :=
  let!? tlvs := apdu_parse_tlvs apdu else Ret (store, error SW_WRONG_DATA) in
  let? crypto_id := tlv_u16 tlvs TAG_2 else Ret (store, error SW_WRONG_DATA) in
  let input := default [] (tlv_value tlvs TAG_1) in
  let expected_tlv := tlv_value tlvs TAG_5 in
  match crypto_objects store !! crypto_id with
  | None => Ret (store, error SW_CONDITIONS_NOT_SATISFIED)
  | Some state =>
      let store := set_crypto_objects store (delete crypto_id (crypto_objects store)) in
      match state with
      | Mac algo validate key_id data =>
          let data := data ++ input in
          let? expected := (if validate then Some <$> expected_tlv else Some None)
            else Ret (store, error SW_WRONG_DATA) in
          let? key_obj := get store key_id else Ret (store, error SW_CONDITIONS_NOT_SATISFIED) in
          Ret (store, mac_result algo key_obj data expected)
      | _ => Ret (store, error SW_CONDITIONS_NOT_SATISFIED)
      end
  end.
End mac.
End mac.
