(* ===== verification/Se050Rsa.v ===== *)
(** * SE050Sim: RSA

    [handlers/rsa.rs] and the ReadRSA arm of [dispatch.rs].  Big integers are
    non-negative [Z]; [OsRng] is the generator that is threaded. *)

From S2P Require Import Prelude.
From S2P Require Import Host.
From S2P Require Import Crates.
From S2P Require Import Se050Crates.
From S2P Require Import Se050Types.
From S2P Require Import Se050Store.
From S2P Require Import Se050Handlers.
From S2P Require Import Se050Aes.

Module rsa.
Definition TAG_RSA_P : Z := 0x43.
Definition TAG_RSA_Q : Z := 0x44.
Definition TAG_RSA_DP : Z := 0x45.
Definition TAG_RSA_DQ : Z := 0x46.
Definition TAG_RSA_QINV : Z := 0x47.
Definition TAG_RSA_PUB_EXP : Z := 0x48.
Definition TAG_RSA_PRIV : Z := 0x49.
Definition TAG_RSA_PUB_MOD : Z := 0x4A.

Section rsa.
Context `{R : Rng} {B : BigUintCrate} {X : RsaCrate} {H : HexCrate} {S : Serde}
  {F : FileSystem Value} {I : HashIter}.

Definition has_tlv (tlvs : list Tlv) (t : Z) : bool := bool_decide (is_Some (find_tlv tlvs t)).

Definition try_materialize (staged : RsaComponents) : option bytes :=
  let? n_bytes := rc_n staged else None in
  let? e_bytes := rc_e staged else None in
  let? d_bytes := rc_d staged else None in
  let primes := match rc_p staged, rc_q staged with
                | Some p, Some q => [from_bytes_be p; from_bytes_be q]
                | _, _ => []
                end in
  let? key := rsa_from_components (from_bytes_be n_bytes) (from_bytes_be e_bytes)
                (from_bytes_be d_bytes) primes else None in
  rsa_to_pkcs1_der key.

(** The components present in an APDU, over those staged so far. *)
Definition merge_components (tlvs : list Tlv) (staged : RsaComponents) : RsaComponents :=
  let over t old := match tlv_value tlvs t with Some v => Some v | None => old end in
  mkRsaComponents (over TAG_RSA_PUB_MOD (rc_n staged)) (over TAG_RSA_PUB_EXP (rc_e staged))
    (over TAG_RSA_PRIV (rc_d staged)) (over TAG_RSA_P (rc_p staged)) (over TAG_RSA_Q (rc_q staged))
    (over TAG_RSA_DP (rc_dp staged)) (over TAG_RSA_DQ (rc_dq staged))
    (over TAG_RSA_QINV (rc_qinv staged)).

Definition has_any_component (tlvs : list Tlv) : bool :=
  has_tlv tlvs TAG_RSA_P || has_tlv tlvs TAG_RSA_Q || has_tlv tlvs TAG_RSA_DP ||
  has_tlv tlvs TAG_RSA_DQ || has_tlv tlvs TAG_RSA_QINV || has_tlv tlvs TAG_RSA_PUB_EXP ||
  has_tlv tlvs TAG_RSA_PRIV || has_tlv tlvs TAG_RSA_PUB_MOD.

(** An import that has not produced a usable key yet goes on whatever the policy. *)
Definition creation_in_progress (apdu : ParsedApdu) (tlvs : list Tlv) (obj : option SecureObject) : bool :=
  has_any_component tlvs &&
  match obj with
  | Some (RSAKeyPair _ private_key_der staged) =>
      if negb (bool_decide (private_key_der = [])) then false
      else if key_type apdu =? P1_PUBLIC_KEY then
        bool_decide (rc_n staged = None) || bool_decide (rc_e staged = None)
      else bool_decide (rc_n staged = None) || bool_decide (rc_e staged = None) ||
           bool_decide (rc_d staged = None)
  | _ => false
  end.

(** Key generation: an APDU with a size and no component. *)
Definition rsa_keygen (store : ObjectStore) (r : rng) (version : AppletVersion) (obj_id : bytes)
    (creation_policy : option bytes) (size_bits_opt : option Z) : res (ObjectStore * rng * ApduResponse) :=
  let object_existed := exists_ store obj_id in
  let? key_size_bits := size_bits_opt else Ret (store, r, error SW_WRONG_DATA) in
  if negb (existsb (Z.eqb key_size_bits) [1024; 2048; 3072; 4096]) then Ret (store, r, error SW_WRONG_DATA)
  else if key_size_bits <? rsa_min_key_bits version
  then Ret (store, r, error SW_CONDITIONS_NOT_SATISFIED)
  else
    let '(key, r) := rsa_new key_size_bits r in
    let? private_key := key else Ret (store, r, error SW_CONDITIONS_NOT_SATISFIED) in
    let? der := rsa_to_pkcs1_der private_key else Ret (store, r, error SW_CONDITIONS_NOT_SATISFIED) in
    let store := insert store obj_id (RSAKeyPair key_size_bits der RsaComponents_default) in
    let store :=
      if negb object_existed then set_creation_metadata store obj_id creation_policy 0x02 else store in
    Ret (store, r, success).

(** The import of one APDU's components. *)
Definition rsa_import (store : ObjectStore) (tlvs : list Tlv) (obj_id : bytes)
    (creation_policy : option bytes) (size_bits_opt : option Z) : ObjectStore * ApduResponse :=
  let object_existed := exists_ store obj_id in
  let? start :=
    match get store obj_id with
    | Some (RSAKeyPair key_size_bits _ staged) => Some (key_size_bits, staged)
    | Some _ => None
    | None => Some (0, RsaComponents_default)
    end else (store, error SW_CONDITIONS_NOT_SATISFIED) in
  let '(size_bits, staged) := start in
  let size_bits := default size_bits size_bits_opt in
  let staged := merge_components tlvs staged in
  let '(private_key_der, staged) :=
    match try_materialize staged with
    | Some der => (der, RsaComponents_default)
    | None => ([], staged)
    end in
  let store := insert store obj_id (RSAKeyPair size_bits private_key_der staged) in
  let store :=
    if negb object_existed then set_creation_metadata store obj_id creation_policy 0x01 else store in
  (store, success).

Definition handle_write_rsa_key (apdu : ParsedApdu) (store : ObjectStore) (r : rng) (version : AppletVersion)
  : res (ObjectStore * rng * ApduResponse) :=
  let!? tlvs := apdu_parse_tlvs apdu else Ret (store, r, error SW_WRONG_DATA) in
  if negb (supports_rsa version) then
    let has_component :=
      existsb (fun t => (TAG_RSA_P <=? tag t) && (tag t <=? TAG_RSA_PUB_MOD)) tlvs in
    Ret (store, r, error (if has_component then SW_WRONG_DATA else SW_CONDITIONS_NOT_SATISFIED))
  else
    let has_private_component :=
      existsb (has_tlv tlvs) [TAG_RSA_P; TAG_RSA_Q; TAG_RSA_DP; TAG_RSA_DQ; TAG_RSA_QINV; TAG_RSA_PRIV] in
    let carries_whole_public_key :=
      has_tlv tlvs TAG_RSA_PUB_MOD && has_tlv tlvs TAG_RSA_PUB_EXP && negb has_private_component in
    if negb (supports_rsa_public_import version) &&
       ((key_type apdu =? P1_PUBLIC_KEY) || carries_whole_public_key)
    then Ret (store, r, error SW_WRONG_DATA)
    else
      let? obj_id := tlv_id tlvs TAG_1 else Ret (store, r, error SW_WRONG_DATA) in
      let* creation_policy := creation_policy tlvs else Ret (store, r, error SW_WRONG_DATA) in
      let object_existed := exists_ store obj_id in
      let? size_bits_opt :=
        match find_tlv tlvs TAG_2 with
        | Some t => Some <$> be16 (value t)
        | None => Some None
        end else Ret (store, r, error SW_WRONG_DATA) in
      if object_existed && negb (creation_in_progress apdu tlvs (get store obj_id)) &&
         negb (policy_allows store obj_id POLICY_OBJ_ALLOW_WRITE)
      then Ret (store, r, error SW_CONDITIONS_NOT_SATISFIED)
      else if negb (has_any_component tlvs) then
        rsa_keygen store r version obj_id creation_policy size_bits_opt
      else
        let '(store, resp) := rsa_import store tlvs obj_id creation_policy size_bits_opt in
        Ret (store, r, resp).

Definition pkcs1v15_sign (h : hash_alg) (k : rsa_private) (data : bytes) (r : rng) : res (bytes * rng) :=
  rsa_sign Pkcs1v15 h k data r.
Definition pss_sign (h : hash_alg) (k : rsa_private) (data : bytes) (r : rng) : res (bytes * rng) :=
  rsa_sign Pss h k data r.
Definition verify_with (sc : rsa_scheme) (h : hash_alg) (k : rsa_public) (data signature : bytes) : bool :=
  match rsa_signature_try_from sc signature with
  | Some sig => rsa_verify sc h k data sig
  | None => false
  end.
Definition pkcs1v15_verify (h : hash_alg) (k : rsa_public) (data signature : bytes) : bool :=
  verify_with Pkcs1v15 h k data signature.
Definition pss_verify (h : hash_alg) (k : rsa_public) (data signature : bytes) : bool :=
  verify_with Pss h k data signature.

Definition handle_rsa_sign (key_obj : SecureObject) (algo : Z) (input_data : bytes) (r : rng)
  : res (rng * ApduResponse) :=
  match key_obj with
  | RSAKeyPair _ private_key_der _ =>
      let? private_key := rsa_from_pkcs1_der private_key_der
        else Ret (r, error SW_CONDITIONS_NOT_SATISFIED) in
      let signed m := let! '(sig, r) := m in Ret (r, tag1 sig) in
      if algo =? 0x28 then signed (pkcs1v15_sign Sha256 private_key input_data r)
      else if algo =? 0x29 then signed (pkcs1v15_sign Sha384 private_key input_data r)
      else if algo =? 0x2A then signed (pkcs1v15_sign Sha512 private_key input_data r)
      else if algo =? 0x2C then signed (pss_sign Sha256 private_key input_data r)
      else if algo =? 0x2D then signed (pss_sign Sha384 private_key input_data r)
      else if algo =? 0x2E then signed (pss_sign Sha512 private_key input_data r)
      else Ret (r, error SW_WRONG_DATA)
  | _ => Ret (r, error SW_CONDITIONS_NOT_SATISFIED)
  end.

Definition public_key_from_obj (key_obj : SecureObject) : option rsa_public :=
  match key_obj with
  | RSAKeyPair _ private_key_der staged =>
      if negb (bool_decide (private_key_der = [])) then
        rsa_public_from <$> rsa_from_pkcs1_der private_key_der
      else
        let? n := rc_n staged else None in
        let? e := rc_e staged else None in
        rsa_public_new (from_bytes_be n) (from_bytes_be e)
  | _ => None
  end.

Definition handle_rsa_verify (key_obj : SecureObject) (algo : Z) (data signature : bytes) : ApduResponse :=
  let? public_key := public_key_from_obj key_obj else error SW_CONDITIONS_NOT_SATISFIED in
  let answer (ok : bool) := tag1 [if ok then 0x01 else 0x02] in
  if algo =? 0x28 then answer (pkcs1v15_verify Sha256 public_key data signature)
  else if algo =? 0x29 then answer (pkcs1v15_verify Sha384 public_key data signature)
  else if algo =? 0x2A then answer (pkcs1v15_verify Sha512 public_key data signature)
  else if algo =? 0x2C then answer (pss_verify Sha256 public_key data signature)
  else if algo =? 0x2D then answer (pss_verify Sha384 public_key data signature)
  else if algo =? 0x2E then answer (pss_verify Sha512 public_key data signature)
  else error SW_WRONG_DATA.

(** The optional result of a cipher. *)
Definition opt_response (o : option bytes) : ApduResponse :=
  match o with Some d => tag1 d | None => error SW_CONDITIONS_NOT_SATISFIED end.

Definition handle_rsa_encrypt (apdu : ParsedApdu) (store : ObjectStore) (r : rng)
  : res (rng * ApduResponse) :=
  let!? tlvs := apdu_parse_tlvs apdu else Ret (r, error SW_WRONG_DATA) in
  let? key_id := tlv_id tlvs TAG_1 else Ret (r, error SW_WRONG_DATA) in
  let? algo := tlv_first tlvs TAG_2 else Ret (r, error SW_WRONG_DATA) in
  let? plaintext := tlv_value tlvs TAG_3 else Ret (r, error SW_WRONG_DATA) in
  let? key_obj := get store key_id else Ret (r, error SW_CONDITIONS_NOT_SATISFIED) in
  let? public_key := public_key_from_obj key_obj else Ret (r, error SW_CONDITIONS_NOT_SATISFIED) in
  if algo =? 0x0A then
    let '(ct, r) := rsa_encrypt Pkcs1v15Encrypt public_key plaintext r in Ret (r, opt_response ct)
  else if algo =? 0x0F then
    let '(ct, r) := rsa_encrypt OaepSha1 public_key plaintext r in Ret (r, opt_response ct)
  else if algo =? 0x0C then
    let m := from_bytes_be plaintext in
    let n := rsa_n public_key in
    if n <=? m then Ret (r, error SW_WRONG_DATA)
    else
      let c := modpow m (rsa_e public_key) n in
      let mod_size := (big_bits n + 7) / 8 in
      let c_bytes := to_bytes_be c in
      let! padded := copy_from_slice (vec_repeat 0 mod_size) (mod_size - len c_bytes) mod_size c_bytes in
      Ret (r, opt_response (Some padded))
  else Ret (r, error SW_WRONG_DATA).

Definition handle_rsa_decrypt (apdu : ParsedApdu) (store : ObjectStore) : res ApduResponse :=
  let!? tlvs := apdu_parse_tlvs apdu else Ret (error SW_WRONG_DATA) in
  let? key_id := tlv_id tlvs TAG_1 else Ret (error SW_WRONG_DATA) in
  let? algo := tlv_first tlvs TAG_2 else Ret (error SW_WRONG_DATA) in
  let? ciphertext := tlv_value tlvs TAG_3 else Ret (error SW_WRONG_DATA) in
  let? key_obj := get store key_id else Ret (error SW_CONDITIONS_NOT_SATISFIED) in
  match key_obj with
  | RSAKeyPair _ private_key_der _ =>
      let? private_key := rsa_from_pkcs1_der private_key_der
        else Ret (error SW_CONDITIONS_NOT_SATISFIED) in
      if algo =? 0x0A then Ret (opt_response (rsa_decrypt Pkcs1v15Encrypt private_key ciphertext))
      else if algo =? 0x0F then Ret (opt_response (rsa_decrypt OaepSha1 private_key ciphertext))
      else if algo =? 0x0C then
        let c := from_bytes_be ciphertext in
        match rsa_hazmat_decrypt private_key c with
        | None => Ret (opt_response None)
        | Some m =>
            let mod_size := big_bits (rsa_n (rsa_public_from private_key)) / 8 in
            let m_bytes := to_bytes_be m in
            if len m_bytes <? mod_size then
              let! padded :=
                copy_from_slice (vec_repeat 0 mod_size) (mod_size - len m_bytes) mod_size m_bytes in
              Ret (opt_response (Some padded))
            else Ret (opt_response (Some m_bytes))
        end
      else Ret (error SW_WRONG_DATA)
  | _ => Ret (error SW_CONDITIONS_NOT_SATISFIED)
  end.

(** [dispatch.rs]: ReadRSA, the modulus or the exponent of a key pair. *)
Definition read_rsa (apdu : ParsedApdu) (store : ObjectStore) : res ApduResponse :=
  let! parsed := apdu_parse_tlvs apdu in
  let tlvs := match parsed with Ok t => t | Err _ => [] end in
  let obj_id := tlv_id tlvs TAG_1 in
  let component := default 0 (tlv_first tlvs TAG_4) in
  if match obj_id with Some id => negb (policy_allows store id POLICY_OBJ_ALLOW_READ) | None => false end
  then Ret (error SW_COMMAND_NOT_ALLOWED)
  else
    match opt_bind obj_id (get store) with
    | Some (RSAKeyPair _ private_key_der _) =>
        match rsa_from_pkcs1_der private_key_der with
        | Some priv_key =>
            let pub_key := rsa_public_from priv_key in
            if component =? 0x00 then Ret (tag1 (to_bytes_be (rsa_n pub_key)))
            else if component =? 0x01 then Ret (tag1 (to_bytes_be (rsa_e pub_key)))
            else Ret (error SW_WRONG_DATA)
        | None => Ret (error SW_CONDITIONS_NOT_SATISFIED)
        end
    | _ => Ret (error SW_CONDITIONS_NOT_SATISFIED)
    end.
End rsa.
End rsa.
