(* ===== verification/Se050Ec.v ===== *)
(** * SE050Sim: elliptic curves

    [handlers/ec.rs].  The five Weierstrass curves share one body each of signing,
    verifying, key generation and Diffie-Hellman; every function of the source is an
    instance of it, except signing on P-192, which computes the ECDSA equation. *)

From S2P Require Import Prelude.
From S2P Require Import Host.
From S2P Require Import Crates.
From S2P Require Import Se050Crates.
From S2P Require Import Se050Types.
From S2P Require Import Se050Store.
From S2P Require Import Se050Handlers.
From S2P Require Import Se050Aes.
From S2P Require Import Se050Rsa.

Module ec.
Section ec.
Context `{C : Se050Crates} {S : Serde} {F : FileSystem Value} {I : HashIter}.

Definition pad_hash (data : bytes) (scalar_len : Z) : res bytes :=
  if scalar_len <=? len data then slice data 0 scalar_len
  else copy_from_slice (vec_repeat 0 scalar_len) (scalar_len - len data) scalar_len data.

(** *** Key generation and import *)

Definition generate_keypair (c : Curve) (curve : ECCurve) (obj_id : bytes) (store : ObjectStore) (r : rng)
  : ObjectStore * rng * ApduResponse :=
  let '(sk, r) := sk_random c r in
  (insert store obj_id
     (ECKeyPair curve (sk_to_bytes c sk) (pk_to_encoded_point c (sk_public c sk))), r, success).

Definition generate_p192_keypair := generate_keypair p192 NistP192.
Definition generate_p224_keypair := generate_keypair p224 NistP224.
Definition generate_p256_keypair := generate_keypair p256 NistP256.
Definition generate_p384_keypair := generate_keypair p384 NistP384.
Definition generate_p521_keypair := generate_keypair p521 NistP521.

Definition generate_ed25519_keypair (obj_id : bytes) (store : ObjectStore) (r : rng)
  : ObjectStore * rng * ApduResponse :=
  let '(signing_key, r) := ed25519_generate r in
  (insert store obj_id (ECKeyPair Ed25519 signing_key (ed25519_public signing_key)), r, success).

Definition generate_x25519_keypair (obj_id : bytes) (store : ObjectStore) (r : rng)
  : ObjectStore * rng * ApduResponse :=
  let '(secret, r) := x25519_random r in
  let public := x25519_public_key secret in
  (insert store obj_id (ECKeyPair Curve25519 (reverse secret) (reverse public)), r, success).

(** The public key of an imported Weierstrass private key, empty when it is invalid. *)
Definition derive_public (c : Curve) (private_key_data : bytes) : res bytes :=
  let! sk := sk_from_bytes c private_key_data in
  match sk with
  | Some sk => Ret (pk_to_encoded_point c (sk_public c sk))
  | None => Ret []
  end.

Definition import_ec_key (obj_id : bytes) (curve : ECCurve) (private_key_data : bytes) (store : ObjectStore)
  : res (ObjectStore * ApduResponse) :=
  let n := len private_key_data in
  let! public_key :=
    match curve with
    | Ed25519 => if n =? 32 then Ret (ed25519_public private_key_data) else Ret []
    | NistP192 => if n =? 24 then derive_public p192 private_key_data else Ret []
    | NistP521 => if n =? 66 then derive_public p521 private_key_data else Ret []
    | NistP224 => if n =? 28 then derive_public p224 private_key_data else Ret []
    | NistP256 => if n =? 32 then derive_public p256 private_key_data else Ret []
    | NistP384 => if n =? 48 then derive_public p384 private_key_data else Ret []
    | Curve25519 =>
        if n =? 32 then Ret (reverse (x25519_public_key (reverse private_key_data))) else Ret []
    end in
  Ret (insert store obj_id (ECKeyPair curve private_key_data public_key), success).

(** The command once its TLVs are read and its guards have passed: generation, private
    import, public import. *)
Definition write_key (apdu : ParsedApdu) (tlvs : list Tlv) (curve : ECCurve) (obj_id : bytes)
    (store : ObjectStore) (r : rng) : res (ObjectStore * rng * ApduResponse) :=
  let private_key_data := tlv_value tlvs TAG_3 in
  let public_key_data :=
    match tlv_value tlvs TAG_4 with
    | Some v => Some v
    | None => match tlv_value tlvs TAG_2 with
              | Some v => if 4 <? len v then Some v else None
              | None => None
              end
    end in
  let generated := (key_type apdu =? P1_KEY_PAIR) && bool_decide (private_key_data = None) in
  if generated then
    Ret (match curve with
         | NistP192 => generate_p192_keypair obj_id store r
         | NistP224 => generate_p224_keypair obj_id store r
         | NistP256 => generate_p256_keypair obj_id store r
         | NistP384 => generate_p384_keypair obj_id store r
         | NistP521 => generate_p521_keypair obj_id store r
         | Ed25519 => generate_ed25519_keypair obj_id store r
         | Curve25519 => generate_x25519_keypair obj_id store r
         end)
  else
    match private_key_data with
    | Some priv_key =>
        let! '(store, resp) := import_ec_key obj_id curve priv_key store in Ret (store, r, resp)
    | None =>
        if key_type apdu =? P1_PUBLIC_KEY then
          Ret (insert store obj_id (ECPublicKey curve (default [] public_key_data)), r, success)
        else Ret (store, r, error SW_WRONG_DATA)
    end.

Definition handle_write_ec_key (apdu : ParsedApdu) (store : ObjectStore) (r : rng) (version : AppletVersion)
  : res (ObjectStore * rng * ApduResponse) :=
  let!? tlvs := apdu_parse_tlvs apdu else Ret (store, r, error SW_WRONG_DATA) in
  let? obj_id := tlv_id tlvs TAG_1 else Ret (store, r, error SW_WRONG_DATA) in
  let* creation_policy := creation_policy tlvs else Ret (store, r, error SW_WRONG_DATA) in
  let object_existed := exists_ store obj_id in
  if object_existed && negb (policy_allows store obj_id POLICY_OBJ_ALLOW_WRITE)
  then Ret (store, r, error SW_CONDITIONS_NOT_SATISFIED)
  else
    let? curve_byte := tlv_first tlvs TAG_2 else Ret (store, r, error SW_WRONG_DATA) in
    let? curve := from_se050_byte curve_byte else Ret (store, r, error SW_WRONG_DATA) in
    if negb (needs_curve_object curve) && negb (supports_25519 version)
    then Ret (store, r, error SW_CONDITIONS_NOT_SATISFIED)
    else if needs_curve_object curve && negb (curve_ready store curve_byte)
    then Ret (store, r, error SW_CONDITIONS_NOT_SATISFIED)
    else
      let! '(store, r, response) := write_key apdu tlvs curve obj_id store r in
      let generated := (key_type apdu =? P1_KEY_PAIR) && bool_decide (tlv_value tlvs TAG_3 = None) in
      let store :=
        if (sw response =? SW_NO_ERROR) && negb object_existed
        then set_creation_metadata store obj_id creation_policy (if generated then 0x02 else 0x01)
        else store in
      Ret (store, r, response).

(** *** Signatures *)

Definition ecdsa_algo_digest_len (algo : Z) : option Z :=
  if algo =? 0x11 then Some 20
  else if algo =? 0x25 then Some 28
  else if algo =? 0x21 then Some 32
  else if algo =? 0x22 then Some 48
  else if algo =? 0x26 then Some 64
  else None.

Definition check_ecdsa_algo (algo input_len scalar_len : Z) : option ApduResponse :=
  match ecdsa_algo_digest_len algo with
  | Some dlen => if input_len =? dlen then None else Some (error SW_CONDITIONS_NOT_SATISFIED)
  | None =>
      if algo =? 0x09 then
        if input_len =? scalar_len then None else Some (error SW_CONDITIONS_NOT_SATISFIED)
      else Some (error SW_WRONG_DATA)
  end.

(** The signing loop of P-192; [i] attempts are left. *)
Fixpoint p192_sign_loop (i : nat) (d e : scalar_t) (r : rng) : rng * ApduResponse :=
  match i with
  | O => (r, error SW_CONDITIONS_NOT_SATISFIED)
  | Datatypes.S i =>
      let '(k, r) := scalar_random r in
      let? k_inv := scalar_invert k else p192_sign_loop i d e r in
      let rx := reduce_bytes (generator_times_x k) in
      if scalar_is_zero rx then p192_sign_loop i d e r
      else
        let s := scalar_times k_inv (scalar_plus e (scalar_times rx d)) in
        if scalar_is_zero s then p192_sign_loop i d e r
        else
          let? sig := sig_from_scalars rx s else p192_sign_loop i d e r in
          (r, tag1 (sig_to_der p192 sig))
  end.

Definition p192_sign (private_key data : bytes) (r : rng) : res (rng * ApduResponse) :=
  let! sk := sk_from_bytes p192 private_key in
  let? sk := sk else Ret (r, error SW_CONDITIONS_NOT_SATISFIED) in
  let d := to_nonzero_scalar sk in
  let! hash := pad_hash data 24 in
  let e := reduce_bytes hash in
  Ret (p192_sign_loop 64 d e r).

Definition ecdsa_sign (c : Curve) (n : Z) (private_key data : bytes) : res ApduResponse :=
  let! sk := sk_from_bytes c private_key in
  let? sk := sk else Ret (error SW_CONDITIONS_NOT_SATISFIED) in
  let! hash := pad_hash data n in
  let? sig := sign_prehash c sk hash else Ret (error SW_CONDITIONS_NOT_SATISFIED) in
  Ret (tag1 (sig_to_der c sig)).

Definition p224_sign := ecdsa_sign p224 28.
Definition p256_sign := ecdsa_sign p256 32.
Definition p384_sign := ecdsa_sign p384 48.
Definition p521_sign := ecdsa_sign p521 66.

(** Verification with a raw public key. *)
Definition verify_pubkey (c : Curve) (n : Z) (public_key data sig_data : bytes) : res bool :=
  let? vk := pk_from_sec1_bytes c public_key else Ret false in
  let? sig := sig_from_der c sig_data else Ret false in
  let! hash := pad_hash data n in
  Ret (verify_prehash c vk hash sig).

Definition p192_verify_pubkey := verify_pubkey p192 24.
Definition p224_verify_pubkey := verify_pubkey p224 28.
Definition p256_verify_pubkey := verify_pubkey p256 32.
Definition p384_verify_pubkey := verify_pubkey p384 48.
Definition p521_verify_pubkey := verify_pubkey p521 66.

(** Verification with a private key. *)
Definition ecdsa_verify (c : Curve) (n : Z) (private_key data sig_data : bytes) : res bool :=
  let! sk := sk_from_bytes c private_key in
  let? sk := sk else Ret false in
  let vk := sk_public c sk in
  let? sig := sig_from_der c sig_data else Ret false in
  let! hash := pad_hash data n in
  Ret (verify_prehash c vk hash sig).

Definition p192_verify (private_key data sig_data : bytes) : res bool :=
  let! sk := sk_from_bytes p192 private_key in
  let? sk := sk else Ret false in
  let pub_point := pk_to_encoded_point p192 (sk_public p192 sk) in
  p192_verify_pubkey pub_point data sig_data.
Definition p224_verify := ecdsa_verify p224 28.
Definition p256_verify := ecdsa_verify p256 32.
Definition p384_verify := ecdsa_verify p384 48.
Definition p521_verify := ecdsa_verify p521 66.

(** The two halves of an Ed25519 signature, each reversed. *)
Definition reverse_halves (sig : bytes) : bytes := reverse (sub sig 0 32) ++ reverse (sub sig 32 64).

Definition ed25519_sign_object (private_key input_data : bytes) : ApduResponse :=
  if negb (len private_key =? 32) then error SW_CONDITIONS_NOT_SATISFIED
  else tag1 (reverse_halves (ed25519_sign private_key input_data)).

Definition handle_sign (apdu : ParsedApdu) (store : ObjectStore) (r : rng) : res (rng * ApduResponse) :=
  let!? tlvs := apdu_parse_tlvs apdu else Ret (r, error SW_WRONG_DATA) in
  let? key_id := tlv_id tlvs TAG_1 else Ret (r, error SW_WRONG_DATA) in
  let? algo := tlv_first tlvs TAG_2 else Ret (r, error SW_WRONG_DATA) in
  let input_data := default [] (tlv_value tlvs TAG_3) in
  let? key_obj := get store key_id else Ret (r, error SW_CONDITIONS_NOT_SATISFIED) in
  let refused :=
    match key_obj with
    | ECKeyPair curve _ _ =>
        if needs_curve_object curve then check_ecdsa_algo algo (len input_data) (scalar_len curve)
        else None
    | _ => None
    end in
  match refused with
  | Some err => Ret (r, err)
  | None =>
      let plain m := let! resp := m in Ret (r, resp) in
      match key_obj with
      | ECKeyPair NistP192 private_key _ => p192_sign private_key input_data r
      | ECKeyPair NistP224 private_key _ => plain (p224_sign private_key input_data)
      | ECKeyPair NistP256 private_key _ => plain (p256_sign private_key input_data)
      | ECKeyPair NistP384 private_key _ => plain (p384_sign private_key input_data)
      | ECKeyPair NistP521 private_key _ => plain (p521_sign private_key input_data)
      | ECKeyPair Ed25519 private_key _ => Ret (r, ed25519_sign_object private_key input_data)
      | RSAKeyPair _ _ _ => rsa.handle_rsa_sign key_obj algo input_data r
      | _ => Ret (r, error SW_CONDITIONS_NOT_SATISFIED)
      end
  end.

Definition ed25519_verify_object (public_key input_data sig_data : bytes) : bool :=
  if negb (len public_key =? 32) || negb (len sig_data =? 64) then false
  else
    let? verifying_key := ed25519_vk_from_bytes public_key else false in
    ed25519_verify verifying_key input_data (reverse_halves sig_data).

Definition handle_verify (apdu : ParsedApdu) (store : ObjectStore) : res ApduResponse :=
  let!? tlvs := apdu_parse_tlvs apdu else Ret (error SW_WRONG_DATA) in
  let? key_id := tlv_id tlvs TAG_1 else Ret (error SW_WRONG_DATA) in
  let? algo := tlv_first tlvs TAG_2 else Ret (error SW_WRONG_DATA) in
  let tag3_entries := find_tlvs tlvs TAG_3 in
  let input_data := match head tag3_entries with Some t => value t | None => [] end in
  let? sig_data :=
    match tlv_value tlvs TAG_5 with
    | Some v => Some v
    | None => value <$> (tag3_entries !! 1%nat)
    end else Ret (error SW_WRONG_DATA) in
  let? key_obj := get store key_id else Ret (error SW_CONDITIONS_NOT_SATISFIED) in
  let wcurve :=
    match key_obj with
    | ECKeyPair curve _ _ | ECPublicKey curve _ => Some curve
    | _ => None
    end in
  let refused :=
    match wcurve with
    | Some curve =>
        if needs_curve_object curve then check_ecdsa_algo algo (len input_data) (scalar_len curve)
        else None
    | None => None
    end in
  match refused with
  | Some err => Ret err
  | None =>
      let answer m := let! result := m in Ret (tag1 [if result : bool then 0x01 else 0x02]) in
      match key_obj with
      | ECKeyPair NistP192 private_key _ => answer (p192_verify private_key input_data sig_data)
      | ECKeyPair NistP224 private_key _ => answer (p224_verify private_key input_data sig_data)
      | ECKeyPair NistP256 private_key _ => answer (p256_verify private_key input_data sig_data)
      | ECKeyPair NistP384 private_key _ => answer (p384_verify private_key input_data sig_data)
      | ECKeyPair NistP521 private_key _ => answer (p521_verify private_key input_data sig_data)
      | ECPublicKey NistP192 public_key => answer (p192_verify_pubkey public_key input_data sig_data)
      | ECPublicKey NistP224 public_key => answer (p224_verify_pubkey public_key input_data sig_data)
      | ECPublicKey NistP256 public_key => answer (p256_verify_pubkey public_key input_data sig_data)
      | ECPublicKey NistP384 public_key => answer (p384_verify_pubkey public_key input_data sig_data)
      | ECPublicKey NistP521 public_key => answer (p521_verify_pubkey public_key input_data sig_data)
      | ECKeyPair Ed25519 _ public_key => answer (Ret (ed25519_verify_object public_key input_data sig_data))
      | RSAKeyPair _ _ _ => Ret (rsa.handle_rsa_verify key_obj algo input_data sig_data)
      | _ => Ret (error SW_CONDITIONS_NOT_SATISFIED)
      end
  end.

(** *** Diffie-Hellman *)

Definition strict_ecdh_from_env (e : Env) : bool := bool_decide (env_strict_ecdh e = Some [49]).

Definition ecdh (c : Curve) (private_key peer_pubkey : bytes) : res (option bytes) :=
  let! sk := sk_from_bytes c private_key in
  let? sk := sk else Ret None in
  let? peer_pk := pk_from_sec1_bytes c peer_pubkey else Ret None in
  Ret (Some (diffie_hellman c sk peer_pk)).

Definition p192_ecdh := ecdh p192.
Definition p224_ecdh := ecdh p224.
Definition p256_ecdh := ecdh p256.
Definition p384_ecdh := ecdh p384.
Definition p521_ecdh := ecdh p521.

Definition x25519_ecdh (private_key peer_pubkey : bytes) : option bytes :=
  if negb (len private_key =? 32) || negb (len peer_pubkey =? 32) then None
  else Some (x25519_diffie_hellman (reverse private_key) (reverse peer_pubkey)).

(** The shared secret for a key object; [None] outside for an object without one. *)
Definition object_ecdh (key_obj : SecureObject) (peer_pubkey : bytes) : option (res (option bytes)) :=
  match key_obj with
  | ECKeyPair NistP192 private_key _ => Some (p192_ecdh private_key peer_pubkey)
  | ECKeyPair NistP224 private_key _ => Some (p224_ecdh private_key peer_pubkey)
  | ECKeyPair NistP256 private_key _ => Some (p256_ecdh private_key peer_pubkey)
  | ECKeyPair NistP384 private_key _ => Some (p384_ecdh private_key peer_pubkey)
  | ECKeyPair NistP521 private_key _ => Some (p521_ecdh private_key peer_pubkey)
  | ECKeyPair Curve25519 private_key _ => Some (Ret (x25519_ecdh private_key peer_pubkey))
  | _ => None
  end.

Definition is_mont (key_obj : SecureObject) : bool :=
  match key_obj with ECKeyPair Curve25519 _ _ => true | _ => false end.

Definition handle_ecdh (apdu : ParsedApdu) (store : ObjectStore) (strict : bool)
  : res (ObjectStore * ApduResponse) :=
  let!? tlvs := apdu_parse_tlvs apdu else Ret (store, error SW_WRONG_DATA) in
  let? key_id := tlv_id tlvs TAG_1 else Ret (store, error SW_WRONG_DATA) in
  let? peer_pubkey :=
    match tlv_value tlvs TAG_2 with Some ((_ :: _) as v) => Some v | _ => None end
    else Ret (store, error SW_WRONG_DATA) in
  let? output_id :=
    match find_tlv tlvs TAG_7 with
    | Some t => if len (value t) =? 4 then Some (Some (value t)) else None
    | None => Some None
    end else Ret (store, error SW_WRONG_DATA) in
  let? key_obj := get store key_id else Ret (store, error SW_CONDITIONS_NOT_SATISFIED) in
  let? target :=
    match output_id with
    | Some oid =>
        match get store oid with
        | Some (HMACKey key policy) => Some (Some (len key, policy))
        | _ => if strict then None else Some None
        end
    | None => Some None
    end else Ret (store, error SW_CONDITIONS_NOT_SATISFIED) in
  let? shared := object_ecdh key_obj peer_pubkey else Ret (store, error SW_CONDITIONS_NOT_SATISFIED) in
  let! shared_secret := shared in
  let? secret := shared_secret else Ret (store, error SW_CONDITIONS_NOT_SATISFIED) in
  match output_id with
  | None => Ret (store, tag1 (if is_mont key_obj then reverse secret else secret))
  | Some oid =>
      match target with
      | Some (n, policy) =>
          if negb (len secret =? n) then Ret (store, error SW_CONDITIONS_NOT_SATISFIED)
          else Ret (insert store oid (HMACKey secret policy), success)
      | None => Ret (insert store oid (Binary secret), success)
      end
  end.
End ec.
End ec.
