(* ===== verification/Se050Dispatch.v ===== *)
(** * SE050Sim: the dispatcher

    [dispatch.rs]: a parsed APDU is routed by class, instruction, credential type and
    P2.  The environment variables are read anew for every command. *)

From S2P Require Import Prelude.
From S2P Require Import Host.
From S2P Require Import Crates.
From S2P Require Import Se050Crates.
From S2P Require Import Se050Types.
From S2P Require Import Se050Store.
From S2P Require Import Se050Handlers.
From S2P Require Import Se050ObjectMgmt.
From S2P Require Import Se050Aes.
From S2P Require Import Se050Rsa.
From S2P Require Import Se050Ec.

Section dispatch.
Context `{C : Se050Crates} {S : Serde} {F : FileSystem Value} {I : HashIter}.

(** The shapes of handlers, brought to one. *)
Definition answer (store : ObjectStore) (r : rng) (m : res ApduResponse)
  : res (ObjectStore * rng * ApduResponse) := let! resp := m in Ret (store, r, resp).
Definition with_store (r : rng) (m : res (ObjectStore * ApduResponse))
  : res (ObjectStore * rng * ApduResponse) := let! '(store, resp) := m in Ret (store, r, resp).
Definition with_rng (store : ObjectStore) (m : res (rng * ApduResponse))
  : res (ObjectStore * rng * ApduResponse) := let! '(r, resp) := m in Ret (store, r, resp).

Definition dispatch_write (version : AppletVersion) (apdu : ParsedApdu) (store : ObjectStore) (r : rng)
  : res (ObjectStore * rng * ApduResponse) :=
  let cred := cred_type apdu in
  if cred =? P1_EC then ec.handle_write_ec_key apdu store r version
  else if cred =? P1_RSA then rsa.handle_write_rsa_key apdu store r version
  else if cred =? P1_AES then aes.handle_write_aes_key apdu store r
  else if cred =? P1_HMAC then with_store r (aes.handle_write_hmac_key apdu store)
  else if cred =? P1_CRYPTO_OBJ then with_store r (crypto_obj.handle_create apdu store)
  else if cred =? P1_CURVE then
    if p2 apdu =? P2_CREATE then with_store r (curve.handle_create apdu store version)
    else if p2 apdu =? P2_PARAM then with_store r (curve.handle_set_param apdu store)
    else Ret (store, r, error SW_WRONG_P1P2)
  else if (cred =? P1_BINARY) || (cred =? P1_USERID) || (cred =? P1_COUNTER) then
    with_store r (object_mgmt.handle_write apdu store)
  else Ret (store, r, error SW_WRONG_P1P2).

Definition has_tag4 (apdu : ParsedApdu) : res bool :=
  let! parsed := apdu_parse_tlvs apdu in
  Ret match parsed with Ok tlvs => bool_decide (is_Some (find_tlv tlvs TAG_4)) | Err _ => false end.

(** EC_CurveGetId. *)
Definition curve_get_id (apdu : ParsedApdu) (store : ObjectStore) : res ApduResponse :=
  let! parsed := apdu_parse_tlvs apdu in
  let tlvs := match parsed with Ok t => t | Err _ => [] end in
  match opt_bind (tlv_id tlvs TAG_1) (get store) with
  | Some obj =>
      match curve_id obj with
      | Some cid => Ret (tag1 [cid])
      | None => Ret (error SW_CONDITIONS_NOT_SATISFIED)
      end
  | None => Ret (error SW_CONDITIONS_NOT_SATISFIED)
  end.

Definition dispatch_read (v7 : bool) (apdu : ParsedApdu) (store : ObjectStore) : res ApduResponse :=
  let cred := cred_type apdu in
  let! is_rsa_read :=
    (if (cred =? P1_DEFAULT) && (p2 apdu =? P2_DEFAULT) then has_tag4 apdu else Ret false) in
  if is_rsa_read then rsa.read_rsa apdu store
  else if cred =? P1_CRYPTO_OBJ then Ret (crypto_obj.handle_list store)
  else if (cred =? P1_CURVE) && (p2 apdu =? P2_ID) then curve_get_id apdu store
  else if (cred =? P1_CURVE) && (p2 apdu =? P2_LIST) then Ret (curve.handle_list store)
  else if cred =? P1_CURVE then Ret (error SW_WRONG_P1P2)
  else object_mgmt.handle_read apdu store v7.

Definition dispatch_crypto (strict : bool) (apdu : ParsedApdu) (store : ObjectStore) (r : rng)
  : res (ObjectStore * rng * ApduResponse) :=
  let op c p := (cred_type apdu =? c) && (p2 apdu =? p) in
  if op P1_SIGNATURE P2_SIGN then with_rng store (ec.handle_sign apdu store r)
  else if op P1_SIGNATURE P2_VERIFY then answer store r (ec.handle_verify apdu store)
  else if op P1_EC P2_DH || op P1_EC 0x59 then with_store r (ec.handle_ecdh apdu store strict)
  else if op P1_CIPHER P2_ENCRYPT_ONESHOT then answer store r (aes.handle_encrypt_oneshot apdu store)
  else if op P1_CIPHER P2_DECRYPT_ONESHOT then answer store r (aes.handle_decrypt_oneshot apdu store)
  else if op P1_CIPHER P2_ENCRYPT_INIT || op P1_CIPHER P2_DECRYPT_INIT then
    with_store r (aes.handle_cipher_init apdu store)
  else if op P1_CIPHER P2_UPDATE then with_store r (aes.handle_cipher_update apdu store)
  else if op P1_CIPHER P2_FINAL then with_store r (aes.handle_cipher_final apdu store)
  else if op P1_RSA P2_ENCRYPT_ONESHOT then with_rng store (rsa.handle_rsa_encrypt apdu store r)
  else if op P1_RSA P2_DECRYPT_ONESHOT then answer store r (rsa.handle_rsa_decrypt apdu store)
  else if op P1_DEFAULT P2_ONESHOT then answer store r (digest.handle_digest_oneshot apdu)
  else if op P1_DEFAULT P2_INIT then with_store r (digest.handle_digest_init apdu store)
  else if op P1_DEFAULT P2_UPDATE then with_store r (digest.handle_digest_update apdu store)
  else if op P1_DEFAULT P2_FINAL then with_store r (digest.handle_digest_final apdu store)
  else if op P1_MAC P2_GENERATE_ONESHOT then answer store r (mac.handle_oneshot apdu store false)
  else if op P1_MAC P2_VALIDATE_ONESHOT then answer store r (mac.handle_oneshot apdu store true)
  else if op P1_MAC P2_GENERATE then with_store r (mac.handle_init apdu store false)
  else if op P1_MAC P2_MAC_VALIDATE then with_store r (mac.handle_init apdu store true)
  else if op P1_MAC P2_UPDATE then with_store r (mac.handle_update apdu store)
  else if op P1_MAC P2_FINAL then with_store r (mac.handle_final apdu store)
  else Ret (store, r, error SW_WRONG_P1P2).

Definition dispatch_mgmt (version : AppletVersion) (scp_active : bool) (apdu : ParsedApdu)
    (store : ObjectStore) (r : rng) : res (ObjectStore * rng * ApduResponse) :=
  let cred := cred_type apdu in
  let p := p2 apdu in
  if (cred =? P1_CRYPTO_OBJ) && (p =? P2_DELETE_OBJECT) then
    with_store r (crypto_obj.handle_delete apdu store)
  else if (cred =? P1_CURVE) && (p =? P2_DELETE_OBJECT) then
    with_store r (curve.handle_delete apdu store)
  else if (p =? P2_VERSION) || (p =? P2_MEMORY) || (p =? P2_RANDOM) || (p =? P2_DELETE_ALL) then
    management.handle apdu store r version
  else if p =? P2_SCP then with_store r (management.handle_set_platform_scp apdu store scp_active)
  else if (p =? P2_EXIST) || (p =? P2_DELETE_OBJECT) then
    with_store r (object_mgmt.handle_mgmt apdu store)
  else Ret (store, r, error SW_WRONG_P1P2).

Definition dispatch (e : Env) (apdu : ParsedApdu) (store : ObjectStore) (r : rng) (scp_active : bool)
  : res (ObjectStore * rng * ApduResponse) :=
  let version := applet_from_env e in
  let v7 := is_v7 version in
  if (cla apdu =? 0x00) && (ins apdu =? 0xA4) then
    Ret (store, r, session.handle_select apdu version)
  else if negb (cla apdu =? 0x80) && negb (cla apdu =? 0x84) then
    Ret (store, r, error SW_INS_NOT_SUPPORTED)
  else
    let base := base_ins apdu in
    if base =? INS_WRITE then dispatch_write version apdu store r
    else if base =? INS_READ then answer store r (dispatch_read v7 apdu store)
    else if base =? INS_CRYPTO then dispatch_crypto (ec.strict_ecdh_from_env e) apdu store r
    else if base =? INS_MGMT then dispatch_mgmt version scp_active apdu store r
    else Ret (store, r, error SW_INS_NOT_SUPPORTED).
End dispatch.
