(* ===== verification/Se050Scp03.v ===== *)
(** * SE050Sim: the SCP03 secure channel

    [scp03/crypto.rs] (module [crypto]), PUT KEY of [scp03/keys.rs] (module [keys])
    and the session state machine of [scp03/mod.rs]. *)

From S2P Require Import Prelude.
From S2P Require Import Host.
From S2P Require Import Crates.
From S2P Require Import Se050Crates.
From S2P Require Import Se050Types.
From S2P Require Import Se050Store.
From S2P Require Import Se050Handlers.
From S2P Require Import Se050Aes.

Module crypto.
Definition DDC_CARD_CRYPTOGRAM : Z := 0x00.
Definition DDC_HOST_CRYPTOGRAM : Z := 0x01.
Definition DDC_S_ENC : Z := 0x04.
Definition DDC_S_MAC : Z := 0x06.
Definition DDC_S_RMAC : Z := 0x07.

Section crypto.
Context `{A : AesCrate}.

(** One block of the input of the KDF. *)
Definition kdf_block (dc i : Z) (context : bytes) (out_bits : Z) : bytes :=
  vec_repeat 0 11 ++ [dc] ++ [0x00] ++ be_bytes 2 out_bits ++ [i] ++ context.

(** The loop: the counter is a [u8], so it can run at most 255 times. *)
Fixpoint kdf_loop (fuel : nat) (key : bytes) (dc : Z) (context : bytes) (out_bits need i : Z) (out : bytes)
  : option bytes :=
  if need <=? len out then Some (sub out 0 need)
  else
    match fuel with
    | O => None
    | S fuel =>
        let? mac := mac.cmac_aes key (kdf_block dc i context out_bits) else None in
        if 255 <? i + 1 then None
        else kdf_loop fuel key dc context out_bits need (i + 1) (out ++ mac)
    end.

Definition kdf (key : bytes) (dc : Z) (context : bytes) (out_bits : Z) : option bytes :=
  kdf_loop 256 key dc context out_bits ((out_bits + 7) / 8) 1 [].

(** The context: host challenge, then card challenge. *)
Definition challenges (host_ch card_ch : bytes) : res bytes :=
  let! ctx := copy_from_slice (vec_repeat 0 16) 0 8 host_ch in
  copy_from_slice ctx 8 16 card_ch.

Definition derive_session_keys (enc mac host_ch card_ch : bytes)
  : res (option (bytes * bytes * bytes)) :=
  let! ctx := challenges host_ch card_ch in
  let bits := as_u16 (len enc * 8) in
  let? s_enc := kdf enc DDC_S_ENC ctx bits else Ret None in
  let mbits := as_u16 (len mac * 8) in
  let? s_mac := kdf mac DDC_S_MAC ctx mbits else Ret None in
  let? s_rmac := kdf mac DDC_S_RMAC ctx mbits else Ret None in
  Ret (Some (s_enc, s_mac, s_rmac)).

Definition cryptogram (s_mac host_ch card_ch : bytes) (dc : Z) : res (option bytes) :=
  let! ctx := challenges host_ch card_ch in
  let? full := kdf s_mac dc ctx 64 else Ret None in
  let! first := slice full 0 8 in
  let! out := copy_from_slice (vec_repeat 0 8) 0 8 first in
  Ret (Some out).

Definition cmac_chain (key mcv data : bytes) : res (option bytes) :=
  let? full := mac.cmac_aes key (mcv ++ data) else Ret None in
  let! first := slice full 0 16 in
  let! out := copy_from_slice (vec_repeat 0 16) 0 16 first in
  Ret (Some out).

Definition counter_icv (s_enc : bytes) (counter : Z) (response : bool) : res (option bytes) :=
  let? cipher := aes.any_aes_new s_enc else Ret None in
  let! block := copy_from_slice (vec_repeat 0 16) 12 16 (be_bytes 4 counter) in
  let! block :=
    (if response then let! b0 := idx block 0 in set_idx block 0 (Z.lor b0 0x80) else Ret block) in
  Ret (Some (aes.encrypt_block cipher block)).

Definition cbc_crypt (key icv data : bytes) (encrypting : bool) : res (option bytes) :=
  let? cipher := aes.any_aes_new key else Ret None in
  let! '(_, out) := aes.cbc_process cipher icv data encrypting in
  Ret (Some out).

(** [0x80], then zeros up to the next multiple of 16. *)
Definition pad_m2 (data : bytes) : bytes :=
  let out := data ++ [0x80] in
  out ++ vec_repeat 0x00 (- len out mod 16).

(** From the end: skip zeros, stop at [0x80]. *)
Fixpoint unpad_rev (rdata : bytes) : option bytes :=
  match rdata with
  | [] => None
  | b :: rest =>
      if b =? 0x00 then unpad_rev rest
      else if b =? 0x80 then Some (reverse rest)
      else None
  end.
Definition unpad_m2 (data : bytes) : option bytes := unpad_rev (reverse data).
End crypto.
End crypto.

Module keys.
Section keys.
Context `{A : AesCrate}.
Definition KEY_BLOCK_LEN : Z := 23.
Definition EXPECTED_LEN : Z := 1 + 3 * KEY_BLOCK_LEN.

(** One of the three key blocks: the key and the first bytes of its check value. *)
Definition put_key_block (cipher : aes.AnyAes) (data : bytes) (index : Z) : res (Result (bytes * bytes) Z) :=
  let! block := slice data (1 + index * KEY_BLOCK_LEN) (1 + (index + 1) * KEY_BLOCK_LEN) in
  let! b0 := idx block 0 in
  let! b1 := idx block 1 in
  let! b2 := idx block 2 in
  let! b19 := idx block 19 in
  if negb (b0 =? 0x88) || negb (b1 =? 0x11) || negb (b2 =? 0x10) || negb (b19 =? 0x03)
  then Ret (Err 0x6A80)
  else
    let! wrapped := slice block 3 19 in
    let! key := copy_from_slice (vec_repeat 0 16) 0 16 wrapped in
    let key := aes.decrypt_block cipher key in
    let? key_cipher := aes.any_aes_new key else Ret (Err 0x6A80) in
    let check := aes.encrypt_block key_cipher (vec_repeat 1 16) in
    let! check := slice check 0 3 in
    let! sent := slice block 20 23 in
    if negb (bool_decide (check = sent)) then Ret (Err 0x6A80)
    else Ret (Ok (key, check)).

Definition put_keys (current : Scp03Config) (p1 p2 : Z) (data : bytes)
  : res (Result (Scp03Config * bytes) Z) :=
  if negb (p1 =? kvn current) || negb (p2 =? 0x81) then Ret (Err 0x6A86)
  else if negb (len data =? EXPECTED_LEN) then Ret (Err 0x6700)
  else
    let? cipher := aes.any_aes_new (cfg_dek current) else Ret (Err 0x6985) in
    let! new_kvn := idx data 0 in
    let! k0 := put_key_block cipher data 0 in
    match k0 with
    | Err e => Ret (Err e)
    | Ok (enc, c0) =>
        let! k1 := put_key_block cipher data 1 in
        match k1 with
        | Err e => Ret (Err e)
        | Ok (mac, c1) =>
            let! k2 := put_key_block cipher data 2 in
            match k2 with
            | Err e => Ret (Err e)
            | Ok (dek, c2) => Ret (Ok (mkScp03Config new_kvn enc mac dek, [new_kvn] ++ c0 ++ c1 ++ c2))
            end
        end
    end.
End keys.
End keys.

Definition LEVEL_CMAC : Z := 0x01.
Definition LEVEL_CDEC : Z := 0x02.
Definition LEVEL_RMAC : Z := 0x10.
Definition LEVEL_RENC : Z := 0x20.
Definition SUPPORTED_LEVELS : list Z := [0x01; 0x03; 0x11; 0x33].
Definition SW_WRONG_LENGTH : Z := 0x6700.

Record Pending := mkPending {
  p_host_challenge : bytes;
  p_card_challenge : bytes;
  p_s_enc : bytes;
  p_s_mac : bytes;
  p_s_rmac : bytes;
  p_legacy : bool;
}.

Record Session := mkSession {
  s_enc : bytes;
  s_mac : bytes;
  s_rmac : bytes;
  security_level : Z;
  mcv : bytes;
  cmd_counter : Z;
  last_cmd_len : Z;
  legacy : bool;
}.

Inductive Scp03State := Idle | PendingState (p : Pending) | Active (s : Session).

Definition is_pending (self : Scp03State) : bool := match self with PendingState _ => true | _ => false end.
Definition is_active (self : Scp03State) : bool := match self with Active _ => true | _ => false end.

Definition set_mcv (s : Session) (m : bytes) : Session :=
  mkSession (s_enc s) (s_mac s) (s_rmac s) (security_level s) m (cmd_counter s) (last_cmd_len s) (legacy s).
Definition set_counter (s : Session) (c : Z) : Session :=
  mkSession (s_enc s) (s_mac s) (s_rmac s) (security_level s) (mcv s) c (last_cmd_len s) (legacy s).
Definition set_last_cmd_len (s : Session) (n : Z) : Session :=
  mkSession (s_enc s) (s_mac s) (s_rmac s) (security_level s) (mcv s) (cmd_counter s) n (legacy s).

Section session.
Context `{R : Rng} {A : AesCrate} {H : HexCrate}.

Definition initialize_update_with_config (p1 : Z) (host_challenge : bytes) (version : AppletVersion)
    (cfg : Scp03Config) (r : rng) : res (Scp03State * rng * ApduResponse) :=
  if negb (len host_challenge =? 8) then Ret (Idle, r, error SW_WRONG_LENGTH)
  else
    let legacy := match version with V3_1_1 => true | _ => false end in
    let! host_ch := copy_from_slice (vec_repeat 0 8) 0 8 host_challenge in
    let '(card_ch, r) := fill_bytes 8 r in
    let! derived := crypto.derive_session_keys (cfg_enc cfg) (cfg_mac cfg) host_ch card_ch in
    let? derived := derived else Ret (Idle, r, error SW_CONDITIONS_NOT_SATISFIED) in
    let '(s_enc, s_mac, s_rmac) := derived in
    let! card_crypto := crypto.cryptogram s_mac host_ch card_ch crypto.DDC_CARD_CRYPTOGRAM in
    let? card_crypto := card_crypto else Ret (Idle, r, error SW_CONDITIONS_NOT_SATISFIED) in
    let resp_kvn := if p1 =? 0x00 then kvn cfg else p1 in
    if legacy && negb (p1 =? 0x00) && negb (p1 =? kvn cfg)
    then Ret (Idle, r, error SW_REF_DATA_NOT_FOUND)
    else
      let data := KEY_DIVERSIFICATION_DATA ++ [resp_kvn] ++ [0x03] ++ [I_PARAM] ++ card_ch ++ card_crypto in
      Ret (PendingState (mkPending host_ch card_ch s_enc s_mac s_rmac legacy), r, success_with_data data).

Definition initialize_update (e : Env) (p1 : Z) (host_challenge : bytes) (r : rng)
  : res (Scp03State * rng * ApduResponse) :=
  let version := applet_from_env e in
  initialize_update_with_config p1 host_challenge version (config_from_env e version) r.

Definition external_authenticate (self : Scp03State) (raw : bytes) : res (Scp03State * ApduResponse) :=
  match self with
  | PendingState p =>
      let! short := (if len raw <? 21 then Ret true else let! b := idx raw 4 in Ret (negb (b =? 0x10))) in
      if short then Ret (Idle, error SW_WRONG_LENGTH)
      else
        let! level := idx raw 2 in
        if negb (existsb (Z.eqb level) SUPPORTED_LEVELS) then Ret (Idle, error SW_WRONG_P1P2)
        else
          let! host_crypto_recv := slice raw 5 13 in
          let! cmac_recv := slice raw 13 21 in
          let! expect_host := crypto.cryptogram (p_s_mac p) (p_host_challenge p) (p_card_challenge p)
                                crypto.DDC_HOST_CRYPTOGRAM in
          let? expect_host := expect_host else Ret (Idle, error SW_SECURITY_STATUS) in
          let! signed := slice raw 0 13 in
          let! full := crypto.cmac_chain (p_s_mac p) (vec_repeat 0 16) signed in
          let? full := full else Ret (Idle, error SW_SECURITY_STATUS) in
          let! full8 := slice full 0 8 in
          if negb (bool_decide (expect_host = host_crypto_recv)) || negb (bool_decide (full8 = cmac_recv))
          then Ret (Idle, error SW_SECURITY_STATUS)
          else
            Ret (Active (mkSession (p_s_enc p) (p_s_mac p) (p_s_rmac p) level full 1 0 (p_legacy p)),
                 success)
  | other => Ret (other, error SW_CONDITIONS_NOT_SATISFIED)
  end.

(** The trailing Le of a command: nothing, one byte, or the first two bytes. *)
Definition trailing_le (t : bytes) : option Z :=
  match t with
  | [] => None
  | [b] => Some b
  | hi :: lo :: _ => Some (Z.lor (as_u16 (Z.shiftl hi 8)) lo)
  end.

(** The plain data field of a command whose C-MAC has verified. *)
Definition decrypt_payload (self : Session) (payload : bytes) : res (Result bytes Z) :=
  if negb (bool_decide (payload = [])) && negb (Z.land (security_level self) LEVEL_CDEC =? 0) then
    if negb (len payload mod 16 =? 0) then Ret (Err SW_SECURITY_STATUS)
    else
      let! icv := crypto.counter_icv (s_enc self) (cmd_counter self) false in
      let? icv := icv else Ret (Err SW_SECURITY_STATUS) in
      let! dec := crypto.cbc_crypt (s_enc self) icv payload false in
      let? dec := dec else Ret (Err SW_SECURITY_STATUS) in
      let? plaintext := crypto.unpad_m2 dec else Ret (Err SW_SECURITY_STATUS) in
      Ret (Ok plaintext)
  else Ret (Ok payload).

Definition unwrap_command (self : Session) (raw : bytes) : res (Session * Result ParsedApdu Z) :=
  if len raw <? 5 then Ret (self, Err SW_WRONG_LENGTH)
  else
    let! cla := idx raw 0 in
    let! ins := idx raw 1 in
    let! p1 := idx raw 2 in
    let! p2 := idx raw 3 in
    let! r4 := idx raw 4 in
    let! hdr :=
      (if negb (r4 =? 0x00) then Ret (Some (r4, 5))
       else if len raw <? 7 then Ret None
       else
         let! r5 := idx raw 5 in
         let! r6 := idx raw 6 in
         Ret (Some (Z.lor (Z.shiftl r5 8) r6, 7))) in
    let? hdr := hdr else Ret (self, Err SW_WRONG_LENGTH) in
    let '(lc, data_start) := hdr in
    if (lc <? 8) || (len raw <? data_start + lc) then Ret (self, Err SW_WRONG_LENGTH)
    else
      let! header_and_lc := slice raw 0 data_start in
      let! body := slice raw data_start (data_start + lc) in
      let! tail := slice raw (data_start + lc) (len raw) in
      let le := trailing_le tail in
      let! payload := slice body 0 (lc - 8) in
      let! cmac_recv := slice body (lc - 8) (len body) in
      let! full := crypto.cmac_chain (s_mac self) (mcv self) (header_and_lc ++ payload) in
      let? full := full else Ret (self, Err SW_SECURITY_STATUS) in
      let! full8 := slice full 0 8 in
      if negb (bool_decide (full8 = cmac_recv)) then Ret (self, Err SW_SECURITY_STATUS)
      else
        let self := set_mcv self full in
        let! plain := decrypt_payload self payload in
        match plain with
        | Err e => Ret (self, Err e)
        | Ok plaintext =>
            Ret (set_last_cmd_len self (len plaintext),
                 Ok (mkApdu (Z.land cla 0xFB) ins p1 p2 plaintext le))
        end.

Definition advance_counter (self : Session) (sw : Z) : Session :=
  let advance :=
    if legacy self then
      if sw =? SW_NO_ERROR then 0 <? last_cmd_len self else negb (last_cmd_len self =? 8)
    else true in
  if advance then set_counter self (as_u32 (cmd_counter self + 1)) else self.

(** The data field of a protected response, encrypted when the level says so. *)
Definition response_field (self : Session) (resp_data : bytes) : res (option bytes) :=
  let resp_counter :=
    if legacy self && (last_cmd_len self =? 0) then as_u32 (cmd_counter self - 1)
    else cmd_counter self in
  if negb (Z.land (security_level self) LEVEL_RENC =? 0) && negb (bool_decide (resp_data = [])) then
    let padded := crypto.pad_m2 resp_data in
    let! icv := crypto.counter_icv (s_enc self) resp_counter true in
    let? icv := icv else Ret None in
    crypto.cbc_crypt (s_enc self) icv padded true
  else Ret (Some resp_data).

Definition wrap_response (self : Session) (resp : ApduResponse) : res (Session * ApduResponse) :=
  let sw := sw resp in
  let sw_bytes := [as_u8 (Z.shiftr sw 8); as_u8 sw] in
  let protect := negb (Z.land (security_level self) LEVEL_RMAC =? 0) && (sw =? SW_NO_ERROR) in
  if protect then
    let! data_field := response_field self (r_data resp) in
    let? data_field := data_field else Ret (advance_counter self sw, error SW_SECURITY_STATUS) in
    let! full := crypto.cmac_chain (s_rmac self) (mcv self) (data_field ++ sw_bytes) in
    let? full := full else Ret (advance_counter self sw, error SW_SECURITY_STATUS) in
    let! full8 := slice full 0 8 in
    Ret (advance_counter self sw, mkResponse (data_field ++ full8) sw)
  else Ret (advance_counter self sw, mkResponse (r_data resp) sw).
End session.
