(* ===== verification/Se050T1.v ===== *)
(** * SE050Sim: T=1, the transport and the TCP server

    [t1.rs]: frames and the responder of one connection, with the interception of the
    SCP03 commands.  [transport.rs]: the mock I2C bus (module [transport]).
    [bin/tcp_server.rs]: the body of the connection loop, as a [Protocol] of
    [Connections]. *)

From S2P Require Import Prelude.
From S2P Require Import Host.
From S2P Require Import Connections.
From S2P Require Import Crates.
From S2P Require Import Se050Crates.
From S2P Require Import Se050Types.
From S2P Require Import Se050Store.
From S2P Require Import Se050Handlers.
From S2P Require Import Se050Aes.
From S2P Require Import Se050Dispatch.
From S2P Require Import Se050Scp03.

(** ** Frames *)

Definition T1_S_REQUEST : Z := 0xC0.
Definition T1_S_RESPONSE : Z := 0xE0.
Definition T1_S_INTERFACE_SOFT_RESET : Z := 0x0F.
Definition T1_R_CODE_MASK : Z := 0xEC.
Definition T1_R_CODE : Z := 0x80.
Definition MAX_IFSC : Z := 254.

Definition ATR_DATA : bytes :=
  [0x00; 0xA0; 0x00; 0x00; 0x03; 0x96; 0x04; 0x03; 0xE8; 0x00; 0xFE; 0x02; 0x0B; 0x03; 0xE8; 0x08;
   0x01; 0x00; 0x00; 0x00; 0x00; 0x64; 0x00; 0x00; 0x0A; 0x4A; 0x43; 0x4F; 0x50; 0x34; 0x20; 0x41;
   0x54; 0x50; 0x4F].

Inductive FrameType :=
  | IFrame (seq : Z) (multi : bool)
  | RFrame (seq err : Z)
  | SFrame (code : Z) (is_response : bool).

Definition parse_pcb (pcb : Z) : option FrameType :=
  if Z.land pcb T1_R_CODE_MASK =? T1_R_CODE then
    Some (RFrame (Z.shiftr (Z.land pcb 0x10) 4) (Z.land pcb 0x03))
  else if Z.land pcb T1_S_REQUEST =? T1_S_REQUEST then
    Some (SFrame (Z.land pcb 0x1F) (negb (Z.land pcb 0x20 =? 0)))
  else if Z.land pcb 0x9F =? 0 then
    Some (IFrame (Z.shiftr (Z.land pcb 0x40) 6) (negb (Z.land pcb 0x20 =? 0)))
  else None.

Definition encode_pcb (ft : FrameType) : Z :=
  match ft with
  | IFrame seq multi => Z.lor (as_u8 (Z.shiftl seq 6)) (if multi then 0x20 else 0)
  | RFrame seq err => Z.lor (Z.lor T1_R_CODE (as_u8 (Z.shiftl seq 4))) err
  | SFrame code is_response => Z.lor (if is_response then T1_S_RESPONSE else T1_S_REQUEST) code
  end.

Section frames.
Context `{K : Crc16Crate}.

Definition crc16_x25 (data : bytes) : Z := x25_calculate data.

Record T1Frame := mkT1Frame { nad : Z; frame_type : FrameType; t1_payload : bytes }.

Definition parse_frame (data : bytes) : res (option T1Frame) :=
  if len data <? 5 then Ret None
  else
    let! nad := idx data 0 in
    let! pcb := idx data 1 in
    let! n := idx data 2 in
    if len data <? 3 + n + 2 then Ret None
    else
      let! crc_data := slice data 0 (3 + n) in
      let expected_crc := crc16_x25 crc_data in
      let! lo := idx data (3 + n) in
      let! hi := idx data (3 + n + 1) in
      let received_crc := Z.lor lo (Z.shiftl hi 8) in
      if negb (expected_crc =? received_crc) then Ret None
      else
        let? frame_type := parse_pcb pcb else Ret None in
        let! payload := slice data 3 (3 + n) in
        Ret (Some (mkT1Frame nad frame_type payload)).

(** The header chunk and the payload-and-CRC chunk. *)
Definition build_frame (nad : Z) (ft : FrameType) (payload : bytes) : bytes * bytes :=
  let header := [nad; encode_pcb ft; as_u8 (len payload)] in
  let crc := crc16_x25 (header ++ payload) in
  (header, payload ++ [as_u8 crc] ++ [as_u8 (Z.shiftr crc 8)]).

(** The chunks of a list of frames. *)
Definition frame_chunks (f : bytes * bytes) : list bytes := [fst f; snd f].

(** ** The responder *)

Record T1Responder := mkT1 {
  nad_se2hd : Z;
  iseq_rcv : Z;
  iseq_snd : Z;
  apdu_reassembly : bytes;
  scp03 : Scp03State;
  selected_ssd : bool;
}.

Definition t1_new (nad_hd2se : Z) : T1Responder :=
  mkT1 (Z.lor (Z.shiftr (Z.land nad_hd2se 0xF0) 4) (as_u8 (Z.shiftl (Z.land nad_hd2se 0x0F) 4)))
    0 0 [] Idle false.

Definition set_scp03 (t : T1Responder) (s : Scp03State) : T1Responder :=
  mkT1 (nad_se2hd t) (iseq_rcv t) (iseq_snd t) (apdu_reassembly t) s (selected_ssd t).
Definition set_selected (t : T1Responder) (b : bool) : T1Responder :=
  mkT1 (nad_se2hd t) (iseq_rcv t) (iseq_snd t) (apdu_reassembly t) (scp03 t) b.
Definition set_iseq_snd (t : T1Responder) (n : Z) : T1Responder :=
  mkT1 (nad_se2hd t) (iseq_rcv t) n (apdu_reassembly t) (scp03 t) (selected_ssd t).

(** A soft reset or a resynchronisation. *)
Definition t1_reset (t : T1Responder) : T1Responder := mkT1 (nad_se2hd t) 0 0 [] Idle false.

Definition handle_s_request (t : T1Responder) (code : Z) : T1Responder * list bytes :=
  if code =? T1_S_INTERFACE_SOFT_RESET then
    let t := t1_reset t in
    (t, frame_chunks (build_frame (nad_se2hd t) (SFrame T1_S_INTERFACE_SOFT_RESET true) ATR_DATA))
  else if code =? 0x00 then
    let t := t1_reset t in
    (t, frame_chunks (build_frame (nad_se2hd t) (SFrame 0x00 true) []))
  else if code =? 0x07 then
    (t, frame_chunks (build_frame (nad_se2hd t) (SFrame 0x07 true) ATR_DATA))
  else (t, frame_chunks (build_frame (nad_se2hd t) (SFrame code true) [])).

(** The frames of a long response: pieces of 254 bytes, all but the last chained. *)
Fixpoint response_frames (nad seq : Z) (pieces : list bytes) : Z * list bytes :=
  match pieces with
  | [] => (seq, [])
  | p :: rest =>
      let f := build_frame nad (IFrame seq (negb (bool_decide (rest = [])))) p in
      let '(seq, out) := response_frames nad (Z.lxor seq 1) rest in
      (seq, frame_chunks f ++ out)
  end.

Definition build_response_frames (t : T1Responder) (response_bytes : bytes) : T1Responder * list bytes :=
  if len response_bytes <=? MAX_IFSC then
    (set_iseq_snd t (Z.lxor (iseq_snd t) 1),
     frame_chunks (build_frame (nad_se2hd t) (IFrame (iseq_snd t) false) response_bytes))
  else
    let '(seq, out) := response_frames (nad_se2hd t) (iseq_snd t) (chunks MAX_IFSC response_bytes) in
    (set_iseq_snd t seq, out).

End frames.

Section responder.
Context `{C : Se050Crates} {S : Serde} {F : FileSystem Value} {I : HashIter}.

(** What a step of the responder leaves: itself, the store, the generator, a value. *)
Definition t1_out (B : Type) : Type := res (T1Responder * ObjectStore * rng * B).

(** PUT KEY inside a secure channel. *)
Definition put_key (e : Env) (t : T1Responder) (store : ObjectStore) (inner : ParsedApdu)
  : res (ObjectStore * ApduResponse) :=
  if negb (selected_ssd t) then Ret (store, error 0x6A80)
  else
    let version := applet_from_env e in
    let current := platform_scp_config store e version in
    let! r := keys.put_keys current (p1 inner) (p2 inner) (data inner) in
    match r with
    | Ok (updated, check_values) =>
        Ret (set_platform_scp_config store updated, success_with_data check_values)
    | Err sw => Ret (store, error sw)
    end.

(** A command with the secure-messaging bit: unwrap, run, wrap. *)
Definition secure_command (e : Env) (t : T1Responder) (store : ObjectStore) (r : rng) (apdu_bytes : bytes)
  : t1_out ApduResponse :=
  match scp03 t with
  | Active sess =>
      let! '(sess, unwrapped) := unwrap_command sess apdu_bytes in
      match unwrapped with
      | Err sw => Ret (set_scp03 t Idle, store, r, error sw)
      | Ok inner =>
          let! '(store, r, resp) :=
            (if (cla inner =? 0x80) && (ins inner =? 0xD8) then
               let! '(store, resp) := put_key e t store inner in Ret (store, r, resp)
             else dispatch e inner store r true) in
          let! '(sess, resp) := wrap_response sess resp in
          Ret (set_scp03 t (Active sess), store, r, resp)
      end
  | _ => Ret (t, store, r, error SW_SECURITY_STATUS)
  end.

Definition plain_apdu (e : Env) (t : T1Responder) (store : ObjectStore) (r : rng) (apdu_bytes : bytes)
  : t1_out ApduResponse :=
  let! parsed := apdu_parse apdu_bytes in
  match parsed with
  | Ok apdu =>
      let! '(store, r, resp) := dispatch e apdu store r false in Ret (t, store, r, resp)
  | Err _ => Ret (t, store, r, error 0x6700)
  end.

Definition process_apdu (e : Env) (t : T1Responder) (store : ObjectStore) (r : rng) (apdu_bytes : bytes)
  : t1_out ApduResponse :=
  if 4 <=? len apdu_bytes then
    let! cla := idx apdu_bytes 0 in
    let! ins := idx apdu_bytes 1 in
    let! t :=
      (if (cla =? 0x00) && (ins =? 0xA4) then
         let! parsed := apdu_parse apdu_bytes in
         let ssd := match parsed with Ok a => session.selects_ssd a | Err _ => false end in
         Ret (set_selected (set_scp03 t Idle) ssd)
       else Ret t) in
    if (cla =? 0x80) && (ins =? 0x50) then
      let! parsed := apdu_parse apdu_bytes in
      match parsed with
      | Ok a =>
          let version := applet_from_env e in
          let config := platform_scp_config store e version in
          let! '(scp, r, resp) := initialize_update_with_config (p1 a) (data a) version config r in
          Ret (set_scp03 t scp, store, r, resp)
      | Err _ => Ret (t, store, r, error 0x6700)
      end
    else if (cla =? 0x84) && (ins =? 0x82) && negb (is_active (scp03 t)) then
      let! '(scp, resp) := external_authenticate (scp03 t) apdu_bytes in
      Ret (set_scp03 t scp, store, r, resp)
    else if negb (Z.land cla 0x04 =? 0) then secure_command e t store r apdu_bytes
    else if (cla =? 0x80) && is_active (scp03 t) then
      Ret (set_scp03 t Idle, store, r, error SW_CONDITIONS_NOT_SATISFIED)
    else if (cla =? 0x80) && scp_required store then
      Ret (t, store, r, error SW_CONDITIONS_NOT_SATISFIED)
    else plain_apdu e t store r apdu_bytes
  else plain_apdu e t store r apdu_bytes.

(** A sequence number that is not the expected one is only logged. *)
Definition handle_i_frame (e : Env) (t : T1Responder) (multi : bool) (payload : bytes)
    (store : ObjectStore) (r : rng) : t1_out (list bytes) :=
  let t := mkT1 (nad_se2hd t) (Z.lxor (iseq_rcv t) 1) (iseq_snd t) (apdu_reassembly t ++ payload)
             (scp03 t) (selected_ssd t) in
  if multi then
    Ret (t, store, r, frame_chunks (build_frame (nad_se2hd t) (RFrame (iseq_rcv t) 0) []))
  else
    let apdu_bytes := apdu_reassembly t in
    let t := mkT1 (nad_se2hd t) (iseq_rcv t) (iseq_snd t) [] (scp03 t) (selected_ssd t) in
    let! '(t, store, r, response) := process_apdu e t store r apdu_bytes in
    let '(t, chunks) := build_response_frames t (to_bytes response) in
    Ret (t, store, r, chunks).

Definition process_frame (e : Env) (t : T1Responder) (store : ObjectStore) (r : rng) (data : bytes)
  : t1_out (list bytes) :=
  let! frame := parse_frame data in
  match frame with
  | None => Ret (t, store, r, [])
  | Some frame =>
      match frame_type frame with
      | SFrame code false =>
          let '(t, chunks) := handle_s_request t code in Ret (t, store, r, chunks)
      | IFrame _ multi => handle_i_frame e t multi (t1_payload frame) store r
      | RFrame _ _ => Ret (t, store, r, [])
      | SFrame _ true => Ret (t, store, r, [])
      end
  end.

(** ** The mock I2C bus *)

Inductive SimError := NoData | BufferTooSmall | ProtocolError.

Record Se050Simulator := mkSim {
  sim_t1 : T1Responder;
  sim_store : ObjectStore;
  read_chunks : list bytes;
}.

Definition sim_new (f : fs) : Se050Simulator := mkSim (t1_new 0x5A) (store_new f) [].
Definition sim_with_persistence (p : path) (f : fs) : Se050Simulator :=
  mkSim (t1_new 0x5A) (with_persistence p f) [].

Definition i2c_write (e : Env) (self : Se050Simulator) (r : rng) (data : bytes)
  : res (Se050Simulator * rng) :=
  let! '(t, store, r, response_chunks) := process_frame e (sim_t1 self) (sim_store self) r data in
  Ret (mkSim t store (read_chunks self ++ response_chunks), r).

(** [buf] is the caller's buffer; what it holds after the read. *)
Definition i2c_read (self : Se050Simulator) (buf : bytes) : res (Se050Simulator * Result bytes SimError) :=
  match read_chunks self with
  | [] => Ret (self, Err NoData)
  | chunk :: rest =>
      let self := mkSim (sim_t1 self) (sim_store self) rest in
      if len buf <? len chunk then
        let! src := slice chunk 0 (len buf) in
        let! buf := copy_from_slice buf 0 (len buf) src in
        Ret (self, Ok buf)
      else
        let! buf := copy_from_slice buf 0 (len chunk) chunk in
        Ret (self, Ok buf)
  end.

(** ** The TCP server *)

(** The store all connections share, and the generator. *)
Record Server := mkServer { srv_store : ObjectStore; srv_rng : rng }.

(** A connection's responder and its queue. *)
Record TcpSession := mkTcp { tcp_t1 : T1Responder; pending_chunks : list bytes }.

(** The inner [while]: at most one frame is written, then the loop goes on to read
    when chunks are left. *)
Definition write_pending (pending : list bytes) : list bytes * bytes :=
  match pending with
  | resp_header :: resp_payload_crc :: rest => (rest, resp_header ++ resp_payload_crc)
  | _ => (pending, [])
  end.

(** One turn of the connection loop. *)
Definition serve_one (e : Env) (sv : Server) (s : TcpSession) (stream : bytes)
  : res (Server * TcpSession * bytes * bytes * outcome) :=
  match read_exact stream 3 with
  | None => Ret (sv, s, [], [], Closed)
  | Some (header, stream) =>
      let! n := idx header 2 in
      match read_exact stream (n + 2) with
      | None => Ret (sv, s, [], [], Closed)
      | Some (payload_crc, stream) =>
          let frame := header ++ payload_crc in
          let! '(t, store, r, response_chunks) :=
            process_frame e (tcp_t1 s) (srv_store sv) (srv_rng sv) frame in
          let pending := pending_chunks s ++ response_chunks in
          let '(pending, out) := write_pending pending in
          Ret (mkServer store r, mkTcp t pending, stream, out, Again)
      end
  end.

Definition se050_protocol (e : Env) : Protocol := {|
  Srv := Server;
  Ses := TcpSession;
  session_init := mkTcp (t1_new 0x5A) [];
  step := serve_one e;
|}.
End responder.
