(* ===== verification/Se050StoreFacts.v ===== *)
(** * SE050Sim: facts about TLVs, APDUs and policies

    The parsers never panic; encoded TLVs and built APDUs are parsed back. *)

From S2P Require Import Prelude.
From S2P Require Import Host.
From S2P Require Import Crates.
From S2P Require Import Se050Crates.
From S2P Require Import Se050Types.
From S2P Require Import Se050Store.
From S2P Require Import Se050Handlers.

(** ** TLVs *)

Definition tlv_wf (t : Tlv) : Prop := u8 (tag t) /\ wf (value t).

Definition tlvs_wf (r : Result (list Tlv) TlvError) : Prop :=
  match r with Ok ts => Forall tlv_wf ts | Err _ => True end.

Lemma parse_tlvs_from_ok fuel d o : wf d -> 0 <= o -> wp (parse_tlvs_from fuel d o) tlvs_wf.
Proof.
  revert o. induction fuel as [|fuel IH]; intros o Hd Ho; simpl.
  { destruct (_ <=? _); apply wp_ret; constructor. }
  destruct (Z.leb_spec (len d) o); [apply wp_ret; constructor|].
  destruct (Z.leb_spec (len d) (o + 1)); [by apply wp_ret|].
  wp_step. wp_step. wp_step. wp_step.
  apply wp_bind. eapply (wp_mono _ (fun h => match h with Ok (n, hs) => 0 <= n /\ 2 <= hs | Err _ => True end)).
  - wp_run; try done; try (split; [|lia]); try (unfold u8 in *; lia).
    rewrite lor_be16 by done. unfold u8 in *. lia.
  - intros [[n hs]|e] Hh; [|by apply wp_ret]. destruct Hh as [Hn Hs].
    destruct (Z.ltb_spec (len d) (o + hs + n)); [by apply wp_ret|].
    apply wp_bind, wp_slice; [lia|lia|]. apply wp_bind. eapply wp_mono; [apply IH; [done|lia]|].
    intros [ts|e] Hts; [|done]. apply wp_ret. constructor; [|done]. split; simpl; auto with wfdb.
Qed.

Lemma parse_tlvs_ok d : wf d -> wp (parse_tlvs d) tlvs_wf.
Proof. intros. by apply parse_tlvs_from_ok. Qed.

Lemma apdu_parse_tlvs_ok a : wf (data a) -> wp (apdu_parse_tlvs a) tlvs_wf.
Proof.
  intros Hd. unfold apdu_parse_tlvs. case_bool_decide; [apply wp_ret; constructor|by apply parse_tlvs_ok].
Qed.

(** *** Encoding *)

Definition tlv_ok (t : Tlv) : Prop := tlv_wf t /\ len (value t) < 65536.

Lemma wf_tlv_encode t : tlv_wf t -> wf (tlv_encode t).
Proof.
  intros [Ht Hv]. unfold tlv_encode. apply wf_app; [auto with wfdb|]. apply wf_app; [|done].
  destruct (_ <? _); auto with wfdb.
Qed.

Lemma wf_encode_tlvs ts : Forall tlv_wf ts -> wf (encode_tlvs ts).
Proof. induction 1; [apply wf_nil|]. apply wf_app; [by apply wf_tlv_encode|done]. Qed.

Lemma len_tlv_encode t : 2 <= len (tlv_encode t).
Proof. unfold tlv_encode. pose proof (len_nonneg (value t)). destruct (_ <? _); len_solve. Qed.

Lemma as_u8_bytes n : 0 <= n < 65536 ->
  Z.lor (Z.shiftl (as_u8 (Z.shiftr n 8)) 8) (as_u8 n) = n.
Proof.
  intros Hn. rewrite lor_be16 by apply u8_as_u8. unfold as_u8. rewrite Z.shiftr_div_pow2 by lia.
  change (2 ^ 8) with 256. dlia.
Qed.

(** One TLV at the offset is taken, and the parser goes on behind it. *)
Lemma parse_tlvs_step fuel pre t post :
  tlv_ok t ->
  parse_tlvs_from (S fuel) (pre ++ tlv_encode t ++ post) (len pre) =
    (let! rest := parse_tlvs_from fuel (pre ++ tlv_encode t ++ post) (len pre + len (tlv_encode t)) in
     match rest with Err e => Ret (Err e) | Ok ts => Ret (Ok (mkTlv (tag t) (value t) :: ts)) end).
Proof.
  intros [[Ht Hv] Hl]. pose proof (len_tlv_encode t) as H2. pose proof (len_nonneg post) as Hp.
  pose proof (len_nonneg (value t)) as Hnn. pose proof (len_nonneg pre) as Hpre.
  set (d := pre ++ tlv_encode t ++ post). cbn [parse_tlvs_from].
  assert (Hd : len d = len pre + len (tlv_encode t) + len post) by (unfold d; len_solve).
  rewrite (proj2 (Z.leb_gt _ _)), (proj2 (Z.leb_gt _ _)) by lia.
  assert (Hi : forall k x, 0 <= k -> idx (tlv_encode t ++ post) k = Ret x -> idx d (len pre + k) = Ret x).
  { intros k x Hk E. unfold d. rewrite idx_app_r by lia. by replace (len pre + k - len pre) with k by lia. }
  assert (E0 : idx d (len pre) = Ret (tag t)).
  { rewrite <- (Z.add_0_r (len pre)). apply Hi; [lia|]. unfold tlv_encode. by destruct (_ <? _). }
  rewrite E0. cbn [rbind].
  destruct (Z.ltb_spec (len (value t)) 128) as [Hs|Hs].
  - assert (Et : tlv_encode t = [tag t; len (value t)] ++ value t).
    { unfold tlv_encode. rewrite (proj2 (Z.ltb_lt _ _)) by done. simpl. unfold as_u8.
      by rewrite Z.mod_small by lia. }
    rewrite (Hi 1 (len (value t))) by (try lia; by rewrite Et). cbn [rbind].
    rewrite (proj2 (Z.eqb_neq _ _)), (proj2 (Z.ltb_lt _ _)) by lia. cbn [rbind].
    assert (Hle : len (tlv_encode t) = 2 + len (value t)) by (rewrite Et; len_solve).
    rewrite (proj2 (Z.ltb_ge _ _)) by lia. rewrite slice_ret by lia. cbn [rbind].
    replace (sub d (len pre + 2) (len pre + 2 + len (value t))) with (value t).
    2:{ symmetry. unfold d. rewrite Et, <- !app_assoc, (app_assoc pre).
        apply sub_middle; len_solve. }
    by rewrite Hle, Z.add_assoc.
  - assert (Et : tlv_encode t =
      [tag t; 0x82; as_u8 (Z.shiftr (len (value t)) 8); as_u8 (len (value t))] ++ value t).
    { unfold tlv_encode. by rewrite (proj2 (Z.ltb_ge _ _)) by done. }
    assert (Hle : len (tlv_encode t) = 4 + len (value t)) by (rewrite Et; len_solve).
    rewrite (Hi 1 0x82) by (try lia; by rewrite Et). cbn [rbind].
    change (0x82 =? 0x82) with true. cbv iota.
    rewrite (proj2 (Z.ltb_ge _ _)) by lia.
    rewrite (Hi 2 (as_u8 (Z.shiftr (len (value t)) 8))), (Hi 3 (as_u8 (len (value t))))
      by (try lia; by rewrite Et).
    cbn [rbind]. rewrite as_u8_bytes by lia.
    rewrite (proj2 (Z.ltb_ge _ _)) by lia. rewrite slice_ret by lia. cbn [rbind].
    replace (sub d (len pre + 4) (len pre + 4 + len (value t))) with (value t).
    2:{ symmetry. unfold d. rewrite Et, <- !app_assoc, (app_assoc pre).
        apply sub_middle; len_solve. }
    by rewrite Hle, Z.add_assoc.
Qed.

Lemma parse_encoded_from ts : Forall tlv_ok ts -> forall fuel pre,
  (List.length (encode_tlvs ts) <= fuel)%nat ->
  parse_tlvs_from fuel (pre ++ encode_tlvs ts) (len pre) = Ret (Ok ts).
Proof.
  induction 1 as [|t ts Ht _ IH]; intros fuel pre Hf.
  - change (encode_tlvs []) with (@nil Z). rewrite app_nil_r.
    destruct fuel; simpl; by rewrite Z.leb_refl.
  - change (encode_tlvs (t :: ts)) with (tlv_encode t ++ encode_tlvs ts) in *.
    pose proof (len_tlv_encode t). rewrite length_app in Hf. unfold len in *.
    destruct fuel as [|fuel]; [lia|]. rewrite parse_tlvs_step by done.
    rewrite app_assoc. rewrite <- len_app. rewrite IH by lia. cbn [rbind]. by destruct t.
Qed.

Lemma parse_encoded ts : Forall tlv_ok ts -> parse_tlvs (encode_tlvs ts) = Ret (Ok ts).
Proof. intros H. by apply (parse_encoded_from ts H _ []). Qed.

(** A handler that gets encoded TLVs reads them back. *)
Lemma apdu_parse_encoded c i x y ts l : Forall tlv_ok ts ->
  apdu_parse_tlvs (mkApdu c i x y (encode_tlvs ts) l) = Ret (Ok ts).
Proof.
  intros H. unfold apdu_parse_tlvs. cbn [data]. case_bool_decide as E; [|by apply parse_encoded].
  destruct ts as [|t ts]; [done|]. exfalso.
  change (encode_tlvs (t :: ts)) with (tlv_encode t ++ encode_tlvs ts) in E.
  pose proof (len_tlv_encode t). apply app_eq_nil in E as [E _]. rewrite E in *. done.
Qed.

Lemma find_tlv_wf ts g t : Forall tlv_wf ts -> find_tlv ts g = Some t -> tlv_wf t.
Proof.
  intros H E. apply List.find_some in E as [E _]. rewrite Forall_forall in H.
  apply H, list_elem_of_In, E.
Qed.

(** ** APDUs *)

Definition apdu_wf (a : ParsedApdu) : Prop :=
  u8 (cla a) /\ u8 (ins a) /\ u8 (p1 a) /\ u8 (p2 a) /\ wf (data a) /\
  match le a with Some x => u16 x | None => True end.

Definition apdu_result_wf (r : Result ParsedApdu ApduError) : Prop :=
  match r with Ok a => apdu_wf a | Err _ => True end.

Lemma as_u16_shl8 x : u8 x -> as_u16 (Z.shiftl x 8) = Z.shiftl x 8.
Proof.
  intros Hx. unfold as_u16. rewrite Z.shiftl_mul_pow2 by lia. apply Z.mod_small.
  change (2 ^ 8) with 256. unfold u8 in Hx. lia.
Qed.

Lemma u16_be16 hi lo : u8 hi -> u8 lo -> u16 (Z.lor (Z.shiftl hi 8) lo).
Proof. intros Hh Hl. rewrite lor_be16 by done. unfold u8, u16 in *. lia. Qed.

Definition le_wf (l : option Z) : Prop := match l with Some x => u16 x | None => True end.

Lemma apdu_parse_ok raw : wf raw -> wp (apdu_parse raw) apdu_result_wf.
Proof.
  intros Hw. unfold apdu_parse.
  assert (Hsub : forall a b, wf (sub raw a b)) by auto with wfdb.
  assert (H8 : forall x, u8 x -> u16 x) by (unfold u8, u16; lia).
  assert (Hle : forall c i x y d (m : res (option Z)), u8 c -> u8 i -> u8 x -> u8 y -> wf d -> wp m le_wf ->
    wp (rbind m (fun l => Ret (Ok (mkApdu c i x y d l)))) apdu_result_wf).
  { intros c i x y d m ????? Hm. apply wp_bind. eapply wp_mono; [exact Hm|]. intros l Hl. apply wp_ret.
    by split_and!. }
  wp_step; [done|]. do 4 (wp_step; wp_step; cbv beta).
  wp_step; [by split_and!; auto using wf_nil|]. wp_step. wp_step. cbv beta.
  wp_step; [split_and!; cbn; auto using wf_nil|].
  wp_step.
  - do 2 (wp_step; wp_step; cbv beta).
    assert (Hlc : Z.lor (Z.shiftl x4 8) x5 = 256 * x4 + x5) by by apply lor_be16.
    wp_step.
    { apply wp_ret. split_and!; cbn; auto using wf_nil. rewrite as_u16_shl8 by done. by apply u16_be16. }
    wp_step; [done|]. rewrite Hlc in *. unfold u8 in *. wp_step. wp_step. cbv beta. apply Hle; auto.
    wp_run; cbn; try done.
    + unfold u8 in *. rewrite as_u16_shl8 by (unfold u8; lia). by apply u16_be16.
    + by apply H8.
  - wp_step; [done|]. unfold u8 in *. wp_step. wp_step. cbv beta. apply Hle; auto.
    wp_run; cbn; try done. by apply H8.
Qed.

(** ** The object store's invariant and its transitions

    [store_ok] is the well-formedness of a store.  [store_step] is the abstract
    specification of what one command may do to the objects: nothing, write one
    object its policy lets it write, overwrite the target of an ECDH, delete one
    object its policy lets it delete, or clear.  Every handler is proved to refine it
    in [Se050HandlersFacts]. *)

Create HintDb se050.
Create Rewrite HintDb store.

Section store.
Context `{H : HexCrate} {S : Serde} {F : FileSystem Value} {I : HashIter}.
Implicit Types (st : ObjectStore) (id : bytes).

(** ** Well-formed objects *)

Definition aes_key_len (n : Z) : Prop := n = 16 \/ n = 24 \/ n = 32.

Definition staged_ok (c : RsaComponents) : Prop :=
  Forall (fun o : option bytes => match o with Some b => wf b | None => True end)
    [rc_n c; rc_e c; rc_d c; rc_p c; rc_q c; rc_dp c; rc_dq c; rc_qinv c].

Definition obj_ok (o : SecureObject) : Prop :=
  match o with
  | ECKeyPair _ k q => wf k /\ wf q
  | ECPublicKey _ q => wf q
  | RSAKeyPair n der c => u16 n /\ wf der /\ staged_ok c
  | AESKey k => wf k /\ aes_key_len (len k)
  | Binary d => wf d
  | UserID v => wf v
  | Counter v n => 0 <= v < 2 ^ 64 /\ 1 <= n <= 8
  | HMACKey k p => wf k
  end.

(** The private key of a Weierstrass pair has the length of the curve's scalars. *)
Definition key_sized (o : SecureObject) : Prop :=
  match o with
  | ECKeyPair c k _ => needs_curve_object c = true -> len k = scalar_len c
  | _ => True
  end.

Definition id_ok id : Prop := len id = 4 /\ wf id.

Definition meta_ok (m : ObjectMetadata) : Prop :=
  u8 (origin m) /\ match policy m with Some p => wf p | None => True end.

Definition ctx_ok (c : CryptoObjectState) : Prop :=
  match c with
  | Digest _ d => wf d
  | Cipher _ _ k ch p => id_ok k /\ len ch = 16 /\ wf ch /\ wf p
  | Mac _ _ k d => id_ok k /\ wf d
  end.

Definition config_ok (c : Scp03Config) : Prop :=
  u8 (kvn c) /\ wf (cfg_enc c) /\ wf (cfg_mac c) /\ wf (cfg_dek c) /\
  aes_key_len (len (cfg_enc c)) /\ aes_key_len (len (cfg_mac c)) /\ aes_key_len (len (cfg_dek c)).

Record aux_ok st : Prop := {
  aux_curves : map_Forall (fun k x => u8 k /\ u8 x) (ec_curves st);
  aux_contexts : map_Forall (fun _ c => ctx_ok c) (crypto_objects st);
  aux_types : map_Forall (fun _ t => u8 (fst t) /\ u8 (snd t)) (crypto_object_types st);
  aux_config : match platform_scp st with Some c => config_ok c | None => True end;
}.

Record store_ok st : Prop := {
  so_objects : map_Forall (fun id o => id_ok id /\ obj_ok o) (objects st);
  so_metadata : map_Forall (fun _ m => meta_ok m) (metadata st);
  so_dom : dom (metadata st) ⊆ dom (objects st);
  so_aux : aux_ok st;
}.

Definition resp_ok (r : ApduResponse) : Prop := wf (r_data r) /\ u16 (sw r).

(** ** The abstract transitions *)

(** An RSA import that has not produced a key yet. *)
Definition unfinished (o : option SecureObject) : Prop :=
  exists n c, o = Some (RSAKeyPair n [] c).

(** What an ECDH stores. *)
Definition shared_secret (o : SecureObject) : Prop :=
  match o with HMACKey _ _ | Binary _ => True | _ => False end.

(** What a command is allowed: to store a private key of the wrong length, which objects it
    may write, what it may put where without asking the policy, which objects it may
    delete, and whether it may clear the store. *)
Record allowance := mkAllow {
  wrong_keys : bool;
  writes : bytes -> Prop;
  overwrites : bytes -> SecureObject -> Prop;
  deletes : bytes -> Prop;
  clears : Prop;
}.

Definition anything : allowance := mkAllow true (fun _ => True) (fun _ _ => True) (fun _ => True) True.

Inductive store_step (imp : allowance) st st' : Prop :=
  | ss_same :
      objects st' = objects st -> metadata st' = metadata st -> store_step imp st st'
  | ss_write id obj md :
      writes imp id -> id_ok id -> obj_ok obj -> (wrong_keys imp = false -> key_sized obj) -> meta_ok md ->
      (exists_ st id = true ->
        policy_allows st id POLICY_OBJ_ALLOW_WRITE = true \/ unfinished (objects st !! id)) ->
      objects st' = <[id := obj]> (objects st) ->
      metadata st' = (if exists_ st id then metadata st else
        match metadata st !! id with Some _ => metadata st | None => <[id := md]> (metadata st) end) ->
      store_step imp st st'
  | ss_ecdh id obj :
      overwrites imp id obj -> id_ok id -> obj_ok obj -> shared_secret obj ->
      objects st' = <[id := obj]> (objects st) -> metadata st' = metadata st -> store_step imp st st'
  | ss_delete id :
      deletes imp id -> policy_allows st id POLICY_OBJ_ALLOW_DELETE = true ->
      objects st' = delete id (objects st) -> metadata st' = delete id (metadata st) ->
      store_step imp st st'
  | ss_clear :
      clears imp -> objects st' = ∅ -> metadata st' = ∅ -> store_step imp st st'.

(** ** The operations of the store *)

Lemma persist_fields st :
  objects (persist st) = objects st /\ metadata (persist st) = metadata st /\
  ec_curves (persist st) = ec_curves st /\ crypto_objects (persist st) = crypto_objects st /\
  crypto_object_types (persist st) = crypto_object_types st /\
  scp_required (persist st) = scp_required st /\ platform_scp (persist st) = platform_scp st /\
  persist_path (persist st) = persist_path st.
Proof. unfold persist. destruct (persist_path st) eqn:E; [|done]. by destruct (fs_write _ _ _). Qed.

Lemma objects_persist st : objects (persist st) = objects st.
Proof. apply persist_fields. Qed.
Lemma metadata_persist st : metadata (persist st) = metadata st.
Proof. apply persist_fields. Qed.
Lemma curves_persist st : ec_curves (persist st) = ec_curves st.
Proof. apply persist_fields. Qed.
Lemma contexts_persist st : crypto_objects (persist st) = crypto_objects st.
Proof. apply persist_fields. Qed.
Lemma types_persist st : crypto_object_types (persist st) = crypto_object_types st.
Proof. apply persist_fields. Qed.
Lemma platform_persist st : platform_scp (persist st) = platform_scp st.
Proof. apply persist_fields. Qed.

Lemma aux_persist st : aux_ok st -> aux_ok (persist st).
Proof.
  intros [H1 H2 H3 H4].
  split; by rewrite ?curves_persist, ?contexts_persist, ?types_persist, ?platform_persist.
Qed.

Lemma objects_insert st id o : objects (insert st id o) = <[id := o]> (objects st).
Proof. apply objects_persist. Qed.
Lemma metadata_insert st id o : metadata (insert st id o) = metadata st.
Proof. unfold insert. by rewrite metadata_persist. Qed.
Lemma aux_insert st id o : aux_ok st -> aux_ok (insert st id o).
Proof. unfold insert. intros [? ? ? ?]. apply aux_persist. by split. Qed.
Lemma objects_set_creation st id p o : objects (set_creation_metadata st id p o) = objects st.
Proof. unfold set_creation_metadata. by rewrite objects_persist. Qed.
Lemma metadata_set_creation st id p o : metadata (set_creation_metadata st id p o) =
  match metadata st !! id with
  | Some _ => metadata st | None => <[id := mkMetadata p o]> (metadata st) end.
Proof. apply metadata_persist. Qed.
Lemma aux_set_creation st id p o : aux_ok st -> aux_ok (set_creation_metadata st id p o).
Proof. unfold set_creation_metadata. intros [? ? ? ?]. apply aux_persist. by split. Qed.

Lemma aux_set_contexts st m :
  aux_ok st -> map_Forall (fun _ c => ctx_ok c) m -> aux_ok (set_crypto_objects st m).
Proof. intros [? ? ? ?] ?. by split. Qed.
Lemma aux_set_types st m :
  aux_ok st -> map_Forall (fun _ t => u8 (fst t) /\ u8 (snd t)) m -> aux_ok (set_crypto_object_types st m).
Proof. intros [? ? ? ?] ?. by split. Qed.
Lemma aux_set_curves st m : aux_ok st -> map_Forall (fun k x => u8 k /\ u8 x) m -> aux_ok (set_ec_curves st m).
Proof. intros [? ? ? ?] ?. by split. Qed.

Lemma exists_true st id : exists_ st id = true <-> is_Some (objects st !! id).
Proof. unfold exists_. apply bool_decide_eq_true. Qed.
Lemma exists_false st id : exists_ st id = false <-> objects st !! id = None.
Proof.
  unfold exists_. rewrite bool_decide_eq_false. rewrite eq_None_not_Some. done.
Qed.

Lemma lookup_obj_ok st id o : store_ok st -> get st id = Some o -> obj_ok o /\ id_ok id.
Proof. intros Hs E. destruct (so_objects _ Hs _ _ E). done. Qed.

Lemma lookup_ctx_ok st c x : store_ok st -> crypto_objects st !! c = Some x -> ctx_ok x.
Proof. intros Hs E. exact (aux_contexts _ (so_aux _ Hs) _ _ E). Qed.

(** Metadata belongs to existing objects only. *)
Lemma no_metadata st id : store_ok st -> objects st !! id = None -> metadata st !! id = None.
Proof.
  intros Hs E. apply not_elem_of_dom. apply not_elem_of_dom in E. intros Hd. apply E.
  by apply (so_dom _ Hs).
Qed.

(** A transition keeps the invariant. *)
Lemma store_step_ok imp st st' : store_ok st -> store_step imp st st' -> aux_ok st' -> store_ok st'.
Proof.
  intros [Ho Hm Hd Ha] Hst Ha'. destruct Hst as [Eo Em|id obj md Hwr Hid Hob Hk Hmd Hp Eo Em|id obj Hov Hid Hob Hk Eo Em|id Hdl Hp Eo Em|Hcl Eo Em];
    split; rewrite ?Eo, ?Em; try done.
  - by apply map_Forall_insert_2.
  - destruct (exists_ st id); [done|]. destruct (metadata st !! id); [done|]. by apply map_Forall_insert_2.
  - rewrite dom_insert. destruct (exists_ st id); [set_solver|].
    destruct (metadata st !! id); [set_solver|]. rewrite dom_insert. set_solver.
  - by apply map_Forall_insert_2.
  - rewrite dom_insert. set_solver.
  - by apply map_Forall_delete.
  - by apply map_Forall_delete.
  - rewrite !dom_delete. set_solver.
Qed.

(** What a handler promises. *)
Definition post (imp : allowance) st st' (resp : ApduResponse) : Prop :=
  store_step imp st st' /\ aux_ok st' /\ resp_ok resp.

Lemma post_ok imp st st' resp : store_ok st -> post imp st st' resp -> store_ok st' /\ resp_ok resp.
Proof. intros Hs (Ht & Ha & Hr). split; [by eapply store_step_ok|done]. Qed.

Lemma post_same imp st resp : store_ok st -> resp_ok resp -> post imp st st resp.
Proof. intros Hs Hr. split; [by apply ss_same|]. split; [apply Hs|done]. Qed.

Lemma post_write imp st id o resp :
  writes imp id -> store_ok st -> id_ok id -> obj_ok o -> (wrong_keys imp = false -> key_sized o) -> resp_ok resp ->
  exists_ st id = true -> policy_allows st id POLICY_OBJ_ALLOW_WRITE = true ->
  post imp st (insert st id o) resp.
Proof.
  intros Hwr Hs Hid Ho Hk Hr He Hp. split; [|split; [by apply aux_insert, Hs|done]].
  eapply (ss_write _ _ _ id o (mkMetadata None 1)); try done.
  - by left.
  - apply objects_insert.
  - by rewrite He, metadata_insert.
Qed.

Lemma post_create imp st id o p org resp :
  writes imp id -> store_ok st -> id_ok id -> obj_ok o -> (wrong_keys imp = false -> key_sized o) -> resp_ok resp ->
  exists_ st id = false -> meta_ok (mkMetadata p org) ->
  post imp st (set_creation_metadata (insert st id o) id p org) resp.
Proof.
  intros Hwr Hs Hid Ho Hk Hr He Hm. split; [|split; [by apply aux_set_creation, aux_insert, Hs|done]].
  eapply (ss_write _ _ _ id o (mkMetadata p org)); try done.
  - by rewrite He.
  - rewrite objects_set_creation. apply objects_insert.
  - by rewrite He, metadata_set_creation, metadata_insert.
Qed.

(** Both at once, as the handlers write it. *)
Lemma post_record imp st id o p org resp :
  writes imp id -> store_ok st -> id_ok id -> obj_ok o -> (wrong_keys imp = false -> key_sized o) -> resp_ok resp ->
  meta_ok (mkMetadata p org) ->
  exists_ st id && negb (policy_allows st id POLICY_OBJ_ALLOW_WRITE) = false ->
  post imp st (if negb (exists_ st id) then set_creation_metadata (insert st id o) id p org
               else insert st id o) resp.
Proof.
  intros Hwr Hs Hid Ho Hk Hr Hm Hg. destruct (exists_ st id) eqn:He; simpl in *.
  - apply post_write; try done. by apply negb_false_iff.
  - by apply post_create.
Qed.

(** A command that touches neither objects nor metadata. *)
Lemma post_aux imp st st' resp :
  objects st' = objects st -> metadata st' = metadata st -> aux_ok st' -> resp_ok resp ->
  post imp st st' resp.
Proof. intros. split; [by apply ss_same|done]. Qed.

Lemma remove_spec st id :
  let '(st', o) := remove st id in
  o = objects st !! id /\
  objects st' = delete id (objects st) /\
  metadata st' = (match o with Some _ => delete id (metadata st) | None => metadata st end) /\
  (aux_ok st -> aux_ok st').
Proof.
  unfold remove. destruct (objects st !! id) eqn:E; cbv beta iota.
  - rewrite objects_persist, metadata_persist. split_and!; try done.
    intros [? ? ? ?]. apply aux_persist. by split.
  - split_and!; try done. intros [? ? ? ?]. by split.
Qed.

(** *** Responses *)

Lemma resp_ok_error s : u16 s -> resp_ok (error s).
Proof. intros. split; [apply wf_nil|done]. Qed.
Lemma resp_ok_success : resp_ok success.
Proof. split; [apply wf_nil|done]. Qed.
Lemma resp_ok_data d : wf d -> resp_ok (success_with_data d).
Proof. intros. split; [done|done]. Qed.
Lemma resp_ok_tlvs ts : Forall tlv_wf ts -> resp_ok (success_with_tlvs ts).
Proof. intros. split; [by apply wf_encode_tlvs|done]. Qed.
Lemma resp_ok_tag1 v : wf v -> resp_ok (tag1 v).
Proof. intros. apply resp_ok_tlvs. repeat constructor; done. Qed.

(** *** TLV patterns *)

Lemma tlv_value_wf ts g v : Forall tlv_wf ts -> tlv_value ts g = Some v -> wf v.
Proof.
  unfold tlv_value. intros Hts E. destruct (find_tlv ts g) as [t|] eqn:Et; [|done].
  injection E as <-. by apply (find_tlv_wf _ _ _ Hts Et).
Qed.
Lemma tlv_id_ok ts g v : Forall tlv_wf ts -> tlv_id ts g = Some v -> id_ok v.
Proof.
  unfold tlv_id. intros Hts E. destruct (find_tlv ts g) as [t|] eqn:Et; [|done].
  destruct (Z.eqb_spec (len (value t)) 4); [|done]. injection E as <-.
  split; [done|]. by apply (find_tlv_wf _ _ _ Hts Et).
Qed.
Lemma be16_u16 v x : wf v -> be16 v = Some x -> u16 x.
Proof.
  unfold be16. destruct v as [|hi [|lo [|]]]; try done. intros [Hh [Hl _]%wf_cons_inv]%wf_cons_inv [= <-].
  by apply u16_be16.
Qed.
Lemma tlv_u16_ok ts g x : Forall tlv_wf ts -> tlv_u16 ts g = Some x -> u16 x.
Proof.
  unfold tlv_u16. intros Hts E. destruct (find_tlv ts g) as [t|] eqn:Et; [|done].
  eapply be16_u16; [|done]. by apply (find_tlv_wf _ _ _ Hts Et).
Qed.
Lemma head_u8 v x : wf v -> head v = Some x -> u8 x.
Proof. destruct v; [done|]. by intros [Hx _]%wf_cons_inv [= <-]. Qed.
Lemma tlv_first_ok ts g x : Forall tlv_wf ts -> tlv_first ts g = Some x -> u8 x.
Proof.
  unfold tlv_first. intros Hts E. destruct (find_tlv ts g) as [t|] eqn:Et; [|done].
  eapply head_u8; [|done]. by apply (find_tlv_wf _ _ _ Hts Et).
Qed.
Lemma default_wf o : (forall v, o = Some v -> wf v) -> wf (default [] o).
Proof. destruct o; simpl; auto using wf_nil. Qed.

Lemma creation_policy_ok ts p : Forall tlv_wf ts -> creation_policy ts = Ok p ->
  match p with Some v => wf v | None => True end.
Proof.
  unfold creation_policy. intros Hts E. destruct (find_tlv ts TAG_POLICY) as [t|] eqn:Et; [|by injection E as <-].
  case_bool_decide; [by injection E as <-|]. case_bool_decide; [|done]. injection E as <-.
  by apply (find_tlv_wf _ _ _ Hts Et).
Qed.
End store.

#[export] Hint Resolve resp_ok_error resp_ok_success resp_ok_data resp_ok_tag1 : se050.
#[export] Hint Extern 2 (u16 _) => (vm_compute; split; congruence) : se050.
