(* ===== verification/Se050HandlersFacts.v ===== *)
(** * SE050Sim: the handlers refine the store's transitions

    Every handler returns, its store is a [store_step] of the one it was given, and
    its response is well formed ([post]).  The three commands that build a
    Weierstrass private key from stored bytes, and RSA signing, are the only ones that
    can panic; they are in [Se050EcFacts]. *)

From stdpp Require Import sorting.
From S2P Require Import Prelude.
From S2P Require Import Host.
From S2P Require Import Crates.
From S2P Require Import Se050Crates.
From S2P Require Import Se050Types.
From S2P Require Import Se050StoreFacts.
From S2P Require Import Se050Store.
From S2P Require Import Se050Handlers.
From S2P Require Import Se050ObjectMgmt.

(** An import of a Weierstrass private key whose length is not the curve's. *)
Definition wrong_length (tlvs : list Tlv) : bool :=
  match opt_bind (tlv_first tlvs TAG_2) from_se050_byte, tlv_value tlvs TAG_3 with
  | Some curve, Some k => needs_curve_object curve && negb (len k =? scalar_len curve)
  | _, _ => false
  end.

Definition tlvs_of (apdu : ParsedApdu) : list Tlv :=
  match apdu_parse_tlvs apdu with Ret (Ok ts) => ts | _ => [] end.

(** The object a command names. *)
Definition names (apdu : ParsedApdu) (id : bytes) : Prop := In (mkTlv TAG_1 id) (tlvs_of apdu).

Definition parsed_as (apdu : ParsedApdu) (ts : list Tlv) : Prop := tlvs_of apdu = ts.

Lemma tlvs_of_parsed apdu ts : apdu_parse_tlvs apdu = Ret (Ok ts) -> parsed_as apdu ts.
Proof. unfold parsed_as, tlvs_of. by intros ->. Qed.

Lemma find_tlv_In ts t x : find_tlv ts t = Some x -> In (mkTlv t (value x)) ts.
Proof.
  unfold find_tlv. intros [Hin Ht%Z.eqb_eq]%List.find_some. by destruct x; cbn in *; subst.
Qed.

Lemma tlv_id_names apdu ts id : parsed_as apdu ts -> tlv_id ts TAG_1 = Some id -> names apdu id.
Proof.
  unfold names, parsed_as, tlv_id. intros -> E. destruct (find_tlv ts TAG_1) as [t|] eqn:Ef; [|done]. cbn in E.
  destruct (_ =? _); simplify_eq. by apply find_tlv_In.
Qed.

(** The parsed TLVs of a command. *)
Lemma parse_tlvs_kept apdu : wf (data apdu) ->
  wp (apdu_parse_tlvs apdu) (fun p => match p with Ok ts => Forall tlv_wf ts /\ parsed_as apdu ts | Err _ => True end).
Proof.
  intros Hd. pose proof (apdu_parse_tlvs_ok _ Hd) as Ht. destruct (apdu_parse_tlvs apdu) as [[ts|e]|] eqn:E; try done.
  split; [done|]. by apply tlvs_of_parsed.
Qed.

(** ** Automation *)

(** What the TLV patterns found. *)
Ltac tlv_facts :=
  repeat match goal with
  | Hts : Forall tlv_wf ?ts, E : tlv_id ?ts _ = Some ?v |- _ =>
      lazymatch goal with Hv : id_ok v |- _ => fail | _ => pose proof (tlv_id_ok _ _ _ Hts E) end
  | Hts : Forall tlv_wf ?ts, E : tlv_u16 ?ts _ = Some ?v |- _ =>
      lazymatch goal with Hv : u16 v |- _ => fail | _ => pose proof (tlv_u16_ok _ _ _ Hts E) end
  | Hts : Forall tlv_wf ?ts, E : tlv_first ?ts _ = Some ?v |- _ =>
      lazymatch goal with Hv : u8 v |- _ => fail | _ => pose proof (tlv_first_ok _ _ _ Hts E) end
  | Hts : Forall tlv_wf ?ts, E : tlv_value ?ts _ = Some ?v |- _ =>
      lazymatch goal with Hv : wf v |- _ => fail | _ => pose proof (tlv_value_wf _ _ _ Hts E) end
  | Hs : store_ok ?st, E : get ?st ?id = Some ?o |- _ =>
      lazymatch goal with Hv : obj_ok o |- _ => fail | _ => pose proof (proj1 (lookup_obj_ok _ _ _ Hs E)) end
  | Hs : store_ok ?st, E : crypto_objects ?st !! _ = Some ?o |- _ =>
      lazymatch goal with Hv : ctx_ok o |- _ => fail | _ => pose proof (lookup_ctx_ok _ _ _ Hs E) end
  end.

(** One construct of a handler. *)
Ltac h_step :=
  lazymatch goal with
  | |- wp (rbind (apdu_parse_tlvs _) _) _ =>
      let ts := fresh "ts" in
      let Hts := fresh "Hts" in
      let Htl := fresh "Htl" in
      apply wp_bind; eapply wp_mono; [apply parse_tlvs_kept; assumption|];
      intros [ts|?] Hts; [destruct Hts as [Hts Htl]|clear Hts]
  | _ => wp_step
  end; cbv beta.

Ltac h_run := repeat h_step; tlv_facts.

(** A branch that leaves the store alone. *)
Ltac h_same := try (apply post_same; [assumption|solve [auto with se050 wfdb]]).

(** Side conditions about an object that is stored. *)
Ltac obj_side := cbn [obj_ok key_sized] in *; try done; auto with se050 wfdb.

(** The tags and values of a response. *)
Ltac tlvs_side :=
  apply resp_ok_tlvs;
  repeat (apply List.Forall_cons; [split; [vm_compute; split; congruence|cbn [value]; auto with wfdb]|]);
  try apply List.Forall_nil.

#[export] Hint Resolve wf_nil : se050.

(** ** Objects *)

Section objects.
Context `{R : Rng} {X : RsaCrate} {XO : RsaCrateOk} {H : HexCrate} {S : Serde} {F : FileSystem Value}
  {I : HashIter} {IO : HashIterOk}.

Definition post1 (imp : allowance) (st : ObjectStore) (out : ObjectStore * ApduResponse) : Prop :=
  post imp st (fst out) (snd out).

Lemma extract_object_id_ok ts id : Forall tlv_wf ts ->
  object_mgmt.extract_object_id ts = Some id -> id_ok id.
Proof.
  unfold object_mgmt.extract_object_id. intros Hts E. destruct (find_tlv ts TAG_1) as [t|] eqn:Et; [|done].
  destruct (Z.eqb_spec (len (value t)) 4); [|done]. injection E as <-.
  split; [done|]. by apply (find_tlv_wf _ _ _ Hts Et).
Qed.

Lemma extracted_names apdu ts id : parsed_as apdu ts ->
  object_mgmt.extract_object_id ts = Some id -> names apdu id.
Proof.
  unfold names, parsed_as, object_mgmt.extract_object_id. intros -> E. destruct (find_tlv ts TAG_1) as [t|] eqn:Et; [|done].
  destruct (Z.eqb_spec (len (value t)) 4); [|done]. injection E as <-. by apply find_tlv_In.
Qed.

Lemma meta_ok_1 p : match p with Some v => wf v | None => True end -> meta_ok (mkMetadata p 1).
Proof. intros. split; [done|]. by destruct p. Qed.
Lemma meta_ok_2 p : match p with Some v => wf v | None => True end -> meta_ok (mkMetadata p 2).
Proof. intros. split; [done|]. by destruct p. Qed.

Lemma len_vec_0 n : 0 <= n -> len (vec_repeat 0 n) = n.
Proof. intros. rewrite len_vec_repeat. lia. Qed.

Definition args_ok (a : object_mgmt.WriteArgs) : Prop :=
  match object_mgmt.wa_obj_id a with Some i => id_ok i | None => True end /\
  match object_mgmt.wa_data a with Some d => wf d | None => True end /\
  u16 (object_mgmt.wa_offset a) /\
  match object_mgmt.wa_file_len a with Some n => u16 n | None => True end.

Lemma write_arg_ok a t : args_ok a -> tlv_wf t -> args_ok (object_mgmt.write_arg a t).
Proof.
  intros (Hi & Hd & Ho & Hf) [Ht Hv]. unfold object_mgmt.write_arg.
  destruct (tag t =? TAG_POLICY); [done|].
  destruct ((tag t =? TAG_1) && bool_decide (object_mgmt.wa_obj_id a = None) && (len (value t) =? 4)) eqn:E1.
  { apply andb_true_iff in E1 as [_ E4%Z.eqb_eq]. done. }
  destruct (if tag t =? TAG_2 then be16 (value t) else None) as [o|] eqn:E2.
  { destruct (tag t =? TAG_2); [|done]. refine (conj _ (conj _ (conj _ _))); try done; by apply (be16_u16 _ _ Hv E2). }
  destruct (if tag t =? TAG_3 then be16 (value t) else None) as [o|] eqn:E3.
  { destruct (tag t =? TAG_3); [|done]. refine (conj _ (conj _ (conj _ _))); try done; by apply (be16_u16 _ _ Hv E3). }
  by destruct (tag t =? TAG_4).
Qed.

Lemma write_args_ok ts a : Forall tlv_wf ts -> args_ok a -> args_ok (foldl object_mgmt.write_arg a ts).
Proof. intros Hts. revert a. induction Hts; intros a Ha; simpl; auto using write_arg_ok. Qed.

(** The object a binary write names. *)
Lemma write_args_named (P : bytes -> Prop) ts a : (forall t, In t ts -> tag t = TAG_1 -> P (value t)) ->
  match object_mgmt.wa_obj_id a with Some i => P i | None => True end ->
  match object_mgmt.wa_obj_id (foldl object_mgmt.write_arg a ts) with Some i => P i | None => True end.
Proof.
  revert a. induction ts as [|t ts IH]; intros a Hts Ha; [done|]. cbn [foldl]. apply IH.
  { intros x Hx. apply Hts. by right. }
  unfold object_mgmt.write_arg. destruct (tag t =? TAG_POLICY); [done|].
  destruct ((tag t =? TAG_1) && bool_decide (object_mgmt.wa_obj_id a = None) && (len (value t) =? 4)) eqn:E1.
  { apply andb_true_iff in E1 as [[E1%Z.eqb_eq _]%andb_true_iff _]. cbn. apply Hts; [by left|done]. }
  destruct (if tag t =? TAG_2 then be16 (value t) else None); [done|].
  destruct (if tag t =? TAG_3 then be16 (value t) else None); [done|].
  by destruct (tag t =? TAG_4).
Qed.

Lemma write_binary_post apdu st imp : (forall id, names apdu id -> writes imp id) -> store_ok st -> wf (data apdu) ->
  wp (object_mgmt.handle_write_binary apdu st) (post1 imp st).
Proof.
  intros Hwr Hs Hd. unfold object_mgmt.handle_write_binary, post1. h_step; [|h_run; h_same].
  pose proof (write_args_named (names apdu) ts (object_mgmt.mkWriteArgs None None 0 None)) as Hnm.
  assert (Ha : args_ok (foldl object_mgmt.write_arg (object_mgmt.mkWriteArgs None None 0 None) ts)).
  { apply write_args_ok; [done|]. repeat split; cbn; lia. }
  set (a := foldl _ _ _) in *. destruct Ha as (Hi & Hda & Ho & Hf). cbn [object_mgmt.wa_obj_id] in Hnm.
  destruct (object_mgmt.wa_obj_id a) as [id|]; [|h_run; h_same].
  assert (Hwi : writes imp id).
  { apply Hwr, Hnm; [|done]. intros t Hin Ht. unfold names. rewrite Htl. destruct t. cbn in *. by subst. }
  destruct (creation_policy ts) as [cp|] eqn:Ep; [|h_run; h_same].
  pose proof (creation_policy_ok _ _ Hts Ep) as Hcp.
  destruct (exists_ st id && negb (policy_allows st id POLICY_OBJ_ALLOW_WRITE)) eqn:Eg; [h_run; h_same|].
  assert (Hw : wf (default [] (object_mgmt.wa_data a))) by (destruct (object_mgmt.wa_data a); [done|apply wf_nil]).
  pose proof (len_nonneg (default [] (object_mgmt.wa_data a))) as Hn.
  destruct (get st id) as [o|] eqn:Eo.
  - assert (He : exists_ st id = true) by (apply exists_true; by exists o).
    rewrite He in Eg. simpl in Eg. apply negb_false_iff in Eg.
    destruct o; try (h_run; h_same; fail). tlv_facts. h_run; h_same.
    apply post_write; obj_side.
  - assert (He : exists_ st id = false) by by apply exists_false.
    assert (Hz : 0 <= default (len (default [] (object_mgmt.wa_data a))) (object_mgmt.wa_file_len a)).
    { destruct (object_mgmt.wa_file_len a); simpl; [unfold u16 in *; lia|done]. }
    h_run; h_same.
    apply post_create; obj_side.
Qed.

Lemma be_u64_bound v : wf v -> 0 <= object_mgmt.be_u64 v < 2 ^ 64.
Proof.
  intros Hv. unfold object_mgmt.be_u64.
  cut (forall x, 0 <= x < 2 ^ 64 ->
    0 <= foldl (fun val b => Z.lor (Z.shiftl val 8 mod object_mgmt.U64) b) x v < 2 ^ 64).
  { intros Hc. apply Hc. lia. }
  induction Hv as [|b v Hb Hv IH]; intros x Hx; [done|]. simpl. apply IH.
  apply lor_bound; [lia| |unfold u8 in Hb; lia]. apply Z.mod_pos_bound. unfold object_mgmt.U64. lia.
Qed.

(** The counter masked to its size. *)
Lemma counter_next_bound v n : 0 <= v < 2 ^ 64 -> 1 <= n <= 8 ->
  0 <= Z.land ((v + 1) mod object_mgmt.U64)
    (if 8 <=? n then object_mgmt.U64 - 1 else Z.shiftl 1 (n * 8) - 1) < 2 ^ 64.
Proof.
  intros Hv Hn. apply land_bound; [lia|apply Z.mod_pos_bound; unfold object_mgmt.U64; lia|].
  destruct (8 <=? n); [unfold object_mgmt.U64; lia|].
  rewrite Z.shiftl_1_l. pose proof (Z.pow_pos_nonneg 2 (n * 8)). lia.
Qed.

Lemma write_counter_post apdu st imp : (forall id, names apdu id -> writes imp id) -> store_ok st -> wf (data apdu) ->
  wp (object_mgmt.handle_write_counter apdu st) (post1 imp st).
Proof.
  intros Hwr Hs Hd. unfold object_mgmt.handle_write_counter, post1. h_step; [|h_run; h_same].
  destruct (object_mgmt.extract_object_id ts) as [id|] eqn:Ei; [|h_run; h_same].
  assert (Hwi : writes imp id) by (apply Hwr; by eapply extracted_names).
  apply extract_object_id_ok in Ei; [|done].
  destruct (creation_policy ts) as [cp|] eqn:Ep; [|h_run; h_same].
  pose proof (creation_policy_ok _ _ Hts Ep) as Hcp.
  assert (Hv : match object_mgmt.be_u64 <$> tlv_value ts TAG_3 with
               | Some v => 0 <= v < 2 ^ 64 | None => True end).
  { destruct (tlv_value ts TAG_3) eqn:E3; [|done]. tlv_facts. by apply be_u64_bound. }
  destruct (object_mgmt.be_u64 <$> tlv_value ts TAG_3) as [v|].
  all: destruct (get st id) as [o|] eqn:Eo; [destruct o; try (h_run; h_same; fail)|].
  all: try (assert (He : exists_ st id = true) by (apply exists_true; eauto)).
  all: try (assert (He : exists_ st id = false) by (by apply exists_false)).
  all: cbn; h_run; h_same.
  all: try (apply negb_false_iff in E).
  all: first [apply post_write | apply post_create]; obj_side.
  all: destruct_and?; unfold u16 in *; split; [first [lia | by apply counter_next_bound]|lia].
Qed.

Lemma write_object_post apdu st imp : (forall id, names apdu id -> writes imp id) -> store_ok st -> wf (data apdu) ->
  wp (object_mgmt.handle_write apdu st) (post1 imp st).
Proof.
  intros Hwr Hs Hd. unfold object_mgmt.handle_write.
  repeat case_match; [by apply write_binary_post| |by apply write_counter_post|]; by h_run; h_same.
Qed.

Lemma delete_post apdu st imp : (forall id, names apdu id -> deletes imp id) -> store_ok st -> wf (data apdu) ->
  wp (object_mgmt.handle_delete apdu st) (post1 imp st).
Proof.
  intros Hdl Hs Hd. unfold object_mgmt.handle_delete, post1. h_step; [|h_run; h_same].
  destruct (object_mgmt.extract_object_id ts) as [id|] eqn:Ei; [|h_run; h_same].
  h_step; [h_run; h_same|]. apply negb_false_iff in E.
  pose proof (remove_spec st id) as Hr. destruct (remove st id) as [st' o].
  destruct Hr as (-> & Ho & Hm & Ha). specialize (Ha (so_aux _ Hs)).
  destruct (objects st !! id) eqn:Eo; apply wp_ret; (split; [|split; [done|auto with se050]]); simpl.
  - eapply ss_delete; [|done..]. apply Hdl. by eapply extracted_names.
  - apply ss_same; [|done]. by rewrite Ho, delete_id.
Qed.

(** *** Reads *)

Lemma rsa_public_der_wf' der : wf (object_mgmt.rsa_public_der der).
Proof.
  unfold object_mgmt.rsa_public_der. destruct (rsa_from_pkcs1_der der); [|apply wf_nil].
  destruct (rsa_public_to_pkcs1_der _) eqn:E; [|apply wf_nil]. by apply rsa_public_der_wf in E.
Qed.

Lemma read_object_resp apdu st : store_ok st -> wf (data apdu) ->
  wp (object_mgmt.handle_read_object apdu st) resp_ok.
Proof.
  intros Hs Hd. unfold object_mgmt.handle_read_object. h_step; [|h_run; auto with se050].
  destruct (object_mgmt.extract_object_id ts) as [id|] eqn:Ei; [|h_run; auto with se050].
  h_step; [h_run; auto with se050|].
  assert (Ho : u16 (default 0 (tlv_u16 ts TAG_2))).
  { destruct (tlv_u16 ts TAG_2) eqn:Eo; [tlv_facts; done|simpl; unfold u16; lia]. }
  destruct (get st id) as [o|] eqn:Eg; [|h_run; auto with se050].
  tlv_facts. destruct (tlv_u16 ts TAG_3) eqn:E3; tlv_facts.
  all: destruct o; cbn [obj_ok] in *; h_run; auto with se050 wfdb.
  all: try (apply resp_ok_tag1; first [by apply rsa_public_der_wf' | tauto]).
  all: destruct_and?; unfold u16 in *; try lia; try len_solve.
Qed.

(** *** Listings and attributes *)

Lemma list_ids_spec st id : id ∈ list_ids st <-> is_Some (objects st !! id).
Proof.
  unfold list_ids. rewrite (list_elem_of_fmap fst). setoid_rewrite (iter_objects_perm (objects st)).
  split.
  - intros ([i o] & -> & Hi%elem_of_map_to_list). by exists o.
  - intros [o Ho]. exists (id, o). split; [done|]. by apply elem_of_map_to_list.
Qed.

Lemma list_ids_ok st : store_ok st -> Forall id_ok (list_ids st).
Proof.
  intros Hs. apply Forall_forall. intros id [o Ho]%list_ids_spec. by apply (so_objects _ Hs _ _ Ho).
Qed.

Lemma filter_ids_wf f ids : Forall id_ok ids -> wf (concat (List.filter f ids)).
Proof.
  induction 1 as [|i ids [_ Hi] _ IH]; [apply wf_nil|]. simpl. destruct (f i); [|done]. by apply wf_app.
Qed.

Lemma sort_ids_perm ids : object_mgmt.sort_ids ids ≡ₚ ids.
Proof. apply merge_sort_Permutation. Qed.

Lemma read_id_list_resp apdu st v7 : store_ok st -> wf (data apdu) ->
  wp (object_mgmt.handle_read_id_list apdu st v7) resp_ok.
Proof.
  intros Hs Hd. unfold object_mgmt.handle_read_id_list. h_step; h_run; auto with se050.
  tlvs_side.
  apply filter_ids_wf, Forall_drop. rewrite sort_ids_perm. by apply list_ids_ok.
Qed.

Lemma type_code_u8 o v7 : u8 (type_code o v7).
Proof. destruct o as [[]| []| | | | | |], v7; simpl; unfold u8; lia. Qed.

Lemma read_type_resp apdu st v7 : store_ok st -> wf (data apdu) ->
  wp (object_mgmt.handle_read_type apdu st v7) resp_ok.
Proof.
  intros Hs Hd. unfold object_mgmt.handle_read_type. h_run; auto with se050.
  tlvs_side. apply wf_cons; [apply type_code_u8|apply wf_nil].
Qed.

Lemma read_size_resp apdu st : store_ok st -> wf (data apdu) ->
  wp (object_mgmt.handle_read_size apdu st) resp_ok.
Proof. intros Hs Hd. unfold object_mgmt.handle_read_size. h_run; auto with se050 wfdb. Qed.

Lemma read_attributes_resp apdu st v7 : store_ok st -> wf (data apdu) ->
  wp (object_mgmt.handle_read_attributes apdu st v7) resp_ok.
Proof.
  intros Hs Hd. unfold object_mgmt.handle_read_attributes. h_step; [h_run; auto with se050|].
  h_step; [|h_run; auto with se050].
  destruct (object_mgmt.extract_object_id ts) as [id|] eqn:Ei; [|h_run; auto with se050].
  apply extract_object_id_ok in Ei as [_ Hi]; [|done]. h_run; auto with se050.
  pose proof (type_code_u8 s true) as Hc.
  assert (Hm : wf (match get_metadata st id with
                   | Some m => match policy m with Some p => p | None => [] end ++ [origin m]
                   | None => [0x01] end)).
  { destruct (get_metadata st id) as [m|] eqn:Em; [|auto with wfdb].
    destruct (so_metadata _ Hs _ _ Em) as [Ho Hp]. apply wf_app; [|auto with wfdb].
    destruct (policy m); [done|apply wf_nil]. }
  tlvs_side. repeat apply wf_app; auto with wfdb.
Qed.

Lemma read_post apdu st v7 : store_ok st -> wf (data apdu) ->
  wp (object_mgmt.handle_read apdu st v7) resp_ok.
Proof.
  intros Hs Hd. unfold object_mgmt.handle_read.
  repeat case_match; auto using read_object_resp, read_size_resp, read_id_list_resp, read_type_resp,
    read_attributes_resp. h_run; auto with se050.
Qed.

Lemma mgmt_post apdu st imp :
  ((p2 apdu =? P2_DELETE_OBJECT) = true -> forall id, names apdu id -> deletes imp id) -> store_ok st -> wf (data apdu) ->
  wp (object_mgmt.handle_mgmt apdu st) (post1 imp st).
Proof.
  intros Hdl Hs Hd. unfold object_mgmt.handle_mgmt. case_match.
  - apply wp_bind. unfold object_mgmt.handle_check_exists. h_run; h_same. 
    all: apply post_same; [done|]. apply resp_ok_tag1. destruct (exists_ st _); auto with wfdb.
  - case_match; [apply delete_post; auto|]. by h_run; h_same.
Qed.
End objects.

(** ** Management, contexts, curves, digests *)

Section simple.
Context `{R : Rng} {RO : RngOk} {D : DigestCrate} {DO : DigestCrateOk} {H : HexCrate} {S : Serde}
  {F : FileSystem Value} {I : HashIter} {IO : HashIterOk}.

Lemma version_bytes_wf v : wf (version_bytes v).
Proof. destruct v; simpl; auto 10 with wfdb. Qed.

Lemma free_memory_wf v m b : free_memory_bytes v m = Some b -> wf b.
Proof.
  unfold free_memory_bytes. destruct v; simpl; repeat (case_match; [|]); intros [= <-]; auto with wfdb.
Qed.

Lemma get_random_resp apdu v r : wf (data apdu) ->
  wp (management.handle_get_random apdu v r) (fun out => resp_ok (snd out)).
Proof.
  intros Hd. unfold management.handle_get_random. h_run; auto with se050; try lia.
  apply resp_ok_tag1. pose proof (fill_bytes_wf (Z.lor (Z.shiftl x 8) x0) r) as Hw.
  match goal with E : fill_bytes _ _ = _ |- _ => by rewrite E in Hw end.
Qed.

(** A command that only changes the auxiliary maps. *)
Definition post_rng (imp : allowance) (st : ObjectStore) (out : ObjectStore * rng * ApduResponse) : Prop :=
  post imp st (fst (fst out)) (snd out).

Lemma clear_post imp st : clears imp -> store_ok st -> post imp st (clear st) success.
Proof.
  intros Hcl Hs. unfold clear. split; [|split; [|auto with se050]].
  - apply ss_clear; [done|apply objects_persist|apply metadata_persist].
  - apply aux_persist. split; simpl; try apply map_Forall_empty; try apply (so_aux _ Hs).
    unfold default_curves. cbn [list_to_map fmap list_fmap fst snd foldr].
    do 5 (apply map_Forall_insert_2; [split; (vm_compute; split; congruence)|]). apply map_Forall_empty.
Qed.

Lemma management_post apdu st r v imp : ((p2 apdu =? P2_DELETE_ALL) = true -> clears imp) -> store_ok st -> wf (data apdu) ->
  wp (management.handle apdu st r v) (post_rng imp st).
Proof.
  intros Hcl Hs Hd. unfold management.handle, post_rng. repeat h_step.
  - apply post_same; [done|]. apply resp_ok_tag1, version_bytes_wf.
  - unfold management.handle_get_free_memory. h_run; h_same.
    apply post_same; [done|]. apply resp_ok_tag1. by eapply free_memory_wf.
  - eapply wp_mono; [by apply get_random_resp|]. intros [r' resp] Hr. by apply post_same.
  - injection E3 as <- <-. apply clear_post; auto.
  - by h_same.
Qed.

(** An auxiliary map is replaced and the store persisted. *)
Lemma post_persist imp st st1 resp :
  objects st1 = objects st -> metadata st1 = metadata st -> aux_ok st1 -> resp_ok resp ->
  post imp st (persist st1) resp.
Proof.
  intros Ho Hm Ha Hr. apply post_aux; [by rewrite objects_persist|by rewrite metadata_persist| |done].
  by apply aux_persist.
Qed.

Lemma set_required_post imp st b : store_ok st -> post imp st (set_scp_required st b) success.
Proof.
  intros Hs. unfold set_scp_required. apply post_persist; [done|done| |auto with se050].
  destruct (so_aux _ Hs). by split.
Qed.

Lemma set_platform_scp_post apdu st act imp : store_ok st -> wf (data apdu) ->
  wp (management.handle_set_platform_scp apdu st act) (post1 imp st).
Proof.
  intros Hs Hd. unfold management.handle_set_platform_scp, post1. h_run; h_same;
    by apply set_required_post.
Qed.

Lemma crypto_create_post apdu st imp : store_ok st -> wf (data apdu) ->
  wp (crypto_obj.handle_create apdu st) (post1 imp st).
Proof.
  intros Hs Hd. unfold crypto_obj.handle_create, post1. h_run; h_same.
  apply post_aux; auto with se050. apply aux_set_types; [apply Hs|].
  apply map_Forall_insert_2; [|apply Hs]. split; [done|]. simpl.
  destruct (tlv_first ts TAG_3) eqn:E3; [by tlv_facts|simpl; unfold u8; lia].
Qed.

Lemma crypto_list_resp st : store_ok st -> resp_ok (crypto_obj.handle_list st).
Proof.
  intros Hs. apply resp_ok_tag1. unfold wf. apply Forall_bind, Forall_forall.
  intros [id [c s]] He. rewrite (iter_types_perm (crypto_object_types st)) in He.
  apply elem_of_map_to_list in He. destruct (aux_types _ (so_aux _ Hs) _ _ He) as [Hc Ht].
  simpl in *. auto 10 with wfdb.
Qed.

Lemma crypto_delete_post apdu st imp : store_ok st -> wf (data apdu) ->
  wp (crypto_obj.handle_delete apdu st) (post1 imp st).
Proof.
  intros Hs Hd. unfold crypto_obj.handle_delete, post1. h_run; h_same.
  apply post_aux; auto with se050. apply aux_set_contexts; [apply aux_set_types; [apply Hs|]|];
    by apply map_Forall_delete, Hs.
Qed.

(** *** Curves *)

Lemma curve_write_post imp st m : store_ok st -> map_Forall (fun k x => u8 k /\ u8 x) m ->
  post imp st (persist (set_ec_curves st m)) success.
Proof.
  intros Hs Hm. apply post_persist; [done|done| |auto with se050].
  apply aux_set_curves; [apply Hs|done].
Qed.

Lemma curve_id_ok apdu : wf (data apdu) ->
  wp (curve.curve_id_from_tag1 apdu) (fun c => match c with Some x => u8 x | None => True end).
Proof.
  intros Hd. unfold curve.curve_id_from_tag1. h_step; h_run; [|done].
  destruct (tlv_value ts TAG_1) as [v|] eqn:E; [|done]. tlv_facts. destruct v as [|x [|? ?]]; try done.
  by match goal with Hv : wf [x] |- _ => apply wf_cons_inv in Hv as [Hx _] end.
Qed.

Lemma curve_create_post apdu st v imp : store_ok st -> wf (data apdu) ->
  wp (curve.handle_create apdu st v) (post1 imp st).
Proof.
  intros Hs Hd. unfold curve.handle_create, post1. apply wp_bind.
  eapply wp_mono; [by apply curve_id_ok|]. intros c Hc.
  h_run; h_same; (apply curve_write_post; [done|]; apply map_Forall_insert_2; [by split|apply Hs]).
Qed.

Lemma curve_param_post apdu st imp : store_ok st -> wf (data apdu) ->
  wp (curve.handle_set_param apdu st) (post1 imp st).
Proof.
  intros Hs Hd. unfold curve.handle_set_param, post1. h_run; h_same.
  unfold curve_add_param. destruct (ec_curves st !! _) as [mask|] eqn:Em; [|by h_same].
  apply curve_write_post; [done|]. apply map_Forall_insert_2; [|apply Hs].
  pose proof (aux_curves _ (so_aux _ Hs) _ _ Em) as [Hk Hm]. split; [done|]. apply (lor_bound 8); [lia|done|].
  rewrite Z.land_comm. apply (land_bound 8); [lia|unfold CURVE_PARAMS_COMPLETE; lia|].
  destruct (existsb _ _) eqn:Ex; [|done]. apply existsb_exists in Ex as (y & Hy & Ey).
  simpl in Hy. apply Z.eqb_eq in Ey. subst. lia.
Qed.

Lemma curve_delete_post apdu st imp : store_ok st -> wf (data apdu) ->
  wp (curve.handle_delete apdu st) (post1 imp st).
Proof.
  intros Hs Hd. unfold curve.handle_delete, post1. apply wp_bind.
  eapply wp_mono; [by apply curve_id_ok|]. intros c _. h_step; [|by h_run; h_same].
  unfold curve_delete. destruct (ec_curves st !! z); h_run; h_same.
  apply curve_write_post; [done|]. by apply map_Forall_delete, Hs.
Qed.

Lemma curve_list_resp st : resp_ok (curve.handle_list st).
Proof.
  apply resp_ok_tag1. apply Forall_fmap, Forall_forall. intros i _. simpl.
  destruct (curve_exists _ _); unfold u8; lia.
Qed.

(** *** Digests *)

Lemma hash_response_ok m d : resp_ok (digest.hash_response m d).
Proof.
  unfold digest.hash_response, digest.compute_hash.
  repeat case_match; simplify_eq; auto using resp_ok_tag1, digest_wf with se050.
Qed.

Lemma digest_oneshot_resp apdu : wf (data apdu) -> wp (digest.handle_digest_oneshot apdu) resp_ok.
Proof. intros Hd. unfold digest.handle_digest_oneshot. h_run; auto using hash_response_ok with se050. Qed.

(** A context is stored. *)
Lemma context_post imp st i c resp : store_ok st -> ctx_ok c -> resp_ok resp ->
  post imp st (set_crypto_objects st (<[i := c]> (crypto_objects st))) resp.
Proof.
  intros Hs Hc Hr. apply post_aux; try done. apply aux_set_contexts; [apply Hs|].
  apply map_Forall_insert_2; [done|apply Hs].
Qed.

(** A context is taken out. *)
Lemma drop_context_post imp st i resp : store_ok st -> resp_ok resp ->
  post imp st (set_crypto_objects st (delete i (crypto_objects st))) resp.
Proof.
  intros Hs Hr. apply post_aux; try done. apply aux_set_contexts; [apply Hs|].
  by apply map_Forall_delete, Hs.
Qed.

Lemma digest_init_post apdu st imp : store_ok st -> wf (data apdu) ->
  wp (digest.handle_digest_init apdu st) (post1 imp st).
Proof.
  intros Hs Hd. unfold digest.handle_digest_init, post1. h_run; h_same.
  apply context_post; auto with se050. apply wf_nil.
Qed.

Lemma digest_update_post apdu st imp : store_ok st -> wf (data apdu) ->
  wp (digest.handle_digest_update apdu st) (post1 imp st).
Proof.
  intros Hs Hd. unfold digest.handle_digest_update, post1. h_run; h_same.
  apply context_post; auto with se050. by apply wf_app.
Qed.

Lemma digest_final_post apdu st imp : store_ok st -> wf (data apdu) ->
  wp (digest.handle_digest_final apdu st) (post1 imp st).
Proof.
  intros Hs Hd. unfold digest.handle_digest_final, post1.
  h_run; h_same; apply drop_context_post; auto with se050. apply hash_response_ok.
Qed.
End simple.
