(* ===== verification/Se050CryptoFacts.v ===== *)
(** * SE050Sim: the symmetric handlers refine the store's transitions

    AES, the modes of operation and their inverse, MACs, and RSA: the handlers return,
    whatever the TLVs and the store ([post1], [resp_ok]); the equations of the modes
    the functional theorems use. *)

From S2P Require Import Prelude.
From S2P Require Import Host.
From S2P Require Import Crates.
From S2P Require Import Se050Crates.
From S2P Require Import Se050Types.
From S2P Require Import Se050StoreFacts.
From S2P Require Import Se050Store.
From S2P Require Import Se050Handlers.
From S2P Require Import Se050HandlersFacts.
From S2P Require Import Se050ObjectMgmt.
From S2P Require Import Se050Aes.
From S2P Require Import Se050Rsa.

(** ** Blocks *)

Definition block (b : bytes) : Prop := len b = 16.

(** The chunks of a string whose length is a multiple of the chunk size. *)
Lemma chunks_exact {A} (n : Z) (l : list A) : 0 < n -> len l mod n = 0 -> Forall (fun c => len c = n) (chunks n l).
Proof.
  intros Hn. unfold chunks. assert (Hf : (length l <= length l)%nat) by done. revert Hf.
  generalize (length l) at 2 3 as fuel. intros fuel. revert l.
  induction fuel as [|fuel IH]; intros [|x l] Hf Hm; try done; simpl; constructor.
  - rewrite len_sub, len_cons in *. pose proof (len_nonneg l).
    assert (n <= 1 + len l); [|lia]. destruct (Z_lt_le_dec (1 + len l) n); [|done].
    rewrite Z.mod_small in Hm by lia. lia.
  - apply IH; [rewrite length_drop; simpl in *; lia|]. rewrite len_drop, Z2Nat.id by lia.
    destruct (Z_lt_le_dec (len (x :: l)) n).
    { rewrite Z.max_l by lia. apply Z.mod_0_l. lia. }
    rewrite Z.max_r by lia. rewrite <- (Z_mod_plus_full _ 1), Z.mul_1_l. by rewrite Z.sub_add.
Qed.

(** Chunks of a concatenation of exact chunks. *)
Lemma chunks_cons {A} (n : Z) (c l : list A) : 0 < n -> len c = n -> chunks n (c ++ l) = c :: chunks n l.
Proof.
  intros Hn Hc. unfold chunks.
  assert (Hlc : length c = Z.to_nat n) by (unfold len in Hc; lia).
  assert (Hgen : forall f g (k : list A), (length k <= f)%nat -> (length k <= g)%nat ->
    chunks_fuel f n k = chunks_fuel g n k).
  { induction f as [|f IH]; intros [|g] [|x k] Hf Hg; try done; simpl in *; try lia.
    f_equal. apply IH; rewrite length_drop; simpl; lia. }
  destruct (c ++ l) as [|x k] eqn:E.
  { apply app_eq_nil in E as [-> ->]. rewrite len_nil in Hc. lia. }
  simpl. rewrite <- E. f_equal.
  - rewrite <- Hc. apply sub_prefix.
  - rewrite <- Hlc, drop_app_length. apply Hgen; [|done].
    apply (f_equal length) in E. rewrite length_app in E. simpl in E. lia.
Qed.

Section modes.
Context `{A : AesCrate} {AO : AesCrateOk}.

Lemma any_aes_some key : aes_key_len (len key) -> is_Some (aes.any_aes_new key).
Proof.
  intros Hk. unfold aes.any_aes_new.
  destruct Hk as [E|[E|E]]; rewrite E; cbn -[aes_new_from_slice]; apply fmap_is_Some, aes_new_some; try done; set_solver.
Qed.

Lemma encrypt_block_ok c b : block b -> wf b -> block (aes.encrypt_block c b) /\ wf (aes.encrypt_block c b).
Proof. intros Hb Hw. destruct c; simpl; split; auto using aes_encrypt_wf; by apply aes_encrypt_len. Qed.
Lemma decrypt_block_ok c b : block b -> wf b -> block (aes.decrypt_block c b) /\ wf (aes.decrypt_block c b).
Proof. intros Hb Hw. destruct c; simpl; split; auto using aes_decrypt_wf; by apply aes_decrypt_len. Qed.
Lemma decrypt_encrypt_block c b : block b -> wf b -> aes.decrypt_block c (aes.encrypt_block c b) = b.
Proof. intros Hb Hw. destruct c; simpl; by apply aes_decrypt_encrypt. Qed.

Lemma copy_block b : block b -> copy_from_slice (vec_repeat 0 16) 0 16 b = Ret b.
Proof.
  intros Hb. unfold copy_from_slice. rewrite bool_decide_true.
  2:{ rewrite Hb. split_and!; done. }
  rewrite splice_full; [done|by rewrite Hb].
Qed.

Lemma len_xor a b : len a = len b -> len (xor_bytes a b) = len a.
Proof. intros E. unfold xor_bytes, len in *. rewrite length_zip_with. lia. Qed.

Lemma u8_lxor x y : u8 x -> u8 y -> u8 (Z.lxor x y).
Proof.
  intros Hx Hy. unfold u8 in *.
  assert (Z.lxor x y = Z.lxor x y mod 2 ^ 8) as ->; [|apply Z.mod_pos_bound; lia].
  apply Z.bits_inj'. intros n Hn. destruct (Z.ltb_spec n 8).
  - by rewrite Z.mod_pow2_bits_low by lia.
  - rewrite Z.mod_pow2_bits_high, Z.lxor_spec by lia.
    rewrite <- (Z.mod_small x (2 ^ 8)), <- (Z.mod_small y (2 ^ 8)) by lia.
    by rewrite !Z.mod_pow2_bits_high by lia.
Qed.

Lemma wf_xor a b : wf a -> wf b -> wf (xor_bytes a b).
Proof.
  intros Ha. revert b. induction Ha as [|x a Hx Ha IH]; intros [|y b] Hb; try apply wf_nil.
  apply wf_cons_inv in Hb as [Hy Hb]. apply wf_cons; [by apply u8_lxor|by apply IH].
Qed.

Lemma xor_xor a b : len a = len b -> xor_bytes (xor_bytes a b) b = a.
Proof.
  revert b. induction a as [|x a IH]; intros [|y b] E; try done.
  rewrite !len_cons in E. simpl. f_equal; [|apply IH; lia].
  by rewrite Z.lxor_assoc, Z.lxor_nilpotent, Z.lxor_0_r.
Qed.

(** ** The modes *)

Lemma ecb_ok c cs e : Forall block cs -> Forall wf cs ->
  wp (aes.ecb_chunks c cs e) (fun out => wf out).
Proof.
  induction 1 as [|b cs Hb _ IH]; intros Hw; simpl; [apply wf_nil|].
  apply Forall_cons in Hw as [Hwb Hw]. rewrite copy_block by done. cbn [rbind]. apply wp_bind.
  eapply wp_mono; [by apply IH|]. intros out Ho. apply wf_app; [|done].
  destruct e; [by apply encrypt_block_ok|by apply decrypt_block_ok].
Qed.

Definition cbc_post (out : bytes * bytes) : Prop := block (fst out) /\ wf (fst out) /\ wf (snd out).

Lemma cbc_ok c cs e chain : Forall block cs -> Forall wf cs -> block chain -> wf chain ->
  wp (aes.cbc_chunks c chain cs e) cbc_post.
Proof.
  intros Hc. revert chain. induction Hc as [|b cs Hb _ IH]; intros chain Hw Hch Hwc; [by split_and!; auto using wf_nil|].
  cbn [aes.cbc_chunks]. apply Forall_cons in Hw as [Hwb Hw]. rewrite copy_block by done. cbn [rbind].
  assert (Hx : block (xor_bytes b chain)) by (unfold block in *; rewrite len_xor; lia).
  destruct e.
  - destruct (encrypt_block_ok c _ Hx (wf_xor _ _ Hwb Hwc)) as [H1 H2].
    apply wp_bind. eapply wp_mono; [by apply IH|]. intros [ch out] (? & ? & ?). split_and!; try done.
    by apply wf_app.
  - destruct (decrypt_block_ok c _ Hb Hwb) as [H1 H2].
    apply wp_bind. eapply wp_mono; [by apply IH|]. intros [ch out] (? & ? & ?). split_and!; try done.
    apply wf_app; [by apply wf_xor|done].
Qed.

Lemma increment_rev_ok l : wf l -> wf (aes.increment_rev l).
Proof.
  induction 1 as [|x l Hx Hl IH]; [apply wf_nil|]. simpl. destruct (negb _); apply wf_cons; auto with wfdb.
Qed.
Lemma len_increment_rev l : len (aes.increment_rev l) = len l.
Proof. induction l as [|x l IH]; [done|]. simpl. destruct (negb _); rewrite !len_cons; lia. Qed.
Lemma increment_ok l : block l -> wf l -> block (aes.increment l) /\ wf (aes.increment l).
Proof.
  intros Hb Hw. unfold aes.increment, block in *. split.
  - by rewrite len_reverse, len_increment_rev, len_reverse.
  - by apply wf_reverse, increment_rev_ok, wf_reverse.
Qed.

Lemma ctr_ok c cs ctr : Forall wf cs -> block ctr -> wf ctr -> cbc_post (aes.ctr_chunks c ctr cs).
Proof.
  intros Hw. revert ctr. induction Hw as [|b cs Hb _ IH]; intros ctr Hc Hwc; [by split_and!; auto using wf_nil|].
  cbn [aes.ctr_chunks]. destruct (increment_ok _ Hc Hwc) as [Hi1 Hi2]. specialize (IH _ Hi1 Hi2).
  destruct (aes.ctr_chunks c (aes.increment ctr) cs) as [ctr' out]. destruct IH as (? & ? & ?).
  split_and!; try done. apply wf_app; [|done]. apply wf_xor; [done|by apply encrypt_block_ok].
Qed.

Lemma wf_chunks n l : 0 < n -> wf l -> Forall wf (chunks n l).
Proof. intros. apply wf_concat_inv. by rewrite concat_chunks. Qed.

Definition mode_wf (out : bytes * Result bytes Z) : Prop :=
  block (fst out) /\ wf (fst out) /\ match snd out with Ok o => wf o | Err s => u16 s end.

Lemma apply_mode_ok mode key chain d e fin : aes_key_len (len key) -> block chain -> wf chain -> wf d ->
  wp (aes.apply_mode mode key chain d e fin) mode_wf.
Proof.
  intros Hk Hc Hwc Hd. unfold aes.apply_mode. destruct (any_aes_some _ Hk) as [c ->].
  pose proof (wf_chunks 16 d ltac:(lia) Hd) as Hwd.
  assert (Hex : negb (len d mod 16 =? 0) = false -> Forall block (chunks 16 d)).
  { intros E%negb_false_iff%Z.eqb_eq. by apply chunks_exact. }
  repeat (h_step; [| |..]); repeat h_step; try (split_and!; simpl; try done; vm_compute; split; congruence).
  - unfold aes.ecb_process. eapply wp_mono; [by apply ecb_ok; auto|]. intros out Ho. by split_and!.
  - unfold aes.cbc_process. eapply wp_mono; [by apply cbc_ok; auto|]. intros [ch out] (? & ? & ?). by split_and!.
  - pose proof (ctr_ok c _ _ Hwd Hc Hwc) as Hx. unfold aes.ctr_process in *.
    match goal with E : aes.ctr_chunks _ _ _ = _ |- _ => rewrite E in Hx end. by destruct Hx as (? & ? & ?); split_and!.
Qed.
End modes.

(** ** Symmetric handlers *)

Section aes.
Context `{R : Rng} {RO : RngOk} {A : AesCrate} {AO : AesCrateOk} {D : DigestCrate} {DO : DigestCrateOk}
  {H : HexCrate} {S : Serde} {F : FileSystem Value} {I : HashIter} {IO : HashIterOk}.

Lemma tlv_iv_ok ts iv : Forall tlv_wf ts -> aes.tlv_iv ts = Some iv -> block iv /\ wf iv.
Proof.
  unfold aes.tlv_iv. intros Hts E. destruct (tlv_value ts TAG_4) as [[|x v]|] eqn:Ev.
  - injection E as <-. split; [done|apply wf_vec_repeat; unfold u8; lia].
  - destruct (Z.eqb_spec (len (x :: v)) 16); [|done]. injection E as <-. tlv_facts. done.
  - injection E as <-. split; [done|apply wf_vec_repeat; unfold u8; lia].
Qed.

Lemma aes_key_of_ok st id key : store_ok st -> aes.aes_key_of st id = Some key ->
  wf key /\ aes_key_len (len key).
Proof.
  unfold aes.aes_key_of. intros Hs E. destruct (get st id) as [[]|] eqn:Eg; try done.
  injection E as <-. by tlv_facts.
Qed.

Lemma mode_response_ok out : mode_wf out -> resp_ok (aes.mode_response (snd out)).
Proof. intros (_ & _ & Ho). destruct (snd out); simpl; auto using resp_ok_tag1, resp_ok_error. Qed.

Lemma cipher_oneshot_resp apdu st e : store_ok st -> wf (data apdu) ->
  wp (aes.handle_cipher_oneshot apdu st e) resp_ok.
Proof.
  intros Hs Hd. unfold aes.handle_cipher_oneshot. do 6 (h_step; [|by h_run; auto with se050]).
  tlv_facts. destruct (tlv_iv_ok _ _ Hts E2) as [Hb Hw]. destruct (aes_key_of_ok _ _ _ Hs E3) as [_ Hk].
  apply wp_bind. eapply wp_mono; [by apply apply_mode_ok|]. intros [ch out] Ho. apply wp_ret.
  by apply (mode_response_ok (ch, out)).
Qed.

Lemma cipher_init_post apdu st imp : store_ok st -> wf (data apdu) ->
  wp (aes.handle_cipher_init apdu st) (post1 imp st).
Proof.
  intros Hs Hd. unfold aes.handle_cipher_init, post1. h_run; h_same.
  match goal with E : aes.tlv_iv _ = Some _ |- _ => destruct (tlv_iv_ok _ _ Hts E) as [Hb Hw] end.
  apply context_post; auto with se050. split_and!; auto using wf_nil.
Qed.

Lemma cipher_update_post apdu st imp : store_ok st -> wf (data apdu) ->
  wp (aes.handle_cipher_update apdu st) (post1 imp st).
Proof.
  intros Hs Hd. unfold aes.handle_cipher_update, post1.
  do 3 (h_step; [|by h_run; h_same]). h_step; [|by h_run; h_same].
  h_step; [by h_run; h_same| |by h_run; h_same]. subst. h_step; [|by h_run; h_same]. tlv_facts.
  destruct (aes_key_of_ok _ _ _ Hs E2) as [_ Hk]. destruct H2 as (Hkid & Hch & Hwch & Hp).
  assert (Hb : wf (pending ++ l)) by by apply wf_app.
  set (buf := pending ++ l) in *. pose proof (len_nonneg buf) as Hn.
  pose proof (Z.mod_pos_bound (len buf) 16 ltac:(lia)) as Hm.
  pose proof (Z.mod_le (len buf) 16 Hn ltac:(lia)) as Hle.
  rewrite !slice_ret by lia. cbn [rbind]. rewrite copy_block by done. cbn [rbind]. apply wp_bind.
  eapply wp_mono; [apply apply_mode_ok; auto with wfdb|]. intros [ch out] (Hb' & Hw' & Ho).
  h_step; h_step; simpl in *; h_same.
  apply context_post; auto with se050. split_and!; auto with wfdb; apply Hkid.
Qed.

Lemma cipher_final_post apdu st imp : store_ok st -> wf (data apdu) ->
  wp (aes.handle_cipher_final apdu st) (post1 imp st).
Proof.
  intros Hs Hd. unfold aes.handle_cipher_final, post1.
  do 2 (h_step; [|by h_run; h_same]). h_step; [|by h_run; h_same].
  h_step; subst; [by h_run; apply drop_context_post; auto with se050| |by h_run; apply drop_context_post; auto with se050].
  h_step; [|by h_run; apply drop_context_post; auto with se050]. tlv_facts.
  destruct (aes_key_of_ok st _ _ Hs E1) as [_ Hk]. destruct H1 as (Hkid & Hch & Hwch & Hp).
  assert (Hb : wf (match tlv_value ts TAG_3 with Some rem => pending ++ rem | None => pending end)).
  { destruct (tlv_value ts TAG_3) eqn:E3; [tlv_facts; by apply wf_app|done]. }
  rewrite copy_block by done. cbn [rbind]. apply wp_bind.
  eapply wp_mono; [by apply apply_mode_ok|]. intros [ch out] Ho. apply wp_ret.
  apply drop_context_post; [done|]. by apply (mode_response_ok (ch, out)).
Qed.

Lemma write_aes_key_post apdu st r imp : (forall id, names apdu id -> writes imp id) -> store_ok st -> wf (data apdu) ->
  wp (aes.handle_write_aes_key apdu st r) (post_rng imp st).
Proof.
  intros Hwr Hs Hd. unfold aes.handle_write_aes_key, post_rng.
  do 2 (h_step; [|by h_run; h_same]). h_step; [|by h_run; h_same].
  pose proof (creation_policy_ok _ _ Hts E0) as Hcp. tlv_facts. pose proof (Hwr _ (tlv_id_names _ _ _ Htl E)) as Hwi.
  h_step; [by h_run; h_same|]. h_step.
  - h_step; [|by h_run; h_same]. h_step. apply wp_ret. simpl.
    assert (Hz : aes_key_len z).
    { clear -E3. unfold aes_key_len. repeat case_match; simplify_eq; lia. }
    assert (Hl : len l0 = z /\ wf l0).
    { pose proof (fill_bytes_len z r) as Hl. pose proof (fill_bytes_wf z r) as Hw. rewrite E4 in Hl, Hw.
      split; [|done]. apply Hl. unfold aes_key_len in Hz. lia. }
    destruct Hl as [<- Hw]. apply post_record; try done; auto with se050.
  - h_step; [|by h_run; h_same]. tlv_facts. h_step; [by h_run; h_same|]. apply wp_ret. simpl.
    apply post_record; try done; auto with se050.
    split; [done|]. unfold aes_key_len. lia.
Qed.

Lemma write_hmac_key_post apdu st imp : (forall id, names apdu id -> writes imp id) -> store_ok st -> wf (data apdu) ->
  wp (aes.handle_write_hmac_key apdu st) (post1 imp st).
Proof.
  intros Hwr Hs Hd. unfold aes.handle_write_hmac_key, post1.
  do 2 (h_step; [|by h_run; h_same]). h_step; [by h_run; h_same|]. h_step; [|by h_run; h_same].
  pose proof (creation_policy_ok _ _ Hts E1) as Hcp. tlv_facts. pose proof (Hwr _ (tlv_id_names _ _ _ Htl E)) as Hwi.
  h_run; h_same.
  apply post_record; try done; auto with se050.
Qed.

(** ** MACs *)

Lemma mac_result_ok algo o d ex : resp_ok (mac.mac_result algo o d ex).
Proof.
  unfold mac.mac_result, mac.compute_mac, mac.hmac_compute.
  assert (Hm : forall m, wf m -> resp_ok (mac.mac_response m ex)).
  { intros m Hm. unfold mac.mac_response. destruct ex; apply resp_ok_tag1; [|done].
    case_bool_decide; apply wf_cons; try apply wf_nil; unfold u8; lia. }
  assert (Hc : forall k m, mac.cmac_aes k d = Some m -> wf m).
  { unfold mac.cmac_aes, mac.do_cmac. intros k m Em. repeat case_match; simplify_eq; apply cmac_finalize_wf. }
  assert (Hh : forall h k, wf (simple_hmac h k d)) by (intros; apply simple_hmac_wf).
  repeat case_match; simplify_eq; auto with se050; by eapply Hm, Hc.
Qed.

Lemma mac_oneshot_resp apdu st v : store_ok st -> wf (data apdu) ->
  wp (mac.handle_oneshot apdu st v) resp_ok.
Proof. intros Hs Hd. unfold mac.handle_oneshot. h_run; auto using mac_result_ok with se050. Qed.

Lemma mac_init_post apdu st v imp : store_ok st -> wf (data apdu) ->
  wp (mac.handle_init apdu st v) (post1 imp st).
Proof.
  intros Hs Hd. unfold mac.handle_init, post1. h_run; h_same.
  apply context_post; auto with se050. split_and!; auto using wf_nil.
Qed.

Lemma default_tlv_wf ts g : Forall tlv_wf ts -> wf (default [] (tlv_value ts g)).
Proof. intros Hts. destruct (tlv_value ts g) eqn:E; [by tlv_facts|apply wf_nil]. Qed.

Lemma mac_update_post apdu st imp : store_ok st -> wf (data apdu) ->
  wp (mac.handle_update apdu st) (post1 imp st).
Proof.
  intros Hs Hd. unfold mac.handle_update, post1. h_run; h_same.
  match goal with Hc : ctx_ok (Mac _ _ _ _) |- _ => destruct Hc as [Hc Hw] end.
  apply context_post; auto with se050. split; [done|]. apply wf_app; [done|by apply default_tlv_wf].
Qed.

Lemma mac_final_post apdu st imp : store_ok st -> wf (data apdu) ->
  wp (mac.handle_final apdu st) (post1 imp st).
Proof.
  intros Hs Hd. unfold mac.handle_final, post1.
  h_run; h_same; apply drop_context_post; auto with se050. apply mac_result_ok.
Qed.
End aes.
