(* ===== verification/Se050EcFacts.v ===== *)
(** * SE050Sim: the asymmetric handlers and the dispatcher

    The commands that compute with a stored private key are proved with the cause of
    their panics, [key_panics]: the keys whose use panics.  All others return. *)

From S2P Require Import Prelude.
From S2P Require Import Host.
From S2P Require Import Crates.
From S2P Require Import Se050Crates.
From S2P Require Import Se050Types.
From S2P Require Import Se050StoreFacts.
From S2P Require Import Se050Store.
From S2P Require Import Se050Handlers.
From S2P Require Import Se050HandlersFacts.
From S2P Require Import Se050ObjectMgmt.
From S2P Require Import Se050Aes.
From S2P Require Import Se050Rsa.
From S2P Require Import Se050CryptoFacts.
From S2P Require Import Se050Ec.
From S2P Require Import Se050Dispatch.

(** One construct of a handler that may panic. *)
Ltac p_step :=
  lazymatch goal with
  | |- wpp (rbind (apdu_parse_tlvs _) _) _ _ =>
      let ts := fresh "ts" in
      let Hts := fresh "Hts" in
      apply wpp_bind, wp_wpp; eapply wp_mono; [apply apdu_parse_tlvs_ok; assumption|];
      intros [ts|?] Hts; [change (Forall tlv_wf ts) in Hts|clear Hts]
  | |- wpp (rbind _ _) _ _ => apply wpp_bind
  | |- wpp (Ret _) _ _ => apply wpp_ret
  | |- wpp (if ?b then _ else _) _ _ => let E := fresh "E" in destruct b eqn:E
  | |- wpp (match ?x with _ => _ end) _ _ => let E := fresh "E" in destruct x eqn:E
  end; cbv beta.

Section rsa.
Context `{R : Rng} {RO : RngOk} {B : BigUintCrate} {BO : BigUintCrateOk} {X : RsaCrate} {XO : RsaCrateOk}
  {H : HexCrate} {S : Serde} {F : FileSystem Value} {I : HashIter} {IO : HashIterOk}.

(** ** RSA *)

Lemma materialize_wf c der : rsa.try_materialize c = Some der -> wf der.
Proof.
  unfold rsa.try_materialize. intros E. repeat case_match; try done; by eapply rsa_der_wf.
Qed.

Lemma merge_ok ts c : Forall tlv_wf ts -> staged_ok c -> staged_ok (rsa.merge_components ts c).
Proof.
  intros Hts Hc. unfold staged_ok, rsa.merge_components in *. cbn.
  assert (Ho : forall g o, match o with Some b => wf b | None => True end ->
    match (match tlv_value ts g with Some v => Some v | None => o end) with
    | Some b => wf b | None => True end).
  { intros g o Hb. destruct (tlv_value ts g) eqn:E; [by tlv_facts|done]. }
  repeat (apply Forall_cons in Hc as [? Hc]). repeat (apply List.Forall_cons; [by apply Ho|]).
  apply List.Forall_nil.
Qed.

Lemma staged_default_ok : staged_ok RsaComponents_default.
Proof. unfold staged_ok. cbn. repeat constructor. Qed.

(** The guard of an RSA write: a new object, one whose policy allows it, or an
    unfinished import. *)
Definition rsa_guard (st : ObjectStore) (id : bytes) : Prop :=
  exists_ st id = true -> policy_allows st id POLICY_OBJ_ALLOW_WRITE = true \/ unfinished (objects st !! id).

Lemma post_rsa imp st id n der c p org :
  store_ok st -> id_ok id -> obj_ok (RSAKeyPair n der c) -> meta_ok (mkMetadata p org) -> rsa_guard st id ->
  writes imp id -> post imp st
    (if negb (exists_ st id)
     then set_creation_metadata (insert st id (RSAKeyPair n der c)) id p org
     else insert st id (RSAKeyPair n der c)) success.
Proof.
  intros Hs Hid Ho Hm Hg Hwr. destruct (exists_ st id) eqn:He; simpl.
  - split; [|split; [by apply aux_insert, Hs|auto with se050]].
    eapply (ss_write _ _ _ id _ (mkMetadata None 1)); try done.
    + apply objects_insert.
    + by rewrite He, metadata_insert.
  - by apply post_create; auto with se050.
Qed.

Lemma rsa_keygen_post imp st r v id p n : store_ok st -> id_ok id ->
  match p with Some b => wf b | None => True end -> match n with Some x => u16 x | None => True end ->
  rsa_guard st id -> writes imp id -> wp (rsa.rsa_keygen st r v id p n) (post_rng imp st).
Proof.
  intros Hs Hid Hp Hn Hg Hwr. unfold rsa.rsa_keygen, post_rng. h_run; h_same.
  match goal with E : rsa_to_pkcs1_der _ = Some _ |- _ => apply rsa_der_wf in E end.
  apply post_rsa; auto using meta_ok_2. split_and!; auto using staged_default_ok. 
Qed.

Lemma rsa_import_post imp st ts id p n : store_ok st -> Forall tlv_wf ts -> id_ok id ->
  match p with Some b => wf b | None => True end -> match n with Some x => u16 x | None => True end ->
  rsa_guard st id -> writes imp id -> post1 imp st (rsa.rsa_import st ts id p n).
Proof.
  intros Hs Hts Hid Hp Hn Hg Hwr. unfold rsa.rsa_import, post1.
  assert (Hstart : match (match get st id with
      | Some (RSAKeyPair key_size_bits _ staged) => Some (key_size_bits, staged)
      | Some _ => None
      | None => Some (0, RsaComponents_default) end) with
    | Some (k, c) => u16 k /\ staged_ok c | None => True end).
  { destruct (get st id) as [[]|] eqn:E; try done.
    - tlv_facts. cbn in *. tauto.
    - split; [unfold u16; lia|apply staged_default_ok]. }
  destruct (match get st id with Some _ => _ | None => _ end) as [[k c]|]; [|by simpl; h_same].
  destruct Hstart as [Hk Hc].
  destruct (rsa.try_materialize _) as [der|] eqn:Em; cbv beta iota; simpl.
  - apply post_rsa; auto using meta_ok_1. apply materialize_wf in Em.
    split_and!; auto using staged_default_ok. by destruct n.
  - apply post_rsa; auto using meta_ok_1. split_and!; auto using wf_nil, merge_ok. by destruct n.
Qed.

Lemma in_progress_unfinished apdu ts o : rsa.creation_in_progress apdu ts o = true -> unfinished o.
Proof.
  unfold rsa.creation_in_progress. intros [_ E]%andb_true_iff. repeat case_match; try done.
  all: match goal with E : negb (bool_decide (_ = [])) = false |- _ =>
    apply negb_false_iff, bool_decide_eq_true in E end; subst; by eexists _, _.
Qed.

Lemma write_rsa_key_post apdu st r v imp : (forall id, names apdu id -> writes imp id) -> store_ok st -> wf (data apdu) ->
  wp (rsa.handle_write_rsa_key apdu st r v) (post_rng imp st).
Proof.
  intros Hwr Hs Hd. unfold rsa.handle_write_rsa_key. h_step; [|by h_run; h_same].
  h_step; [apply wp_ret; apply post_same; [done|]; cbn [snd]; destruct (existsb _ _); auto with se050|].
  h_step; [by h_run; h_same|]. do 3 (h_step; [|by h_run; h_same]).
  pose proof (creation_policy_ok _ _ Hts E2) as Hcp. tlv_facts.
  assert (Hn : match o with Some x => u16 x | None => True end).
  { destruct (find_tlv ts TAG_2) as [t|] eqn:Ef; [|by simplify_eq].
    destruct (be16 (value t)) as [x|] eqn:Eb; [|done]. injection E3 as <-.
    eapply be16_u16; [|done]. by apply (find_tlv_wf _ _ _ Hts Ef). }
  h_step; [by h_run; h_same|].
  assert (Hg : rsa_guard st l).
  { intros He. rewrite He in E4. simpl in E4. apply andb_false_iff in E4 as [Hc|Hc].
    - right. apply negb_false_iff in Hc. by eapply in_progress_unfinished.
    - left. by apply negb_false_iff in Hc. }
  assert (Hwl : writes imp l) by (apply Hwr; by eapply tlv_id_names).
  h_step; [by apply rsa_keygen_post|].
  pose proof (rsa_import_post imp st ts l a o Hs Hts H0 Hcp Hn Hg Hwl) as Hp.
  destruct (rsa.rsa_import _ _ _ _ _) as [st' resp]. by apply wp_ret.
Qed.

Lemma rsa_verify_resp o algo d s : resp_ok (rsa.handle_rsa_verify o algo d s).
Proof.
  unfold rsa.handle_rsa_verify. destruct (rsa.public_key_from_obj o); [|auto with se050].
  assert (Ha : forall b : bool, resp_ok (tag1 [if b then 0x01 else 0x02])).
  { intros []; apply resp_ok_tag1, wf_cons; try apply wf_nil; unfold u8; lia. }
  cbv beta zeta. repeat (case_match; [by apply Ha|]). auto with se050.
Qed.

Lemma opt_response_ok o : match o with Some d => wf d | None => True end -> resp_ok (rsa.opt_response o).
Proof. destruct o; simpl; auto with se050. Qed.

Lemma rsa_encrypt_resp apdu st r : store_ok st -> wf (data apdu) ->
  wp (rsa.handle_rsa_encrypt apdu st r) (fun out => resp_ok (snd out)).
Proof.
  intros Hs Hd. unfold rsa.handle_rsa_encrypt. do 6 (h_step; [|h_run; auto with se050]).
  tlv_facts. pose proof (rsa_n_pos r0) as Hn.
  assert (He : forall p, wp (let '(ct, r1) := rsa_encrypt p r0 l0 r in Ret (r1, rsa.opt_response ct))
    (fun out => resp_ok (snd out))).
  { intros p. destruct (rsa_encrypt p r0 l0 r) as [ct r1] eqn:Ee. apply wp_ret, opt_response_ok.
    destruct ct; [by apply rsa_encrypt_wf in Ee|done]. }
  do 2 (h_step; [by apply He|]).
  h_step; [|h_run; auto with se050]. h_step; [h_run; auto with se050|].
  assert (Hm : 0 <= modpow (from_bytes_be l0) (rsa_e r0) (rsa_n r0) < rsa_n r0).
  { rewrite modpow_mod. by apply Z.mod_pos_bound. }
  set (c := modpow _ _ _) in *. pose proof (big_bits_bound _ Hn) as Hb. pose proof (big_bits_pos _ Hn) as Hp.
  set (bits := big_bits _) in *.
  assert (Hlen : len (to_bytes_be c) <= (bits + 7) / 8).
  { apply to_bytes_be_len; [|dlia]. split; [lia|]. apply (Z.lt_le_trans _ (2 ^ bits)); [lia|].
    change 256 with (2 ^ 8). rewrite <- Z.pow_mul_r by dlia. apply Z.pow_le_mono_r; dlia. }
  pose proof (len_nonneg (to_bytes_be c)). pose proof (to_bytes_be_wf c).
  h_step. apply wp_copy_from_slice; [lia|rewrite len_vec_repeat; lia|lia|].
  apply wp_ret, opt_response_ok. auto with wfdb.
Qed.

Lemma rsa_decrypt_resp apdu st : store_ok st -> wf (data apdu) ->
  wp (rsa.handle_rsa_decrypt apdu st) resp_ok.
Proof.
  intros Hs Hd. unfold rsa.handle_rsa_decrypt. do 5 (h_step; [|by h_run; auto with se050]).
  destruct s as [| |bits der c| | | | |]; try by h_run; auto with se050.
  h_step; [|h_run; auto with se050].
  do 2 (h_step; [apply wp_ret, opt_response_ok; destruct (rsa_decrypt _ _ _) eqn:Ed;
    [by apply rsa_decrypt_wf in Ed|done]|]).
  h_step; [|h_run; auto with se050]. h_step; [|h_run; auto with se050].
  pose proof (to_bytes_be_wf z0) as Hw. pose proof (len_nonneg (to_bytes_be z0)) as Hn. h_step.
  - h_step. apply wp_copy_from_slice; [lia|rewrite len_vec_repeat; lia|lia|]. apply wp_ret, opt_response_ok. auto with wfdb.
  - by apply wp_ret, opt_response_ok.
Qed.

Lemma to_bytes_tag x : resp_ok (tag1 (to_bytes_be x)).
Proof. apply resp_ok_tag1, to_bytes_be_wf. Qed.

Lemma read_rsa_resp apdu st : store_ok st -> wf (data apdu) -> wp (rsa.read_rsa apdu st) resp_ok.
Proof.
  intros Hs Hd. unfold rsa.read_rsa. apply wp_bind.
  eapply wp_mono; [by apply apdu_parse_tlvs_ok|]. intros parsed _. cbv beta.
  h_run; auto using to_bytes_tag with se050.
Qed.

(** Signing: the crate's signers decide whether it returns. *)
Definition rsa_panics (der : bytes) : Prop :=
  exists k sc h m r, rsa_from_pkcs1_der der = Some k /\ rsa_sign sc h k m r = Panic.

Lemma rsa_sign_wpp n der c algo d r :
  wpp (rsa.handle_rsa_sign (RSAKeyPair n der c) algo d r) (rsa_panics der) (fun out => resp_ok (snd out)).
Proof.
  unfold rsa.handle_rsa_sign, rsa.pkcs1v15_sign, rsa.pss_sign.
  destruct (rsa_from_pkcs1_der der) as [k|] eqn:Ek; [|apply wpp_ret; auto with se050].
  assert (Hs : forall sc h, wpp (let! '(sig, r) := rsa_sign sc h k d r in Ret (r, tag1 sig))
    (rsa_panics der) (fun out => resp_ok (snd out))).
  { intros sc h. apply wpp_bind. destruct (rsa_sign sc h k d r) as [[s r']|] eqn:Es; simpl.
    - apply resp_ok_tag1. by apply rsa_sign_wf in Es.
    - by exists k, sc, h, d, r. }
  repeat (p_step; [by apply Hs|]). apply wpp_ret. auto with se050.
Qed.
End rsa.

(** ** Elliptic curves *)

Section ec.
Context `{C : Se050Crates} {CO : Se050CratesOk C} {S : Serde} {F : FileSystem Value} {I : HashIter}
  {IO : HashIterOk}.

(** The use of this object as a private key may panic. *)
Definition key_panics (o : SecureObject) : Prop :=
  match o with
  | ECKeyPair c k _ => needs_curve_object c = true /\ len k <> scalar_len c
  | RSAKeyPair _ der _ => rsa_panics der
  | _ => False
  end.

(** Some object of the store may make a signature, a verification or an ECDH panic. *)
Definition may_panic (st : ObjectStore) : Prop := exists id o, get st id = Some o /\ key_panics o.

(** *** Writing keys *)

Definition wrong_import (apdu : ParsedApdu) : bool :=
  (base_ins apdu =? INS_WRITE) && (cred_type apdu =? P1_EC) && wrong_length (tlvs_of apdu).

Lemma sk_ret (c : Curve) k : CurveOk c -> len k = field_len c -> exists o, sk_from_bytes c k = Ret o.
Proof. intros Hc. apply (sk_from_bytes_ret c Hc). Qed.

Lemma derive_public_ok (c : Curve) k : CurveOk c -> len k = field_len c -> wp (ec.derive_public c k) wf.
Proof.
  intros Hc Hk. unfold ec.derive_public. destruct (sk_ret c k Hc Hk) as [o ->]. cbn [rbind].
  destruct o; [by apply (pk_to_encoded_point_wf c Hc)|apply wf_nil].
Qed.

(** What [write_key] does to the store. *)
Definition wrote (imp : allowance) st id (out : ObjectStore * rng * ApduResponse) : Prop :=
  (exists o, fst (fst out) = insert st id o /\ snd out = success /\ obj_ok o /\ (wrong_keys imp = false -> key_sized o)) \/
  (fst (fst out) = st /\ snd out = error SW_WRONG_DATA).

Lemma generate_wrote imp (c : Curve) cv id st r : CurveOk c -> field_len c = scalar_len cv ->
  wrote imp st id (ec.generate_keypair c cv id st r).
Proof.
  intros Hc Hf. unfold ec.generate_keypair. destruct (sk_random c r) as [sk r']. left.
  eexists. split_and!; try done.
  - split; [apply (sk_to_bytes_wf c Hc)|apply (pk_to_encoded_point_wf c Hc)].
  - intros _ _. by rewrite (sk_to_bytes_len c Hc).
Qed.

Lemma import_post cv id k st imp : wf k ->
  (wrong_keys imp = false -> needs_curve_object cv = true -> len k = scalar_len cv) ->
  wp (ec.import_ec_key id cv k st) (fun out => exists o,
    fst out = insert st id o /\ snd out = success /\ obj_ok o /\ (wrong_keys imp = false -> key_sized o)).
Proof.
  intros Hk Hi. unfold ec.import_ec_key. apply wp_bind.
  eapply (wp_mono _ wf).
  - assert (Hr : forall (b : bool) m, (b = true -> wp m wf) -> wp (if b then m else Ret []) wf).
    { intros [] m Hm; [by apply Hm|apply wf_nil]. }
    destruct cv; apply Hr; intros E%Z.eqb_eq.
    1-5: apply derive_public_ok;
      [first [apply p192_ok|apply p224_ok|apply p256_ok|apply p384_ok|apply p521_ok]|].
    1-5: by rewrite ?p192_field, ?p224_field, ?p256_field, ?p384_field, ?p521_field.
    + apply ed25519_public_wf.
    + apply wf_reverse, x25519_public_key_wf.
  - intros q Hq. apply wp_ret. eexists. by split_and!.
Qed.

Lemma write_key_wrote apdu ts cv id st r imp : Forall tlv_wf ts ->
  (wrong_keys imp = false -> match tlv_value ts TAG_3 with
                  | Some k => needs_curve_object cv = true -> len k = scalar_len cv | None => True end) ->
  wp (ec.write_key apdu ts cv id st r) (wrote imp st id).
Proof.
  intros Hts Hi. unfold ec.write_key. h_step.
  - apply wp_ret. destruct cv.
    1-5: apply generate_wrote;
      [first [apply p192_ok|apply p224_ok|apply p256_ok|apply p384_ok|apply p521_ok]|].
    1-5: by rewrite ?p192_field, ?p224_field, ?p256_field, ?p384_field, ?p521_field.
    + unfold ec.generate_ed25519_keypair. destruct (ed25519_generate r) as [k r'] eqn:Eg. left.
      pose proof (ed25519_generate_wf r) as Hw. rewrite Eg in Hw.
      eexists. split_and!; try done. split; [done|]. apply ed25519_public_wf.
    + unfold ec.generate_x25519_keypair. destruct (x25519_random r) as [k r'] eqn:Eg. left.
      pose proof (x25519_random_wf r) as Hw. rewrite Eg in Hw.
      eexists. split_and!; try done. split; apply wf_reverse; [done|apply x25519_public_key_wf].
  - destruct (tlv_value ts TAG_3) as [k|] eqn:E3.
    + tlv_facts. apply wp_bind. eapply wp_mono; [apply (import_post _ _ _ _ imp); done|].
      intros [st' resp] (o & Ho & Hr & Hok & Hs). apply wp_ret. left. by exists o.
    + h_step; apply wp_ret; [left|by right]. eexists. split_and!; try done. cbn.
      assert (H2 : wf (default [] (match tlv_value ts TAG_4 with Some v => Some v
        | None => match tlv_value ts TAG_2 with Some v => if 4 <? len v then Some v else None
                  | None => None end end))).
      { destruct (tlv_value ts TAG_4) eqn:E4; [by tlv_facts|].
        destruct (tlv_value ts TAG_2) eqn:E2; [|apply wf_nil]. tlv_facts.
        destruct (4 <? len l); [done|apply wf_nil]. }
      done.
Qed.

Lemma write_ec_key_post apdu st r v imp : (forall id, names apdu id -> writes imp id) -> store_ok st -> wf (data apdu) ->
  wrong_keys imp = wrong_length (tlvs_of apdu) ->
  wp (ec.handle_write_ec_key apdu st r v) (post_rng imp st).
Proof.
  intros Hwr Hs Hd Hi. revert Hi. unfold ec.handle_write_ec_key, post_rng.
  pose proof (parse_tlvs_kept _ Hd) as Ht. destruct (apdu_parse_tlvs apdu) as [[ts|]|]; try done.
  2:{ intros _. by h_run; h_same. }
  destruct Ht as [Ht Htl]. rewrite Htl. intros Hi. cbn [rbind]. do 2 (h_step; [|by h_run; h_same]).
  pose proof (Hwr _ (tlv_id_names _ _ _ Htl E)) as Hwi.
  pose proof (creation_policy_ok _ _ Ht E0) as Hcp. tlv_facts.
  h_step; [by h_run; h_same|]. do 2 (h_step; [|by h_run; h_same]).
  do 2 (h_step; [by h_run; h_same|]).
  apply wp_bind. eapply wp_mono; [apply (write_key_wrote _ _ _ _ _ _ imp); [done|]|].
  - rewrite Hi. unfold wrong_length. rewrite E2. cbn [opt_bind]. rewrite E3.
    destruct (tlv_value ts TAG_3) as [k|]; [|done]. intros Hf Hn. rewrite Hn in Hf. simpl in Hf.
    by apply negb_false_iff, Z.eqb_eq in Hf.
  - intros [[st' r'] resp] [(o & Ho & Hr & Hok & Hsz)|[Ho Hr]]; simpl in Ho, Hr; subst st' resp; apply wp_ret.
    + simpl. destruct (exists_ st l) eqn:He; simpl in *.
      * apply post_write; auto with se050. by apply negb_false_iff in E1.
      * apply post_create; auto with se050. destruct (key_type apdu =? P1_KEY_PAIR), (bool_decide (tlv_value ts TAG_3 = None));
          first [by apply meta_ok_2|by apply meta_ok_1].
    + simpl. h_same.
Qed.

(** *** Signatures *)

Lemma pad_hash_ok d n : 0 <= n -> wp (ec.pad_hash d n) (fun _ => True).
Proof.
  intros Hn. unfold ec.pad_hash. pose proof (len_nonneg d). h_step.
  - apply wp_slice; [lia|lia|done].
  - apply wp_copy_from_slice; [lia|rewrite len_vec_repeat; lia|lia|done].
Qed.

(** A secret key from stored bytes: it panics on another length only. *)
Lemma sk_wpp {A} (c : Curve) n k (f : option (sk_t c) -> res A) (Q : A -> Prop) :
  CurveOk c -> field_len c = n -> (forall o, wp (f o) Q) ->
  wpp (rbind (sk_from_bytes c k) f) (len k <> n) Q.
Proof.
  intros Hc <- Hf. destruct (decide (len k = field_len c)) as [Hk|Hk].
  - destruct (sk_ret c k Hc Hk) as [o ->]. cbn [rbind]. by apply wp_wpp.
  - rewrite (sk_from_bytes_panic c Hc) by done. done.
Qed.

Lemma ecdsa_sign_wpp (c : Curve) n k d : CurveOk c -> field_len c = n -> 0 <= n ->
  wpp (ec.ecdsa_sign c n k d) (len k <> n) resp_ok.
Proof.
  intros Hc Hf Hn. unfold ec.ecdsa_sign. apply sk_wpp; [done|done|]. intros [sk|]; [|apply wp_ret; auto with se050].
  apply wp_bind. eapply wp_mono; [by apply pad_hash_ok|]. intros h _. cbv beta.
  h_step; apply wp_ret; [|auto with se050]. apply resp_ok_tag1, (sig_to_der_wf c Hc).
Qed.

Lemma p192_loop_ok i d e r : resp_ok (snd (ec.p192_sign_loop i d e r)).
Proof.
  revert r. induction i as [|i IH]; intros r; simpl; [auto with se050|].
  destruct (scalar_random r) as [k r']. destruct (scalar_invert k); [|apply IH].
  repeat (case_match; [apply IH|]). case_match; [|apply IH]. apply resp_ok_tag1, (sig_to_der_wf _ p192_ok).
Qed.

Lemma p192_sign_wpp k d r : wpp (ec.p192_sign k d r) (len k <> 24) (fun out => resp_ok (snd out)).
Proof.
  unfold ec.p192_sign. apply sk_wpp; [apply p192_ok|apply p192_field|].
  intros [sk|]; [|apply wp_ret; auto with se050]. apply wp_bind. eapply wp_mono; [by apply pad_hash_ok|].
  intros h _. apply wp_ret, p192_loop_ok.
Qed.

Lemma verify_pubkey_ok (c : Curve) n q d s : 0 <= n -> wp (ec.verify_pubkey c n q d s) (fun _ => True).
Proof.
  intros Hn. unfold ec.verify_pubkey. do 2 (h_step; [|done]). apply wp_bind.
  eapply wp_mono; [by apply pad_hash_ok|]. done.
Qed.

Lemma ecdsa_verify_wpp (c : Curve) n k d s : CurveOk c -> field_len c = n -> 0 <= n ->
  wpp (ec.ecdsa_verify c n k d s) (len k <> n) (fun _ => True).
Proof.
  intros Hc Hf Hn. unfold ec.ecdsa_verify. apply sk_wpp; [done|done|]. intros [sk|]; [|done].
  h_step; [|done]. apply wp_bind. eapply wp_mono; [by apply pad_hash_ok|]. done.
Qed.

Lemma p192_verify_wpp k d s : wpp (ec.p192_verify k d s) (len k <> 24) (fun _ => True).
Proof.
  unfold ec.p192_verify. apply sk_wpp; [apply p192_ok|apply p192_field|]. intros [sk|]; [|done].
  by apply verify_pubkey_ok.
Qed.

Lemma check_algo_ok a n m err : ec.check_ecdsa_algo a n m = Some err -> resp_ok err.
Proof. unfold ec.check_ecdsa_algo. intros. repeat case_match; simplify_eq; auto with se050. Qed.

Lemma panic_cause st id o (P : Prop) : get st id = Some o -> (P -> key_panics o) -> P -> may_panic st.
Proof. intros Hg HP HP'. exists id, o. auto. Qed.

Lemma sign_wpp apdu st r : store_ok st -> wf (data apdu) ->
  wpp (ec.handle_sign apdu st r) (may_panic st) (fun out => resp_ok (snd out)).
Proof.
  intros Hs Hd. unfold ec.handle_sign. do 4 (p_step; [|by apply wpp_ret; auto with se050]).
  p_step.
  { apply wpp_ret. cbn. destruct s as [cv ? ?| | | | | | |]; try done.
    destruct (needs_curve_object cv); [|done]. by eapply check_algo_ok. }
  destruct s as [cv k q| |n der c| | | | |]; try (apply wpp_ret; auto with se050; fail).
  - assert (Hplain : forall m : res ApduResponse, wpp m (len k <> scalar_len cv) resp_ok ->
      needs_curve_object cv = true -> wpp (let! resp := m in Ret (r, resp)) (may_panic st) (fun out => resp_ok (snd out))).
    { intros m Hm Hn. apply wpp_bind. eapply wpp_mono; [exact Hm| |done].
      apply (panic_cause _ _ _ _ E1). by split. }
    destruct cv; try (apply Hplain; [apply ecdsa_sign_wpp|]; try done).
    + eapply wpp_mono; [apply p192_sign_wpp| |done]. by apply (panic_cause _ _ _ _ E1).
    + apply p224_ok. + apply p224_field. + apply p256_ok. + apply p256_field.
    + apply p384_ok. + apply p384_field. + apply p521_ok. + apply p521_field.
    + apply wpp_ret. simpl. unfold ec.ed25519_sign_object. destruct (negb _); [auto with se050|].
      apply resp_ok_tag1. pose proof (ed25519_sign_wf k (default [] (tlv_value ts TAG_3))).
      unfold ec.reverse_halves. auto with wfdb.
    + apply wpp_ret. auto with se050.
  - eapply wpp_mono; [apply rsa_sign_wpp| |done]. by apply (panic_cause _ _ _ _ E1).
Qed.

Lemma flag_resp (b : bool) : resp_ok (tag1 [if b then 0x01 else 0x02]).
Proof. apply resp_ok_tag1, wf_cons; [destruct b; unfold u8; lia|apply wf_nil]. Qed.

Lemma verify_wpp apdu st : store_ok st -> wf (data apdu) ->
  wpp (ec.handle_verify apdu st) (may_panic st) resp_ok.
Proof.
  intros Hs Hd. unfold ec.handle_verify. do 5 (p_step; [|by apply wpp_ret; auto with se050]).
  p_step.
  { apply wpp_ret. cbn. repeat case_match; simplify_eq; try done; by eapply check_algo_ok. }
  assert (Hans : forall m : res bool, wp m (fun _ => True) ->
    wpp (let! result := m in Ret (tag1 [if result then 0x01 else 0x02])) (may_panic st) resp_ok).
  { intros m Hm. apply wp_wpp, wp_bind. eapply wp_mono; [exact Hm|]. intros b _. apply wp_ret, flag_resp. }
  destruct s as [cv k q|cv q|n der c| | | | |]; try (apply wpp_ret; auto with se050; fail).
  - assert (Hkey : forall m : res bool, wpp m (len k <> scalar_len cv) (fun _ => True) ->
      needs_curve_object cv = true ->
      wpp (let! result := m in Ret (tag1 [if result then 0x01 else 0x02])) (may_panic st) resp_ok).
    { intros m Hm Hn. apply wpp_bind. eapply wpp_mono; [exact Hm| |intros b _; apply wpp_ret, flag_resp].
      apply (panic_cause _ _ _ _ E2). by split. }
    destruct cv; try (apply Hkey; [apply ecdsa_verify_wpp|]; try done).
    + apply Hkey; [apply p192_verify_wpp|done].
    + apply p224_ok. + apply p224_field. + apply p256_ok. + apply p256_field.
    + apply p384_ok. + apply p384_field. + apply p521_ok. + apply p521_field.
    + by apply Hans.
    + apply wpp_ret. auto with se050.
  - destruct cv; try (apply Hans, verify_pubkey_ok; lia); apply wpp_ret; auto with se050.
  - apply wpp_ret, rsa_verify_resp.
Qed.

(** *** Diffie-Hellman *)

Definition secret_ok (o : option bytes) : Prop := match o with Some s => wf s | None => True end.

Lemma ecdh_wpp (c : Curve) n k q : CurveOk c -> field_len c = n ->
  wpp (ec.ecdh c k q) (len k <> n) secret_ok.
Proof.
  intros Hc Hf. unfold ec.ecdh. apply sk_wpp; [done|done|]. intros [sk|]; [|done].
  h_step; [|done]. apply wp_ret, (diffie_hellman_wf c Hc).
Qed.

Lemma object_ecdh_wpp st id o q m : get st id = Some o -> ec.object_ecdh o q = Some m ->
  wpp m (may_panic st) secret_ok.
Proof.
  unfold ec.object_ecdh. intros Hg E. destruct o as [cv k p| | | | | | |]; try done.
  assert (Hk : forall c : Curve, CurveOk c -> field_len c = scalar_len cv -> needs_curve_object cv = true ->
    wpp (ec.ecdh c k q) (may_panic st) secret_ok).
  { intros c Hc Hf Hn. eapply wpp_mono; [by apply ecdh_wpp| |done]. apply (panic_cause _ _ _ _ Hg). by split. }
  destruct cv; try done; injection E as <-.
  - apply Hk; [apply p192_ok|apply p192_field|done].
  - apply Hk; [apply p224_ok|apply p224_field|done].
  - apply Hk; [apply p256_ok|apply p256_field|done].
  - apply Hk; [apply p384_ok|apply p384_field|done].
  - apply Hk; [apply p521_ok|apply p521_field|done].
  - apply wpp_ret. unfold ec.x25519_ecdh. destruct (_ || _); [done|]. apply x25519_diffie_hellman_wf.
Qed.

(** The shared secret is stored over the target whatever its policy says. *)
Lemma post_ecdh imp st id o resp : overwrites imp id o -> store_ok st -> id_ok id -> obj_ok o ->
  shared_secret o -> resp_ok resp -> post imp st (insert st id o) resp.
Proof.
  intros Hov Hs Hid Ho Hk Hr. split; [|split; [by apply aux_insert, Hs|done]].
  eapply (ss_ecdh _ _ _ id o); try done; [apply objects_insert|apply metadata_insert].
Qed.

(** A postcondition may use the result itself. *)
Lemma wpp_kept {A} (m : res A) P (Q : A -> Prop) : wpp m P Q -> wpp m P (fun a => Q a /\ m = Ret a).
Proof. by destruct m. Qed.

(** An ECDH command that names a target: the object [id] becomes [o], which carries the
    secret of the named key with the given peer; an HMAC key keeps its length and policy. *)
Definition agreed_into (st : ObjectStore) (apdu : ParsedApdu) (id : bytes) (o : SecureObject) : Prop :=
  In (mkTlv TAG_7 id) (tlvs_of apdu) /\
  exists key peer secret, names apdu key /\ In (mkTlv TAG_2 peer) (tlvs_of apdu) /\
    opt_bind (get st key) (fun k => ec.object_ecdh k peer) = Some (Ret (Some secret)) /\
    match get st id with
    | Some (HMACKey k p) => o = HMACKey secret p /\ len secret = len k
    | _ => o = Binary secret
    end.

Lemma handle_ecdh_wpp apdu st strict imp : (forall id o, agreed_into st apdu id o -> overwrites imp id o) ->
  store_ok st -> wf (data apdu) ->
  wpp (ec.handle_ecdh apdu st strict) (may_panic st) (post1 imp st).
Proof.
  intros Hov Hs Hd. unfold ec.handle_ecdh, post1.
  apply wpp_bind. eapply wpp_mono; [by apply wp_wpp, parse_tlvs_kept|done|].
  intros [ts|?]; [intros [Hts Htl]|intros _]; [|by apply wpp_ret; h_same].
  do 2 (p_step; [|by apply wpp_ret; h_same]). tlv_facts.
  p_step; [|by apply wpp_ret; h_same].
  assert (Ho : match o with Some i => id_ok i /\ In (mkTlv TAG_7 i) ts | None => True end).
  { destruct (find_tlv ts TAG_7) as [t|] eqn:Ef; [|by simplify_eq].
    destruct (Z.eqb_spec (len (value t)) 4); [|done]. injection E1 as <-.
    split; [split; [done|]; by apply (find_tlv_wf _ _ _ Hts Ef)|by apply find_tlv_In]. }
  do 3 (p_step; [|by apply wpp_ret; h_same]). apply wpp_bind.
  eapply wpp_mono; [by apply wpp_kept, (object_ecdh_wpp _ _ _ _ _ E2 E4)|done|].
  intros [secret|] [Hsec Em]; [|by apply wpp_ret; h_same].
  cbn in Hsec. destruct o as [oid|].
  - destruct Ho as [Ho Hin].
    assert (Hag : forall ob, match get st oid with
        | Some (HMACKey k p) => ob = HMACKey secret p /\ len secret = len k
        | _ => ob = Binary secret end -> overwrites imp oid ob).
    { intros ob Hob. apply Hov. split; [by rewrite Htl|]. exists l, l0, secret.
      split; [by eapply tlv_id_names|]. split; [|split; [|done]].
      - rewrite Htl. destruct (tlv_value ts TAG_2) as [[|]|] eqn:Ev; simplify_eq. unfold tlv_value in Ev.
        destruct (find_tlv ts TAG_2) as [t|] eqn:Ef; [|done]. cbn in Ev. injection Ev as <-. by apply find_tlv_In.
      - rewrite E2. cbn [opt_bind]. by rewrite E4, Em. }
    p_step.
    + p_step. p_step; [by apply wpp_ret; h_same|]. apply wpp_ret. apply post_ecdh; auto with se050; [|done].
      apply Hag. apply negb_false_iff, Z.eqb_eq in E7.
      destruct (get st oid) as [[]|]; destruct strict; simplify_eq; done.
    + apply wpp_ret. apply post_ecdh; auto with se050; [|done]. apply Hag.
      destruct (get st oid) as [[]|]; destruct strict; simplify_eq; done.
  - apply wpp_ret. apply post_same; [done|]. apply resp_ok_tag1. destruct (ec.is_mont s); auto with wfdb.
Qed.
End ec.

(** ** The dispatcher *)

Section dispatch.
Context `{C : Se050Crates} {CO : Se050CratesOk C} {S : Serde} {F : FileSystem Value} {I : HashIter}
  {IO : HashIterOk}.

(** An ECDH command. *)
Definition is_ecdh (apdu : ParsedApdu) : bool :=
  (base_ins apdu =? INS_CRYPTO) && (cred_type apdu =? P1_EC) && ((p2 apdu =? P2_DH) || (p2 apdu =? 0x59)).

(** A command that writes an object. *)
Definition is_write (apdu : ParsedApdu) : bool := base_ins apdu =? INS_WRITE.

(** A command that deletes an object, and the one that deletes them all. *)
Definition is_delete (apdu : ParsedApdu) : bool :=
  (base_ins apdu =? INS_MGMT) && (p2 apdu =? P2_DELETE_OBJECT) &&
  negb ((cred_type apdu =? P1_CRYPTO_OBJ) || (cred_type apdu =? P1_CURVE)).
Definition is_delete_all (apdu : ParsedApdu) : bool :=
  (base_ins apdu =? INS_MGMT) && (p2 apdu =? P2_DELETE_ALL).

(** What a command may do to the objects. *)
Definition allows (st : ObjectStore) (apdu : ParsedApdu) : allowance :=
  mkAllow (wrong_import apdu)
    (fun id => is_write apdu = true /\ names apdu id)
    (fun id o => is_ecdh apdu = true /\ agreed_into st apdu id o)
    (fun id => is_delete apdu = true /\ names apdu id)
    (is_delete_all apdu = true).

Lemma answer_post imp st r m : store_ok st -> wp m resp_ok -> wp (answer st r m) (post_rng imp st).
Proof.
  intros Hs Hm. apply wp_bind. eapply wp_mono; [exact Hm|]. intros resp Hr. by apply wp_ret, post_same.
Qed.
Lemma with_store_post imp st r m : wp m (post1 imp st) -> wp (with_store r m) (post_rng imp st).
Proof. intros Hm. apply wp_bind. eapply wp_mono; [exact Hm|]. intros [st' resp] Hp. by apply wp_ret. Qed.
Lemma with_rng_post imp st m : store_ok st -> wp m (fun out => resp_ok (snd out)) ->
  wp (with_rng st m) (post_rng imp st).
Proof.
  intros Hs Hm. apply wp_bind. eapply wp_mono; [exact Hm|]. intros [r resp] Hr. by apply wp_ret, post_same.
Qed.

Lemma ret_error imp st r s : store_ok st -> u16 s -> wp (Ret (st, r, error s)) (post_rng imp st).
Proof. intros. apply wp_ret, post_same; [done|by apply resp_ok_error]. Qed.

Lemma dispatch_write_post v apdu st r : store_ok st -> wf (data apdu) -> (base_ins apdu =? INS_WRITE) = true ->
  wp (dispatch_write v apdu st r) (post_rng (allows st apdu) st).
Proof.
  intros Hs Hd Hb. unfold dispatch_write.
  assert (Hwr : forall id, names apdu id -> writes (allows st apdu) id) by done.
  destruct (cred_type apdu =? P1_EC) eqn:Ec.
  { apply write_ec_key_post; [done|done|done|]. cbn. unfold wrong_import. by rewrite Hb, Ec. }
  repeat (wp_step; [by first [apply write_rsa_key_post | apply write_aes_key_post
    | apply with_store_post; first [apply write_hmac_key_post | apply crypto_create_post
        | apply write_object_post]
    | wp_step; [by apply with_store_post, curve_create_post|];
      wp_step; [by apply with_store_post, curve_param_post|]; apply ret_error]|]).
  apply ret_error; [done|]. vm_compute; split; congruence.
Qed.

Lemma curve_get_id_resp apdu st : store_ok st -> wf (data apdu) -> wp (curve_get_id apdu st) resp_ok.
Proof.
  intros Hs Hd. unfold curve_get_id. apply wp_bind.
  eapply wp_mono; [by apply apdu_parse_tlvs_ok|]. intros parsed _. cbv beta zeta. h_run; auto with se050.
  apply resp_ok_tag1, wf_cons; [|apply wf_nil].
  unfold curve_id in *. destruct s as [[]|[]| | | | | |]; simplify_eq; unfold u8; lia.
Qed.

Lemma dispatch_read_resp v7 apdu st : store_ok st -> wf (data apdu) -> wp (dispatch_read v7 apdu st) resp_ok.
Proof.
  intros Hs Hd. unfold dispatch_read. apply wp_bind. apply (wp_mono _ (fun _ => True)).
  { wp_step; [|done]. unfold has_tag4. apply wp_bind.
    eapply wp_mono; [by apply apdu_parse_tlvs_ok|]. done. }
  intros b _. wp_step; [by apply read_rsa_resp|]. wp_step; [by apply wp_ret, crypto_list_resp|].
  wp_step; [by apply curve_get_id_resp|]. wp_step; [apply wp_ret, curve_list_resp|].
  wp_step; [apply wp_ret; auto with se050|]. by apply read_post.
Qed.

Lemma dispatch_mgmt_post v act apdu st r : store_ok st -> wf (data apdu) -> (base_ins apdu =? INS_MGMT) = true ->
  wp (dispatch_mgmt v act apdu st r) (post_rng (allows st apdu) st).
Proof.
  intros Hs Hd Hb. unfold dispatch_mgmt.
  destruct ((cred_type apdu =? P1_CRYPTO_OBJ) && (p2 apdu =? P2_DELETE_OBJECT)) eqn:E1;
    [by apply with_store_post, crypto_delete_post|].
  destruct ((cred_type apdu =? P1_CURVE) && (p2 apdu =? P2_DELETE_OBJECT)) eqn:E2;
    [by apply with_store_post, curve_delete_post|].
  wp_step; [apply management_post; [|done..]; intros Hall; cbn; unfold is_delete_all; by rewrite Hb, Hall|].
  wp_step; [by apply with_store_post, set_platform_scp_post|].
  wp_step.
  { apply with_store_post, mgmt_post; [|done..]. intros Hdel id Hid. split; [|done]. unfold is_delete.
    rewrite Hdel, andb_true_r in E1, E2. by rewrite Hb, Hdel, E1, E2. }
  apply ret_error; [done|]. vm_compute; split; congruence.
Qed.

Lemma dispatch_crypto_wpp strict apdu st r : store_ok st -> wf (data apdu) ->
  (base_ins apdu =? INS_CRYPTO) = true ->
  wpp (dispatch_crypto strict apdu st r) (may_panic st) (post_rng (allows st apdu) st).
Proof.
  intros Hs Hd Hb. unfold dispatch_crypto. cbv zeta beta.
  p_step.
  { apply wpp_bind. eapply wpp_mono; [by apply sign_wpp|done|]. intros [r' resp] Hr. by apply wpp_ret, post_same. }
  p_step.
  { apply wpp_bind. eapply wpp_mono; [by apply verify_wpp|done|]. intros resp Hr. by apply wpp_ret, post_same. }
  p_step.
  { apply wpp_bind. eapply wpp_mono; [apply (handle_ecdh_wpp _ _ _ (allows st apdu)); [|done|done]|done|].
    { intros id o Ho. split; [|done]. unfold is_ecdh. rewrite Hb. destruct (cred_type apdu =? P1_EC), (p2 apdu =? P2_DH), (p2 apdu =? 0x59); done. }
    intros [st' resp] Hr. by apply wpp_ret. }
  apply wp_wpp.
  do 2 (wp_step; [by apply answer_post, cipher_oneshot_resp|]).
  wp_step; [by apply with_store_post, cipher_init_post|].
  wp_step; [by apply with_store_post, cipher_update_post|].
  wp_step; [by apply with_store_post, cipher_final_post|].
  wp_step; [by apply with_rng_post, rsa_encrypt_resp|].
  wp_step; [by apply answer_post, rsa_decrypt_resp|].
  wp_step; [by apply answer_post, digest_oneshot_resp|].
  wp_step; [by apply with_store_post, digest_init_post|].
  wp_step; [by apply with_store_post, digest_update_post|].
  wp_step; [by apply with_store_post, digest_final_post|].
  do 2 (wp_step; [by apply answer_post, mac_oneshot_resp|]).
  do 2 (wp_step; [by apply with_store_post, mac_init_post|]).
  wp_step; [by apply with_store_post, mac_update_post|].
  wp_step; [by apply with_store_post, mac_final_post|].
  apply ret_error; [done|]. vm_compute; split; congruence.
Qed.

Lemma select_resp apdu v : resp_ok (session.handle_select apdu v).
Proof.
  unfold session.handle_select. repeat case_match; auto with se050. apply resp_ok_data, version_bytes_wf.
Qed.

(** The dispatcher: the store makes one transition, or a signing command panics. *)
Lemma dispatch_wpp e apdu st r act : store_ok st -> wf (data apdu) ->
  wpp (dispatch e apdu st r act) (may_panic st) (post_rng (allows st apdu) st).
Proof.
  intros Hs Hd. unfold dispatch. cbv zeta.
  p_step; [apply wpp_ret, post_same; [done|]; apply select_resp|].
  p_step; [by apply wp_wpp, ret_error; [|vm_compute; split; congruence]|].
  p_step; [by apply wp_wpp, dispatch_write_post|].
  p_step; [by apply wp_wpp, answer_post, dispatch_read_resp|].
  p_step; [by apply dispatch_crypto_wpp|].
  p_step; [by apply wp_wpp, dispatch_mgmt_post|].
  apply wp_wpp, ret_error; [done|]. vm_compute; split; congruence.
Qed.
End dispatch.
