(* ===== verification/Se050ChannelFacts.v ===== *)
(** * SE050Sim: the secure channel and the responder never panic

    The key derivation, the cryptograms and the tunnel of SCP03 return on well-formed
    sessions; one frame keeps the store's and the responder's invariants, or a command
    with a stored private key panics. *)

From S2P Require Import Prelude.
From S2P Require Import Host.
From S2P Require Import Connections.
From S2P Require Import Crates.
From S2P Require Import Se050Crates.
From S2P Require Import Se050Types.
From S2P Require Import Se050StoreFacts.
From S2P Require Import Se050Store.
From S2P Require Import Se050Handlers.
From S2P Require Import Se050HandlersFacts.
From S2P Require Import Se050Aes.
From S2P Require Import Se050CryptoFacts.
From S2P Require Import Se050Ec.
From S2P Require Import Se050EcFacts.
From S2P Require Import Se050Dispatch.
From S2P Require Import Se050Scp03.
From S2P Require Import Se050T1.

(** ** Key derivation *)

Section crypto.
Context `{A : AesCrate} {AO : AesCrateOk}.

Definition key_ok (k : bytes) : Prop := wf k /\ aes_key_len (len k).

Lemma cmac_some key d : aes_key_len (len key) ->
  exists m, mac.cmac_aes key d = Some m /\ block m /\ wf m.
Proof.
  intros Hk. unfold mac.cmac_aes, mac.do_cmac.
  destruct Hk as [E|[E|E]]; rewrite E; cbn -[cmac_new_from_slice].
  all: match goal with |- context [cmac_new_from_slice ?n ?k] =>
    destruct (cmac_new_some n k) as [m ->]; [set_solver|done|] end.
  all: eexists; split; [done|split; [apply cmac_finalize_len|apply cmac_finalize_wf]].
Qed.

(** The loop of the KDF ends before its counter overflows. *)
Lemma kdf_loop_some fuel key dc ctx bits need i out :
  aes_key_len (len key) -> 1 <= i -> Z.of_nat fuel + i = 257 -> need <= 16 * 254 ->
  len out = 16 * (i - 1) -> wf out -> 0 <= need ->
  exists k : bytes, crypto.kdf_loop fuel key dc ctx bits need i out = Some k /\ len k = need /\ wf k.
Proof.
  intros Hk. revert i out. induction fuel as [|fuel IH]; intros i out Hi Hf Hn Hl Hw H0; simpl.
  - rewrite (proj2 (Z.leb_le _ _)) by lia. eexists. split; [done|]. split; [rewrite len_sub; lia|auto with wfdb].
  - destruct (Z.leb_spec need (len out)).
    { eexists. split; [done|]. split; [rewrite len_sub; lia|auto with wfdb]. }
    destruct (cmac_some key (crypto.kdf_block dc i ctx bits) Hk) as (m & -> & Hb & Hm).
    rewrite (proj2 (Z.ltb_ge _ _)) by lia.
    apply IH; try lia; [|by apply wf_app]. unfold block in Hb. rewrite len_app. lia.
Qed.

Lemma kdf_some key dc ctx bits : aes_key_len (len key) -> 0 <= bits <= 8 * 254 * 16 ->
  exists k : bytes, crypto.kdf key dc ctx bits = Some k /\ len k = (bits + 7) / 8 /\ wf k.
Proof. intros Hk Hb. unfold crypto.kdf. apply kdf_loop_some; try done; try apply wf_nil; dlia. Qed.

Lemma kdf_key (key key' : bytes) dc ctx : aes_key_len (len key) -> aes_key_len (len key') ->
  exists k : bytes, crypto.kdf key dc ctx (as_u16 (len key' * 8)) = Some k /\ len k = len key' /\ wf k.
Proof.
  intros Hk Hk'. destruct (kdf_some key dc ctx (as_u16 (len key' * 8)) Hk) as (k & -> & Hl & Hw).
  { unfold as_u16. destruct Hk' as [E|[E|E]]; rewrite E; vm_compute; split; congruence. }
  exists k. split_and!; try done. rewrite Hl. destruct Hk' as [->|[->| ->]]; done.
Qed.

Lemma challenges_ret h c : len h = 8 -> len c = 8 -> crypto.challenges h c = Ret (h ++ c).
Proof.
  intros Hh Hc. unfold crypto.challenges, copy_from_slice.
  rewrite (bool_decide_true (0 <= 0 <= 8 /\ _)) by (rewrite Hh; split_and!; done).
  cbn [rbind]. rewrite bool_decide_true.
  - f_equal. apply splice_halves; [done|]. by rewrite Hc.
  - rewrite Hc, len_splice; [split_and!; done|lia|by rewrite Hh].
Qed.

Definition keys3_ok (o : option (bytes * bytes * bytes)) : Prop :=
  exists a b c, o = Some (a, b, c) /\ key_ok a /\ key_ok b /\ key_ok c.

Lemma derive_some enc mac h c : aes_key_len (len enc) -> aes_key_len (len mac) -> len h = 8 -> len c = 8 ->
  wp (crypto.derive_session_keys enc mac h c) keys3_ok.
Proof.
  intros He Hm Hh Hc. unfold crypto.derive_session_keys. rewrite challenges_ret by done. cbn [rbind].
  destruct (kdf_key enc enc crypto.DDC_S_ENC (h ++ c) He He) as (a & -> & La & Wa).
  destruct (kdf_key mac mac crypto.DDC_S_MAC (h ++ c) Hm Hm) as (b & -> & Lb & Wb).
  destruct (kdf_key mac mac crypto.DDC_S_RMAC (h ++ c) Hm Hm) as (k & -> & Lk & Wk).
  apply wp_ret. exists a, b, k. unfold key_ok. by rewrite La, Lb, Lk.
Qed.

Lemma copy_full (n : Z) (b : bytes) : 0 <= n -> len b = n -> copy_from_slice (vec_repeat 0 n) 0 n b = Ret b.
Proof.
  intros Hn Hb. unfold copy_from_slice. rewrite bool_decide_true.
  - by rewrite splice_full by (rewrite len_vec_repeat; lia).
  - rewrite len_vec_repeat. lia.
Qed.

Lemma cryptogram_some key h c dc : aes_key_len (len key) -> len h = 8 -> len c = 8 ->
  exists k : bytes, crypto.cryptogram key h c dc = Ret (Some k) /\ len k = 8 /\ wf k.
Proof.
  intros Hk Hh Hc. unfold crypto.cryptogram. rewrite challenges_ret by done. cbn [rbind].
  destruct (kdf_some key dc (h ++ c) 64 Hk) as (k & -> & Hl & Hw); [lia|].
  change ((64 + 7) / 8) with 8 in Hl. rewrite slice_ret by lia. cbn [rbind].
  rewrite sub_full by lia. rewrite copy_full by lia. by exists k.
Qed.

Lemma cmac_chain_some key mcv d : aes_key_len (len key) ->
  exists m : bytes, crypto.cmac_chain key mcv d = Ret (Some m) /\ block m /\ wf m.
Proof.
  intros Hk. unfold crypto.cmac_chain. destruct (cmac_some key (mcv ++ d) Hk) as (m & -> & Hb & Hw).
  unfold block in Hb. rewrite slice_ret by lia. cbn [rbind].
  rewrite sub_full, copy_full by lia. by exists m.
Qed.

Lemma counter_icv_some key n resp : aes_key_len (len key) ->
  exists b : bytes, crypto.counter_icv key n resp = Ret (Some b) /\ block b /\ wf b.
Proof.
  intros Hk. unfold crypto.counter_icv. destruct (any_aes_some key Hk) as [ci ->].
  unfold copy_from_slice. rewrite bool_decide_true.
  2:{ rewrite len_vec_repeat, len_be_bytes. lia. }
  cbn [rbind]. set (b := splice _ _ _).
  assert (Hb : block b /\ wf b).
  { unfold b, block. split; [|auto with wfdb]. rewrite len_splice; rewrite ?len_vec_repeat, ?len_be_bytes; lia. }
  destruct Hb as [Hb Hw].
  assert (Hgo : exists b', (if resp then let! b0 := idx b 0 in set_idx b 0 (Z.lor b0 0x80) else Ret b) = Ret b' /\
    block b' /\ wf b').
  { destruct resp; [|by exists b]. unfold block in Hb.
    cut (wp (let! b0 := idx b 0 in set_idx b 0 (Z.lor b0 0x80)) (fun b' => block b' /\ wf b')).
    { intros (b' & E & ?)%wp_elim. by exists b'. }
    wp_step. wp_step. wp_step. split; [unfold block; by rewrite len_insert|].
    apply wf_insert; [done|]. apply (lor_bound 8); [lia|done|lia]. }
  destruct Hgo as (b' & -> & Hb' & Hw'). cbn [rbind].
  destruct (encrypt_block_ok ci b' Hb' Hw') as [H1 H2]. eauto.
Qed.

Lemma cbc_crypt_some key icv d e : aes_key_len (len key) -> block icv -> wf icv -> wf d ->
  len d mod 16 = 0 -> exists out, crypto.cbc_crypt key icv d e = Ret (Some out) /\ wf out.
Proof.
  intros Hk Hb Hw Hd Hm. unfold crypto.cbc_crypt. destruct (any_aes_some key Hk) as [ci ->].
  unfold aes.cbc_process.
  pose proof (cbc_ok ci (chunks 16 d) e icv (chunks_exact 16 d ltac:(lia) Hm) (wf_chunks 16 d ltac:(lia) Hd) Hb Hw) as Hc.
  destruct (aes.cbc_chunks ci icv (chunks 16 d) e) as [[ch out]|]; [|done]. cbn. exists out.
  split; [done|apply Hc].
Qed.

Lemma pad_m2_ok d : wf d -> wf (crypto.pad_m2 d) /\ len (crypto.pad_m2 d) mod 16 = 0.
Proof.
  intros Hd. unfold crypto.pad_m2. set (o := d ++ [0x80]). split.
  - apply wf_app; [|auto with wfdb]. by apply wf_app; [|auto with wfdb].
  - rewrite len_app, len_vec_repeat. rewrite Z.max_r by dlia. dlia.
Qed.

(** Padding is undone by unpadding. *)
Lemma unpad_zeros n l : crypto.unpad_rev (replicate n 0 ++ l) = crypto.unpad_rev l.
Proof. induction n; simpl; [done|]. done. Qed.

Lemma unpad_pad d : crypto.unpad_m2 (crypto.pad_m2 d) = Some d.
Proof.
  unfold crypto.unpad_m2, crypto.pad_m2, vec_repeat. rewrite !reverse_app, reverse_replicate.
  rewrite unpad_zeros. simpl. by rewrite reverse_involutive.
Qed.

Lemma unpad_wf l o : wf l -> crypto.unpad_rev l = Some o -> wf o.
Proof.
  intros Hl. revert o. induction Hl as [|b l Hb Hl IH]; intros o; [done|]. simpl.
  destruct (b =? 0); [apply IH|]. destruct (b =? 0x80); [|done]. intros [= <-]. by apply wf_reverse.
Qed.
End crypto.

(** ** The session *)

Definition pending_ok (p : Pending) : Prop :=
  len (p_host_challenge p) = 8 /\ len (p_card_challenge p) = 8 /\ key_ok (p_s_enc p) /\
  key_ok (p_s_mac p) /\ key_ok (p_s_rmac p).

Record sess_ok (s : Session) : Prop := {
  se_enc : key_ok (s_enc s);
  se_mac : key_ok (s_mac s);
  se_rmac : key_ok (s_rmac s);
  se_mcv : block (mcv s) /\ wf (mcv s);
  se_level : u8 (security_level s);
  se_counter : u32 (cmd_counter s);
  se_last : 0 <= last_cmd_len s;
}.

Definition scp_ok (t : Scp03State) : Prop :=
  match t with Idle => True | PendingState p => pending_ok p | Active s => sess_ok s end.

(** An answer that leaves the session as the context has it. *)
Ltac h_fail := apply wp_ret; split; cbn [fst snd]; [done|auto with se050].

Section session.
Context `{R : Rng} {RO : RngOk} {A : AesCrate} {AO : AesCrateOk} {H : HexCrate}.

Lemma initialize_update_ok p1 hc v cfg r : u8 p1 -> config_ok cfg ->
  wp (initialize_update_with_config p1 hc v cfg r)
    (fun out => scp_ok (fst (fst out)) /\ resp_ok (snd out)).
Proof.
  intros Hp (Hk & We & Wm & Wd & Le & Lm & Ld). unfold initialize_update_with_config.
  h_step; [h_fail|]. apply negb_false_iff, Z.eqb_eq in E.
  rewrite copy_full by lia. cbn [rbind].
  pose proof (fill_bytes_len 8 r ltac:(lia)) as Hcl. pose proof (fill_bytes_wf 8 r) as Hcw.
  destruct (fill_bytes 8 r) as [cc r']. simpl in Hcl, Hcw.
  apply wp_bind. eapply wp_mono; [by apply derive_some|]. intros keys (a & b & c & -> & Ha & Hb & Hc).
  cbv beta iota.
  destruct (cryptogram_some b hc cc crypto.DDC_CARD_CRYPTOGRAM (proj2 Hb) E Hcl) as (k & -> & Hkl & Hkw).
  cbn [rbind]. h_step; [h_fail|]. apply wp_ret. cbn [fst snd]. split; [by split_and!|].
  apply resp_ok_data. apply wf_app; [|apply wf_app; [|auto with wfdb]].
  - unfold KEY_DIVERSIFICATION_DATA. repeat (apply wf_cons; [vm_compute; split; congruence|]). apply wf_nil.
  - apply wf_cons; [|apply wf_nil]. by destruct (p1 =? 0).
  - unfold I_PARAM. auto with wfdb.
Qed.

Lemma external_authenticate_ok t raw : scp_ok t -> wf raw ->
  wp (external_authenticate t raw) (fun out => scp_ok (fst out) /\ resp_ok (snd out)).
Proof.
  intros Ht Hw. unfold external_authenticate. destruct t as [|p|s]; try (h_fail).
  destruct Ht as (Hh & Hc & Ke & Km & Kr). pose proof (len_nonneg raw).
  destruct (Z.ltb_spec (len raw) 21); cbn [rbind]; [h_fail|].
  h_step. wp_step. wp_step. apply wp_ret. cbv beta. h_step; [h_fail|].
  wp_step. wp_step. cbv beta. h_step; [h_fail|].
  rewrite !slice_ret by lia. cbn [rbind].
  destruct (cryptogram_some (p_s_mac p) (p_host_challenge p) (p_card_challenge p) crypto.DDC_HOST_CRYPTOGRAM
    (proj2 Km) Hh Hc) as (k & -> & _ & _). cbn [rbind].
  destruct (cmac_chain_some (p_s_mac p) (vec_repeat 0 16) (sub raw 0 13) (proj2 Km)) as (m & -> & Hb & Hm).
  cbn [rbind]. unfold block in Hb. rewrite slice_ret by lia. cbn [rbind].
  h_step; [h_fail|]. apply wp_ret. split; [|auto with se050]. split; simpl; try done; unfold u32; lia.
Qed.

Lemma decrypt_payload_ok s d : sess_ok s -> wf d ->
  wp (decrypt_payload s d) (fun r => match r with Ok p => wf p | Err e => u16 e end).
Proof.
  intros Hs Hd. unfold decrypt_payload. h_step; [|by apply wp_ret].
  h_step; [apply wp_ret; auto with se050|]. apply negb_false_iff, Z.eqb_eq in E0.
  destruct (counter_icv_some (s_enc s) (cmd_counter s) false (proj2 (se_enc _ Hs))) as (icv & -> & Hb & Hw).
  cbn [rbind].
  destruct (cbc_crypt_some (s_enc s) icv d false (proj2 (se_enc _ Hs)) Hb Hw Hd E0) as (o & -> & Ho).
  cbn [rbind]. h_step; apply wp_ret; [|auto with se050].
  eapply unpad_wf; [|exact E1]. by apply wf_reverse.
Qed.

Lemma trailing_le_wf t : wf t -> le_wf (trailing_le t).
Proof.
  intros Hw. destruct t as [|hi [|lo t]]; simpl; [done| |].
  - apply wf_cons_inv in Hw as [Hx _]. unfold u8, u16 in *. lia.
  - apply wf_cons_inv in Hw as [Hx [Hy _]%wf_cons_inv]. rewrite as_u16_shl8 by done. by apply u16_be16.
Qed.

Lemma unwrap_command_ok s raw : sess_ok s -> wf raw ->
  wp (unwrap_command s raw) (fun out => sess_ok (fst out) /\
    match snd out with Ok a => apdu_wf a | Err e => u16 e end).
Proof.
  intros Hs Hw. unfold unwrap_command. pose proof (len_nonneg raw).
  h_step; [h_fail|]. do 5 (wp_step; wp_step; cbv beta).
  apply wp_bind. apply (wp_mono _ (fun h => match h with Some (lc, ds) => 5 <= ds <= len raw | None => True end)).
  { wp_run; try done; lia. }
  intros [[lc ds]|] Hds; [|h_fail]. cbv beta iota.
  h_step; [h_fail|]. apply orb_false_iff in E0 as [E1 E2].
  apply Z.ltb_ge in E1, E2. rewrite !slice_ret by lia. cbn [rbind].
  assert (Hbl : len (sub raw ds (ds + lc)) = lc) by (rewrite len_sub; lia).
  rewrite (slice_ret (sub raw ds (ds + lc)) 0) by lia. cbn [rbind].
  rewrite (slice_ret (sub raw ds (ds + lc)) (lc - 8)) by lia. cbn [rbind].
  match goal with |- context [crypto.cmac_chain ?k ?m ?d] =>
    destruct (cmac_chain_some k m d (proj2 (se_mac _ Hs))) as (f & -> & Hb & Hf) end.
  cbn [rbind]. unfold block in Hb. rewrite slice_ret by lia. cbn [rbind].
  h_step; [h_fail|].
  assert (Hs' : sess_ok (set_mcv s f)) by (destruct Hs; by split).
  apply wp_bind. eapply wp_mono; [apply (decrypt_payload_ok (set_mcv s f)); auto with wfdb|].
  intros [pt|err] Hp; apply wp_ret; [|done]. cbn [fst snd]. split.
  - destruct Hs'. split; try done. apply len_nonneg.
  - split_and!; simpl; try done.
    + apply u8_land; [done|lia].
    + apply trailing_le_wf. auto with wfdb.
Qed.

Lemma advance_ok s w : sess_ok s -> sess_ok (advance_counter s w).
Proof.
  intros Hs. unfold advance_counter. case_match; [|done]. destruct Hs. split; try done. apply u32_as_u32.
Qed.

Lemma response_field_ok s d : sess_ok s -> wf d ->
  exists o, response_field s d = Ret (Some o) /\ wf o.
Proof.
  intros Hs Hd. unfold response_field. cbv zeta. case_match; [|by exists d].
  match goal with |- context [crypto.counter_icv ?k ?n ?r] =>
    destruct (counter_icv_some k n r (proj2 (se_enc _ Hs))) as (icv & -> & Hb & Hw) end.
  cbn [rbind]. destruct (pad_m2_ok d Hd) as [Hpw Hpl].
  apply cbc_crypt_some; try done. apply (se_enc _ Hs).
Qed.

Lemma wrap_response_ok s resp : sess_ok s -> resp_ok resp ->
  wp (wrap_response s resp) (fun out => sess_ok (fst out) /\ resp_ok (snd out)).
Proof.
  intros Hs [Hd Hw]. unfold wrap_response. h_step; [|apply wp_ret; split; [by apply advance_ok|done]].
  destruct (response_field_ok s (r_data resp) Hs Hd) as (o & -> & Ho). cbn [rbind].
  match goal with |- context [crypto.cmac_chain ?k ?m ?d] =>
    destruct (cmac_chain_some k m d (proj2 (se_rmac _ Hs))) as (f & -> & Hb & Hf) end.
  cbn [rbind]. unfold block in Hb. rewrite slice_ret by lia. cbn [rbind]. apply wp_ret.
  split; [by apply advance_ok|]. split; [|done]. apply wf_app; auto with wfdb.
Qed.
End session.
