(* ===== verification/Se050T1Facts.v ===== *)
(** * SE050Sim: frames, the responder and the server

    A built frame is parsed back, and only built frames are; a frame keeps the
    invariants of the responder and the store, or a command with a stored private key
    panics. *)

From S2P Require Import Prelude.
From S2P Require Import Crc.
From S2P Require Import Host.
From S2P Require Import Connections.
From S2P Require Import Crates.
From S2P Require Import Se050Crates.
From S2P Require Import Se050Types.
From S2P Require Import Se050StoreFacts.
From S2P Require Import Se050Store.
From S2P Require Import Se050Handlers.
From S2P Require Import Se050HandlersFacts.
From S2P Require Import Se050Aes.
From S2P Require Import Se050CryptoFacts.
From S2P Require Import Se050EcFacts.
From S2P Require Import Se050Dispatch.
From S2P Require Import Se050Scp03.
From S2P Require Import Se050T1.
From S2P Require Import Se050ChannelFacts.

(** ** Protocol control bytes *)

(** The frame types a control byte can hold. *)
Definition type_ok (ft : FrameType) : Prop :=
  match ft with
  | IFrame seq _ => 0 <= seq <= 1
  | RFrame seq err => 0 <= seq <= 1 /\ 0 <= err <= 3
  | SFrame code _ => 0 <= code <= 31
  end.

Definition FrameType_eqb (a b : FrameType) : bool :=
  match a, b with
  | IFrame s m, IFrame s' m' => (s =? s') && Bool.eqb m m'
  | RFrame s e, RFrame s' e' => (s =? s') && (e =? e')
  | SFrame c r, SFrame c' r' => (c =? c') && Bool.eqb r r'
  | _, _ => false
  end.

(** The encoding of a control byte is the inverse of its parser, byte by byte. *)
Definition pcb_check (n : nat) : bool :=
  match parse_pcb (Z.of_nat n) with
  | Some ft => (encode_pcb ft =? Z.of_nat n) &&
      match ft with
      | IFrame seq _ => (0 <=? seq) && (seq <=? 1)
      | RFrame seq err => (0 <=? seq) && (seq <=? 1) && (0 <=? err) && (err <=? 3)
      | SFrame code _ => (0 <=? code) && (code <=? 31)
      end
  | None => true
  end.

Lemma pcb_checked : forallb pcb_check (seq 0 256) = true.
Proof. vm_compute. reflexivity. Qed.

Lemma parse_pcb_inv b ft : u8 b -> parse_pcb b = Some ft -> encode_pcb ft = b /\ type_ok ft.
Proof.
  intros Hb E. pose proof pcb_checked as Hc. rewrite forallb_forall in Hc.
  specialize (Hc (Z.to_nat b)). unfold u8 in Hb. unfold pcb_check in Hc. rewrite Z2Nat.id, E in Hc by lia.
  assert (Hin : In (Z.to_nat b) (seq 0 256)) by (apply in_seq; lia).
  specialize (Hc Hin). apply andb_true_iff in Hc as [He%Z.eqb_eq Hk]. split; [done|].
  destruct ft; simpl in *; lia.
Qed.

Lemma encode_pcb_ok ft : type_ok ft -> u8 (encode_pcb ft) /\ parse_pcb (encode_pcb ft) = Some ft.
Proof.
  assert (H2 : forall s, 0 <= s <= 1 -> s = 0 \/ s = 1) by lia.
  destruct ft as [s m|s e|c r]; simpl; intros Hok.
  - destruct (H2 s Hok) as [->| ->], m; split; vm_compute; try reflexivity; split; congruence.
  - destruct Hok as [Hs He]. assert (e = 0 \/ e = 1 \/ e = 2 \/ e = 3) as [->|[->|[->| ->]]] by lia;
    destruct (H2 s Hs) as [->| ->]; split; vm_compute; try reflexivity; split; congruence.
  - assert (Hc : In (Z.to_nat c) (seq 0 32)) by (apply in_seq; lia).
    assert (Hall : forallb (fun n => (encode_pcb (SFrame (Z.of_nat n) r) <? 256) &&
      (0 <=? encode_pcb (SFrame (Z.of_nat n) r)) &&
      match parse_pcb (encode_pcb (SFrame (Z.of_nat n) r)) with
      | Some ft => FrameType_eqb ft (SFrame (Z.of_nat n) r) | None => false end) (seq 0 32) = true)
      by (destruct r; vm_compute; reflexivity).
    rewrite forallb_forall in Hall. specialize (Hall _ Hc). rewrite Z2Nat.id in Hall by lia.
    apply andb_true_iff in Hall as [Hb Hp]. split; [unfold u8; cbn [encode_pcb] in *; lia|].
    cbn [encode_pcb] in Hp. destruct (parse_pcb _) as [[]|] eqn:E; try done. simpl in Hp.
    apply andb_true_iff in Hp as [->%Z.eqb_eq ->%Bool.eqb_prop]. done.
Qed.

(** ** Frames *)

Section frames.
Context `{K : Crc16Crate} {KO : Crc16CrateOk}.

Definition frame_ok (f : T1Frame) : Prop :=
  u8 (nad f) /\ type_ok (frame_type f) /\ wf (t1_payload f) /\ len (t1_payload f) < 256.

Definition built (f : T1Frame) : bytes * bytes := build_frame (nad f) (frame_type f) (t1_payload f).
Definition frame_bytes (f : T1Frame) : bytes := fst (built f) ++ snd (built f).
Definition frame_body (f : T1Frame) : bytes :=
  [nad f; encode_pcb (frame_type f); len (t1_payload f)] ++ t1_payload f.

Lemma wf_frame_body f : frame_ok f -> wf (frame_body f).
Proof.
  intros (Hn & Ht & Hp & Hl). pose proof (len_nonneg (t1_payload f)).
  unfold frame_body. apply wf_app; [|done]. apply encode_pcb_ok in Ht as [Ht _].
  repeat (apply wf_cons; [done || unfold u8; lia|]). apply wf_nil.
Qed.

Lemma crc_x25_eq l : wf l -> crc16_x25 l = StsafeCrc.crc16_x25 l.
Proof. apply x25_calculate_eq. Qed.
Lemma u16_x25 l : wf l -> u16 (crc16_x25 l).
Proof. intros Hl. rewrite crc_x25_eq by done. by apply u16_stsafe_crc. Qed.

Lemma crc_bytes x : u16 x -> [as_u8 x] ++ [as_u8 (Z.shiftr x 8)] = le_bytes 2 x.
Proof.
  intros Hx. simpl. unfold as_u8. rewrite Z.shiftr_div_pow2 by lia. done.
Qed.

Lemma frame_bytes_eq f : frame_ok f -> frame_bytes f = frame_body f ++ le_bytes 2 (crc16_x25 (frame_body f)).
Proof.
  intros Hf. pose proof (wf_frame_body f Hf) as Hw. destruct Hf as (_ & _ & _ & Hl).
  pose proof (len_nonneg (t1_payload f)). unfold frame_bytes, built, build_frame. cbn [fst snd].
  assert (E : as_u8 (len (t1_payload f)) = len (t1_payload f)) by (unfold as_u8; rewrite Z.mod_small; lia).
  rewrite E. change ([nad f; encode_pcb (frame_type f); len (t1_payload f)] ++ t1_payload f) with (frame_body f).
  rewrite crc_bytes by by apply u16_x25. by rewrite app_assoc.
Qed.

Lemma wf_frame_bytes f : frame_ok f -> wf (frame_bytes f).
Proof. intros Hf. rewrite frame_bytes_eq by done. apply wf_app; [by apply wf_frame_body|auto with wfdb]. Qed.

Lemma len_frame_body f : len (frame_body f) = 3 + len (t1_payload f).
Proof. unfold frame_body. rewrite len_app. done. Qed.

Lemma lor_le lo hi : u8 lo -> u8 hi -> Z.lor lo (Z.shiftl hi 8) = le_val [lo; hi].
Proof.
  intros Hl Hh. rewrite Z.lor_comm, lor_be16 by done. simpl. lia.
Qed.

(** A frame at the front of a buffer is parsed. *)
Lemma parse_frame_built f rest : frame_ok f -> parse_frame (frame_bytes f ++ rest) = Ret (Some f).
Proof.
  intros Hf. pose proof Hf as (Hn & Ht & Hp & Hl). pose proof (wf_frame_body f Hf) as Hw.
  apply encode_pcb_ok in Ht as [Hpcb Hparse]. pose proof (len_nonneg rest). pose proof (len_nonneg (t1_payload f)).
  rewrite frame_bytes_eq by done. set (crc := crc16_x25 (frame_body f)). unfold parse_frame.
  assert (Hd : len ((frame_body f ++ le_bytes 2 crc) ++ rest) = 3 + len (t1_payload f) + 2 + len rest).
  { rewrite !len_app, len_frame_body, len_le_bytes. lia. }
  rewrite (proj2 (Z.ltb_ge _ 5)) by lia.
  assert (Hi : forall k x, 0 <= k -> idx (frame_body f) k = Ret x ->
    idx ((frame_body f ++ le_bytes 2 crc) ++ rest) k = Ret x).
  { intros k x Hk E. pose proof E as [Hb _]%idx_inv. rewrite !idx_app_l; first [done | rewrite ?len_app, ?len_le_bytes; lia]. }
  rewrite (Hi 0 (nad f)), (Hi 1 (encode_pcb (frame_type f))), (Hi 2 (len (t1_payload f))) by done.
  cbn [rbind]. rewrite (proj2 (Z.ltb_ge _ (3 + _ + 2))) by lia. rewrite !slice_ret by lia. cbn [rbind].
  assert (Hs : sub ((frame_body f ++ le_bytes 2 crc) ++ rest) 0 (3 + len (t1_payload f)) = frame_body f).
  { rewrite <- len_frame_body, <- app_assoc. apply sub_prefix. }
  rewrite Hs.
  assert (Hc : forall j, 0 <= j < 2 -> idx ((frame_body f ++ le_bytes 2 crc) ++ rest) (3 + len (t1_payload f) + j)
    = idx (le_bytes 2 crc) j).
  { intros j Hj. rewrite <- app_assoc, idx_app_r by (rewrite len_frame_body; lia).
    rewrite idx_app_l by (rewrite len_frame_body, len_le_bytes; lia). f_equal. rewrite len_frame_body. lia. }
  pose proof (Hc 0 ltac:(lia)) as Hc0. rewrite Z.add_0_r in Hc0. rewrite Hc0, (Hc 1) by lia.
  cbn [le_bytes]. change (idx [crc mod 256; crc / 256 mod 256] 0) with (Ret (crc mod 256)).
  change (idx [crc mod 256; crc / 256 mod 256] 1) with (Ret (crc / 256 mod 256)). cbn [rbind].
  pose proof (u16_x25 _ Hw) as Hcrc. fold crc in Hcrc.
  rewrite lor_le by apply u8_as_u8.
  change [crc mod 256; crc / 256 mod 256] with (le_bytes 2 crc).
  rewrite le_val_le_bytes by (unfold u16 in Hcrc; lia). fold crc. rewrite Z.eqb_refl. cbn [negb]. rewrite Hparse.
  replace (sub ((frame_body f ++ le_bytes 2 crc) ++ rest) 3 (3 + len (t1_payload f))) with (t1_payload f).
  - by destruct f.
  - symmetry. unfold frame_body. rewrite <- !app_assoc. by apply sub_middle.
Qed.

(** Only such buffers are. *)
Lemma parse_frame_inv d f : wf d -> parse_frame d = Ret (Some f) ->
  frame_ok f /\ exists rest, d = frame_bytes f ++ rest.
Proof.
  intros Hw. unfold parse_frame. destruct (Z.ltb_spec (len d) 5); [done|].
  destruct d as [|n [|pcb [|l d]]]; try (rewrite ?len_cons, ?len_nil in *; lia).
  change (idx (n :: pcb :: l :: d) 0) with (Ret n). change (idx (n :: pcb :: l :: d) 1) with (Ret pcb).
  change (idx (n :: pcb :: l :: d) 2) with (Ret l). cbn [rbind].
  apply wf_cons_inv in Hw as [Hn [Hp [Hl Hw]%wf_cons_inv]%wf_cons_inv].
  destruct (Z.ltb_spec (len (n :: pcb :: l :: d)) (3 + l + 2)) as [|Hlen]; [done|].
  unfold u8 in Hl. rewrite !len_cons in Hlen.
  assert (Hsplit : exists p c1 c2 rest, d = p ++ [c1; c2] ++ rest /\ len p = l).
  { exists (take (Z.to_nat l) d). destruct (drop (Z.to_nat l) d) as [|c1 [|c2 rest]] eqn:E.
    1-2: apply (f_equal length) in E; rewrite length_drop in E; simpl in E; unfold len in *; lia.
    exists c1, c2, rest. split; [|rewrite len_take; lia]. rewrite <- (take_drop (Z.to_nat l) d) at 1. by rewrite E. }
  destruct Hsplit as (p & c1 & c2 & rest & -> & Hpl). pose proof (len_nonneg rest).
  set (h := [n; pcb; l]).
  assert (Ed : n :: pcb :: l :: p ++ [c1; c2] ++ rest = (h ++ p) ++ [c1; c2] ++ rest) by done. rewrite Ed.
  assert (Hhp : len (h ++ p) = 3 + l) by (rewrite len_app, Hpl; done).
  assert (Htot : len ((h ++ p) ++ [c1; c2] ++ rest) = 3 + l + 2 + len rest).
  { rewrite len_app, Hhp, len_app. change (len [c1; c2]) with 2. lia. }
  rewrite !slice_ret by lia. cbn [rbind].
  rewrite <- Hhp. rewrite sub_prefix. 
  rewrite (idx_app_r _ _ (len (h ++ p))), (idx_app_r _ _ (len (h ++ p) + 1)) by lia. rewrite Z.sub_diag.
  replace (len (h ++ p) + 1 - len (h ++ p)) with 1 by lia.
  change (idx ([c1; c2] ++ rest) 0) with (Ret c1). change (idx ([c1; c2] ++ rest) 1) with (Ret c2). cbn [rbind].
  apply wf_app_inv in Hw as [Hwp [Hc1 [Hc2 _]%wf_cons_inv]%wf_cons_inv].
  rewrite lor_le by done.
  destruct (Z.eqb_spec (crc16_x25 (h ++ p)) (le_val [c1; c2])) as [Hcrc|]; [|done]. cbn [negb].
  assert (Hsub : sub ((h ++ p) ++ [c1; c2] ++ rest) 3 (len (h ++ p)) = p).
  { rewrite <- app_assoc. apply sub_middle; [done|]. rewrite len_app. done. }
  rewrite Hsub. destruct (parse_pcb pcb) as [ft|] eqn:Eft; [|done]. intros [= <-].
  destruct (parse_pcb_inv _ _ Hp Eft) as [Henc Hok].
  assert (Hf : frame_ok (mkT1Frame n ft p)) by (split_and!; simpl; try done; lia).
  split; [done|]. exists rest. rewrite frame_bytes_eq by done.
  assert (Eb : frame_body (mkT1Frame n ft p) = h ++ p) by (unfold frame_body; simpl; by rewrite Henc, Hpl).
  rewrite Eb, Hcrc. rewrite le_bytes_le_val; [by rewrite (app_assoc (h ++ p))|apply wf_cons; [done|]; apply wf_cons; [done|apply wf_nil]|done].
Qed.

Lemma parse_frame_ok d : wf d -> wp (parse_frame d) (fun o =>
  match o with Some f => frame_ok f | None => True end).
Proof.
  intros Hw. unfold parse_frame. wp_step; [done|]. do 3 (wp_step; wp_step; cbv beta).
  wp_step; [done|]. unfold u8 in Hu1. wp_step. wp_step. do 2 (wp_step; wp_step; cbv beta).
  wp_step; [done|]. wp_step; [|done]. wp_step. wp_step. apply wp_ret.
  split; [done|]. split; [by apply (parse_pcb_inv x0 f Hu0 E2)|]. split; simpl; [auto with wfdb|]. rewrite len_sub. lia.
Qed.
End frames.

(** ** Keys *)

Section config.
Context `{A : AesCrate} {AO : AesCrateOk} {H : HexCrate} {HO : HexCrateOk}.

Lemma hex_digits_u8 s acc b : 0 <= acc < 256 -> hex_digits s acc = Some b -> u8 b.
Proof.
  revert acc. induction s as [|c s IH]; intros acc Ha; simpl; [by intros [= <-]|].
  destruct (hex_digit c) as [d|] eqn:Ed; [|done]. destruct (Z.ltb_spec 255 (acc * 16 + d)); [done|].
  apply IH. unfold hex_digit in Ed. repeat case_match; simplify_eq; lia.
Qed.

Lemma radix16_u8 s b : u8_from_str_radix16 s = Some b -> u8 b.
Proof. unfold u8_from_str_radix16. cbv zeta. case_match; [done|]. by apply hex_digits_u8. Qed.

Lemma env_key_ok var k : env_key var = Some k -> key_ok k.
Proof.
  unfold env_key. destruct var as [raw|]; [|done]. destruct (hex_decode (trim raw)) as [b|] eqn:E; [|done].
  destruct (_ || _) eqn:El; [|done]. intros [= <-]. apply hex_decode_wf in E. split; [done|].
  unfold aes_key_len. lia.
Qed.

Lemma default_key_ok o k : (forall x, o = Some x -> key_ok x) -> key_ok k -> key_ok (default k o).
Proof. destruct o; simpl; auto. Qed.

Lemma const_keys_ok : Forall key_ok [SE050E_ENC; SE050E_MAC; SE050E_DEK; DEVKIT_ENC; DEVKIT_MAC; DEVKIT_DEK].
Proof.
  repeat (apply List.Forall_cons; [split; [|by left]|]); try apply List.Forall_nil.
  all: repeat (apply wf_cons; [vm_compute; split; congruence|]); apply wf_nil.
Qed.

Lemma config_from_env_ok e v : config_ok (config_from_env e v).
Proof.
  unfold config_from_env. pose proof const_keys_ok as Hc. rewrite !Forall_cons in Hc.
  destruct Hc as (H1 & H2 & H3 & H4 & H5 & H6 & _).
  assert (Hk : u8 (default DEFAULT_KVN (env_u8 (env_scp03_kvn e)))).
  { unfold env_u8. destruct (env_scp03_kvn e) as [raw|]; [|vm_compute; split; congruence].
    destruct (u8_from_str_radix16 _) as [b|] eqn:E; [by apply radix16_u8 in E|vm_compute; split; congruence]. }
  assert (Hgo : forall a b c, key_ok a -> key_ok b -> key_ok c ->
    config_ok (mkScp03Config (default DEFAULT_KVN (env_u8 (env_scp03_kvn e)))
      (default a (env_key (env_scp03_enc e))) (default b (env_key (env_scp03_mac e)))
      (default c (env_key (env_scp03_dek e))))).
  { intros a b c Ha Hb Hc.
    destruct (default_key_ok (env_key (env_scp03_enc e)) a (env_key_ok _) Ha) as [We Le].
    destruct (default_key_ok (env_key (env_scp03_mac e)) b (env_key_ok _) Hb) as [Wm Lm].
    destruct (default_key_ok (env_key (env_scp03_dek e)) c (env_key_ok _) Hc) as [Wd Ld].
    by refine (conj Hk (conj We (conj Wm (conj Wd (conj Le (conj Lm Ld)))))). }
  destruct v; by apply Hgo.
Qed.

(** PUT KEY answers well-formed keys. *)
Lemma put_key_block_ok ci d i : wf d -> len d = keys.EXPECTED_LEN -> 0 <= i <= 2 ->
  wp (keys.put_key_block ci d i) (fun r => match r with
    | Ok (k, c) => key_ok k /\ len c = 3 /\ wf c | Err e => u16 e end).
Proof.
  intros Hd Hl Hi. unfold keys.put_key_block, keys.EXPECTED_LEN, keys.KEY_BLOCK_LEN in *.
  rewrite (slice_ret d) by lia. cbn [rbind]. set (b := sub d _ _).
  assert (Hb : len b = 23) by (unfold b; rewrite len_sub; lia).
  assert (Hw : wf b) by (unfold b; auto with wfdb).
  do 4 (wp_step; wp_step; cbv beta). h_step; [apply wp_ret; auto with se050|].
  rewrite (slice_ret b 3 19) by lia. cbn [rbind]. rewrite copy_block by (unfold block; rewrite len_sub; lia).
  cbn [rbind].
  destruct (decrypt_block_ok ci (sub b 3 19)) as [Hkb Hkw]; [unfold block; rewrite len_sub; lia|auto with wfdb|].
  set (key := aes.decrypt_block ci (sub b 3 19)) in *.
  h_step; [|apply wp_ret; auto with se050].
  assert (H1 : block (vec_repeat 1 16) /\ wf (vec_repeat 1 16)) by (split; [done|auto with wfdb]).
  destruct H1 as [H1 H1']. destruct (encrypt_block_ok a _ H1 H1') as [Hcb Hcw]. unfold block in *.
  rewrite slice_ret by lia. cbn [rbind]. rewrite (slice_ret b 20 23) by lia. cbn [rbind].
  h_step; [apply wp_ret; auto with se050|]. apply wp_ret. split; [split; [done|by left]|].
  split; [rewrite len_sub; lia|auto with wfdb].
Qed.

Lemma put_keys_ok cfg p1 p2 d : config_ok cfg -> wf d ->
  wp (keys.put_keys cfg p1 p2 d) (fun r => match r with
    | Ok (c, cv) => config_ok c /\ wf cv | Err e => u16 e end).
Proof.
  intros (_ & _ & _ & _ & _ & _ & Hdek) Hd. unfold keys.put_keys.
  h_step; [apply wp_ret; auto with se050|]. h_step; [apply wp_ret; auto with se050|].
  apply negb_false_iff, Z.eqb_eq in E0. h_step; [|apply wp_ret; auto with se050].
  wp_step. apply (wp_idx_wf _ _ _ Hd); [rewrite E0; vm_compute; split; congruence|]. intros k Hk _. cbv beta.
  do 3 (apply wp_bind; eapply wp_mono; [apply put_key_block_ok; done || lia|]; intros [[? ?]|?] Hblk;
    [destruct Hblk as ([? ?] & ? & ?)|by apply wp_ret]; cbv beta iota).
  apply wp_ret. split; [by unfold config_ok; simpl; split_and?|].
  apply wf_app; [auto with wfdb|]. auto with wfdb.
Qed.
End config.

(** ** The responder *)

Definition t1_ok (t : T1Responder) : Prop :=
  u8 (nad_se2hd t) /\ 0 <= iseq_snd t <= 1 /\ 0 <= iseq_rcv t <= 1 /\ wf (apdu_reassembly t) /\
  scp_ok (scp03 t).

(** The chunks of well-formed frames. *)
Definition framed `{Crc16Crate} (cs : list bytes) : Prop :=
  exists fs, cs = fs ≫= (fun f => frame_chunks (built f)) /\
    Forall (fun f => frame_ok f /\ len (t1_payload f) <= 254) fs.

Section responder.
Context `{C : Se050Crates} {CO : Se050CratesOk C} {S : Serde} {F : FileSystem Value} {I : HashIter}
  {IO : HashIterOk}.

(** The store's transition and its invariant. *)
Definition moved (st st' : ObjectStore) : Prop := store_step anything st st' /\ store_ok st'.

Lemma moved_refl st : store_ok st -> moved st st.
Proof. intros Hs. split; [by apply ss_same|done]. Qed.

Lemma post_moved imp st st' resp : store_ok st -> post imp st st' resp -> moved st st' /\ resp_ok resp.
Proof.
  intros Hs Hp. destruct (post_ok _ _ _ _ Hs Hp) as [Hok Hr]. destruct Hp as (Hst & _ & _).
  split; [split; [|done]|done]. destruct Hst; [by apply ss_same| | | |].
  - eapply ss_write; eauto; done.
  - eapply ss_ecdh; eauto; done.
  - eapply ss_delete; eauto; done.
  - by apply ss_clear.
Qed.

Definition t1_post {B} (st : ObjectStore) (Q : B -> Prop) (out : T1Responder * ObjectStore * rng * B) : Prop :=
  t1_ok (fst (fst (fst out))) /\ moved st (snd (fst (fst out))) /\ Q (snd out).

Lemma t1_same {B} t st r (b : B) (Q : B -> Prop) : store_ok st -> t1_ok t -> Q b -> t1_post st Q (t, st, r, b).
Proof. intros Hs Ht Hb. split; [done|split; [by apply moved_refl|done]]. Qed.

Lemma t1_set_scp t s : t1_ok t -> scp_ok s -> t1_ok (set_scp03 t s).
Proof. intros (? & ? & ? & ? & ?) Hs. by split_and?. Qed.
Lemma t1_set_selected t b : t1_ok t -> t1_ok (set_selected t b).
Proof. intros (? & ? & ? & ? & ?). by split_and?. Qed.

Lemma platform_config_ok st e v : store_ok st -> config_ok (platform_scp_config st e v).
Proof.
  intros Hs. unfold platform_scp_config. pose proof (aux_config _ (so_aux _ Hs)) as Hc.
  destruct (platform_scp st); [done|apply config_from_env_ok].
Qed.

Lemma set_platform_post st c cv : store_ok st -> config_ok c -> wf cv ->
  post anything st (set_platform_scp_config st c) (success_with_data cv).
Proof.
  intros Hs Hc Hv. unfold set_platform_scp_config. apply post_persist; [done|done| |by apply resp_ok_data].
  destruct (so_aux _ Hs). by split.
Qed.

Lemma put_key_ok e t st a : store_ok st -> wf (data a) -> wp (put_key e t st a) (post1 anything st).
Proof.
  intros Hs Hd. unfold put_key, post1. wp_step; [by h_run; h_same|]. cbv zeta. apply wp_bind.
  eapply wp_mono; [apply put_keys_ok; [by apply platform_config_ok|done]|].
  intros [[c cv]|err] Hk; apply wp_ret; cbn [fst snd].
  - destruct Hk. by apply set_platform_post.
  - apply post_same; [done|]. by apply resp_ok_error.
Qed.

Lemma dispatch_moved e apdu st r act : store_ok st -> wf (data apdu) ->
  wpp (dispatch e apdu st r act) (may_panic st) (fun out => moved st (fst (fst out)) /\ resp_ok (snd out)).
Proof.
  intros Hs Hd. eapply wpp_mono; [by apply dispatch_wpp|done|]. intros [[st' r'] resp] Hp.
  by eapply post_moved.
Qed.

Lemma secure_command_wpp e t st r raw : store_ok st -> t1_ok t -> wf raw ->
  wpp (secure_command e t st r raw) (may_panic st) (t1_post st resp_ok).
Proof.
  intros Hs Ht Hw. unfold secure_command.
  destruct (scp03 t) as [|p|sess] eqn:Esc; try (apply wpp_ret, t1_same; auto with se050).
  assert (Hse : sess_ok sess) by (destruct Ht as (_ & _ & _ & _ & Hx); by rewrite Esc in Hx).
  eapply wpp_bind_wp; [by apply unwrap_command_ok|].
  intros [sess1 [inner|err]] [Hs1 Hin]; cbn [fst snd] in Hs1, Hin.
  2:{ apply wpp_ret, t1_same; [done|by apply t1_set_scp|by apply resp_ok_error]. }
  cbv beta iota. destruct Hin as (_ & _ & _ & _ & Hd & _).
  apply wpp_bind. apply (wpp_mono _ (may_panic st) _ (fun out => moved st (fst (fst out)) /\ resp_ok (snd out))).
  - p_step; [|by apply dispatch_moved]. apply wp_wpp, wp_bind. eapply wp_mono; [by apply put_key_ok|].
    intros [st' resp] Hp. apply wp_ret. by eapply post_moved.
  - done.
  - intros [[st' r'] resp] [Hm Hr]. eapply wpp_bind_wp; [by apply wrap_response_ok|].
    intros [sess2 resp2] [Hs2 Hr2]. apply wpp_ret. split; [by apply t1_set_scp|done].
Qed.

Lemma plain_apdu_wpp e t st r raw : store_ok st -> t1_ok t -> wf raw ->
  wpp (plain_apdu e t st r raw) (may_panic st) (t1_post st resp_ok).
Proof.
  intros Hs Ht Hw. unfold plain_apdu. eapply wpp_bind_wp; [by apply apdu_parse_ok|].
  intros [apdu|err] Ha; [|apply wpp_ret, t1_same; auto with se050].
  destruct Ha as (_ & _ & _ & _ & Hd & _). apply wpp_bind.
  eapply wpp_mono; [by apply dispatch_moved|done|]. intros [[st' r'] resp] [Hm Hr]. by apply wpp_ret.
Qed.

Lemma process_apdu_wpp e t st r raw : store_ok st -> t1_ok t -> wf raw ->
  wpp (process_apdu e t st r raw) (may_panic st) (t1_post st resp_ok).
Proof.
  intros Hs Ht Hw. unfold process_apdu. p_step; [|by apply plain_apdu_wpp]. apply Z.leb_le in E.
  do 2 (eapply (wpp_bind_wp _ _ u8); [apply (wp_idx_wf _ _ _ Hw); [lia|done]|intros ? ?]).
  eapply (wpp_bind_wp _ _ t1_ok).
  { wp_step; [|by apply wp_ret]. apply wp_bind. eapply wp_mono; [by apply apdu_parse_ok|].
    intros p _. by apply wp_ret, t1_set_selected, t1_set_scp. }
  clear Ht. intros t1 Ht. cbv beta.
  p_step.
  { eapply wpp_bind_wp; [by apply apdu_parse_ok|].
    intros [apdu|err] Ha; [|apply wpp_ret, t1_same; auto with se050]. destruct Ha as (_ & _ & Hp1 & _ & Hd & _).
    cbv zeta. eapply wpp_bind_wp; [by apply initialize_update_ok, platform_config_ok|].
    intros [[scp r'] resp] [Hsc Hr]. apply wpp_ret, t1_same; [done|by apply t1_set_scp|done]. }
  p_step.
  { eapply wpp_bind_wp; [apply external_authenticate_ok; [apply Ht|done]|].
    intros [scp resp] [Hsc Hr]. apply wpp_ret, t1_same; [done|by apply t1_set_scp|done]. }
  p_step; [by apply secure_command_wpp|].
  p_step; [apply wpp_ret, t1_same; [done|by apply t1_set_scp|auto with se050]|].
  p_step; [apply wpp_ret, t1_same; auto with se050|]. by apply plain_apdu_wpp.
Qed.

(** *** Frames out *)

Lemma framed_nil : framed [].
Proof. by exists []. Qed.
Lemma framed_app a b : framed a -> framed b -> framed (a ++ b).
Proof.
  intros (fa & -> & Ha) (fb & -> & Hb). exists (fa ++ fb). rewrite bind_app. split; [done|by apply Forall_app_2].
Qed.
Lemma framed_one f : frame_ok f -> len (t1_payload f) <= 254 -> framed (frame_chunks (built f)).
Proof. intros Hf Hl. exists [f]. split; [by rewrite bind_singleton|]. by apply List.Forall_cons; [|apply List.Forall_nil]. Qed.

Lemma flip_seq n : 0 <= n <= 1 -> Z.lxor n 1 = 1 - n.
Proof. intros Hn. assert (n = 0 \/ n = 1) as [->| ->] by lia; done. Qed.

Lemma response_frames_ok n q ps : u8 n -> 0 <= q <= 1 ->
  Forall (fun p : bytes => wf p /\ len p <= 254) ps ->
  0 <= fst (response_frames n q ps) <= 1 /\ framed (snd (response_frames n q ps)).
Proof.
  intros Hn Hq Hps. revert q Hq. induction Hps as [|p ps [Hw Hl] _ IH]; intros q Hq; [split; [done|apply framed_nil]|].
  cbn [response_frames]. assert (Hq' : 0 <= Z.lxor q 1 <= 1) by (rewrite flip_seq; lia).
  destruct (IH _ Hq') as [Hs Hf]. destruct (response_frames n (Z.lxor q 1) ps) as [q' out].
  split; [done|]. cbn [snd] in *. apply framed_app; [|done].
  apply (framed_one (mkT1Frame n (IFrame q (negb (bool_decide (ps = [])))) p)); [|done].
  refine (conj Hn (conj Hq (conj Hw _))). simpl. lia.
Qed.

Lemma response_chunks_ok t b : t1_ok t -> wf b ->
  t1_ok (fst (build_response_frames t b)) /\ framed (snd (build_response_frames t b)).
Proof.
  intros (Hn & Hq & Hr & Ha & Hs) Hb. unfold build_response_frames.
  destruct (Z.leb_spec (len b) MAX_IFSC) as [Hl|Hl]; unfold MAX_IFSC in *; cbn [fst snd].
  - split.
    + unfold t1_ok. cbn. rewrite flip_seq by done. split_and?; try done; lia.
    + apply (framed_one (mkT1Frame (nad_se2hd t) (IFrame (iseq_snd t) false) b)); [|simpl; lia].
      refine (conj Hn (conj Hq (conj Hb _))). simpl. lia.
  - assert (Hps : Forall (fun p : bytes => wf p /\ len p <= 254) (chunks 254 b)).
    { apply Forall_and. split; [by apply wf_chunks|]. eapply Forall_impl; [apply (chunks_len 254); lia|].
      simpl. lia. }
    destruct (response_frames_ok (nad_se2hd t) (iseq_snd t) _ Hn Hq Hps) as [H1 H2].
    destruct (response_frames _ _ _) as [q out]. split; [|done]. exact (conj Hn (conj H1 (conj Hr (conj Ha Hs)))).
Qed.

Lemma atr_ok : wf ATR_DATA.
Proof. unfold ATR_DATA. repeat (apply wf_cons; [vm_compute; split; congruence|]). apply wf_nil. Qed.

Lemma s_request_ok t code : t1_ok t -> 0 <= code <= 31 ->
  t1_ok (fst (handle_s_request t code)) /\ framed (snd (handle_s_request t code)).
Proof.
  intros Ht Hc. pose proof Ht as (Hn & _). pose proof atr_ok as Ha. unfold handle_s_request.
  assert (Hre : t1_ok (t1_reset t)).
  { refine (conj Hn (conj _ (conj _ (conj wf_nil Logic.I)))); simpl; lia. }
  assert (Hf : forall c p, 0 <= c <= 31 -> wf p -> len p <= 254 ->
    framed (frame_chunks (build_frame (nad_se2hd t) (SFrame c true) p))).
  { intros c p Hcc Hp Hl. apply (framed_one (mkT1Frame (nad_se2hd t) (SFrame c true) p)); [|done].
    refine (conj Hn (conj Hcc (conj Hp _))). simpl. lia. }
  assert (H35 : len ATR_DATA <= 254) by (vm_compute; congruence).
  assert (H0 : len (@nil Z) <= 254) by (vm_compute; congruence).
  unfold T1_S_INTERFACE_SOFT_RESET.
  repeat (case_match; [split; [done|]; apply Hf; auto using wf_nil; lia|]).
  split; [done|]. apply Hf; auto using wf_nil.
Qed.

(** One frame from the host. *)
Lemma process_frame_wpp e t st r d : store_ok st -> t1_ok t -> wf d ->
  wpp (process_frame e t st r d) (may_panic st) (t1_post st framed).
Proof.
  intros Hs Ht Hd. unfold process_frame. eapply wpp_bind_wp; [by apply parse_frame_ok|].
  intros [f|] Hf; [|apply wpp_ret, t1_same; auto using framed_nil]. destruct Hf as (Hn & Hty & Hw & Hl).
  destruct (frame_type f) as [q m|q err|code []]; try (apply wpp_ret, t1_same; auto using framed_nil).
  - unfold handle_i_frame. destruct Ht as (H1 & H2 & H3 & H4 & H5).
    set (t1 := mkT1 _ _ _ _ _ _).
    assert (Ht1 : t1_ok t1).
    { unfold t1, t1_ok. cbn. rewrite flip_seq by done. split_and?; try done; try lia. by apply wf_app. }
    p_step.
    + apply wpp_ret, t1_same; [done|done|].
      apply (framed_one (mkT1Frame (nad_se2hd t1) (RFrame (iseq_rcv t1) 0) [])); [|done].
      refine (conj H1 (conj _ (conj wf_nil _))); [|done]. split; [apply Ht1|lia].
    + cbv zeta. apply wpp_bind. eapply wpp_mono; [apply process_apdu_wpp; [done| |apply Ht1]|done|].
      * destruct Ht1 as (Ha & Hb & Hc & _ & He). exact (conj Ha (conj Hb (conj Hc (conj wf_nil He)))).
      * intros [[[t2 st'] r'] resp] (Ht2 & Hm & [Hr1 Hr2]). cbn [fst snd] in *.
        assert (Hb : wf (to_bytes resp)) by (unfold to_bytes; auto with wfdb).
        destruct (response_chunks_ok t2 _ Ht2 Hb) as [Ht3 Hf]. 
        destruct (build_response_frames t2 (to_bytes resp)) as [t3 cs]. by apply wpp_ret.
  - destruct (s_request_ok t code Ht Hty) as [Ht1 Hf]. destruct (handle_s_request t code) as [t1 cs].
    by apply wpp_ret, t1_same.
Qed.
End responder.
