(* ===== verification/Se050Server.v ===== *)
(** * SE050Sim: the server

    The TCP server over any number of connections: what every schedule keeps, what an
    observer of the objects can rely on, and how a long response reaches a host that
    sends one frame at a time. *)

From S2P Require Import Prelude.
From S2P Require Import Crc.
From S2P Require Import Host.
From S2P Require Import Connections.
From S2P Require Import Crates.
From S2P Require Import Se050Crates.
From S2P Require Import Se050Types.
From S2P Require Import Se050Store.
From S2P Require Import Se050Handlers.
From S2P Require Import Se050Dispatch.
From S2P Require Import Se050Scp03.
From S2P Require Import Se050T1.
From S2P Require Import Se050StoreFacts.
From S2P Require Import Se050HandlersFacts.
From S2P Require Import Se050EcFacts.
From S2P Require Import Se050ChannelFacts.
From S2P Require Import Se050T1Facts.

Section server.
Context `{C : Se050Crates} {CO : Se050CratesOk C} {S : Serde} {F : FileSystem Value} {I : HashIter}
  {IO : HashIterOk}.

(** ** What the objects may do over time *)

(** The store was moved by any number of commands. *)
Inductive moved_star (st : ObjectStore) : ObjectStore -> Prop :=
  | moved_nil : moved_star st st
  | moved_snoc st1 st2 : moved_star st st1 -> moved st1 st2 -> moved_star st st2.

#[local] Instance moved_star_preorder : PreOrder moved_star.
Proof.
  split; [intros st; apply moved_nil|]. intros a b c Hab Hbc. induction Hbc; [done|]. by eapply moved_snoc.
Qed.

(** The order of servers. *)
Definition srv_moved (a b : Server) : Prop := moved_star (srv_store a) (srv_store b).
#[local] Instance srv_moved_preorder : PreOrder srv_moved.
Proof. split; [intros x; apply moved_nil|]. intros a b c Hab Hbc. unfold srv_moved in *. by etransitivity. Qed.

(** ** One turn of a connection *)

Definition is_frame (out : bytes) : Prop := exists f, frame_ok f /\ len (t1_payload f) <= 254 /\ out = frame_bytes f.

Definition tcp_ok (s : TcpSession) : Prop := t1_ok (tcp_t1 s) /\ framed (pending_chunks s).

Lemma write_pending_ok cs : framed cs ->
  framed (fst (write_pending cs)) /\ (snd (write_pending cs) = [] \/ is_frame (snd (write_pending cs))).
Proof.
  intros (fs & -> & Hfs). destruct Hfs as [|f fs [Hf Hl] Hfs]; [split; [apply framed_nil|by left]|].
  cbn. split; [by exists fs|]. right. by exists f.
Qed.

Lemma serve_one_wpp e sv s stream : store_ok (srv_store sv) -> tcp_ok s -> wf stream ->
  wpp (serve_one e sv s stream) (may_panic (srv_store sv)) (fun '(sv', s', rest, out, _) =>
    store_ok (srv_store sv') /\ tcp_ok s' /\ moved_star (srv_store sv) (srv_store sv') /\ wf rest /\
    (out = [] \/ is_frame out)).
Proof.
  intros Hs [Ht Hp] Hw. unfold serve_one.
  assert (Hclosed : wpp (Ret (sv, s, [], [], Closed)) (may_panic (srv_store sv)) (fun '(sv', s', rest, out, _) =>
    store_ok (srv_store sv') /\ tcp_ok s' /\ moved_star (srv_store sv) (srv_store sv') /\ wf rest /\
    (out = [] \/ is_frame out))).
  { apply wpp_ret. split_and!; try done; try apply wf_nil; by left || apply moved_nil. }
  destruct (read_exact stream 3) as [[header stream1]|] eqn:E1; [|done].
  apply read_exact_inv in E1 as [Hst Hl1]; [|lia].
  assert (Hwh : wf header /\ wf stream1) by (apply wf_app_inv; by rewrite <- Hst).
  destruct Hwh as [Hwh Hws].
  eapply (wpp_bind_wp _ _ u8); [apply (wp_idx_wf _ _ _ Hwh); [lia|done]|]. intros n Hn.
  destruct (read_exact stream1 (n + 2)) as [[pc stream2]|] eqn:E2; [|done].
  apply read_exact_inv in E2 as [Hst2 Hl2]; [|unfold u8 in Hn; lia].
  assert (Hwp : wf pc /\ wf stream2) by (apply wf_app_inv; by rewrite <- Hst2).
  destruct Hwp as [Hwp Hws2]. apply wpp_bind.
  eapply wpp_mono; [apply process_frame_wpp; [done|done|by apply wf_app]|done|].
  intros [[[t st] r] cs] (Ht' & Hm & Hf). cbn [fst snd] in *.
  destruct (write_pending_ok _ (framed_app _ _ Hp Hf)) as [Hp' Ho].
  destruct (write_pending _) as [pend out]. apply wpp_ret. split; [apply Hm|]. split; [done|].
  split; [|done]. eapply moved_snoc; [apply moved_nil|done].
Qed.

(** ** Claims *)

(** C6: Any number of connections send any bytes and take turns in any order.  Either every
    turn returns, the store satisfies its invariant and was moved by the transitions of
    [store_step] only, and all that was written is well-formed T=1 frames of at most
    254 payload bytes; or the server stopped at a store that holds a private key whose
    use panics (a Weierstrass key of the wrong length, an RSA key too small for its
    signer). *)
Theorem se050_any_schedule_safe e sched sv (streams : list bytes) :
  store_ok (srv_store sv) -> Forall wf streams ->
  wpp (run_schedule (P := se050_protocol e) sched sv (conn_new (P := se050_protocol e) <$> streams))
    (exists pre rest sv' conns', sched = pre ++ rest /\
       run_schedule (P := se050_protocol e) pre sv (conn_new (P := se050_protocol e) <$> streams)
         = Ret (sv', conns') /\
       moved_star (srv_store sv) (srv_store sv') /\ store_ok (srv_store sv') /\ may_panic (srv_store sv'))
    (fun '(sv', conns') => store_ok (srv_store sv') /\ moved_star (srv_store sv) (srv_store sv') /\
       Forall (fun c => exists rs, c_out (P := se050_protocol e) c = concat rs /\ Forall is_frame rs) conns').
Proof.
  intros Hs Hw.
  eapply wpp_mono; [apply (schedule_wpp (P := se050_protocol e) (fun sv => store_ok (srv_store sv)) tcp_ok
    srv_moved is_frame (fun sv => may_panic (srv_store sv)))|done|].
  - intros sv' s stream Hok Hses Hst. by apply serve_one_wpp.
  - done.
  - apply Forall_fmap. eapply Forall_impl; [exact Hw|]. intros stream Hst.
    apply (conn_new_ok (P := se050_protocol e)); [|done]. split; [|apply framed_nil].
    refine (conj _ (conj _ (conj _ (conj wf_nil Logic.I)))); vm_compute; split; congruence.
  - intros [sv' conns'] (Hok & Hle & Hc). split; [done|]. split; [done|].
    eapply Forall_impl; [exact Hc|]. by intros c (_ & _ & Hr).
Qed.

(** C7: One command and an existing object.  While the object exists its policy and its
    origin stay as they were set at its creation.  It disappears only by a deletion command
    that names it and that its policy allows, or by the command that deletes everything,
    which leaves nothing.  Its content changes only by a write command that names it,
    if its policy allows writing or it is an RSA import that has no key yet, or by an
    ECDH command that gives it as the output object: it then becomes the secret the named
    key shares with the given peer, whatever its policy says, an HMAC key keeping its
    length and an object of any other type turning into a binary one. *)
Theorem policy_enforced e apdu st r act st' r' resp id o :
  store_ok st -> wf (data apdu) -> dispatch e apdu st r act = Ret (st', r', resp) -> get st id = Some o ->
  (get st' id = None ->
     (is_delete apdu = true /\ names apdu id /\ policy_allows st id POLICY_OBJ_ALLOW_DELETE = true) \/
     (is_delete_all apdu = true /\ objects st' = ∅)) /\
  (forall o', get st' id = Some o' -> get_metadata st' id = get_metadata st id /\
     (o' = o \/
      (is_write apdu = true /\ names apdu id /\
        (policy_allows st id POLICY_OBJ_ALLOW_WRITE = true \/ unfinished (Some o))) \/
      (is_ecdh apdu = true /\ agreed_into st apdu id o'))).
Proof.
  intros Hs Hd E Hg. pose proof (dispatch_wpp e apdu st r act Hs Hd) as Hp. rewrite E in Hp.
  destruct Hp as (Hst & _ & _). pose proof Hg as Hgo. unfold get, get_metadata in *. simpl in Hst.
  assert (He : exists_ st id = true) by (apply exists_true; by exists o).
  destruct Hst as [Eo Em|i obj md [Hwr Hnm] Hi Hob Hk Hmd Hp Eo Em|i obj [Hov Hag] Hi Hob Hk Eo Em
    |i [Hdel Hnm] Hp Eo Em|Hall Eo Em]; rewrite Eo, ?Em.
  - split; [by rewrite Hg|]. intros o' Ho'. split; [done|]. left. congruence.
  - destruct (decide (i = id)) as [->|Hne].
    + rewrite lookup_insert_eq, He. split; [done|]. intros o' [= <-]. split; [done|]. right. left.
      split; [done|]. split; [done|]. rewrite <- Hg. by apply Hp.
    + rewrite lookup_insert_ne by done. split; [by rewrite Hg|]. intros o' Ho'. split; [|left; congruence].
      destruct (exists_ st i); [done|]. destruct (metadata st !! i); [done|]. by rewrite lookup_insert_ne.
  - destruct (decide (i = id)) as [->|Hne].
    + rewrite lookup_insert_eq. split; [done|]. intros o' [= <-]. split; [done|]. by right; right.
    + rewrite lookup_insert_ne by done. split; [by rewrite Hg|]. intros o' Ho'. split; [done|]. left. congruence.
  - destruct (decide (i = id)) as [->|Hne].
    + rewrite lookup_delete_eq. split; [by left|done].
    + rewrite !lookup_delete_ne by done. split; [by rewrite Hg|]. intros o' Ho'. split; [done|]. left. congruence.
  - split; [by right|]. intros o' Ho'. by rewrite lookup_empty in Ho'.
Qed.
End server.

(** ** APDUs over the transport

    What a host sees that cuts its APDU into chained I-frames and fetches a long
    response one frame at a time: exactly [process_apdu] on the joined bytes, whatever
    the cuts. *)

Section transport.
Context `{C : Se050Crates} {CO : Se050CratesOk C} {S : Serde} {F : FileSystem Value} {I : HashIter}
  {IO : HashIterOk}.

(** ** One frame, one turn *)

(** [process_frame] behind the parser. *)
Definition on_frame e t (st : ObjectStore) r (f : T1Frame) : t1_out (list bytes) :=
  match frame_type f with
  | SFrame code false => let '(t, cs) := handle_s_request t code in Ret (t, st, r, cs)
  | IFrame _ multi => handle_i_frame e t multi (t1_payload f) st r
  | RFrame _ _ => Ret (t, st, r, [])
  | SFrame _ true => Ret (t, st, r, [])
  end.

Lemma process_built e t st r f : frame_ok f -> process_frame e t st r (frame_bytes f) = on_frame e t st r f.
Proof.
  intros Hf. unfold process_frame. pose proof (parse_frame_built f [] Hf) as Hp. rewrite app_nil_r in Hp.
  by rewrite Hp.
Qed.

Lemma serve_one_frame e sv s f rest : frame_ok f ->
  serve_one e sv s (frame_bytes f ++ rest) =
    (let! '(t, st, r, cs) := on_frame e (tcp_t1 s) (srv_store sv) (srv_rng sv) f in
     let '(pending, out) := write_pending (pending_chunks s ++ cs) in
     Ret (mkServer st r, mkTcp t pending, rest, out, Again)).
Proof.
  intros Hf. pose proof (process_built e (tcp_t1 s) (srv_store sv) (srv_rng sv) f Hf) as Hp.
  pose proof Hf as (Hn & _ & _ & Hl). pose proof (len_nonneg (t1_payload f)).
  unfold serve_one. unfold frame_bytes in *. unfold built, build_frame in *. cbn [fst snd] in *.
  set (h := [nad f; encode_pcb (frame_type f); as_u8 (len (t1_payload f))]) in *.
  set (pc := t1_payload f ++ _) in *.
  rewrite <- app_assoc. change 3 with (len h). rewrite read_exact_app.
  change (idx h 2) with (Ret (as_u8 (len (t1_payload f)))). cbn [rbind].
  assert (E8 : as_u8 (len (t1_payload f)) = len (t1_payload f)) by (apply Z.mod_small; lia).
  replace (as_u8 (len (t1_payload f)) + 2) with (len pc) by (rewrite E8; unfold pc; by rewrite len_app).
  rewrite read_exact_app, Hp. done.
Qed.

(** The wire form of frames. *)
Definition frames_wire (fs : list T1Frame) : bytes := fs ≫= frame_bytes.
Definition chunks_of (fs : list T1Frame) : list bytes := fs ≫= (fun f => frame_chunks (built f)).

Lemma write_pending_cons f fs : write_pending (chunks_of (f :: fs)) = (chunks_of fs, frame_bytes f).
Proof. done. Qed.

(** ** The host's frames *)

Definition chained (n q : Z) (p : bytes) : T1Frame := mkT1Frame n (IFrame q true) p.
Definition last_frame (n q : Z) (p : bytes) : T1Frame := mkT1Frame n (IFrame q false) p.

(** The responder when the last I-frame has come in. *)
Definition received (t : T1Responder) (n : nat) : T1Responder :=
  mkT1 (nad_se2hd t) (Nat.iter n (fun q => Z.lxor q 1) (iseq_rcv t)) (iseq_snd t) [] (scp03 t) (selected_ssd t).

Definition is_r_frame (f : T1Frame) : Prop := exists q err, frame_type f = RFrame q err.

Definition run e fuel (sv : Server) (s : TcpSession) (stream : bytes)
  : res (Server * TcpSession * bytes * option outcome) := serve (P := se050_protocol e) fuel sv s stream.

(** A turn that serves a frame. *)
Lemma run_frame e fuel sv s f rest : frame_ok f ->
  run e (Datatypes.S fuel) sv s (frame_bytes f ++ rest) =
    (let! '(t, st, r, cs) := on_frame e (tcp_t1 s) (srv_store sv) (srv_rng sv) f in
     let '(pending, out) := write_pending (pending_chunks s ++ cs) in
     let! '(sv, s, out', o) := run e fuel (mkServer st r) (mkTcp t pending) rest in
     Ret (sv, s, out ++ out', o)).
Proof.
  intros Hf. unfold run. cbn [serve step se050_protocol]. rewrite serve_one_frame by done.
  destruct (on_frame _ _ _ _ _) as [[[[t st] r] cs]|]; [|done]. cbn [rbind].
  by destruct (write_pending _).
Qed.

(** The chained frames fill the reassembly buffer, each acknowledged. *)
Lemma serve_chained e n q ps : forall fuel st r t rest,
  Forall (fun p : bytes => wf p /\ len p < 256) ps -> u8 n -> 0 <= q <= 1 -> t1_ok t ->
  exists acks, Forall is_r_frame acks /\ length acks = length ps /\
    run e (length ps + fuel)%nat (mkServer st r) (mkTcp t []) (frames_wire (chained n q <$> ps) ++ rest) =
      (let! '(sv, s, out, o) := run e fuel (mkServer st r)
         (mkTcp (mkT1 (nad_se2hd t) (Nat.iter (length ps) (fun q => Z.lxor q 1) (iseq_rcv t)) (iseq_snd t)
                   (apdu_reassembly t ++ concat ps) (scp03 t) (selected_ssd t)) []) rest in
       Ret (sv, s, frames_wire acks ++ out, o)).
Proof.
  intros fuel st r t rest Hps Hn Hq. revert t. induction Hps as [|p ps [Hp Hl] _ IH]; intros t Ht.
  - exists []. split; [by apply List.Forall_nil|]. split; [done|]. cbn [length Nat.add concat Nat.iter].
    rewrite app_nil_r. destruct t. cbn. by destruct (run e fuel _ _ rest) as [[[[? ?] ?] ?]|].
  - set (t1 := mkT1 (nad_se2hd t) (Z.lxor (iseq_rcv t) 1) (iseq_snd t) (apdu_reassembly t ++ p) (scp03 t)
      (selected_ssd t)).
    assert (Ht1 : t1_ok t1).
    { destruct Ht as (H1 & H2 & H3 & H4 & H5). refine (conj H1 (conj H2 (conj _ (conj _ H5)))).
      - simpl. rewrite flip_seq by done. lia.
      - by apply wf_app. }
    destruct (IH t1 Ht1) as (acks & Ha & Hla & E).
    set (ack := mkT1Frame (nad_se2hd t1) (RFrame (iseq_rcv t1) 0) []).
    exists (ack :: acks). split; [by apply List.Forall_cons; [by eexists _, _|]|]. split; [by simpl; f_equal|].
    change (frames_wire (chained n q <$> p :: ps)) with
      (frame_bytes (chained n q p) ++ frames_wire (chained n q <$> ps)).
    rewrite <- app_assoc. cbn [length Nat.add].
    rewrite run_frame by (refine (conj Hn (conj Hq (conj Hp Hl)))).
    cbn [tcp_t1 srv_store srv_rng pending_chunks]. unfold on_frame. cbn [chained frame_type t1_payload].
    unfold handle_i_frame. fold t1. cbn [rbind].
    change ([] ++ frame_chunks (build_frame (nad_se2hd t1) (RFrame (iseq_rcv t1) 0) [])) with (chunks_of [ack]).
    rewrite write_pending_cons. change (chunks_of []) with (@nil bytes). rewrite E.
    cbn [t1 nad_se2hd iseq_rcv iseq_snd apdu_reassembly scp03 selected_ssd concat].
    rewrite <- app_assoc.
    assert (Hit : Nat.iter (length ps) (fun q => Z.lxor q 1) (Z.lxor (iseq_rcv t) 1) =
      Nat.iter (Datatypes.S (length ps)) (fun q => Z.lxor q 1) (iseq_rcv t)).
    { by rewrite Nat.iter_succ_r. }
    rewrite Hit. cbn [length].
    match goal with |- context [run e fuel ?sv ?s rest] =>
      destruct (run e fuel sv s rest) as [[[[? ?] ?] ?]|]; [|done] end.
    cbn [rbind].
    change (frames_wire (ack :: acks)) with (frame_bytes ack ++ frames_wire acks). by rewrite <- app_assoc.
Qed.

(** ** The response *)

(** The frames of a response of more than 254 bytes carry its pieces in order. *)
Lemma response_frames_pieces n q ps : exists fs,
  snd (response_frames n q ps) = chunks_of fs /\ t1_payload <$> fs = ps /\
  Forall (fun f => nad f = n) fs.
Proof.
  revert q. induction ps as [|p ps IH]; intros q; [by exists []|]. cbn [response_frames].
  destruct (IH (Z.lxor q 1)) as (fs & E & Hp & Hn). destruct (response_frames n (Z.lxor q 1) ps) as [q' out].
  exists (mkT1Frame n (IFrame q (negb (bool_decide (ps = [])))) p :: fs). cbn [snd] in *. rewrite E.
  split; [done|]. split; [by cbn; f_equal|]. by apply List.Forall_cons.
Qed.

(** The number of frames of a response. *)
Definition response_count (b : bytes) : nat := if len b <=? 254 then 1 else length (chunks 254 b).

Lemma response_frames_spec t b : exists fs,
  snd (build_response_frames t b) = chunks_of fs /\ concat (t1_payload <$> fs) = b /\
  length fs = response_count b /\ Forall (fun f => nad f = nad_se2hd t) fs.
Proof.
  unfold build_response_frames, response_count, MAX_IFSC. destruct (len b <=? 254).
  - exists [mkT1Frame (nad_se2hd t) (IFrame (iseq_snd t) false) b]. split; [done|].
    split; [by cbn; rewrite app_nil_r|]. split; [done|]. by apply List.Forall_cons; [|apply List.Forall_nil].
  - destruct (response_frames_pieces (nad_se2hd t) (iseq_snd t) (chunks 254 b)) as (fs & E & Hp & Hn).
    exists fs. destruct (response_frames _ _ _) as [q out]. cbn [snd] in *. split; [done|].
    split; [rewrite Hp; by apply concat_chunks|]. split; [|done]. by rewrite <- Hp, length_fmap.
Qed.

(** Every acknowledgement of the host fetches the next frame. *)
Lemma serve_acks e acks : forall fs st r t, length acks = length fs ->
  Forall (fun f => frame_ok f /\ is_r_frame f) acks ->
  run e (Datatypes.S (length acks)) (mkServer st r) (mkTcp t (chunks_of fs)) (frames_wire acks) =
    Ret (mkServer st r, mkTcp t [], frames_wire fs, Some Closed).
Proof.
  intros fs st r t Hl Ha. revert fs Hl. induction Ha as [|a acks [Hf (q & err & Hr)] _ IH]; intros fs Hl.
  - destruct fs; [|done]. reflexivity.
  - destruct fs as [|f fs]; [done|]. injection Hl as Hl. specialize (IH fs Hl).
    change (frames_wire (a :: acks)) with (frame_bytes a ++ frames_wire acks).
    cbn [length]. rewrite run_frame by done. unfold on_frame. rewrite Hr.
    cbn [rbind tcp_t1 srv_store srv_rng pending_chunks]. by rewrite app_nil_r, write_pending_cons, IH.
Qed.

(** C11: The host cuts an APDU anywhere into I-frames and then acknowledges as long as the
    response has frames left.  The server does what [process_apdu] does on the joined
    bytes, acknowledges every chained frame, and delivers frames that carry exactly the
    response, the last of them without anything left in the queue. *)
Theorem apdu_over_tcp e sv t n q ps p acks t2 st2 r2 resp :
  t1_ok t -> apdu_reassembly t = [] -> u8 n -> 0 <= q <= 1 ->
  Forall (fun p : bytes => wf p /\ len p < 256) ps -> wf p -> len p < 256 ->
  process_apdu e (received t (Datatypes.S (length ps))) (srv_store sv) (srv_rng sv) (concat ps ++ p)
    = Ret (t2, st2, r2, resp) ->
  Forall (fun f => frame_ok f /\ is_r_frame f) acks ->
  Datatypes.S (length acks) = response_count (to_bytes resp) ->
  exists rs fs t3,
    run e (length ps + Datatypes.S (Datatypes.S (length acks)))%nat sv (mkTcp t [])
      (frames_wire ((chained n q <$> ps) ++ last_frame n q p :: acks))
      = Ret (mkServer st2 r2, mkTcp t3 [], frames_wire rs ++ frames_wire fs, Some Closed) /\
    Forall is_r_frame rs /\ length rs = length ps /\
    concat (t1_payload <$> fs) = to_bytes resp /\ Forall (fun f => nad f = nad_se2hd t2) fs /\
    scp03 t3 = scp03 t2 /\ apdu_reassembly t3 = apdu_reassembly t2.
Proof.
  intros Ht Hre Hn Hq Hps Hp Hl Hrun Hacks Hcount. destruct sv as [st r]. cbn [srv_store srv_rng] in Hrun.
  destruct (serve_chained e n q ps (Datatypes.S (Datatypes.S (length acks))) st r t
    (frame_bytes (last_frame n q p) ++ frames_wire acks) Hps Hn Hq Ht) as (rs & Hrs & Hlr & E).
  destruct (response_frames_spec t2 (to_bytes resp)) as (fs & Efs & Hcat & Hlen & Hnads).
  rewrite <- Hcount in Hlen. destruct fs as [|f fs]; [done|]. injection Hlen as Hlen.
  destruct (build_response_frames t2 (to_bytes resp)) as [t3 cs] eqn:Eb. cbn [snd] in Efs. subst cs.
  exists rs, (f :: fs), t3.
  split; [|split_and!; try done; unfold build_response_frames in Eb; repeat case_match; by simplify_eq].
  assert (Ew : frames_wire ((chained n q <$> ps) ++ last_frame n q p :: acks) =
    frames_wire (chained n q <$> ps) ++ frame_bytes (last_frame n q p) ++ frames_wire acks).
  { unfold frames_wire. by rewrite bind_app. }
  rewrite Ew, E. rewrite run_frame by (refine (conj Hn (conj Hq (conj Hp Hl)))).
  unfold on_frame, last_frame. cbn [frame_type t1_payload tcp_t1 srv_store srv_rng pending_chunks].
  unfold handle_i_frame. cbn [nad_se2hd iseq_rcv iseq_snd apdu_reassembly scp03 selected_ssd].
  rewrite Hre. cbn [app].
  match goal with |- context [process_apdu e ?t1 _ _ _] =>
    change t1 with (received t (Datatypes.S (length ps))) end.
  rewrite Hrun. cbn [rbind].
  rewrite Eb. cbn [rbind]. rewrite write_pending_cons. by rewrite (serve_acks e acks fs) by done.
Qed.
End transport.
