(* ===== verification/Se050Secure.v ===== *)
(** * SE050Sim: the secure channel against a host

    A host model of SCP03: it wraps commands and opens responses with the keys it
    derives itself.  The card's end computes the same keys, reads back exactly what the
    host wrapped, and its answers open to exactly the plain response. *)

From S2P Require Import Prelude.
From S2P Require Import Crc.
From S2P Require Import Host.
From S2P Require Import Crates.
From S2P Require Import Se050Crates.
From S2P Require Import Se050Types.
From S2P Require Import Se050StoreFacts.
From S2P Require Import Se050Store.
From S2P Require Import Se050Handlers.
From S2P Require Import Se050HandlersFacts.
From S2P Require Import Se050Aes.
From S2P Require Import Se050CryptoFacts.
From S2P Require Import Se050EcFacts.
From S2P Require Import Se050Dispatch.
From S2P Require Import Se050Scp03.
From S2P Require Import Se050T1.
From S2P Require Import Se050ChannelFacts.
From S2P Require Import Se050T1Facts.

(** ** CBC is undone by CBC *)

Section cbc.
Context `{A : AesCrate} {AO : AesCrateOk}.

Lemma cbc_inverse ci cs chain : Forall block cs -> Forall wf cs -> block chain -> wf chain ->
  exists ch out, aes.cbc_chunks ci chain cs true = Ret (ch, out) /\ len out = len (concat cs) /\
    aes.cbc_process ci chain out false = Ret (ch, concat cs).
Proof.
  intros Hc. revert chain. induction Hc as [|b cs Hb _ IH]; intros chain Hw Hch Hwc; [by exists chain, []|].
  apply Forall_cons in Hw as [Hwb Hw]. cbn [aes.cbc_chunks]. rewrite copy_block by done. cbn [rbind].
  assert (Hx : block (xor_bytes b chain)) by (unfold block in *; rewrite len_xor; lia).
  pose proof (wf_xor _ _ Hwb Hwc) as Hxw. destruct (encrypt_block_ok ci _ Hx Hxw) as [He1 He2].
  destruct (IH (aes.encrypt_block ci (xor_bytes b chain)) Hw He1 He2) as (ch & out & E & Hl & Ed).
  rewrite E. cbn [rbind]. eexists _, _. split; [done|]. split.
  - cbn [concat]. rewrite !len_app, Hl. unfold block in *. lia.
  - unfold aes.cbc_process in *. rewrite chunks_cons by (done || lia). cbn [aes.cbc_chunks].
    rewrite copy_block by done. cbn [rbind]. rewrite Ed. cbn [rbind concat].
    rewrite decrypt_encrypt_block by done. rewrite xor_xor; [done|]. unfold block in *. lia.
Qed.

(** Encrypted data has the length of the padded data and decrypts to it. *)
Lemma cbc_crypt_inverse key icv d : aes_key_len (len key) -> block icv -> wf icv -> wf d -> len d mod 16 = 0 ->
  exists out, crypto.cbc_crypt key icv d true = Ret (Some out) /\ wf out /\ len out = len d /\
    crypto.cbc_crypt key icv out false = Ret (Some d).
Proof.
  intros Hk Hb Hw Hd Hm. destruct (cbc_crypt_some key icv d true Hk Hb Hw Hd Hm) as (out & E & Ho).
  exists out. split; [done|]. split; [done|]. revert E. unfold crypto.cbc_crypt.
  destruct (any_aes_some key Hk) as [ci ->]. unfold aes.cbc_process at 1.
  destruct (cbc_inverse ci (chunks 16 d) icv (chunks_exact 16 d ltac:(lia) Hm) (wf_chunks 16 d ltac:(lia) Hd) Hb Hw)
    as (ch & out' & -> & Hl & Ed).
  rewrite concat_chunks in Hl, Ed by lia. cbn [rbind]. intros [= ->]. split; [done|]. by rewrite Ed.
Qed.
End cbc.

(** ** The host

    Written from GlobalPlatform Amendment D and NIST SP 800-38A, 800-38B and 800-108 with
    the block cipher and the CMAC of the crates alone; nothing of it is the card's code. *)

Section primitives.
Context `{A : AesCrate}.

Definition aes_block (key b : bytes) : bytes :=
  match aes_new_from_slice (len key) key with Some c => aes_encrypt_block c b | None => [] end.
Definition aes_block_inverse (key b : bytes) : bytes :=
  match aes_new_from_slice (len key) key with Some c => aes_decrypt_block c b | None => [] end.
Definition cmac_of (key m : bytes) : bytes :=
  match cmac_new_from_slice (len key) key with Some c => cmac_finalize (cmac_update c m) | None => [] end.

Fixpoint cbc_blocks (key iv : bytes) (bs : list bytes) : bytes :=
  match bs with
  | [] => []
  | b :: bs => let c := aes_block key (xor_bytes b iv) in c ++ cbc_blocks key c bs
  end.
Fixpoint cbc_blocks_inverse (key iv : bytes) (cs : list bytes) : bytes :=
  match cs with
  | [] => []
  | c :: cs => xor_bytes (aes_block_inverse key c) iv ++ cbc_blocks_inverse key c cs
  end.
Definition cbc_encrypt (key iv d : bytes) : bytes := cbc_blocks key iv (chunks 16 d).
Definition cbc_decrypt (key iv d : bytes) : bytes := cbc_blocks_inverse key iv (chunks 16 d).

(** One byte [0x80] and zeros up to the end of the block. *)
Definition padded (d : bytes) : bytes := d ++ 0x80 :: vec_repeat 0 (15 - len d mod 16).
Fixpoint without_zeros (l : bytes) : bytes :=
  match l with 0 :: l => without_zeros l | _ => l end.
Definition unpadded (l : bytes) : option bytes :=
  match without_zeros (reverse l) with
  | b :: r => if b =? 0x80 then Some (reverse r) else None
  | [] => None
  end.

(** The MAC of a message behind the chaining value. *)
Definition chain_mac (key chain d : bytes) : bytes := cmac_of key (chain ++ d).

(** The initial value of the [n]th message: its number in the last four bytes of a block,
    the top bit set in a response. *)
Definition icv_of (key : bytes) (n : Z) (resp : bool) : bytes :=
  aes_block key ((if resp then 0x80 else 0) :: vec_repeat 0 11 ++ be_bytes 4 n).

(** The key derivation of SP 800-108 in counter mode: [bits] bits for the purpose [dc]. *)
Definition kdf_piece (key : bytes) (dc bits : Z) (context : bytes) (i : Z) : bytes :=
  cmac_of key (vec_repeat 0 11 ++ [dc; 0; bits / 256; bits mod 256; i] ++ context).
Definition derived (key : bytes) (dc bits : Z) (context : bytes) : bytes :=
  sub (concat (kdf_piece key dc bits context <$> seqZ 1 ((bits + 127) / 128))) 0 (bits / 8).
End primitives.

Section host.
Context `{A : AesCrate} {AO : AesCrateOk}.

(** A host's end of a channel: the three keys, the level, the chaining value, the number
    of the next command, and whether it counts by the rule of the legacy applet. *)
Record HostSession := mkHost {
  h_enc : bytes;
  h_mac : bytes;
  h_rmac : bytes;
  h_level : Z;
  h_chain : bytes;
  h_count : Z;
  h_legacy : bool;
}.

(** The host that is in step with a card. *)
Definition host_of (s : Session) : HostSession :=
  mkHost (s_enc s) (s_mac s) (s_rmac s) (security_level s) (mcv s) (cmd_counter s) (legacy s).

(** The bits of the level. *)
Definition encrypts_commands (h : HostSession) : bool := Z.testbit (h_level h) 1.
Definition macs_responses (h : HostSession) : bool := Z.testbit (h_level h) 4.
Definition encrypts_responses (h : HostSession) : bool := Z.testbit (h_level h) 5.

(** The data field a host sends: padded and encrypted where the level says so. *)
Definition host_payload (h : HostSession) (d : bytes) : bytes :=
  if negb (bool_decide (d = [])) && encrypts_commands h then
    cbc_encrypt (h_enc h) (icv_of (h_enc h) (h_count h) false) (padded d)
  else d.

Definition lc_field (n : Z) : bytes := if n <? 256 then [n] else [0; n / 256; n mod 256].
Definition le_field (l : option Z) : bytes :=
  match l with None => [] | Some x => if x <? 256 then [x] else [x / 256; x mod 256] end.

Definition command_header (h : HostSession) (a : ParsedApdu) : bytes :=
  [Z.lor (cla a) 4; ins a; p1 a; p2 a] ++ lc_field (len (host_payload h (data a)) + 8).

Definition command_mac (h : HostSession) (a : ParsedApdu) : bytes :=
  chain_mac (h_mac h) (h_chain h) (command_header h a ++ host_payload h (data a)).

(** The bytes of a wrapped command, and the host behind it: the full MAC is the new
    chaining value. *)
Definition host_wrap (h : HostSession) (a : ParsedApdu) : bytes :=
  command_header h a ++ host_payload h (data a) ++ sub (command_mac h a) 0 8 ++ le_field (le a).
Definition host_sent (h : HostSession) (a : ParsedApdu) : HostSession :=
  mkHost (h_enc h) (h_mac h) (h_rmac h) (h_level h) (command_mac h a) (h_count h) (h_legacy h).

(** The number a response to [a] is encrypted under: the command's, but the legacy applet
    answers a command without data under the one before. *)
Definition response_number (h : HostSession) (a : ParsedApdu) : Z :=
  if h_legacy h && bool_decide (data a = []) then (h_count h - 1) mod 2 ^ 32 else h_count h.

(** What a host makes of an answer. *)
Definition host_open (h : HostSession) (a : ParsedApdu) (resp : ApduResponse) : option ApduResponse :=
  if macs_responses h && (sw resp =? 0x9000) then
    let n := len (r_data resp) - 8 in
    let field := sub (r_data resp) 0 n in
    let mac := sub (r_data resp) n (len (r_data resp)) in
    let full := chain_mac (h_rmac h) (h_chain h) (field ++ [sw resp / 256; sw resp mod 256]) in
    if negb (bool_decide (sub full 0 8 = mac)) then None
    else if encrypts_responses h && negb (bool_decide (field = [])) then
      match unpadded (cbc_decrypt (h_enc h) (icv_of (h_enc h) (response_number h a) true) field) with
      | Some d => Some (mkResponse d (sw resp))
      | None => None
      end
    else Some (mkResponse field (sw resp))
  else Some resp.

(** Every exchange is counted; the legacy applet does not count a successful command
    without data, nor a failed one whose data are eight bytes. *)
Definition counted (h : HostSession) (a : ParsedApdu) (resp : ApduResponse) : bool :=
  negb (h_legacy h) || negb (len (data a) =? (if sw resp =? 0x9000 then 0 else 8)).

Definition host_after (h : HostSession) (a : ParsedApdu) (resp : ApduResponse) : HostSession :=
  mkHost (h_enc h) (h_mac h) (h_rmac h) (h_level h) (h_chain h)
    (if counted h a resp then (h_count h + 1) mod 2 ^ 32 else h_count h) (h_legacy h).

(** Commands a host can send through the channel. *)
Definition command_ok (a : ParsedApdu) : Prop :=
  u8 (cla a) /\ Z.land (cla a) 4 = 0 /\ u8 (ins a) /\ u8 (p1 a) /\ u8 (p2 a) /\ wf (data a) /\
  len (data a) < 65500 /\ match le a with Some x => u16 x | None => True end.

(** *** The values are there *)

Lemma any_aes_block key : aes_key_len (len key) -> exists ci, aes.any_aes_new key = Some ci /\
  (forall b, aes.encrypt_block ci b = aes_block key b) /\ (forall b, aes.decrypt_block ci b = aes_block_inverse key b).
Proof.
  intros Hk. unfold aes.any_aes_new, aes_block, aes_block_inverse.
  destruct Hk as [E|[E|E]]; rewrite E; cbn -[aes_new_from_slice];
    (match goal with |- context [aes_new_from_slice ?n ?k] =>
       destruct (aes_new_some n k) as [m ->]; [set_solver|done|] end; eexists; split; [done|by split]).
Qed.

Lemma cmac_value key d : aes_key_len (len key) ->
  mac.cmac_aes key d = Some (cmac_of key d) /\ block (cmac_of key d) /\ wf (cmac_of key d).
Proof.
  intros Hk. unfold mac.cmac_aes, mac.do_cmac, cmac_of.
  destruct Hk as [E|[E|E]]; rewrite E; cbn -[cmac_new_from_slice];
    (match goal with |- context [cmac_new_from_slice ?n ?k] =>
       destruct (cmac_new_some n k) as [m ->]; [set_solver|done|] end;
     split; [done|]; split; [apply cmac_finalize_len|apply cmac_finalize_wf]).
Qed.

Lemma chain_mac_ok key m d : aes_key_len (len key) ->
  crypto.cmac_chain key m d = Ret (Some (chain_mac key m d)) /\ block (chain_mac key m d) /\ wf (chain_mac key m d).
Proof.
  intros Hk. destruct (cmac_value key (m ++ d) Hk) as (E & Hb & Hw). split; [|done].
  unfold crypto.cmac_chain, chain_mac. rewrite E. unfold block in Hb.
  rewrite slice_ret by lia. cbn [rbind]. by rewrite sub_full, copy_full by lia.
Qed.

Lemma icv_ok key n r : aes_key_len (len key) ->
  crypto.counter_icv key n r = Ret (Some (icv_of key n r)) /\ block (icv_of key n r) /\ wf (icv_of key n r).
Proof.
  intros Hk. cut (crypto.counter_icv key n r = Ret (Some (icv_of key n r))).
  { intros E. split; [done|]. destruct (counter_icv_some key n r Hk) as (b & Eb & H). by rewrite E in Eb; injection Eb as <-. }
  unfold crypto.counter_icv, icv_of. destruct (any_aes_block key Hk) as (ci & -> & Hci & _).
  unfold copy_from_slice. rewrite bool_decide_true by (rewrite len_vec_repeat, len_be_bytes; lia).
  cbn [rbind]. replace (splice (vec_repeat 0 16) 12 (be_bytes 4 n)) with (0 :: vec_repeat 0 11 ++ be_bytes 4 n) by done.
  rewrite <- Hci. by destruct r.
Qed.

Lemma padded_eq d : crypto.pad_m2 d = padded d.
Proof.
  unfold crypto.pad_m2, padded. rewrite <- app_assoc. cbn [app]. f_equal. f_equal. f_equal.
  rewrite len_app. change (len [128]) with 1. pose proof (len_nonneg d). dlia.
Qed.

Lemma unpadded_eq l : unpadded l = crypto.unpad_m2 l.
Proof.
  unfold unpadded, crypto.unpad_m2. induction (reverse l) as [|b r IH]; [done|]. cbn [crypto.unpad_rev].
  destruct (Z.eqb_spec b 0) as [->|Hb]; [exact IH|]. by destruct b.
Qed.

Lemma cbc_encrypt_eq key iv d : aes_key_len (len key) -> len d mod 16 = 0 ->
  crypto.cbc_crypt key iv d true = Ret (Some (cbc_encrypt key iv d)).
Proof.
  intros Hk Hm. unfold crypto.cbc_crypt, cbc_encrypt, aes.cbc_process.
  destruct (any_aes_block key Hk) as (ci & -> & Hci & _).
  cut (exists ch, aes.cbc_chunks ci iv (chunks 16 d) true = Ret (ch, cbc_blocks key iv (chunks 16 d)));
    [by intros [ch ->]|].
  revert iv.
  induction (chunks_exact 16 d ltac:(lia) Hm) as [|b cs Hb _ IH]; intros iv; [by exists iv|].
  cbn [aes.cbc_chunks cbc_blocks]. rewrite copy_block by done. cbn [rbind]. rewrite Hci.
  destruct (IH (aes_block key (xor_bytes b iv))) as [ch ->]. by exists ch.
Qed.

Lemma cbc_decrypt_eq key iv d : aes_key_len (len key) -> len d mod 16 = 0 ->
  crypto.cbc_crypt key iv d false = Ret (Some (cbc_decrypt key iv d)).
Proof.
  intros Hk Hm. unfold crypto.cbc_crypt, cbc_decrypt, aes.cbc_process.
  destruct (any_aes_block key Hk) as (ci & -> & _ & Hci).
  cut (exists ch, aes.cbc_chunks ci iv (chunks 16 d) false = Ret (ch, cbc_blocks_inverse key iv (chunks 16 d)));
    [by intros [ch ->]|].
  revert iv. induction (chunks_exact 16 d ltac:(lia) Hm) as [|b cs Hb _ IH]; intros iv; [by exists iv|].
  cbn [aes.cbc_chunks cbc_blocks_inverse]. rewrite copy_block by done. cbn [rbind]. rewrite Hci.
  destruct (IH b) as [ch ->]. by exists ch.
Qed.

(** The card's key derivation is that of the standard. *)
Lemma kdf_round fuel key dc ctx bits need i out : aes_key_len (len key) -> len out < need -> i < 255 ->
  crypto.kdf_block dc i ctx bits = vec_repeat 0 11 ++ [dc; 0; bits / 256; bits mod 256; i] ++ ctx ->
  crypto.kdf_loop (Datatypes.S fuel) key dc ctx bits need i out =
    crypto.kdf_loop fuel key dc ctx bits need (i + 1) (out ++ kdf_piece key dc bits ctx i).
Proof.
  intros Hk Hn Hi Eb. cbn [crypto.kdf_loop]. rewrite (proj2 (Z.leb_gt _ _)) by lia. rewrite Eb.
  destruct (cmac_value key (vec_repeat 0 11 ++ [dc; 0; bits / 256; bits mod 256; i] ++ ctx) Hk) as (-> & _).
  by rewrite (proj2 (Z.ltb_ge _ _)) by lia.
Qed.

Lemma kdf_last fuel key dc ctx bits need i out : need <= len out ->
  crypto.kdf_loop fuel key dc ctx bits need i out = Some (sub out 0 need).
Proof. intros Hn. destruct fuel; cbn [crypto.kdf_loop]; by rewrite (proj2 (Z.leb_le _ _)) by lia. Qed.

Lemma len_kdf_piece key dc bits ctx i : aes_key_len (len key) -> len (kdf_piece key dc bits ctx i) = 16.
Proof. intros Hk. by destruct (cmac_value key (vec_repeat 0 11 ++ [dc; 0; bits / 256; bits mod 256; i] ++ ctx) Hk) as (_ & ? & _). Qed.

Lemma kdf_value key dc ctx bits : aes_key_len (len key) -> In bits [64; 128; 192; 256] ->
  crypto.kdf key dc ctx bits = Some (derived key dc bits ctx).
Proof.
  intros Hk Hb. unfold crypto.kdf, derived.
  change 256%nat with (Datatypes.S (Datatypes.S 254)).
  pose proof (len_kdf_piece key dc bits ctx 1 Hk) as L1. pose proof (len_kdf_piece key dc bits ctx 2 Hk) as L2.
  assert (Hblk : forall i, crypto.kdf_block dc i ctx bits = vec_repeat 0 11 ++ [dc; 0; bits / 256; bits mod 256; i] ++ ctx).
  { intros i. by destruct Hb as [<-|[<-|[<-|[<-|[]]]]]. }
  assert (E1 : 64 <= bits <= 256) by (destruct Hb as [<-|[<-|[<-|[<-|[]]]]]; lia).
  assert (E8 : (bits + 7) / 8 = bits / 8) by by destruct Hb as [<-|[<-|[<-|[<-|[]]]]].
  rewrite E8. rewrite kdf_round by (done || (rewrite ?len_nil; dlia)). cbn [app]. change (1 + 1) with 2.
  destruct (Z.le_gt_cases bits 128) as [Hs|Hs].
  - rewrite kdf_last by (rewrite L1; dlia).
    replace ((bits + 127) / 128) with 1 by dlia. change (seqZ 1 1) with [1].
    cbn [fmap list_fmap concat]. by rewrite app_nil_r.
  - rewrite kdf_round by (done || (rewrite ?L1; dlia)). rewrite kdf_last by (rewrite len_app, L1, L2; dlia).
    replace ((bits + 127) / 128) with 2 by dlia. change (seqZ 1 2) with [1; 2].
    cbn [fmap list_fmap concat]. by rewrite app_nil_r.
Qed.

Lemma level_bit l n : 0 <= n -> negb (Z.land l (2 ^ n) =? 0) = Z.testbit l n.
Proof.
  intros Hn. rewrite land_pow2 by done. destruct (Z.testbit l n); [|done].
  apply negb_true_iff, Z.eqb_neq. pose proof (Z.pow_pos_nonneg 2 n). lia.
Qed.

Lemma sw_bytes x : u16 x -> [as_u8 (Z.shiftr x 8); as_u8 x] = [x / 256; x mod 256].
Proof.
  intros Hx. unfold as_u8. rewrite Z.shiftr_div_pow2 by lia. change (2 ^ 8) with 256.
  rewrite (Z.mod_small (x / 256)); [done|]. unfold u16 in Hx. dlia.
Qed.

Lemma len_pad d : len d < len (crypto.pad_m2 d) <= len d + 16.
Proof.
  unfold crypto.pad_m2. pose proof (len_nonneg d). rewrite len_app, len_vec_repeat, len_app.
  change (len [128]) with 1. dlia.
Qed.

Lemma host_payload_ok s d : sess_ok s -> wf d ->
  wf (host_payload (host_of s) d) /\ len d <= len (host_payload (host_of s) d) <= len d + 16 /\
  decrypt_payload s (host_payload (host_of s) d) = Ret (Ok d).
Proof.
  intros Hs Hd. pose proof (se_enc _ Hs) as [_ Hk]. pose proof (len_nonneg d). unfold host_payload, decrypt_payload.
  change (negb (Z.land (security_level s) LEVEL_CDEC =? 0)) with (negb (Z.land (security_level s) (2 ^ 1) =? 0)).
  rewrite level_bit by lia. change (Z.testbit (security_level s) 1) with (encrypts_commands (host_of s)).
  destruct (negb (bool_decide (d = []))) eqn:En; cbn [andb].
  2:{ apply negb_false_iff, bool_decide_eq_true in En. subst d. split; [apply wf_nil|]. by split; [rewrite len_nil; lia|]. }
  destruct (encrypts_commands (host_of s)) eqn:El; cbn [andb].
  2:{ rewrite andb_false_r. split; [done|]. split; [lia|done]. }
  cbn [host_of h_enc h_count]. rewrite <- padded_eq.
  destruct (icv_ok (s_enc s) (cmd_counter s) false Hk) as (Ei & Hb & Hw). destruct (pad_m2_ok d Hd) as [Hpw Hpl].
  destruct (cbc_crypt_inverse (s_enc s) _ _ Hk Hb Hw Hpw Hpl) as (out & Ee & Ho & Hl & Ed).
  rewrite cbc_encrypt_eq in Ee by done. injection Ee as ->. pose proof (len_pad d). split; [done|]. split; [lia|].
  rewrite bool_decide_false. 2:{ intros ->. rewrite len_nil in Hl. lia. }
  cbn [negb andb]. rewrite Hl, Hpl. cbn [Z.eqb negb]. rewrite Ei. cbn [rbind]. rewrite Ed. cbn [rbind].
  by rewrite unpad_pad.
Qed.

(** The card's session behind a command of the host. *)
Definition sent (s : Session) (a : ParsedApdu) : Session :=
  set_last_cmd_len (set_mcv s (command_mac (host_of s) a)) (len (data a)).

(** *** One command *)

Lemma secure_class c : u8 c -> Z.land c 4 = 0 ->
  Z.land (Z.lor c 4) 0xFB = c /\ (Z.land (Z.lor c 4) 4 =? 0) = false /\ (Z.lor c 4 =? 0x00) = false /\
  (Z.lor c 4 =? 0x80) = false.
Proof.
  intros Hc H4. assert (Hall : forallb (fun n => negb (Z.land (Z.of_nat n) 4 =? 0) ||
    ((Z.land (Z.lor (Z.of_nat n) 4) 0xFB =? Z.of_nat n) && negb (Z.land (Z.lor (Z.of_nat n) 4) 4 =? 0) &&
     negb (Z.lor (Z.of_nat n) 4 =? 0x00) && negb (Z.lor (Z.of_nat n) 4 =? 0x80))) (seq 0 256) = true)
    by (vm_compute; reflexivity).
  rewrite forallb_forall in Hall. unfold u8 in Hc.
  assert (Hin : In (Z.to_nat c) (seq 0 256)) by (apply in_seq; lia).
  specialize (Hall _ Hin). rewrite Z2Nat.id, H4 in Hall by lia. cbn [Z.eqb negb orb] in Hall.
  apply andb_true_iff in Hall as [[[H1%Z.eqb_eq H2%negb_true_iff]%andb_true_iff H3%negb_true_iff]%andb_true_iff
    H5%negb_true_iff]. done.
Qed.

Lemma trailing_le_field l : match l with Some x => u16 x | None => True end -> trailing_le (le_field l) = l.
Proof.
  destruct l as [x|]; [|done]. intros Hx. unfold le_field. destruct (Z.ltb_spec x 256); [done|]. cbn.
  assert (Hh : u8 (x / 256)) by dlia. assert (Hl : u8 (x mod 256)) by dlia.
  rewrite as_u16_shl8, lor_be16 by done. f_equal. pose proof (Z.div_mod x 256). lia.
Qed.

(** The header is read up to the data field. *)
Lemma unwrap_header c i x y n (rest : bytes) (k : option (Z * Z) -> res (Session * Result ParsedApdu Z)) s :
  8 <= n < 65536 -> n <= len rest ->
  (let raw := ([c; i; x; y] ++ lc_field n) ++ rest in
   if len raw <? 5 then Ret (s, Err SW_WRONG_LENGTH)
   else
     let! r4 := idx raw 4 in
     let! hdr := (if negb (r4 =? 0x00) then Ret (Some (r4, 5))
                  else if len raw <? 7 then Ret None
                  else let! r5 := idx raw 5 in let! r6 := idx raw 6 in
                       Ret (Some (Z.lor (Z.shiftl r5 8) r6, 7))) in k hdr) =
  k (Some (n, 4 + len (lc_field n))).
Proof.
  intros Hn Hr. cbv zeta. unfold lc_field. destruct (Z.ltb_spec n 256).
  - cbn [app]. rewrite (proj2 (Z.ltb_ge _ _)) by (rewrite !len_cons; lia).
    change (idx (c :: i :: x :: y :: n :: rest) 4) with (Ret n). cbn [rbind].
    by rewrite (proj2 (Z.eqb_neq _ _)) by lia.
  - cbn [app]. rewrite (proj2 (Z.ltb_ge _ _)) by (rewrite !len_cons; lia).
    change (idx (c :: i :: x :: y :: 0 :: n / 256 :: n mod 256 :: rest) 4) with (Ret 0).
    change (idx (c :: i :: x :: y :: 0 :: n / 256 :: n mod 256 :: rest) 5) with (Ret (n / 256)).
    change (idx (c :: i :: x :: y :: 0 :: n / 256 :: n mod 256 :: rest) 6) with (Ret (n mod 256)).
    cbn [rbind Z.eqb negb]. rewrite (proj2 (Z.ltb_ge _ _)) by (rewrite !len_cons; lia). cbn [rbind].
    rewrite lor_be16 by (unfold u8; dlia). f_equal. f_equal. f_equal. pose proof (Z.div_mod n 256). lia.
Qed.

Lemma wf_lc n : 0 <= n < 65536 -> wf (lc_field n).
Proof. intros Hn. unfold lc_field. destruct (Z.ltb_spec n 256); repeat (apply wf_cons; [dlia|]); apply wf_nil. Qed.

(** What the host wrapped is what the card unwraps. *)
Lemma unwrap_wrapped s a : sess_ok s -> command_ok a ->
  unwrap_command s (host_wrap (host_of s) a) = Ret (sent s a, Ok a).
Proof.
  intros Hs (Hc & H4 & Hi & Hp1 & Hp2 & Hd & Hl & Hle).
  pose proof (host_payload_ok s (data a) Hs Hd) as (Hpw & Hpl & Hdec). pose proof (len_nonneg (data a)).
  unfold host_wrap. destruct (chain_mac_ok (s_mac s) (mcv s) (command_header (host_of s) a ++ host_payload (host_of s) (data a))
    (proj2 (se_mac _ Hs))) as (Em & Hmb & Hmw). change (chain_mac (s_mac s) (mcv s) _) with (command_mac (host_of s) a) in Em, Hmb, Hmw.
  set (P := host_payload (host_of s) (data a)) in *. set (M := command_mac (host_of s) a) in *.
  set (n := len P + 8). set (hdr := command_header (host_of s) a) in *.
  assert (Hhdr : hdr = [Z.lor (cla a) 4; ins a; p1 a; p2 a] ++ lc_field n) by done.
  assert (Hm8 : len (sub M 0 8) = 8) by (rewrite len_sub; unfold block in Hmb; lia).
  set (rest := P ++ sub M 0 8 ++ le_field (le a)).
  pose proof (len_nonneg (le_field (le a))). pose proof (len_nonneg P).
  assert (Hrest : len rest = len P + 8 + len (le_field (le a))) by (unfold rest; rewrite !len_app; lia).
  assert (Hlen : len hdr = 4 + len (lc_field n)) by (rewrite Hhdr, len_app; done).
  assert (Hn : 8 <= n < 65536) by (unfold n; lia).
  change (hdr ++ P ++ sub M 0 8 ++ le_field (le a)) with (hdr ++ rest).
  assert (Hidx : forall k, 0 <= k < 4 -> idx (hdr ++ rest) k = idx [Z.lor (cla a) 4; ins a; p1 a; p2 a] k).
  { intros k Hk. rewrite Hhdr, <- app_assoc. rewrite idx_app_l by (rewrite !len_cons, len_nil; lia). done. }
  unfold unwrap_command. rewrite !Hidx by lia.
  change (idx [Z.lor (cla a) 4; ins a; p1 a; p2 a] 0) with (Ret (Z.lor (cla a) 4)).
  change (idx [Z.lor (cla a) 4; ins a; p1 a; p2 a] 1) with (Ret (ins a)).
  change (idx [Z.lor (cla a) 4; ins a; p1 a; p2 a] 2) with (Ret (p1 a)).
  change (idx [Z.lor (cla a) 4; ins a; p1 a; p2 a] 3) with (Ret (p2 a)). cbn [rbind].
  refine (eq_trans (unwrap_header (Z.lor (cla a) 4) (ins a) (p1 a) (p2 a) n rest _ s Hn _) _); [lia|].
  cbv beta iota. rewrite <- Hlen.
  assert (Htot : len (hdr ++ rest) = len hdr + n + len (le_field (le a))) by (rewrite len_app, Hrest; unfold n; lia).
  pose proof (len_nonneg hdr).
  rewrite (proj2 (Z.ltb_ge n 8)), (proj2 (Z.ltb_ge _ (len hdr + n))) by lia. cbn [orb].
  rewrite !(slice_ret (hdr ++ rest)) by lia. cbn [rbind].
  assert (E0 : sub (hdr ++ rest) 0 (len hdr) = hdr) by apply sub_prefix.
  assert (E1 : sub (hdr ++ rest) (len hdr) (len hdr + n) = P ++ sub M 0 8).
  { unfold rest. rewrite (app_assoc P). apply sub_middle; [done|]. rewrite len_app, Hm8. done. }
  assert (E2 : sub (hdr ++ rest) (len hdr + n) (len (hdr ++ rest)) = le_field (le a)).
  { unfold rest. rewrite (app_assoc P), (app_assoc hdr). apply sub_suffix.
    - rewrite !len_app, Hm8. unfold n. lia.
    - rewrite !len_app, Hm8. unfold n. lia. }
  rewrite E0, E1, E2.
  assert (Hbl : len (P ++ sub M 0 8) = n) by (rewrite len_app, Hm8; done).
  rewrite (slice_ret (P ++ sub M 0 8) 0), (slice_ret (P ++ sub M 0 8) (n - 8)) by lia. cbn [rbind].
  replace (sub (P ++ sub M 0 8) 0 (n - 8)) with P.
  2:{ symmetry. replace (n - 8) with (len P) by (unfold n; lia). apply sub_prefix. }
  replace (sub (P ++ sub M 0 8) (n - 8) (len (P ++ sub M 0 8))) with (sub M 0 8).
  2:{ symmetry. apply sub_suffix; unfold n in *; lia. }
  rewrite Em. cbn [rbind]. unfold block in Hmb. rewrite slice_ret by lia. cbn [rbind].
  rewrite bool_decide_true by done. cbn [negb].
  change (decrypt_payload (set_mcv s M) P) with (decrypt_payload s P). rewrite Hdec. cbn [rbind].
  rewrite trailing_le_field by done. rewrite (proj1 (secure_class _ Hc H4)). unfold sent. fold M. by destruct a.
Qed.

(** *** One response *)

Lemma sent_ok s a : sess_ok s -> command_ok a -> sess_ok (sent s a).
Proof.
  intros Hs Ha. destruct (chain_mac_ok (s_mac s) (mcv s) (command_header (host_of s) a ++ host_payload (host_of s) (data a))
    (proj2 (se_mac _ Hs))) as (_ & Hb & Hw). destruct Hs. split; try done. apply len_nonneg.
Qed.

(** The host and the card are in step behind the command, and behind the answer. *)
Lemma host_of_sent s a : host_of (sent s a) = host_sent (host_of s) a.
Proof. done. Qed.

Lemma counted_eq s a resp :
  counted (host_sent (host_of s) a) a resp =
    (if legacy s then if sw resp =? SW_NO_ERROR then 0 <? len (data a) else negb (len (data a) =? 8) else true).
Proof.
  unfold counted. cbn [host_sent host_of h_legacy]. change SW_NO_ERROR with 0x9000.
  destruct (legacy s); [|done]. cbn [negb orb]. destruct (sw resp =? 0x9000); [|done].
  pose proof (len_nonneg (data a)). destruct (Z.ltb_spec 0 (len (data a))), (Z.eqb_spec (len (data a)) 0); done || lia.
Qed.

Lemma host_of_advance s a resp :
  host_of (advance_counter (sent s a) (sw resp)) = host_after (host_sent (host_of s) a) a resp.
Proof.
  unfold advance_counter, host_after. rewrite counted_eq.
  change (legacy (sent s a)) with (legacy s). change (last_cmd_len (sent s a)) with (len (data a)).
  by destruct (if legacy s then _ else _).
Qed.

Lemma response_number_eq s a : last_cmd_len s = len (data a) ->
  (if legacy s && (last_cmd_len s =? 0) then as_u32 (cmd_counter s - 1) else cmd_counter s)
    = response_number (host_of s) a.
Proof.
  intros El. unfold response_number. cbn [host_of h_legacy h_count]. rewrite El.
  destruct (legacy s); [|done]. cbn [andb].
  destruct (Z.eqb_spec (len (data a)) 0) as [E|E], (bool_decide_reflect (data a = [])) as [E'|E']; try done.
  - destruct (data a); [done|]. rewrite len_cons in E. pose proof (len_nonneg l). lia.
  - by rewrite E' in E.
Qed.

(** The card's field for a response: plain, or padded and encrypted. *)
Lemma response_field_inverse s a d : sess_ok s -> wf d -> last_cmd_len s = len (data a) ->
  exists f, response_field s d = Ret (Some f) /\ wf f /\
    (if encrypts_responses (host_of s) && negb (bool_decide (f = [])) then
       unpadded (cbc_decrypt (s_enc s) (icv_of (s_enc s) (response_number (host_of s) a) true) f) = Some d
     else f = d).
Proof.
  intros Hs Hd Ha. pose proof (se_enc _ Hs) as [_ Hk]. unfold response_field. cbv zeta.
  change (negb (Z.land (security_level s) LEVEL_RENC =? 0)) with (negb (Z.land (security_level s) (2 ^ 5) =? 0)).
  rewrite level_bit by lia. change (Z.testbit (security_level s) 5) with (encrypts_responses (host_of s)).
  rewrite (response_number_eq s a Ha).
  destruct (encrypts_responses (host_of s)) eqn:El; cbn [andb]; [|by exists d].
  destruct (bool_decide_reflect (d = [])) as [->|Hne]; cbn [negb]; [exists []; split; [done|split; [apply wf_nil|done]]|].
  destruct (icv_ok (s_enc s) (response_number (host_of s) a) true Hk) as (Ei & Hb & Hw). destruct (pad_m2_ok d Hd) as [Hpw Hpl].
  destruct (cbc_crypt_inverse (s_enc s) _ _ Hk Hb Hw Hpw Hpl) as (out & Ee & Ho & Hl & Ed).
  rewrite Ei. cbn [rbind]. exists out. split; [done|]. split; [done|].
  pose proof (len_pad d). pose proof (len_nonneg d).
  rewrite bool_decide_false. 2:{ intros ->. rewrite len_nil in Hl. lia. }
  cbn [negb]. rewrite cbc_decrypt_eq in Ed by (rewrite ?Hl; done). injection Ed as ->. rewrite unpadded_eq. apply unpad_pad.
Qed.

(** What the card wrapped opens to the plain response. *)
Lemma open_wrapped s a resp : sess_ok s -> resp_ok resp -> last_cmd_len s = len (data a) ->
  exists wrapped, wrap_response s resp = Ret (advance_counter s (sw resp), wrapped) /\ sw wrapped = sw resp /\
    host_open (host_of s) a wrapped = Some resp.
Proof.
  intros Hs [Hd Hw] Ha. unfold wrap_response, host_open. cbv zeta.
  change (negb (Z.land (security_level s) LEVEL_RMAC =? 0)) with (negb (Z.land (security_level s) (2 ^ 4) =? 0)).
  rewrite level_bit by lia. change (Z.testbit (security_level s) 4) with (macs_responses (host_of s)).
  change SW_NO_ERROR with 0x9000. rewrite sw_bytes by done.
  destruct (macs_responses (host_of s) && (sw resp =? 0x9000)) eqn:Ep.
  2:{ eexists. split; [done|]. split; [done|]. cbn [sw]. rewrite Ep. by destruct resp. }
  destruct (response_field_inverse s a (r_data resp) Hs Hd Ha) as (f & -> & Hf & Hinv). cbn [rbind].
  cbn [host_of h_rmac h_chain h_enc] in *.
  destruct (chain_mac_ok (s_rmac s) (mcv s) (f ++ [sw resp / 256; sw resp mod 256]) (proj2 (se_rmac _ Hs))) as (-> & Hb & _). cbn [rbind].
  set (M := chain_mac (s_rmac s) (mcv s) (f ++ _)) in *. unfold block in Hb. rewrite slice_ret by lia. cbn [rbind].
  eexists. split; [done|]. split; [done|]. cbn [sw r_data]. rewrite Ep.
  assert (Hm8 : len (sub M 0 8) = 8) by (rewrite len_sub; lia).
  replace (len (f ++ sub M 0 8) - 8) with (len f) by (rewrite len_app; lia).
  rewrite sub_prefix. rewrite (sub_suffix f) by (rewrite ?len_app; lia). fold M.
  rewrite bool_decide_true by done. cbn [negb].
  destruct (encrypts_responses _ && negb (bool_decide (f = []))).
  - rewrite Hinv. by destruct resp.
  - subst f. by destruct resp.
Qed.
End host.

(** ** Commands through the channel *)

Section channel.
Context `{C : Se050Crates} {CO : Se050CratesOk C} {S : Serde} {F : FileSystem Value} {I : HashIter}
  {IO : HashIterOk}.

(** The plain execution of a command inside the channel. *)
Definition run_inner e t (st : ObjectStore) r (a : ParsedApdu) : res (ObjectStore * rng * ApduResponse) :=
  if (cla a =? 0x80) && (ins a =? 0xD8) then
    let! '(st, resp) := put_key e t st a in Ret (st, r, resp)
  else dispatch e a st r true.

Lemma run_inner_moved e t st r a : store_ok st -> wf (data a) ->
  wpp (run_inner e t st r a) (may_panic st) (fun out => moved st (fst (fst out)) /\ resp_ok (snd out)).
Proof.
  intros Hs Hd. unfold run_inner. p_step; [|by apply dispatch_moved].
  apply wp_wpp, wp_bind. eapply wp_mono; [by apply put_key_ok|].
  intros [st' resp] Hp. apply wp_ret. by eapply post_moved.
Qed.

(** The card's session after a command and its response. *)
Definition exchanged (s : Session) (a : ParsedApdu) (resp : ApduResponse) : Session :=
  advance_counter (sent s a) (sw resp).

Lemma secure_exchange e t s st r a st' r' resp : scp03 t = Active s -> sess_ok s -> command_ok a -> store_ok st ->
  run_inner e t st r a = Ret (st', r', resp) ->
  exists wrapped, process_apdu e t st r (host_wrap (host_of s) a)
      = Ret (set_scp03 t (Active (exchanged s a resp)), st', r', wrapped) /\
    host_open (host_sent (host_of s) a) a wrapped = Some resp.
Proof.
  intros Et Hs Ha Hst Erun. pose proof (unwrap_wrapped s a Hs Ha) as Eu.
  pose proof (sent_ok s a Hs Ha) as Hs1. pose proof Ha as (Hc & H4 & Hi & Hp1 & Hp2 & Hd & _ & _).
  pose proof (run_inner_moved e t st r a Hst Hd) as Hm. rewrite Erun in Hm. destruct Hm as [_ Hr].
  destruct (open_wrapped (sent s a) a resp Hs1 Hr eq_refl) as (wrapped & Ew & _ & Eo).
  exists wrapped. split; [|done]. unfold process_apdu.
  assert (Eraw : exists Y, host_wrap (host_of s) a = Z.lor (cla a) 4 :: ins a :: p1 a :: p2 a :: Y).
  { unfold host_wrap, command_header. cbn [app]. by eexists. }
  destruct Eraw as [Y EY]. pose proof (len_nonneg Y).
  assert (Hl4 : (4 <=? len (host_wrap (host_of s) a)) = true) by (apply Z.leb_le; rewrite EY, !len_cons; lia).
  assert (E0 : idx (host_wrap (host_of s) a) 0 = Ret (Z.lor (cla a) 4)) by by rewrite EY.
  assert (E1 : idx (host_wrap (host_of s) a) 1 = Ret (ins a)) by by rewrite EY.
  destruct (secure_class _ Hc H4) as (_ & Hb & Hz & H8).
  rewrite Hl4, E0, E1. cbn [rbind]. rewrite Hz, H8, Hb. cbn [andb rbind negb]. rewrite Et.
  cbn [is_active negb]. rewrite andb_false_r. cbv iota.
  unfold secure_command. rewrite Et, Eu. cbn [rbind]. fold (run_inner e t st r a). rewrite Erun. cbn [rbind].
  rewrite Ew. done.
Qed.

(** The commands one after the other, in the plain, and through the channel: the host
    wraps each, opens each answer, and goes on with the session behind it. *)
Fixpoint run_plain e t (st : ObjectStore) r (cs : list ParsedApdu) : res (ObjectStore * rng * list ApduResponse) :=
  match cs with
  | [] => Ret (st, r, [])
  | a :: cs =>
      let! '(st, r, resp) := run_inner e t st r a in
      let! '(st, r, resps) := run_plain e t st r cs in
      Ret (st, r, resp :: resps)
  end.

Fixpoint host_talk e t (st : ObjectStore) r (h : HostSession) (cs : list ParsedApdu)
  : res (T1Responder * ObjectStore * rng * option (list ApduResponse * HostSession)) :=
  match cs with
  | [] => Ret (t, st, r, Some ([], h))
  | a :: cs =>
      let! '(t, st, r, wrapped) := process_apdu e t st r (host_wrap h a) in
      match host_open (host_sent h a) a wrapped with
      | None => Ret (t, st, r, None)
      | Some resp =>
          let! '(t, st, r, rest) := host_talk e t st r (host_after (host_sent h a) a resp) cs in
          Ret (t, st, r, (fun '(l, h) => (resp :: l, h)) <$> rest)
      end
  end.

Lemma exchanged_ok s a resp : sess_ok s -> command_ok a -> sess_ok (exchanged s a resp).
Proof. intros Hs Ha. by apply advance_ok, sent_ok. Qed.

Lemma run_plain_scp e t sc cs : forall st r, run_plain e (set_scp03 t sc) st r cs = run_plain e t st r cs.
Proof.
  induction cs as [|a cs IH]; intros st r; [done|]. cbn [run_plain].
  change (run_inner e (set_scp03 t sc) st r a) with (run_inner e t st r a).
  destruct (run_inner e t st r a) as [[[st1 r1] resp]|]; [|done]. cbn [rbind]. by rewrite IH.
Qed.

(** C9: Any sequence of commands sent through an authenticated channel, at any security
    level and with either counter rule, by a host that computes MACs, initial values,
    padding, encryption and its counter by itself: the host opens exactly the responses
    of running the commands in the plain, the store and the generator end where that run
    leaves them, the channel stays open, and host and card end in step. *)
Theorem scp03_tunnel_refines e t s st r cs st' r' resps :
  scp03 t = Active s -> sess_ok s -> Forall command_ok cs -> store_ok st ->
  run_plain e t st r cs = Ret (st', r', resps) ->
  exists s', sess_ok s' /\
    host_talk e t st r (host_of s) cs = Ret (set_scp03 t (Active s'), st', r', Some (resps, host_of s')).
Proof.
  intros Et Hs Hcs. revert t s st r resps Et Hs. induction Hcs as [|a cs Ha _ IH]; intros t s st r resps Et Hs Hst Erun.
  - injection Erun as <- <- <-. exists s. split; [done|]. cbn [host_talk]. rewrite <- Et. by destruct t.
  - cbn [run_plain host_talk] in *. destruct (run_inner e t st r a) as [[[st1 r1] resp]|] eqn:Ei; [|done].
    cbn [rbind] in Erun. destruct (run_plain e t st1 r1 cs) as [[[st2 r2] rest]|] eqn:Er; [|done].
    cbn [rbind] in Erun. injection Erun as <- <- <-.
    destruct (secure_exchange e t s st r a st1 r1 resp Et Hs Ha Hst Ei) as (wrapped & Ep & Eo).
    rewrite Ep. cbn [rbind]. rewrite Eo. rewrite <- (host_of_advance s a resp).
    change (advance_counter (sent s a) (sw resp)) with (exchanged s a resp).
    assert (Hst1 : store_ok st1).
    { pose proof (run_inner_moved e t st r a Hst) as Hm. rewrite Ei in Hm. apply Hm. apply Ha. }
    destruct (IH (set_scp03 t (Active (exchanged s a resp))) (exchanged s a resp) st1 r1 rest) as (s' & Hs' & Eh).
    + done.
    + by apply exchanged_ok.
    + done.
    + by rewrite run_plain_scp.
    + exists s'. split; [done|]. by rewrite Eh.
Qed.

(** ** The handshake *)

Definition host_init (p1 : Z) (hc : bytes) : bytes := [0x80; 0x50; p1; 0; 8] ++ hc.

(** The session keys a host derives: the encryption key from the static encryption key
    with the constant 4, the two MAC keys from the static MAC key with 6 and 7. *)
Definition host_keys (cfg : Scp03Config) (hc cc : bytes) : bytes * bytes * bytes :=
  (derived (cfg_enc cfg) 0x04 (8 * len (cfg_enc cfg)) (hc ++ cc),
   derived (cfg_mac cfg) 0x06 (8 * len (cfg_mac cfg)) (hc ++ cc),
   derived (cfg_mac cfg) 0x07 (8 * len (cfg_mac cfg)) (hc ++ cc)).

(** The cryptograms: 64 bits with the constants 0 and 1. *)
Definition card_cryptogram (k_mac hc cc : bytes) : bytes := derived k_mac 0x00 64 (hc ++ cc).
Definition host_cryptogram (k_mac hc cc : bytes) : bytes := derived k_mac 0x01 64 (hc ++ cc).

Lemma cryptogram_value key hc cc dc : aes_key_len (len key) -> len hc = 8 -> len cc = 8 ->
  crypto.cryptogram key hc cc dc = Ret (Some (derived key dc 64 (hc ++ cc))) /\ len (derived key dc 64 (hc ++ cc)) = 8.
Proof.
  intros Hk Hh Hc. destruct (cryptogram_some key hc cc dc Hk Hh Hc) as (k & E & Hl & _).
  revert E. unfold crypto.cryptogram. rewrite challenges_ret by done. cbn [rbind].
  rewrite kdf_value by (done || by left).
  assert (Hd : len (derived key dc 64 (hc ++ cc)) = 8).
  { destruct (kdf_some key dc (hc ++ cc) 64 Hk) as (d & Ed & Hld & _); [lia|].
    rewrite kdf_value in Ed by (done || by left). by injection Ed as ->. }
  rewrite slice_ret by lia. cbn [rbind]. rewrite sub_full by lia. rewrite copy_full by lia. done.
Qed.

(** The card derives the host's keys. *)
Lemma derive_value cfg hc cc : aes_key_len (len (cfg_enc cfg)) -> aes_key_len (len (cfg_mac cfg)) ->
  len hc = 8 -> len cc = 8 ->
  crypto.derive_session_keys (cfg_enc cfg) (cfg_mac cfg) hc cc = Ret (Some (host_keys cfg hc cc)).
Proof.
  intros He Hm Hh Hc. unfold crypto.derive_session_keys, host_keys. rewrite challenges_ret by done. cbn [rbind].
  assert (Hb : forall k : bytes, aes_key_len (len k) -> as_u16 (len k * 8) = 8 * len k /\ In (8 * len k) [64; 128; 192; 256]).
  { intros k [->|[->| ->]]; (split; [reflexivity|vm_compute; tauto]). }
  destruct (Hb _ He) as [-> ?], (Hb _ Hm) as [-> ?]. by rewrite !kdf_value by done.
Qed.

Definition auth_header (level : Z) (k_mac hc cc : bytes) : bytes :=
  [0x84; 0x82; level; 0; 0x10] ++ host_cryptogram k_mac hc cc.
Definition auth_mac (level : Z) (k_mac hc cc : bytes) : bytes :=
  chain_mac k_mac (vec_repeat 0 16) (auth_header level k_mac hc cc).
Definition host_auth (level : Z) (k_mac hc cc : bytes) : bytes :=
  auth_header level k_mac hc cc ++ sub (auth_mac level k_mac hc cc) 0 8.

(** The card side, opened: what [external_authenticate] accepts. *)
Lemma authenticate_inv p raw s resp : pending_ok p ->
  external_authenticate (PendingState p) raw = Ret (Active s, resp) ->
  sub raw 5 13 = host_cryptogram (p_s_mac p) (p_host_challenge p) (p_card_challenge p) /\
  sub raw 13 21 = sub (chain_mac (p_s_mac p) (vec_repeat 0 16) (sub raw 0 13)) 0 8.
Proof.
  intros (Hh & Hc & _ & [_ Km] & _). unfold external_authenticate.
  destruct (Z.ltb_spec (len raw) 21) as [Hl|Hl]; [done|].
  destruct (idx raw 4) as [b|]; [|done]. cbn [rbind]. destruct (negb (b =? 16)); [done|].
  destruct (idx raw 2) as [level|]; [|done]. cbn [rbind]. destruct (negb _); [done|].
  rewrite !slice_ret by lia. cbn [rbind]. unfold host_cryptogram.
  destruct (cryptogram_value (p_s_mac p) (p_host_challenge p) (p_card_challenge p) crypto.DDC_HOST_CRYPTOGRAM Km Hh Hc)
    as (-> & _). change crypto.DDC_HOST_CRYPTOGRAM with 1. set (k := derived _ _ _ _). cbn [rbind].
  destruct (chain_mac_ok (p_s_mac p) (vec_repeat 0 16) (sub raw 0 13) Km) as (-> & Hb & _). cbn [rbind].
  unfold block in Hb. rewrite slice_ret by lia. cbn [rbind].
  destruct (bool_decide_reflect (k = sub raw 5 13)) as [->|]; [|done].
  destruct (bool_decide_reflect (sub (chain_mac (p_s_mac p) (vec_repeat 0 16) (sub raw 0 13)) 0 8 = sub raw 13 21))
    as [->|]; [|done]. done.
Qed.

Lemma parse_init p1 hc : len hc = 8 -> apdu_parse (host_init p1 hc) = Ret (Ok (mkApdu 0x80 0x50 p1 0 hc None)).
Proof.
  intros Hl. unfold len in Hl. do 8 (destruct hc as [|? hc]; [done|]). destruct hc; [reflexivity|]. simpl in Hl. lia.
Qed.

Definition init_data (p1 : Z) (cfg : Scp03Config) (cc card : bytes) : bytes :=
  KEY_DIVERSIFICATION_DATA ++ [if p1 =? 0x00 then kvn cfg else p1] ++ [0x03] ++ [I_PARAM] ++ cc ++ card.

Lemma init_data_parts p1 cfg cc card : len cc = 8 -> len card = 8 ->
  sub (init_data p1 cfg cc card) 13 21 = cc /\ sub (init_data p1 cfg cc card) 21 29 = card.
Proof.
  intros Hc Hd. set (pre := KEY_DIVERSIFICATION_DATA ++ [if p1 =? 0x00 then kvn cfg else p1] ++ [0x03] ++ [I_PARAM]).
  assert (E : init_data p1 cfg cc card = pre ++ cc ++ card) by done. assert (Hpre : len pre = 13) by done.
  rewrite E. split; [apply sub_middle; lia|]. rewrite app_assoc. apply sub_suffix; rewrite ?len_app; lia.
Qed.

(** The card's answer to a challenge. *)
Lemma init_answers e t st r p1 hc cc r1 keys card :
  let version := applet_from_env e in
  let cfg := platform_scp_config st e version in
  let legacy := match version with V3_1_1 => true | _ => false end in
  let '(k_enc, k_mac, k_rmac) := keys in
  len hc = 8 -> p1 = 0 \/ p1 = kvn cfg \/ legacy = false -> fill_bytes 8 r = (cc, r1) ->
  crypto.derive_session_keys (cfg_enc cfg) (cfg_mac cfg) hc cc = Ret (Some keys) ->
  crypto.cryptogram k_mac hc cc crypto.DDC_CARD_CRYPTOGRAM = Ret (Some card) ->
  process_apdu e t st r (host_init p1 hc) =
    Ret (set_scp03 t (PendingState (mkPending hc cc k_enc k_mac k_rmac legacy)), st, r1,
         success_with_data (init_data p1 cfg cc card)).
Proof.
  intros version cfg legacy. destruct keys as [[k_enc k_mac] k_rmac]. intros Hhc Hp1 Ef Ed Ecard.
  assert (Hinit : initialize_update_with_config p1 hc version cfg r
    = Ret (PendingState (mkPending hc cc k_enc k_mac k_rmac legacy), r1, success_with_data (init_data p1 cfg cc card))).
  { unfold initialize_update_with_config. rewrite Hhc. cbn [Z.eqb Pos.eqb negb]. rewrite copy_full by lia.
    cbn [rbind]. rewrite Ef, Ed. cbn [rbind]. rewrite Ecard. cbn [rbind]. fold legacy.
    assert (Hk : legacy && negb (p1 =? 0) && negb (p1 =? kvn cfg) = false).
    { destruct Hp1 as [->|[->| ->]]; [by rewrite andb_false_r| |done]. by rewrite Z.eqb_refl, andb_false_r. }
    by rewrite Hk. }
  unfold process_apdu. rewrite parse_init by done.
  assert (Hl : len (host_init p1 hc) = 13) by (unfold host_init; rewrite len_app, Hhc; done).
  rewrite Hl. change (idx (host_init p1 hc) 0) with (Ret 0x80). change (idx (host_init p1 hc) 1) with (Ret 0x50).
  cbn [Z.leb Z.compare Pos.compare Pos.compare_cont rbind Z.eqb Pos.eqb andb Se050Types.p1 Se050Types.data].
  fold version. cbv zeta. fold cfg. by rewrite Hinit.
Qed.

(** The bytes of the host's answer. *)
Lemma host_auth_shape level key hc cc : aes_key_len (len key) -> len hc = 8 -> len cc = 8 ->
  let h := auth_header level key hc cc in
  let m := sub (auth_mac level key hc cc) 0 8 in
  let raw := host_auth level key hc cc in
  crypto.cryptogram key hc cc crypto.DDC_HOST_CRYPTOGRAM = Ret (Some (host_cryptogram key hc cc)) /\
  len raw = 21 /\ sub raw 0 13 = h /\ sub raw 5 13 = host_cryptogram key hc cc /\
  sub raw 13 21 = m /\ forall k, 0 <= k < 5 -> idx raw k = idx [0x84; 0x82; level; 0; 0x10] k.
Proof.
  intros Hk Hh Hc h m raw.
  destruct (cryptogram_value key hc cc crypto.DDC_HOST_CRYPTOGRAM Hk Hh Hc) as (Ehcg & Hhcg).
  change (derived key crypto.DDC_HOST_CRYPTOGRAM 64 (hc ++ cc)) with (host_cryptogram key hc cc) in Ehcg, Hhcg.
  set (hcg := host_cryptogram key hc cc) in *.
  assert (Eh : h = [0x84; 0x82; level; 0; 0x10] ++ hcg) by done.
  assert (Hhl : len h = 13) by (rewrite Eh, len_app, Hhcg; done).
  destruct (chain_mac_ok key (vec_repeat 0 16) h Hk) as (_ & Hb & _).
  assert (Hm8 : len m = 8).
  { unfold m, auth_mac. fold h. unfold block in Hb. rewrite len_sub. lia. }
  assert (Eraw : raw = h ++ m) by done. split; [done|].
  split; [rewrite Eraw, len_app; lia|]. split; [rewrite Eraw, <- Hhl; apply sub_prefix|].
  split; [rewrite Eraw, sub_app_l by lia; rewrite Eh; apply sub_suffix; [done|lia]|].
  split; [rewrite Eraw; apply sub_suffix; lia|].
  intros k Hi. rewrite Eraw, Eh, <- app_assoc. by rewrite idx_app_l by (rewrite !len_cons, len_nil; lia).
Qed.

(** The card accepts it. *)
Lemma auth_accepted p level : pending_ok p -> In level SUPPORTED_LEVELS ->
  external_authenticate (PendingState p) (host_auth level (p_s_mac p) (p_host_challenge p) (p_card_challenge p)) =
    Ret (Active (mkSession (p_s_enc p) (p_s_mac p) (p_s_rmac p) level
      (auth_mac level (p_s_mac p) (p_host_challenge p) (p_card_challenge p)) 1 0 (p_legacy p)), success).
Proof.
  intros (Hh & Hc & _ & [_ Km] & _) Hlv.
  destruct (host_auth_shape level _ _ _ Km Hh Hc) as (Ehcg & Hrl & E13 & E5 & E21 & Hi).
  destruct (chain_mac_ok (p_s_mac p) (vec_repeat 0 16) (auth_header level (p_s_mac p) (p_host_challenge p) (p_card_challenge p)) Km)
    as (Emac & Hb & _).
  change (chain_mac _ _ (auth_header level _ _ _)) with (auth_mac level (p_s_mac p) (p_host_challenge p) (p_card_challenge p)) in Emac, Hb.
  unfold block in Hb. unfold external_authenticate. rewrite Hrl, !Hi by lia.
  change (idx [0x84; 0x82; level; 0; 0x10] 4) with (Ret 0x10).
  change (idx [0x84; 0x82; level; 0; 0x10] 2) with (Ret level).
  cbn [Z.ltb Z.compare Pos.compare Pos.compare_cont rbind Z.eqb Pos.eqb negb].
  rewrite (proj2 (existsb_exists (Z.eqb level) SUPPORTED_LEVELS)) by (exists level; by rewrite Z.eqb_refl).
  cbn [negb]. rewrite !slice_ret by lia. cbn [rbind]. rewrite E13, E5, E21, Ehcg. cbn [rbind]. rewrite Emac. cbn [rbind].
  rewrite slice_ret by lia. cbn [rbind]. by rewrite !bool_decide_true by done.
Qed.

(** C10: A host that holds the platform keys and any challenge, and that derives keys and
    cryptograms by SP 800-108 with the constants of the standard: the card's answer
    carries the card challenge and the cryptogram the host expects; the host's answer to
    it, at any supported level, is accepted and leaves the card with exactly the host's
    session.  Nothing else is accepted: whatever bytes open the channel carry the
    host cryptogram of these keys and challenges, and their MAC under them. *)
Theorem scp03_handshake e t st r p1 hc level :
  let version := applet_from_env e in
  let cfg := platform_scp_config st e version in
  let legacy := match version with V3_1_1 => true | _ => false end in
  store_ok st -> len hc = 8 -> In level [0x01; 0x03; 0x11; 0x33] ->
  p1 = 0 \/ p1 = kvn cfg \/ legacy = false ->
  exists t1 r1 answer cc,
    process_apdu e t st r (host_init p1 hc) = Ret (t1, st, r1, success_with_data answer) /\
    sub answer 13 21 = cc /\ len cc = 8 /\
    let '(k_enc, k_mac, k_rmac) := host_keys cfg hc cc in
    sub answer 21 29 = card_cryptogram k_mac hc cc /\
    process_apdu e t1 st r1 (host_auth level k_mac hc cc) =
      Ret (set_scp03 t1 (Active (mkSession k_enc k_mac k_rmac level (auth_mac level k_mac hc cc) 1 0 legacy)),
           st, r1, success) /\
    (forall raw s resp, external_authenticate (scp03 t1) raw = Ret (Active s, resp) ->
       sub raw 5 13 = host_cryptogram k_mac hc cc /\
       sub raw 13 21 = sub (chain_mac k_mac (vec_repeat 0 16) (sub raw 0 13)) 0 8).
Proof.
  intros version cfg legacy Hst Hhc Hlv Hp1.
  pose proof (platform_config_ok st e version Hst) as Hcfg. fold cfg in Hcfg.
  destruct Hcfg as (_ & _ & _ & _ & Le & Lm & _).
  pose proof (fill_bytes_len 8 r ltac:(lia)) as Hcl. destruct (fill_bytes 8 r) as [cc r1] eqn:Ef. cbn [fst] in Hcl.
  pose proof (derive_value cfg hc cc Le Lm Hhc Hcl) as Ed.
  pose proof (derive_some (cfg_enc cfg) (cfg_mac cfg) hc cc Le Lm Hhc Hcl) as Hder. rewrite Ed in Hder.
  destruct (host_keys cfg hc cc) as [[k_enc k_mac] k_rmac] eqn:Ek.
  destruct Hder as (? & ? & ? & Eh & Ke & Km & Kr). injection Eh as <- <- <-.
  destruct (cryptogram_value k_mac hc cc crypto.DDC_CARD_CRYPTOGRAM (proj2 Km) Hhc Hcl) as (Ecard & Hcard).
  change (derived k_mac crypto.DDC_CARD_CRYPTOGRAM 64 (hc ++ cc)) with (card_cryptogram k_mac hc cc) in Ecard, Hcard.
  destruct (init_data_parts p1 cfg cc _ Hcl Hcard) as [Ecc Ecd].
  set (p := mkPending hc cc k_enc k_mac k_rmac legacy). assert (Hp : pending_ok p) by done.
  exists (set_scp03 t (PendingState p)), r1, (init_data p1 cfg cc (card_cryptogram k_mac hc cc)), cc.
  split; [by apply (init_answers e t st r p1 hc cc r1 (k_enc, k_mac, k_rmac))|].
  split; [done|]. split; [done|]. rewrite Ek. split; [done|split].
  - destruct (host_auth_shape level k_mac hc cc (proj2 Km) Hhc Hcl) as (_ & Hrl & _ & _ & _ & Hi).
    unfold process_apdu. rewrite Hrl, !Hi by lia.
    change (idx [0x84; 0x82; level; 0; 0x10] 0) with (Ret 0x84).
    change (idx [0x84; 0x82; level; 0; 0x10] 1) with (Ret 0x82).
    cbn [Z.leb Z.compare Pos.compare Pos.compare_cont rbind Z.eqb Pos.eqb andb set_scp03 scp03 is_active negb].
    pose proof (auth_accepted p level Hp Hlv) as Ha. cbn [p p_s_mac p_host_challenge p_card_challenge p_s_enc p_s_rmac p_legacy] in Ha.
    by rewrite Ha.
  - intros raw s resp E. by apply (authenticate_inv p raw s resp).
Qed.
End channel.
