(* ===== verification/Se050Cipher.v ===== *)
(** * SE050Sim: what the symmetric commands compute

    A cipher context fed in pieces computes the one-shot command, decryption undoes
    encryption, and streamed digests and MACs are those of the joined data. *)

From S2P Require Import Prelude.
From S2P Require Import Host.
From S2P Require Import Crates.
From S2P Require Import Se050Crates.
From S2P Require Import Se050Types.
From S2P Require Import Se050StoreFacts.
From S2P Require Import Se050Store.
From S2P Require Import Se050Handlers.
From S2P Require Import Se050HandlersFacts.
From S2P Require Import Se050Aes.
From S2P Require Import Se050CryptoFacts.
From S2P Require Import Se050EcFacts.
From S2P Require Import Se050Dispatch.
From S2P Require Import Se050ChannelFacts.
From S2P Require Import Se050Secure.

(** ** The modes over pieces *)

Lemma chunks_app {A} n (a b : list A) : 0 < n -> len a mod n = 0 -> chunks n (a ++ b) = chunks n a ++ chunks n b.
Proof.
  intros Hn Ha. pose proof (chunks_exact n a Hn Ha) as Hx.
  rewrite <- (concat_chunks n a Hn) at 1. induction Hx as [|c cs Hc _ IH]; [done|].
  cbn [concat app]. rewrite <- app_assoc, chunks_cons by done. by rewrite IH.
Qed.

Lemma chunks_short {A} n (l : list A) : 0 < len l <= n -> chunks n l = [l].
Proof.
  intros Hl. rewrite <- (app_nil_r l) at 1. destruct (decide (len l = n)) as [E|E].
  - rewrite chunks_cons; [done|lia|done].
  - rewrite app_nil_r. unfold chunks. destruct l as [|x l]; [by destruct Hl|]. simpl.
    rewrite sub_full by lia. rewrite drop_ge by (unfold len in *; simpl in *; lia). by destruct (length l).
Qed.

Section modes.
Context `{A : AesCrate} {AO : AesCrateOk}.

Lemma ecb_app ci cs ds e : Forall block cs ->
  aes.ecb_chunks ci (cs ++ ds) e =
    (let! a := aes.ecb_chunks ci cs e in let! b := aes.ecb_chunks ci ds e in Ret (a ++ b)).
Proof.
  induction 1 as [|c cs Hc _ IH]; cbn [app aes.ecb_chunks rbind].
  - by destruct (aes.ecb_chunks ci ds e).
  - rewrite copy_block by done. cbn [rbind]. rewrite IH.
    destruct (aes.ecb_chunks ci cs e); [|done]. cbn [rbind].
    destruct (aes.ecb_chunks ci ds e); [|done]. cbn [rbind]. by rewrite app_assoc.
Qed.

Lemma cbc_app ci cs ds e : Forall block cs -> forall ch,
  aes.cbc_chunks ci ch (cs ++ ds) e =
    (let! '(ch1, a) := aes.cbc_chunks ci ch cs e in
     let! '(ch2, b) := aes.cbc_chunks ci ch1 ds e in Ret (ch2, a ++ b)).
Proof.
  induction 1 as [|c cs Hc _ IH]; intros ch; cbn [app aes.cbc_chunks rbind].
  - by destruct (aes.cbc_chunks ci ch ds e) as [[? ?]|].
  - rewrite copy_block by done. cbn [rbind]. destruct e; rewrite IH.
    all: match goal with |- rbind (rbind (aes.cbc_chunks ?c ?x ?l ?m) _) _ = _ =>
      destruct (aes.cbc_chunks c x l m) as [[ch1 a]|]; [|done] end; cbn [rbind].
    all: match goal with |- rbind (rbind (aes.cbc_chunks ?c ?x ?l ?m) _) _ = _ =>
      destruct (aes.cbc_chunks c x l m) as [[ch2 b]|]; [|done] end; cbn [rbind].
    all: by rewrite app_assoc.
Qed.

Lemma ctr_app ci cs ds : forall ctr,
  aes.ctr_chunks ci ctr (cs ++ ds) =
    (let '(c1, a) := aes.ctr_chunks ci ctr cs in
     let '(c2, b) := aes.ctr_chunks ci c1 ds in (c2, a ++ b)).
Proof.
  induction cs as [|c cs IH]; intros ctr; cbn [app aes.ctr_chunks].
  - by destruct (aes.ctr_chunks ci ctr ds).
  - rewrite IH. destruct (aes.ctr_chunks ci (aes.increment ctr) cs) as [c1 a].
    destruct (aes.ctr_chunks ci c1 ds) as [c2 b]. by rewrite app_assoc.
Qed.

Definition known_mode (m : Z) : Prop :=
  m = aes.CIPHER_MODE_ECB_NOPAD \/ m = aes.CIPHER_MODE_CBC_NOPAD \/ m = aes.CIPHER_MODE_CTR.

(** An aligned piece first, then the rest: the output of the whole. *)
Lemma apply_mode_app m key ch a b e : known_mode m -> aes_key_len (len key) -> block ch -> wf ch -> wf a -> wf b ->
  len a mod 16 = 0 ->
  exists ch1 o1, aes.apply_mode m key ch a e false = Ret (ch1, Ok o1) /\ block ch1 /\ wf ch1 /\ wf o1 /\
    forall fin, exists ch2 r2 ch2', aes.apply_mode m key ch1 b e fin = Ret (ch2, r2) /\
      aes.apply_mode m key ch (a ++ b) e fin =
        Ret (ch2', match r2 with Ok o2 => Ok (o1 ++ o2) | Err s => Err s end) /\
      (match r2 with Ok _ => ch2' = ch2 | Err _ => True end).
Proof.
  intros Hm Hk Hc Hwc Ha Hb Hal. unfold aes.apply_mode. destruct (any_aes_some _ Hk) as [ci ->].
  pose proof (chunks_exact 16 a ltac:(lia) Hal) as Hxa. pose proof (wf_chunks 16 a ltac:(lia) Ha) as Hwa.
  pose proof (wf_chunks 16 b ltac:(lia) Hb) as Hwb.
  assert (Hab : len (a ++ b) mod 16 = len b mod 16).
  { rewrite len_app, Zplus_mod, Hal. by rewrite Z.add_0_l, Z.mod_mod. }
  assert (Hxb : len b mod 16 = 0 -> Forall block (chunks 16 b)) by (intros; by apply chunks_exact).
  rewrite Hab, Hal. destruct Hm as [->|[->| ->]]; cbn -[Z.modulo len aes.ecb_process aes.cbc_process aes.ctr_process].
  - pose proof (ecb_ok ci _ e Hxa Hwa) as Ho. unfold aes.ecb_process.
    destruct (aes.ecb_chunks ci (chunks 16 a) e) as [o1|] eqn:E1; [|done]. exists ch, o1.
    split_and!; try done. intros fin. destruct (Z.eqb_spec (len b mod 16) 0) as [E0|]; cbn [negb].
    2:{ by eexists _, (Err _), _. }
    pose proof (ecb_ok ci _ e (Hxb E0) Hwb) as Ho2. destruct (aes.ecb_chunks ci (chunks 16 b) e) as [o2|] eqn:E2; [|done].
    exists ch, (Ok o2), ch. rewrite chunks_app, ecb_app, E1 by (done || lia). cbn [rbind]. rewrite E2. done.
  - pose proof (cbc_ok ci _ e ch Hxa Hwa Hc Hwc) as Ho. unfold aes.cbc_process.
    destruct (aes.cbc_chunks ci ch (chunks 16 a) e) as [[ch1 o1]|] eqn:E1; [|done]. destruct Ho as (Hb1 & Hw1 & Ho).
    exists ch1, o1. split_and!; try done. intros fin. destruct (Z.eqb_spec (len b mod 16) 0) as [E0|]; cbn [negb].
    2:{ by eexists _, (Err _), _. }
    pose proof (cbc_ok ci _ e ch1 (Hxb E0) Hwb Hb1 Hw1) as Ho2.
    destruct (aes.cbc_chunks ci ch1 (chunks 16 b) e) as [[ch2 o2]|] eqn:E2; [|done].
    exists ch2, (Ok o2), ch2. rewrite chunks_app, cbc_app, E1 by (done || lia). cbn [rbind]. rewrite E2. done.
  - pose proof (ctr_ok ci _ ch Hwa Hc Hwc) as Ho. unfold aes.ctr_process.
    destruct (aes.ctr_chunks ci ch (chunks 16 a)) as [ch1 o1] eqn:E1. destruct Ho as (Hb1 & Hw1 & Ho).
    exists ch1, o1. split_and!; try done. intros fin.
    destruct (negb fin && negb (len b mod 16 =? 0)); [by eexists _, (Err _), _|].
    destruct (aes.ctr_chunks ci ch1 (chunks 16 b)) as [ch2 o2] eqn:E2.
    exists ch2, (Ok o2), ch2. rewrite chunks_app, ctr_app, E1, E2 by (done || lia). done.
Qed.

(** ** Decryption undoes encryption *)

Lemma ecb_inverse ci cs : Forall block cs -> Forall wf cs ->
  exists out, aes.ecb_chunks ci cs true = Ret out /\ len out = len (concat cs) /\
    aes.ecb_process ci out false = Ret (concat cs).
Proof.
  induction 1 as [|b cs Hb _ IH]; intros Hw; [by exists []|].
  apply Forall_cons in Hw as [Hwb Hw]. cbn [aes.ecb_chunks]. rewrite copy_block by done. cbn [rbind].
  destruct (encrypt_block_ok ci b Hb Hwb) as [He1 He2]. destruct (IH Hw) as (out & E & Hl & Ed).
  rewrite E. cbn [rbind]. eexists. split; [done|]. split.
  - cbn [concat]. rewrite !len_app, Hl. unfold block in *. lia.
  - unfold aes.ecb_process in *. rewrite chunks_cons by (done || lia). cbn [aes.ecb_chunks].
    rewrite copy_block by done. cbn [rbind]. rewrite Ed. cbn [rbind concat]. by rewrite decrypt_encrypt_block.
Qed.

Lemma xor_xor_le (a b : bytes) : len a <= len b -> xor_bytes (xor_bytes a b) b = a /\ len (xor_bytes a b) = len a.
Proof.
  revert b. induction a as [|x a IH]; intros [|y b] Hl; try done.
  rewrite !len_cons in Hl. destruct (IH b) as [E El]; [lia|].
  change (xor_bytes (x :: a) (y :: b)) with (Z.lxor x y :: xor_bytes a b).
  change (xor_bytes (Z.lxor x y :: xor_bytes a b) (y :: b)) with
    (Z.lxor (Z.lxor x y) y :: xor_bytes (xor_bytes a b) b).
  rewrite E, !len_cons, El. by rewrite Z.lxor_assoc, Z.lxor_nilpotent, Z.lxor_0_r.
Qed.


(** The keystream of counter mode is its own inverse, partial last block included. *)
Lemma ctr_inverse ci : forall n d ctr, (length d <= n)%nat -> block ctr -> wf ctr ->
  exists ctr' out, aes.ctr_chunks ci ctr (chunks 16 d) = (ctr', out) /\ len out = len d /\
    aes.ctr_chunks ci ctr (chunks 16 out) = (ctr', d).
Proof.
  induction n as [|n IH]; intros d ctr Hn Hb Hw.
  { destruct d; [|simpl in Hn; lia]. by exists ctr, []. }
  destruct (encrypt_block_ok ci ctr Hb Hw) as [Hk _]. unfold block in Hk.
  destruct (Z_le_gt_dec (len d) 16) as [Hs|Hs].
  - destruct d as [|x d]; [by exists ctr, []|]. set (l := x :: d) in *.
    assert (Hl : 0 < len l <= 16) by (unfold l in *; rewrite len_cons in *; pose proof (len_nonneg d); lia).
    rewrite chunks_short by done. cbn [aes.ctr_chunks]. rewrite app_nil_r.
    destruct (xor_xor_le l (aes.encrypt_block ci ctr)) as [Ex El]; [lia|].
    eexists _, _. split; [done|]. split; [done|].
    rewrite chunks_short by lia. cbn [aes.ctr_chunks]. by rewrite Ex, app_nil_r.
  - pose proof (sub_split d 16 ltac:(lia)) as Ed. set (c := sub d 0 16) in *. set (rest := sub d 16 (len d)) in *.
    assert (Hc : len c = 16) by (unfold c; rewrite len_sub; lia).
    assert (Hr : (length rest <= n)%nat).
    { apply (f_equal length) in Ed. rewrite length_app in Ed. unfold len in Hc. lia. }
    destruct (increment_ok ctr Hb Hw) as [Hi1 Hi2]. destruct (IH rest _ Hr Hi1 Hi2) as (ctr' & out & E & Hl & Einv).
    rewrite Ed, chunks_cons by (done || lia). cbn [aes.ctr_chunks]. rewrite E.
    destruct (xor_xor_le c (aes.encrypt_block ci ctr)) as [Ex El]; [lia|].
    eexists _, _. split; [done|]. split; [rewrite !len_app, El, Hl; done|].
    rewrite chunks_cons by lia. cbn [aes.ctr_chunks]. by rewrite Einv, Ex.
Qed.

Lemma apply_mode_inverse m key ch d : known_mode m -> aes_key_len (len key) -> block ch -> wf ch -> wf d ->
  (m = aes.CIPHER_MODE_CTR \/ len d mod 16 = 0) ->
  exists ch1 ch2 out, aes.apply_mode m key ch d true true = Ret (ch1, Ok out) /\ len out = len d /\
    aes.apply_mode m key ch out false true = Ret (ch2, Ok d).
Proof.
  intros Hm Hk Hc Hwc Hd Hal. unfold aes.apply_mode. destruct (any_aes_some _ Hk) as [ci ->].
  pose proof (wf_chunks 16 d ltac:(lia) Hd) as Hwd.
  destruct Hm as [->|[->| ->]]; cbn -[Z.modulo len aes.ecb_process aes.cbc_process aes.ctr_process].
  - destruct Hal as [Hx|Hal]; [done|]. rewrite Hal. cbn [Z.eqb negb].
    destruct (ecb_inverse ci _ (chunks_exact 16 d ltac:(lia) Hal) Hwd) as (out & E & Hl & Ed).
    rewrite concat_chunks in Hl, Ed by lia. unfold aes.ecb_process at 1. rewrite E. cbn [rbind].
    eexists _, _, out. split; [done|]. split; [done|]. by rewrite Hl, Hal, Ed.
  - destruct Hal as [Hx|Hal]; [done|]. rewrite Hal. cbn [Z.eqb negb].
    destruct (cbc_inverse ci _ ch (chunks_exact 16 d ltac:(lia) Hal) Hwd Hc Hwc) as (ch' & out & E & Hl & Ed).
    rewrite concat_chunks in Hl, Ed by lia. unfold aes.cbc_process at 1. rewrite E. cbn [rbind].
    eexists _, _, out. split; [done|]. split; [done|]. by rewrite Hl, Hal, Ed.
  - destruct (ctr_inverse ci (length d) d ch ltac:(lia) Hc Hwc) as (ch' & out & E & Hl & Ed).
    unfold aes.ctr_process. rewrite E. eexists _, _, out. split; [done|]. split; [done|]. by rewrite Ed.
Qed.
End modes.

(** ** Commands *)

(** A host's command: TLVs in the data field. *)
Definition cmd (ins p1 p2 : Z) (ts : list Tlv) : ParsedApdu := mkApdu 0x80 ins p1 p2 (encode_tlvs ts) None.

Lemma parse_cmd i x y ts : Forall tlv_ok ts -> apdu_parse_tlvs (cmd i x y ts) = Ret (Ok ts).
Proof. apply apdu_parse_encoded. Qed.

Lemma tlv_mk g v : u8 g -> wf v -> len v < 65536 -> tlv_ok (mkTlv g v).
Proof. done. Qed.

(** The TLVs of a command are well formed. *)
Ltac tlvs_ok :=
  repeat (apply List.Forall_cons; [apply tlv_mk; [vm_compute; split; congruence|try done; auto with wfdb|try done]|]);
  try apply List.Forall_nil.

Lemma be16_bytes x : u16 x -> be16 (be_bytes 2 x) = Some x.
Proof.
  intros Hx. unfold be_bytes. cbn. f_equal. rewrite lor_be16 by (unfold u8, u16 in *; dlia).
  unfold u16 in *. dlia.
Qed.

Section commands.
Context `{C : Se050Crates} {CO : Se050CratesOk C} {S : Serde} {F : FileSystem Value} {I : HashIter}
  {IO : HashIterOk}.

(** Commands one after the other. *)
Fixpoint dispatch_all e act (st : ObjectStore) r (cs : list ParsedApdu)
  : res (ObjectStore * rng * list ApduResponse) :=
  match cs with
  | [] => Ret (st, r, [])
  | c :: cs =>
      let! '(st, r, resp) := dispatch e c st r act in
      let! '(st, r, resps) := dispatch_all e act st r cs in
      Ret (st, r, resp :: resps)
  end.

Definition cipher_init (e : bool) (kid : bytes) (cid : Z) (iv : bytes) : ParsedApdu :=
  cmd INS_CRYPTO P1_CIPHER (if e then P2_ENCRYPT_INIT else P2_DECRYPT_INIT)
    [mkTlv TAG_1 kid; mkTlv TAG_2 (be_bytes 2 cid); mkTlv TAG_4 iv].
Definition cipher_update (cid : Z) (x : bytes) : ParsedApdu :=
  cmd INS_CRYPTO P1_CIPHER P2_UPDATE [mkTlv TAG_2 (be_bytes 2 cid); mkTlv TAG_3 x].
Definition cipher_final (cid : Z) (x : bytes) : ParsedApdu :=
  cmd INS_CRYPTO P1_CIPHER P2_FINAL [mkTlv TAG_2 (be_bytes 2 cid); mkTlv TAG_3 x].
Definition cipher_oneshot (e : bool) (kid : bytes) (mode : Z) (iv x : bytes) : ParsedApdu :=
  cmd INS_CRYPTO P1_CIPHER (if e then P2_ENCRYPT_ONESHOT else P2_DECRYPT_ONESHOT)
    [mkTlv TAG_1 kid; mkTlv TAG_2 [mode]; mkTlv TAG_3 x; mkTlv TAG_4 iv].

Lemma cid_len cid : len (be_bytes 2 cid) < 65536.
Proof. by rewrite len_be_bytes. Qed.

(** The value of a [TAG_4] of sixteen bytes. *)
Lemma tlv_iv_16 ts iv : tlv_value ts TAG_4 = Some iv -> len iv = 16 -> aes.tlv_iv ts = Some iv.
Proof.
  intros E Hl. unfold aes.tlv_iv. rewrite E. destruct iv as [|x iv]; [done|]. by rewrite Hl.
Qed.

Record key_at (st : ObjectStore) (kid key : bytes) : Prop := {
  ka_id : id_ok kid;
  ka_get : get st kid = Some (AESKey key);
  ka_len : aes_key_len (len key);
}.

Lemma cipher_init_runs e kid cid iv st r env act mode key : key_at st kid key -> u16 cid -> block iv -> wf iv ->
  crypto_object_types st !! cid = Some (0x02, mode) ->
  dispatch env (cipher_init e kid cid iv) st r act =
    Ret (set_crypto_objects st (<[cid := Cipher e mode kid iv []]> (crypto_objects st)), r, success).
Proof.
  intros [[Hl Hw] Hg Hk] Hc Hb Hwi Ht. unfold block in Hb.
  assert (Hts : Forall tlv_ok [mkTlv TAG_1 kid; mkTlv TAG_2 (be_bytes 2 cid); mkTlv TAG_4 iv]).
  { tlvs_ok; rewrite ?Hl, ?Hb; done. }
  transitivity (with_store r (aes.handle_cipher_init (cipher_init e kid cid iv) st)); [by destruct e|].
  unfold aes.handle_cipher_init, cipher_init. rewrite parse_cmd by done. cbn [rbind].
  change (tlv_id _ TAG_1) with (if len kid =? 4 then Some kid else None). rewrite Hl. cbn [Z.eqb Pos.eqb].
  change (tlv_u16 _ TAG_2) with (be16 (be_bytes 2 cid)). rewrite be16_bytes, Ht by done. cbn [Z.eqb Pos.eqb negb].
  assert (He : exists_ st kid = true) by (apply exists_true; by exists (AESKey key)). rewrite He. cbn [negb].
  rewrite (tlv_iv_16 _ iv) by done. by destruct e.
Qed.

(** What a context has seen and answered: [D] came in, its aligned part went out as [O]. *)
Definition stream_at st cid (e : bool) m kid iv key (D O : bytes) : Prop :=
  exists P pend ch, D = P ++ pend /\ len P mod 16 = 0 /\
    aes.apply_mode m key iv P e false = Ret (ch, Ok O) /\ block ch /\ wf ch /\ wf P /\ wf pend /\
    crypto_objects st !! cid = Some (Cipher e m kid ch pend).

Lemma cipher_update_runs env act e m kid key iv cid x st r D O :
  known_mode m -> key_at st kid key -> u16 cid -> block iv -> wf iv -> wf x -> len x < 65536 ->
  stream_at st cid e m kid iv key D O ->
  exists st' o, dispatch env (cipher_update cid x) st r act = Ret (st', r, tag1 o) /\
    objects st' = objects st /\ stream_at st' cid e m kid iv key (D ++ x) (O ++ o).
Proof.
  intros Hm Hka Hc Hb Hwi Hx Hl (P & pend & ch & -> & HP & Eap & Hbc & Hwc & HwP & Hwp & Ectx).
  pose proof (ka_len _ _ _ Hka) as Hk. pose proof (cid_len cid).
  assert (Hts : Forall tlv_ok [mkTlv TAG_2 (be_bytes 2 cid); mkTlv TAG_3 x]) by (tlvs_ok).
  change (dispatch env (cipher_update cid x) st r act) with (with_store r (aes.handle_cipher_update (cipher_update cid x) st)).
  unfold aes.handle_cipher_update, cipher_update. rewrite parse_cmd by done. cbn [rbind].
  change (tlv_u16 _ TAG_2) with (be16 (be_bytes 2 cid)). rewrite be16_bytes by done.
  change (tlv_value _ TAG_3) with (Some x). rewrite Ectx. unfold aes.aes_key_of. rewrite (ka_get _ _ _ Hka). cbv zeta.
  set (buf := pend ++ x). pose proof (len_nonneg buf) as Hn.
  pose proof (Z.mod_pos_bound (len buf) 16 ltac:(lia)). pose proof (Z.mod_le (len buf) 16 Hn ltac:(lia)).
  set (k := len buf - len buf mod 16).
  rewrite !slice_ret by (unfold k; lia). cbn [rbind]. rewrite copy_block by done. cbn [rbind].
  assert (Hwb : wf buf) by by apply wf_app.
  set (al := sub buf 0 k). set (rest := sub buf k (len buf)).
  assert (Hal : len al mod 16 = 0).
  { unfold al. rewrite len_sub. replace (Z.min _ _) with k by (unfold k; lia). unfold k. dlia. }
  assert (Hsplit : buf = al ++ rest) by (apply sub_split; unfold k; lia).
  destruct (apply_mode_app m key ch al [] e Hm Hk Hbc Hwc) as (ch1 & o & Eo & Hb1 & Hw1 & Hwo & _);
    [unfold al; auto with wfdb|apply wf_nil|done|].
  destruct (apply_mode_app m key iv P al e Hm Hk Hb Hwi HwP) as (chP & OP & EP & _ & _ & _ & Hall);
    [unfold al; auto with wfdb|done|].
  rewrite Eap in EP. injection EP as <- <-. destruct (Hall false) as (ch2 & r2 & ch2' & E2 & Ewhole & Heq).
  rewrite Eo in E2. injection E2 as <- <-. cbv beta iota in Ewhole, Heq. subst ch2'.
  rewrite Eo. cbn [rbind]. eexists _, o. split; [done|]. split; [done|].
  exists (P ++ al), rest, ch1. split; [by rewrite <- !app_assoc, <- Hsplit|].
  split; [rewrite len_app, Zplus_mod, HP, Hal; done|]. split; [done|]. split; [done|]. split; [done|].
  split; [apply wf_app; [done|unfold al; auto with wfdb]|]. split; [unfold rest; auto with wfdb|].
  cbn [set_crypto_objects crypto_objects]. by rewrite lookup_insert_eq.
Qed.

Lemma cipher_updates_run env act e m kid key iv cid xs : forall st r D O,
  known_mode m -> key_at st kid key -> u16 cid -> block iv -> wf iv ->
  Forall (fun x : bytes => wf x /\ len x < 65536) xs -> stream_at st cid e m kid iv key D O ->
  exists st' outs, dispatch_all env act st r (cipher_update cid <$> xs) = Ret (st', r, tag1 <$> outs) /\
    objects st' = objects st /\ stream_at st' cid e m kid iv key (D ++ concat xs) (O ++ concat outs).
Proof.
  intros st r D O Hm Hka Hc Hb Hwi Hxs. revert st D O Hka. induction Hxs as [|x xs [Hx Hl] _ IH]; intros st D O Hka Hst.
  - exists st, []. cbn [concat]. by rewrite !app_nil_r.
  - destruct (cipher_update_runs env act e m kid key iv cid x st r D O Hm Hka Hc Hb Hwi Hx Hl Hst)
      as (st1 & o & E & Ho & Hst1).
    assert (Hka1 : key_at st1 kid key) by (destruct Hka; split; unfold get in *; by rewrite ?Ho).
    destruct (IH st1 _ _ Hka1 Hst1) as (st2 & outs & E2 & Ho2 & Hst2).
    exists st2, (o :: outs). change (cipher_update cid <$> x :: xs) with (cipher_update cid x :: (cipher_update cid <$> xs)).
    cbn [dispatch_all]. rewrite E. cbn [rbind]. rewrite E2. split; [done|]. split; [congruence|]. cbn [concat]. by rewrite !app_assoc.
Qed.

Lemma dispatch_all_app env act cs ds : forall st r, dispatch_all env act st r (cs ++ ds) =
  (let! '(st, r, a) := dispatch_all env act st r cs in
   let! '(st, r, b) := dispatch_all env act st r ds in Ret (st, r, a ++ b)).
Proof.
  induction cs as [|c cs IH]; intros st r; cbn [app dispatch_all rbind].
  - by destruct (dispatch_all env act st r ds) as [[[? ?] ?]|].
  - destruct (dispatch env c st r act) as [[[s1 q1] a1]|]; [|done]. cbn [rbind]. rewrite IH.
    destruct (dispatch_all env act s1 q1 cs) as [[[s2 q2] a2]|]; [|done]. cbn [rbind].
    by destruct (dispatch_all env act s2 q2 ds) as [[[s3 q3] a3]|].
Qed.

(** A context just opened has seen nothing. *)
Lemma stream_start st cid e m kid iv key : known_mode m -> aes_key_len (len key) -> block iv -> wf iv ->
  crypto_objects st !! cid = Some (Cipher e m kid iv []) -> stream_at st cid e m kid iv key [] [].
Proof.
  intros Hm Hk Hb Hwi Hc.
  destruct (apply_mode_app m key iv [] [] e Hm Hk Hb Hwi wf_nil wf_nil eq_refl) as (ch & o & E & Hb1 & Hw1 & _ & _).
  assert (Hco : ch = iv /\ o = []).
  { unfold aes.apply_mode in E. destruct (any_aes_some _ Hk) as [ci Eci]. rewrite Eci in E.
    change (len (@nil Z) mod 16 =? 0) with true in E.
    destruct Hm as [->|[->| ->]]; cbn in E; by simplify_eq. }
  destruct Hco as [-> ->]. exists [], [], iv. split_and!; try done; apply wf_nil.
Qed.

Lemma known_mode_u8 m : known_mode m -> wf [m].
Proof. intros Hm. apply wf_cons; [|apply wf_nil]. destruct Hm as [->|[->| ->]]; vm_compute; split; congruence. Qed.

(** The one-shot command is the mode applied to its data. *)
Lemma cipher_oneshot_runs env act st r e kid key m iv x ch o : known_mode m -> key_at st kid key -> block iv -> wf iv ->
  wf x -> len x < 65536 -> aes.apply_mode m key iv x e true = Ret (ch, o) ->
  dispatch env (cipher_oneshot e kid m iv x) st r act = Ret (st, r, aes.mode_response o).
Proof.
  intros Hm Hka Hb Hwi Hx Hl E. pose proof (ka_id _ _ _ Hka) as [Hkl Hkw].
  assert (Hts : Forall tlv_ok [mkTlv TAG_1 kid; mkTlv TAG_2 [m]; mkTlv TAG_3 x; mkTlv TAG_4 iv]).
  { unfold block in Hb. tlvs_ok; try (rewrite ?Hkl, ?Hb; done). by apply known_mode_u8. }
  transitivity (answer st r (aes.handle_cipher_oneshot (cipher_oneshot e kid m iv x) st e)); [by destruct e|].
  unfold aes.handle_cipher_oneshot, cipher_oneshot. rewrite parse_cmd by done. cbn [rbind].
  change (tlv_id _ TAG_1) with (if len kid =? 4 then Some kid else None). rewrite Hkl. cbn [Z.eqb Pos.eqb].
  change (tlv_first _ TAG_2) with (Some m). change (tlv_value _ TAG_3) with (Some x).
  cbv beta iota. rewrite (tlv_iv_16 _ iv) by (done || apply Hb). unfold aes.aes_key_of. rewrite (ka_get _ _ _ Hka).
  by rewrite E.
Qed.

(** The final piece takes the context out and applies the mode to what is left. *)
Lemma cipher_final_runs env act st r e kid key m cid ch pend x ch2 o : key_at st kid key -> u16 cid -> block ch ->
  wf x -> len x < 65536 -> crypto_objects st !! cid = Some (Cipher e m kid ch pend) ->
  aes.apply_mode m key ch (pend ++ x) e true = Ret (ch2, o) ->
  dispatch env (cipher_final cid x) st r act =
    Ret (set_crypto_objects st (delete cid (crypto_objects st)), r, aes.mode_response o).
Proof.
  intros Hka Hc Hb Hx Hl Ectx E. pose proof (cid_len cid) as Hcl.
  assert (Hts : Forall tlv_ok [mkTlv TAG_2 (be_bytes 2 cid); mkTlv TAG_3 x]) by tlvs_ok.
  change (dispatch env (cipher_final cid x) st r act) with (with_store r (aes.handle_cipher_final (cipher_final cid x) st)).
  unfold aes.handle_cipher_final, cipher_final. rewrite parse_cmd by done. cbn [rbind].
  change (tlv_u16 _ TAG_2) with (be16 (be_bytes 2 cid)). rewrite be16_bytes by done. cbv zeta.
  change (tlv_value _ TAG_3) with (Some x). rewrite Ectx. unfold aes.aes_key_of.
  change (get (set_crypto_objects st (delete cid (crypto_objects st))) kid) with (get st kid).
  rewrite (ka_get _ _ _ Hka), copy_block by done. cbn [rbind]. by rewrite E.
Qed.

(** C23: A cipher context fed in any pieces.  It answers every piece, and the joined answers
    are those of the one-shot command on the joined data; when that command is refused
    (a length that is no multiple of the block in ECB or CBC) the final piece is refused
    with the same status.  The context is gone afterwards. *)
Theorem cipher_streaming env act st r e kid key cid m iv xs x :
  known_mode m -> key_at st kid key -> u16 cid -> block iv -> wf iv ->
  crypto_object_types st !! cid = Some (0x02, m) ->
  Forall (fun x : bytes => wf x /\ len x < 65536) xs -> wf x -> len (concat xs ++ x) < 65536 ->
  exists st' outs final one,
    dispatch_all env act st r (cipher_init e kid cid iv :: (cipher_update cid <$> xs) ++ [cipher_final cid x])
      = Ret (st', r, success :: (tag1 <$> outs) ++ [final]) /\
    dispatch env (cipher_oneshot e kid m iv (concat xs ++ x)) st r act = Ret (st, r, one) /\
    ((exists o, final = tag1 o /\ one = tag1 (concat outs ++ o)) \/ (exists sw, final = error sw /\ one = error sw)) /\
    crypto_objects st' !! cid = None /\ objects st' = objects st.
Proof.
  intros Hm Hka Hc Hb Hwi Ht Hxs Hx Hl. pose proof (ka_len _ _ _ Hka) as Hk.
  assert (Hlx : len x < 65536) by (rewrite len_app in Hl; pose proof (len_nonneg (concat xs)); lia).
  assert (Hwx : wf (concat xs)) by (apply Forall_concat; eapply Forall_impl; [exact Hxs|]; by intros ? []).
  set (st0 := set_crypto_objects st (<[cid := Cipher e m kid iv []]> (crypto_objects st))).
  assert (Hka0 : key_at st0 kid key) by (destruct Hka; by split).
  destruct (cipher_updates_run env act e m kid key iv cid xs st0 r [] [] Hm Hka0 Hc Hb Hwi Hxs)
    as (st1 & outs & E1 & Ho1 & (P & pend & ch & ED & HP & Eap & Hbc & Hwc & HwP & Hwp & Ectx));
    [apply stream_start; try done; apply lookup_insert_eq|].
  cbn [app] in ED, Eap. assert (Hka1 : key_at st1 kid key) by (destruct Hka; split; unfold get in *; by rewrite ?Ho1).
  destruct (apply_mode_app m key iv P (pend ++ x) e Hm Hk Hb Hwi HwP) as (ch' & O' & EP & _ & _ & _ & Hall);
    [by apply wf_app|done|]. rewrite Eap in EP. injection EP as <- <-.
  destruct (Hall true) as (ch2 & r2 & ch2' & E2 & Ewhole & _).
  exists (set_crypto_objects st1 (delete cid (crypto_objects st1))), outs, (aes.mode_response r2),
    (aes.mode_response (match r2 with Ok o2 => Ok (concat outs ++ o2) | Err s => Err s end)).
  split; [|split; [|split; [|split]]].
  - cbn [dispatch_all]. rewrite (cipher_init_runs e kid cid iv st r env act m key) by done. cbn [rbind].
    fold st0. rewrite dispatch_all_app, E1. cbn [rbind dispatch_all].
    by rewrite (cipher_final_runs env act st1 r e kid key m cid ch pend x ch2 r2).
  - eapply cipher_oneshot_runs; try done; [by apply wf_app|]. rewrite ED, <- app_assoc. exact Ewhole.
  - destruct r2 as [o2|sw]; [left; by exists o2|right; by exists sw].
  - cbn. by rewrite lookup_delete_eq.
  - cbn. by rewrite Ho1.
Qed.

(** One-shot decryption undoes one-shot encryption: counter mode on any data, ECB and
    CBC on whole blocks. *)
Theorem cipher_decrypts env act st r kid key m iv x :
  known_mode m -> key_at st kid key -> block iv -> wf iv -> wf x -> len x < 65536 ->
  m = aes.CIPHER_MODE_CTR \/ len x mod 16 = 0 ->
  exists ct, dispatch env (cipher_oneshot true kid m iv x) st r act = Ret (st, r, tag1 ct) /\ len ct = len x /\
    dispatch env (cipher_oneshot false kid m iv ct) st r act = Ret (st, r, tag1 x).
Proof.
  intros Hm Hka Hb Hwi Hx Hl Hal. pose proof (ka_len _ _ _ Hka) as Hk.
  destruct (apply_mode_inverse m key iv x Hm Hk Hb Hwi Hx Hal) as (c1 & c2 & ct & E1 & Hct & E2).
  assert (Hwct : wf ct).
  { pose proof (apply_mode_ok m key iv x true true Hk Hb Hwi Hx) as Ho. rewrite E1 in Ho. by destruct Ho as (_ & _ & ?). }
  exists ct. split; [by apply (cipher_oneshot_runs env act st r true kid key m iv x c1 (Ok ct))|]. split; [done|].
  apply (cipher_oneshot_runs env act st r false kid key m iv ct c2 (Ok x)); try done. lia.
Qed.
End commands.
