(* ===== verification/Se050Keys.v ===== *)
(** * SE050Sim: what the elliptic-curve commands compute

    Generated keys sign and verify, two devices agree on a secret, and an imported
    private key of the wrong length is stored and stops the server when it is used. *)

From S2P Require Import Prelude.
From S2P Require Import Host.
From S2P Require Import Crates.
From S2P Require Import Se050Crates.
From S2P Require Import Se050Types.
From S2P Require Import Se050StoreFacts.
From S2P Require Import Se050Store.
From S2P Require Import Se050Handlers.
From S2P Require Import Se050ObjectMgmt.
From S2P Require Import Se050HandlersFacts.
From S2P Require Import Se050Rsa.
From S2P Require Import Se050Ec.
From S2P Require Import Se050EcFacts.
From S2P Require Import Se050Dispatch.
From S2P Require Import Se050ChannelFacts.
From S2P Require Import Se050Secure.
From S2P Require Import Se050Cipher.

Section keys.
Context `{C : Se050Crates} {CO : Se050CratesOk C} {S : Serde} {F : FileSystem Value} {I : HashIter}
  {IO : HashIterOk}.

(** ** The host's commands *)

Definition generate_cmd (id : bytes) (b : Z) : ParsedApdu :=
  cmd INS_WRITE (Z.lor P1_KEY_PAIR P1_EC) P2_DEFAULT [mkTlv TAG_1 id; mkTlv TAG_2 [b]].
Definition import_cmd (id : bytes) (b : Z) (k : bytes) : ParsedApdu :=
  cmd INS_WRITE (Z.lor P1_KEY_PAIR P1_EC) P2_DEFAULT [mkTlv TAG_1 id; mkTlv TAG_2 [b]; mkTlv TAG_3 k].
Definition sign_cmd (id : bytes) (algo : Z) (m : bytes) : ParsedApdu :=
  cmd INS_CRYPTO P1_SIGNATURE P2_SIGN [mkTlv TAG_1 id; mkTlv TAG_2 [algo]; mkTlv TAG_3 m].
Definition verify_cmd (id : bytes) (algo : Z) (m sg : bytes) : ParsedApdu :=
  cmd INS_CRYPTO P1_SIGNATURE P2_VERIFY [mkTlv TAG_1 id; mkTlv TAG_2 [algo]; mkTlv TAG_3 m; mkTlv TAG_5 sg].
Definition ecdh_cmd (id peer : bytes) : ParsedApdu :=
  cmd INS_CRYPTO P1_EC P2_DH [mkTlv TAG_1 id; mkTlv TAG_2 peer].
Definition read_cmd (id : bytes) : ParsedApdu := cmd INS_READ P1_DEFAULT P2_DEFAULT [mkTlv TAG_1 id].

(** ** Key pairs *)

Definition curve_pair (c : Curve) (k q : bytes) : Prop :=
  exists sk, k = sk_to_bytes c sk /\ q = pk_to_encoded_point c (sk_public c sk).

(** A stored pair that belongs together. *)
Definition pair_of (cv : ECCurve) (k q : bytes) : Prop :=
  match cv with
  | NistP192 => curve_pair p192 k q
  | NistP224 => curve_pair p224 k q
  | NistP256 => curve_pair p256 k q
  | NistP384 => curve_pair p384 k q
  | NistP521 => curve_pair p521 k q
  | Ed25519 => len k = 32 /\ wf k /\ q = ed25519_public k
  | Curve25519 => len k = 32 /\ wf k /\ q = reverse (x25519_public_key (reverse k))
  end.

(** The digest as ECDSA takes it: its leftmost [n] bytes, or all of it, as a number of [n]
    bytes. *)
Definition leftmost (n : Z) (m : bytes) : bytes :=
  if n <=? len m then sub m 0 n else vec_repeat 0 (n - len m) ++ m.

Lemma leftmost_len n m : 0 <= n -> len (leftmost n m) = n.
Proof.
  intros Hn. unfold leftmost. pose proof (len_nonneg m). destruct (Z.leb_spec n (len m)).
  - rewrite len_sub; lia.
  - rewrite len_app, len_vec_repeat; lia.
Qed.

Lemma pad_hash_leftmost m n : 0 <= n -> ec.pad_hash m n = Ret (leftmost n m).
Proof.
  intros Hn. unfold ec.pad_hash, leftmost. pose proof (len_nonneg m). pose proof (len_vec_repeat n 0) as Hv.
  destruct (Z.leb_spec n (len m)); [by rewrite slice_ret by lia|].
  unfold copy_from_slice. rewrite bool_decide_true by lia. f_equal. unfold splice, vec_repeat.
  rewrite take_replicate, drop_ge by (rewrite length_replicate; unfold len in *; lia). rewrite app_nil_r.
  do 2 f_equal. lia.
Qed.

(** What a host makes of a signature: the crates' verification with the public key alone, of
    the DER signature on the leftmost bytes of the digest, or of the Ed25519 signature
    whose halves the card sends in reverse. *)
Definition host_ecdsa (c : Curve) (n : Z) (q m sg : bytes) : Prop :=
  exists pk g, pk_from_sec1_bytes c q = Some pk /\ sig_from_der c sg = Some g /\
    verify_prehash c pk (leftmost n m) g = true.

Definition host_verifies (cv : ECCurve) (q m sg : bytes) : Prop :=
  match cv with
  | NistP192 => host_ecdsa p192 24 q m sg
  | NistP224 => host_ecdsa p224 28 q m sg
  | NistP256 => host_ecdsa p256 32 q m sg
  | NistP384 => host_ecdsa p384 48 q m sg
  | NistP521 => host_ecdsa p521 66 q m sg
  | Ed25519 => len sg = 64 /\ exists vk, ed25519_vk_from_bytes q = Some vk /\
      ed25519_verify vk m (reverse (take 32 sg) ++ reverse (drop 32 sg)) = true
  | Curve25519 => False
  end.

(** The digests of the ECDSA algorithms: SHA-1, SHA-224 to SHA-512, and any digest of the
    length of the order. *)
Definition order_len (cv : ECCurve) : Z :=
  match cv with NistP192 => 24 | NistP224 => 28 | NistP256 => 32 | NistP384 => 48 | NistP521 => 66 | _ => 32 end.
Definition ecdsa_admits (cv : ECCurve) (algo n : Z) : Prop :=
  In (algo, n) [(0x11, 20); (0x25, 28); (0x21, 32); (0x22, 48); (0x26, 64); (0x09, order_len cv)].

Lemma admits_check cv algo n : needs_curve_object cv = true -> ecdsa_admits cv algo n ->
  ec.check_ecdsa_algo algo n (scalar_len cv) = None.
Proof.
  intros Hn H. unfold ecdsa_admits in H. cbn [In] in H.
  repeat destruct H as [[= <- <-]|H]; try done; by destruct cv.
Qed.

Definition good_signature (c : Curve) (n : Z) (k q m sg : bytes) : Prop :=
  wf sg /\ len sg < 256 /\ ec.ecdsa_verify c n k m sg = Ret true /\ ec.verify_pubkey c n q m sg = Ret true /\
  host_ecdsa c n q m sg.

Lemma signature_good (c : Curve) n sk m g : CurveOk c -> 0 <= n ->
  verify_prehash c (sk_public c sk) (leftmost n m) g = true ->
  good_signature c n (sk_to_bytes c sk) (pk_to_encoded_point c (sk_public c sk)) m (sig_to_der c g).
Proof.
  intros Hc Hn Hv. split; [apply (sig_to_der_wf c Hc)|]. split; [apply (sig_to_der_len c Hc)|].
  unfold ec.ecdsa_verify, ec.verify_pubkey.
  rewrite (sk_from_to_bytes c Hc), (pk_from_to_encoded c Hc), (sig_from_to_der c Hc), pad_hash_leftmost by done.
  cbn. rewrite Hv. split; [done|]. split; [done|]. exists (sk_public c sk), g.
  by rewrite (pk_from_to_encoded c Hc), (sig_from_to_der c Hc).
Qed.

Lemma ecdsa_signs (c : Curve) n k q m : CurveOk c -> field_len c = n -> 0 <= n -> curve_pair c k q ->
  exists sg, ec.ecdsa_sign c n k m = Ret (tag1 sg) /\ good_signature c n k q m sg.
Proof.
  intros Hc Hf Hn (sk & -> & ->).
  destruct (sign_prehash_some c Hc sk (leftmost n m)) as [g Eg]; [rewrite leftmost_len; lia|].
  exists (sig_to_der c g). split; [|by apply signature_good, (sign_verify c Hc)].
  unfold ec.ecdsa_sign. rewrite (sk_from_to_bytes c Hc). cbn [rbind]. rewrite pad_hash_leftmost by done. cbn [rbind]. by rewrite Eg.
Qed.

(** The nonces the loop of P-192 draws, and when one gives a signature of digest [e] under
    the private scalar [d]. *)
Fixpoint nonce (n : nat) (r : rng) : scalar_t :=
  match n with O => fst (scalar_random r) | Datatypes.S n => nonce n (snd (scalar_random r)) end.

Definition usable (d e k : scalar_t) : Prop :=
  exists k_inv g, scalar_invert k = Some k_inv /\
    let rx := reduce_bytes (generator_times_x k) in
    let s := scalar_times k_inv (scalar_plus e (scalar_times rx d)) in
    scalar_is_zero rx = false /\ scalar_is_zero s = false /\ sig_from_scalars rx s = Some g.

(** The P-192 loop signs with the first usable nonce of its attempts. *)
Lemma p192_loop_signs i sk h : forall r,
  exists r' resp, ec.p192_sign_loop i (to_nonzero_scalar sk) (reduce_bytes h) r = (r', resp) /\
    ((resp = error SW_CONDITIONS_NOT_SATISFIED /\
      forall n, (n < i)%nat -> ~ usable (to_nonzero_scalar sk) (reduce_bytes h) (nonce n r)) \/
     exists g, resp = tag1 (sig_to_der p192 g) /\ verify_prehash p192 (sk_public p192 sk) h g = true).
Proof.
  induction i as [|i IH]; intros r; cbn [ec.p192_sign_loop];
    [eexists _, _; split; [done|]; left; split; [done|]; intros n; lia|].
  set (d := to_nonzero_scalar sk) in *. set (e := reduce_bytes h) in *.
  assert (Hnext : ~ usable d e (fst (scalar_random r)) ->
    exists r' resp, ec.p192_sign_loop i d e (snd (scalar_random r)) = (r', resp) /\
      ((resp = error SW_CONDITIONS_NOT_SATISFIED /\ forall n, (n < Datatypes.S i)%nat -> ~ usable d e (nonce n r)) \/
       exists g, resp = tag1 (sig_to_der p192 g) /\ verify_prehash p192 (sk_public p192 sk) h g = true)).
  { intros Hu. destruct (IH (snd (scalar_random r))) as (r' & resp & E & Hr). exists r', resp. split; [done|].
    destruct Hr as [[-> Hn]|Hg]; [left|by right]. split; [done|]. intros [|n] Hi; [done|]. apply Hn. lia. }
  destruct (scalar_random r) as [k r1]. cbn [fst snd] in Hnext.
  destruct (scalar_invert k) as [k_inv|] eqn:Ek; [|apply Hnext; intros (? & ? & Hk & _); congruence].
  cbv zeta. destruct (scalar_is_zero (reduce_bytes (generator_times_x k))) eqn:Ez;
    [apply Hnext; intros (? & ? & _ & Hz & _); congruence|].
  destruct (scalar_is_zero (scalar_times k_inv _)) eqn:Es;
    [apply Hnext; intros (? & ? & Hk & _ & Hz & _); congruence|].
  destruct (sig_from_scalars _ _) as [g|] eqn:Eg; [|apply Hnext; intros (? & ? & Hk & _ & _ & Hz); congruence].
  eexists _, _. split; [done|]. right. exists g. split; [done|]. by eapply p192_equation.
Qed.

(** The refusal of P-192: none of 64 nonces is usable. *)
Definition nonces_fail (k m : bytes) (r : rng) : Prop :=
  exists sk, k = sk_to_bytes p192 sk /\
    forall n, (n < 64)%nat -> ~ usable (to_nonzero_scalar sk) (reduce_bytes (leftmost 24 m)) (nonce n r).

Lemma p192_signs k q m r : curve_pair p192 k q ->
  exists r' resp, ec.p192_sign k m r = Ret (r', resp) /\
    ((resp = error SW_CONDITIONS_NOT_SATISFIED /\ nonces_fail k m r) \/
     exists sg, resp = tag1 sg /\ wf sg /\ len sg < 256 /\ ec.p192_verify k m sg = Ret true /\
       ec.p192_verify_pubkey q m sg = Ret true /\ host_ecdsa p192 24 q m sg).
Proof.
  intros (sk & -> & ->). destruct (p192_loop_signs 64 sk (leftmost 24 m) r) as (r' & resp & E & Hr). exists r', resp.
  unfold ec.p192_sign, ec.p192_verify. rewrite (sk_from_to_bytes _ p192_ok). cbn [rbind].
  rewrite pad_hash_leftmost by lia. cbn [rbind].
  rewrite E. split; [done|]. destruct Hr as [[-> Hn]|(g & -> & Hv)]; [left; split; [done|by exists sk]|]. right.
  destruct (signature_good p192 24 sk m g p192_ok ltac:(lia) Hv) as (Hw & Hl & _ & Hq & Hh). by exists (sig_to_der p192 g).
Qed.

Lemma reverse_halves_invol sg : len sg = 64 -> ec.reverse_halves (ec.reverse_halves sg) = sg.
Proof.
  intros Hl. unfold ec.reverse_halves.
  assert (H1 : len (sub sg 0 32) = 32) by (rewrite len_sub; lia).
  assert (H2 : len (sub sg 32 64) = 32) by (rewrite len_sub; lia).
  rewrite sub_app_l, sub_app_r by (rewrite ?len_reverse, ?H1; lia). rewrite len_reverse, H1.
  change (32 - 32) with 0. change (64 - 32) with 32.
  rewrite (sub_full (reverse (sub sg 0 32))), (sub_full (reverse (sub sg 32 64)))
    by (rewrite len_reverse, ?H1, ?H2; lia). rewrite !reverse_involutive.
  symmetry. rewrite <- Hl. apply sub_split. lia.
Qed.

(** ** The commands at a stored pair *)

Lemma id_wf id : id_ok id -> wf id /\ len id = 4 /\ len id < 65536.
Proof. intros [Hl Hw]. split; [done|]. split; [done|]. by rewrite Hl. Qed.

Definition command_tlvs (id : bytes) (b : Z) : list Tlv := [mkTlv TAG_1 id; mkTlv TAG_2 [b]].

Lemma head_tlvs_ok id b : id_ok id -> u8 b -> Forall tlv_ok (command_tlvs id b).
Proof.
  intros (Hw & _ & Hl)%id_wf Hb. unfold command_tlvs. tlvs_ok.
Qed.

Lemma parse_with i x y id b ts : id_ok id -> u8 b -> Forall tlv_ok ts ->
  apdu_parse_tlvs (cmd i x y (command_tlvs id b ++ ts)) = Ret (Ok (command_tlvs id b ++ ts)).
Proof. intros. apply parse_cmd, Forall_app. split; [by apply head_tlvs_ok|done]. Qed.

Lemma value_ok g v : u8 g -> wf v -> len v < 65536 -> Forall tlv_ok [mkTlv g v].
Proof. intros. apply List.Forall_cons; [by apply tlv_mk|apply List.Forall_nil]. Qed.

(** [handle_sign] once its TLVs are read. *)
Lemma sign_cmd_run e act st r id algo m cv k q : id_ok id -> u8 algo -> wf m -> len m < 65536 ->
  get st id = Some (ECKeyPair cv k q) ->
  (needs_curve_object cv = true -> ec.check_ecdsa_algo algo (len m) (scalar_len cv) = None) ->
  dispatch e (sign_cmd id algo m) st r act = with_rng st
    (let plain m := let! resp := m in Ret (r, resp) in
     match cv with
     | NistP192 => ec.p192_sign k m r
     | NistP224 => plain (ec.p224_sign k m)
     | NistP256 => plain (ec.p256_sign k m)
     | NistP384 => plain (ec.p384_sign k m)
     | NistP521 => plain (ec.p521_sign k m)
     | Ed25519 => Ret (r, ec.ed25519_sign_object k m)
     | Curve25519 => Ret (r, error SW_CONDITIONS_NOT_SATISFIED)
     end).
Proof.
  intros Hi Ha Hm Hl Hg Hc. destruct (id_wf id Hi) as (_ & Hid & _).
  change (dispatch e (sign_cmd id algo m) st r act) with (with_rng st (ec.handle_sign (sign_cmd id algo m) st r)).
  f_equal. unfold ec.handle_sign, sign_cmd. change [_; _; _] with (command_tlvs id algo ++ [mkTlv TAG_3 m]).
  rewrite parse_with by (done || by apply value_ok). cbn [rbind].
  change (tlv_id _ TAG_1) with (if len id =? 4 then Some id else None). rewrite Hid. cbn [Z.eqb Pos.eqb].
  change (tlv_first _ TAG_2) with (Some algo). change (default [] (tlv_value _ TAG_3)) with m. cbv beta iota zeta.
  rewrite Hg. destruct (needs_curve_object cv) eqn:En; [rewrite Hc by done|]; by destruct cv.
Qed.

Definition verify_object (o : SecureObject) (m sg : bytes) : option (res bool) :=
  match o with
  | ECKeyPair NistP192 k _ => Some (ec.p192_verify k m sg)
  | ECKeyPair NistP224 k _ => Some (ec.p224_verify k m sg)
  | ECKeyPair NistP256 k _ => Some (ec.p256_verify k m sg)
  | ECKeyPair NistP384 k _ => Some (ec.p384_verify k m sg)
  | ECKeyPair NistP521 k _ => Some (ec.p521_verify k m sg)
  | ECPublicKey NistP192 q => Some (ec.p192_verify_pubkey q m sg)
  | ECPublicKey NistP224 q => Some (ec.p224_verify_pubkey q m sg)
  | ECPublicKey NistP256 q => Some (ec.p256_verify_pubkey q m sg)
  | ECPublicKey NistP384 q => Some (ec.p384_verify_pubkey q m sg)
  | ECPublicKey NistP521 q => Some (ec.p521_verify_pubkey q m sg)
  | ECKeyPair Ed25519 _ q => Some (Ret (ec.ed25519_verify_object q m sg))
  | _ => None
  end.

Definition curve_of (o : SecureObject) : option ECCurve :=
  match o with ECKeyPair cv _ _ | ECPublicKey cv _ => Some cv | _ => None end.

Lemma verify_cmd_run e act st r id algo m sg o cv : id_ok id -> u8 algo -> wf m -> len m < 65536 ->
  wf sg -> len sg < 65536 -> get st id = Some o -> curve_of o = Some cv ->
  (needs_curve_object cv = true -> ec.check_ecdsa_algo algo (len m) (scalar_len cv) = None) ->
  verify_object o m sg = Some (Ret true) ->
  dispatch e (verify_cmd id algo m sg) st r act = Ret (st, r, tag1 [0x01]).
Proof.
  intros Hi Ha Hm Hl Hw Hsl Hg Hcv Hc Hv. destruct (id_wf id Hi) as (_ & Hid & _).
  change (dispatch e (verify_cmd id algo m sg) st r act) with (answer st r (ec.handle_verify (verify_cmd id algo m sg) st)).
  unfold ec.handle_verify, verify_cmd.
  change [_; _; _; _] with (command_tlvs id algo ++ [mkTlv TAG_3 m; mkTlv TAG_5 sg]).
  rewrite parse_with by (done || (apply List.Forall_cons; [by apply tlv_mk|by apply value_ok])). cbn [rbind].
  change (tlv_id _ TAG_1) with (if len id =? 4 then Some id else None). rewrite Hid. cbn [Z.eqb Pos.eqb].
  change (tlv_first _ TAG_2) with (Some algo). change (head (find_tlvs _ TAG_3)) with (Some (mkTlv TAG_3 m)).
  change (tlv_value _ TAG_5) with (Some sg). cbv beta iota zeta. cbn [value]. rewrite Hg.
  destruct o as [cv' k q|cv' q| | | | | |]; try done; injection Hcv as ->.
  all: destruct (needs_curve_object cv) eqn:En; [rewrite Hc by done|].
  all: destruct cv; try done; injection Hv as Hv; rewrite ?Hv; done.
Qed.

(** A public key on a curve without a curve object is not used to verify. *)
Lemma verify_public_refused e act st r id algo m sg cv q : id_ok id -> u8 algo -> wf m -> len m < 65536 ->
  wf sg -> len sg < 65536 -> get st id = Some (ECPublicKey cv q) -> needs_curve_object cv = false ->
  dispatch e (verify_cmd id algo m sg) st r act = Ret (st, r, error SW_CONDITIONS_NOT_SATISFIED).
Proof.
  intros Hi Ha Hm Hl Hw Hsl Hg Hn. destruct (id_wf id Hi) as (_ & Hid & _).
  change (dispatch e (verify_cmd id algo m sg) st r act) with (answer st r (ec.handle_verify (verify_cmd id algo m sg) st)).
  unfold ec.handle_verify, verify_cmd.
  change [_; _; _; _] with (command_tlvs id algo ++ [mkTlv TAG_3 m; mkTlv TAG_5 sg]).
  rewrite parse_with by (done || (apply List.Forall_cons; [by apply tlv_mk|by apply value_ok])). cbn [rbind].
  change (tlv_id _ TAG_1) with (if len id =? 4 then Some id else None). rewrite Hid. cbn [Z.eqb Pos.eqb].
  change (tlv_first _ TAG_2) with (Some algo). change (head (find_tlvs _ TAG_3)) with (Some (mkTlv TAG_3 m)).
  change (tlv_value _ TAG_5) with (Some sg). cbv beta iota zeta. rewrite Hg, Hn. by destruct cv.
Qed.

(** ** Writing a key *)

(** The guards of a key write: the policy of an existing object, the curve. *)
Record writable (e : Env) (st : ObjectStore) (id : bytes) (b : Z) (cv : ECCurve) : Prop := {
  wr_id : id_ok id;
  wr_byte : from_se050_byte b = Some cv;
  wr_policy : exists_ st id = true -> policy_allows st id POLICY_OBJ_ALLOW_WRITE = true;
  wr_curve : if needs_curve_object cv then curve_ready st b = true else supports_25519 (applet_from_env e) = true;
}.

(** The store after a key is written. *)
Definition created (st : ObjectStore) (id : bytes) (o : SecureObject) (org : Z) : ObjectStore :=
  if exists_ st id then insert st id o else set_creation_metadata (insert st id o) id None org.

Lemma get_created st id o org i : get (created st id o org) i = if decide (i = id) then Some o else get st i.
Proof.
  unfold get, created. destruct (exists_ st id); rewrite ?objects_set_creation, objects_insert.
  all: destruct (decide (i = id)) as [->|]; [apply lookup_insert_eq|by apply lookup_insert_ne].
Qed.

Lemma created_readable st id o org : store_ok st -> get st id = None ->
  policy_allows (created st id o org) id POLICY_OBJ_ALLOW_READ = true.
Proof.
  intros Hs Hg. unfold get in Hg. unfold created, policy_allows. rewrite (proj2 (exists_false st id)) by done.
  rewrite metadata_set_creation, metadata_insert, (no_metadata st id Hs Hg). by rewrite lookup_insert_eq.
Qed.

Lemma curve_byte_u8 b cv : from_se050_byte b = Some cv -> u8 b.
Proof. unfold from_se050_byte, u8. intros E. repeat case_match; simplify_eq; lia. Qed.

(** [handle_write_ec_key] once its guards have passed. *)
Lemma write_cmd_run e act st r id b cv ts : writable e st id b cv -> Forall tlv_ok ts ->
  find_tlv ts TAG_POLICY = None ->
  let apdu := cmd INS_WRITE (Z.lor P1_KEY_PAIR P1_EC) P2_DEFAULT (command_tlvs id b ++ ts) in
  let private := tlv_value ts TAG_3 in
  dispatch e apdu st r act =
    (let! '(st1, r1, resp) := ec.write_key apdu (command_tlvs id b ++ ts) cv id st r in
     Ret (if (sw resp =? SW_NO_ERROR) && negb (exists_ st id)
          then set_creation_metadata st1 id None (if bool_decide (private = None) then 0x02 else 0x01)
          else st1, r1, resp)).
Proof.
  intros [Hi Hb Hp Hc] Hts Hpol apdu private. destruct (id_wf id Hi) as (_ & Hid & _).
  change (dispatch e apdu st r act) with (ec.handle_write_ec_key apdu st r (applet_from_env e)).
  unfold ec.handle_write_ec_key, apdu. rewrite parse_with by (done || by eapply curve_byte_u8). cbn [rbind].
  change (tlv_id _ TAG_1) with (if len id =? 4 then Some id else None). rewrite Hid. cbn [Z.eqb Pos.eqb].
  unfold creation_policy. change (find_tlv (_ ++ ts) TAG_POLICY) with (find_tlv ts TAG_POLICY). rewrite Hpol.
  assert (Hg : exists_ st id && negb (policy_allows st id POLICY_OBJ_ALLOW_WRITE) = false).
  { destruct (exists_ st id); [by rewrite Hp|done]. }
  rewrite Hg. change (tlv_first _ TAG_2) with (Some b). cbv beta iota. rewrite Hb.
  assert (Hk : negb (needs_curve_object cv) && negb (supports_25519 (applet_from_env e)) = false /\
    needs_curve_object cv && negb (curve_ready st b) = false).
  { destruct (needs_curve_object cv); by rewrite Hc. }
  destruct Hk as [-> ->]. done.
Qed.

Lemma generate_pairs (c : Curve) cv id st r : exists r' k q, curve_pair c k q /\
  ec.generate_keypair c cv id st r = (insert st id (ECKeyPair cv k q), r', success).
Proof.
  unfold ec.generate_keypair. destruct (sk_random c r) as [sk r']. exists r', (sk_to_bytes c sk), (pk_to_encoded_point c (sk_public c sk)).
  split; [by exists sk|done].
Qed.

Lemma write_generates apdu id b cv st r : key_type apdu = P1_KEY_PAIR ->
  exists r' k q, pair_of cv k q /\
    ec.write_key apdu (command_tlvs id b) cv id st r = Ret (insert st id (ECKeyPair cv k q), r', success).
Proof.
  intros Hk. unfold ec.write_key. rewrite Hk. change (tlv_value (command_tlvs id b) TAG_3) with (@None bytes).
  cbn [Z.eqb Pos.eqb bool_decide andb].
  assert (Hc : forall c : Curve, (forall k q, curve_pair c k q -> pair_of cv k q) -> exists r' k q, pair_of cv k q /\
    Ret (ec.generate_keypair c cv id st r) = Ret (insert st id (ECKeyPair cv k q), r', success)).
  { intros c Hp. destruct (generate_pairs c cv id st r) as (r' & k & q & Hq & ->). exists r', k, q. auto. }
  destruct cv; try by apply Hc.
  - change (P1_KEY_PAIR =? P1_KEY_PAIR) with true. cbn [andb]. unfold ec.generate_ed25519_keypair.
    pose proof (ed25519_generate_len r) as Hl. pose proof (ed25519_generate_wf r) as Hw.
    destruct (ed25519_generate r) as [k r']. by exists r', k, (ed25519_public k).
  - unfold ec.generate_x25519_keypair. pose proof (x25519_random_len r) as Hl. pose proof (x25519_random_wf r) as Hw.
    destruct (x25519_random r) as [s r']. exists r', (reverse s), (reverse (x25519_public_key s)).
    split; [|done]. cbn [fst] in *. split; [by rewrite len_reverse|]. split; [by apply wf_reverse|]. by rewrite reverse_involutive.
Qed.

Lemma generate_run e act st r id b cv : writable e st id b cv ->
  exists r' k q, pair_of cv k q /\
    dispatch e (generate_cmd id b) st r act = Ret (created st id (ECKeyPair cv k q) 0x02, r', success).
Proof.
  intros Hw. pose proof (write_cmd_run e act st r id b cv [] Hw (List.Forall_nil _) eq_refl) as E. cbv zeta in E.
  rewrite app_nil_r in E.
  destruct (write_generates (generate_cmd id b) id b cv st r eq_refl) as (r' & k & q & Hp & Ew).
  exists r', k, q. split; [done|]. unfold generate_cmd, command_tlvs in *. rewrite Ew in E. rewrite E.
  cbn [rbind]. unfold created. by destruct (exists_ st id).
Qed.

(** ** Signing with a stored pair *)

(** A signature that the pair and the public key alone accept. *)
Definition accepted (cv : ECCurve) (k q m sg : bytes) : Prop :=
  wf sg /\ len sg < 65536 /\ verify_object (ECKeyPair cv k q) m sg = Some (Ret true) /\
  (needs_curve_object cv = true -> verify_object (ECPublicKey cv q) m sg = Some (Ret true)) /\
  host_verifies cv q m sg.

Lemma good_accepted (c : Curve) n cv k q m sg : good_signature c n k q m sg ->
  verify_object (ECKeyPair cv k q) m sg = Some (ec.ecdsa_verify c n k m sg) ->
  verify_object (ECPublicKey cv q) m sg = Some (ec.verify_pubkey c n q m sg) ->
  (host_ecdsa c n q m sg -> host_verifies cv q m sg) -> accepted cv k q m sg.
Proof.
  intros (Hw & Hl & H1 & H2 & H3) E1 E2 E3. split; [done|]. split; [lia|]. rewrite E1, E2, H1, H2. auto.
Qed.

Lemma ed25519_accepted k q m : pair_of Ed25519 k q ->
  exists sg, ec.ed25519_sign_object k m = tag1 sg /\ accepted Ed25519 k q m sg.
Proof.
  intros (Hl & Hw & ->). exists (ec.reverse_halves (ed25519_sign k m)).
  pose proof (ed25519_sign_len k m) as Hs. pose proof (ed25519_sign_wf k m) as Hsw.
  assert (Hr : len (ec.reverse_halves (ed25519_sign k m)) = 64).
  { unfold ec.reverse_halves. rewrite len_app, !len_reverse, !len_sub. lia. }
  split; [unfold ec.ed25519_sign_object; by rewrite Hl|]. split; [unfold ec.reverse_halves; auto with wfdb|].
  destruct (ed25519_sign_verify k m) as (vk & Evk & Hv).
  split; [lia|]. split; [|split; [done|]].
  - cbn. unfold ec.ed25519_verify_object. rewrite Hr, ed25519_public_len, Evk. cbn [Z.eqb Pos.eqb negb orb].
    by rewrite reverse_halves_invol, Hv.
  - split; [done|]. exists vk. split; [done|]. rewrite <- Hv. f_equal.
    rewrite <- (reverse_halves_invol (ed25519_sign k m)) at 3 by done. set (x := ec.reverse_halves _) in *.
    unfold ec.reverse_halves. unfold sub. cbn [Z.to_nat]. rewrite drop_0. do 2 f_equal.
    change (Z.to_nat (64 - 32)) with 32%nat. change (Z.to_nat 32) with 32%nat.
    rewrite take_ge; [done|]. rewrite length_drop. unfold len in Hr. lia.
Qed.

Lemma pair_signs e act st r id algo m cv k q : id_ok id -> u8 algo -> wf m -> len m < 65536 ->
  get st id = Some (ECKeyPair cv k q) -> pair_of cv k q -> cv <> Curve25519 ->
  (needs_curve_object cv = true -> ec.check_ecdsa_algo algo (len m) (scalar_len cv) = None) ->
  exists r2 resp, dispatch e (sign_cmd id algo m) st r act = Ret (st, r2, resp) /\
    ((cv = NistP192 /\ resp = error SW_CONDITIONS_NOT_SATISFIED /\ nonces_fail k m r) \/
     exists sg, resp = tag1 sg /\ accepted cv k q m sg).
Proof.
  intros Hi Ha Hm Hl Hg Hp Hne Hc. rewrite (sign_cmd_run e act st r id algo m cv k q) by done.
  assert (Hs : forall (c : Curve) n, CurveOk c -> field_len c = n -> 0 <= n -> curve_pair c k q ->
    (forall sg, verify_object (ECKeyPair cv k q) m sg = Some (ec.ecdsa_verify c n k m sg)) ->
    (forall sg, verify_object (ECPublicKey cv q) m sg = Some (ec.verify_pubkey c n q m sg)) ->
    (forall sg, host_ecdsa c n q m sg -> host_verifies cv q m sg) ->
    exists r2 resp, with_rng st (let! resp := ec.ecdsa_sign c n k m in Ret (r, resp)) = Ret (st, r2, resp) /\
      ((cv = NistP192 /\ resp = error SW_CONDITIONS_NOT_SATISFIED /\ nonces_fail k m r) \/
       exists sg, resp = tag1 sg /\ accepted cv k q m sg)).
  { intros c n Hco Hf Hn Hq H1 H2 H3. destruct (ecdsa_signs c n k q m Hco Hf Hn Hq) as (sg & E & Hgood).
    exists r, (tag1 sg). rewrite E. split; [done|]. right. exists sg. split; [done|].
    apply (good_accepted c n); auto. }
  destruct cv; try done; cbv zeta.
  - destruct (p192_signs k q m r Hp) as (r' & resp & E & Hr). exists r', resp. rewrite E. split; [done|].
    destruct Hr as [[-> Hn]|(sg & -> & Hw & Hsl & H1 & H2 & H3)]; [by left|]. right. exists sg. split; [done|].
    split; [done|]. split; [lia|]. cbn [verify_object host_verifies]. by rewrite H1, H2.
  - apply (Hs p224 28); try done; [apply p224_ok|apply p224_field].
  - apply (Hs p256 32); try done; [apply p256_ok|apply p256_field].
  - apply (Hs p384 48); try done; [apply p384_ok|apply p384_field].
  - apply (Hs p521 66); try done; [apply p521_ok|apply p521_field].
  - destruct (ed25519_accepted k q m Hp) as (sg & E & Hacc). eexists r, _. split; [done|]. right. exists sg. by rewrite E.
Qed.

(** ** Agreement *)

Lemma curve_agreement (c : Curve) ka qa kb qb : CurveOk c -> curve_pair c ka qa -> curve_pair c kb qb ->
  exists z, ec.ecdh c ka qb = Ret (Some z) /\ ec.ecdh c kb qa = Ret (Some z) /\ wf z /\ len z = field_len c.
Proof.
  intros Hc (sa & -> & ->) (sb & -> & ->). exists (diffie_hellman c sa (sk_public c sb)).
  unfold ec.ecdh. rewrite !(sk_from_to_bytes c Hc), !(pk_from_to_encoded c Hc). cbn [rbind].
  split; [done|]. split; [by rewrite (diffie_hellman_comm c Hc)|].
  split; [apply (diffie_hellman_wf c Hc)|apply (diffie_hellman_len c Hc)].
Qed.

Lemma mont_agreement ka qa kb qb : pair_of Curve25519 ka qa -> pair_of Curve25519 kb qb ->
  exists z, ec.x25519_ecdh ka qb = Some z /\ ec.x25519_ecdh kb qa = Some z /\ wf z /\ len z = 32.
Proof.
  intros (Hla & Hwa & ->) (Hlb & Hwb & ->). unfold ec.x25519_ecdh.
  rewrite !len_reverse, !x25519_public_key_len, Hla, Hlb. cbn [Z.eqb Pos.eqb negb orb]. rewrite !reverse_involutive.
  eexists. split; [done|]. split; [by rewrite x25519_diffie_hellman_comm|].
  split; [apply x25519_diffie_hellman_wf|apply x25519_diffie_hellman_len].
Qed.

Lemma pairs_agree cv ka qa kb qb : cv <> Ed25519 -> pair_of cv ka qa -> pair_of cv kb qb ->
  exists z, ec.object_ecdh (ECKeyPair cv ka qa) qb = Some (Ret (Some z)) /\
    ec.object_ecdh (ECKeyPair cv kb qb) qa = Some (Ret (Some z)) /\ len z = scalar_len cv.
Proof.
  intros Hne Ha Hb.
  assert (Hc : forall c : Curve, CurveOk c -> field_len c = scalar_len cv -> curve_pair c ka qa -> curve_pair c kb qb ->
    exists z, Some (ec.ecdh c ka qb) = Some (Ret (Some z)) /\ Some (ec.ecdh c kb qa) = Some (Ret (Some z)) /\ len z = scalar_len cv).
  { intros c Hco Hf H1 H2. destruct (curve_agreement c ka qa kb qb Hco H1 H2) as (z & -> & -> & _ & Hl). exists z.
    split; [done|]. split; [done|]. lia. }
  destruct cv; try done.
  - apply Hc; try done; [apply p192_ok|apply p192_field].
  - apply Hc; try done; [apply p224_ok|apply p224_field].
  - apply Hc; try done; [apply p256_ok|apply p256_field].
  - apply Hc; try done; [apply p384_ok|apply p384_field].
  - apply Hc; try done; [apply p521_ok|apply p521_field].
  - destruct (mont_agreement ka qa kb qb Ha Hb) as (z & E1 & E2 & _ & Hl). exists z. cbn [ec.object_ecdh]. by rewrite E1, E2.
Qed.

(** A public key is a non-empty string of bytes that fits a TLV. *)
Lemma public_ok cv k q : pair_of cv k q -> wf q /\ 0 < len q < 256.
Proof.
  assert (Hc : forall c : Curve, CurveOk c -> curve_pair c k q -> wf q /\ 0 < len q < 256).
  { intros c Hco (sk & _ & ->). split; [apply (pk_to_encoded_point_wf c Hco)|apply (pk_to_encoded_point_len c Hco)]. }
  destruct cv; cbn [pair_of].
  - apply Hc, p192_ok.
  - apply Hc, p224_ok.
  - apply Hc, p256_ok.
  - apply Hc, p384_ok.
  - apply Hc, p521_ok.
  - intros (_ & _ & ->). rewrite ed25519_public_len. split; [apply ed25519_public_wf|done].
  - intros (_ & _ & ->). rewrite len_reverse, x25519_public_key_len. split; [apply wf_reverse, x25519_public_key_wf|done].
Qed.

Lemma public_nonempty cv k q : pair_of cv k q -> q <> [].
Proof. intros [_ Hl]%public_ok ->. by destruct Hl. Qed.

Lemma read_cmd_run e act st r id cv k q : id_ok id -> get st id = Some (ECKeyPair cv k q) ->
  policy_allows st id POLICY_OBJ_ALLOW_READ = true ->
  dispatch e (read_cmd id) st r act = Ret (st, r, tag1 q).
Proof.
  intros Hi Hg Hp. destruct (id_wf id Hi) as (Hw & Hid & Hl).
  assert (Hts : Forall tlv_ok [mkTlv TAG_1 id]) by tlvs_ok.
  change (dispatch e (read_cmd id) st r act) with (answer st r
    (let! is_rsa_read := has_tag4 (read_cmd id) in
     if is_rsa_read then rsa.read_rsa (read_cmd id) st else object_mgmt.handle_read_object (read_cmd id) st)).
  unfold has_tag4, object_mgmt.handle_read_object, read_cmd. rewrite parse_cmd by done. cbn [rbind].
  change (bool_decide _) with false. cbv iota.
  unfold object_mgmt.extract_object_id. change (find_tlv _ TAG_1) with (Some (mkTlv TAG_1 id)). cbn [value].
  rewrite Hid. cbn [Z.eqb Pos.eqb negb]. by rewrite Hp, Hg.
Qed.

Definition ecdh_answer (cv : ECCurve) (z : bytes) : bytes :=
  match cv with Curve25519 => reverse z | _ => z end.

Lemma ecdh_cmd_parsed e act st r id o peer m : id_ok id -> get st id = Some o ->
  wf peer -> len peer < 65536 -> peer <> [] -> ec.object_ecdh o peer = Some m ->
  dispatch e (ecdh_cmd id peer) st r act = with_store r
    (let! shared_secret := m in
     match shared_secret with
     | Some secret => Ret (st, tag1 (if ec.is_mont o then reverse secret else secret))
     | None => Ret (st, error SW_CONDITIONS_NOT_SATISFIED)
     end).
Proof.
  intros Hi Hg Hw Hl Hne E. destruct (id_wf id Hi) as (Hwi & Hid & Hli).
  assert (Hts : Forall tlv_ok [mkTlv TAG_1 id; mkTlv TAG_2 peer]) by tlvs_ok.
  change (dispatch e (ecdh_cmd id peer) st r act) with (with_store r (ec.handle_ecdh (ecdh_cmd id peer) st (ec.strict_ecdh_from_env e))).
  unfold ec.handle_ecdh, ecdh_cmd. rewrite parse_cmd by done. cbn [rbind].
  change (tlv_id _ TAG_1) with (if len id =? 4 then Some id else None). rewrite Hid. cbn [Z.eqb Pos.eqb].
  change (tlv_value _ TAG_2) with (Some peer). change (find_tlv _ TAG_7) with (@None Tlv). destruct peer as [|x peer]; [done|].
  cbv beta iota. by rewrite Hg, E.
Qed.

Lemma ecdh_cmd_run e act st r id cv k q peer z : id_ok id -> get st id = Some (ECKeyPair cv k q) ->
  wf peer -> len peer < 65536 -> peer <> [] ->
  ec.object_ecdh (ECKeyPair cv k q) peer = Some (Ret (Some z)) ->
  dispatch e (ecdh_cmd id peer) st r act = Ret (st, r, tag1 (ecdh_answer cv z)).
Proof. intros. erewrite ecdh_cmd_parsed by done. cbn [rbind]. by destruct cv. Qed.

Lemma ecdh_cmd_panics e act st r id cv k q peer : id_ok id -> get st id = Some (ECKeyPair cv k q) ->
  wf peer -> len peer < 65536 -> peer <> [] ->
  ec.object_ecdh (ECKeyPair cv k q) peer = Some Panic ->
  dispatch e (ecdh_cmd id peer) st r act = Panic.
Proof. intros. by erewrite ecdh_cmd_parsed by done. Qed.

(** An agreement whose secret goes into an object of the store. *)
Definition ecdh_into_cmd (id peer oid : bytes) : ParsedApdu :=
  cmd INS_CRYPTO P1_EC P2_DH [mkTlv TAG_1 id; mkTlv TAG_2 peer; mkTlv TAG_7 oid].

(** Unless the strict mode is chosen, the target of an agreement that is not an HMAC
    key is replaced by the secret, whatever its policy says. *)
Lemma ecdh_overwrites_protected e act st r id cv k q peer z oid o :
  id_ok id -> id_ok oid -> get st id = Some (ECKeyPair cv k q) -> wf peer -> len peer < 65536 -> peer <> [] ->
  ec.object_ecdh (ECKeyPair cv k q) peer = Some (Ret (Some z)) ->
  get st oid = Some o -> match o with HMACKey _ _ => False | _ => True end -> ec.strict_ecdh_from_env e = false ->
  dispatch e (ecdh_into_cmd id peer oid) st r act = Ret (insert st oid (Binary z), r, success).
Proof.
  intros Hi Ho Hg Hw Hl Hne E Hgo Hnh Hst. destruct (id_wf id Hi) as (Hwi & Hid & Hli). destruct (id_wf oid Ho) as (Hwo & Hod & Hlo).
  assert (Hts : Forall tlv_ok [mkTlv TAG_1 id; mkTlv TAG_2 peer; mkTlv TAG_7 oid]) by tlvs_ok.
  change (dispatch e (ecdh_into_cmd id peer oid) st r act) with
    (with_store r (ec.handle_ecdh (ecdh_into_cmd id peer oid) st (ec.strict_ecdh_from_env e))).
  unfold ec.handle_ecdh, ecdh_into_cmd. rewrite parse_cmd, Hst by done. cbn [rbind].
  change (tlv_id _ TAG_1) with (if len id =? 4 then Some id else None). rewrite Hid. cbn [Z.eqb Pos.eqb].
  change (tlv_value _ TAG_2) with (Some peer). change (find_tlv _ TAG_7) with (Some (mkTlv TAG_7 oid)).
  destruct peer as [|x peer]; [done|]. cbv beta iota. cbn [value]. rewrite Hod. cbn [Z.eqb Pos.eqb].
  rewrite Hg, Hgo, E. by destruct o.
Qed.

(** ** An imported key *)

Lemma write_imports apdu id b cv st r x : needs_curve_object cv = true -> len x <> scalar_len cv ->
  key_type apdu = P1_KEY_PAIR ->
  ec.write_key apdu (command_tlvs id b ++ [mkTlv TAG_3 x]) cv id st r = Ret (insert st id (ECKeyPair cv x []), r, success).
Proof.
  intros Hn Hl Hk. unfold ec.write_key. rewrite Hk. change (tlv_value _ TAG_3) with (Some x).
  rewrite (bool_decide_eq_false_2 (Some x = None)) by done. rewrite andb_false_r. unfold ec.import_ec_key.
  destruct cv; try done; cbn [scalar_len] in Hl; by rewrite (proj2 (Z.eqb_neq _ _) Hl).
Qed.

Lemma import_run e act st r id b cv x : writable e st id b cv -> wf x -> len x < 65536 ->
  needs_curve_object cv = true -> len x <> scalar_len cv ->
  dispatch e (import_cmd id b x) st r act = Ret (created st id (ECKeyPair cv x []) 0x01, r, success).
Proof.
  intros Hw Hx Hl Hn Hne.
  assert (Hts : Forall tlv_ok [mkTlv TAG_3 x]) by by apply value_ok.
  pose proof (write_cmd_run e act st r id b cv [mkTlv TAG_3 x] Hw Hts eq_refl) as E. cbv zeta in E.
  pose proof (write_imports (import_cmd id b x) id b cv st r x Hn Hne eq_refl) as Ew.
  change (command_tlvs id b ++ [mkTlv TAG_3 x]) with [mkTlv TAG_1 id; mkTlv TAG_2 [b]; mkTlv TAG_3 x] in *.
  unfold import_cmd in *. rewrite Ew in E. rewrite E. cbn [rbind]. unfold created. by destruct (exists_ st id).
Qed.

Lemma sk_length_panics (c : Curve) n x : CurveOk c -> field_len c = n -> len x <> n -> sk_from_bytes c x = Panic.
Proof. intros Hc <- Hl. by apply (sk_from_bytes_panic c Hc). Qed.

(** ** Claims *)

(** C21: A key pair the card generates on any curve it signs with: the signature it then
    gives on any digest of a length its algorithm stands for verifies under the public key
    with the crates alone, is accepted with the key pair, and on a Weierstrass curve also by
    any other card that holds its public key; a card that holds the public key of an Ed25519
    pair refuses to verify.  The only refusal to sign is P-192 when none of the 64 nonces it
    draws is usable.  No other object changes. *)
Theorem se050_generated_key_signs e act st r id b cv algo m :
  writable e st id b cv -> cv <> Curve25519 -> u8 algo -> wf m -> len m < 65536 ->
  (needs_curve_object cv = true -> ecdsa_admits cv algo (len m)) ->
  exists st1 r1 k q,
    dispatch e (generate_cmd id b) st r act = Ret (st1, r1, success) /\
    (forall i, get st1 i = if decide (i = id) then Some (ECKeyPair cv k q) else get st i) /\
    exists r2 resp, dispatch e (sign_cmd id algo m) st1 r1 act = Ret (st1, r2, resp) /\
      ((cv = NistP192 /\ resp = error SW_CONDITIONS_NOT_SATISFIED /\ nonces_fail k m r1) \/
       exists sg, resp = tag1 sg /\ host_verifies cv q m sg /\
         dispatch e (verify_cmd id algo m sg) st1 r2 act = Ret (st1, r2, tag1 [0x01]) /\
         forall e' act' st' r' id', id_ok id' -> get st' id' = Some (ECPublicKey cv q) ->
            dispatch e' (verify_cmd id' algo m sg) st' r' act' =
              Ret (st', r', if needs_curve_object cv then tag1 [0x01] else error SW_CONDITIONS_NOT_SATISFIED)).
Proof.
  intros Hw Hne Ha Hm Hl Had. pose proof (wr_id _ _ _ _ _ Hw) as Hi.
  assert (Hc : needs_curve_object cv = true -> ec.check_ecdsa_algo algo (len m) (scalar_len cv) = None)
    by (intros Hn; by apply admits_check, Had).
  destruct (generate_run e act st r id b cv Hw) as (r1 & k & q & Hp & Eg). eexists _, r1, k, q. split; [exact Eg|].
  split; [intros i; apply get_created|].
  assert (Hg : get (created st id (ECKeyPair cv k q) 2) id = Some (ECKeyPair cv k q)).
  { by rewrite get_created, decide_True. }
  destruct (pair_signs e act _ r1 id algo m cv k q Hi Ha Hm Hl Hg Hp Hne Hc) as (r2 & resp & Es & Hr).
  exists r2, resp. split; [exact Es|]. destruct Hr as [Hr|(sg & -> & Hsw & Hsl & H1 & H2 & H3)]; [by left|].
  right. exists sg. split; [done|]. split; [done|]. split; [by eapply verify_cmd_run|].
  intros e' act' st' r' id' Hi' Hg'. destruct (Sumbool.sumbool_of_bool (needs_curve_object cv)) as [En|En]; rewrite En.
  - by eapply verify_cmd_run; [..|apply H2].
  - by eapply verify_public_refused.
Qed.

(** Two cards that each generate a key on a curve with a shared secret and read the
    other's public key compute the same secret, of the curve's length. *)
Theorem se050_ecdh_agreement ea eb acta actb sta stb ra rb ida idb b cv :
  writable ea sta ida b cv -> writable eb stb idb b cv -> store_ok sta -> store_ok stb ->
  get sta ida = None -> get stb idb = None -> cv <> Ed25519 ->
  exists sta1 ra1 qa stb1 rb1 qb z,
    dispatch ea (generate_cmd ida b) sta ra acta = Ret (sta1, ra1, success) /\
    dispatch eb (generate_cmd idb b) stb rb actb = Ret (stb1, rb1, success) /\
    dispatch ea (read_cmd ida) sta1 ra1 acta = Ret (sta1, ra1, tag1 qa) /\
    dispatch eb (read_cmd idb) stb1 rb1 actb = Ret (stb1, rb1, tag1 qb) /\
    dispatch ea (ecdh_cmd ida qb) sta1 ra1 acta = Ret (sta1, ra1, tag1 z) /\
    dispatch eb (ecdh_cmd idb qa) stb1 rb1 actb = Ret (stb1, rb1, tag1 z) /\
    len z = scalar_len cv.
Proof.
  intros Hwa Hwb Hsa Hsb Hna Hnb Hne. pose proof (wr_id _ _ _ _ _ Hwa) as Hia. pose proof (wr_id _ _ _ _ _ Hwb) as Hib.
  destruct (generate_run ea acta sta ra ida b cv Hwa) as (ra1 & ka & qa & Hpa & Ea).
  destruct (generate_run eb actb stb rb idb b cv Hwb) as (rb1 & kb & qb & Hpb & Eb).
  destruct (pairs_agree cv ka qa kb qb Hne Hpa Hpb) as (z & Za & Zb & Hz).
  destruct (public_ok _ _ _ Hpa) as [Hqa Hla]. destruct (public_ok _ _ _ Hpb) as [Hqb Hlb].
  assert (Hga : get (created sta ida (ECKeyPair cv ka qa) 2) ida = Some (ECKeyPair cv ka qa)) by by rewrite get_created, decide_True.
  assert (Hgb : get (created stb idb (ECKeyPair cv kb qb) 2) idb = Some (ECKeyPair cv kb qb)) by by rewrite get_created, decide_True.
  eexists _, ra1, qa, _, rb1, qb, (ecdh_answer cv z). split; [exact Ea|]. split; [exact Eb|].
  split; [by eapply read_cmd_run; [..|apply created_readable]|]. split; [by eapply read_cmd_run; [..|apply created_readable]|].
  split; [eapply ecdh_cmd_run; try done; [lia|by eapply public_nonempty]|].
  split; [eapply ecdh_cmd_run; try done; [lia|by eapply public_nonempty]|].
  rewrite <- Hz. destruct cv; try done. apply len_reverse.
Qed.

(** C22: The card accepts a Weierstrass private key of any wrong length, and the next
    signature or agreement with it panics. *)
Theorem wrong_length_key_panics e act st r id b cv x algo m peer :
  writable e st id b cv -> needs_curve_object cv = true -> wf x -> len x < 65536 -> len x <> scalar_len cv ->
  u8 algo -> wf m -> len m < 65536 -> ec.check_ecdsa_algo algo (len m) (scalar_len cv) = None ->
  wf peer -> len peer < 65536 -> peer <> [] ->
  exists st1, dispatch e (import_cmd id b x) st r act = Ret (st1, r, success) /\
    dispatch e (sign_cmd id algo m) st1 r act = Panic /\
    dispatch e (ecdh_cmd id peer) st1 r act = Panic.
Proof.
  intros Hw Hn Hx Hxl Hne Ha Hm Hl Hc Hpw Hpl Hpn. pose proof (wr_id _ _ _ _ _ Hw) as Hi.
  exists (created st id (ECKeyPair cv x []) 1). split; [by apply import_run|].
  assert (Hg : get (created st id (ECKeyPair cv x []) 1) id = Some (ECKeyPair cv x [])) by by rewrite get_created, decide_True.
  assert (Hp : match cv with
               | NistP192 => sk_from_bytes p192 x = Panic | NistP224 => sk_from_bytes p224 x = Panic
               | NistP256 => sk_from_bytes p256 x = Panic | NistP384 => sk_from_bytes p384 x = Panic
               | NistP521 => sk_from_bytes p521 x = Panic | _ => True end).
  { destruct cv; try done; refine (sk_length_panics _ _ x _ _ Hne);
      first [apply p192_ok|apply p224_ok|apply p256_ok|apply p384_ok|apply p521_ok
        |apply p192_field|apply p224_field|apply p256_field|apply p384_field|apply p521_field]. }
  split.
  - rewrite (sign_cmd_run e act _ r id algo m cv x []) by done.
    destruct cv; try done; cbv beta iota zeta in Hp |- *; unfold ec.p192_sign, ec.p224_sign, ec.p256_sign, ec.p384_sign, ec.p521_sign, ec.ecdsa_sign;
      by rewrite Hp.
  - eapply ecdh_cmd_panics; try done. destruct cv; try done; cbv beta iota in Hp; cbn [ec.object_ecdh];
      unfold ec.p192_ecdh, ec.p224_ecdh, ec.p256_ecdh, ec.p384_ecdh, ec.p521_ecdh, ec.ecdh; by rewrite Hp.
Qed.
End keys.
