(* ===== verification/Se050Persist.v ===== *)
(** * SE050Sim: what the file keeps

    Loading the document a store wrote gives back its objects, metadata, curves and
    security settings, and every command leaves the file as the store is. *)

From S2P Require Import Prelude.
From S2P Require Import Host.
From S2P Require Import Crates.
From S2P Require Import Se050Crates.
From S2P Require Import Se050Types.
From S2P Require Import Se050StoreFacts.
From S2P Require Import Se050Store.
From S2P Require Import Se050Handlers.
From S2P Require Import Se050HandlersFacts.
From S2P Require Import Se050ObjectMgmt.
From S2P Require Import Se050Aes.
From S2P Require Import Se050Rsa.
From S2P Require Import Se050CryptoFacts.
From S2P Require Import Se050Ec.
From S2P Require Import Se050EcFacts.
From S2P Require Import Se050Dispatch.
From S2P Require Import Se050Scp03.
From S2P Require Import Se050ChannelFacts.
From S2P Require Import Se050T1.
From S2P Require Import Se050T1Facts.

(** ** Loading a map with its keys as strings *)

Section load.
Context {J K A : Type} `{Countable J} `{Countable K} (enc : J -> K) (dec : K -> option J).

Fixpoint fold_load (l : list (K * A)) (m : gmap J A) : gmap J A :=
  match l with
  | [] => m
  | (k, x) :: l =>
      match dec k with
      | Some j => fold_load l (<[j := x]> m)
      | None => fold_load l m
      end
  end.

Definition encoded (l : list (J * A)) : list (K * A) := (fun kv => (enc (fst kv), snd kv)) <$> l.

Lemma fold_load_encoded l : forall m, (forall j, j ∈ fst <$> l -> dec (enc j) = Some j) -> NoDup (fst <$> l) ->
  fold_load (encoded l) m = list_to_map l ∪ m.
Proof.
  induction l as [|[j x] l IH]; intros m Hd Hn; [cbn; by rewrite (left_id_L ∅ (∪))|].
  apply NoDup_cons in Hn as [Hj Hn]. cbn. rewrite Hd by apply list_elem_of_here.
  fold (encoded l). rewrite IH; [|intros; apply Hd; by apply list_elem_of_further|done].
  rewrite <- insert_union_r by by apply not_elem_of_list_to_map_1. apply insert_union_l.
Qed.

(** Any listing of the encoded map loads the map. *)
Lemma fold_load_spec (m : gmap J A) l : (forall j, is_Some (m !! j) -> dec (enc j) = Some j) -> NoDup (fst <$> l) ->
  (forall k x, (list_to_map (encoded (map_to_list m)) : gmap K A) !! k = Some x <-> (k, x) ∈ l) ->
  fold_load l ∅ = m.
Proof.
  intros Hd Hn Hl.
  assert (Hin : forall j, j ∈ fst <$> map_to_list m -> is_Some (m !! j)).
  { intros j Hj. apply list_elem_of_fmap in Hj as ([j' x] & -> & Hx). apply elem_of_map_to_list in Hx. by eexists. }
  assert (Hne : NoDup (fst <$> encoded (map_to_list m))).
  { unfold encoded. rewrite <- list_fmap_compose. change (NoDup (enc ∘ fst <$> map_to_list m)).
    rewrite (list_fmap_compose fst enc). apply NoDup_fmap_2_strong; [|apply NoDup_fst_map_to_list].
    intros j1 j2 H1 H2 E. apply Hin, Hd in H1. apply Hin, Hd in H2. rewrite E in H1. congruence. }
  assert (Hp : encoded (map_to_list m) ≡ₚ l).
  { apply NoDup_Permutation; [by eapply NoDup_fmap_1|by eapply NoDup_fmap_1|].
    intros [k x]. rewrite <- Hl. by apply elem_of_list_to_map. }
  symmetry in Hp. apply Permutation_map_inv in Hp as (l' & -> & Hp). fold (encoded l').
  assert (Hn' : NoDup (fst <$> l')) by (rewrite <- Hp; apply NoDup_fst_map_to_list).
  rewrite fold_load_encoded; [|intros j Hj; apply Hd, Hin; by rewrite Hp|done].
  rewrite (right_id_L ∅ (∪)). rewrite <- (list_to_map_proper (map_to_list m) l'); [apply list_to_map_to_list| |done].
  apply NoDup_fst_map_to_list.
Qed.
End load.

(** ** The document *)

Section document.
Context `{HX : HexCrate} {HO : HexCrateOk} {S : Serde} {SO : SerdeOk S} {F : FileSystem Value} {FO : FileSystemOk F}.

Lemma decode_encode_id id : id_ok id -> decode_id (hex_encode id) = Some id.
Proof. intros [Hl Hw]. unfold decode_id. by rewrite hex_decode_encode, Hl. Qed.

Lemma load_objects_fold l : forall m, load_objects l m = fold_load decode_id l m.
Proof. induction l as [|[k x] l IH]; intros m; [done|]. cbn. destruct (decode_id k); apply IH. Qed.

Definition parsed_entries {A} (from : Value -> option A) (l : list (list Z * Value)) : list (list Z * A) :=
  omap (fun kv => (fun x => (fst kv, x)) <$> from (snd kv)) l.

Lemma parsed_in {A} (from : Value -> option A) l k x :
  (k, x) ∈ parsed_entries from l <-> exists w, (k, w) ∈ l /\ from w = Some x.
Proof.
  unfold parsed_entries. rewrite list_elem_of_omap. split.
  - intros ([k' w] & Hin & E). cbn in E. destruct (from w) eqn:Ef; [|done]. injection E as -> ->. by exists w.
  - intros (w & Hin & Ef). exists (k, w). cbn. by rewrite Ef.
Qed.

Lemma parsed_nodup {A} (from : Value -> option A) l : NoDup (fst <$> l) -> NoDup (fst <$> parsed_entries from l).
Proof.
  induction l as [|[k w] l IH]; intros Hn; [done|]. apply NoDup_cons in Hn as [Hk Hn]. cbn.
  destruct (from w) as [x|]; [|by apply IH]. cbn. apply NoDup_cons. split; [|by apply IH].
  intros Hin. apply Hk. apply list_elem_of_fmap in Hin as ([k' y] & -> & Hy). apply parsed_in in Hy as (w' & Hw' & _).
  apply list_elem_of_fmap. by exists (k', w').
Qed.

Lemma load_metadata_fold l : forall m, load_metadata l m = fold_load decode_id (parsed_entries metadata_from_value l) m.
Proof.
  induction l as [|[k w] l IH]; intros m; [done|]. cbn.
  destruct (metadata_from_value w); cbn; destruct (decode_id k); apply IH.
Qed.

Lemma load_curves_fold l : load_curves l =
  fold_load u8_from_str_radix16 (parsed_entries (fun w => as_u8 <$> as_u64 w) l) ∅.
Proof.
  unfold load_curves. 
  match goal with |- list_to_map (reverse (omap ?f l)) = _ => set (g := f) end.
  assert (Hg : forall m, list_to_map (reverse (omap g l)) ∪ m =
    fold_load u8_from_str_radix16 (parsed_entries (fun w => as_u8 <$> as_u64 w) l) m).
  2:{ rewrite <- Hg. by rewrite (right_id_L ∅ (∪)). }
  induction l as [|[k w] l IH]; intros m; [cbn; by rewrite (left_id_L ∅ (∪))|].
  cbn -[reverse]. unfold g at 1. cbn -[reverse]. destruct (u8_from_str_radix16 k) as [i|] eqn:Ei; destruct (as_u64 w) as [x|]; cbn -[reverse]; rewrite ?Ei; try apply IH.
  rewrite <- IH, reverse_cons, list_to_map_app. cbn.
  rewrite <- (assoc_L (∪)). f_equal. by rewrite <- insert_union_l, (left_id_L ∅ (∪)).
Qed.

Lemma hex_roundtrip k : u8 k -> u8_from_str_radix16 (format_02x k) = Some k.
Proof.
  intros Hk. assert (Hall : forallb (fun n => bool_decide (u8_from_str_radix16 (format_02x (Z.of_nat n)) = Some (Z.of_nat n)))
    (seq 0 256) = true) by (vm_compute; reflexivity).
  rewrite forallb_forall in Hall. specialize (Hall (Z.to_nat k)). rewrite Z2Nat.id in Hall by u_solve.
  apply bool_decide_eq_true in Hall; [done|]. apply in_seq. u_solve.
Qed.

(** The part of a store its document holds. *)
Definition durable (st : ObjectStore) :=
  (objects st, metadata st, ec_curves st, scp_required st, platform_scp st).

Lemma document_durable st st' : durable st = durable st' -> document st = document st'.
Proof. unfold durable, document. by intros [= -> -> -> -> ->]. Qed.

Lemma load_document st0 st : store_ok st -> objects st0 = ∅ -> metadata st0 = ∅ ->
  durable (load_value st0 (document st)) = durable st.
Proof.
  intros Hs E1 E2. unfold load_value, document.
  set (o := string_keys hex_encode (objects st)). set (m := string_keys hex_encode (metadata st)).
  set (c := list_to_map _). set (r := scp_required st). set (p := platform_scp st).
  pose proof (doc_objects o m c r p) as Ho. pose proof (doc_metadata o m c r p) as Hm.
  pose proof (doc_curves o m c r p) as Hc. pose proof (doc_scp_required o m c r p) as Hr.
  pose proof (doc_platform_scp o m c r p) as Hp.
  set (doc := json_doc _ _ _ _ _) in *.
  destruct Ho as (vo & -> & Evo). destruct Hm as (vm & lm & -> & Elm & Nm & Im).
  destruct Hc as (vc & lc & -> & Elc & Nc & Ic). destruct Hr as (vr & -> & Er). destruct Hp as (vp & -> & Ep).
  cbn [opt_bind]. rewrite Er, Ep, Elm, Elc. cbv zeta. rewrite Evo.
  unfold durable. cbn [objects metadata ec_curves scp_required platform_scp set_objects set_metadata set_ec_curves set_platform set_required default].
  rewrite E1, E2, load_objects_fold, load_metadata_fold, load_curves_fold.
  assert (Hid : forall j, is_Some (objects st !! j) -> decode_id (hex_encode j) = Some j).
  { intros j [ob Hj]. apply decode_encode_id. apply (so_objects _ Hs _ _ Hj). }
  assert (Hd : forall j, is_Some (metadata st !! j) -> is_Some (objects st !! j)).
  { intros j. rewrite <- !elem_of_dom. apply (so_dom _ Hs). }
  repeat f_equal.
  - apply (fold_load_spec hex_encode); [done|apply NoDup_fst_map_to_list|].
    intros k x. by rewrite elem_of_map_to_list.
  - apply (fold_load_spec hex_encode); [auto|by apply parsed_nodup|].
    intros k x. rewrite parsed_in. apply Im.
  - pose proof (aux_curves _ (so_aux _ Hs)) as Hu.
    apply (fold_load_spec format_02x); [|by apply parsed_nodup|].
    + intros j [x Hj]. apply hex_roundtrip, (Hu _ _ Hj).
    + assert (Hx : forall k y, c !! k = Some y -> as_u8 y = y).
      { intros k y Hy. apply elem_of_list_to_map_2 in Hy. apply list_elem_of_fmap in Hy as ([j z] & E & Hj).
        injection E as -> ->. apply elem_of_map_to_list in Hj. apply Hu in Hj as [_ Hj]. apply Z.mod_small, Hj. }
      intros k x. rewrite parsed_in. change (list_to_map (encoded format_02x (map_to_list (ec_curves st)))) with c. split.
      * intros Hk. pose proof (Hx _ _ Hk) as Ex. apply Ic in Hk as (w & Hin & Ew). exists w. rewrite Ew. cbn. by rewrite Ex.
      * intros (w & Hin & Ew). destruct (as_u64 w) as [y|] eqn:Ey; [|done]. injection Ew as <-.
        assert (Hk : c !! k = Some y) by (apply Ic; by exists w). by rewrite (Hx _ _ Hk).
Qed.
End document.

(** ** What a command does to the file *)

Section survives.
Context `{C : Se050Crates} {CO : Se050CratesOk C} {S : Serde} {SO : SerdeOk S} {F : FileSystem Value}
  {FO : FileSystemOk F} {I : HashIter} {IO : HashIterOk}.

(** The file system refused the last document. *)
Definition refused (st : ObjectStore) : Prop :=
  exists p e, persist_path st = Some p /\ fs_write (disk st) p (document st) = Err e.

(** Nothing durable changed, or the file was written last, or writing it failed. *)
Definition kept (st st' : ObjectStore) : Prop :=
  persist_path st' = persist_path st /\
  ((durable st' = durable st /\ disk st' = disk st) \/
   (forall p, persist_path st = Some p -> fs_read (disk st') p = Some (Ok (document st'))) \/
   refused st').

Lemma kept_refl st : kept st st.
Proof. split; [done|by left]. Qed.

Lemma refused_same st st' : persist_path st' = persist_path st -> durable st' = durable st -> disk st' = disk st ->
  refused st -> refused st'.
Proof. intros Hp Hd Hf (p & e & H1 & H2). exists p, e. by rewrite Hp, Hf, (document_durable _ _ Hd). Qed.

Lemma kept_trans st1 st2 st3 : kept st1 st2 -> kept st2 st3 -> kept st1 st3.
Proof.
  intros [P1 K1] [P2 K2]. split; [congruence|]. destruct K2 as [[D2 F2]|[W2|R2]]; [|right; left|by right; right].
  - destruct K1 as [[D1 F1]|[W1|R1]]; [left; split; congruence|right; left|].
    + intros p Hp. rewrite F2, (document_durable _ _ D2). by apply W1.
    + right. right. by apply (refused_same st2).
  - intros p Hp. apply W2. congruence.
Qed.

Lemma path_persist st : persist_path (persist st) = persist_path st.
Proof. apply persist_fields. Qed.

Lemma kept_persist st x : persist_path x = persist_path st -> kept st (persist x).
Proof.
  intros Hp. split; [by rewrite path_persist|]. right. unfold persist.
  destruct (persist_path x) as [p|] eqn:Ex; [|left; intros p; congruence].
  destruct (fs_write (disk x) p (document x)) as [f|e] eqn:Ef.
  - left. intros q Hq. assert (q = p) as -> by congruence. by eapply fs_read_write.
  - right. by exists p, e.
Qed.

Lemma kept_insert st x id o : kept st x -> kept st (insert x id o).
Proof. intros [Hp _]. by apply kept_persist. Qed.
Lemma kept_creation st x id p o : kept st x -> kept st (set_creation_metadata x id p o).
Proof. intros [Hp _]. by apply kept_persist. Qed.
Lemma kept_remove st id : kept st (fst (remove st id)).
Proof.
  unfold remove. destruct (objects st !! id) eqn:E; cbn; [by apply kept_persist|].
  split; [done|]. left. split; [|done]. unfold durable. cbn. by rewrite delete_id.
Qed.
Lemma kept_same st x : persist_path x = persist_path st -> durable x = durable st -> disk x = disk st -> kept st x.
Proof. intros Hp Hd Hf. split; [done|by left]. Qed.
Lemma kept_curve_delete st i : kept st (fst (curve_delete st i)).
Proof. unfold curve_delete. destruct (ec_curves st !! i); cbn; [by apply kept_persist|apply kept_refl]. Qed.
Lemma kept_add_param st i x : kept st (curve_add_param st i x).
Proof. unfold curve_add_param. destruct (ec_curves st !! i); [by apply kept_persist|apply kept_refl]. Qed.

Ltac kept_tac :=
  cbn [fst snd] in *;
  repeat match goal with
  | |- kept _ (if ?b then _ else _) => destruct b
  | |- kept _ (insert _ _ _) => apply kept_insert
  | |- kept _ (set_creation_metadata _ _ _ _) => apply kept_creation
  end;
  first
    [ assumption
    | apply kept_refl
    | apply kept_add_param
    | apply kept_same; reflexivity
    | apply kept_persist; reflexivity
    | match goal with
      | E : remove ?st ?id = (?s, _) |- kept _ ?s => pose proof (kept_remove st id) as Hk; by rewrite E in Hk
      | E : curve_delete ?st ?i = (?s, _) |- kept _ ?s => pose proof (kept_curve_delete st i) as Hk; by rewrite E in Hk
      end ].
Ltac k_run := repeat (wlp_step; cbv beta); kept_tac.

Definition kept1 (st : ObjectStore) (out : ObjectStore * ApduResponse) : Prop := kept st (fst out).
Definition kept3 (st : ObjectStore) (out : ObjectStore * rng * ApduResponse) : Prop := kept st (fst (fst out)).

Lemma kept_write apdu st : wlp (object_mgmt.handle_write apdu st) (kept1 st).
Proof.
  unfold object_mgmt.handle_write, object_mgmt.handle_write_binary, object_mgmt.handle_write_counter, kept1. k_run.
Qed.
Lemma kept_mgmt apdu st : wlp (object_mgmt.handle_mgmt apdu st) (kept1 st).
Proof. unfold object_mgmt.handle_mgmt, object_mgmt.handle_delete, kept1. k_run. Qed.
Lemma kept_crypto_create apdu st : wlp (crypto_obj.handle_create apdu st) (kept1 st).
Proof. unfold crypto_obj.handle_create, kept1. k_run. Qed.
Lemma kept_crypto_delete apdu st : wlp (crypto_obj.handle_delete apdu st) (kept1 st).
Proof. unfold crypto_obj.handle_delete, kept1. k_run. Qed.
Lemma kept_curve_create apdu st v : wlp (curve.handle_create apdu st v) (kept1 st).
Proof. unfold curve.handle_create, kept1. k_run. Qed.
Lemma kept_curve_param apdu st : wlp (curve.handle_set_param apdu st) (kept1 st).
Proof. unfold curve.handle_set_param, kept1. k_run. Qed.
Lemma kept_curve_deletes apdu st : wlp (curve.handle_delete apdu st) (kept1 st).
Proof. unfold curve.handle_delete, kept1. k_run. Qed.
Lemma kept_aes apdu st r : wlp (aes.handle_write_aes_key apdu st r) (kept3 st).
Proof. unfold aes.handle_write_aes_key, kept3. k_run. Qed.
Lemma kept_hmac apdu st : wlp (aes.handle_write_hmac_key apdu st) (kept1 st).
Proof. unfold aes.handle_write_hmac_key, kept1. k_run. Qed.
Lemma kept_rsa apdu st r v : wlp (rsa.handle_write_rsa_key apdu st r v) (kept3 st).
Proof.
  unfold rsa.handle_write_rsa_key, rsa.rsa_keygen, rsa.rsa_import, kept3.
  repeat (wlp_step; cbv beta); cbn [fst snd] in *; repeat case_match; simplify_eq; kept_tac.
Qed.

Lemma kept_write_key apdu ts cv id st r : wlp (ec.write_key apdu ts cv id st r) (kept3 st).
Proof.
  unfold ec.write_key, kept3. wlp_step; cbv beta.
  - destruct cv; unfold ec.generate_p192_keypair, ec.generate_p224_keypair, ec.generate_p256_keypair,
      ec.generate_p384_keypair, ec.generate_p521_keypair, ec.generate_keypair, ec.generate_ed25519_keypair,
      ec.generate_x25519_keypair; case_match; by apply wlp_ret, kept_insert, kept_refl.
  - unfold ec.import_ec_key. k_run.
Qed.
Lemma kept_ec apdu st r v : wlp (ec.handle_write_ec_key apdu st r v) (kept3 st).
Proof.
  unfold ec.handle_write_ec_key, kept3.
  repeat lazymatch goal with
  | |- wlp (rbind (ec.write_key _ _ _ _ _ _) _) _ =>
      apply wlp_bind; eapply wlp_mono; [apply kept_write_key|]; intros [[? ?] ?] Hk; unfold kept3 in Hk
  | _ => wlp_step; cbv beta
  end; kept_tac.
Qed.

Lemma kept_digest_init apdu st : wlp (digest.handle_digest_init apdu st) (kept1 st).
Proof. unfold digest.handle_digest_init, kept1. k_run. Qed.
Lemma kept_digest_update apdu st : wlp (digest.handle_digest_update apdu st) (kept1 st).
Proof. unfold digest.handle_digest_update, kept1. k_run. Qed.
Lemma kept_digest_final apdu st : wlp (digest.handle_digest_final apdu st) (kept1 st).
Proof. unfold digest.handle_digest_final, kept1. k_run. Qed.
Lemma kept_cipher_init apdu st : wlp (aes.handle_cipher_init apdu st) (kept1 st).
Proof. unfold aes.handle_cipher_init, kept1. k_run. Qed.
Lemma kept_cipher_update apdu st : wlp (aes.handle_cipher_update apdu st) (kept1 st).
Proof. unfold aes.handle_cipher_update, kept1. k_run. Qed.
Lemma kept_cipher_final apdu st : wlp (aes.handle_cipher_final apdu st) (kept1 st).
Proof. unfold aes.handle_cipher_final, kept1. k_run. Qed.
Lemma kept_mac_init apdu st v : wlp (mac.handle_init apdu st v) (kept1 st).
Proof. unfold mac.handle_init, kept1. k_run. Qed.
Lemma kept_mac_update apdu st : wlp (mac.handle_update apdu st) (kept1 st).
Proof. unfold mac.handle_update, kept1. k_run. Qed.
Lemma kept_mac_final apdu st : wlp (mac.handle_final apdu st) (kept1 st).
Proof. unfold mac.handle_final, kept1. k_run. Qed.
Lemma kept_ecdh apdu st s : wlp (ec.handle_ecdh apdu st s) (kept1 st).
Proof. unfold ec.handle_ecdh, kept1. k_run. Qed.
Lemma kept_management apdu st r v : wlp (management.handle apdu st r v) (kept3 st).
Proof.
  unfold management.handle, management.handle_delete_all, kept3. k_run.
Qed.
Lemma kept_set_scp apdu st a : wlp (management.handle_set_platform_scp apdu st a) (kept1 st).
Proof. unfold management.handle_set_platform_scp, kept1. k_run. Qed.

(** ** The dispatcher and the responder *)

Lemma kept_answer st r m : wlp (answer st r m) (kept3 st).
Proof. unfold answer, kept3. k_run. Qed.
Lemma kept_with_rng st m : wlp (with_rng st m) (kept3 st).
Proof. unfold with_rng, kept3. k_run. Qed.
Lemma kept_with_store st r m : wlp m (kept1 st) -> wlp (with_store r m) (kept3 st).
Proof. intros Hm. apply wlp_bind. eapply wlp_mono; [exact Hm|]. intros [st' resp] Hk. exact Hk. Qed.
Lemma kept_ret st r resp : wlp (Ret (st, r, resp)) (kept3 st).
Proof. apply wlp_ret, kept_refl. Qed.

Create HintDb kept discriminated.
#[local] Hint Resolve kept_answer kept_with_rng kept_with_store kept_ret kept_write kept_mgmt kept_crypto_create
  kept_crypto_delete kept_curve_create kept_curve_param kept_curve_deletes kept_aes kept_hmac kept_rsa kept_ec
  kept_digest_init kept_digest_update kept_digest_final kept_cipher_init kept_cipher_update kept_cipher_final
  kept_mac_init kept_mac_update kept_mac_final kept_ecdh kept_management kept_set_scp : kept.

Ltac k_dispatch := cbv zeta beta; repeat match goal with |- wlp (if ?b then _ else _) _ => destruct b end; auto with kept.

Lemma kept_dispatch e apdu st r act : wlp (dispatch e apdu st r act) (kept3 st).
Proof.
  unfold dispatch. cbv zeta. wlp_step; [auto with kept|]. wlp_step; [auto with kept|].
  wlp_step; [unfold dispatch_write; k_dispatch|]. wlp_step; [auto with kept|].
  wlp_step; [unfold dispatch_crypto; k_dispatch|]. wlp_step; [unfold dispatch_mgmt; k_dispatch|auto with kept].
Qed.

Definition kept_t1 {B} (st : ObjectStore) (out : T1Responder * ObjectStore * rng * B) : Prop :=
  kept st (snd (fst (fst out))).

Lemma kept_plain e t st r raw : wlp (plain_apdu e t st r raw) (kept_t1 st).
Proof.
  unfold plain_apdu. apply wlp_bind, wlp_any. intros [a|] _; [|by apply wlp_ret, kept_refl].
  apply wlp_bind. eapply wlp_mono; [apply kept_dispatch|]. intros [[st' r'] resp] Hk. exact Hk.
Qed.

Lemma kept_put_key e t st a : wlp (put_key e t st a) (kept1 st).
Proof. unfold put_key, kept1. k_run. Qed.

Lemma kept_secure e t st r raw : wlp (secure_command e t st r raw) (kept_t1 st).
Proof.
  unfold secure_command. destruct (scp03 t); try by apply wlp_ret, kept_refl.
  apply wlp_bind, wlp_any. intros [s' [a|sw]] _; [|by apply wlp_ret, kept_refl].
  apply wlp_bind. apply (wlp_mono _ (kept3 st)).
  - wlp_step; [|apply kept_dispatch]. apply wlp_bind. eapply wlp_mono; [apply kept_put_key|].
    intros [st' resp] Hk. exact Hk.
  - intros [[st' r'] resp] Hk. apply wlp_bind, wlp_any. intros [s2 resp2] _. exact Hk.
Qed.

Lemma kept_apdu e t st r raw : wlp (process_apdu e t st r raw) (kept_t1 st).
Proof.
  unfold process_apdu. wlp_step; [|apply kept_plain].
  apply wlp_bind, wlp_any. intros c _. apply wlp_bind, wlp_any. intros i _. apply wlp_bind, wlp_any. intros t1 _.
  wlp_step.
  { apply wlp_bind, wlp_any. intros [a|err] _; [|by apply wlp_ret, kept_refl]. cbv zeta.
    apply wlp_bind, wlp_any. intros [[scp r'] resp] _. apply wlp_ret, kept_refl. }
  wlp_step; [apply wlp_bind, wlp_any; intros [scp resp] _; apply wlp_ret, kept_refl|].
  wlp_step; [apply kept_secure|]. wlp_step; [apply wlp_ret, kept_refl|].
  wlp_step; [apply wlp_ret, kept_refl|apply kept_plain].
Qed.

Lemma kept_frame e t st r d : wlp (process_frame e t st r d) (kept_t1 st).
Proof.
  unfold process_frame. apply wlp_bind, wlp_any. intros [f|] _; [|by apply wlp_ret, kept_refl].
  destruct (frame_type f) as [q m|q err|code []]; try by apply wlp_ret, kept_refl.
  - unfold handle_i_frame. destruct m; [by apply wlp_ret, kept_refl|]. cbv zeta. apply wlp_bind.
    eapply wlp_mono; [apply kept_apdu|]. intros [[[t2 st'] r'] resp] Hk. cbv beta zeta.
    destruct (build_response_frames _ _). exact Hk.
  - destruct (handle_s_request t code). by apply wlp_ret, kept_refl.
Qed.

(** ** Restarting *)

(** The file holds what the store would be after a restart. *)
Definition synced (p : path) (st : ObjectStore) : Prop :=
  durable (with_persistence p (disk st)) = durable st.

Lemma written_synced p st : store_ok st -> fs_read (disk st) p = Some (Ok (document st)) -> synced p st.
Proof.
  intros Hs Hr. unfold synced, with_persistence, load. cbn [persist_path disk]. rewrite Hr. by apply load_document.
Qed.

Lemma kept_synced p st st' : persist_path st = Some p -> synced p st \/ refused st -> store_ok st' -> kept st st' ->
  synced p st' \/ refused st'.
Proof.
  intros Hp Hy Hs [Hp' [[Hd Hf]|[Hw|Hr]]]; [|left; by apply written_synced; [|apply Hw]|by right].
  destruct Hy as [Hy|Hr]; [left|right; by apply (refused_same st)].
  unfold synced in *. by rewrite Hf, Hy, Hd.
Qed.

(** Frames written to the mock bus one after the other. *)
Fixpoint i2c_writes (e : Env) (sim : Se050Simulator) (r : rng) (frames : list bytes) : res (Se050Simulator * rng) :=
  match frames with
  | [] => Ret (sim, r)
  | d :: frames => let! '(sim, r) := i2c_write e sim r d in i2c_writes e sim r frames
  end.

Lemma i2c_write_kept e sim r d sim' r' : store_ok (sim_store sim) -> t1_ok (sim_t1 sim) -> wf d ->
  i2c_write e sim r d = Ret (sim', r') ->
  store_ok (sim_store sim') /\ t1_ok (sim_t1 sim') /\ kept (sim_store sim) (sim_store sim').
Proof.
  intros Hs Ht Hd E. unfold i2c_write in E.
  pose proof (process_frame_wpp e (sim_t1 sim) (sim_store sim) r d Hs Ht Hd) as Hw.
  pose proof (kept_frame e (sim_t1 sim) (sim_store sim) r d) as Hk.
  destruct (process_frame _ _ _ _ _) as [[[[t st] r1] cs]|]; [|done]. injection E as <- <-.
  destruct Hw as (Ht' & [_ Hs'] & _). done.
Qed.

(** ** Claim *)

(** C20: A simulator that keeps its store in a file is stopped after any frames, whatever
    they asked for, and started again from the file: it has the objects, their
    policies and origins, the curves, the platform keys and the security requirement
    it had, unless the file system refused to write exactly these; only the open contexts
    and the channel are gone. *)
Theorem restart_restores e sim r p frames sim' r' :
  persist_path (sim_store sim) = Some p -> synced p (sim_store sim) ->
  store_ok (sim_store sim) -> t1_ok (sim_t1 sim) -> Forall wf frames ->
  i2c_writes e sim r frames = Ret (sim', r') ->
  let again := sim_with_persistence p (disk (sim_store sim')) in
  (durable (sim_store again) = durable (sim_store sim') \/ refused (sim_store sim')) /\
  crypto_objects (sim_store again) = ∅ /\ crypto_object_types (sim_store again) = ∅ /\
  scp03 (sim_t1 again) = Idle /\ synced p (sim_store again).
Proof.
  intros Hp Hy Hs Ht Hf E. cbv zeta. split.
  - apply (or_introl (B := refused (sim_store sim))) in Hy. revert sim r Hp Hy Hs Ht E.
    induction Hf as [|d frames Hd _ IH]; intros sim r Hp Hy Hs Ht E; [by injection E as <- <-|].
    cbn [i2c_writes] in E. destruct (i2c_write e sim r d) as [[sim1 r1]|] eqn:E1; [|done]. cbn [rbind] in E.
    destruct (i2c_write_kept _ _ _ _ _ _ Hs Ht Hd E1) as (Hs1 & Ht1 & Hk).
    apply (IH sim1 r1); [by rewrite (proj1 Hk)|by eapply kept_synced|done..].
  - assert (Hl : forall st, crypto_objects (load st) = crypto_objects st /\
      crypto_object_types (load st) = crypto_object_types st /\ disk (load st) = disk st).
    { intros st. unfold load, load_value. by repeat case_match; simplify_eq. }
    cbn [sim_with_persistence sim_store sim_t1]. unfold synced, with_persistence.
    set (st1 := mkStore ∅ ∅ (Some p) default_curves ∅ ∅ false None (disk (sim_store sim'))).
    destruct (Hl st1) as (E1 & E2 & E3). rewrite E1, E2, E3. done.
Qed.
End survives.
