(* ===== verification/Se050Access.v ===== *)
(** * SE050Sim: who may change the store, and what files and listings hold

    A card that requires its secure channel obeys authenticated commands only; a
    binary object is a memory; the listing names every object once, in order. *)

From stdpp Require Import sorting.
From S2P Require Import Prelude.
From S2P Require Import Crc.
From S2P Require Import Host.
From S2P Require Import Crates.
From S2P Require Import Se050Crates.
From S2P Require Import Se050Types.
From S2P Require Import Se050StoreFacts.
From S2P Require Import Se050Store.
From S2P Require Import Se050Handlers.
From S2P Require Import Se050ObjectMgmt.
From S2P Require Import Se050HandlersFacts.
From S2P Require Import Se050Rsa.
From S2P Require Import Se050CryptoFacts.
From S2P Require Import Se050EcFacts.
From S2P Require Import Se050Dispatch.
From S2P Require Import Se050Scp03.
From S2P Require Import Se050ChannelFacts.
From S2P Require Import Se050T1.
From S2P Require Import Se050T1Facts.
From S2P Require Import Se050Secure.
From S2P Require Import Se050Cipher.

Section access.
Context `{C : Se050Crates} {CO : Se050CratesOk C} {S : Serde} {F : FileSystem Value} {I : HashIter}
  {IO : HashIterOk}.

(** ** Authenticated commands *)

(** The eight bytes at [n] are the C-MAC of all before them, chained to the session. *)
Definition authentic (s : Session) (raw : bytes) : Prop :=
  exists n, 5 <= n /\ n + 8 <= len raw /\
    sub raw n (n + 8) = sub (chain_mac (s_mac s) (mcv s) (sub raw 0 n)) 0 8.

Lemma sub_sub {A} (l : list A) a b i j : 0 <= i -> 0 <= a -> j <= b - a -> sub (sub l a b) i j = sub l (a + i) (a + j).
Proof.
  intros Hi Ha Hj. unfold sub. rewrite skipn_firstn_comm, drop_drop, take_take. f_equal; [|f_equal]; lia.
Qed.

Lemma sub_join {A} (l : list A) a b c : 0 <= a <= b -> b <= c -> c <= len l -> sub l a b ++ sub l b c = sub l a c.
Proof.
  intros Ha Hb Hc. rewrite (sub_split (sub l a c) (b - a)) by (rewrite len_sub; lia).
  rewrite sub_sub by lia. rewrite len_sub. replace (Z.min _ _) with (c - a) by lia.
  rewrite sub_sub by lia. f_equal; f_equal; lia.
Qed.

Lemma unwrap_authentic s raw s' a : sess_ok s -> wf raw -> unwrap_command s raw = Ret (s', Ok a) -> authentic s raw.
Proof.
  intros Hs Hw. unfold unwrap_command. destruct (len raw <? 5) eqn:E0; [done|]. apply Z.ltb_ge in E0.
  destruct (idx raw 0); [|done]. destruct (idx raw 1); [|done]. destruct (idx raw 2); [|done].
  destruct (idx raw 3); [|done]. destruct (idx raw 4) as [r4|]; [|done]. cbn [rbind].
  match goal with |- rbind ?m _ = _ -> _ =>
    assert (Hh : wlp m (fun h => match h with Some (_, ds) => 5 <= ds <= len raw | None => True end)) end.
  { repeat (wlp_step; cbv beta); try done; lia. }
  destruct (if negb (r4 =? 0) then _ else _) as [[[lc ds]|]|]; [|done|done]. cbn [rbind wlp] in *.
  destruct ((lc <? 8) || (len raw <? ds + lc)) eqn:E1; [done|]. apply orb_false_iff in E1 as [E1 E2].
  apply Z.ltb_ge in E1, E2. rewrite !slice_ret by lia. cbn [rbind].
  assert (Hbl : len (sub raw ds (ds + lc)) = lc) by (rewrite len_sub; lia).
  rewrite (slice_ret (sub raw ds (ds + lc)) 0) by lia. cbn [rbind].
  rewrite (slice_ret (sub raw ds (ds + lc)) (lc - 8)) by lia. cbn [rbind].
  rewrite Hbl, !sub_sub by lia. rewrite Z.add_0_r, sub_join by lia.
  destruct (chain_mac_ok (s_mac s) (mcv s) (sub raw 0 (ds + (lc - 8))) (proj2 (se_mac _ Hs))) as (-> & Hb & _).
  cbn [rbind]. unfold block in Hb. rewrite slice_ret by lia. cbn [rbind].
  destruct (bool_decide_reflect (sub (chain_mac (s_mac s) (mcv s) (sub raw 0 (ds + (lc - 8)))) 0 8 = sub raw (ds + (lc - 8)) (ds + lc)))
    as [Em|]; [|done]. intros _. exists (ds + (lc - 8)). split; [lia|]. split; [lia|].
  rewrite Em. f_equal. lia.
Qed.

(** A command outside the two classes the applet executes leaves the store alone. *)
Lemma dispatch_other_class e apdu st r act st' r' resp : cla apdu <> 0x80 -> cla apdu <> 0x84 ->
  dispatch e apdu st r act = Ret (st', r', resp) -> st' = st.
Proof.
  intros H1 H2. unfold dispatch. cbv zeta. destruct ((cla apdu =? 0) && (ins apdu =? 0xA4)); [by intros [= <- _ _]|].
  rewrite (proj2 (Z.eqb_neq _ _) H1), (proj2 (Z.eqb_neq _ _) H2). by intros [= <- _ _].
Qed.

Lemma apdu_parse_class raw a : apdu_parse raw = Ret (Ok a) -> 4 <= len raw /\ idx raw 0 = Ret (cla a).
Proof.
  intros E. refine (wlp_inv _ (fun o => match o with Ok a => 4 <= len raw /\ idx raw 0 = Ret (cla a) | Err _ => True end) _ _ E).
  unfold apdu_parse. wlp_run; try done; split; try done; lia.
Qed.

Lemma plain_other_class e t st r raw t' st' r' resp :
  (4 <= len raw -> idx raw 0 = Ret 0x80 -> False) -> (4 <= len raw -> idx raw 0 = Ret 0x84 -> False) ->
  plain_apdu e t st r raw = Ret (t', st', r', resp) -> st' = st.
Proof.
  intros H1 H2. unfold plain_apdu. destruct (apdu_parse raw) as [[a|err]|] eqn:Ep; [|by intros [= _ <- _ _]|done].
  cbn [rbind]. destruct (apdu_parse_class _ _ Ep) as [Hl Hi].
  destruct (dispatch e a st r false) as [[[st1 r1] resp1]|] eqn:Ed; [|done]. intros [= <- <- <- <-].
  eapply dispatch_other_class; [| |exact Ed]; intros Ec; rewrite Ec in Hi; auto.
Qed.

(** C8: Once the platform requires its secure channel, or while a channel is open, no
    bytes change anything in the store unless they are a command of the open channel
    whose MAC, chained to the commands before it, verifies under the session key. *)
Theorem only_authentic_commands_write e t st r raw t' st' r' resp :
  store_ok st -> t1_ok t -> wf raw -> scp_required st = true \/ is_active (scp03 t) = true ->
  process_apdu e t st r raw = Ret (t', st', r', resp) ->
  st' = st \/ exists s, scp03 t = Active s /\ authentic s raw.
Proof.
  intros Hs Ht Hw Hreq. unfold process_apdu. destruct (Z.leb_spec 4 (len raw)) as [Hl|Hl].
  2:{ intros E. left. eapply plain_other_class; [| |exact E]; lia. }
  destruct (idx raw 0) as [c|] eqn:Ec; [|done]. destruct (idx raw 1) as [i|] eqn:Ei; [|done]. cbn [rbind].
  destruct (if (c =? 0) && (i =? 0xA4) then _ else _) as [t1|] eqn:Et; [|done]. cbn [rbind].
  assert (Ht1 : c <> 0 -> t1 = t).
  { intros Hc. rewrite (proj2 (Z.eqb_neq _ _) Hc) in Et. by injection Et. }
  destruct ((c =? 0x80) && (i =? 0x50)).
  { destruct (apdu_parse raw) as [[a|err]|]; [|by intros [= _ <- _ _]; left|done]. cbn [rbind].
    destruct (initialize_update_with_config _ _ _ _ _) as [[[? ?] ?]|]; [|done]. intros [= _ <- _ _]. by left. }
  destruct (_ && _ && _).
  { destruct (external_authenticate _ _) as [[? ?]|]; [|done]. intros [= _ <- _ _]. by left. }
  destruct (negb (Z.land c 4 =? 0)) eqn:Es.
  { assert (Hc : c <> 0) by (by intros ->). rewrite (Ht1 Hc). unfold secure_command.
    destruct (scp03 t) as [|p|s] eqn:Esc; [by intros [= _ <- _ _]; left|by intros [= _ <- _ _]; left|].
    destruct (unwrap_command s raw) as [[s1 [a|sw]]|] eqn:Eu; [|by intros [= _ <- _ _]; left|done].
    intros _. right. exists s. split; [done|]. eapply unwrap_authentic; [|done|exact Eu].
    destruct Ht as (_ & _ & _ & _ & Hsc). by rewrite Esc in Hsc. }
  destruct ((c =? 0x80) && is_active (scp03 t1)) eqn:E1; [by intros [= _ <- _ _]; left|].
  destruct ((c =? 0x80) && scp_required st) eqn:E2; [by intros [= _ <- _ _]; left|].
  intros E. left. eapply plain_other_class; [| |exact E]; intros _ Hc; rewrite Ec in Hc; injection Hc as ->.
  - rewrite Ht1 in E1 by done. cbn [Z.eqb Pos.eqb andb] in *. destruct Hreq; congruence.
  - done.
Qed.

(** ** Frames with an error *)

Lemma idx_changed {A} (l k : list A) b b' i : len l <> i -> idx (l ++ b' :: k) i = idx (l ++ b :: k) i.
Proof.
  intros Hne. destruct (Z.lt_ge_cases i (len l)).
  - by rewrite !idx_app_l.
  - rewrite !idx_app_r by lia. by rewrite !idx_S by lia.
Qed.

Lemma frame_len_byte f rest : idx (frame_bytes f ++ rest) 2 = Ret (as_u8 (len (t1_payload f))).
Proof. reflexivity. Qed.

(** C19: One changed byte of a frame, anywhere but in its length field: the frame is
    dropped and neither the card nor the channel notices it. *)
Theorem corrupted_t1_frame_ignored e t st r f l b b' k :
  frame_ok f -> frame_bytes f = l ++ b :: k -> u8 b' -> b <> b' -> len l <> 2 ->
  process_frame e t st r (l ++ b' :: k) = Ret (t, st, r, []).
Proof.
  intros Hf Hl Hb' Hne Hpos. pose proof (wf_frame_bytes f Hf) as Hw. rewrite Hl in Hw.
  assert (Hw' : wf (l ++ b' :: k)).
  { apply wf_app_inv in Hw as [? [_ ?]%wf_cons_inv]. auto with wfdb. }
  pose proof (parse_frame_ok _ Hw') as Hp. unfold process_frame.
  destruct (parse_frame (l ++ b' :: k)) as [[f'|]|] eqn:E; [exfalso|done|done]. apply Hne.
  apply parse_frame_inv in E as [Hf' [rest E]]; [|done].
  pose proof (frame_len_byte f' rest) as H1. pose proof (frame_len_byte f []) as H2.
  rewrite app_nil_r, Hl in H2. rewrite <- E, (idx_changed l k b b' 2 Hpos), H2 in H1. injection H1 as Hlen.
  assert (Hn : len (t1_payload f) = len (t1_payload f')).
  { destruct Hf as (_ & _ & _ & ?), Hf' as (_ & _ & _ & ?).
    pose proof (len_nonneg (t1_payload f)). pose proof (len_nonneg (t1_payload f')).
    unfold as_u8 in Hlen. rewrite !Z.mod_small in Hlen; lia. }
  assert (Hbody : len (frame_body f) = len (frame_body f')) by (rewrite !len_frame_body; lia).
  rewrite frame_bytes_eq in Hl, E by done.
  assert (Hr : rest = []).
  { apply (f_equal len) in Hl, E. rewrite !len_app, !len_cons, ?len_le_bytes in *. destruct rest; [done|].
    rewrite len_cons in E. pose proof (len_nonneg rest). lia. }
  subst rest. rewrite app_nil_r in E. pose proof (wf_frame_body f Hf). pose proof (wf_frame_body f' Hf').
  rewrite crc_x25_eq in Hl, E by done.
  eapply (crc_trailer_detects StsafeCrc.crc16_x25 (le_bytes 2) l k (frame_body f) (frame_body f'));
    eauto using le_bytes2_inj, u16_stsafe_crc, stsafe_crc_single_byte.
  unfold len in Hbody. lia.
Qed.

(** ** Binary objects *)

Definition write_binary_cmd (id : bytes) (off : Z) (x : bytes) : ParsedApdu :=
  cmd INS_WRITE P1_BINARY P2_DEFAULT [mkTlv TAG_1 id; mkTlv TAG_2 (be_bytes 2 off); mkTlv TAG_4 x].
Definition read_binary_cmd (id : bytes) (off n : Z) : ParsedApdu :=
  cmd INS_READ P1_DEFAULT P2_DEFAULT [mkTlv TAG_1 id; mkTlv TAG_2 (be_bytes 2 off); mkTlv TAG_3 (be_bytes 2 n)].

Lemma write_binary_run e act st r id d off x :
  id_ok id -> get st id = Some (Binary d) -> u16 off -> wf x -> len x < 65536 ->
  dispatch e (write_binary_cmd id off x) st r act =
    Ret (if negb (policy_allows st id POLICY_OBJ_ALLOW_WRITE) then (st, r, error SW_CONDITIONS_NOT_SATISFIED)
         else if len d <? off + len x then (st, r, error SW_WRONG_DATA)
         else (insert st id (Binary (sub d 0 off ++ x ++ sub d (off + len x) (len d))), r, success)).
Proof.
  intros [Hid Hwi] Hg Ho Hx Hxl. pose proof (len_nonneg x). unfold u16 in *.
  assert (Hb : forall z, len (be_bytes 2 z) < 65536) by (intros; by rewrite len_be_bytes).
  assert (Hli : len id < 65536) by lia.
  assert (Hts : Forall tlv_ok [mkTlv TAG_1 id; mkTlv TAG_2 (be_bytes 2 off); mkTlv TAG_4 x]) by tlvs_ok.
  change (dispatch e (write_binary_cmd id off x) st r act) with
    (with_store r (object_mgmt.handle_write_binary (write_binary_cmd id off x) st)).
  unfold object_mgmt.handle_write_binary, write_binary_cmd. rewrite parse_cmd by done. cbn [rbind].
  assert (Hargs : foldl object_mgmt.write_arg (object_mgmt.mkWriteArgs None None 0 None)
    [mkTlv TAG_1 id; mkTlv TAG_2 (be_bytes 2 off); mkTlv TAG_4 x] = object_mgmt.mkWriteArgs (Some id) (Some x) off None).
  { cbn [foldl].
    assert (E1 : object_mgmt.write_arg (object_mgmt.mkWriteArgs None None 0 None) (mkTlv TAG_1 id)
      = object_mgmt.mkWriteArgs (Some id) None 0 None) by (unfold object_mgmt.write_arg; cbn [tag value]; by rewrite Hid).
    assert (E2 : object_mgmt.write_arg (object_mgmt.mkWriteArgs (Some id) None 0 None) (mkTlv TAG_2 (be_bytes 2 off))
      = object_mgmt.mkWriteArgs (Some id) None off None).
    { unfold object_mgmt.write_arg. cbn [tag value]. change (if TAG_2 =? TAG_2 then ?x else _) with x.
      by rewrite be16_bytes. }
    by rewrite E1, E2. }
  rewrite Hargs. cbn [object_mgmt.wa_obj_id object_mgmt.wa_data object_mgmt.wa_offset default]. cbv beta iota zeta.
  change (creation_policy _) with (@Ok (option bytes) InvalidPolicy None). cbv iota.
  assert (He : exists_ st id = true) by (apply exists_true; by exists (Binary d)). rewrite He, Hg. cbn [andb default].
  change (Datatypes.id x) with x.
  destruct (negb _); [done|]. destruct (Z.ltb_spec (len d) (off + len x)); [done|].
  unfold copy_from_slice. rewrite bool_decide_true by lia. cbn [rbind].
  assert (Es : splice d off x = sub d 0 off ++ x ++ sub d (off + len x) (len d)).
  { unfold splice, sub. rewrite drop_0, Z.sub_0_r. f_equal. f_equal.
    rewrite take_ge by (rewrite length_drop; unfold len in *; lia). f_equal. unfold len in *. lia. }
  by rewrite Es.
Qed.

Lemma read_binary_run e act st r id d a n :
  id_ok id -> get st id = Some (Binary d) -> u16 a -> u16 n ->
  dispatch e (read_binary_cmd id a n) st r act =
    Ret (st, r, if negb (policy_allows st id POLICY_OBJ_ALLOW_READ) then error SW_COMMAND_NOT_ALLOWED
                else if (len d <=? a) || (len d <? a + n) then error SW_CONDITIONS_NOT_SATISFIED
                else tag1 (sub d a (a + n))).
Proof.
  intros [Hid Hwi] Hg Ha Hn. unfold u16 in *.
  assert (Hb : forall z, len (be_bytes 2 z) < 65536) by (intros; by rewrite len_be_bytes).
  assert (Hli : len id < 65536) by lia.
  assert (Hts : Forall tlv_ok [mkTlv TAG_1 id; mkTlv TAG_2 (be_bytes 2 a); mkTlv TAG_3 (be_bytes 2 n)]) by tlvs_ok.
  change (dispatch e (read_binary_cmd id a n) st r act) with (answer st r
    (let! is_rsa_read := has_tag4 (read_binary_cmd id a n) in
     if is_rsa_read then rsa.read_rsa (read_binary_cmd id a n) st
     else object_mgmt.handle_read_object (read_binary_cmd id a n) st)).
  unfold has_tag4, object_mgmt.handle_read_object, read_binary_cmd. rewrite parse_cmd by done. cbn [rbind].
  change (bool_decide _) with false. cbv iota. unfold object_mgmt.extract_object_id.
  change (find_tlv _ TAG_1) with (Some (mkTlv TAG_1 id)). cbn [value]. rewrite Hid. cbn [Z.eqb Pos.eqb negb].
  change (tlv_u16 _ TAG_2) with (be16 (be_bytes 2 a)). change (tlv_u16 _ TAG_3) with (be16 (be_bytes 2 n)).
  rewrite !be16_bytes, Hg by done. change (default 0 (Some a)) with a. cbv zeta. destruct (negb _); [done|].
  destruct ((len d <=? a) || (len d <? a + n)) eqn:E; [done|]. apply orb_false_iff in E as [E1 E2].
  apply Z.leb_gt in E1. apply Z.ltb_ge in E2. by rewrite slice_ret by lia.
Qed.

(** An existing binary object is a memory of fixed size.  A write its policy allows
    and that fits replaces exactly the addressed bytes, any other changes nothing; a
    read its policy allows returns the addressed bytes or refuses. *)
Theorem binary_object_is_memory e act st r id d off x a n :
  id_ok id -> get st id = Some (Binary d) -> u16 off -> wf x -> len x < 65536 -> u16 a -> u16 n ->
  dispatch e (write_binary_cmd id off x) st r act =
    Ret (if negb (policy_allows st id POLICY_OBJ_ALLOW_WRITE) then (st, r, error SW_CONDITIONS_NOT_SATISFIED)
         else if len d <? off + len x then (st, r, error SW_WRONG_DATA)
         else (insert st id (Binary (sub d 0 off ++ x ++ sub d (off + len x) (len d))), r, success)) /\
  dispatch e (read_binary_cmd id a n) st r act =
    Ret (st, r, if negb (policy_allows st id POLICY_OBJ_ALLOW_READ) then error SW_COMMAND_NOT_ALLOWED
                else if (len d <=? a) || (len d <? a + n) then error SW_CONDITIONS_NOT_SATISFIED
                else tag1 (sub d a (a + n))).
Proof. intros. split; [by apply write_binary_run|by apply read_binary_run]. Qed.

(** ** The listing *)

Definition list_cmd (off filter : Z) : ParsedApdu :=
  cmd INS_READ P1_DEFAULT P2_LIST [mkTlv TAG_1 (be_bytes 2 off); mkTlv TAG_2 [filter]].

Lemma bytes_le_total a b : object_mgmt.bytes_le a b = true \/ object_mgmt.bytes_le b a = true.
Proof.
  revert b. induction a as [|x a IH]; intros [|y b]; cbn; auto.
  destruct (Z.ltb_spec x y), (Z.ltb_spec y x); auto; try lia.
  assert (x = y) as -> by lia. rewrite Z.eqb_refl. apply IH.
Qed.
#[local] Instance id_le_total : Total object_mgmt.id_le.
Proof. intros a b. apply bytes_le_total. Qed.

Lemma list_ids_nodup st : NoDup (list_ids st).
Proof. unfold list_ids. rewrite (iter_objects_perm (objects st)). apply NoDup_fst_map_to_list. Qed.

(** The listing is one sequence: every object of the store once, in ascending order of
    identifiers.  A request answers with those after its offset that its type filter
    admits. *)
Theorem listing_complete e act st r off filter :
  u16 off -> u8 filter ->
  exists ids, Sorted object_mgmt.id_le ids /\ NoDup ids /\ (forall id, id ∈ ids <-> is_Some (get st id)) /\
    dispatch e (list_cmd off filter) st r act =
      Ret (st, r, success_with_tlvs [mkTlv TAG_1 [0x01]; mkTlv TAG_2 (concat (List.filter
        (fun id => (filter =? 0xFF) || (filter =? 0x00) ||
           match get st id with Some o => type_code o (is_v7 (applet_from_env e)) =? filter | None => false end)
        (drop (Z.to_nat off) ids)))]).
Proof.
  intros Ho Hf. exists (object_mgmt.sort_ids (list_ids st)). split; [apply Sorted_merge_sort; apply _|].
  split; [rewrite sort_ids_perm; apply list_ids_nodup|].
  split; [intros id; rewrite sort_ids_perm; apply list_ids_spec|].
  assert (Hts : Forall tlv_ok [mkTlv TAG_1 (be_bytes 2 off); mkTlv TAG_2 [filter]]).
  { assert (Hb : len (be_bytes 2 off) < 65536) by by rewrite len_be_bytes. tlvs_ok. }
  change (dispatch e (list_cmd off filter) st r act) with
    (answer st r (let! is_rsa_read := Ret false in
       if is_rsa_read : bool then rsa.read_rsa (list_cmd off filter) st
       else object_mgmt.handle_read_id_list (list_cmd off filter) st (is_v7 (applet_from_env e)))).
  cbn [rbind]. unfold object_mgmt.handle_read_id_list, list_cmd. rewrite parse_cmd by done. cbn [rbind].
  change (tlv_u16 _ TAG_1) with (be16 (be_bytes 2 off)). rewrite be16_bytes by done. done.
Qed.
End access.
