(* ===== verification/Se050Toy.v ===== *)
(** * SE050Sim: a concrete instance of the third-party crates

    Small executable functions that satisfy every law of [Se050CratesOk], [SerdeOk]
    and [HashIterOk].  They are not cryptography: they show that the laws are
    consistent and let the examples evaluate. *)

From Stdlib Require Import Ascii.
From S2P Require Import Prelude.
From S2P Require Import Crc.
From S2P Require Import Host.
From S2P Require Import Crates.
From S2P Require Import ToyCrates.
From S2P Require Import Se050Crates.
From S2P Require Import Se050Types.
From S2P Require Import Se050Store.

(** ** AES, CMAC, digests *)

Definition shift_block (f : Z -> Z) (b : bytes) : bytes := (fun x => as_u8 (f x)) <$> b.
Definition key_byte (key : bytes) : Z := default 0 (head key).

Definition se_aes : AesCrate := {|
  aes_t := bytes;
  aes_new_from_slice n key := if len key =? n then Some key else None;
  aes_encrypt_block k := shift_block (fun x => x + key_byte k);
  aes_decrypt_block k := shift_block (fun x => x - key_byte k);
  cmac_t := bytes;
  cmac_new_from_slice n key := if len key =? n then Some key else None;
  cmac_update := app;
  cmac_finalize := ToyCrates.digest 16;
|}.

Lemma wf_shift_block f b : wf (shift_block f b).
Proof. apply Forall_fmap, Forall_true. intros. apply u8_as_u8. Qed.
Lemma len_shift_block f b : len (shift_block f b) = len b.
Proof. apply len_fmap. Qed.

Lemma se_aes_ok : @AesCrateOk se_aes.
Proof.
  split; intros; cbn -[shift_block] in *; rewrite ?len_shift_block; try done; try apply wf_shift_block.
  - by rewrite (proj2 (Z.eqb_eq _ _)) by done.
  - unfold shift_block. rewrite <- list_fmap_compose. rewrite <- (list_fmap_id b) at 2.
    apply list_fmap_ext. intros i x Hx. eapply Forall_lookup_1 in Hx; [|exact H0]. unfold u8 in Hx.
    unfold as_u8. cbn. change (2 ^ 8) with 256. dlia.
  - by rewrite (proj2 (Z.eqb_eq _ _)) by done.
  - apply ToyCrates.digest_wf.
Qed.

Definition se_digest : DigestCrate := {|
  Se050Crates.digest h := ToyCrates.digest (hash_len h);
  simple_hmac h key m := ToyCrates.digest (hash_len h) (key ++ m);
|}.

Lemma se_digest_ok : @DigestCrateOk se_digest.
Proof. split; intros; cbn; first [apply ToyCrates.digest_wf|apply ToyCrates.digest_len; by destruct h]. Qed.

(** ** Curves: a key is one byte, a signature one parity *)

Definition parity (m : bytes) : bool := Z.odd (fold_left Z.add m 0).
Definition key_bytes (n : Z) (k : ascii) : bytes := vec_repeat 0 (n - 1) ++ [byte_of k].
Definition odd_key (k : ascii) : bool := Z.odd (byte_of k).

Definition se_curve (n : Z) : @Curve toy_rng :=
  @mkCurve toy_rng n ascii ascii bool
    (fun r : Z => (of_byte (as_u8 r), r + 1))
    (fun b => if len b =? n then Ret (of_byte <$> last b) else Panic)
    (key_bytes n)
    (fun k => k)
    (fun q => [4; byte_of q])
    (fun b => of_byte <$> (b !! 1%nat))
    (fun k m => Some (xorb (parity m) (odd_key k)))
    (fun q m g => Bool.eqb g (xorb (parity m) (odd_key q)))
    (fun g => [48; if g then 1 else 0])
    (fun b => (fun x => x =? 1) <$> (b !! 1%nat))
    (fun k q => vec_repeat (as_u8 (byte_of k * byte_of q)) n).

Lemma len_key_bytes n k : 0 < n -> len (key_bytes n k) = n.
Proof. intros. unfold key_bytes. rewrite len_app, len_vec_repeat by lia. change (len [byte_of k]) with 1. lia. Qed.

Lemma se_curve_ok n : 0 < n -> @CurveOk toy_rng (se_curve n).
Proof.
  intros Hn. split; intros; cbn -[key_bytes of_byte byte_of vec_repeat] in *.
  - rewrite H, Z.eqb_refl. by eexists.
  - by rewrite (proj2 (Z.eqb_neq _ _)).
  - rewrite len_key_bytes, Z.eqb_refl by done. unfold key_bytes. rewrite last_snoc. cbn -[of_byte byte_of].
    by rewrite of_byte_of.
  - by apply len_key_bytes.
  - pose proof (byte_of_u8 k). apply wf_app; [auto with wfdb|by apply wf_cons, wf_nil].
  - apply wf_cons; [u_solve|]. apply wf_cons; [apply byte_of_u8|apply wf_nil].
  - done.
  - by rewrite of_byte_of.
  - by eexists.
  - injection H as <-. apply Bool.eqb_reflx.
  - apply wf_cons; [u_solve|]. apply wf_cons; [destruct s; u_solve|apply wf_nil].
  - done.
  - by destruct s.
  - rewrite len_vec_repeat; lia.
  - apply wf_vec_repeat, u8_as_u8.
  - by rewrite Z.mul_comm.
Qed.

(** The two-element field: every scalar that has an inverse is one. *)
Definition se_p192_arith : @P192Arith toy_rng (se_curve 24) :=
  @Build_P192Arith toy_rng (se_curve 24) bool odd_key parity
    (fun r : Z => (Z.odd r, r + 1))
    (fun k : bool => if k then Some true else None)
    xorb andb negb
    (fun k : bool => [if k then 1 else 0])
    (fun r s : bool => if r then Some s else None).

Lemma se_p192_arith_ok : @P192ArithOk toy_rng (se_curve 24) se_p192_arith.
Proof.
  split. intros sk h k k_inv r s g; cbn. intros Hk -> -> Hg. destruct k; [|done]. injection Hk as <-.
  injection Hg as <-. apply Bool.eqb_reflx.
Qed.

(** ** Ed25519, X25519 *)

Definition se_dalek : @DalekCrate toy_rng :=
  @Build_DalekCrate toy_rng
    (fun r : Z => (vec_repeat (as_u8 r) 32, r + 1))
    (ToyCrates.digest 32)
    (fun s m => ToyCrates.digest 64 (ToyCrates.digest 32 s ++ m))
    bytes
    (fun b => if len b =? 32 then Some b else None)
    (fun vk m g => bool_decide (g = ToyCrates.digest 64 (vk ++ m)))
    (fun r : Z => (vec_repeat (as_u8 r) 32, r + 1))
    (fun s => le_bytes 32 (le_val s mod 256 ^ 32))
    (fun a b => le_bytes 32 ((le_val a * le_val b) mod 256 ^ 32)).

Lemma se_dalek_ok : @DalekCrateOk toy_rng se_dalek.
Proof.
  split; intros; cbn -[ToyCrates.digest le_bytes le_val vec_repeat Z.pow Z.modulo];
    rewrite ?ToyCrates.digest_len, ?len_le_bytes, ?len_vec_repeat by done; try done;
    try apply ToyCrates.digest_wf; try apply wf_le_bytes; try apply wf_vec_repeat, u8_as_u8.
  - eexists. split; [done|]. by apply bool_decide_eq_true.
  - assert (Hv : forall x, le_val (le_bytes 32 (x mod 256 ^ 32)) = x mod 256 ^ 32).
    { intros. apply le_val_le_bytes, Z.mod_pos_bound. done. }
    rewrite !Hv, !Zmult_mod_idemp_r. by rewrite Z.mul_comm.
Qed.

(** ** Big integers, RSA *)

Definition byte_count (x : Z) : Z := Z.log2 x / 8 + 1.

Definition se_big : BigUintCrate := {|
  from_bytes_be := be_val;
  to_bytes_be x := be_bytes (Z.to_nat (byte_count x)) x;
  big_bits x := Z.log2 x + 1;
  modpow x e n := x ^ e mod n;
|}.

Lemma byte_count_spec x : 0 <= x -> 0 < byte_count x /\ x < 256 ^ byte_count x.
Proof.
  intros Hx. unfold byte_count. pose proof (Z.log2_nonneg x) as Hl. split; [dlia|].
  destruct (decide (x = 0)) as [->|]; [done|]. pose proof (Z.log2_spec x ltac:(lia)) as [_ Hu].
  eapply Z.lt_le_trans; [exact Hu|]. change 256 with (2 ^ 8). rewrite <- Z.pow_mul_r by dlia.
  apply Z.pow_le_mono_r; dlia.
Qed.

Lemma se_big_ok : @BigUintCrateOk se_big.
Proof.
  split; intros; cbn; try done.
  - apply wf_be_bytes.
  - destruct (byte_count_spec x H) as [Hc Hl]. apply be_val_be_bytes. rewrite Z2Nat.id by lia. done.
  - rewrite len_be_bytes. assert (Z.log2 x / 8 < n).
    { destruct (decide (x = 0)) as [->|]; [done|]. apply Z.div_lt_upper_bound; [done|].
      apply Z.log2_lt_pow2; [lia|]. rewrite Z.pow_mul_r by lia. apply H. }
    unfold byte_count. pose proof (Z.log2_nonneg x). rewrite Z2Nat.id by dlia. lia.
  - replace (Z.log2 x + 1 - 1) with (Z.log2 x) by lia. rewrite Z.add_1_r. by apply Z.log2_spec.
  - pose proof (Z.log2_nonneg x). lia.
Qed.

Definition rsa_small (sc : rsa_scheme) (h : hash_alg) : bool :=
  match sc, h with Pss, Sha512 => true | _, _ => false end.
Definition se_rsa_sig (k : ascii) (m : bytes) : bytes := byte_of k :: ToyCrates.digest 127 m.

Definition se_rsa : @RsaCrate toy_rng :=
  @Build_RsaCrate toy_rng ascii ascii
    (fun n (r : Z) => (Some (of_byte (as_u8 r)), r + 1))
    (fun n e d primes => Some (of_byte (as_u8 d)))
    (fun k => Some [byte_of k])
    (fun b => of_byte <$> head b)
    (fun k => k)
    (fun n e => Some (of_byte (as_u8 n)))
    (fun q => Some [byte_of q])
    (fun q => byte_of q + 1)
    (fun q => 65537)
    (fun p q m (r : Z) => (if forallb is_u8 m then Some m else None, r + 1))
    (fun p k c => if forallb is_u8 c then Some c else None)
    (fun k c => if 0 <=? c then Some c else None)
    (fun sc h k m (r : Z) => if rsa_small sc h then Panic else Ret (se_rsa_sig k m, r + 1))
    bytes
    (fun sc s => Some s)
    (fun sc h q m g => bool_decide (g = se_rsa_sig q m)).

Lemma se_rsa_ok : @RsaCrateOk toy_rng se_rsa.
Proof.
  assert (Hb : forall k, wf [byte_of k]) by (intros; apply wf_cons; [apply byte_of_u8|apply wf_nil]).
  split; intros; cbn -[of_byte byte_of] in *.
  - injection H as <-. cbn -[of_byte byte_of]. by rewrite of_byte_of.
  - by injection H as <-.
  - by injection H as <-.
  - by injection H as <-.
  - pose proof (byte_of_u8 q) as Hq. unfold u8 in Hq. lia.
  - done.
  - injection H as H _. destruct (forallb is_u8 m) eqn:E; [|done]. injection H as <-. by apply forallb_is_u8.
  - destruct (forallb is_u8 c) eqn:E; [|done]. injection H as <-. by apply forallb_is_u8.
  - injection H as H _. destruct (forallb is_u8 m) eqn:E; [|done]. injection H as <-. by rewrite E.
  - destruct (Z.leb_spec 0 c); [|done]. by injection H as <-.
  - destruct (rsa_small sc h); [done|]. injection H as <- _. apply wf_cons; [apply byte_of_u8|apply ToyCrates.digest_wf].
  - destruct (rsa_small sc h); [done|]. injection H as <- _. eexists. split; [done|]. by apply bool_decide_eq_true.
Qed.

(** ** Hexadecimal, CRC *)

Fixpoint toy_hex_decode (s : list Z) : option bytes :=
  match s with
  | [] => Some []
  | a :: b :: s =>
      match hex_digit a, hex_digit b, toy_hex_decode s with
      | Some x, Some y, Some l => Some (x * 16 + y :: l)
      | _, _, _ => None
      end
  | _ => None
  end.

Definition se_hex : HexCrate := {|
  hex_encode b := b ≫= format_02x;
  hex_decode := toy_hex_decode;
|}.

Lemma hex_digit_range c d : hex_digit c = Some d -> 0 <= d < 16.
Proof.
  unfold hex_digit.
  destruct (Z.leb_spec 48 c), (Z.leb_spec c 57), (Z.leb_spec 97 c), (Z.leb_spec c 102), (Z.leb_spec 65 c), (Z.leb_spec c 70);
    cbn; intros [= <-]; lia.
Qed.
Lemma hex_digit_char d : 0 <= d < 16 -> hex_digit (hex_char d) = Some d.
Proof.
  intros Hd. unfold hex_char, hex_digit. destruct (Z.ltb_spec d 10).
  - destruct (Z.leb_spec 48 (48 + d)), (Z.leb_spec (48 + d) 57); try lia. cbn. f_equal. lia.
  - destruct (Z.leb_spec 48 (87 + d)), (Z.leb_spec (87 + d) 57), (Z.leb_spec 97 (87 + d)), (Z.leb_spec (87 + d) 102);
      try lia. cbn. f_equal. lia.
Qed.

Lemma se_hex_ok : @HexCrateOk se_hex.
Proof.
  split; cbn.
  - induction 1 as [|x l Hx _ IH]; [done|]. unfold u8 in Hx. cbn -[Z.div Z.modulo].
    rewrite !hex_digit_char by dlia. rewrite IH. f_equal. f_equal. dlia.
  - fix IH 1. intros [|a [|b s]] out; cbn; [intros [= <-]; apply wf_nil|done|].
    destruct (hex_digit a) as [x|] eqn:Ea; [|done]. destruct (hex_digit b) as [y|] eqn:Eb; [|done].
    destruct (toy_hex_decode s) as [l|] eqn:E; [|done]. intros [= <-]. apply wf_cons; [|by apply (IH s)].
    apply hex_digit_range in Ea, Eb. unfold u8. lia.
Qed.

Definition se_crc : Crc16Crate := {| x25_calculate := StsafeCrc.crc16_x25 |}.

(** ** The bundle *)

Definition se_toy : Se050Crates := {|
  se050_rng := toy_rng; se050_aes := se_aes; se050_digest := se_digest;
  p192 := se_curve 24; p224 := se_curve 28; p256 := se_curve 32; p384 := se_curve 48; p521 := se_curve 66;
  p192_arith := se_p192_arith; se050_dalek := se_dalek; se050_big := se_big; se050_rsa := se_rsa;
  se050_hex := se_hex; se050_crc := se_crc;
|}.

Lemma se_toy_ok : Se050CratesOk se_toy.
Proof.
  split; try (by apply se_curve_ok); try done;
    first [exact toy_rng_ok|exact se_aes_ok|exact se_digest_ok|exact se_p192_arith_ok|exact se_dalek_ok
      |exact se_big_ok|exact se_rsa_ok|exact se_hex_ok|by split].
Qed.

(** ** The JSON document and the iteration order *)

Inductive toy_value :=
  | TvDoc (o : gmap (list Z) SecureObject) (m : gmap (list Z) ObjectMetadata) (c : gmap (list Z) Z)
      (r : bool) (p : option Scp03Config)
  | TvObjects (o : gmap (list Z) SecureObject)
  | TvMetas (m : gmap (list Z) ObjectMetadata)
  | TvMeta (m : ObjectMetadata)
  | TvCurves (c : gmap (list Z) Z)
  | TvNum (x : Z)
  | TvBool (b : bool)
  | TvConfig (p : option Scp03Config).

Definition toy_get (v : toy_value) (key : list Z) : option toy_value :=
  match v with
  | TvDoc o m c r p =>
      if bool_decide (key = key_objects) then Some (TvObjects o)
      else if bool_decide (key = key_metadata) then Some (TvMetas m)
      else if bool_decide (key = key_ec_curves) then Some (TvCurves c)
      else if bool_decide (key = key_scp_required) then Some (TvBool r)
      else if bool_decide (key = key_platform_scp) then Some (TvConfig p)
      else None
  | _ => None
  end.

Definition se_serde : Serde := {|
  Value := toy_value;
  value_get := toy_get;
  as_bool v := match v with TvBool b => Some b | _ => None end;
  as_u64 v := match v with TvNum x => Some x | _ => None end;
  as_object v :=
    match v with
    | TvMetas m => Some (prod_map id TvMeta <$> map_to_list m)
    | TvCurves c => Some (prod_map id TvNum <$> map_to_list c)
    | _ => None
    end;
  objects_from_value v := match v with TvObjects o => Some o | _ => None end;
  metadata_from_value v := match v with TvMeta m => Some m | _ => None end;
  config_from_value v := match v with TvConfig p => p | _ => None end;
  json_doc := TvDoc;
|}.

Lemma toy_entries {A B} (f : A -> B) (g : B -> option A) (m : gmap (list Z) A) :
  (forall x, g (f x) = Some x) ->
  NoDup (fst <$> (prod_map id f <$> map_to_list m)) /\
  forall k x, m !! k = Some x <-> exists w, (k, w) ∈ prod_map id f <$> map_to_list m /\ g w = Some x.
Proof.
  intros Hg. split.
  - rewrite <- list_fmap_compose. apply NoDup_fst_map_to_list.
  - intros k x. rewrite <- elem_of_map_to_list. split.
    + intros Hx. exists (f x). split; [|apply Hg]. apply list_elem_of_fmap. by exists (k, x).
    + intros (w & Hin & Hw). apply list_elem_of_fmap in Hin as ([k1 y] & E & Hy). injection E as -> ->. rewrite Hg in Hw.
      by injection Hw as ->.
Qed.

Lemma se_serde_ok : SerdeOk se_serde.
Proof.
  split; intros; cbn.
  - eexists. split; [done|]. done.
  - eexists _, _. split; [done|]. split; [done|]. by apply toy_entries.
  - eexists _, _. split; [done|]. split; [done|]. by apply toy_entries.
  - eexists. split; [done|]. done.
  - eexists. split; [done|]. done.
Qed.

Definition se_iter : HashIter := {|
  iter_objects := map_to_list;
  iter_types := map_to_list;
|}.

Lemma se_iter_ok : @HashIterOk se_iter.
Proof. by split. Qed.
