(* ===== verification/Se050Witness.v ===== *)
(** * SE050Sim: the properties at concrete inputs

    A fresh store over the executable crates of [Se050Toy], and each property applied
    where its hypotheses hold. *)

From stdpp Require Import sorting.
From S2P Require Import Prelude.
From S2P Require Import Host.
From S2P Require Import Connections.
From S2P Require Import Crates.
From S2P Require Import ToyCrates.
From S2P Require Import Se050Crates.
From S2P Require Import Se050Types.
From S2P Require Import Se050StoreFacts.
From S2P Require Import Se050Store.
From S2P Require Import Se050Handlers.
From S2P Require Import Se050ObjectMgmt.
From S2P Require Import Se050HandlersFacts.
From S2P Require Import Se050Aes.
From S2P Require Import Se050CryptoFacts.
From S2P Require Import Se050EcFacts.
From S2P Require Import Se050Dispatch.
From S2P Require Import Se050Scp03.
From S2P Require Import Se050ChannelFacts.
From S2P Require Import Se050T1.
From S2P Require Import Se050T1Facts.
From S2P Require Import Se050Server.
From S2P Require Import Se050Secure.
From S2P Require Import Se050Cipher.
From S2P Require Import Se050Keys.
From S2P Require Import Se050Persist.
From S2P Require Import Se050Access.
From S2P Require Import Se050Toy.

#[local] Existing Instance se_toy.
#[local] Existing Instance se_toy_ok.
#[local] Existing Instance se_serde.
#[local] Existing Instance se_serde_ok.
#[local] Existing Instance se_iter.
#[local] Existing Instance se_iter_ok.
#[local] Instance se_fs : FileSystem Value := one_file Value.
#[local] Instance se_fs_ok : FileSystemOk se_fs := one_file_ok Value.

Definition env0 : Env := mkEnv None None None None None None.
Definition seed : @rng (@se050_rng se_toy) := 9.
Definition no_file : @fs _ se_fs := None.
Definition st0 : ObjectStore := store_new no_file.
Definition id1 : bytes := [0; 0; 0; 1].
Definition id2 : bytes := [0; 0; 0; 2].

(** ** The fresh store *)

Lemma wf_check l : forallb is_u8 l = true -> wf l.
Proof. apply forallb_is_u8. Qed.
Ltac wf_dec := apply wf_check; vm_compute; reflexivity.

Lemma id_ok_dec l : (len l =? 4) && forallb is_u8 l = true -> id_ok l.
Proof. intros [H1%Z.eqb_eq H2]%andb_prop. split; [done|by apply wf_check]. Qed.

Lemma fresh_ok p f : store_ok (mkStore ∅ ∅ p default_curves ∅ ∅ false None f).
Proof.
  assert (Ha : aux_ok (mkStore ∅ ∅ p default_curves ∅ ∅ false None f)).
  { split; cbn; try apply map_Forall_empty; [|done].
    unfold default_curves. cbn [list_to_map fmap list_fmap fst snd foldr].
    do 5 (apply map_Forall_insert_2; [split; (vm_compute; split; congruence)|]). apply map_Forall_empty. }
  split; [apply map_Forall_empty|apply map_Forall_empty| |done].
  change (dom (∅ : gmap bytes ObjectMetadata) ⊆ dom (∅ : gmap bytes SecureObject)). by rewrite !dom_empty_L.
Qed.

Lemma st0_ok : store_ok st0.
Proof. apply fresh_ok. Qed.

Lemma insert_ok st id o : store_ok st -> id_ok id -> obj_ok o -> store_ok (insert st id o).
Proof.
  intros [H1 H2 H3 H4] Hi Ho. split; rewrite ?objects_insert, ?metadata_insert.
  - by apply map_Forall_insert_2.
  - done.
  - rewrite dom_insert. etransitivity; [done|]. apply union_subseteq_r.
  - by apply aux_insert.
Qed.

Lemma t1_fresh_ok : t1_ok (t1_new 0x5A).
Proof. refine (conj _ (conj _ (conj _ (conj wf_nil Logic.I)))); vm_compute; split; congruence. Qed.

(** ** Transport and connections *)

Definition get_version : bytes := [0x80; 0x04; 0x00; 0x20].
Definition hello : T1Frame := mkT1Frame 0x5A (IFrame 0 false) get_version.
Definition sv0 : Server := mkServer st0 seed.

Lemma hello_ok : frame_ok hello.
Proof. split; [vm_compute; split; congruence|]. split; [vm_compute; split; congruence|]. split; [wf_dec|done]. Qed.

Lemma se050_any_schedule_safe_witness :
  store_ok st0 /\
  wpp (run_schedule (P := se050_protocol env0) [0; 1; 0; 1]%nat sv0
        (conn_new (P := se050_protocol env0) <$> [frame_bytes hello; [1; 2; 3]]))
    (exists pre rest sv' conns', [0; 1; 0; 1]%nat = pre ++ rest /\
       run_schedule (P := se050_protocol env0) pre sv0
         (conn_new (P := se050_protocol env0) <$> [frame_bytes hello; [1; 2; 3]]) = Ret (sv', conns') /\
       moved_star (srv_store sv0) (srv_store sv') /\ store_ok (srv_store sv') /\ may_panic (srv_store sv'))
    (fun '(sv', conns') => store_ok (srv_store sv') /\ moved_star (srv_store sv0) (srv_store sv') /\
       Forall (fun c => exists rs, c_out (P := se050_protocol env0) c = concat rs /\ Forall is_frame rs) conns').
Proof.
  split; [apply st0_ok|]. apply (se050_any_schedule_safe env0 [0; 1; 0; 1]%nat sv0 [frame_bytes hello; [1; 2; 3]]).
  - apply st0_ok.
  - apply Forall_cons_2; [wf_dec|]. apply Forall_cons_2; [wf_dec|apply Forall_nil_2].
Defined.

Definition file1 : ObjectStore := insert st0 id1 (Binary [1; 2; 3; 4]).
Lemma file1_ok : store_ok file1.
Proof. apply insert_ok; [apply st0_ok|by apply id_ok_dec|wf_dec]. Qed.

Lemma policy_enforced_witness :
  exists st' r' resp,
    dispatch env0 (write_binary_cmd id1 1 [7; 7]) file1 seed false = Ret (st', r', resp) /\
    (get st' id1 = None ->
       (is_delete (write_binary_cmd id1 1 [7; 7]) = true /\ names (write_binary_cmd id1 1 [7; 7]) id1 /\
         policy_allows file1 id1 POLICY_OBJ_ALLOW_DELETE = true) \/
       (is_delete_all (write_binary_cmd id1 1 [7; 7]) = true /\ objects st' = ∅)) /\
    (forall o', get st' id1 = Some o' -> get_metadata st' id1 = get_metadata file1 id1 /\
       (o' = Binary [1; 2; 3; 4] \/
        (is_write (write_binary_cmd id1 1 [7; 7]) = true /\ names (write_binary_cmd id1 1 [7; 7]) id1 /\
          (policy_allows file1 id1 POLICY_OBJ_ALLOW_WRITE = true \/ unfinished (Some (Binary [1; 2; 3; 4])))) \/
        (is_ecdh (write_binary_cmd id1 1 [7; 7]) = true /\
          agreed_into file1 (write_binary_cmd id1 1 [7; 7]) id1 o'))).
Proof.
  eexists _, _, _. split; [vm_compute; reflexivity|].
  apply (policy_enforced env0 (write_binary_cmd id1 1 [7; 7]) file1 seed false _ seed (mkResponse [] 0x9000));
    [apply file1_ok|wf_dec|vm_compute; reflexivity|vm_compute; reflexivity].
Defined.

(** GetVersion in two chained pieces. *)
Lemma apdu_over_tcp_witness :
  exists t2 st2 r2 resp,
    process_apdu env0 (received (t1_new 0x5A) 2) st0 seed get_version = Ret (t2, st2, r2, resp) /\
    exists rs fs t3,
      run env0 3 sv0 (mkTcp (t1_new 0x5A) [])
        (frames_wire ((chained 0x5A 0 <$> [[0x80; 0x04]]) ++ [last_frame 0x5A 0 [0x00; 0x20]]))
        = Ret (mkServer st2 r2, mkTcp t3 [], frames_wire rs ++ frames_wire fs, Some Closed) /\
      Forall is_r_frame rs /\ length rs = 1%nat /\
      concat (t1_payload <$> fs) = to_bytes resp /\ Forall (fun f => nad f = nad_se2hd t2) fs /\
      scp03 t3 = scp03 t2 /\ apdu_reassembly t3 = apdu_reassembly t2.
Proof.
  eexists _, _, _, _. split; [vm_compute; reflexivity|].
  refine (apdu_over_tcp env0 sv0 (t1_new 0x5A) 0x5A 0 [[0x80; 0x04]] [0x00; 0x20] [] _ _ _ _ _ _ _ _ _ _ _ _ _ _).
  - apply t1_fresh_ok.
  - reflexivity.
  - u_solve.
  - lia.
  - apply Forall_cons_2; [split; [wf_dec|done]|apply Forall_nil_2].
  - wf_dec.
  - done.
  - vm_compute. reflexivity.
  - apply Forall_nil_2.
  - vm_compute. reflexivity.
Defined.

(** ** The secure channel *)

Definition key16 (x : Z) : bytes := vec_repeat x 16.
Definition session0 : Session := mkSession (key16 1) (key16 2) (key16 3) 0x33 (key16 0) 1 0 false.
Definition t_open : T1Responder := set_scp03 (t1_new 0x5A) (Active session0).

Lemma key16_ok x : u8 x -> key_ok (key16 x).
Proof. intros Hx. split; [by apply wf_vec_repeat|]. by left. Qed.

Lemma session0_ok : sess_ok session0.
Proof.
  split; cbn [session0 s_enc s_mac s_rmac mcv security_level cmd_counter last_cmd_len];
    try (by apply key16_ok; u_solve); try u_solve; try lia.
  split; [by apply len_vec_repeat|]. apply wf_vec_repeat. u_solve.
Qed.

Lemma t_open_ok : t1_ok t_open.
Proof.
  refine (conj _ (conj _ (conj _ (conj wf_nil session0_ok)))); vm_compute; split; congruence.
Qed.

Definition inner0 : list ParsedApdu := [mkApdu 0x80 0x04 0x00 0x20 [] None; write_binary_cmd id1 1 [7; 7]].

Lemma inner_ok_dec a :
  is_u8 (cla a) && (Z.land (cla a) 4 =? 0) && is_u8 (ins a) && is_u8 (p1 a) && is_u8 (p2 a) &&
  forallb is_u8 (data a) && (len (data a) <? 65500) && bool_decide (le a = None) = true -> command_ok a.
Proof.
  rewrite !andb_true_iff, !is_u8_spec, Z.eqb_eq, Z.ltb_lt, bool_decide_eq_true.
  intros (((((((H1 & H2) & H3) & H4) & H5) & H6) & H7) & H8).
  refine (conj H1 (conj H2 (conj H3 (conj H4 (conj H5 (conj (wf_check _ H6) (conj H7 _))))))). by rewrite H8.
Qed.

Lemma inner0_ok : Forall command_ok inner0.
Proof. repeat apply Forall_cons_2; try apply Forall_nil_2; apply inner_ok_dec; vm_compute; reflexivity. Qed.

Lemma scp03_tunnel_refines_witness :
  exists st' r' resps s',
    run_plain env0 t_open file1 seed inner0 = Ret (st', r', resps) /\ sess_ok s' /\
    host_talk env0 t_open file1 seed (host_of session0) inner0 = Ret (set_scp03 t_open (Active s'), st', r', Some (resps, host_of s')).
Proof.
  assert (E : exists st' r' resps, run_plain env0 t_open file1 seed inner0 = Ret (st', r', resps)).
  { eexists _, _, _. vm_compute. reflexivity. }
  destruct E as (st' & r' & resps & E). exists st', r', resps.
  destruct (scp03_tunnel_refines env0 t_open session0 file1 seed inner0 st' r' resps) as (s' & Hs & Eh);
    [reflexivity|apply session0_ok|apply inner0_ok|apply file1_ok|exact E|].
  exists s'. split; [exact E|]. split; [exact Hs|exact Eh].
Defined.

Definition challenge0 : bytes := [1; 2; 3; 4; 5; 6; 7; 8].

Lemma scp03_handshake_witness :
  exists t1 r1 answer cc,
    process_apdu env0 (t1_new 0x5A) st0 seed (host_init 0 challenge0) = Ret (t1, st0, r1, success_with_data answer) /\
    sub answer 13 21 = cc /\ len cc = 8 /\
    let '(k_enc, k_mac, k_rmac) := host_keys (platform_scp_config st0 env0 V7_2_0) challenge0 cc in
    sub answer 21 29 = card_cryptogram k_mac challenge0 cc /\
    process_apdu env0 t1 st0 r1 (host_auth 0x33 k_mac challenge0 cc) =
      Ret (set_scp03 t1 (Active (mkSession k_enc k_mac k_rmac 0x33 (auth_mac 0x33 k_mac challenge0 cc) 1 0 false)),
           st0, r1, success) /\
    (forall raw s resp, external_authenticate (scp03 t1) raw = Ret (Active s, resp) ->
       sub raw 5 13 = host_cryptogram k_mac challenge0 cc /\
       sub raw 13 21 = sub (chain_mac k_mac (vec_repeat 0 16) (sub raw 0 13)) 0 8).
Proof.
  apply (scp03_handshake env0 (t1_new 0x5A) st0 seed 0 challenge0 0x33);
    [apply st0_ok|reflexivity|vm_compute; tauto|by left].
Defined.

(** A command in the plain while the channel is open. *)
Lemma only_authentic_commands_write_witness :
  exists t' st' r' resp,
    process_apdu env0 t_open file1 seed [0x80; 0x01; 0x06; 0x00] = Ret (t', st', r', resp) /\
    (st' = file1 \/ exists s, scp03 t_open = Active s /\ authentic s [0x80; 0x01; 0x06; 0x00]).
Proof.
  eexists _, _, _, _. split; [vm_compute; reflexivity|].
  eapply (only_authentic_commands_write env0 t_open file1 seed [0x80; 0x01; 0x06; 0x00]);
    [apply file1_ok|apply t_open_ok|wf_dec|by right|vm_compute; reflexivity].
Defined.

Lemma corrupted_t1_frame_ignored_witness :
  frame_bytes hello = [0x5A; 0x00; 0x04] ++ 0x80 :: drop 4 (frame_bytes hello) /\
  process_frame env0 (t1_new 0x5A) st0 seed ([0x5A; 0x00; 0x04] ++ 0x81 :: drop 4 (frame_bytes hello))
    = Ret (t1_new 0x5A, st0, seed, []).
Proof.
  split; [vm_compute; reflexivity|].
  apply (corrupted_t1_frame_ignored env0 (t1_new 0x5A) st0 seed hello [0x5A; 0x00; 0x04] 0x80 0x81);
    [apply hello_ok|vm_compute; reflexivity|u_solve|discriminate|discriminate].
Defined.

(** ** Ciphers *)

Definition aes1 : ObjectStore :=
  set_crypto_object_types (insert st0 id1 (AESKey (key16 1))) {[ 5 := (0x02, aes.CIPHER_MODE_CBC_NOPAD) ]}.
Definition iv0 : bytes := key16 9.

Lemma aes1_key : key_at aes1 id1 (key16 1).
Proof. split; [by apply id_ok_dec|reflexivity|left; reflexivity]. Qed.
Lemma iv0_ok : block iv0 /\ wf iv0.
Proof. split; [reflexivity|wf_dec]. Qed.

Lemma cipher_streaming_witness :
  exists st' outs final one,
    dispatch_all env0 false aes1 seed (cipher_init true id1 5 iv0 :: (cipher_update 5 <$> [[1; 2; 3]; vec_repeat 4 13]) ++ [cipher_final 5 []])
      = Ret (st', seed, success :: (tag1 <$> outs) ++ [final]) /\
    dispatch env0 (cipher_oneshot true id1 aes.CIPHER_MODE_CBC_NOPAD iv0 (concat [[1; 2; 3]; vec_repeat 4 13] ++ [])) aes1 seed false
      = Ret (aes1, seed, one) /\
    ((exists o, final = tag1 o /\ one = tag1 (concat outs ++ o)) \/ (exists sw, final = error sw /\ one = error sw)) /\
    crypto_objects st' !! 5 = None /\ objects st' = objects aes1.
Proof.
  apply (cipher_streaming env0 false aes1 seed true id1 (key16 1) 5 aes.CIPHER_MODE_CBC_NOPAD iv0 [[1; 2; 3]; vec_repeat 4 13] []).
  - right. by left.
  - apply aes1_key.
  - u_solve.
  - apply iv0_ok.
  - apply iv0_ok.
  - reflexivity.
  - repeat apply Forall_cons_2; try apply Forall_nil_2; (split; [wf_dec|reflexivity]).
  - apply wf_nil.
  - reflexivity.
Defined.

Lemma cipher_decrypts_witness :
  exists ct, dispatch env0 (cipher_oneshot true id1 aes.CIPHER_MODE_CTR iv0 [1; 2; 3]) aes1 seed false = Ret (aes1, seed, tag1 ct) /\
    len ct = 3 /\
    dispatch env0 (cipher_oneshot false id1 aes.CIPHER_MODE_CTR iv0 ct) aes1 seed false = Ret (aes1, seed, tag1 [1; 2; 3]).
Proof.
  apply (cipher_decrypts env0 false aes1 seed id1 (key16 1) aes.CIPHER_MODE_CTR iv0 [1; 2; 3]);
    [by right; right|apply aes1_key|apply iv0_ok|apply iv0_ok|wf_dec|reflexivity|by left].
Defined.

(** ** Keys *)

Definition digest32 : bytes := vec_repeat 7 32.

Lemma writable0 id b cv : id_ok id -> from_se050_byte b = Some cv -> exists_ st0 id = false ->
  (if needs_curve_object cv then curve_ready st0 b = true else supports_25519 V7_2_0 = true) -> writable env0 st0 id b cv.
Proof. intros Hi Hb He Hc. split; [done|done|congruence|done]. Qed.

Lemma p256_writable : writable env0 st0 id1 0x03 NistP256.
Proof. by apply writable0; [apply id_ok_dec|..]. Qed.

Lemma se050_generated_key_signs_witness :
  exists st1 r1 k q,
    dispatch env0 (generate_cmd id1 0x03) st0 seed false = Ret (st1, r1, success) /\
    (forall i, get st1 i = if decide (i = id1) then Some (ECKeyPair NistP256 k q) else get st0 i) /\
    exists r2 resp, dispatch env0 (sign_cmd id1 0x21 digest32) st1 r1 false = Ret (st1, r2, resp) /\
      ((NistP256 = NistP192 /\ resp = error SW_CONDITIONS_NOT_SATISFIED /\ nonces_fail k digest32 r1) \/
       exists sg, resp = tag1 sg /\ host_verifies NistP256 q digest32 sg /\
         dispatch env0 (verify_cmd id1 0x21 digest32 sg) st1 r2 false = Ret (st1, r2, tag1 [0x01]) /\
         forall e' act' st' r' id', id_ok id' -> get st' id' = Some (ECPublicKey NistP256 q) ->
            dispatch e' (verify_cmd id' 0x21 digest32 sg) st' r' act' =
              Ret (st', r', if needs_curve_object NistP256 then tag1 [0x01] else error SW_CONDITIONS_NOT_SATISFIED)).
Proof.
  apply (se050_generated_key_signs env0 false st0 seed id1 0x03 NistP256 0x21 digest32);
    [apply p256_writable|done|u_solve|wf_dec|reflexivity|intros _; by do 2 right; left].
Defined.

Lemma se050_ecdh_agreement_witness :
  exists sta1 ra1 qa stb1 rb1 qb z,
    dispatch env0 (generate_cmd id1 0x41) st0 seed false = Ret (sta1, ra1, success) /\
    dispatch env0 (generate_cmd id2 0x41) st0 (seed + 3) false = Ret (stb1, rb1, success) /\
    dispatch env0 (read_cmd id1) sta1 ra1 false = Ret (sta1, ra1, tag1 qa) /\
    dispatch env0 (read_cmd id2) stb1 rb1 false = Ret (stb1, rb1, tag1 qb) /\
    dispatch env0 (ecdh_cmd id1 qb) sta1 ra1 false = Ret (sta1, ra1, tag1 z) /\
    dispatch env0 (ecdh_cmd id2 qa) stb1 rb1 false = Ret (stb1, rb1, tag1 z) /\
    len z = 32.
Proof.
  apply (se050_ecdh_agreement env0 env0 false false st0 st0 seed (seed + 3) id1 id2 0x41 Curve25519);
    try apply st0_ok; try done; by apply writable0; [apply id_ok_dec|..].
Defined.

Lemma wrong_length_key_panics_witness :
  exists st1, dispatch env0 (import_cmd id1 0x03 [1; 2; 3]) st0 seed false = Ret (st1, seed, success) /\
    dispatch env0 (sign_cmd id1 0x21 digest32) st1 seed false = Panic /\
    dispatch env0 (ecdh_cmd id1 [4; 5]) st1 seed false = Panic.
Proof.
  apply (wrong_length_key_panics env0 false st0 seed id1 0x03 NistP256 [1; 2; 3] 0x21 digest32 [4; 5]);
    [apply p256_writable|done|wf_dec|done|done|u_solve|wf_dec|reflexivity|done|wf_dec|done|done].
Defined.

(** ** Files, listings, restarts *)

Lemma binary_object_is_memory_witness :
  dispatch env0 (write_binary_cmd id1 1 [7; 7]) file1 seed false =
    Ret (if negb (policy_allows file1 id1 POLICY_OBJ_ALLOW_WRITE) then (file1, seed, error SW_CONDITIONS_NOT_SATISFIED)
         else if len [1; 2; 3; 4] <? 1 + len [7; 7] then (file1, seed, error SW_WRONG_DATA)
         else (insert file1 id1 (Binary (sub [1; 2; 3; 4] 0 1 ++ [7; 7] ++ sub [1; 2; 3; 4] (1 + len [7; 7]) (len [1; 2; 3; 4]))), seed, success)) /\
  dispatch env0 (read_binary_cmd id1 2 2) file1 seed false =
    Ret (file1, seed, if negb (policy_allows file1 id1 POLICY_OBJ_ALLOW_READ) then error SW_COMMAND_NOT_ALLOWED
                else if (len [1; 2; 3; 4] <=? 2) || (len [1; 2; 3; 4] <? 2 + 2) then error SW_CONDITIONS_NOT_SATISFIED
                else tag1 (sub [1; 2; 3; 4] 2 (2 + 2))).
Proof.
  apply (binary_object_is_memory env0 false file1 seed id1 [1; 2; 3; 4] 1 [7; 7] 2 2);
    [by apply id_ok_dec|reflexivity|u_solve|wf_dec|done|u_solve|u_solve].
Defined.

Lemma listing_complete_witness :
  exists ids, Sorted object_mgmt.id_le ids /\ NoDup ids /\ (forall id, id ∈ ids <-> is_Some (get file1 id)) /\
    dispatch env0 (list_cmd 0 0xFF) file1 seed false =
      Ret (file1, seed, success_with_tlvs [mkTlv TAG_1 [0x01]; mkTlv TAG_2 (concat (List.filter
        (fun id => (0xFF =? 0xFF) || (0xFF =? 0x00) ||
           match get file1 id with Some o => type_code o (is_v7 (applet_from_env env0)) =? 0xFF | None => false end)
        (drop (Z.to_nat 0) ids)))]).
Proof. apply (listing_complete env0 false file1 seed 0 0xFF); u_solve. Defined.

Definition sim0 : Se050Simulator := sim_with_persistence tt no_file.
Definition write_file1 : T1Frame :=
  mkT1Frame 0x5A (IFrame 0 false) ([0x80; 0x01; 0x06; 0x00; 0x0A; 0x41; 0x04] ++ id1 ++ [0x44; 0x02; 0x07; 0x08]).

Lemma restart_restores_witness :
  exists sim' r',
    i2c_writes env0 sim0 seed [frame_bytes write_file1] = Ret (sim', r') /\
    get (sim_store sim') id1 = Some (Binary [7; 8]) /\
    let again := sim_with_persistence (tt : @path _ se_fs) (disk (sim_store sim')) in
    durable (sim_store again) = durable (sim_store sim') /\
    crypto_objects (sim_store again) = ∅ /\ crypto_object_types (sim_store again) = ∅ /\
    scp03 (sim_t1 again) = Idle /\ synced (tt : @path _ se_fs) (sim_store again).
Proof.
  eexists _, _. split; [vm_compute; reflexivity|]. split; [vm_compute; reflexivity|].
  edestruct (restart_restores env0 sim0 seed tt [frame_bytes write_file1]) as [[H|(p & e & _ & Hw)] Hrest];
    [reflexivity|reflexivity|apply fresh_ok|apply t1_fresh_ok| |vm_compute; reflexivity| |discriminate Hw].
  - apply Forall_cons_2; [wf_dec|apply Forall_nil_2].
  - split; [exact H|exact Hrest].
Defined.
