(* ===== verification/McuCrates.v ===== *)
(** * STM32Sim and PIC32MZSim: the third-party crates

    The RustCrypto crates behind the crypto peripherals of the two microcontroller
    simulators: the block ciphers ([aes], [des]), the digests ([md-5], [sha1], [sha2],
    [sha3]) with the extendable-output functions, and the curves of [p256] and [p384].
    Each is a class of operations; a second class holds the documented laws. *)

From S2P Require Import Prelude.

(** [aes]: [Aes128], [Aes192] or [Aes256], by the length of the key; a block has 16
    bytes. *)
Class AesBlocks := {
  aes_enc : bytes -> bytes -> bytes;
  aes_dec : bytes -> bytes -> bytes;
}.

Class AesBlocksOk (A : AesBlocks) := {
  aes_enc_len k b : len b = 16 -> len (aes_enc k b) = 16;
  aes_dec_len k b : len b = 16 -> len (aes_dec k b) = 16;
  aes_enc_wf k b : wf b -> wf (aes_enc k b);
  aes_dec_wf k b : wf b -> wf (aes_dec k b);
  aes_dec_enc k b : len b = 16 -> wf b -> aes_dec k (aes_enc k b) = b;
  aes_enc_dec k b : len b = 16 -> wf b -> aes_enc k (aes_dec k b) = b;
}.

(** The digest types of the crates, and their sizes in bytes. *)
Inductive digest_name :=
  | cMd5 | cSha1 | cSha224 | cSha256 | cSha384 | cSha512 | cSha512_224 | cSha512_256
  | cSha3_224 | cSha3_256 | cSha3_384 | cSha3_512.
Inductive xof_name := cShake128 | cShake256.

Definition digest_size (d : digest_name) : Z :=
  match d with
  | cMd5 => 16 | cSha1 => 20
  | cSha224 | cSha512_224 | cSha3_224 => 28
  | cSha256 | cSha512_256 | cSha3_256 => 32
  | cSha384 | cSha3_384 => 48
  | cSha512 | cSha3_512 => 64
  end.

(** A hasher is created, fed and read; reading an extendable-output function takes the
    number of bytes. *)
Class DigestCrates := {
  digest_t : Type;
  digest_new : digest_name -> digest_t;
  digest_update : digest_t -> bytes -> digest_t;
  digest_finalize : digest_t -> bytes;
  xof_t : Type;
  xof_new : xof_name -> xof_t;
  xof_update : xof_t -> bytes -> xof_t;
  xof_read : xof_t -> Z -> bytes;
}.

(** Feeding a message in pieces is feeding it at once. *)
Class DigestCratesOk (D : DigestCrates) := {
  digest_update_app h a b : digest_update (digest_update h a) b = digest_update h (a ++ b);
  digest_update_nil h : digest_update h [] = h;
  digest_finalize_len d m : len (digest_finalize (digest_update (digest_new d) m)) = digest_size d;
  digest_finalize_wf h : wf (digest_finalize h);
  xof_update_app h a b : xof_update (xof_update h a) b = xof_update h (a ++ b);
  xof_update_nil h : xof_update h [] = h;
  xof_read_len h n : 0 <= n -> len (xof_read h n) = n;
  xof_read_wf h n : wf (xof_read h n);
}.

(** [p256] and [p384] as the accelerator uses them: a scalar below the order, a point
    from its SEC1 encoding, scalar multiplication, and ECDSA verification. *)
Record PkaCurve := mkPkaCurve {
  scalar_t : Type;
  point_t : Type;
  scalar_from_repr : bytes -> option scalar_t;
  point_from_sec1 : bytes -> option point_t;
  point_mul : point_t -> scalar_t -> point_t;
  point_to_sec1 : point_t -> bytes;
  vkey_t : Type;
  vkey_from_affine : point_t -> option vkey_t;
  ecsig_t : Type;
  ecsig_from_slice : bytes -> option ecsig_t;
  ecsig_verify_prehash : vkey_t -> bytes -> ecsig_t -> bool;
}.

(** An uncompressed encoding is [04 || X || Y]; the identity is one zero byte. *)
Class PkaCurveOk (n : Z) (c : PkaCurve) := {
  point_from_to_sec1 p : len (point_to_sec1 c p) = 1 + 2 * n -> point_from_sec1 c (point_to_sec1 c p) = Some p;
  point_to_sec1_wf p : wf (point_to_sec1 c p);
  point_to_sec1_shape p : point_to_sec1 c p = [0] \/
    exists xy, point_to_sec1 c p = 4 :: xy /\ len xy = 2 * n;
}.

Class EccCrates := { crate_p256 : PkaCurve; crate_p384 : PkaCurve }.
Class EccCratesOk (E : EccCrates) := {
  crate_p256_ok :: PkaCurveOk 32 crate_p256;
  crate_p384_ok :: PkaCurveOk 48 crate_p384;
}.
