(* ===== verification/Stm32Core.v ===== *)
(** * STM32Sim: the peripheral interface and the bus

    [core/src/peripheral.rs] and [core/src/bus.rs]: a peripheral answers loads and
    stores at an offset, the bus finds the peripheral of an address.  A peripheral is
    mapped once, so the bus keeps its state where the code keeps an [Arc<Mutex<_>>].
    The file begins with the [u32] operations of Rust that the register models use. *)

From stdpp Require Import strings sorting.
From S2P Require Import Prelude.
From S2P Require Import Crc.

(** [!x] on [u32], and [x & m != 0]. *)
Definition not32 (x : Z) : Z := Z.lxor x 0xFFFFFFFF.
Definition has (x m : Z) : bool := negb (Z.land x m =? 0).

(** [u32::swap_bytes], [u32::rotate_right(16)], [u8::reverse_bits]. *)
Definition swap_bytes (v : Z) : Z := be_val (le_bytes 4 v).
Definition rotate_right_16 (v : Z) : Z := Z.lor (Z.shiftr v 16) (as_u32 (Z.shiftl v 16)).
Definition reverse_bits (b : Z) : Z := bitrev8 b.

(** [(lo..=hi).contains(&o)]. *)
Definition in_range (lo hi o : Z) : bool := (lo <=? o) && (o <=? hi).

(** The trait [Peripheral]: [read(offset, size)] and [write(offset, size, value)]. *)
Class Peripheral (P : Type) := {
  p_read : P -> Z -> Z -> res (Z * P);
  p_write : P -> Z -> Z -> Z -> res P;
}.

Section bus.
Context {D : Type} {PD : Peripheral D}.

Record MmioRegion := mkRegion {
  base : Z;
  size : Z;
  name : string;
  peripheral : D;
}.

Definition Bus : Type := list MmioRegion.

Definition bus_new : Bus := [].

Definition bus_map (self : Bus) (b s : Z) (n : string) (p : D) : Bus := self ++ [mkRegion b s n p].

Definition with_peripheral (r : MmioRegion) (p : D) : MmioRegion :=
  mkRegion (base r) (size r) (name r) p.

Definition hit (r : MmioRegion) (addr : Z) : bool := (base r <=? addr) && (addr <? base r + size r).

Fixpoint dispatch_read (self : Bus) (addr sz : Z) : res (Z * Bus) :=
  match self with
  | [] => Ret (0, [])
  | r :: rs =>
      if hit r addr then
        let off := as_u32 (addr - base r) in
        let! '(value, p) := p_read (peripheral r) off sz in
        Ret (value, with_peripheral r p :: rs)
      else
        let! '(value, rs) := dispatch_read rs addr sz in
        Ret (value, r :: rs)
  end.

Fixpoint dispatch_write (self : Bus) (addr sz value : Z) : res Bus :=
  match self with
  | [] => Ret []
  | r :: rs =>
      if hit r addr then
        let off := as_u32 (addr - base r) in
        let! p := p_write (peripheral r) off sz value in
        Ret (with_peripheral r p :: rs)
      else
        let! rs := dispatch_write rs addr sz value in
        Ret (r :: rs)
  end.

(** [x & !0xFFF]. *)
Definition page_floor (x : Z) : Z := Z.land x (Z.lnot 0xFFF).

(** The loop of [pages] over one region; the fuel bounds its number of pages. *)
Fixpoint region_pages (fuel : nat) (p stop : Z) : list Z :=
  match fuel with
  | O => []
  | S fuel => if p <? stop then p :: region_pages fuel (p + 0x1000) stop else []
  end.

Definition pages_of (r : MmioRegion) : list Z :=
  let start := page_floor (base r) in
  let stop := page_floor (base r + size r + 0xFFF) in
  region_pages (Z.to_nat ((stop - start) / 0x1000)) start stop.

(** The [BTreeSet] in its order. *)
Definition pages (self : Bus) : list Z := merge_sort Z.le (remove_dups (self ≫= pages_of)).
End bus.
Arguments MmioRegion : clear implicits.
Arguments Bus : clear implicits.
