(* ===== verification/Stm32Cryp.v ===== *)
(** * STM32Sim: the CRYP peripheral

    [peripherals/src/cryp/]: the AES engine ([cryp], [mod.rs]), the GCM phase machine
    ([gcm], [gcm.rs]) and its two register files, [v1] (STM32H7 and STM32MP13, [v1.rs])
    and [v2] (STM32U5, [v2.rs]).  An index into a fixed array that depends on the state
    can panic; an access to constant positions of a fixed array cannot. *)

From S2P Require Import Prelude.
From S2P Require Import McuCrates.
From S2P Require Import Stm32Core.

(** Elementwise [a[i] ^= b[i]]. *)
Definition xor_bytes (a b : bytes) : bytes := zip_with Z.lxor a b.
Definition zero16 : bytes := vec_repeat 0 16.

Module cryp.
Inductive KeySize := K128 | K192 | K256.
Inductive AesMode := Ecb | Cbc | Ctr | Gcm | KeyDerivation.
Inductive Direction := Encrypt | Decrypt.
Inductive DataType := Word | Halfword | Byte | Bit.

#[export] Instance AesMode_eq_dec : EqDecision AesMode.
Proof. solve_decision. Defined.

Definition from_bits (bits : Z) : DataType :=
  let b := Z.land bits 0x3 in
  if b =? 0 then Word else if b =? 1 then Halfword else if b =? 2 then Byte else Bit.

Definition swap (dt : DataType) (v : Z) : Z :=
  match dt with
  | Word => v
  | Halfword => rotate_right_16 v
  | Byte => swap_bytes v
  | Bit =>
      fold_left (fun out i =>
        let b := as_u8 (Z.land (Z.shiftr v (i * 8)) 0xFF) in
        Z.lor out (as_u32 (Z.shiftl (reverse_bits b) ((3 - i) * 8)))) [0; 1; 2; 3] 0
  end.

(** The engine: configuration, a 16-byte input FIFO and a 16-byte output FIFO. *)
Record CrypEngine := mkCrypEngine {
  key : bytes;
  iv : bytes;
  key_size : KeySize;
  mode : AesMode;
  direction : Direction;
  datatype : DataType;
  enabled : bool;
  in_buf : bytes;
  in_len : Z;
  out_buf : bytes;
  out_pos : Z;
  out_avail : Z;
}.

Definition with_key (v : bytes) (s : CrypEngine) : CrypEngine :=
  mkCrypEngine v (iv s) (key_size s) (mode s) (direction s) (datatype s) (enabled s) (in_buf s)
    (in_len s) (out_buf s) (out_pos s) (out_avail s).
Definition with_iv (v : bytes) (s : CrypEngine) : CrypEngine :=
  mkCrypEngine (key s) v (key_size s) (mode s) (direction s) (datatype s) (enabled s)
    (in_buf s) (in_len s) (out_buf s) (out_pos s) (out_avail s).
Definition with_key_size (v : KeySize) (s : CrypEngine) : CrypEngine :=
  mkCrypEngine (key s) (iv s) v (mode s) (direction s) (datatype s) (enabled s) (in_buf s)
    (in_len s) (out_buf s) (out_pos s) (out_avail s).
Definition with_mode (v : AesMode) (s : CrypEngine) : CrypEngine :=
  mkCrypEngine (key s) (iv s) (key_size s) v (direction s) (datatype s) (enabled s) (in_buf s)
    (in_len s) (out_buf s) (out_pos s) (out_avail s).
Definition with_direction (v : Direction) (s : CrypEngine) : CrypEngine :=
  mkCrypEngine (key s) (iv s) (key_size s) (mode s) v (datatype s) (enabled s) (in_buf s)
    (in_len s) (out_buf s) (out_pos s) (out_avail s).
Definition with_datatype (v : DataType) (s : CrypEngine) : CrypEngine :=
  mkCrypEngine (key s) (iv s) (key_size s) (mode s) (direction s) v (enabled s) (in_buf s)
    (in_len s) (out_buf s) (out_pos s) (out_avail s).
Definition with_enabled (v : bool) (s : CrypEngine) : CrypEngine :=
  mkCrypEngine (key s) (iv s) (key_size s) (mode s) (direction s) (datatype s) v (in_buf s)
    (in_len s) (out_buf s) (out_pos s) (out_avail s).
Definition with_in_buf (v : bytes) (s : CrypEngine) : CrypEngine :=
  mkCrypEngine (key s) (iv s) (key_size s) (mode s) (direction s) (datatype s) (enabled s) v
    (in_len s) (out_buf s) (out_pos s) (out_avail s).
Definition with_in_len (v : Z) (s : CrypEngine) : CrypEngine :=
  mkCrypEngine (key s) (iv s) (key_size s) (mode s) (direction s) (datatype s) (enabled s)
    (in_buf s) v (out_buf s) (out_pos s) (out_avail s).
Definition with_out_buf (v : bytes) (s : CrypEngine) : CrypEngine :=
  mkCrypEngine (key s) (iv s) (key_size s) (mode s) (direction s) (datatype s) (enabled s)
    (in_buf s) (in_len s) v (out_pos s) (out_avail s).
Definition with_out_pos (v : Z) (s : CrypEngine) : CrypEngine :=
  mkCrypEngine (key s) (iv s) (key_size s) (mode s) (direction s) (datatype s) (enabled s)
    (in_buf s) (in_len s) (out_buf s) v (out_avail s).
Definition with_out_avail (v : Z) (s : CrypEngine) : CrypEngine :=
  mkCrypEngine (key s) (iv s) (key_size s) (mode s) (direction s) (datatype s) (enabled s)
    (in_buf s) (in_len s) (out_buf s) (out_pos s) v.

Definition default_engine : CrypEngine :=
  mkCrypEngine (vec_repeat 0 32) zero16 K128 Ecb Encrypt Word false zero16 0 zero16 0 0.

Definition reset_fifos (s : CrypEngine) : CrypEngine :=
  mkCrypEngine (key s) (iv s) (key_size s) (mode s) (direction s) (datatype s) (enabled s)
    zero16 0 zero16 0 0.

Definition input_full (s : CrypEngine) : bool := in_len s =? 16.
Definition input_empty (s : CrypEngine) : bool := in_len s =? 0.
Definition output_empty (s : CrypEngine) : bool := out_avail s =? 0.
Definition output_full (s : CrypEngine) : bool := out_avail s =? 16.

(** The loop [for i in (0..16).rev()], from index [i - 1] down. *)
Fixpoint ctr_inc_from (i : nat) (iv : bytes) : bytes :=
  match i with
  | O => iv
  | S i =>
      let b := as_u8 (iv !!! i + 1) in
      let iv := <[i := b]> iv in
      if negb (b =? 0) then iv else ctr_inc_from i iv
  end.

Definition ctr_inc (iv : bytes) : bytes := ctr_inc_from 16 iv.

Section engine.
Context {A : AesBlocks}.

(** [&self.key[..n]] for the key size. *)
Definition aes_key (s : CrypEngine) : bytes :=
  match key_size s with
  | K128 => take 16 (key s)
  | K192 => take 24 (key s)
  | K256 => take 32 (key s)
  end.

Definition aes_encrypt_block (s : CrypEngine) (block : bytes) : bytes := aes_enc (aes_key s) block.
Definition aes_decrypt_block (s : CrypEngine) (block : bytes) : bytes := aes_dec (aes_key s) block.

Definition aes_block (s : CrypEngine) (block : bytes) : bytes :=
  match direction s with
  | Encrypt => aes_encrypt_block s block
  | Decrypt => aes_decrypt_block s block
  end.

Definition aes_encrypt_external (s : CrypEngine) (block : bytes) : bytes := aes_encrypt_block s block.

Definition stage_output (s : CrypEngine) (b : bytes) : CrypEngine :=
  with_out_avail 16 (with_out_pos 0 (with_out_buf b s)).

(** The block transform: the block, the next chaining value, whether to emit. *)
Definition transform (s : CrypEngine) : bytes * bytes * bool :=
  let block := in_buf s in
  match mode s with
  | Ecb => (aes_block s block, iv s, true)
  | Cbc =>
      match direction s with
      | Encrypt =>
          let block := xor_bytes block (iv s) in
          let block := aes_block s block in
          (block, block, true)
      | Decrypt =>
          let prev_iv := iv s in
          let next := block in
          let block := aes_block s block in
          (xor_bytes block prev_iv, next, true)
      end
  | Ctr =>
      let keystream := aes_encrypt_block s (iv s) in
      (xor_bytes block keystream, ctr_inc (iv s), true)
  | Gcm => (block, iv s, false)
  | KeyDerivation => (block, iv s, false)
  end.

Definition process_block (s : CrypEngine) : CrypEngine :=
  let '(block, iv, emit) := transform s in
  let s := with_iv iv s in
  let s := if (emit : bool) then stage_output s block else s in
  with_in_len 0 (with_in_buf zero16 s).

(** [for b in bytes { buf[len] = b; len += 1 }]. *)
Fixpoint push_bytes (buf : bytes) (n : Z) (bs : bytes) : res (bytes * Z) :=
  match bs with
  | [] => Ret (buf, n)
  | b :: bs =>
      let! buf := set_idx buf n b in
      push_bytes buf (n + 1) bs
  end.

Definition write_din (s : CrypEngine) (value : Z) : res CrypEngine :=
  if negb (enabled s) || (16 <=? in_len s) then Ret s
  else
    let swapped := swap (datatype s) value in
    let! '(buf, n) := push_bytes (in_buf s) (in_len s) (be_bytes 4 swapped) in
    let s := with_in_len n (with_in_buf buf s) in
    Ret (if n =? 16 then process_block s else s).

Definition read_dout (s : CrypEngine) : res (Z * CrypEngine) :=
  if out_avail s <? 4 then Ret (0, s)
  else
    let! buf := slice (out_buf s) (out_pos s) (out_pos s + 4) in
    let s := with_out_avail (out_avail s - 4) (with_out_pos (out_pos s + 4) s) in
    Ret (swap (datatype s) (be_val buf), s).
End engine.
End cryp.

Module gcm.
Import cryp.

Inductive GcmPhase := Init | Header | Payload | Final.

#[export] Instance GcmPhase_eq_dec : EqDecision GcmPhase.
Proof. solve_decision. Defined.

Definition phase_from_bits (bits : Z) : GcmPhase :=
  let b := Z.land bits 0x3 in
  if b =? 0 then Init else if b =? 1 then Header else if b =? 2 then Payload else Final.

Record GcmSession := mkGcmSession {
  phase : GcmPhase;
  h : bytes;
  j0 : bytes;
  tag_mask : bytes;
  counter : bytes;
  y : bytes;
  aad_bits : Z;
  text_bits : Z;
}.

Definition with_phase (v : GcmPhase) (s : GcmSession) : GcmSession :=
  mkGcmSession v (h s) (j0 s) (tag_mask s) (counter s) (y s) (aad_bits s) (text_bits s).
Definition with_h (v : bytes) (s : GcmSession) : GcmSession :=
  mkGcmSession (phase s) v (j0 s) (tag_mask s) (counter s) (y s) (aad_bits s) (text_bits s).
Definition with_j0 (v : bytes) (s : GcmSession) : GcmSession :=
  mkGcmSession (phase s) (h s) v (tag_mask s) (counter s) (y s) (aad_bits s) (text_bits s).
Definition with_tag_mask (v : bytes) (s : GcmSession) : GcmSession :=
  mkGcmSession (phase s) (h s) (j0 s) v (counter s) (y s) (aad_bits s) (text_bits s).
Definition with_counter (v : bytes) (s : GcmSession) : GcmSession :=
  mkGcmSession (phase s) (h s) (j0 s) (tag_mask s) v (y s) (aad_bits s) (text_bits s).
Definition with_y (v : bytes) (s : GcmSession) : GcmSession :=
  mkGcmSession (phase s) (h s) (j0 s) (tag_mask s) (counter s) v (aad_bits s) (text_bits s).
Definition with_aad_bits (v : Z) (s : GcmSession) : GcmSession :=
  mkGcmSession (phase s) (h s) (j0 s) (tag_mask s) (counter s) (y s) v (text_bits s).
Definition with_text_bits (v : Z) (s : GcmSession) : GcmSession :=
  mkGcmSession (phase s) (h s) (j0 s) (tag_mask s) (counter s) (y s) (aad_bits s) v.

Definition default_session : GcmSession := mkGcmSession Init zero16 zero16 zero16 zero16 zero16 0 0.

Definition ctr32_inc (counter : bytes) : bytes :=
  let c := be_val (sub counter 12 16) in
  let c := as_u32 (c + 1) in
  splice counter 12 (be_bytes 4 c).

(** One turn of the shift [v[j] = (v[j] >> 1) | ((v[j - 1] & 1) << 7)]. *)
Definition shift_step (v : bytes) (j : nat) : bytes :=
  <[j := Z.lor (Z.shiftr (v !!! j) 1) (Z.shiftl (Z.land (v !!! (j - 1)%nat) 1) 7)]> v.

(** One turn of the loop of [gf128_mul], on [(z, v)]. *)
Definition gf128_step (x : bytes) (zv : bytes * bytes) (i : nat) : bytes * bytes :=
  let '(z, v) := zv in
  let bit := Z.land (Z.shiftr (x !!! (i / 8)%nat) (7 - Z.of_nat i mod 8)) 1 in
  let z := if negb (bit =? 0) then xor_bytes z v else z in
  let lsb := Z.land (v !!! 15%nat) 1 in
  let v := fold_left shift_step (reverse (seq 1 15)) v in
  let v := <[0%nat := Z.shiftr (v !!! 0%nat) 1]> v in
  let v := if negb (lsb =? 0) then <[0%nat := Z.lxor (v !!! 0%nat) 0xE1]> v else v in
  (z, v).

Definition gf128_mul (x y : bytes) : bytes :=
  (fold_left (gf128_step x) (seq 0 128) (zero16, y)).1.

(** The reference in the unit tests, on [u128]. *)
Definition gf128_step_u128 (xi : Z) (zv : Z * Z) (i : Z) : Z * Z :=
  let '(z, v) := zv in
  let z := if negb (Z.land (Z.shiftr xi (127 - i)) 1 =? 0) then Z.lxor z v else z in
  let v := if negb (Z.land v 1 =? 0)
           then Z.lxor (Z.shiftr v 1) 0xE1000000000000000000000000000000
           else Z.shiftr v 1 in
  (z, v).

Definition gf128_mul_u128 (x y : bytes) : bytes :=
  be_bytes 16 (fold_left (gf128_step_u128 (be_val x)) (Z.of_nat <$> seq 0 128) (0, be_val y)).1.

Definition ghash_update (y block h : bytes) : bytes := gf128_mul (xor_bytes y block) h.

Section session.
Context {A : AesBlocks}.

Definition init (self : GcmSession) (engine : CrypEngine) : GcmSession :=
  let self := with_phase Init self in
  let self := with_y zero16 self in
  let self := with_aad_bits 0 self in
  let self := with_text_bits 0 self in
  let self := with_h (aes_encrypt_external engine zero16) self in
  let self := with_j0 (iv engine) self in
  let self := with_tag_mask (aes_encrypt_external engine (j0 self)) self in
  with_counter (ctr32_inc (j0 self)) self.

Definition ingest_aad (self : GcmSession) (block : bytes) : GcmSession :=
  let self := with_y (ghash_update (y self) block (h self)) self in
  with_aad_bits ((aad_bits self + 128) mod 2 ^ 64) self.

Definition process_payload (self : GcmSession) (dir : Direction) (engine : CrypEngine) (block : bytes)
  : bytes * GcmSession :=
  let keystream := aes_encrypt_external engine (counter self) in
  let self := with_counter (ctr32_inc (counter self)) self in
  let out := xor_bytes block keystream in
  let ct_block := match dir with Encrypt => out | Decrypt => block end in
  let self := with_y (ghash_update (y self) ct_block (h self)) self in
  (out, with_text_bits ((text_bits self + 128) mod 2 ^ 64) self).

Definition finalise (self : GcmSession) : bytes * GcmSession :=
  let len_block := be_bytes 8 (aad_bits self) ++ be_bytes 8 (text_bits self) in
  let self := with_y (ghash_update (y self) len_block (h self)) self in
  (xor_bytes (y self) (tag_mask self), self).

(** The dispatch of one full block by phase, in [gcm_din] of either register file:
    the session and the engine after it. *)
Definition gcm_block (self : GcmSession) (engine : CrypEngine) (block : bytes)
  : GcmSession * CrypEngine :=
  match phase self with
  | Init => (self, engine)
  | Header => (ingest_aad self block, engine)
  | Payload =>
      let '(out, self) := process_payload self (direction engine) engine block in
      (self, stage_output engine out)
  | Final =>
      let '(tag, self) := finalise self in
      (self, stage_output engine tag)
  end.
End session.
End gcm.

Module v1.
Import cryp gcm.

Definition CR : Z := 0x00.
Definition SR : Z := 0x04.
Definition DIN : Z := 0x08.
Definition DOUT : Z := 0x0C.
Definition DMACR : Z := 0x10.
Definition IMSCR : Z := 0x14.
Definition KEY_BASE : Z := 0x20.
Definition KEY_END : Z := 0x3C.
Definition IV_BASE : Z := 0x40.
Definition IV_END : Z := 0x4C.

Definition CR_FFLUSH : Z := Z.shiftl 1 14.
Definition CR_CRYPEN : Z := Z.shiftl 1 15.
Definition CR_ALGODIR : Z := Z.shiftl 1 2.
Definition CR_ALGOMODE_LOW_SHIFT : Z := 3.
Definition CR_ALGOMODE_LOW_MASK : Z := Z.shiftl 0x7 CR_ALGOMODE_LOW_SHIFT.
Definition CR_ALGOMODE_HI : Z := Z.shiftl 1 19.
Definition CR_DATATYPE_SHIFT : Z := 6.
Definition CR_DATATYPE_MASK : Z := Z.shiftl 0x3 CR_DATATYPE_SHIFT.
Definition CR_KEYSIZE_SHIFT : Z := 8.
Definition CR_KEYSIZE_MASK : Z := Z.shiftl 0x3 CR_KEYSIZE_SHIFT.
Definition CR_GCMPH_SHIFT : Z := 16.
Definition CR_GCMPH_MASK : Z := Z.shiftl 0x3 CR_GCMPH_SHIFT.

Record CrypV1 := mkCrypV1 {
  cr : Z;
  key_regs : list Z;
  iv_regs : list Z;
  dmacr : Z;
  imscr : Z;
  engine : CrypEngine;
  gcm : GcmSession;
  gcm_in_buf : bytes;
  gcm_in_len : Z;
}.

Definition with_cr (v : Z) (s : CrypV1) : CrypV1 :=
  mkCrypV1 v (key_regs s) (iv_regs s) (dmacr s) (imscr s) (engine s) (gcm s) (gcm_in_buf s)
    (gcm_in_len s).
Definition with_key_regs (v : list Z) (s : CrypV1) : CrypV1 :=
  mkCrypV1 (cr s) v (iv_regs s) (dmacr s) (imscr s) (engine s) (gcm s) (gcm_in_buf s)
    (gcm_in_len s).
Definition with_iv_regs (v : list Z) (s : CrypV1) : CrypV1 :=
  mkCrypV1 (cr s) (key_regs s) v (dmacr s) (imscr s) (engine s) (gcm s) (gcm_in_buf s)
    (gcm_in_len s).
Definition with_dmacr (v : Z) (s : CrypV1) : CrypV1 :=
  mkCrypV1 (cr s) (key_regs s) (iv_regs s) v (imscr s) (engine s) (gcm s) (gcm_in_buf s)
    (gcm_in_len s).
Definition with_imscr (v : Z) (s : CrypV1) : CrypV1 :=
  mkCrypV1 (cr s) (key_regs s) (iv_regs s) (dmacr s) v (engine s) (gcm s) (gcm_in_buf s)
    (gcm_in_len s).
Definition with_engine (v : CrypEngine) (s : CrypV1) : CrypV1 :=
  mkCrypV1 (cr s) (key_regs s) (iv_regs s) (dmacr s) (imscr s) v (gcm s) (gcm_in_buf s)
    (gcm_in_len s).
Definition with_gcm (v : GcmSession) (s : CrypV1) : CrypV1 :=
  mkCrypV1 (cr s) (key_regs s) (iv_regs s) (dmacr s) (imscr s) (engine s) v (gcm_in_buf s)
    (gcm_in_len s).
Definition with_gcm_in_buf (v : bytes) (s : CrypV1) : CrypV1 :=
  mkCrypV1 (cr s) (key_regs s) (iv_regs s) (dmacr s) (imscr s) (engine s) (gcm s) v (gcm_in_len s).
Definition with_gcm_in_len (v : Z) (s : CrypV1) : CrypV1 :=
  mkCrypV1 (cr s) (key_regs s) (iv_regs s) (dmacr s) (imscr s) (engine s) (gcm s) (gcm_in_buf s) v.

Definition new : CrypV1 :=
  mkCrypV1 0 (vec_repeat 0 8) (vec_repeat 0 4) 0 0 default_engine default_session zero16 0.

Definition gcm_phase (s : CrypV1) : GcmPhase :=
  phase_from_bits (Z.shiftr (Z.land (cr s) CR_GCMPH_MASK) CR_GCMPH_SHIFT).

Definition expand_key (regs : list Z) (size : KeySize) : bytes :=
  let start := match size with K128 => 4%nat | K192 => 2%nat | K256 => 0%nat end in
  let out := (drop start regs) ≫= be_bytes 4 in
  out ++ drop (length out) (vec_repeat 0 32).

Definition expand_iv (regs : list Z) : bytes := regs ≫= be_bytes 4.

Definition algomode (cr : Z) : Z :=
  Z.lor (Z.shiftr (Z.land cr CR_ALGOMODE_LOW_MASK) CR_ALGOMODE_LOW_SHIFT)
        (if has cr CR_ALGOMODE_HI then 0x8 else 0).

Definition mode_of (algomode : Z) : AesMode :=
  if algomode =? 4 then Ecb else if algomode =? 5 then Cbc else if algomode =? 6 then Ctr
  else if algomode =? 7 then KeyDerivation else if algomode =? 8 then Gcm else Ecb.

Section peripheral.
Context {A : AesBlocks}.

Definition gcm_din (s : CrypV1) (value : Z) : res CrypV1 :=
  if negb (enabled (engine s)) || negb (bool_decide (mode (engine s) = Gcm)) then Ret s
  else
    let swapped := swap (datatype (engine s)) value in
    let! '(buf, n) := push_bytes (gcm_in_buf s) (gcm_in_len s) (be_bytes 4 swapped) in
    let s := with_gcm_in_len n (with_gcm_in_buf buf s) in
    if n <? 16 then Ret s
    else
      let block := gcm_in_buf s in
      let s := with_gcm_in_len 0 (with_gcm_in_buf zero16 s) in
      let '(g, e) := gcm_block (gcm s) (engine s) block in
      Ret (with_gcm g (with_engine e s)).

(** [if phase == Init { self.gcm.init(&self.engine) } else { self.gcm.phase = phase }]. *)
Definition enter_phase (s : CrypV1) : CrypV1 :=
  let phase := gcm_phase s in
  if bool_decide (phase = Init) then with_gcm (init (gcm s) (engine s)) s
  else with_gcm (with_phase phase (gcm s)) s.

Definition commit_config (s : CrypV1) : CrypV1 :=
  let keysize_bits := Z.shiftr (Z.land (cr s) CR_KEYSIZE_MASK) CR_KEYSIZE_SHIFT in
  let e := engine s in
  let e := with_key_size (if keysize_bits =? 1 then K192 else if keysize_bits =? 2 then K256 else K128) e in
  let datatype_bits := Z.shiftr (Z.land (cr s) CR_DATATYPE_MASK) CR_DATATYPE_SHIFT in
  let e := with_datatype (from_bits datatype_bits) e in
  let e := with_direction (if has (cr s) CR_ALGODIR then Decrypt else Encrypt) e in
  let e := with_mode (mode_of (algomode (cr s))) e in
  let e := with_key (expand_key (key_regs s) (key_size e)) e in
  let e := with_iv (expand_iv (iv_regs s)) e in
  let s := with_engine (reset_fifos e) s in
  let s := with_gcm_in_len 0 (with_gcm_in_buf zero16 s) in
  if bool_decide (mode (engine s) = Gcm) then enter_phase s else s.

Definition cfg_mask : Z :=
  Z.lor (Z.lor (Z.lor (Z.lor CR_ALGOMODE_LOW_MASK CR_ALGOMODE_HI) CR_ALGODIR) CR_KEYSIZE_MASK)
    CR_DATATYPE_MASK.

Definition write_cr (s : CrypV1) (value : Z) : CrypV1 :=
  let was_enabled := has (cr s) CR_CRYPEN in
  let prev_cr := cr s in
  let s := with_cr (Z.land value (not32 CR_FFLUSH)) s in
  let s := if has value CR_FFLUSH then with_engine (reset_fifos (engine s)) s else s in
  let now_enabled := has (cr s) CR_CRYPEN in
  if negb was_enabled && now_enabled then
    let s := commit_config s in
    with_engine (with_enabled true (engine s)) s
  else if was_enabled && negb now_enabled then
    with_engine (with_enabled false (engine s)) s
  else if now_enabled then
    if bool_decide (mode (engine s) = Gcm) then
      let s := enter_phase s in
      let s := with_gcm_in_len 0 (with_gcm_in_buf zero16 s) in
      with_engine (reset_fifos (engine s)) s
    else if negb (Z.land (Z.lxor prev_cr (cr s)) cfg_mask =? 0) then commit_config s
    else s
  else s.

Definition compute_sr (s : CrypV1) : Z :=
  let sr := 0 in
  let sr := if input_empty (engine s) then Z.lor sr (Z.shiftl 1 0) else sr in
  let sr := if negb (input_full (engine s)) then Z.lor sr (Z.shiftl 1 1) else sr in
  let sr := if negb (output_empty (engine s)) then Z.lor sr (Z.shiftl 1 2) else sr in
  let sr := if output_full (engine s) then Z.lor sr (Z.shiftl 1 3) else sr in
  Z.lor sr (Z.shiftl 1 7).

Definition read (s : CrypV1) (offset _size : Z) : res (Z * CrypV1) :=
  if offset =? CR then Ret (cr s, s)
  else if offset =? SR then Ret (compute_sr s, s)
  else if offset =? DIN then Ret (0, s)
  else if offset =? DOUT then
    let! '(v, e) := read_dout (engine s) in
    Ret (v, with_engine e s)
  else if offset =? DMACR then Ret (dmacr s, s)
  else if offset =? IMSCR then Ret (imscr s, s)
  else if (offset =? 0x18) || (offset =? 0x1C) then Ret (0, s)
  else if in_range KEY_BASE KEY_END offset then
    let! v := idx (key_regs s) ((offset - KEY_BASE) / 4) in Ret (v, s)
  else if in_range IV_BASE IV_END offset then
    let! v := idx (iv_regs s) ((offset - IV_BASE) / 4) in Ret (v, s)
  else Ret (0, s).

Definition write (s : CrypV1) (offset _size value : Z) : res CrypV1 :=
  if offset =? CR then Ret (write_cr s value)
  else if offset =? DIN then
    if enabled (engine s) && bool_decide (mode (engine s) = Gcm) then gcm_din s value
    else
      let! e := write_din (engine s) value in
      Ret (with_engine e s)
  else if offset =? DMACR then Ret (with_dmacr value s)
  else if offset =? IMSCR then Ret (with_imscr value s)
  else if in_range KEY_BASE KEY_END offset then
    let! regs := set_idx (key_regs s) ((offset - KEY_BASE) / 4) value in
    let s := with_key_regs regs s in
    if enabled (engine s) then
      Ret (with_engine (with_key (expand_key (key_regs s) (key_size (engine s))) (engine s)) s)
    else Ret s
  else if in_range IV_BASE IV_END offset then
    let! regs := set_idx (iv_regs s) ((offset - IV_BASE) / 4) value in
    let s := with_iv_regs regs s in
    if enabled (engine s) then Ret (with_engine (with_iv (expand_iv (iv_regs s)) (engine s)) s)
    else Ret s
  else Ret s.

#[export] Instance peripheral_v1 : Peripheral CrypV1 := {| p_read := read; p_write := write |}.
End peripheral.
End v1.

Module v2.
Import cryp gcm.

Definition CR : Z := 0x00.
Definition SR : Z := 0x04.
Definition DINR : Z := 0x08.
Definition DOUTR : Z := 0x0C.
Definition KEYR0 : Z := 0x10.
Definition KEYR_LOW_END : Z := 0x1C.
Definition IVR0 : Z := 0x20.
Definition IVR_END : Z := 0x2C.
Definition KEYR4 : Z := 0x30.
Definition KEYR_HIGH_END : Z := 0x3C.
Definition SUSP_BASE : Z := 0x40.
Definition SUSP_END : Z := 0x5C.
Definition IER : Z := 0x300.
Definition ISR : Z := 0x304.
Definition ICR : Z := 0x308.

Definition CR_EN : Z := Z.shiftl 1 0.
Definition CR_DATATYPE_SHIFT : Z := 1.
Definition CR_DATATYPE_MASK : Z := Z.shiftl 0x3 CR_DATATYPE_SHIFT.
Definition CR_MODE_SHIFT : Z := 3.
Definition CR_MODE_MASK : Z := Z.shiftl 0x3 CR_MODE_SHIFT.
Definition CR_CHMOD_LOW_SHIFT : Z := 5.
Definition CR_CHMOD_LOW_MASK : Z := Z.shiftl 0x3 CR_CHMOD_LOW_SHIFT.
Definition CR_CHMOD_HI : Z := Z.shiftl 1 16.
Definition CR_GCMPH_SHIFT : Z := 13.
Definition CR_GCMPH_MASK : Z := Z.shiftl 0x3 CR_GCMPH_SHIFT.
Definition CR_KEYSIZE_256 : Z := Z.shiftl 1 18.
Definition SR_CCF : Z := Z.shiftl 1 0.
Definition ISR_CCF : Z := Z.shiftl 1 0.

Record CrypV2 := mkCrypV2 {
  cr : Z;
  key_lo : list Z;
  key_hi : list Z;
  iv_regs : list Z;
  ier : Z;
  isr : Z;
  engine : CrypEngine;
  gcm : GcmSession;
  gcm_in_buf : bytes;
  gcm_in_len : Z;
  key_derivation_active : bool;
}.

Definition with_cr (v : Z) (s : CrypV2) : CrypV2 :=
  mkCrypV2 v (key_lo s) (key_hi s) (iv_regs s) (ier s) (isr s) (engine s) (gcm s)
    (gcm_in_buf s) (gcm_in_len s) (key_derivation_active s).
Definition with_key_lo (v : list Z) (s : CrypV2) : CrypV2 :=
  mkCrypV2 (cr s) v (key_hi s) (iv_regs s) (ier s) (isr s) (engine s) (gcm s) (gcm_in_buf s)
    (gcm_in_len s) (key_derivation_active s).
Definition with_key_hi (v : list Z) (s : CrypV2) : CrypV2 :=
  mkCrypV2 (cr s) (key_lo s) v (iv_regs s) (ier s) (isr s) (engine s) (gcm s) (gcm_in_buf s)
    (gcm_in_len s) (key_derivation_active s).
Definition with_iv_regs (v : list Z) (s : CrypV2) : CrypV2 :=
  mkCrypV2 (cr s) (key_lo s) (key_hi s) v (ier s) (isr s) (engine s) (gcm s) (gcm_in_buf s)
    (gcm_in_len s) (key_derivation_active s).
Definition with_ier (v : Z) (s : CrypV2) : CrypV2 :=
  mkCrypV2 (cr s) (key_lo s) (key_hi s) (iv_regs s) v (isr s) (engine s) (gcm s) (gcm_in_buf s)
    (gcm_in_len s) (key_derivation_active s).
Definition with_isr (v : Z) (s : CrypV2) : CrypV2 :=
  mkCrypV2 (cr s) (key_lo s) (key_hi s) (iv_regs s) (ier s) v (engine s) (gcm s) (gcm_in_buf s)
    (gcm_in_len s) (key_derivation_active s).
Definition with_engine (v : CrypEngine) (s : CrypV2) : CrypV2 :=
  mkCrypV2 (cr s) (key_lo s) (key_hi s) (iv_regs s) (ier s) (isr s) v (gcm s) (gcm_in_buf s)
    (gcm_in_len s) (key_derivation_active s).
Definition with_gcm (v : GcmSession) (s : CrypV2) : CrypV2 :=
  mkCrypV2 (cr s) (key_lo s) (key_hi s) (iv_regs s) (ier s) (isr s) (engine s) v (gcm_in_buf s)
    (gcm_in_len s) (key_derivation_active s).
Definition with_gcm_in_buf (v : bytes) (s : CrypV2) : CrypV2 :=
  mkCrypV2 (cr s) (key_lo s) (key_hi s) (iv_regs s) (ier s) (isr s) (engine s) (gcm s) v
    (gcm_in_len s) (key_derivation_active s).
Definition with_gcm_in_len (v : Z) (s : CrypV2) : CrypV2 :=
  mkCrypV2 (cr s) (key_lo s) (key_hi s) (iv_regs s) (ier s) (isr s) (engine s) (gcm s)
    (gcm_in_buf s) v (key_derivation_active s).
Definition with_key_derivation_active (v : bool) (s : CrypV2) : CrypV2 :=
  mkCrypV2 (cr s) (key_lo s) (key_hi s) (iv_regs s) (ier s) (isr s) (engine s) (gcm s)
    (gcm_in_buf s) (gcm_in_len s) v.

Definition new : CrypV2 :=
  mkCrypV2 0 (vec_repeat 0 4) (vec_repeat 0 4) (vec_repeat 0 4) 0 0 default_engine default_session
    zero16 0 false.

Definition gcm_phase (s : CrypV2) : GcmPhase :=
  phase_from_bits (Z.shiftr (Z.land (cr s) CR_GCMPH_MASK) CR_GCMPH_SHIFT).

(** The registers from the highest to the lowest. *)
Definition words_down (regs : list Z) : bytes := reverse regs ≫= be_bytes 4.

Definition expand_key (s : CrypV2) : bytes :=
  match key_size (engine s) with
  | K128 => words_down (key_lo s) ++ vec_repeat 0 16
  | K192 => words_down (key_lo s) ++ vec_repeat 0 16
  | K256 => words_down (key_hi s) ++ words_down (key_lo s)
  end.

Definition expand_iv (regs : list Z) : bytes := words_down regs.

Definition CR_ALG_BITS : Z :=
  Z.lor (Z.lor (Z.lor (Z.lor CR_DATATYPE_MASK CR_MODE_MASK) CR_CHMOD_LOW_MASK) CR_CHMOD_HI)
    CR_KEYSIZE_256.

Definition chmod (cr : Z) : Z :=
  Z.lor (Z.shiftr (Z.land cr CR_CHMOD_LOW_MASK) CR_CHMOD_LOW_SHIFT)
        (Z.shiftl (if has cr CR_CHMOD_HI then 1 else 0) 2).

Definition mode_of (chmod : Z) : AesMode :=
  if chmod =? 0 then Ecb else if chmod =? 1 then Cbc else if chmod =? 2 then Ctr
  else if chmod =? 3 then Gcm else Ecb.

Section peripheral.
Context {A : AesBlocks}.

Definition enter_phase (s : CrypV2) : CrypV2 :=
  let phase := gcm_phase s in
  if bool_decide (phase = Init) then with_gcm (init (gcm s) (engine s)) s
  else with_gcm (with_phase phase (gcm s)) s.

Definition commit_config (s : CrypV2) : CrypV2 :=
  let e := engine s in
  let e := with_key_size (if has (cr s) CR_KEYSIZE_256 then K256 else K128) e in
  let datatype_bits := Z.shiftr (Z.land (cr s) CR_DATATYPE_MASK) CR_DATATYPE_SHIFT in
  let e := with_datatype (from_bits datatype_bits) e in
  let mode_bits := Z.shiftr (Z.land (cr s) CR_MODE_MASK) CR_MODE_SHIFT in
  let s := with_key_derivation_active ((mode_bits =? 1) || (mode_bits =? 3)) s in
  let e := with_direction (if mode_bits =? 0 then Encrypt else Decrypt) e in
  let e := with_mode (mode_of (chmod (cr s))) e in
  let s := with_engine e s in
  let e := with_key (expand_key s) e in
  let e := with_iv (expand_iv (iv_regs s)) e in
  let s := with_engine (reset_fifos e) s in
  let s := with_gcm_in_len 0 (with_gcm_in_buf zero16 s) in
  if bool_decide (mode (engine s) = Gcm) then enter_phase s else s.

Definition write_cr (s : CrypV2) (value : Z) : CrypV2 :=
  let was_enabled := has (cr s) CR_EN in
  let prev_alg_bits := Z.land (cr s) CR_ALG_BITS in
  let s := with_cr value s in
  let now_enabled := has (cr s) CR_EN in
  let alg_bits_changed := negb (Z.land (cr s) CR_ALG_BITS =? prev_alg_bits) in
  if negb was_enabled && now_enabled then
    let s := commit_config s in
    with_engine (with_enabled true (engine s)) s
  else if was_enabled && negb now_enabled then
    with_key_derivation_active false (with_engine (with_enabled false (engine s)) s)
  else if now_enabled && bool_decide (mode (engine s) = Gcm) && negb alg_bits_changed then
    let s := enter_phase s in
    let s := with_gcm_in_len 0 (with_gcm_in_buf zero16 s) in
    with_engine (reset_fifos (engine s)) s
  else if now_enabled && alg_bits_changed then
    let s := commit_config s in
    with_engine (with_enabled true (engine s)) s
  else s.

Definition compute_sr (s : CrypV2) : Z :=
  if negb (output_empty (engine s)) || (enabled (engine s) && key_derivation_active s)
  then Z.lor 0 SR_CCF else 0.

Definition compute_isr (s : CrypV2) : Z :=
  if negb (output_empty (engine s)) || (enabled (engine s) && key_derivation_active s)
  then Z.lor 0 ISR_CCF else 0.

Definition gcm_din (s : CrypV2) (value : Z) : res CrypV2 :=
  if negb (enabled (engine s)) || negb (bool_decide (mode (engine s) = Gcm)) then Ret s
  else
    let swapped := swap (datatype (engine s)) value in
    let! '(buf, n) := push_bytes (gcm_in_buf s) (gcm_in_len s) (be_bytes 4 swapped) in
    let s := with_gcm_in_len n (with_gcm_in_buf buf s) in
    if n <? 16 then Ret s
    else
      let block := gcm_in_buf s in
      let s := with_gcm_in_len 0 (with_gcm_in_buf zero16 s) in
      let '(g, e) := gcm_block (gcm s) (engine s) block in
      Ret (with_gcm g (with_engine e s)).

Definition read (s : CrypV2) (offset _size : Z) : res (Z * CrypV2) :=
  if offset =? CR then Ret (cr s, s)
  else if offset =? SR then Ret (compute_sr s, s)
  else if offset =? DINR then Ret (0, s)
  else if offset =? DOUTR then
    let! '(v, e) := read_dout (engine s) in
    Ret (v, with_engine e s)
  else if in_range KEYR0 KEYR_LOW_END offset then
    let! v := idx (key_lo s) ((offset - KEYR0) / 4) in Ret (v, s)
  else if in_range IVR0 IVR_END offset then
    let! v := idx (iv_regs s) ((offset - IVR0) / 4) in Ret (v, s)
  else if in_range KEYR4 KEYR_HIGH_END offset then
    let! v := idx (key_hi s) ((offset - KEYR4) / 4) in Ret (v, s)
  else if offset =? IER then Ret (ier s, s)
  else if offset =? ISR then Ret (compute_isr s, s)
  else if in_range SUSP_BASE SUSP_END offset then Ret (0, s)
  else Ret (0, s).

(** [if self.engine.enabled { self.engine.key = self.expand_key() }]. *)
Definition refresh_key (s : CrypV2) : CrypV2 :=
  if enabled (engine s) then with_engine (with_key (expand_key s) (engine s)) s else s.

Definition write (s : CrypV2) (offset _size value : Z) : res CrypV2 :=
  if offset =? CR then Ret (write_cr s value)
  else if offset =? DINR then
    if enabled (engine s) && bool_decide (mode (engine s) = Gcm) then gcm_din s value
    else
      let! e := write_din (engine s) value in
      Ret (with_engine e s)
  else if in_range KEYR0 KEYR_LOW_END offset then
    let! regs := set_idx (key_lo s) ((offset - KEYR0) / 4) value in
    Ret (refresh_key (with_key_lo regs s))
  else if in_range IVR0 IVR_END offset then
    let! regs := set_idx (iv_regs s) ((offset - IVR0) / 4) value in
    let s := with_iv_regs regs s in
    Ret (with_engine (with_iv (expand_iv (iv_regs s)) (engine s)) s)
  else if in_range KEYR4 KEYR_HIGH_END offset then
    let! regs := set_idx (key_hi s) ((offset - KEYR4) / 4) value in
    Ret (refresh_key (with_key_hi regs s))
  else if offset =? IER then Ret (with_ier value s)
  else if offset =? ICR then Ret (with_isr (Z.land (isr s) (not32 value)) s)
  else if in_range SUSP_BASE SUSP_END offset then Ret s
  else Ret s.

#[export] Instance peripheral_v2 : Peripheral CrypV2 := {| p_read := read; p_write := write |}.
End peripheral.
End v2.
