(* ===== verification/Stm32Hash.v ===== *)
(** * STM32Sim: the HASH peripheral

    [peripherals/src/hash/]: the streaming digest engine with the hardware HMAC of three
    phases ([hash], [mod.rs]) and the register file of the STM32H7, U5 and MP13 ([v1],
    [v1.rs]), whose context save and restore goes through a snapshot of the engine. *)

From S2P Require Import Prelude.
From S2P Require Import McuCrates.
From S2P Require Import Stm32Core.

Module hash.
Inductive Algo :=
  | Sha1 | Md5 | Sha224 | Sha256 | Sha384 | Sha512 | Sha512_224 | Sha512_256
  | Sha3_224 | Sha3_256 | Sha3_384 | Sha3_512 | Shake128 | Shake256.

Inductive DataType := Word | Halfword | Byte | Bit.
Inductive HmacPhase := Off | Key1 | Msg | Key2.

#[export] Instance HmacPhase_eq_dec : EqDecision HmacPhase.
Proof. solve_decision. Defined.

Definition output_words (a : Algo) : Z :=
  match a with
  | Sha1 => 5
  | Md5 | Shake128 => 4
  | Sha224 | Sha3_224 | Sha512_224 => 7
  | Sha256 | Sha3_256 | Shake256 | Sha512_256 => 8
  | Sha384 | Sha3_384 => 12
  | Sha512 | Sha3_512 => 16
  end.

Definition block_size (a : Algo) : Z :=
  match a with
  | Md5 | Sha1 | Sha224 | Sha256 => 64
  | Sha384 | Sha512 | Sha512_224 | Sha512_256 => 128
  | Sha3_224 => 144
  | Sha3_256 => 136
  | Sha3_384 => 104
  | Sha3_512 => 72
  | Shake128 => 168
  | Shake256 => 136
  end.

Definition from_bits (bits : Z) : DataType :=
  let b := Z.land bits 0x3 in
  if b =? 0 then Word else if b =? 1 then Halfword else if b =? 2 then Byte else Bit.

Section engine.
Context {D : DigestCrates}.

(** A boxed hasher: one of the fixed digests, or a SHAKE behind [ShakeWrapper]. *)
Inductive DynDigest :=
  | Fixed (size : Z) (h : digest_t)
  | ShakeWrapper (inner : xof_t) (output_len : Z).

Definition fixed (d : digest_name) : DynDigest := Fixed (digest_size d) (digest_new d).

Definition fresh_hasher (algo : Algo) : DynDigest :=
  match algo with
  | Sha1 => fixed cSha1
  | Md5 => fixed cMd5
  | Sha224 => fixed cSha224
  | Sha256 => fixed cSha256
  | Sha384 => fixed cSha384
  | Sha512 => fixed cSha512
  | Sha512_224 => fixed cSha512_224
  | Sha512_256 => fixed cSha512_256
  | Sha3_224 => fixed cSha3_224
  | Sha3_256 => fixed cSha3_256
  | Sha3_384 => fixed cSha3_384
  | Sha3_512 => fixed cSha3_512
  | Shake128 => ShakeWrapper (xof_new cShake128) 16
  | Shake256 => ShakeWrapper (xof_new cShake256) 32
  end.

Definition update (h : DynDigest) (data : bytes) : DynDigest :=
  match h with
  | Fixed n h => Fixed n (digest_update h data)
  | ShakeWrapper s n => ShakeWrapper (xof_update s data) n
  end.

(** The value of [finalize_reset]; every caller drops or replaces the hasher after it. *)
Definition finalize_reset (h : DynDigest) : bytes :=
  match h with
  | Fixed _ h => digest_finalize h
  | ShakeWrapper s n => xof_read s n
  end.

Record Engine := mkEngine {
  algo : Algo;
  datatype : DataType;
  hasher : option DynDigest;
  finalised : bool;
  result : list Z;
  bytes_fed : Z;
  saved_hasher : option DynDigest;
  saved_bytes_fed : Z;
  saved_pending_capture : bool;
  hmac_phase : HmacPhase;
  hmac_key_buf : bytes;
  hmac_outer : option DynDigest;
  saved_hmac_phase : HmacPhase;
  saved_hmac_key_buf : bytes;
  saved_hmac_outer : option DynDigest;
}.

Definition with_algo (v : Algo) (s : Engine) : Engine :=
  mkEngine v (datatype s) (hasher s) (finalised s) (result s) (bytes_fed s) (saved_hasher s)
    (saved_bytes_fed s) (saved_pending_capture s) (hmac_phase s) (hmac_key_buf s)
    (hmac_outer s) (saved_hmac_phase s) (saved_hmac_key_buf s) (saved_hmac_outer s).
Definition with_datatype (v : DataType) (s : Engine) : Engine :=
  mkEngine (algo s) v (hasher s) (finalised s) (result s) (bytes_fed s) (saved_hasher s)
    (saved_bytes_fed s) (saved_pending_capture s) (hmac_phase s) (hmac_key_buf s)
    (hmac_outer s) (saved_hmac_phase s) (saved_hmac_key_buf s) (saved_hmac_outer s).
Definition with_hasher (v : option DynDigest) (s : Engine) : Engine :=
  mkEngine (algo s) (datatype s) v (finalised s) (result s) (bytes_fed s) (saved_hasher s)
    (saved_bytes_fed s) (saved_pending_capture s) (hmac_phase s) (hmac_key_buf s)
    (hmac_outer s) (saved_hmac_phase s) (saved_hmac_key_buf s) (saved_hmac_outer s).
Definition with_finalised (v : bool) (s : Engine) : Engine :=
  mkEngine (algo s) (datatype s) (hasher s) v (result s) (bytes_fed s) (saved_hasher s)
    (saved_bytes_fed s) (saved_pending_capture s) (hmac_phase s) (hmac_key_buf s)
    (hmac_outer s) (saved_hmac_phase s) (saved_hmac_key_buf s) (saved_hmac_outer s).
Definition with_result (v : list Z) (s : Engine) : Engine :=
  mkEngine (algo s) (datatype s) (hasher s) (finalised s) v (bytes_fed s) (saved_hasher s)
    (saved_bytes_fed s) (saved_pending_capture s) (hmac_phase s) (hmac_key_buf s)
    (hmac_outer s) (saved_hmac_phase s) (saved_hmac_key_buf s) (saved_hmac_outer s).
Definition with_bytes_fed (v : Z) (s : Engine) : Engine :=
  mkEngine (algo s) (datatype s) (hasher s) (finalised s) (result s) v (saved_hasher s)
    (saved_bytes_fed s) (saved_pending_capture s) (hmac_phase s) (hmac_key_buf s)
    (hmac_outer s) (saved_hmac_phase s) (saved_hmac_key_buf s) (saved_hmac_outer s).
Definition with_saved_hasher (v : option DynDigest) (s : Engine) : Engine :=
  mkEngine (algo s) (datatype s) (hasher s) (finalised s) (result s) (bytes_fed s) v
    (saved_bytes_fed s) (saved_pending_capture s) (hmac_phase s) (hmac_key_buf s)
    (hmac_outer s) (saved_hmac_phase s) (saved_hmac_key_buf s) (saved_hmac_outer s).
Definition with_saved_bytes_fed (v : Z) (s : Engine) : Engine :=
  mkEngine (algo s) (datatype s) (hasher s) (finalised s) (result s) (bytes_fed s)
    (saved_hasher s) v (saved_pending_capture s) (hmac_phase s) (hmac_key_buf s) (hmac_outer s)
    (saved_hmac_phase s) (saved_hmac_key_buf s) (saved_hmac_outer s).
Definition with_saved_pending_capture (v : bool) (s : Engine) : Engine :=
  mkEngine (algo s) (datatype s) (hasher s) (finalised s) (result s) (bytes_fed s)
    (saved_hasher s) (saved_bytes_fed s) v (hmac_phase s) (hmac_key_buf s) (hmac_outer s)
    (saved_hmac_phase s) (saved_hmac_key_buf s) (saved_hmac_outer s).
Definition with_hmac_phase (v : HmacPhase) (s : Engine) : Engine :=
  mkEngine (algo s) (datatype s) (hasher s) (finalised s) (result s) (bytes_fed s)
    (saved_hasher s) (saved_bytes_fed s) (saved_pending_capture s) v (hmac_key_buf s)
    (hmac_outer s) (saved_hmac_phase s) (saved_hmac_key_buf s) (saved_hmac_outer s).
Definition with_hmac_key_buf (v : bytes) (s : Engine) : Engine :=
  mkEngine (algo s) (datatype s) (hasher s) (finalised s) (result s) (bytes_fed s)
    (saved_hasher s) (saved_bytes_fed s) (saved_pending_capture s) (hmac_phase s) v
    (hmac_outer s) (saved_hmac_phase s) (saved_hmac_key_buf s) (saved_hmac_outer s).
Definition with_hmac_outer (v : option DynDigest) (s : Engine) : Engine :=
  mkEngine (algo s) (datatype s) (hasher s) (finalised s) (result s) (bytes_fed s)
    (saved_hasher s) (saved_bytes_fed s) (saved_pending_capture s) (hmac_phase s)
    (hmac_key_buf s) v (saved_hmac_phase s) (saved_hmac_key_buf s) (saved_hmac_outer s).
Definition with_saved_hmac_phase (v : HmacPhase) (s : Engine) : Engine :=
  mkEngine (algo s) (datatype s) (hasher s) (finalised s) (result s) (bytes_fed s)
    (saved_hasher s) (saved_bytes_fed s) (saved_pending_capture s) (hmac_phase s)
    (hmac_key_buf s) (hmac_outer s) v (saved_hmac_key_buf s) (saved_hmac_outer s).
Definition with_saved_hmac_key_buf (v : bytes) (s : Engine) : Engine :=
  mkEngine (algo s) (datatype s) (hasher s) (finalised s) (result s) (bytes_fed s)
    (saved_hasher s) (saved_bytes_fed s) (saved_pending_capture s) (hmac_phase s)
    (hmac_key_buf s) (hmac_outer s) (saved_hmac_phase s) v (saved_hmac_outer s).
Definition with_saved_hmac_outer (v : option DynDigest) (s : Engine) : Engine :=
  mkEngine (algo s) (datatype s) (hasher s) (finalised s) (result s) (bytes_fed s)
    (saved_hasher s) (saved_bytes_fed s) (saved_pending_capture s) (hmac_phase s)
    (hmac_key_buf s) (hmac_outer s) (saved_hmac_phase s) (saved_hmac_key_buf s) v.

Definition default_engine : Engine :=
  mkEngine Sha256 Byte None false (vec_repeat 0 16) 0 None 0 false Off [] None Off [] None.

(** Every field is assigned, so the previous engine does not matter. *)
Definition init_with_mode (s : Engine) (a : Algo) (dt : DataType) (hmac : bool) : Engine :=
  mkEngine a dt (Some (fresh_hasher a)) false (vec_repeat 0 16) 0 None 0 false
    (if hmac then Key1 else Off) [] None Off [] None.

Definition capture_snapshot (s : Engine) : Engine :=
  match hasher s with
  | Some h =>
      let s := with_saved_hasher (Some h) s in
      let s := with_saved_bytes_fed (bytes_fed s) s in
      let s := with_saved_pending_capture true s in
      let s := with_saved_hmac_phase (hmac_phase s) s in
      let s := with_saved_hmac_key_buf (hmac_key_buf s) s in
      with_saved_hmac_outer (hmac_outer s) s
  | None => s
  end.

Definition restore_from_snapshot (s : Engine) : bool * Engine :=
  match saved_hasher s with
  | Some h =>
      let s := with_hasher (Some h) s in
      let s := with_bytes_fed (saved_bytes_fed s) s in
      let s := with_finalised false s in
      let s := with_result (vec_repeat 0 16) s in
      let s := with_hmac_phase (saved_hmac_phase s) s in
      let s := with_hmac_key_buf (saved_hmac_key_buf s) s in
      (true, with_hmac_outer (saved_hmac_outer s) s)
  | None => (false, s)
  end.

Definition has_snapshot (s : Engine) : bool := bool_decide (is_Some (saved_hasher s)).

Definition swapped (dt : DataType) (value : Z) : Z :=
  match dt with
  | Word => value
  | Halfword => rotate_right_16 value
  | Byte => swap_bytes value
  | Bit =>
      fold_left (fun out i =>
        let b := as_u8 (Z.land (Z.shiftr value (i * 8)) 0xFF) in
        Z.lor out (as_u32 (Z.shiftl (reverse_bits b) ((3 - i) * 8)))) [0; 1; 2; 3] 0
  end.

Definition feed_word (s : Engine) (value valid_bytes : Z) : Engine :=
  if finalised s then s
  else
    let bs := be_bytes 4 (swapped (datatype s) value) in
    let n := Z.min valid_bytes 4 in
    let data := take (Z.to_nat n) bs in
    match hmac_phase s with
    | Key1 | Key2 =>
        let s := if bool_decide (hmac_phase s = Key1)
                 then with_hmac_key_buf (hmac_key_buf s ++ data) s else s in
        with_bytes_fed (bytes_fed s + n) s
    | Off | Msg =>
        match hasher s with
        | Some h => with_bytes_fed (bytes_fed s + n) (with_hasher (Some (update h data)) s)
        | None => s
        end
    end.

(** [u32::from_be_bytes] of a chunk of at most four bytes, zero-padded. *)
Definition be_word (chunk : bytes) : Z := be_val (resize chunk 4 0).

Definition stage_digest (s : Engine) (digest : bytes) : Engine :=
  let words := take 16 (be_word <$> chunks 4 digest) in
  with_result (words ++ drop (length words) (result s)) s.

Definition finalize_plain (s : Engine) : Engine :=
  match hasher s with
  | None => s
  | Some cloned => with_finalised true (stage_digest s (finalize_reset cloned))
  end.

Definition hmac_finish_key1 (s : Engine) : Engine :=
  let bs := block_size (algo s) in
  let '(key_pad, s) :=
    if bs <? len (hmac_key_buf s) then
      (finalize_reset (update (fresh_hasher (algo s)) (hmac_key_buf s)), s)
    else (hmac_key_buf s, with_hmac_key_buf [] s) in
  let key_pad := resize key_pad bs 0 in
  let ipad := (fun b => Z.lxor b 0x36) <$> key_pad in
  let opad := (fun b => Z.lxor b 0x5c) <$> key_pad in
  let s := with_hasher (Some (update (fresh_hasher (algo s)) ipad)) s in
  let s := with_hmac_outer (Some (update (fresh_hasher (algo s)) opad)) s in
  with_hmac_phase Msg s.

Definition hmac_finish_msg (s : Engine) : Engine :=
  match hasher s with
  | None => s
  | Some inner_clone =>
      let inner_digest := finalize_reset inner_clone in
      match hmac_outer s with
      | None => s
      | Some outer =>
          let s := with_hmac_outer None s in
          with_hmac_phase Key2 (with_hasher (Some (update outer inner_digest)) s)
      end
  end.

Definition hmac_finish_key2 (s : Engine) : Engine :=
  match hasher s with
  | None => s
  | Some cloned =>
      with_hmac_phase Off (with_finalised true (stage_digest s (finalize_reset cloned)))
  end.

Definition finalize (s : Engine) : Engine :=
  if finalised s then s
  else match hmac_phase s with
       | Off => finalize_plain s
       | Key1 => hmac_finish_key1 s
       | Msg => hmac_finish_msg s
       | Key2 => hmac_finish_key2 s
       end.
End engine.
End hash.

Module v1.
Import hash.

Definition CR : Z := 0x000.
Definition DIN : Z := 0x004.
Definition STR : Z := 0x008.
Definition HR_LEGACY_BASE : Z := 0x00C.
Definition HR_LEGACY_END : Z := 0x01C.
Definition IMR : Z := 0x020.
Definition SR : Z := 0x024.
Definition SHA3CFGR : Z := 0x028.
Definition CSR_BASE : Z := 0x0F8.
Definition CSR_END : Z := 0x1CC.
Definition HR_EXT_BASE : Z := 0x310.
Definition HR_EXT_END : Z := 0x34C.

Definition CR_INIT : Z := Z.shiftl 1 2.
Definition CR_DATATYPE_SHIFT : Z := 4.
Definition CR_DATATYPE_MASK : Z := Z.shiftl 0x3 CR_DATATYPE_SHIFT.
Definition CR_MODE_HMAC : Z := Z.shiftl 1 6.

Definition STR_NBLW_MASK : Z := 0x1F.
Definition STR_DCAL : Z := Z.shiftl 1 8.
Definition SR_DINIS : Z := Z.shiftl 1 0.
Definition SR_DCIS : Z := Z.shiftl 1 1.

Inductive AlgoLayout := H7 | U5 | Mp13.

Definition is_wide (l : AlgoLayout) : bool := match l with Mp13 => true | _ => false end.

Section peripheral.
Context {D : DigestCrates}.

Record HashV1 := mkHashV1 {
  layout : AlgoLayout;
  cr : Z;
  str_reg : Z;
  imr : Z;
  sr : Z;
  sha3cfgr : Z;
  pending : option Z;
  csr : list Z;
  saved_pending : option Z;
  str_written_since_cr : bool;
  engine : Engine;
}.

Definition with_layout (v : AlgoLayout) (s : HashV1) : HashV1 :=
  mkHashV1 v (cr s) (str_reg s) (imr s) (sr s) (sha3cfgr s) (pending s) (csr s)
    (saved_pending s) (str_written_since_cr s) (engine s).
Definition with_cr (v : Z) (s : HashV1) : HashV1 :=
  mkHashV1 (layout s) v (str_reg s) (imr s) (sr s) (sha3cfgr s) (pending s) (csr s)
    (saved_pending s) (str_written_since_cr s) (engine s).
Definition with_str_reg (v : Z) (s : HashV1) : HashV1 :=
  mkHashV1 (layout s) (cr s) v (imr s) (sr s) (sha3cfgr s) (pending s) (csr s)
    (saved_pending s) (str_written_since_cr s) (engine s).
Definition with_imr (v : Z) (s : HashV1) : HashV1 :=
  mkHashV1 (layout s) (cr s) (str_reg s) v (sr s) (sha3cfgr s) (pending s) (csr s)
    (saved_pending s) (str_written_since_cr s) (engine s).
Definition with_sr (v : Z) (s : HashV1) : HashV1 :=
  mkHashV1 (layout s) (cr s) (str_reg s) (imr s) v (sha3cfgr s) (pending s) (csr s)
    (saved_pending s) (str_written_since_cr s) (engine s).
Definition with_sha3cfgr (v : Z) (s : HashV1) : HashV1 :=
  mkHashV1 (layout s) (cr s) (str_reg s) (imr s) (sr s) v (pending s) (csr s) (saved_pending s)
    (str_written_since_cr s) (engine s).
Definition with_pending (v : option Z) (s : HashV1) : HashV1 :=
  mkHashV1 (layout s) (cr s) (str_reg s) (imr s) (sr s) (sha3cfgr s) v (csr s)
    (saved_pending s) (str_written_since_cr s) (engine s).
Definition with_csr (v : list Z) (s : HashV1) : HashV1 :=
  mkHashV1 (layout s) (cr s) (str_reg s) (imr s) (sr s) (sha3cfgr s) (pending s) v
    (saved_pending s) (str_written_since_cr s) (engine s).
Definition with_saved_pending (v : option Z) (s : HashV1) : HashV1 :=
  mkHashV1 (layout s) (cr s) (str_reg s) (imr s) (sr s) (sha3cfgr s) (pending s) (csr s) v
    (str_written_since_cr s) (engine s).
Definition with_str_written_since_cr (v : bool) (s : HashV1) : HashV1 :=
  mkHashV1 (layout s) (cr s) (str_reg s) (imr s) (sr s) (sha3cfgr s) (pending s) (csr s)
    (saved_pending s) v (engine s).
Definition with_engine (v : Engine) (s : HashV1) : HashV1 :=
  mkHashV1 (layout s) (cr s) (str_reg s) (imr s) (sr s) (sha3cfgr s) (pending s) (csr s)
    (saved_pending s) (str_written_since_cr s) v.

Definition with_layout_new (l : AlgoLayout) : HashV1 :=
  mkHashV1 l 0 0 0 SR_DINIS 0 None (vec_repeat 0 54) None false default_engine.

Definition new : HashV1 := with_layout_new H7.
Definition new_u5 : HashV1 := with_layout_new U5.
Definition new_mp13 : HashV1 := with_layout_new Mp13.

Definition layout_lo_bit (s : HashV1) : Z :=
  match layout s with H7 => 7 | U5 => 17 | Mp13 => 17 end.

Definition wide_algo (code : Z) : Algo :=
  match code with
  | 0 => Sha1
  | 1 => Md5
  | 2 => Sha224
  | 3 => Sha256
  | 4 => Sha3_224
  | 5 => Sha3_256
  | 6 => Sha3_384
  | 7 => Sha3_512
  | 8 | 10 => Shake128
  | 9 | 11 => Shake256
  | 12 => Sha384
  | 13 => Sha512_224
  | 14 => Sha512_256
  | 15 => Sha512
  | _ => Sha1
  end.

Definition parse_algo (s : HashV1) : Algo :=
  if is_wide (layout s) then wide_algo (Z.land (Z.shiftr (cr s) 17) 0xF)
  else
    let lo := has (cr s) (Z.shiftl 1 (layout_lo_bit s)) in
    let hi := has (cr s) (Z.shiftl 1 18) in
    match hi, lo with
    | false, false => Sha1
    | false, true => Md5
    | true, false => Sha224
    | true, true => Sha256
    end.

Definition parse_datatype (s : HashV1) : DataType :=
  from_bits (Z.shiftr (Z.land (cr s) CR_DATATYPE_MASK) CR_DATATYPE_SHIFT).

Definition write_cr (s : HashV1) (value : Z) : HashV1 :=
  let s := with_cr (Z.land value (not32 CR_INIT)) s in
  let s :=
    if has value CR_INIT then
      let is_restore := str_written_since_cr s && has_snapshot (engine s) in
      let s :=
        if is_restore then
          let s := with_engine (restore_from_snapshot (engine s)).2 s in
          with_pending (saved_pending s) s
        else
          let hmac := has (cr s) CR_MODE_HMAC in
          let s := with_engine (init_with_mode (engine s) (parse_algo s) (parse_datatype s) hmac) s in
          with_pending None s in
      with_sr SR_DINIS s
    else s in
  with_str_written_since_cr false s.

Definition write_din (s : HashV1) (value : Z) : HashV1 :=
  let s := match pending s with
           | Some prev => with_engine (feed_word (engine s) prev 4) s
           | None => s
           end in
  with_pending (Some value) s.

(** [nblw_bits.div_ceil(8).min(4)], and 4 for 0. *)
Definition valid_bytes (nblw_bits : Z) : Z :=
  if nblw_bits =? 0 then 4 else Z.min ((nblw_bits + 7) / 8) 4.

Definition write_str (s : HashV1) (value : Z) : HashV1 :=
  let was_dcal := has (str_reg s) STR_DCAL in
  let s := with_str_reg value s in
  let s := with_str_written_since_cr true s in
  let now_dcal := has value STR_DCAL in
  if negb was_dcal && now_dcal then
    let nblw_bits := Z.land value STR_NBLW_MASK in
    let s := match pending s with
             | Some last =>
                 with_engine (feed_word (engine s) last (valid_bytes nblw_bits)) (with_pending None s)
             | None => s
             end in
    let s := with_engine (finalize (engine s)) s in
    let s := with_sr (Z.lor SR_DCIS SR_DINIS) s in
    let s := with_str_reg (Z.land (str_reg s) (not32 STR_DCAL)) s in
    let s := with_csr (vec_repeat 0 54) s in
    with_str_written_since_cr false s
  else s.

Definition read_hr (s : HashV1) (i : Z) : res Z :=
  if (i <? len (result (engine s))) && finalised (engine s) then idx (result (engine s)) i else Ret 0.

Definition read (s : HashV1) (offset _size : Z) : res (Z * HashV1) :=
  if offset =? CR then Ret (cr s, s)
  else if offset =? STR then Ret (str_reg s, s)
  else if offset =? IMR then Ret (imr s, s)
  else if offset =? SR then Ret (sr s, s)
  else if offset =? SHA3CFGR then Ret (sha3cfgr s, s)
  else if in_range HR_LEGACY_BASE HR_LEGACY_END offset then
    let! v := read_hr s ((offset - HR_LEGACY_BASE) / 4) in Ret (v, s)
  else if in_range HR_EXT_BASE HR_EXT_END offset then
    let! v := read_hr s ((offset - HR_EXT_BASE) / 4) in Ret (v, s)
  else if in_range CSR_BASE CSR_END offset then
    let s :=
      if (offset - CSR_BASE) / 4 =? 0 then
        let s := with_engine (capture_snapshot (engine s)) s in
        with_saved_pending (pending s) s
      else s in
    let! v := idx (csr s) ((offset - CSR_BASE) / 4) in Ret (v, s)
  else Ret (0, s).

Definition write (s : HashV1) (offset _size value : Z) : res HashV1 :=
  if offset =? CR then Ret (write_cr s value)
  else if offset =? DIN then Ret (write_din s value)
  else if offset =? STR then Ret (write_str s value)
  else if offset =? IMR then Ret (with_imr value s)
  else if offset =? SR then Ret (with_sr (Z.land (sr s) (not32 value)) s)
  else if offset =? SHA3CFGR then Ret (with_sha3cfgr value s)
  else if in_range CSR_BASE CSR_END offset then
    let! regs := set_idx (csr s) ((offset - CSR_BASE) / 4) value in
    Ret (with_csr regs s)
  else Ret s.

#[export] Instance peripheral_hash : Peripheral HashV1 := {| p_read := read; p_write := write |}.
End peripheral.
End v1.
