(* ===== verification/Stm32Pka.v ===== *)
(** * STM32Sim: the public-key accelerator

    [peripherals/src/pka/]: the arithmetic engine ([pka], [mod.rs]) and the register and
    operand-RAM layout of the second revision ([v2], [v2.rs]).  Operands lie in RAM with
    the least significant word first. *)

From S2P Require Import Prelude.
From S2P Require Import Crates.
From S2P Require Import Se050Crates.
From S2P Require Import McuCrates.
From S2P Require Import Stm32Core.

Module pka.
Inductive PkaCurveId := P256 | P384.

Definition byte_len (c : PkaCurveId) : Z := match c with P256 => 32 | P384 => 48 end.

Inductive Status := Idle | Ok | Error.

Record Engine := mkEngine { last_status : Status }.
Definition engine_new : Engine := mkEngine Idle.

Record Point := mkPoint { px : bytes; py : bytes }.

Section engine.
Context {B : BigUintCrate} {E : EccCrates}.

Definition crate_of (c : PkaCurveId) : PkaCurve :=
  match c with P256 => crate_p256 | P384 => crate_p384 end.

(** [ecc_mul_p256] and [ecc_mul_p384], which differ in the crate and the length. *)
Definition ecc_mul_on (n : Z) (c : PkaCurve) (k_be px_be py_be : bytes) : option Point :=
  if negb (len k_be =? n) || negb (len px_be =? n) || negb (len py_be =? n) then None
  else
    match scalar_from_repr c k_be with
    | None => None
    | Some scalar =>
        match point_from_sec1 c (0x04 :: px_be ++ py_be) with
        | None => None
        | Some affine =>
            let bs := point_to_sec1 c (point_mul c affine scalar) in
            if negb (len bs =? 1 + 2 * n) || negb (default 0 (head bs) =? 0x04) then None
            else Some (mkPoint (sub bs 1 (1 + n)) (sub bs (1 + n) (1 + 2 * n)))
        end
    end.

Definition ecc_mul_p256 := ecc_mul_on 32 crate_p256.
Definition ecc_mul_p384 := ecc_mul_on 48 crate_p384.

Definition ecc_mul (self : Engine) (c : PkaCurveId) (k_be px_be py_be : bytes)
  : option Point * Engine :=
  let result := match c with
                | P256 => ecc_mul_p256 k_be px_be py_be
                | P384 => ecc_mul_p384 k_be px_be py_be
                end in
  (result, mkEngine (match result with Some _ => Ok | None => Error end)).

Definition pad_be (v n : Z) : bytes :=
  let out := to_bytes_be v in
  if len out <? n then vec_repeat 0 (n - len out) ++ out else out.

Definition mod_exp (self : Engine) (base_be exp_be mod_be : bytes) : bytes * Engine :=
  let base := from_bytes_be base_be in
  let exp := from_bytes_be exp_be in
  let modulus := from_bytes_be mod_be in
  let result := if modulus =? 0 then 0 else modpow base exp modulus in
  (pad_be result (len mod_be), mkEngine Ok).

Definition mod_add (self : Engine) (a_be b_be n_be : bytes) : bytes * Engine :=
  let a := from_bytes_be a_be in
  let b := from_bytes_be b_be in
  let n := from_bytes_be n_be in
  if n =? 0 then (vec_repeat 0 (len n_be), mkEngine Error)
  else (pad_be ((a + b) mod n) (len n_be), mkEngine Ok).

(** Subtraction of [BigUint]s panics below zero; each one here is guarded. *)
Definition mod_sub (self : Engine) (a_be b_be n_be : bytes) : bytes * Engine :=
  let a := from_bytes_be a_be in
  let b := from_bytes_be b_be in
  let n := from_bytes_be n_be in
  if n =? 0 then (vec_repeat 0 (len n_be), mkEngine Error)
  else
    let r := if b <=? a then (a - b) mod n
             else
               let diff := b - a in
               let m := diff mod n in
               if m =? 0 then m else n - m in
    (pad_be r (len n_be), mkEngine Ok).

Definition mod_mul (self : Engine) (a_be b_be n_be : bytes) : bytes * Engine :=
  let a := from_bytes_be a_be in
  let b := from_bytes_be b_be in
  let n := from_bytes_be n_be in
  if n =? 0 then (vec_repeat 0 (len n_be), mkEngine Error)
  else (pad_be ((a * b) mod n) (len n_be), mkEngine Ok).
End engine.
End pka.

Module v2.
Import pka.

Definition CR : Z := 0x000.
Definition SR : Z := 0x004.
Definition CLRFR : Z := 0x008.
Definition RAM_BASE : Z := 0x400.
Definition RAM_SIZE_BYTES : Z := 0x1C00.

Definition CR_EN : Z := Z.shiftl 1 0.
Definition CR_START : Z := Z.shiftl 1 1.
Definition CR_MODE_SHIFT : Z := 8.
Definition CR_MODE_MASK : Z := Z.shiftl 0x3F CR_MODE_SHIFT.

Definition SR_BUSY : Z := Z.shiftl 1 16.
Definition SR_PROCENDF : Z := Z.shiftl 1 17.
Definition SR_ADDRERR : Z := Z.shiftl 1 19.
Definition SR_RAMERR : Z := Z.shiftl 1 20.

Definition MODE_MODULAR_EXP : Z := 0x00.
Definition MODE_MODULAR_EXP_FAST : Z := 0x02.
Definition MODE_MODULAR_EXP_PROTECT : Z := 0x03.
Definition MODE_ARITHMETIC_ADD : Z := 0x09.
Definition MODE_ARITHMETIC_SUB : Z := 0x0A.
Definition MODE_ARITHMETIC_MUL : Z := 0x0B.
Definition MODE_MODULAR_ADD : Z := 0x0E.
Definition MODE_MODULAR_SUB : Z := 0x0F.
Definition MODE_MONTGOMERY_MUL : Z := 0x10.
Definition MODE_ECC_MUL : Z := 0x20.
Definition MODE_ECDSA_VERIFICATION : Z := 0x26.

Definition PKA_NO_ERROR : Z := 0xD60D.

Definition MODEXP_IN_EXP_NB_BITS : Z := 0.
Definition MODEXP_IN_OP_NB_BITS : Z := 2.
Definition MODEXP_IN_MONTGOMERY_PARAM : Z := 0x88.
Definition MODEXP_IN_EXPONENT_BASE : Z := 0x21A.
Definition MODEXP_IN_EXPONENT : Z := 0x29E.
Definition MODEXP_IN_MODULUS : Z := 0x322.
Definition MODEXP_OUT_RESULT : Z := 0x10E.
Definition MODEXP_OUT_ERROR : Z := 0x3A6.
Definition MODEXP_PROTECT_IN_EXPONENT_BASE : Z := 0x4B2.
Definition MODEXP_PROTECT_IN_EXPONENT : Z := 0x42E.
Definition MODEXP_PROTECT_IN_MODULUS : Z := 0x10E.
Definition MODEXP_PROTECT_IN_PHI : Z := 0x21A.
Definition ECCMUL_IN_EXP_NB_BITS : Z := 0.
Definition ECCMUL_IN_OP_NB_BITS : Z := 2.
Definition ECCMUL_IN_A_COEFF_SIGN : Z := 4.
Definition ECCMUL_IN_A_COEFF : Z := 6.
Definition ECCMUL_IN_B_COEFF : Z := 0x48.
Definition ECCMUL_IN_MOD_GF : Z := 0x322.
Definition ECCMUL_IN_K : Z := 0x3A8.
Definition ECCMUL_IN_INITIAL_POINT_X : Z := 0x5E.
Definition ECCMUL_IN_INITIAL_POINT_Y : Z := 0x1C.
Definition ECCMUL_IN_N_PRIME_ORDER : Z := 0x2E2.
Definition ECCMUL_OUT_RESULT_X : Z := 0x5E.
Definition ECCMUL_OUT_RESULT_Y : Z := 0x74.
Definition ECCMUL_OUT_ERROR : Z := 0xA0.
Definition ARITH_IN_OP_NB_BITS : Z := 2.
Definition ARITH_IN_OP1 : Z := 0x86.
Definition ARITH_IN_OP2 : Z := 0x10A.
Definition ARITH_OUT_RESULT : Z := 0x18E.
Definition MOD_OP_IN_OP_NB_BITS : Z := 2.
Definition MOD_OP_IN_OP1 : Z := 0x86.
Definition MOD_OP_IN_OP2 : Z := 0x10A.
Definition MOD_OP_IN_MODULUS : Z := 0x322.
Definition MOD_OP_OUT_RESULT : Z := 0x18E.
Definition ECDSAVERIF_IN_ORDER_NB_BITS : Z := 2.
Definition ECDSAVERIF_IN_MOD_NB_BITS : Z := 0x32.
Definition ECDSAVERIF_IN_A_COEFF_SIGN : Z := 0x1A.
Definition ECDSAVERIF_IN_A_COEFF : Z := 0x1C.
Definition ECDSAVERIF_IN_MOD_GF : Z := 0x34.
Definition ECDSAVERIF_IN_INITIAL_POINT_X : Z := 0x9E.
Definition ECDSAVERIF_IN_INITIAL_POINT_Y : Z := 0xB4.
Definition ECDSAVERIF_IN_PUBLIC_KEY_POINT_X : Z := 0x3BE.
Definition ECDSAVERIF_IN_PUBLIC_KEY_POINT_Y : Z := 0x3D4.
Definition ECDSAVERIF_IN_SIGNATURE_R : Z := 0x338.
Definition ECDSAVERIF_IN_SIGNATURE_S : Z := 0x21A.
Definition ECDSAVERIF_IN_HASH_E : Z := 0x3EA.
Definition ECDSAVERIF_IN_ORDER_N : Z := 0x322.
Definition ECDSAVERIF_OUT_RESULT : Z := 0x74.

Record PkaV2 := mkPkaV2 {
  cr : Z;
  sr : Z;
  ram : bytes;
  engine : Engine;
}.

Definition with_cr (v : Z) (s : PkaV2) : PkaV2 :=
  mkPkaV2 v (sr s) (ram s) (engine s).
Definition with_sr (v : Z) (s : PkaV2) : PkaV2 :=
  mkPkaV2 (cr s) v (ram s) (engine s).
Definition with_ram (v : bytes) (s : PkaV2) : PkaV2 :=
  mkPkaV2 (cr s) (sr s) v (engine s).
Definition with_engine (v : Engine) (s : PkaV2) : PkaV2 :=
  mkPkaV2 (cr s) (sr s) (ram s) v.

Definition new : PkaV2 := mkPkaV2 0 0 (vec_repeat 0 RAM_SIZE_BYTES) engine_new.

Definition current_mode (s : PkaV2) : Z := Z.shiftr (Z.land (cr s) CR_MODE_MASK) CR_MODE_SHIFT.

(** The four bytes at [byte], little-endian; the callers guard the range. *)
Definition read_word (s : PkaV2) (word_idx : Z) : res Z :=
  let byte := word_idx * 4 in
  if RAM_SIZE_BYTES <? byte + 4 then Ret 0
  else let! bs := slice (ram s) byte (byte + 4) in Ret (le_val bs).

Definition write_word (s : PkaV2) (word_idx value : Z) : res PkaV2 :=
  let byte := word_idx * 4 in
  if RAM_SIZE_BYTES <? byte + 4 then Ret s
  else let! r := copy_from_slice (ram s) byte (byte + 4) (le_bytes 4 value) in Ret (with_ram r s).

(** [for k in 0..full_words]: the words of the operand from index [k] on, [n] of them;
    the code fills a buffer of [n_bytes] from its end. *)
Fixpoint read_words (s : PkaV2) (word_idx : Z) (n_bytes : Z) (k : Z) (n : nat) (out : bytes)
  : res bytes :=
  match n with
  | O => Ret out
  | S n =>
      let! w := read_word s (word_idx + k) in
      let base := n_bytes - 4 - k * 4 in
      let! out := set_idx out (base + 0) (as_u8 (Z.shiftr w 24)) in
      let! out := set_idx out (base + 1) (as_u8 (Z.shiftr w 16)) in
      let! out := set_idx out (base + 2) (as_u8 (Z.shiftr w 8)) in
      let! out := set_idx out (base + 3) (as_u8 w) in
      read_words s word_idx n_bytes (k + 1) n out
  end.

(** [for i in 0..rem], from index [i] on, [n] turns. *)
Fixpoint read_rem (w rem i : Z) (n : nat) (out : bytes) : res bytes :=
  match n with
  | O => Ret out
  | S n =>
      let! out := set_idx out i (as_u8 (Z.land (Z.shiftr w (8 * (rem - 1 - i))) 0xFF)) in
      read_rem w rem (i + 1) n out
  end.

Definition read_operand_be (s : PkaV2) (word_idx n_bytes : Z) : res bytes :=
  let out := vec_repeat 0 n_bytes in
  let full_words := n_bytes / 4 in
  let! out := read_words s word_idx n_bytes 0 (Z.to_nat full_words) out in
  let rem := n_bytes mod 4 in
  if 0 <? rem then
    let! w := read_word s (word_idx + full_words) in
    read_rem w rem 0 (Z.to_nat rem) out
  else Ret out.

Fixpoint write_words (s : PkaV2) (word_idx : Z) (data_be : bytes) (k : Z) (n : nat) : res PkaV2 :=
  match n with
  | O => Ret s
  | S n =>
      let base := len data_be - 4 - k * 4 in
      let! b0 := idx data_be (base + 0) in
      let! b1 := idx data_be (base + 1) in
      let! b2 := idx data_be (base + 2) in
      let! b3 := idx data_be (base + 3) in
      let w := Z.lor (Z.lor (Z.lor (as_u32 (Z.shiftl b0 24)) (as_u32 (Z.shiftl b1 16)))
                  (as_u32 (Z.shiftl b2 8))) b3 in
      let! s := write_word s (word_idx + k) w in
      write_words s word_idx data_be (k + 1) n
  end.

Fixpoint rem_word (data_be : bytes) (rem i : Z) (n : nat) (w : Z) : res Z :=
  match n with
  | O => Ret w
  | S n =>
      let! b := idx data_be i in
      rem_word data_be rem (i + 1) n (Z.lor w (as_u32 (Z.shiftl b (8 * (rem - 1 - i)))))
  end.

Definition write_operand_be (s : PkaV2) (word_idx : Z) (data_be : bytes) : res PkaV2 :=
  let n := len data_be in
  let full_words := n / 4 in
  let! s := write_words s word_idx data_be 0 (Z.to_nat full_words) in
  let rem := n mod 4 in
  if 0 <? rem then
    let! w := rem_word data_be rem 0 (Z.to_nat rem) 0 in
    write_word s (word_idx + full_words) w
  else Ret s.

Definition read_n_bits (s : PkaV2) (word_idx : Z) : res Z := read_word s word_idx.

Inductive ArithOp := Add | Sub | Mul.

Section peripheral.
Context {B : BigUintCrate} {E : EccCrates}.

Definition do_mod_exp (s : PkaV2) (protect : bool) : res (bool * PkaV2) :=
  let! op_bits := read_n_bits s MODEXP_IN_OP_NB_BITS in
  let! exp_bits := read_n_bits s MODEXP_IN_EXP_NB_BITS in
  let op_bytes := (op_bits + 7) / 8 in
  let exp_bytes := (exp_bits + 7) / 8 in
  if (op_bytes =? 0) || (1024 <? op_bytes) || (exp_bytes =? 0) || (1024 <? exp_bytes)
  then Ret (false, s)
  else
    let '(base_off, exp_off, mod_off) :=
      if protect then
        (MODEXP_PROTECT_IN_EXPONENT_BASE, MODEXP_PROTECT_IN_EXPONENT, MODEXP_PROTECT_IN_MODULUS)
      else (MODEXP_IN_EXPONENT_BASE, MODEXP_IN_EXPONENT, MODEXP_IN_MODULUS) in
    let! base := read_operand_be s base_off op_bytes in
    let! exp := read_operand_be s exp_off exp_bytes in
    let! modulus := read_operand_be s mod_off op_bytes in
    let '(result, e) := mod_exp (engine s) base exp modulus in
    let s := with_engine e s in
    let! s := write_operand_be s MODEXP_OUT_RESULT result in
    let! s := write_word s MODEXP_OUT_ERROR PKA_NO_ERROR in
    Ret (true, s).

Definition do_arith (s : PkaV2) (op : ArithOp) : res (bool * PkaV2) :=
  let! bits := read_n_bits s ARITH_IN_OP_NB_BITS in
  let nbytes := (bits + 7) / 8 in
  if (nbytes =? 0) || (1024 <? nbytes) then Ret (false, s)
  else
    let! a := read_operand_be s ARITH_IN_OP1 nbytes in
    let! b := read_operand_be s ARITH_IN_OP2 nbytes in
    let a_n := from_bytes_be a in
    let b_n := from_bytes_be b in
    let r_n := match op with
               | Add => a_n + b_n
               | Sub => if b_n <=? a_n then a_n - b_n else 0
               | Mul => a_n * b_n
               end in
    let target := match op with Mul => nbytes * 2 | _ => nbytes + 1 end in
    let! s := write_operand_be s ARITH_OUT_RESULT (pad_be r_n target) in
    Ret (true, s).

Definition do_mod_op (s : PkaV2) (op : ArithOp) : res (bool * PkaV2) :=
  let! bits := read_n_bits s MOD_OP_IN_OP_NB_BITS in
  let nbytes := (bits + 7) / 8 in
  if (nbytes =? 0) || (1024 <? nbytes) then Ret (false, s)
  else
    let! a := read_operand_be s MOD_OP_IN_OP1 nbytes in
    let! b := read_operand_be s MOD_OP_IN_OP2 nbytes in
    let! modulus := read_operand_be s MOD_OP_IN_MODULUS nbytes in
    let '(r, e) := match op with
                   | Add => mod_add (engine s) a b modulus
                   | Sub => mod_sub (engine s) a b modulus
                   | Mul => mod_mul (engine s) a b modulus
                   end in
    let! s := write_operand_be (with_engine e s) MOD_OP_OUT_RESULT r in
    Ret (true, s).

(** Trusts the modulus the firmware supplies. *)
Definition curve_matches (_curve : PkaCurveId) (_modulus_be : bytes) : bool := true.

Definition curve_of_len (n : Z) : option PkaCurveId :=
  if n =? 32 then Some P256 else if n =? 48 then Some P384 else None.

Definition do_ecc_mul (s : PkaV2) : res (bool * PkaV2) :=
  let! bits := read_n_bits s ECCMUL_IN_OP_NB_BITS in
  let nbytes := (bits + 7) / 8 in
  match curve_of_len nbytes with
  | None => Ret (false, s)
  | Some curve =>
      let! modulus := read_operand_be s ECCMUL_IN_MOD_GF nbytes in
      if negb (curve_matches curve modulus) then Ret (false, s)
      else
        let! k := read_operand_be s ECCMUL_IN_K nbytes in
        let! px_be := read_operand_be s ECCMUL_IN_INITIAL_POINT_X nbytes in
        let! py_be := read_operand_be s ECCMUL_IN_INITIAL_POINT_Y nbytes in
        let '(point, e) := ecc_mul (engine s) curve k px_be py_be in
        let s := with_engine e s in
        match point with
        | Some p =>
            let! s := write_operand_be s ECCMUL_OUT_RESULT_X (px p) in
            let! s := write_operand_be s ECCMUL_OUT_RESULT_Y (py p) in
            let! s := write_word s ECCMUL_OUT_ERROR PKA_NO_ERROR in
            Ret (true, s)
        | None =>
            let! s := write_word s ECCMUL_OUT_ERROR 0xFFFFFFFF in
            Ret (false, s)
        end
  end.

(** [ecdsa_verify_p256] and [ecdsa_verify_p384]. *)
Definition ecdsa_verify_on (n : Z) (c : PkaCurve) (qx qy r s h : bytes) : bool :=
  if negb (len qx =? n) || negb (len qy =? n) || negb (len r =? n) || negb (len s =? n) then false
  else
    match point_from_sec1 c (0x04 :: qx ++ qy) with
    | None => false
    | Some affine =>
        match vkey_from_affine c affine with
        | None => false
        | Some vk =>
            match ecsig_from_slice c (r ++ s) with
            | None => false
            | Some sig => ecsig_verify_prehash c vk h sig
            end
        end
    end.

Definition ecdsa_verify_p256 := ecdsa_verify_on 32 crate_p256.
Definition ecdsa_verify_p384 := ecdsa_verify_on 48 crate_p384.

Definition ecdsa_verify (curve : PkaCurveId) (qx qy r s h : bytes) : bool :=
  match curve with
  | P256 => ecdsa_verify_p256 qx qy r s h
  | P384 => ecdsa_verify_p384 qx qy r s h
  end.

Definition do_ecdsa_verify (st : PkaV2) : res (bool * PkaV2) :=
  let! mod_bits := read_n_bits st ECDSAVERIF_IN_MOD_NB_BITS in
  let nbytes := (mod_bits + 7) / 8 in
  match curve_of_len nbytes with
  | None => Ret (false, st)
  | Some curve =>
      let! _modulus := read_operand_be st ECDSAVERIF_IN_MOD_GF nbytes in
      let! _order := read_operand_be st ECDSAVERIF_IN_ORDER_N nbytes in
      let! qx := read_operand_be st ECDSAVERIF_IN_PUBLIC_KEY_POINT_X nbytes in
      let! qy := read_operand_be st ECDSAVERIF_IN_PUBLIC_KEY_POINT_Y nbytes in
      let! r := read_operand_be st ECDSAVERIF_IN_SIGNATURE_R nbytes in
      let! s := read_operand_be st ECDSAVERIF_IN_SIGNATURE_S nbytes in
      let! h := read_operand_be st ECDSAVERIF_IN_HASH_E nbytes in
      let ok := ecdsa_verify curve qx qy r s h in
      let! st := write_word st ECDSAVERIF_OUT_RESULT (if ok then PKA_NO_ERROR else 0) in
      Ret (true, st)
  end.

Definition run_mode (s : PkaV2) : res (bool * PkaV2) :=
  let mode := current_mode s in
  if (mode =? MODE_MODULAR_EXP) || (mode =? MODE_MODULAR_EXP_FAST) then do_mod_exp s false
  else if mode =? MODE_MODULAR_EXP_PROTECT then do_mod_exp s true
  else if mode =? MODE_ARITHMETIC_ADD then do_arith s Add
  else if mode =? MODE_ARITHMETIC_SUB then do_arith s Sub
  else if mode =? MODE_ARITHMETIC_MUL then do_arith s Mul
  else if mode =? MODE_MODULAR_ADD then do_mod_op s Add
  else if mode =? MODE_MODULAR_SUB then do_mod_op s Sub
  else if mode =? MODE_MONTGOMERY_MUL then do_mod_op s Mul
  else if mode =? MODE_ECC_MUL then do_ecc_mul s
  else if mode =? MODE_ECDSA_VERIFICATION then do_ecdsa_verify s
  else Ret (false, s).

Definition execute (s : PkaV2) : res PkaV2 :=
  let s := with_sr (Z.lor (sr s) SR_BUSY) s in
  let! '(result_ok, s) := run_mode s in
  let s := with_sr (Z.land (sr s) (not32 SR_BUSY)) s in
  let s := with_sr (Z.lor (sr s) SR_PROCENDF) s in
  Ret (if negb result_ok then with_sr (Z.lor (sr s) SR_RAMERR) s else s).

Definition in_ram (o : Z) : bool := (RAM_BASE <=? o) && (o <? RAM_BASE + RAM_SIZE_BYTES).

Definition read (s : PkaV2) (offset _size : Z) : res (Z * PkaV2) :=
  if offset =? CR then Ret (cr s, s)
  else if offset =? SR then Ret (sr s, s)
  else if in_ram offset then
    let byte := offset - RAM_BASE in
    if RAM_SIZE_BYTES <? byte + 4 then Ret (0, s)
    else let! bs := slice (ram s) byte (byte + 4) in Ret (le_val bs, s)
  else Ret (0, s).

Definition write (s : PkaV2) (offset _size value : Z) : res PkaV2 :=
  if offset =? CR then
    let s := with_cr value s in
    if has value CR_START && has value CR_EN then execute s else Ret s
  else if offset =? CLRFR then Ret (with_sr (Z.land (sr s) (not32 value)) s)
  else if in_ram offset then
    let byte := offset - RAM_BASE in
    if byte + 4 <=? RAM_SIZE_BYTES then
      let! r := copy_from_slice (ram s) byte (byte + 4) (le_bytes 4 value) in
      Ret (with_ram r s)
    else Ret s
  else Ret s.

#[export] Instance peripheral_pka : Peripheral PkaV2 := {| p_read := read; p_write := write |}.
End peripheral.
End v2.
