(* ===== verification/Stm32Chips.v ===== *)
(** * STM32Sim: the remaining peripherals and the chips

    The random generator ([rng.rs]), the serial port ([usart.rs]), the clock control
    ([rcc.rs]), the debug block ([dbgmcu.rs]), the peripherals as one type, and the
    memory maps of the four chips ([chips/src/]). *)

From stdpp Require Import strings.
From S2P Require Import Prelude.
From S2P Require Import Crates.
From S2P Require Import Se050Crates.
From S2P Require Import McuCrates.
From S2P Require Import Stm32Core.
From S2P Require Import Stm32Cryp.
From S2P Require Import Stm32Hash.
From S2P Require Import Stm32Pka.

(** [rand_chacha]: a seeded generator of words. *)
Class ChaCha := {
  chacha_t : Type;
  seed_from_u64 : Z -> chacha_t;
  next_u32 : chacha_t -> Z * chacha_t;
}.
Class ChaChaOk (C : ChaCha) := { next_u32_range g : u32 (next_u32 g).1 }.

Module rng.
Section rng.
Context {C : ChaCha}.

Record Rng := mkRng { generator : chacha_t; cr : Z; sr : Z }.

Definition with_seed (seed : Z) : Rng := mkRng (seed_from_u64 seed) 0 0.
Definition new : Rng := with_seed 0xDEADBEEFCAFEBABE.

Definition read (s : Rng) (offset _size : Z) : res (Z * Rng) :=
  if offset =? 0x00 then Ret (cr s, s)
  else if offset =? 0x04 then Ret (Z.lor (sr s) 0x1, s)
  else if offset =? 0x08 then
    let '(v, g) := next_u32 (generator s) in Ret (v, mkRng g (cr s) (sr s))
  else Ret (0, s).

Definition write (s : Rng) (offset _size value : Z) : res Rng :=
  if offset =? 0x00 then Ret (mkRng (generator s) value (sr s))
  else if offset =? 0x04 then Ret (mkRng (generator s) (cr s) (Z.land value (not32 0x1)))
  else Ret s.
End rng.
End rng.

Module usart.
(** The sink keeps the bytes written: the buffer of [CapturingSink]. *)
Record Usart := mkUsart { buf : bytes; cr1 : Z; cr2 : Z; cr3 : Z; brr : Z }.

Definition new : Usart := mkUsart [] 0 0 0 0.

Definition write_byte (s : Usart) (b : Z) : Usart :=
  mkUsart (buf s ++ [b]) (cr1 s) (cr2 s) (cr3 s) (brr s).

Definition read (s : Usart) (offset _size : Z) : res (Z * Usart) :=
  if offset =? 0x00 then Ret (cr1 s, s)
  else if offset =? 0x04 then Ret (cr2 s, s)
  else if offset =? 0x08 then Ret (cr3 s, s)
  else if offset =? 0x0C then Ret (brr s, s)
  else if offset =? 0x1C then Ret (0x000000C0, s)
  else Ret (0, s).

Definition write (s : Usart) (offset _size value : Z) : res Usart :=
  if offset =? 0x00 then Ret (mkUsart (buf s) value (cr2 s) (cr3 s) (brr s))
  else if offset =? 0x04 then Ret (mkUsart (buf s) (cr1 s) value (cr3 s) (brr s))
  else if offset =? 0x08 then Ret (mkUsart (buf s) (cr1 s) (cr2 s) value (brr s))
  else if offset =? 0x0C then Ret (mkUsart (buf s) (cr1 s) (cr2 s) (cr3 s) value)
  else if offset =? 0x20 then Ret s
  else if offset =? 0x28 then Ret (write_byte s (as_u8 (Z.land value 0xFF)))
  else Ret s.
End usart.

Module rcc.
Record Rcc := mkRcc { regs : list Z; ready_offsets : list (Z * Z) }.

Definition raw : Rcc := mkRcc (vec_repeat 0 1024) [].

Definition bits (l : list Z) : Z := fold_left (fun m b => Z.lor m (Z.shiftl 1 b)) l 0.

Definition h7 : Rcc := mkRcc (vec_repeat 0 1024) [(0x00, bits [2; 8; 13; 14; 15; 17; 25; 27; 29])].
Definition u5 : Rcc := mkRcc (vec_repeat 0 1024) [(0x00, bits [2; 10; 13; 17; 25; 27; 29])].

Definition read (s : Rcc) (offset _size : Z) : res (Z * Rcc) :=
  let i := offset / 4 in
  let! base := if i <? len (regs s) then idx (regs s) i else Ret 0 in
  let extra := fold_left (fun extra '(off, mask) => if off =? offset then Z.lor extra mask else extra)
                 (ready_offsets s) 0 in
  Ret (Z.lor base extra, s).

Definition write (s : Rcc) (offset _size value : Z) : res Rcc :=
  let i := offset / 4 in
  if i <? len (regs s) then
    let! r := set_idx (regs s) i value in Ret (mkRcc r (ready_offsets s))
  else Ret s.
End rcc.

Module dbgmcu.
Definition IDC : Z := 0x000.

Record Dbgmcu := mkDbgmcu { idcode : Z; regs : list Z }.

Definition h7 : Dbgmcu := mkDbgmcu (Z.lor (Z.shiftl 0x1003 16) 0x450) (vec_repeat 0 256).
Definition u5 : Dbgmcu := mkDbgmcu (Z.lor (Z.shiftl 0x1000 16) 0x482) (vec_repeat 0 256).
Definition mp13 : Dbgmcu := mkDbgmcu (Z.lor (Z.shiftl 0x2000 16) 0x501) (vec_repeat 0 256).

Definition read (s : Dbgmcu) (offset _size : Z) : res (Z * Dbgmcu) :=
  if offset =? IDC then Ret (idcode s, s)
  else
    let i := offset / 4 in
    let! v := if i <? len (regs s) then idx (regs s) i else Ret 0 in
    Ret (v, s).

Definition write (s : Dbgmcu) (offset _size value : Z) : res Dbgmcu :=
  let i := offset / 4 in
  if i <? len (regs s) then
    let! r := set_idx (regs s) i value in Ret (mkDbgmcu (idcode s) r)
  else Ret s.
End dbgmcu.

(** ** Chips *)

Section chips.
Context {A : AesBlocks} {D : DigestCrates} {B : BigUintCrate} {E : EccCrates} {C : ChaCha}.

(** A [dyn Peripheral] of these chips. *)
Inductive Device :=
  | DCrypV1 (s : Stm32Cryp.v1.CrypV1)
  | DCrypV2 (s : Stm32Cryp.v2.CrypV2)
  | DHash (s : Stm32Hash.v1.HashV1)
  | DPka (s : Stm32Pka.v2.PkaV2)
  | DRng (s : rng.Rng)
  | DUsart (s : usart.Usart)
  | DRcc (s : rcc.Rcc)
  | DDbgmcu (s : dbgmcu.Dbgmcu).

Definition answer {P} (wrap : P -> Device) (m : res (Z * P)) : res (Z * Device) :=
  let! '(v, p) := m in Ret (v, wrap p).
Definition stored {P} (wrap : P -> Device) (m : res P) : res Device :=
  let! p := m in Ret (wrap p).

Definition device_read (d : Device) (offset sz : Z) : res (Z * Device) :=
  match d with
  | DCrypV1 s => answer DCrypV1 (Stm32Cryp.v1.read s offset sz)
  | DCrypV2 s => answer DCrypV2 (Stm32Cryp.v2.read s offset sz)
  | DHash s => answer DHash (Stm32Hash.v1.read s offset sz)
  | DPka s => answer DPka (Stm32Pka.v2.read s offset sz)
  | DRng s => answer DRng (rng.read s offset sz)
  | DUsart s => answer DUsart (usart.read s offset sz)
  | DRcc s => answer DRcc (rcc.read s offset sz)
  | DDbgmcu s => answer DDbgmcu (dbgmcu.read s offset sz)
  end.

Definition device_write (d : Device) (offset sz value : Z) : res Device :=
  match d with
  | DCrypV1 s => stored DCrypV1 (Stm32Cryp.v1.write s offset sz value)
  | DCrypV2 s => stored DCrypV2 (Stm32Cryp.v2.write s offset sz value)
  | DHash s => stored DHash (Stm32Hash.v1.write s offset sz value)
  | DPka s => stored DPka (Stm32Pka.v2.write s offset sz value)
  | DRng s => stored DRng (rng.write s offset sz value)
  | DUsart s => stored DUsart (usart.write s offset sz value)
  | DRcc s => stored DRcc (rcc.write s offset sz value)
  | DDbgmcu s => stored DDbgmcu (dbgmcu.write s offset sz value)
  end.

#[export] Instance peripheral_device : Peripheral Device :=
  {| p_read := device_read; p_write := device_write |}.

Inductive CpuKind := CortexM | CortexA.

Record MemoryRegion := mkMemory { m_base : Z; m_size : Z; m_name : string }.

(** [contains_range], on [u64]: [checked_add], then a comparison whose own sum
    overflows (a panic) only for a region at the end of the address space. *)
Definition contains_range (r : MemoryRegion) (addr sz : Z) : bool :=
  if 2 ^ 64 <=? addr + sz then false
  else (m_base r <=? addr) && (addr + sz <=? m_base r + m_size r).

Record Chip := mkChip {
  chip_name : string;
  cpu_kind : CpuKind;
  memory_regions : list MemoryRegion;
  chip_bus : Bus Device;
}.

Definition stm32h753 : Chip :=
  let memory := [mkMemory 0x08000000 0x00200000 "FLASH"; mkMemory 0x20000000 0x00020000 "DTCM";
                 mkMemory 0x24000000 0x00080000 "AXI_SRAM"; mkMemory 0x30000000 0x00020000 "SRAM1"] in
  let bus := bus_new in
  let bus := bus_map bus 0x40004800 0x0400 "usart3" (DUsart usart.new) in
  let bus := bus_map bus 0x58024400 0x0400 "rcc" (DRcc rcc.h7) in
  let bus := bus_map bus 0x48021000 0x0400 "cryp" (DCrypV1 Stm32Cryp.v1.new) in
  let bus := bus_map bus 0x48021400 0x0400 "hash" (DHash Stm32Hash.v1.new) in
  let bus := bus_map bus 0x48021800 0x0400 "rng" (DRng rng.new) in
  let bus := bus_map bus 0x5C001000 0x0400 "dbgmcu" (DDbgmcu dbgmcu.h7) in
  mkChip "stm32h753" CortexM memory bus.

Definition stm32u575 : Chip :=
  let memory := [mkMemory 0x08000000 0x00200000 "FLASH"; mkMemory 0x20000000 0x000C0000 "SRAM";
                 mkMemory 0x28070000 0x00004000 "BKP_SRAM"] in
  let bus := bus_new in
  let bus := bus_map bus 0x40013800 0x0400 "usart1" (DUsart usart.new) in
  let bus := bus_map bus 0x46020C00 0x0400 "rcc" (DRcc rcc.u5) in
  let bus := bus_map bus 0x420C0000 0x0400 "aes" (DCrypV2 Stm32Cryp.v2.new) in
  let bus := bus_map bus 0x420C0400 0x0400 "hash" (DHash Stm32Hash.v1.new_u5) in
  let bus := bus_map bus 0x420C0800 0x0400 "rng" (DRng rng.new) in
  let bus := bus_map bus 0x420C2000 0x2000 "pka" (DPka Stm32Pka.v2.new) in
  let bus := bus_map bus 0xE0044000 0x0400 "dbgmcu" (DDbgmcu dbgmcu.u5) in
  mkChip "stm32u575" CortexM memory bus.

Definition stm32u585 : Chip :=
  mkChip "stm32u585" (cpu_kind stm32u575) (memory_regions stm32u575) (chip_bus stm32u575).

Definition stm32mp135 : Chip :=
  let memory := [mkMemory 0x2FFE0000 0x00020000 "SYSRAM"; mkMemory 0x30000000 0x00004000 "SRAM1";
                 mkMemory 0x30004000 0x00002000 "SRAM2"; mkMemory 0x30006000 0x00002000 "SRAM3";
                 mkMemory 0xC0000000 0x20000000 "DDR"] in
  let bus := bus_new in
  let bus := bus_map bus 0x40010000 0x0400 "uart4" (DUsart usart.new) in
  let bus := bus_map bus 0x50000000 0x1000 "rcc" (DRcc rcc.raw) in
  let bus := bus_map bus 0x54002000 0x0400 "cryp1" (DCrypV1 Stm32Cryp.v1.new) in
  let bus := bus_map bus 0x54003000 0x0400 "hash1" (DHash Stm32Hash.v1.new_mp13) in
  let bus := bus_map bus 0x54004000 0x0400 "rng1" (DRng rng.new) in
  let bus := bus_map bus 0x54006000 0x2000 "pka" (DPka Stm32Pka.v2.new) in
  let bus := bus_map bus 0x50081000 0x0400 "dbgmcu" (DDbgmcu dbgmcu.mp13) in
  mkChip "stm32mp135" CortexA memory bus.

Definition build (name : string) : option Chip :=
  if bool_decide (name = "stm32h753"%string) then Some stm32h753
  else if bool_decide (name = "stm32u575"%string) then Some stm32u575
  else if bool_decide (name = "stm32u585"%string) then Some stm32u585
  else if bool_decide (name = "stm32mp135"%string) then Some stm32mp135
  else None.

Definition chip_list : list string := ["stm32h753"; "stm32u575"; "stm32u585"; "stm32mp135"]%string.
End chips.
