(* ===== verification/Stm32Gf128.v ===== *)
(** * STM32Sim: words on the wire and the multiplication of GHASH

    Facts on [u32] registers: the data swap of the crypto peripherals permutes the four
    bytes of a word (or the bits of each) and is its own inverse; counters. *)

From S2P Require Import Prelude.
From S2P Require Import Crc.
From S2P Require Import Stm32Core.
From S2P Require Import Stm32Cryp.
From S2P Require Import Stm32Hash.

Import cryp.

(** The order in which a word carries four bytes, by the reference manual's data types:
    32-bit data as they are, 16-bit data with the halves exchanged, bytes in reverse, and
    bits in reverse. *)
Definition swap_list (dt : DataType) (l : bytes) : bytes :=
  match dt with
  | Word => l
  | Halfword => drop 2 l ++ take 2 l
  | Byte => reverse l
  | Bit => bitrev8 <$> reverse l
  end.

Lemma lor_low x lo n : 0 <= n -> 0 <= lo < 2 ^ n -> Z.lor (2 ^ n * x) lo = 2 ^ n * x + lo.
Proof.
  intros Hn Hlo. rewrite (Z.mul_comm (2 ^ n)), <- (Z.shiftl_mul_pow2 x n) by done.
  rewrite lor_shiftl by done. by rewrite Z.shiftl_mul_pow2 by done.
Qed.

Lemma be_bytes4 v : be_bytes 4 v =
  [v / 256 / 256 / 256 mod 256; v / 256 / 256 mod 256; v / 256 mod 256; v mod 256].
Proof. done. Qed.

Lemma u32_be_val4 l : len l = 4 -> wf l -> u32 (be_val l).
Proof.
  intros Hl Hw. unfold be_val. pose proof (le_val_bounds (reverse l)) as H.
  rewrite len_reverse, Hl in H. apply H. by apply wf_reverse.
Qed.

Lemma land_ff_shiftr v i : 0 <= i -> u32 v ->
  as_u8 (Z.land (Z.shiftr v (i * 8)) 0xFF) = v / 2 ^ (i * 8) mod 256.
Proof.
  intros Hi Hv. change 0xFF with (Z.ones 8). rewrite Z.land_ones by lia.
  unfold as_u8. rewrite Z.shiftr_div_pow2 by lia. change (2 ^ 8) with 256.
  by rewrite Z.mod_mod by lia.
Qed.

Lemma bytes_lor a b c d : u8 a -> u8 b -> u8 c -> u8 d ->
  Z.lor (Z.lor (Z.lor (a * 2 ^ 24) (b * 2 ^ 16)) (c * 2 ^ 8)) d =
  a * 2 ^ 24 + b * 2 ^ 16 + c * 2 ^ 8 + d.
Proof.
  unfold u8. intros. rewrite (Z.mul_comm a), lor_low by lia.
  replace (2 ^ 24 * a + b * 2 ^ 16) with (2 ^ 16 * (2 ^ 8 * a + b)) by lia. rewrite lor_low by lia.
  replace (2 ^ 16 * (2 ^ 8 * a + b) + c * 2 ^ 8) with (2 ^ 8 * (2 ^ 16 * a + 2 ^ 8 * b + c)) by lia.
  rewrite lor_low by lia. lia.
Qed.

Lemma swap_bit v : u32 v -> swap Bit v = be_val (bitrev8 <$> le_bytes 4 v).
Proof.
  intros Hv. cbn [swap fold_left]. unfold reverse_bits. rewrite !land_ff_shiftr by (done || lia).
  unfold be_val. cbn [le_bytes fmap list_fmap reverse rev_append le_val].
  pose proof (u8_bitrev8 (v mod 256)). pose proof (u8_bitrev8 (v / 256 mod 256)).
  pose proof (u8_bitrev8 (v / 256 / 256 mod 256)). pose proof (u8_bitrev8 (v / 256 / 256 / 256 mod 256)).
  change ((3 - 0) * 8) with 24. change ((3 - 1) * 8) with 16. change ((3 - 2) * 8) with 8.
  change ((3 - 3) * 8) with 0. change (0 * 8) with 0. change (1 * 8) with 8. change (2 * 8) with 16.
  change (3 * 8) with 24. rewrite Z.div_1_r.
  replace (v / 2 ^ 8) with (v / 256) by done.
  replace (v / 2 ^ 16) with (v / 256 / 256) by (rewrite Z.div_div by lia; done).
  replace (v / 2 ^ 24) with (v / 256 / 256 / 256) by (rewrite !Z.div_div by lia; done).
  set (a := bitrev8 (v mod 256)) in *. set (b := bitrev8 (v / 256 mod 256)) in *.
  set (c := bitrev8 (v / 256 / 256 mod 256)) in *. set (d := bitrev8 (v / 256 / 256 / 256 mod 256)) in *.
  rewrite !Z.shiftl_mul_pow2 by lia. unfold as_u32, u8 in *. rewrite !Z.mod_small by lia.
  rewrite Z.lor_0_l, Z.mul_1_r, bytes_lor by done. unfold reverse. cbn. lia.
Qed.

Lemma bitrev8_invol b : u8 b -> bitrev8 (bitrev8 b) = b.
Proof.
  assert (Hall : Forall (fun b => bitrev8 (bitrev8 b) = b) (seqZ 0 256)).
  { apply (bool_decide_unpack _). vm_compute. done. }
  rewrite Forall_forall in Hall. intros Hb. apply Hall, elem_of_seqZ. u_solve.
Qed.

Lemma rotate_bytes a b c d : wf [a; b; c; d] ->
  rotate_right_16 (be_val [a; b; c; d]) = be_val [c; d; a; b].
Proof.
  unfold wf. rewrite !Forall_cons. intros (Ha & Hb & Hc & Hd & _). unfold u8 in *.
  unfold rotate_right_16, be_val, reverse. cbn [rev_append le_val].
  set (h := a * 256 + b). set (l := c * 256 + d).
  assert (Hh : 0 <= h < 65536) by lia. assert (Hl : 0 <= l < 65536) by lia.
  replace (d + 256 * (c + 256 * (b + 256 * (a + 256 * 0)))) with (h * 65536 + l) by lia.
  replace (b + 256 * (a + 256 * (d + 256 * (c + 256 * 0)))) with (l * 65536 + h) by lia.
  clearbody h l. rewrite Z.lor_comm, Z.shiftl_mul_pow2, Z.shiftr_div_pow2 by lia.
  change (2 ^ 16) with 65536. rewrite Z.div_add_l, (Z.div_small l) by lia.
  replace (as_u32 ((h * 65536 + l) * 65536)) with (2 ^ 16 * l).
  - rewrite lor_low by lia. lia.
  - unfold as_u32. apply (Z.mod_unique _ _ h); lia.
Qed.

Lemma len4_inv {T} (l : list T) : len l = 4 -> exists a b c d, l = [a; b; c; d].
Proof. destruct l as [|a [|b [|c [|d [|]]]]]; unfold len; simpl; try lia. intros _. by exists a, b, c, d. Qed.

Lemma swap_bytes_of dt v : u32 v -> be_bytes 4 (swap dt v) = swap_list dt (be_bytes 4 v).
Proof.
  intros Hv. destruct dt; [done|..].
  - rewrite <- (be_val_be_bytes 4 v Hv) at 1. pose proof (wf_be_bytes 4 v) as Hw.
    destruct (len4_inv (be_bytes 4 v) (len_be_bytes 4 v)) as (a & b & c & d & E). rewrite E in *.
    unfold swap. rewrite rotate_bytes by done. rewrite be_bytes_be_val; [done| |done].
    unfold wf in *. rewrite !Forall_cons in *. tauto.
  - unfold swap, swap_bytes. rewrite be_bytes_be_val by (done || apply wf_le_bytes).
    unfold swap_list, be_bytes. by rewrite reverse_involutive.
  - rewrite swap_bit by done. rewrite be_bytes_be_val by (done || apply wf_bitrev8).
    unfold swap_list, be_bytes. by rewrite reverse_involutive.
Qed.

Lemma u32_swap dt v : u32 v -> u32 (swap dt v).
Proof.
  intros Hv. destruct dt; [done|..].
  - unfold swap, rotate_right_16. apply (lor_bound 32); [lia| |apply u32_as_u32].
    rewrite Z.shiftr_div_pow2 by lia. split; [by apply Z.div_pos; u_solve|].
    apply Z.div_lt_upper_bound; u_solve.
  - apply u32_be_val4; [done|apply wf_le_bytes].
  - rewrite swap_bit by done. apply u32_be_val4; [done|apply wf_bitrev8].
Qed.

Lemma swap_list_invol dt l : len l = 4 -> wf l -> swap_list dt (swap_list dt l) = l.
Proof.
  intros (a & b & c & d & ->)%len4_inv Hw. destruct dt; [done..|].
  unfold swap_list, reverse. cbn [fmap list_fmap rev_append]. unfold wf in Hw.
  rewrite !Forall_cons in Hw. destruct Hw as (Ha & Hb & Hc & Hd & _).
  by rewrite !bitrev8_invol.
Qed.

Lemma len_swap_list dt l : len l = 4 -> len (swap_list dt l) = 4.
Proof. intros (a & b & c & d & ->)%len4_inv. by destruct dt. Qed.

Lemma wf_swap_list dt l : wf l -> wf (swap_list dt l).
Proof. intros. destruct dt; cbn; auto using wf_bitrev8 with wfdb. Qed.

Lemma swap_swap dt v : u32 v -> swap dt (swap dt v) = v.
Proof.
  intros Hv. rewrite <- (be_val_be_bytes 4 (swap dt (swap dt v))) by by apply u32_swap, u32_swap.
  rewrite !swap_bytes_of by auto using u32_swap.
  rewrite swap_list_invol; [|apply len_be_bytes|apply wf_be_bytes].
  by apply be_val_be_bytes.
Qed.

(** The word a firmware writes for four bytes of its data. *)
Definition din_word (dt : DataType) (l : bytes) : Z := be_val (swap_list dt l).

Lemma swap_be_val dt l : len l = 4 -> wf l -> swap dt (be_val l) = din_word dt l.
Proof.
  intros Hl Hw. unfold din_word. rewrite <- (be_val_be_bytes 4 (swap dt (be_val l))) by by apply u32_swap, u32_be_val4.
  rewrite swap_bytes_of by by apply u32_be_val4. rewrite (be_bytes_be_val l 4); [done|done|]. unfold len in Hl. lia.
Qed.

Lemma din_word_bytes dt l : len l = 4 -> wf l -> be_bytes 4 (swap dt (din_word dt l)) = l.
Proof.
  intros Hl Hw. rewrite <- swap_be_val, swap_swap by auto using u32_be_val4.
  apply be_bytes_be_val; [done|]. unfold len in Hl. lia.
Qed.

Lemma u32_din_word dt l : len l = 4 -> wf l -> u32 (din_word dt l).
Proof. intros. apply u32_be_val4; [by apply len_swap_list|by apply wf_swap_list]. Qed.

(** What a firmware finds in the word. *)
Lemma din_word_read dt l : len l = 4 -> wf l -> swap_list dt (be_bytes 4 (din_word dt l)) = l.
Proof.
  intros Hl Hw. unfold din_word. pose proof (len_swap_list dt l Hl) as Hs.
  rewrite be_bytes_be_val; [by apply swap_list_invol|by apply wf_swap_list|unfold len in Hs; lia].
Qed.

(** The digest engine swaps as the cipher engine does. *)
Definition hash_datatype (dt : DataType) : hash.DataType :=
  match dt with
  | Word => hash.Word | Halfword => hash.Halfword | Byte => hash.Byte | Bit => hash.Bit
  end.

Lemma hash_swapped dt v : hash.swapped (hash_datatype dt) v = swap dt v.
Proof. by destruct dt. Qed.

(** ** Chunks *)

Lemma chunks_fuel_irrel {T} f g n (l : list T) : 0 < n -> (length l <= f)%nat -> (length l <= g)%nat ->
  chunks_fuel f n l = chunks_fuel g n l.
Proof.
  intros Hn. revert g l. induction f as [|f IH]; intros g l Hf Hg.
  - destruct l; [by destruct g|simpl in Hf; lia].
  - destruct g as [|g]; [destruct l; [done|simpl in Hg; lia]|]. destruct l as [|x l]; [done|].
    cbn [chunks_fuel]. f_equal. apply IH; rewrite length_drop; simpl in *; lia.
Qed.

Lemma chunks_step {T} n (l : list T) : 0 < n -> l <> [] ->
  chunks n l = sub l 0 n :: chunks n (drop (Z.to_nat n) l).
Proof.
  intros Hn Hl. unfold chunks. destruct l as [|x l]; [done|]. cbn [length chunks_fuel]. f_equal.
  apply chunks_fuel_irrel; rewrite ?length_drop; simpl; lia.
Qed.

Lemma chunks_nil {T} n : chunks n (@nil T) = [].
Proof. done. Qed.

Lemma length_be_bytes n v : length (be_bytes n v) = n.
Proof. pose proof (len_be_bytes n v) as H. unfold len in H. lia. Qed.

Lemma sub_0_take {T} (l : list T) n : 0 <= n -> sub l 0 n = take (Z.to_nat n) l.
Proof. intros. unfold sub. by rewrite drop_0, Z.sub_0_r. Qed.

Lemma be_val_head a l : be_val (a :: l) = a * 256 ^ len l + be_val l.
Proof.
  induction l as [|b l IH] using rev_ind; [change (256 ^ len []) with 1; unfold be_val, reverse; cbn [rev_append le_val app]; lia|].
  rewrite app_comm_cons, !be_val_snoc, IH, len_app. change (len [b]) with 1.
  rewrite Z.pow_add_r by (pose proof (len_nonneg l); lia). lia.
Qed.

(** ** The multiplication of GHASH

    [gf128_mul] of [cryp/gcm.rs] is the multiplication of GF(2^128): with a block read
    as the polynomial whose coefficients are its bits, the most significant bit of the
    first byte first, the product is the remainder of the product of polynomials modulo
    [x^128 + x^7 + x^2 + x + 1].  The byte loop also agrees with the [u128] reference. *)

Import gcm.

(** ** Polynomials over GF(2) *)

Lemma gf2_mul_lxor_r q a b : gf2_mul q (Z.lxor a b) = Z.lxor (gf2_mul q a) (gf2_mul q b).
Proof.
  induction q as [|[] q IH]; simpl; [done|..]; rewrite IH, double_lxor;
    rewrite ?Z.lxor_0_l; [|done]. rewrite !Z.lxor_assoc. f_equal.
  rewrite <- !Z.lxor_assoc. f_equal. apply Z.lxor_comm.
Qed.

Lemma gf2_mul_double q p : gf2_mul q (2 * p) = 2 * gf2_mul q p.
Proof.
  induction q as [|b q IH]; [simpl; lia|]. cbn [gf2_mul]. rewrite IH, double_lxor.
  f_equal. by destruct b.
Qed.

Lemma gf2_mul_0_r q : gf2_mul q 0 = 0.
Proof. induction q as [|[] q IH]; cbn [gf2_mul]; rewrite ?IH; done. Qed.

Lemma gf2_mul_snoc q b p :
  gf2_mul (q ++ [b]) p = Z.lxor (gf2_mul q p) (if b : bool then 2 ^ len q * p else 0).
Proof.
  induction q as [|c q IH]; cbn [gf2_mul app].
  - rewrite Z.lxor_0_r, Z.lxor_0_l. destruct b; [|done]. change (2 ^ len []) with 1. lia.
  - rewrite IH, double_lxor, <- Z.lxor_assoc. f_equal. destruct b; [|done].
    rewrite len_cons, Z.pow_add_r by (pose proof (len_nonneg q); lia). lia.
Qed.

(** Coefficientwise sum; the shorter list is padded. *)
Fixpoint bits_add (a b : list bool) : list bool :=
  match a, b with
  | [], _ => b
  | _, [] => a
  | x :: a, y :: b => xorb x y :: bits_add a b
  end.

Lemma gf2_mul_bits_add a b p : gf2_mul (bits_add a b) p = Z.lxor (gf2_mul a p) (gf2_mul b p).
Proof.
  revert b. induction a as [|x a IH]; intros [|y b]; cbn [bits_add gf2_mul];
    rewrite ?Z.lxor_0_l, ?Z.lxor_0_r; try done.
  rewrite IH, double_lxor.
  replace (if xorb x y then p else 0) with (Z.lxor (if x then p else 0) (if y then p else 0)).
  - rewrite !Z.lxor_assoc. f_equal. rewrite <- !Z.lxor_assoc. f_equal. apply Z.lxor_comm.
  - destruct x, y; rewrite ?Z.lxor_0_r, ?Z.lxor_0_l, ?Z.lxor_nilpotent; done.
Qed.

Lemma gf2_mul_mul q q' p : exists q'', gf2_mul q (gf2_mul q' p) = gf2_mul q'' p.
Proof.
  induction q as [|b q [q'' IH]]; [by exists []|]. cbn [gf2_mul]. rewrite IH.
  exists (bits_add (if b then q' else []) (false :: q'')). rewrite gf2_mul_bits_add. by destruct b.
Qed.

Section congruence.
Context (p : Z).

Lemma gf2_congr_refl a : gf2_congr p a a.
Proof. exists []. apply Z.lxor_nilpotent. Qed.

Lemma gf2_congr_trans a b c : gf2_congr p a b -> gf2_congr p b c -> gf2_congr p a c.
Proof.
  intros [q Hq] [q' Hq']. exists (bits_add q q'). rewrite gf2_mul_bits_add, <- Hq, <- Hq'.
  rewrite Z.lxor_assoc, <- (Z.lxor_assoc b), Z.lxor_nilpotent. by rewrite Z.lxor_0_l.
Qed.

Lemma gf2_congr_lxor a b c d : gf2_congr p a b -> gf2_congr p c d ->
  gf2_congr p (Z.lxor a c) (Z.lxor b d).
Proof.
  intros [q Hq] [q' Hq']. exists (bits_add q q'). rewrite gf2_mul_bits_add, <- Hq, <- Hq'.
  rewrite !Z.lxor_assoc. f_equal. rewrite <- !Z.lxor_assoc. f_equal. apply Z.lxor_comm.
Qed.

Lemma gf2_congr_mul q a b : gf2_congr p a b -> gf2_congr p (gf2_mul q a) (gf2_mul q b).
Proof.
  intros [q' Hq']. destruct (gf2_mul_mul q q' p) as [q'' H]. exists q''.
  by rewrite <- gf2_mul_lxor_r, Hq'.
Qed.

Lemma gf2_congr_modulus a (t : bool) : gf2_congr p (Z.lxor a (if t then p else 0)) a.
Proof.
  exists [t]. cbn [gf2_mul]. rewrite Z.lxor_comm, <- Z.lxor_assoc, Z.lxor_nilpotent, Z.lxor_0_l.
  by rewrite Z.lxor_0_r.
Qed.

(** A polynomial below the degree of the modulus is the only one of its class. *)
Context (n : Z) (Hn : 0 <= n) (Hp : 2 ^ n <= p < 2 ^ (n + 1)).

Lemma gf2_mul_degree q : gf2_mul q p = 0 \/ 2 ^ n <= gf2_mul q p.
Proof.
  assert (H0 : 0 < 2 ^ n) by (apply Z.pow_pos_nonneg; lia).
  induction q as [|b q IH]; [by left|]. cbn [gf2_mul]. destruct IH as [->|IH].
  - rewrite Z.lxor_0_r. destruct b; lia.
  - right. set (g := gf2_mul q p) in *. set (x := if b then p else 0).
    assert (Hx : 0 <= x < 2 ^ (n + 1)) by (destruct b; subst x; lia).
    assert (Hs : Z.lxor x (2 * g) / 2 ^ (n + 1) = 2 * g / 2 ^ (n + 1)).
    { rewrite <- !Z.shiftr_div_pow2, Z.shiftr_lxor, !Z.shiftr_div_pow2 by lia.
      by rewrite (Z.div_small x), Z.lxor_0_l by lia. }
    rewrite (Z.pow_add_r 2 n 1) in * by lia. change (2 ^ 1) with 2 in *.
    assert (1 <= 2 * g / (2 ^ n * 2)) by (apply Z.div_le_lower_bound; lia).
    assert (Hd := Z.mul_div_le (Z.lxor x (2 * g)) (2 ^ n * 2) ltac:(lia)). nia.
Qed.

Lemma gf2_congr_unique a b : 0 <= a < 2 ^ n -> 0 <= b < 2 ^ n -> gf2_congr p a b -> a = b.
Proof.
  intros Ha Hb [q Hq]. pose proof (lxor_bound n a b Hn Ha Hb).
  destruct (gf2_mul_degree q) as [H0|H1]; [|lia]. rewrite H0 in Hq. by apply Z.lxor_eq.
Qed.
End congruence.

(** ** Blocks as polynomials *)

Definition msb_bits (b : Z) : list bool := Z.testbit b <$> [7; 6; 5; 4; 3; 2; 1; 0].
Definition block_bits (l : bytes) : list bool := l ≫= msb_bits.
Definition poly (l : bytes) : Z := gf2_mul (block_bits l) 1.

(** [x^128 + x^7 + x^2 + x + 1]. *)
Definition ghash_modulus : Z := 2 ^ 128 + 0x87.

Lemma len_block_bits l : len (block_bits l) = 8 * len l.
Proof. induction l; [done|]. cbn. rewrite !len_cons in *. unfold block_bits in *. lia. Qed.

Lemma gf2_mul_1_bound q : 0 <= gf2_mul q 1 < 2 ^ len q.
Proof.
  induction q as [|b q IH] using rev_ind; [done|]. rewrite gf2_mul_snoc, len_app.
  change (len [b]) with 1. pose proof (len_nonneg q).
  apply lxor_bound; [lia|..]; rewrite Z.pow_add_r by lia; [lia|].
  assert (0 < 2 ^ len q) by (apply Z.pow_pos_nonneg; lia). destruct b; lia.
Qed.

Lemma poly_bound l : len l = 16 -> 0 <= poly l < 2 ^ 128.
Proof. intros Hl. pose proof (gf2_mul_1_bound (block_bits l)) as H. by rewrite len_block_bits, Hl in H. Qed.

Lemma block_bits_xor a b : block_bits (xor_bytes a b) = zip_with xorb (block_bits a) (block_bits b).
Proof.
  revert b. induction a as [|x a IH]; intros [|y b]; try done.
  cbn -[msb_bits]. unfold block_bits, xor_bytes in *. rewrite IH. unfold msb_bits.
  cbn [fmap list_fmap app zip_with]. by rewrite !Z.lxor_spec.
Qed.

Lemma poly_xor a b : len a = len b -> poly (xor_bytes a b) = Z.lxor (poly a) (poly b).
Proof.
  intros Hl. unfold poly. rewrite block_bits_xor, <- gf2_mul_bits_add. f_equal.
  assert (H : len (block_bits a) = len (block_bits b)) by (rewrite !len_block_bits; lia).
  revert H. generalize (block_bits a) (block_bits b). clear.
  induction l as [|x l IH]; intros [|y k] H; try done.
  cbn. f_equal. apply IH. rewrite !len_cons in H. lia.
Qed.

(** ** The shift by one, as multiplication by [x] *)

Fixpoint shr_from (c : Z) (l : bytes) : bytes :=
  match l with
  | [] => []
  | a :: l => Z.lor (Z.shiftr a 1) (Z.shiftl (Z.land c 1) 7) :: shr_from a l
  end.

Lemma len_shr_from c l : len (shr_from c l) = len l.
Proof. revert c. induction l; intros; cbn [shr_from]; rewrite ?len_cons, ?IHl; done. Qed.

Lemma land_1 x : Z.land x 1 = Z.b2z (Z.testbit x 0).
Proof. change 1 with (2 ^ 0) at 1. rewrite land_pow2 by lia. by destruct (Z.testbit x 0). Qed.

Lemma shr_byte_bits a c : u8 a ->
  msb_bits (Z.lor (Z.shiftr a 1) (Z.shiftl (Z.land c 1) 7)) =
  Z.testbit c 0 :: (Z.testbit a <$> [7; 6; 5; 4; 3; 2; 1]).
Proof.
  intros Ha. rewrite land_1. set (w := Z.lor _ _).
  assert (Hlow : forall k, 0 <= k < 7 -> Z.testbit w k = Z.testbit a (k + 1)).
  { intros k Hk. unfold w. rewrite Z.lor_spec, Z.shiftr_spec, Z.shiftl_spec_low by lia.
    apply orb_false_r. }
  assert (Hhi : Z.testbit w 7 = Z.testbit c 0).
  { unfold w. rewrite Z.lor_spec, Z.shiftr_spec, Z.shiftl_spec by lia.
    rewrite (testbit_high 8 a) by (u_solve || lia). by destruct (Z.testbit c 0). }
  unfold msb_bits. cbn [fmap list_fmap]. by rewrite Hhi, !Hlow by lia.
Qed.

Lemma shr_byte_wf a c : u8 a -> u8 (Z.lor (Z.shiftr a 1) (Z.shiftl (Z.land c 1) 7)).
Proof.
  intros Ha. rewrite land_1. apply (lor_bound 8); [lia|..].
  - rewrite Z.shiftr_div_pow2 by lia. change (2 ^ 1) with 2. dlia.
  - rewrite Z.shiftl_mul_pow2 by lia. destruct (Z.testbit c 0); simpl; lia.
Qed.

Lemma wf_shr_from c l : wf l -> wf (shr_from c l).
Proof.
  intros Hl. revert c. induction Hl; intros; [apply wf_nil|]. apply wf_cons; auto using shr_byte_wf.
Qed.

Lemma shr_from_bits c l : wf l ->
  block_bits (shr_from c l) ++ [Z.testbit (List.last l c) 0] = Z.testbit c 0 :: block_bits l.
Proof.
  intros Hl. revert c. induction Hl as [|a l Ha Hl IH]; intros c; [done|].
  cbn [shr_from block_bits mbind list_bind]. rewrite shr_byte_bits by done.
  change (list_bind _ _ msb_bits (shr_from a l)) with (block_bits (shr_from a l)).
  change (list_bind _ _ msb_bits l) with (block_bits l).
  rewrite <- app_assoc.
  assert (List.last (a :: l) c = List.last l a) as -> by (destruct l as [|x l]; [done|];
    cbn; clear; revert x; induction l as [|y l IH]; intros x; cbn; auto).
  rewrite IH. cbn [fmap list_fmap app]. unfold msb_bits at 2. cbn [fmap list_fmap app]. done.
Qed.

(** The bytes of the update of [v] in a turn of [gf128_mul]. *)
Definition xtimes (v : bytes) : bytes :=
  let lsb := Z.land (v !!! 15%nat) 1 in
  let v := fold_left shift_step (reverse (seq 1 15)) v in
  let v := <[0%nat := Z.shiftr (v !!! 0%nat) 1]> v in
  if negb (lsb =? 0) then <[0%nat := Z.lxor (v !!! 0%nat) 0xE1]> v else v.

Definition e1_block : bytes := 0xE1 :: replicate 15 0.

Lemma xtimes_eq v : len v = 16 ->
  xtimes v = let w := shr_from 0 v in
             if Z.testbit (List.last v 0) 0 then xor_bytes w e1_block else w.
Proof.
  intros Hl. do 17 (destruct v as [|? v]; [unfold len in Hl; simpl in Hl; try lia|]);
    [|unfold len in Hl; simpl in Hl; lia].
  unfold xtimes. rewrite land_1. unfold shift_step, reverse, xor_bytes, e1_block.
  cbn [fold_left rev_append seq insert list_insert lookup_total list_lookup_total Nat.sub shr_from
    List.last zip_with replicate].
  change (Z.shiftl (Z.land 0 1) 7) with 0. rewrite Z.lor_0_r, !Z.lxor_0_r.
  by match goal with |- context [Z.testbit ?b 0] => destruct (Z.testbit b 0) end.
Qed.

Lemma xtimes_poly v : len v = 16 -> wf v ->
  gf2_congr ghash_modulus (poly (xtimes v)) (2 * poly v) /\ len (xtimes v) = 16 /\ wf (xtimes v).
Proof.
  intros Hl Hw. rewrite xtimes_eq by done. cbv zeta.
  pose proof (shr_from_bits 0 v Hw) as Hb. set (t := Z.testbit (List.last v 0) 0) in *.
  assert (Hlw : len (shr_from 0 v) = 16) by by rewrite len_shr_from.
  assert (Hp : poly (shr_from 0 v) = Z.lxor (2 * poly v) (if t then 2 ^ 128 else 0)).
  { unfold poly. apply (f_equal (fun q => gf2_mul q 1)) in Hb. cbv beta in Hb.
    rewrite gf2_mul_snoc, len_block_bits, Hlw, Z.bits_0 in Hb. cbn [gf2_mul] in Hb.
    rewrite Z.lxor_0_l in Hb. rewrite <- Hb, Z.lxor_assoc.
    replace (2 ^ (8 * 16) * 1) with (2 ^ 128) by done.
    destruct t; by rewrite Z.lxor_nilpotent, Z.lxor_0_r. }
  destruct t.
  - rewrite poly_xor by by rewrite Hlw. change (poly e1_block) with 0x87.
    rewrite Hp, Z.lxor_assoc. change (Z.lxor (2 ^ 128) 135) with ghash_modulus. split_and!.
    + apply (gf2_congr_modulus _ _ true).
    + unfold xor_bytes, len in *. rewrite length_zip_with. change (length e1_block) with 16%nat. lia.
    + unfold xor_bytes. apply Forall_lookup. intros i x Hx.
      apply lookup_zip_with_Some in Hx as (a & b & -> & Ha & Hb').
      apply (lxor_bound 8); [lia|eapply wf_lookup; [|done]; by apply wf_shr_from|].
      eapply wf_lookup; [|exact Hb']. repeat constructor; u_solve.
  - rewrite Hp, Z.lxor_0_r. split_and!; [apply gf2_congr_refl|done|by apply wf_shr_from].
Qed.

Lemma len_xor_bytes a b : len a = len b -> len (xor_bytes a b) = len a.
Proof. intros. unfold xor_bytes, len in *. rewrite length_zip_with. lia. Qed.

Lemma wf_xor_bytes a b : wf a -> wf b -> wf (xor_bytes a b).
Proof.
  intros Ha. revert b. induction Ha as [|x a Hx Ha IH]; intros b Hb; [apply wf_nil|].
  destruct Hb as [|y b Hy Hb]; [apply wf_nil|].
  apply wf_cons; [by apply (lxor_bound 8)|by apply IH].
Qed.

(** ** The loop *)

Fixpoint gf128_go (q : list bool) (z v : bytes) : bytes :=
  match q with
  | [] => z
  | b :: q => gf128_go q (if b then xor_bytes z v else z) (xtimes v)
  end.

Definition bit_at (x : bytes) (i : nat) : bool :=
  Z.testbit (x !!! (i / 8)%nat) (7 - Z.of_nat i mod 8).

Lemma gf128_fold x l z v :
  (fold_left (gf128_step x) l (z, v)).1 = gf128_go (bit_at x <$> l) z v.
Proof.
  revert z v. induction l as [|i l IH]; intros z v; [done|].
  cbn [fold_left fmap list_fmap gf128_go]. rewrite <- IH. do 2 f_equal. unfold gf128_step, bit_at.
  rewrite land_1, Z.shiftr_spec, Z.add_0_l by lia.
  f_equal. by destruct (Z.testbit _ (7 - _)).
Qed.

Lemma bit_at_block x : len x = 16 -> bit_at x <$> seq 0 128 = block_bits x.
Proof.
  intros Hl. do 17 (destruct x as [|? x]; [unfold len in Hl; simpl in Hl; try lia|]);
    [|unfold len in Hl; simpl in Hl; lia]. reflexivity.
Qed.

Lemma gf128_mul_go x y : len x = 16 -> gf128_mul x y = gf128_go (block_bits x) zero16 y.
Proof. intros. unfold gf128_mul. by rewrite gf128_fold, bit_at_block. Qed.

Lemma gf128_go_spec q z v : len z = 16 -> wf z -> len v = 16 -> wf v ->
  gf2_congr ghash_modulus (poly (gf128_go q z v)) (Z.lxor (poly z) (gf2_mul q (poly v))) /\
  len (gf128_go q z v) = 16 /\ wf (gf128_go q z v).
Proof.
  revert z v. induction q as [|b q IH]; intros z v Hlz Hz Hlv Hv; cbn [gf128_go gf2_mul].
  - rewrite Z.lxor_0_r. split_and!; [apply gf2_congr_refl|done..].
  - destruct (xtimes_poly v Hlv Hv) as (Hx & Hlx & Hwx).
    assert (Hlz' : len (if b then xor_bytes z v else z) = 16)
      by (destruct b; [rewrite len_xor_bytes; lia|done]).
    assert (Hz' : wf (if b then xor_bytes z v else z)) by (destruct b; [by apply wf_xor_bytes|done]).
    destruct (IH _ _ Hlz' Hz' Hlx Hwx) as (Hc & Hrest). split; [|exact Hrest].
    eapply gf2_congr_trans; [exact Hc|].
    replace (poly (if b then xor_bytes z v else z)) with (Z.lxor (poly z) (if b then poly v else 0))
      by (destruct b; [by rewrite poly_xor by lia|by rewrite Z.lxor_0_r]).
    rewrite Z.lxor_assoc. apply gf2_congr_lxor; [apply gf2_congr_refl|].
    apply gf2_congr_lxor; [apply gf2_congr_refl|].
    rewrite <- gf2_mul_double. by apply gf2_congr_mul.
Qed.

Lemma gf128_mul_wf x y : len x = 16 -> len y = 16 -> wf y ->
  len (gf128_mul x y) = 16 /\ wf (gf128_mul x y).
Proof.
  intros Hx Hy Hw. rewrite gf128_mul_go by done. apply gf128_go_spec; auto with wfdb; try done.
  unfold zero16. auto with wfdb.
Qed.

(** C27: The product of two blocks in GF(2^128): for every pair of blocks the byte loop
    returns a block, and its polynomial is the one polynomial of degree below 128 that is
    congruent to the product of the two polynomials modulo [x^128 + x^7 + x^2 + x + 1]. *)
Theorem gf128_mul_product (x y : bytes) (Hx : len x = 16) (Hy : len y = 16) (Hw : wf y) :
  len (gf128_mul x y) = 16 /\ wf (gf128_mul x y) /\
  (forall r, 0 <= r < 2 ^ 128 ->
     (gf2_congr ghash_modulus (gf2_mul (block_bits x) (poly y)) r <-> r = poly (gf128_mul x y))).
Proof.
  rewrite gf128_mul_go by done.
  destruct (gf128_go_spec (block_bits x) zero16 y) as (Hc & Hl & Hwf); [done| |done..|].
  { unfold zero16. auto with wfdb. }
  split_and!; [done..|]. intros r Hr. change (poly zero16) with 0 in Hc. rewrite Z.lxor_0_l in Hc. split.
  - intros H. symmetry. eapply (gf2_congr_unique ghash_modulus 128); [lia|done| |done|].
    + by apply poly_bound.
    + by eapply gf2_congr_trans.
  - intros ->. destruct Hc as [q Hq]. exists q. rewrite <- Hq. apply Z.lxor_comm.
Qed.

(** ** The reference on [u128] *)

Lemma lxor_split n a b x y : 0 <= n -> 0 <= x < 2 ^ n -> 0 <= y < 2 ^ n ->
  Z.lxor (a * 2 ^ n + x) (b * 2 ^ n + y) = Z.lxor a b * 2 ^ n + Z.lxor x y.
Proof.
  intros Hn Hx Hy. pose proof (lxor_bound n x y Hn Hx Hy) as Hxy.
  rewrite <- !lor_shiftl by done. apply Z.bits_inj'. intros i Hi.
  rewrite Z.lxor_spec, !Z.lor_spec. destruct (Z.ltb_spec i n).
  - by rewrite !Z.shiftl_spec_low, Z.lxor_spec by lia.
  - rewrite !Z.shiftl_spec, (testbit_high n x), (testbit_high n y), (testbit_high n (Z.lxor x y)),
      !orb_false_r by lia. by rewrite Z.lxor_spec.
Qed.

Lemma pow256 n : 0 <= n -> 256 ^ n = 2 ^ (8 * n).
Proof. intros. change 256 with (2 ^ 8). by rewrite <- Z.pow_mul_r by lia. Qed.

Lemma be_val_xor a b : len a = len b -> wf a -> wf b ->
  be_val (xor_bytes a b) = Z.lxor (be_val a) (be_val b).
Proof.
  revert b. induction a as [|x a IH]; intros [|y b] Hl Ha Hb; try done.
  apply wf_cons_inv in Ha as [Hx Ha], Hb as [Hy Hb]. rewrite !len_cons in Hl.
  cbn [xor_bytes zip_with]. change (zip_with Z.lxor a b) with (xor_bytes a b).
  rewrite !be_val_head, len_xor_bytes, IH by (done || lia).
  replace (len b) with (len a) by lia. pose proof (len_nonneg a).
  pose proof (be_val_bounds a Ha) as Ba. pose proof (be_val_bounds b Hb) as Bb.
  replace (len b) with (len a) in Bb by lia. rewrite pow256 in * by lia.
  symmetry. apply lxor_split; lia.
Qed.

Lemma be_val_shr c l : wf l ->
  be_val (shr_from c l) = (Z.b2z (Z.testbit c 0) * 256 ^ len l + be_val l) / 2.
Proof.
  intros Hl. revert c. induction Hl as [|a l Ha Hl IH]; intros c; cbn [shr_from].
  - change (be_val []) with 0. change (256 ^ len []) with 1. by destruct (Z.testbit c 0).
  - rewrite !be_val_head, len_shr_from, IH, land_1, Z.shiftr_div_pow2, Z.lor_comm by lia.
    rewrite lor_shiftl by (change (2 ^ 1) with 2; dlia). change (2 ^ 1) with 2. change (2 ^ 7) with 128.
    rewrite len_cons, Z.pow_add_r by (pose proof (len_nonneg l); lia).
    set (p := 256 ^ len l). set (v := be_val l). set (t := Z.b2z (Z.testbit c 0)).
    assert (Hb : a = 2 * (a / 2) + Z.b2z (Z.testbit a 0)).
    { rewrite Z.bit0_mod. apply Z.div_mod. lia. }
    set (o := Z.b2z (Z.testbit a 0)) in *.
    replace (t * (256 ^ 1 * p) + (a * p + v)) with ((t * 128 + a / 2) * p * 2 + (o * p + v)).
    + rewrite Z.div_add_l by lia. done.
    + rewrite Hb at 2. lia.
Qed.

Lemma be_val_last l : l <> [] -> Z.testbit (be_val l) 0 = Z.testbit (List.last l 0) 0.
Proof.
  destruct l as [|b l] using rev_ind; [done|]. intros _.
  rewrite be_val_snoc, last_last, Z.add_comm. change 256 with (2 * 128).
  rewrite <- Z.mul_assoc, !Z.bit0_odd, Z.add_comm, Z.odd_add_mul_2. done.
Qed.

Lemma xtimes_be_val v : len v = 16 -> wf v ->
  be_val (xtimes v) = if negb (Z.land (be_val v) 1 =? 0)
                      then Z.lxor (Z.shiftr (be_val v) 1) 0xE1000000000000000000000000000000
                      else Z.shiftr (be_val v) 1.
Proof.
  intros Hl Hw. assert (Hlw : len (shr_from 0 v) = 16) by by rewrite len_shr_from.
  rewrite xtimes_eq, land_1, be_val_last by (done || by intros ->). cbv zeta.
  assert (Hs : be_val (shr_from 0 v) = Z.shiftr (be_val v) 1).
  { rewrite be_val_shr, Z.bits_0, Z.shiftr_div_pow2 by (done || lia). done. }
  destruct (Z.testbit (List.last v 0) 0); cbn [Z.b2z negb Z.eqb]; [|done].
  rewrite be_val_xor, Hs; [done|by rewrite Hlw|by apply wf_shr_from|].
  repeat constructor; u_solve.
Qed.

Lemma block_bits_be_val x : wf x ->
  block_bits x = (fun i => Z.testbit (be_val x) (8 * len x - 1 - Z.of_nat i)) <$> seq 0 (8 * length x).
Proof.
  induction 1 as [|a l Ha Hl IH]; [done|].
  replace (8 * length (a :: l))%nat with (8 + 8 * length l)%nat by (simpl; lia).
  rewrite seq_app, fmap_app. cbn [Nat.add]. unfold block_bits in *. cbn [mbind list_bind].
  change (list_bind _ _ msb_bits l) with (l ≫= msb_bits). rewrite IH.
  pose proof (be_val_bounds l Hl) as Hb. pose proof (len_nonneg l). rewrite pow256 in Hb by lia.
  rewrite be_val_head, len_cons, pow256, <- lor_shiftl by lia. f_equal.
  - unfold msb_bits. cbn [fmap list_fmap seq].
    repeat (apply (f_equal2 cons);
      [rewrite Z.lor_spec, Z.shiftl_spec, (testbit_high _ (be_val l) _ Hb), orb_false_r by lia;
       f_equal; lia|]). done.
  - rewrite <- (fmap_add_seq 8 0). rewrite <- list_fmap_compose. apply list_fmap_ext.
    intros i j Hj. apply lookup_seq in Hj as [-> Hj]. cbn [compose].
    rewrite Z.lor_spec, Z.shiftl_spec_low by (unfold len in *; lia). rewrite orb_false_l. f_equal. lia.
Qed.

Lemma gf128_fold_u128 x l z v : len z = 16 -> wf z -> len v = 16 -> wf v ->
  (fold_left (gf128_step_u128 x) l (be_val z, be_val v)).1 =
  be_val (gf128_go ((fun i => Z.testbit x (127 - i)) <$> l) z v).
Proof.
  revert z v. induction l as [|i l IH]; intros z v Hlz Hz Hlv Hv; [done|].
  cbn [fold_left fmap list_fmap gf128_go]. destruct (xtimes_poly v Hlv Hv) as (_ & Hlx & Hwx).
  rewrite <- IH; [|by destruct (Z.testbit _ _); rewrite ?len_xor_bytes by lia|
    by destruct (Z.testbit _ _); [apply wf_xor_bytes|]|done..].
  do 2 f_equal. unfold gf128_step_u128. rewrite xtimes_be_val by done.
  rewrite (land_1 (Z.shiftr x _)), Z.shiftr_spec, Z.add_0_l by lia.
  f_equal. destruct (Z.testbit x (127 - i)); [by rewrite be_val_xor by (done || lia)|done].
Qed.

(** The byte-oriented multiplication and the [u128] reference of its unit tests agree on
    every pair of blocks. *)
Theorem gf128_mul_matches_u128 (x y : bytes) (Hx : len x = 16 /\ wf x) (Hy : len y = 16 /\ wf y) :
  gf128_mul x y = gf128_mul_u128 x y.
Proof.
  destruct Hx as [Hlx Hwx], Hy as [Hly Hwy]. unfold gf128_mul_u128.
  destruct (gf128_mul_wf x y) as [Hl Hw]; [done..|].
  rewrite gf128_mul_go in * by done. change 0 with (be_val zero16) at 1.
  rewrite gf128_fold_u128 by (done || (unfold zero16; auto with wfdb)).
  rewrite <- list_fmap_compose.
  assert ((fun i => Z.testbit (be_val x) (127 - i)) ∘ Z.of_nat <$> seq 0 128 = block_bits x) as ->.
  { rewrite block_bits_be_val, Hlx by done. by replace (length x) with 16%nat by (unfold len in Hlx; lia). }
  symmetry. apply be_bytes_be_val; [done|]. unfold len in Hl. lia.
Qed.

#[global] Opaque gf128_mul.
