(* ===== verification/Stm32Engine.v ===== *)
(** * STM32Sim: the AES engine

    What one block through the FIFOs of the engine does: the invariant of engine and GCM
    session, a block fed word by word, its result drained word by word, and the chaining
    modes as reference functions on lists of blocks. *)

From S2P Require Import Prelude.
From S2P Require Import Crc.
From S2P Require Import McuCrates.
From S2P Require Import Stm32Core.
From S2P Require Import Stm32Cryp.
From S2P Require Import Stm32Gf128.

Import cryp gcm.

(** A 16-byte block. *)
Definition block (b : bytes) : Prop := len b = 16 /\ wf b.

Lemma block_zero : block zero16.
Proof. split; [done|]. unfold zero16. auto with wfdb. Qed.
Lemma block_xor a b : block a -> block b -> block (xor_bytes a b).
Proof. intros [] []. split; [rewrite len_xor_bytes; lia|by apply wf_xor_bytes]. Qed.
Lemma block_gf128 a b : block a -> block b -> block (gf128_mul a b).
Proof. intros [] []. apply gf128_mul_wf; assumption. Qed.
Create HintDb stm32.
#[export] Hint Resolve block_zero block_xor block_gf128 : stm32.

(** ** FIFOs *)

Definition word_pos (n : Z) : Prop := n = 0 \/ n = 4 \/ n = 8 \/ n = 12.

Lemma push_bytes_prefix buf pre bs : take (length pre) buf = pre -> len pre + len bs <= len buf ->
  exists buf', push_bytes buf (len pre) bs = Ret (buf', len pre + len bs) /\
    len buf' = len buf /\ take (length pre + length bs) buf' = pre ++ bs.
Proof.
  revert buf pre. induction bs as [|b bs IH]; intros buf pre Hp Hl; cbn [push_bytes].
  - exists buf. rewrite Nat.add_0_r, app_nil_r. change (len []) with 0. by rewrite Z.add_0_r.
  - rewrite len_cons in Hl. unfold set_idx.
    rewrite bool_decide_true by (pose proof (len_nonneg pre); pose proof (len_nonneg bs); lia).
    cbn [rbind]. replace (len pre + 1) with (len (pre ++ [b])) by (rewrite len_app; done).
    destruct (IH (<[Z.to_nat (len pre) := b]> buf) (pre ++ [b])) as (buf' & E & Hlen & Ht).
    + rewrite length_app. cbn [length]. rewrite Nat.add_1_r. replace (Z.to_nat (len pre)) with (length pre) by (unfold len; lia).
      rewrite (take_S_r _ _ b) by (apply list_lookup_insert_eq; unfold len in *; lia).
      f_equal. rewrite take_insert_ge by lia. done.
    + rewrite len_app, len_insert. change (len [b]) with 1. lia.
    + exists buf'. rewrite E, len_app, (len_cons b bs). change (len [b]) with 1. split_and!.
      * do 2 f_equal. lia.
      * by rewrite Hlen, len_insert.
      * rewrite length_app, <- app_assoc in Ht. cbn [length app] in *.
        by replace (length pre + S (length bs))%nat with (length pre + 1 + length bs)%nat by lia.
Qed.

Lemma push_bytes_wf buf n bs buf' n' : push_bytes buf n bs = Ret (buf', n') -> wf buf -> wf bs ->
  wf buf' /\ len buf' = len buf /\ n' = n + len bs.
Proof.
  revert buf n. induction bs as [|b bs IH]; intros buf n E Hb Hw; cbn [push_bytes] in E.
  - injection E as <- <-. change (len []) with 0. split_and!; auto; lia.
  - apply wf_cons_inv in Hw as [Hu Hw]. unfold set_idx in E. case_bool_decide; [|done].
    cbn [rbind] in E. apply IH in E as (H1 & H2 & H3); [|by apply wf_insert|done].
    rewrite len_insert in H2. rewrite len_cons. split_and!; auto; lia.
Qed.

Lemma push_bytes_some buf n bs : 0 <= n -> n + len bs <= len buf ->
  exists buf', push_bytes buf n bs = Ret (buf', n + len bs).
Proof.
  revert buf n. induction bs as [|b bs IH]; intros buf n Hn Hl; cbn [push_bytes].
  - exists buf. change (len []) with 0. by rewrite Z.add_0_r.
  - rewrite len_cons in *. unfold set_idx. pose proof (len_nonneg bs).
    rewrite bool_decide_true by lia. cbn [rbind].
    destruct (IH (<[Z.to_nat n := b]> buf) (n + 1)) as [buf' E]; [lia|by rewrite len_insert; lia|].
    exists buf'. rewrite E. do 2 f_equal. lia.
Qed.

(** ** The counter *)

Lemma ctr_inc_from_spec i iv : (i <= length iv)%nat -> wf iv ->
  be_val (take i (ctr_inc_from i iv)) = (be_val (take i iv) + 1) mod 256 ^ Z.of_nat i /\
  drop i (ctr_inc_from i iv) = drop i iv /\ wf (ctr_inc_from i iv) /\
  length (ctr_inc_from i iv) = length iv.
Proof.
  revert iv. induction i as [|i IH]; intros iv Hi Hw; cbn [ctr_inc_from].
  { rewrite Z.pow_0_r, Z.mod_1_r. done. }
  destruct (lookup_lt_is_Some_2 iv i) as [b Hb]; [lia|].
  rewrite (list_lookup_total_correct _ _ _ Hb). pose proof (wf_lookup _ _ _ Hw Hb) as Hu.
  set (iv' := <[i := as_u8 (b + 1)]> iv).
  assert (Hl' : length iv' = length iv) by apply length_insert.
  assert (Hw' : wf iv') by (apply wf_insert; [done|apply u8_as_u8]).
  assert (Hb' : iv' !! i = Some (as_u8 (b + 1))) by (apply list_lookup_insert_eq; lia).
  assert (Ht : take i iv' = take i iv) by (apply take_insert_ge; lia).
  assert (Hd : drop (S i) iv' = drop (S i) iv) by (apply drop_insert_lt; lia).
  rewrite Nat2Z.inj_succ, Z.pow_succ_r by lia.
  assert (Hbd : 0 <= be_val (take i iv) < 256 ^ Z.of_nat i).
  { pose proof (be_val_bounds (take i iv) (wf_take _ _ Hw)) as H. rewrite len_take in H.
    by replace (Z.min (Z.of_nat i) (len iv)) with (Z.of_nat i) in H by (unfold len; lia). }
  rewrite (take_S_r _ _ _ Hb), be_val_snoc. set (p := 256 ^ Z.of_nat i) in *.
  set (v := be_val (take i iv)) in *. unfold u8 in Hu.
  destruct (Z.eqb_spec (as_u8 (b + 1)) 0) as [H0|H0]; cbn [negb].
  - destruct (IH iv') as (I1 & I2 & I3 & I4); [lia|done|]. rewrite Ht in I1. fold v p in I1.
    assert (b = 255) as -> by (unfold as_u8 in H0; dlia).
    rewrite (drop_S iv' _ _ Hb') in I2.
    assert (Hlk : ctr_inc_from i iv' !! i = Some (as_u8 (255 + 1))).
    { pose proof (lookup_drop (ctr_inc_from i iv') i 0) as Hd0. rewrite Nat.add_0_r, I2 in Hd0. by symmetry. }
    rewrite (take_S_r _ _ _ Hlk), be_val_snoc, I1. split_and!.
    + change (as_u8 (255 + 1)) with 0. replace (255 + 256 * v + 1) with (256 * (v + 1)) by lia.
      rewrite Z.mul_mod_distr_l by lia. lia.
    + rewrite (drop_S _ _ _ Hlk) in I2. injection I2 as I2. by rewrite I2, Hd.
    + done.
    + lia.
  - split_and!; [|done..]. rewrite (take_S_r _ _ _ Hb'), be_val_snoc, Ht. fold v.
    assert (as_u8 (b + 1) = b + 1) as -> by (unfold as_u8 in *; dlia).
    rewrite Z.mod_small; [lia|]. unfold as_u8 in H0. assert (b + 1 <> 256) by (intros E; by rewrite E in H0). nia.
Qed.

Lemma ctr_inc_spec iv : block iv ->
  block (ctr_inc iv) /\ be_val (ctr_inc iv) = (be_val iv + 1) mod 2 ^ 128.
Proof.
  intros [Hl Hw]. destruct (ctr_inc_from_spec 16 iv) as (H1 & _ & H3 & H4); [unfold len in Hl; lia|done|].
  rewrite !take_ge in H1 by (unfold len in Hl; lia). split; [split; [unfold len in *; unfold ctr_inc; lia|done]|].
  exact H1.
Qed.

Lemma ctr_inc_be iv : block iv -> ctr_inc iv = be_bytes 16 ((be_val iv + 1) mod 2 ^ 128).
Proof.
  intros Hb. destruct (ctr_inc_spec iv Hb) as [[Hl Hw] E]. rewrite <- E. symmetry.
  apply be_bytes_be_val; [done|]. unfold len in Hl. lia.
Qed.

#[global] Opaque ctr_inc.

Lemma block_be_bytes v : block (be_bytes 16 v).
Proof. split; [apply len_be_bytes|apply wf_be_bytes]. Qed.
#[export] Hint Resolve block_be_bytes : stm32.

(** ** The invariant *)

Definition engine_ok (e : CrypEngine) : Prop :=
  (len (key e) = 32 /\ wf (key e)) /\ block (iv e) /\ block (in_buf e) /\ word_pos (in_len e) /\
  block (out_buf e) /\ 0 <= out_pos e /\ 0 <= out_avail e /\ out_pos e + out_avail e <= 16.

Definition session_ok (g : GcmSession) : Prop :=
  block (h g) /\ block (j0 g) /\ block (tag_mask g) /\ block (counter g) /\ block (y g) /\
  0 <= aad_bits g < 2 ^ 64 /\ 0 <= text_bits g < 2 ^ 64.

Lemma default_engine_ok : engine_ok default_engine.
Proof. unfold engine_ok, word_pos. cbn. split_and!; auto with stm32 wfdb; try lia. Qed.
Lemma default_session_ok : session_ok default_session.
Proof. unfold session_ok. cbn. split_and!; auto with stm32; lia. Qed.

Section engine.
Context {A : AesBlocks} {AO : AesBlocksOk A}.

Lemma block_enc k b : block b -> block (aes_enc k b).
Proof. intros []. split; [by apply aes_enc_len|by apply aes_enc_wf]. Qed.
Lemma block_dec k b : block b -> block (aes_dec k b).
Proof. intros []. split; [by apply aes_dec_len|by apply aes_dec_wf]. Qed.
Hint Resolve block_enc block_dec : stm32.

Lemma block_aes_block e b : block b -> block (aes_block e b).
Proof.
  intros. unfold aes_block, aes_encrypt_block, aes_decrypt_block. destruct (direction e); auto with stm32.
Qed.
Hint Resolve block_aes_block : stm32.

Lemma block_ctr_inc v : block v -> block (ctr_inc v).
Proof. intros H. by apply ctr_inc_spec in H as []. Qed.
Hint Resolve block_ctr_inc : stm32.

Lemma transform_block e : block (in_buf e) -> block (iv e) ->
  block (transform e).1.1 /\ block (transform e).1.2.
Proof.
  intros Hi Hv. unfold transform, aes_encrypt_block.
  destruct (mode e); [|destruct (direction e)|..]; cbn [fst snd];
    split; auto 6 with stm32.
Qed.

Lemma stage_output_ok e b : engine_ok e -> block b -> engine_ok (stage_output e b).
Proof. unfold engine_ok. cbn. intuition lia. Qed.

Lemma reset_fifos_ok e : engine_ok e -> engine_ok (reset_fifos e).
Proof.
  unfold engine_ok, word_pos. cbn. intros (? & ? & ? & ? & ? & ?). split_and!; auto with stm32; try lia; tauto.
Qed.

Lemma process_block_ok e : engine_ok e -> engine_ok (process_block e).
Proof.
  intros He. pose proof He as (Hk & Hv & Hi & Hn & Ho & Hp & Ha & Hs).
  destruct (transform_block e Hi Hv) as [H1 H2]. unfold process_block.
  destruct (transform e) as [[b v] emit]. cbn in H1, H2.
  unfold engine_ok, word_pos. destruct emit; cbn; split_and!; auto with stm32; try tauto; lia.
Qed.

Lemma word_pos_next n : word_pos n -> n + 4 <= 16 /\ (n + 4 = 16 \/ word_pos (n + 4)).
Proof. unfold word_pos. lia. Qed.

(** Pushing one word leaves a shorter FIFO, or a full one. *)
Lemma push_word buf n bs : block buf -> word_pos n -> len bs = 4 -> wf bs ->
  exists buf', push_bytes buf n bs = Ret (buf', n + 4) /\ block buf'.
Proof.
  intros [Hl Hw] Hn Hb Hwb. destruct (word_pos_next n Hn) as [Hle _].
  destruct (push_bytes_some buf n bs) as [buf' E]; [destruct Hn; lia|lia|].
  destruct (push_bytes_wf _ _ _ _ _ E Hw Hwb) as (? & ? & ?).
  exists buf'. rewrite E, Hb. split; [done|]. split; [lia|done].
Qed.

Lemma write_din_ok e v : engine_ok e -> u32 v -> wp (write_din e v) engine_ok.
Proof.
  intros He Hv. unfold write_din. destruct (_ || _); [done|].
  pose proof He as (Hk & Hi & Hb & Hn & Ho).
  destruct (push_word (in_buf e) (in_len e) (be_bytes 4 (swap (datatype e) v)) Hb Hn)
    as (buf' & -> & Hb'); [apply len_be_bytes|apply wf_be_bytes|]. cbn [rbind wp].
  destruct (word_pos_next _ Hn) as [_ Hnext]. destruct (Z.eqb_spec (in_len e + 4) 16) as [E16|E16].
  - rewrite E16. unfold process_block.
    destruct (transform_block (with_in_len 16 (with_in_buf buf' e))) as [H1 H2]; [done..|].
    destruct (transform _) as [[b w] emit]. cbn in H1, H2.
    unfold engine_ok, word_pos. destruct emit; cbn; split_and!; auto with stm32; try tauto; lia.
  - destruct Hnext as [|Hnext]; [done|]. unfold engine_ok. cbn. tauto.
Qed.

Lemma read_dout_ok e : engine_ok e -> wp (read_dout e) (fun '(v, e) => u32 v /\ engine_ok e).
Proof.
  intros He. unfold read_dout. destruct (Z.ltb_spec (out_avail e) 4) as [Hlt|Hge]; [split; [u_solve|done]|].
  pose proof He as (Hk & Hi & Hb & Hn & [Hol How] & Hp & Ha & Hs).
  rewrite slice_ret by lia. cbn [rbind wp]. split.
  - apply u32_swap, u32_be_val4; [len_solve|auto with wfdb].
  - unfold engine_ok. cbn. split_and!; auto; try tauto; try lia; done.
Qed.

Lemma block_ctr32_inc c : block c -> block (ctr32_inc c).
Proof.
  intros [Hl Hw]. unfold ctr32_inc. split; [rewrite len_splice; rewrite ?len_be_bytes; lia|auto with wfdb].
Qed.
Hint Resolve block_ctr32_inc : stm32.

Lemma ghash_block a b c : block a -> block b -> block c -> block (ghash_update a b c).
Proof. intros. unfold ghash_update. auto with stm32. Qed.
Hint Resolve ghash_block : stm32.

Lemma block_encrypt_external e b : block b -> block (aes_encrypt_external e b).
Proof. apply block_enc. Qed.
Hint Resolve block_encrypt_external : stm32.

Lemma init_ok g e : engine_ok e -> session_ok (init g e).
Proof.
  intros (_ & Hv & _). unfold session_ok, init. cbn. split_and!; auto with stm32; lia.
Qed.

Lemma gcm_block_ok g e b : session_ok g -> engine_ok e -> block b ->
  session_ok (gcm_block g e b).1 /\ engine_ok (gcm_block g e b).2.
Proof.
  intros Hg He Hb. pose proof Hg as (? & ? & ? & ? & ? & ? & ?).
  assert (Hm : forall x, 0 <= x mod 2 ^ 64 < 2 ^ 64) by (intros; apply Z.mod_pos_bound; lia).
  unfold gcm_block. destruct (phase g); cbn -[be_bytes xor_bytes Z.pow Z.modulo]; [done|..].
  - split; [|done]. unfold session_ok. cbn -[Z.pow Z.modulo]. split_and!; auto with stm32; first [lia|apply Hm].
  - split; [|apply stage_output_ok; auto with stm32].
    unfold session_ok. cbn -[Z.pow Z.modulo xor_bytes].
    split_and!; auto with stm32; try first [lia|apply Hm].
    apply ghash_block; [done| |done]. destruct (direction e); auto with stm32.
  - assert (Hy : block (ghash_update (y g) (be_bytes 8 (aad_bits g) ++ be_bytes 8 (text_bits g)) (h g))).
    { apply ghash_block; [done| |done]. split; [by rewrite len_app, !len_be_bytes|auto with wfdb]. }
    split; [|by apply stage_output_ok; auto with stm32].
    unfold session_ok. cbn -[be_bytes Z.pow]. split_and!; auto with stm32; lia.
Qed.

(** ** The core both register files share *)

Record Core := mkCore { c_engine : CrypEngine; c_gcm : GcmSession; c_buf : bytes; c_len : Z }.

Definition core_ok (c : Core) : Prop :=
  engine_ok (c_engine c) /\ session_ok (c_gcm c) /\ block (c_buf c) /\ word_pos (c_len c).

(** A store to the data-input register, and a load of the data-output register. *)
Definition core_din (c : Core) (value : Z) : res Core :=
  let e := c_engine c in
  if enabled e && bool_decide (mode e = Gcm) then
    let! '(buf, n) := push_bytes (c_buf c) (c_len c) (be_bytes 4 (swap (datatype e) value)) in
    if n <? 16 then Ret (mkCore e (c_gcm c) buf n)
    else let '(g, e) := gcm_block (c_gcm c) e buf in Ret (mkCore e g zero16 0)
  else let! e := write_din e value in Ret (mkCore e (c_gcm c) (c_buf c) (c_len c)).

Definition core_dout (c : Core) : res (Z * Core) :=
  let! '(v, e) := read_dout (c_engine c) in
  Ret (v, mkCore e (c_gcm c) (c_buf c) (c_len c)).

Lemma core_din_ok c v : core_ok c -> u32 v -> wp (core_din c v) core_ok.
Proof.
  intros (He & Hg & Hb & Hn) Hv. unfold core_din. destruct (_ && _).
  - destruct (push_word (c_buf c) (c_len c) (be_bytes 4 (swap (datatype (c_engine c)) v)) Hb Hn)
      as (buf' & -> & Hb'); [apply len_be_bytes|apply wf_be_bytes|]. cbn [rbind].
    destruct (word_pos_next _ Hn) as [_ Hnext]. destruct (Z.ltb_spec (c_len c + 4) 16).
    + cbn. unfold core_ok. cbn. destruct Hnext; [lia|]. tauto.
    + pose proof (gcm_block_ok (c_gcm c) (c_engine c) buf' Hg He Hb') as [H1 H2].
      destruct (gcm_block _ _ _) as [g e]. cbn in *. unfold core_ok, word_pos. cbn.
      split_and!; auto with stm32.
  - apply wp_bind. eapply wp_mono; [by apply write_din_ok|]. intros e' He'. cbn. unfold core_ok. cbn. tauto.
Qed.

Lemma core_dout_ok c : core_ok c -> wp (core_dout c) (fun '(v, c) => u32 v /\ core_ok c).
Proof.
  intros (He & Hrest). apply wp_bind. eapply wp_mono; [by apply read_dout_ok|].
  intros [v e] [Hv He']. cbn. unfold core_ok. cbn. tauto.
Qed.
(** Neither touches what was configured. *)
Lemma core_din_enabled c v c' : core_din c v = Ret c' -> enabled (c_engine c') = enabled (c_engine c).
Proof.
  unfold core_din. destruct (_ && _).
  - destruct (push_bytes _ _ _) as [[buf n]|]; [|done]. cbn [rbind]. destruct (n <? 16).
    + by intros [= <-].
    + assert (H : enabled (gcm_block (c_gcm c) (c_engine c) buf).2 = enabled (c_engine c))
        by (unfold gcm_block; by destruct (phase _)).
      destruct (gcm_block _ _ _) as [g e]. by intros [= <-].
  - unfold write_din. destruct (_ || _); [by intros [= <-]|].
    destruct (push_bytes _ _ _) as [[buf n]|]; [|done]. cbn [rbind].
    intros E. assert (E' : (if n =? 16 then process_block (with_in_len n (with_in_buf buf (c_engine c)))
      else with_in_len n (with_in_buf buf (c_engine c))) = c_engine c').
    { destruct (n =? 16); by injection E as <-. }
    rewrite <- E'. destruct (n =? 16); [|done]. unfold process_block.
    destruct (transform _) as [[o i] []]; reflexivity.
Qed.

Lemma core_dout_enabled c v c' : core_dout c = Ret (v, c') -> enabled (c_engine c') = enabled (c_engine c).
Proof.
  unfold core_dout, read_dout. destruct (_ <? 4); [by intros [= _ <-]|].
  destruct (slice _ _ _); [|done]. by intros [= _ <-].
Qed.
End engine.
#[export] Hint Resolve block_enc block_dec block_aes_block block_ctr_inc block_ctr32_inc
  ghash_block block_encrypt_external : stm32.
