(* ===== verification/Stm32Port.v ===== *)
(** * STM32Sim: a cipher session over the registers

    [CrypPort] is what the two register files of the CRYP peripheral have in common for
    a driver: registers that load a key and a counter block, a control value that starts a
    configuration or a GCM phase, a data-input and a data-output register.  [CrypPortOk]
    states what each promises in terms of the shared core.  Against the interface: the
    driver's session computes the chaining modes, and GCM of NIST SP 800-38D on whole
    blocks. *)

From S2P Require Import Prelude.
From S2P Require Import Crc.
From S2P Require Import McuCrates.
From S2P Require Import Stm32Core.
From S2P Require Import Stm32Cryp.
From S2P Require Import Stm32Gf128.
From S2P Require Import Stm32Engine.

Import cryp gcm.

(** ** The driver *)

Section driver.
Context {P : Type} {PP : Peripheral P}.

Fixpoint stores (p : P) (ws : list (Z * Z)) : res P :=
  match ws with
  | [] => Ret p
  | (off, v) :: ws => let! p := p_write p off 4 v in stores p ws
  end.

Fixpoint pokes (p : P) (off : Z) (ws : list Z) : res P :=
  match ws with
  | [] => Ret p
  | v :: ws => let! p := p_write p off 4 v in pokes p off ws
  end.

Fixpoint peeks (p : P) (off : Z) (n : nat) : res (list Z * P) :=
  match n with
  | O => Ret ([], p)
  | S n =>
      let! '(v, p) := p_read p off 4 in
      let! '(vs, p) := peeks p off n in
      Ret (v :: vs, p)
  end.

Lemma stores_app p a b : stores p (a ++ b) = let! p := stores p a in stores p b.
Proof.
  revert p. induction a as [|[o v] a IH]; intros p; [done|]. cbn [stores app].
  destruct (p_write p o 4 v); [apply IH|done].
Qed.
End driver.

(** The words a driver writes for a block, and the bytes of the words it reads. *)
Definition block_words (dt : DataType) (b : bytes) : list Z :=
  din_word dt <$> [sub b 0 4; sub b 4 8; sub b 8 12; sub b 12 16].
Definition host_bytes (dt : DataType) (ws : list Z) : bytes := ws ≫= fun w => swap_list dt (be_bytes 4 w).

Lemma block_parts b : block b ->
  b = sub b 0 4 ++ sub b 4 8 ++ sub b 8 12 ++ sub b 12 16 /\
  Forall (fun l => len l = 4 /\ wf l) [sub b 0 4; sub b 4 8; sub b 8 12; sub b 12 16].
Proof.
  intros [Hl Hw]. split.
  - do 17 (destruct b as [|? b]; [unfold len in Hl; simpl in Hl; try lia|]);
      [done|unfold len in Hl; simpl in Hl; lia].
  - repeat constructor; auto with wfdb; len_solve.
Qed.

Lemma host_bytes_words dt b : block b -> host_bytes dt (block_words dt b) = b.
Proof.
  intros Hb. destruct (block_parts b Hb) as [E H]. rewrite !Forall_cons in H.
  destruct H as ([] & [] & [] & [] & _). unfold host_bytes, block_words.
  cbn [fmap list_fmap mbind list_bind]. rewrite !din_word_read, app_nil_r by done. by rewrite <- E.
Qed.

Lemma block_words_u32 dt b : block b -> Forall u32 (block_words dt b).
Proof.
  intros Hb. destruct (block_parts b Hb) as [_ H]. apply Forall_fmap. eapply Forall_impl; [exact H|].
  intros l []. by apply u32_din_word.
Qed.

(** ** One block through the core *)

Section core.
Context {A : AesBlocks}.

Fixpoint core_feed (c : Core) (ws : list Z) : res Core :=
  match ws with
  | [] => Ret c
  | w :: ws => let! c := core_din c w in core_feed c ws
  end.

Fixpoint core_drain (c : Core) (n : nat) : res (list Z * Core) :=
  match n with
  | O => Ret ([], c)
  | S n =>
      let! '(v, c) := core_dout c in
      let! '(vs, c) := core_drain c n in
      Ret (v :: vs, c)
  end.

(** What a store does while its block is not complete, and when it completes it. *)
Definition holding (c : Core) (pre : bytes) (c' : Core) : Prop :=
  let e := c_engine c in
  c_gcm c' = c_gcm c /\
  (if bool_decide (mode e = Gcm) then
     c_engine c' = e /\ c_len c' = len pre /\ len (c_buf c') = 16 /\ take (length pre) (c_buf c') = pre
   else
     c_buf c' = c_buf c /\ c_len c' = c_len c /\
     exists buf, c_engine c' = with_in_len (len pre) (with_in_buf buf e) /\ len buf = 16 /\
       take (length pre) buf = pre).

Definition completed (c : Core) (b : bytes) : Core :=
  let e := c_engine c in
  if bool_decide (mode e = Gcm) then
    let '(g, e) := gcm_block (c_gcm c) e b in mkCore e g zero16 0
  else mkCore (process_block (with_in_len 16 (with_in_buf b e))) (c_gcm c) (c_buf c) (c_len c).

Lemma core_din_step c pre c' w : enabled (c_engine c) = true -> holding c pre c' -> len pre <= 12 ->
  exists c'', core_din c' w = Ret c'' /\
    let pre' := pre ++ be_bytes 4 (swap (datatype (c_engine c)) w) in
    if len pre + 4 <? 16 then holding c pre' c'' else len pre = 12 -> c'' = completed c pre'.
Proof.
  intros He Hh Hl. unfold holding in *. unfold core_din, completed.
  set (bs := be_bytes 4 (swap (datatype (c_engine c)) w)).
  assert (Hbs : len bs = 4) by apply len_be_bytes.
  assert (Hlb : length bs = 4%nat) by (unfold len in Hbs; lia).
  assert (Hlp : len (pre ++ bs) = len pre + 4) by (rewrite len_app; lia).
  destruct Hh as [Hg Hh]. destruct (decide (mode (c_engine c) = Gcm)) as [Hm|Hm].
  - rewrite (bool_decide_true _ Hm) in *. destruct Hh as (E & Hn & Hb & Ht).
    rewrite E, Hn, He, (bool_decide_true _ Hm). cbn [andb]. fold bs.
    destruct (push_bytes_prefix (c_buf c') pre bs Ht) as (buf & -> & Hlen & Htk); [lia|].
    cbn [rbind]. rewrite Hbs. rewrite <- length_app in Htk.
    destruct (Z.ltb_spec (len pre + 4) 16).
    + eexists. split; [done|]. cbv zeta. cbn [c_gcm c_engine c_len c_buf]. rewrite Hlp.
      split_and!; auto. lia.
    + rewrite Hg. destruct (gcm_block _ _ buf) as [g e] eqn:EG. eexists. split; [done|]. intros H12.
      rewrite take_ge in Htk by (rewrite length_app; unfold len in *; lia). subst buf.
      by rewrite EG.
  - rewrite (bool_decide_false _ Hm) in *. destruct Hh as (Hcb & Hcl & buf & E & Hb & Ht).
    rewrite E. cbn [enabled mode with_in_len with_in_buf]. rewrite He, (bool_decide_false _ Hm).
    cbn [andb]. unfold write_din. cbn [enabled in_len in_buf datatype with_in_len with_in_buf].
    rewrite He. cbn [negb orb]. fold bs.
    destruct (Z.leb_spec 16 (len pre)); [lia|].
    destruct (push_bytes_prefix buf pre bs Ht) as (buf' & -> & Hlen & Htk); [lia|].
    cbn [rbind]. rewrite Hbs. rewrite <- length_app in Htk.
    destruct (Z.ltb_spec (len pre + 4) 16).
    + rewrite (proj2 (Z.eqb_neq _ _)) by lia. eexists. split; [done|]. cbv zeta.
      cbn [c_gcm c_engine c_len c_buf]. rewrite Hg, Hcb, Hcl. split_and!; auto. exists buf'. rewrite Hlp. split_and!; auto. lia.
    + destruct (Z.eqb_spec (len pre + 4) 16) as [H16|H16].
      * eexists. split; [done|]. intros _. rewrite Hg, Hcb, Hcl.
        rewrite take_ge in Htk by (rewrite length_app; unfold len in *; lia). subst buf'.
        by rewrite H16.
      * eexists. split; [done|]. lia.
Qed.

Lemma core_feed_block c b : enabled (c_engine c) = true -> block b ->
  in_len (c_engine c) = 0 -> len (in_buf (c_engine c)) = 16 -> c_len c = 0 -> len (c_buf c) = 16 ->
  core_feed c (block_words (datatype (c_engine c)) b) = Ret (completed c b).
Proof.
  intros He Hb Hi Hib Hn Hcb. destruct (block_parts b Hb) as [E H]. rewrite !Forall_cons in H.
  destruct H as ([L1 W1] & [L2 W2] & [L3 W3] & [L4 W4] & _).
  assert (H0 : holding c [] c).
  { unfold holding. split; [done|]. case_bool_decide; [by rewrite Hn|]. split_and!; [done..|].
    exists (in_buf (c_engine c)). split_and!; [|done..]. change (len []) with 0. rewrite <- Hi.
    by destruct (c_engine c). }
  unfold block_words. cbn [fmap list_fmap core_feed].
  destruct (core_din_step c [] c (din_word (datatype (c_engine c)) (sub b 0 4)) He H0) as (c1 & -> & H1);
    [done|]. cbn [rbind]. rewrite din_word_bytes in H1 by done. cbn [app] in H1. change (len []) with 0 in H1.
  cbn [Z.add Z.ltb Z.compare] in H1.
  destruct (core_din_step c _ c1 (din_word (datatype (c_engine c)) (sub b 4 8)) He H1) as (c2 & -> & H2);
    [lia|]. cbn [rbind]. rewrite din_word_bytes, L1 in H2 by done. cbn in H2.
  destruct (core_din_step c _ c2 (din_word (datatype (c_engine c)) (sub b 8 12)) He H2) as (c3 & -> & H3);
    [rewrite len_app; lia|]. cbn [rbind]. rewrite din_word_bytes, len_app, L1, L2 in H3 by done. cbn in H3.
  destruct (core_din_step c _ c3 (din_word (datatype (c_engine c)) (sub b 12 16)) He H3) as (c4 & -> & H4);
    [rewrite !len_app; lia|]. cbn [rbind]. rewrite din_word_bytes, !len_app, L1, L2, L3 in H4 by done.
  cbn in H4. rewrite <- !app_assoc in H4. rewrite <- E in H4. by rewrite H4.
Qed.

Definition drained (c : Core) : Core :=
  mkCore (with_out_avail 0 (with_out_pos 16 (c_engine c))) (c_gcm c) (c_buf c) (c_len c).

(** The core after [n] bytes of the output have been read. *)
Definition drained_to (n : Z) (c : Core) : Core :=
  mkCore (with_out_avail (16 - n) (with_out_pos n (c_engine c))) (c_gcm c) (c_buf c) (c_len c).

Lemma core_dout_at c n : block (out_buf (c_engine c)) -> 0 <= n <= 12 ->
  core_dout (drained_to n c) =
  Ret (din_word (datatype (c_engine c)) (sub (out_buf (c_engine c)) n (n + 4)), drained_to (n + 4) c).
Proof.
  intros [Hl Hw] Hn. unfold core_dout, read_dout, drained_to.
  cbn [c_engine c_gcm c_buf c_len out_avail out_pos out_buf datatype with_out_avail with_out_pos].
  destruct (Z.ltb_spec (16 - n) 4); [lia|]. rewrite slice_ret by lia. cbn [rbind].
  rewrite swap_be_val by (rewrite ?len_sub; auto with wfdb; lia). by replace (16 - n - 4) with (16 - (n + 4)) by lia.
Qed.

Lemma core_drain_block c : block (out_buf (c_engine c)) -> out_pos (c_engine c) = 0 ->
  out_avail (c_engine c) = 16 ->
  core_drain c 4 = Ret (block_words (datatype (c_engine c)) (out_buf (c_engine c)), drained c).
Proof.
  intros Hb Hp Ha.
  assert (E : c = drained_to 0 c).
  { destruct c as [e g buf n]. destruct e. cbn in *. by subst. }
  rewrite E at 1. cbn [core_drain].
  do 4 (rewrite core_dout_at by (done || lia); cbn [rbind]). done.
Qed.
End core.

(** ** Reference definitions *)

Section reference.
Context {A : AesBlocks}.

Fixpoint cbc_encrypt (k iv : bytes) (bs : list bytes) : list bytes :=
  match bs with
  | [] => []
  | b :: bs => let c := aes_enc k (xor_bytes b iv) in c :: cbc_encrypt k c bs
  end.

Fixpoint cbc_decrypt (k iv : bytes) (bs : list bytes) : list bytes :=
  match bs with
  | [] => []
  | b :: bs => xor_bytes (aes_dec k b) iv :: cbc_decrypt k b bs
  end.

(** Counter mode: block [i] is combined with the encryption of [iv + i], modulo 2^128. *)
Definition ctr_crypt (k iv : bytes) (bs : list bytes) : list bytes :=
  imap (fun i b => xor_bytes b (aes_enc k (be_bytes 16 ((be_val iv + Z.of_nat i) mod 2 ^ 128)))) bs.

Definition mode_crypt (m : AesMode) (d : Direction) (k iv : bytes) (bs : list bytes) : list bytes :=
  match m, d with
  | Ecb, Encrypt => aes_enc k <$> bs
  | Ecb, Decrypt => aes_dec k <$> bs
  | Cbc, Encrypt => cbc_encrypt k iv bs
  | Cbc, Decrypt => cbc_decrypt k iv bs
  | Ctr, _ => ctr_crypt k iv bs
  | _, _ => []
  end.

(** GCM of SP 800-38D, on whole blocks of additional data and text. *)
Definition inc32 (c : bytes) : bytes := sub c 0 12 ++ be_bytes 4 ((be_val (sub c 12 16) + 1) mod 2 ^ 32).

Definition ghash_from (H y : bytes) (bs : list bytes) : bytes :=
  fold_left (fun y b => gf128_mul (xor_bytes y b) H) bs y.

Definition ghash (H : bytes) (bs : list bytes) : bytes := ghash_from H zero16 bs.

Lemma ghash_from_cons H y b bs : ghash_from H y (b :: bs) = ghash_from H (gf128_mul (xor_bytes y b) H) bs.
Proof. reflexivity. Qed.
Lemma ghash_from_app H y a b : ghash_from H y (a ++ b) = ghash_from H (ghash_from H y a) b.
Proof. apply fold_left_app. Qed.
Lemma ghash_from_nil H y : ghash_from H y [] = y.
Proof. reflexivity. Qed.

Fixpoint gctr (k counter : bytes) (bs : list bytes) : list bytes :=
  match bs with
  | [] => []
  | b :: bs => xor_bytes b (aes_enc k counter) :: gctr k (inc32 counter) bs
  end.

Definition length_block (aad text : list bytes) : bytes :=
  be_bytes 8 ((128 * len aad) mod 2 ^ 64) ++ be_bytes 8 ((128 * len text) mod 2 ^ 64).

Definition gcm_tag (k j0 : bytes) (aad ciphertext : list bytes) : bytes :=
  xor_bytes (ghash (aes_enc k zero16) (aad ++ ciphertext ++ [length_block aad ciphertext])) (aes_enc k j0).

Definition gcm_crypt (d : Direction) (k j0 : bytes) (aad text : list bytes) : list bytes * bytes :=
  let out := gctr k (inc32 j0) text in
  (out, gcm_tag k j0 aad (match d with Encrypt => out | Decrypt => text end)).
End reference.

(** ** The interface *)

Record Config := mkConfig { g_size : KeySize; g_datatype : DataType; g_mode : AesMode; g_dir : Direction }.

Definition key_len (s : KeySize) : Z := match s with K128 => 16 | K192 => 24 | K256 => 32 end.

(** The engine right after a configuration was committed. *)
Definition started (cfg : Config) (k iv : bytes) (e : CrypEngine) : Prop :=
  aes_key e = k /\ cryp.iv e = iv /\ mode e = g_mode cfg /\ direction e = g_dir cfg /\
  datatype e = g_datatype cfg /\ enabled e = true /\
  in_len e = 0 /\ len (in_buf e) = 16.

Class CrypPort (P : Type) {PP : Peripheral P} := {
  port_core : P -> Core;
  port_ok : P -> Prop;
  port_off : P -> Prop;
  port_on : P -> Config -> Prop;
  port_supports : Config -> Prop;
  port_key : KeySize -> bytes -> list (Z * Z);
  port_iv : bytes -> list (Z * Z);
  port_cr : Config -> GcmPhase -> Z;
  port_cr_off : Z;
  port_din : Z;
  port_dout : Z;
}.

Section laws.
Context {A : AesBlocks}.

(** Entering a phase other than [Init] keeps the session and empties the buffers. *)
Definition in_phase (ph : GcmPhase) (c : Core) : Core :=
  mkCore (reset_fifos (c_engine c)) (with_phase ph (c_gcm c)) zero16 0.

Class CrypPortOk (P : Type) {PP : Peripheral P} (C : CrypPort P) := {
  port_core_ok p : port_ok p -> core_ok (port_core p);
  port_start p cfg k iv : port_ok p -> port_off p -> port_supports cfg ->
    len k = key_len (g_size cfg) -> wf k -> block iv ->
    exists p', stores p (port_key (g_size cfg) k ++ port_iv iv ++ [(port_cr_off, port_cr cfg Init)]) = Ret p' /\
      port_ok p' /\ port_on p' cfg /\
      exists e, started cfg k iv e /\ c_engine (port_core p') = e /\
        c_len (port_core p') = 0 /\ len (c_buf (port_core p')) = 16 /\
        (g_mode cfg = Gcm -> c_gcm (port_core p') = init default_session e);
  port_phase p cfg ph : port_ok p -> port_on p cfg -> g_mode cfg = Gcm -> ph <> Init ->
    mode (c_engine (port_core p)) = Gcm ->
    exists p', p_write p port_cr_off 4 (port_cr cfg ph) = Ret p' /\ port_ok p' /\ port_on p' cfg /\
      port_core p' = in_phase ph (port_core p);
  port_stop p cfg : port_ok p -> port_on p cfg ->
    exists p', p_write p port_cr_off 4 0 = Ret p' /\ port_ok p' /\ port_off p';
  port_store p cfg v c : port_ok p -> port_on p cfg -> u32 v -> core_din (port_core p) v = Ret c ->
    exists p', p_write p port_din 4 v = Ret p' /\ port_ok p' /\ port_on p' cfg /\ port_core p' = c;
  port_load p cfg v c : port_ok p -> port_on p cfg -> core_dout (port_core p) = Ret (v, c) ->
    exists p', p_read p port_dout 4 = Ret (v, p') /\ port_ok p' /\ port_on p' cfg /\ port_core p' = c;
}.
End laws.

(** ** Sessions *)

Section session.
Context {A : AesBlocks} {P : Type} {PP : Peripheral P} {C : CrypPort P}.

(** Four stores, then four loads. *)
Definition xfer (dt : DataType) (p : P) (b : bytes) : res (bytes * P) :=
  let! p := pokes p port_din (block_words dt b) in
  let! '(ws, p) := peeks p port_dout 4 in
  Ret (host_bytes dt ws, p).

Fixpoint xfers (dt : DataType) (p : P) (bs : list bytes) : res (list bytes * P) :=
  match bs with
  | [] => Ret ([], p)
  | b :: bs =>
      let! '(o, p) := xfer dt p b in
      let! '(os, p) := xfers dt p bs in
      Ret (o :: os, p)
  end.

Definition cryp_start (p : P) (cfg : Config) (k iv : bytes) : res P :=
  stores p (port_key (g_size cfg) k ++ port_iv iv ++ [(port_cr_off, port_cr cfg Init)]).

(** A session of ECB, CBC or CTR: load, stream the blocks, disable. *)
Definition cryp_session (p : P) (cfg : Config) (k iv : bytes) (bs : list bytes)
  : res (list bytes * P) :=
  let! p := cryp_start p cfg k iv in
  let! '(os, p) := xfers (g_datatype cfg) p bs in
  let! p := p_write p port_cr_off 4 0 in
  Ret (os, p).

(** A session of GCM; [lb] is the block the driver writes in the final phase. *)
Definition gcm_session (p : P) (cfg : Config) (k j0 : bytes) (aad text : list bytes) (lb : bytes)
  : res (list bytes * bytes * P) :=
  let dt := g_datatype cfg in
  let! p := cryp_start p cfg k j0 in
  let! p := p_write p port_cr_off 4 (port_cr cfg Header) in
  let! p := pokes p port_din (aad ≫= block_words dt) in
  let! p := p_write p port_cr_off 4 (port_cr cfg Payload) in
  let! '(os, p) := xfers dt p text in
  let! p := p_write p port_cr_off 4 (port_cr cfg Final) in
  let! '(tag, p) := xfer dt p lb in
  let! p := p_write p port_cr_off 4 0 in
  Ret (os, tag, p).
End session.

Section theorems.
Context {A : AesBlocks} {AO : AesBlocksOk A} {P : Type} {PP : Peripheral P} {C : CrypPort P}.
Context {CO : CrypPortOk P C}.

Definition ready (p : P) (cfg : Config) (k iv : bytes) : Prop :=
  port_ok p /\ port_on p cfg /\ started cfg k iv (c_engine (port_core p)) /\
  c_len (port_core p) = 0 /\ len (c_buf (port_core p)) = 16.

Lemma pokes_feed p cfg ws c : port_ok p -> port_on p cfg -> Forall u32 ws ->
  core_feed (port_core p) ws = Ret c ->
  exists p', pokes p port_din ws = Ret p' /\ port_ok p' /\ port_on p' cfg /\ port_core p' = c.
Proof.
  intros Hok Hon Hw. revert p Hok Hon. induction Hw as [|w ws Hu Hw IH]; intros p Hok Hon E; cbn in *.
  - injection E as <-. by exists p.
  - destruct (core_din (port_core p) w) as [c1|] eqn:E1; [|done]. cbn in E.
    destruct (port_store p cfg w c1 Hok Hon Hu E1) as (p1 & -> & Hok1 & Hon1 & Hc1). cbn [rbind].
    rewrite <- Hc1 in E. by apply IH.
Qed.

Lemma peeks_drain p cfg n ws c : port_ok p -> port_on p cfg -> core_drain (port_core p) n = Ret (ws, c) ->
  exists p', peeks p port_dout n = Ret (ws, p') /\ port_ok p' /\ port_on p' cfg /\ port_core p' = c.
Proof.
  revert p ws. induction n as [|n IH]; intros p ws Hok Hon E; cbn in *.
  - injection E as <- <-. by exists p.
  - destruct (core_dout (port_core p)) as [[v c1]|] eqn:E1; [|done]. cbn in E.
    destruct (port_load p cfg v c1 Hok Hon E1) as (p1 & -> & Hok1 & Hon1 & Hc1). cbn [rbind].
    rewrite <- Hc1 in E. destruct (core_drain (port_core p1) n) as [[vs c2]|] eqn:E2; [|done].
    cbn in E. injection E as <- <-. destruct (IH p1 vs Hok1 Hon1 E2) as (p2 & -> & ?).
    cbn. by exists p2.
Qed.

(** A block through the port, when the core answers it. *)
Lemma xfer_core p cfg b : port_ok p -> port_on p cfg -> datatype (c_engine (port_core p)) = g_datatype cfg ->
  enabled (c_engine (port_core p)) = true -> block b ->
  in_len (c_engine (port_core p)) = 0 -> len (in_buf (c_engine (port_core p))) = 16 ->
  c_len (port_core p) = 0 -> len (c_buf (port_core p)) = 16 ->
  let c := completed (port_core p) b in
  let e := c_engine c in
  block (out_buf e) -> out_pos e = 0 -> out_avail e = 16 -> datatype e = g_datatype cfg ->
  exists p', xfer (g_datatype cfg) p b = Ret (out_buf e, p') /\ port_ok p' /\ port_on p' cfg /\
    port_core p' = drained c.
Proof.
  intros Hok Hon Hdt He Hb Hi Hib Hn Hcb c e Hob Hop Hoa Hdt'. unfold xfer.
  pose proof (core_feed_block (port_core p) b He Hb Hi Hib Hn Hcb) as Hf. rewrite Hdt in Hf.
  destruct (pokes_feed p cfg _ _ Hok Hon (block_words_u32 _ _ Hb) Hf) as (p1 & -> & Hok1 & Hon1 & Hc1).
  cbn [rbind]. fold c in Hc1. pose proof (core_drain_block c Hob Hop Hoa) as Hd. fold e in Hd.
  rewrite Hdt', <- Hc1 in Hd.
  destruct (peeks_drain p1 cfg 4 _ _ Hok1 Hon1 Hd) as (p2 & -> & Hok2 & Hon2 & Hc2). cbn [rbind].
  exists p2. rewrite host_bytes_words by done. rewrite Hc1 in Hc2. by split_and!.
Qed.

(** The output block and the next chaining value of a streaming mode. *)
Definition mode_step (m : AesMode) (d : Direction) (k iv b : bytes) : bytes * bytes :=
  match m, d with
  | Ecb, Encrypt => (aes_enc k b, iv)
  | Ecb, Decrypt => (aes_dec k b, iv)
  | Cbc, Encrypt => let c := aes_enc k (xor_bytes b iv) in (c, c)
  | Cbc, Decrypt => (xor_bytes (aes_dec k b) iv, b)
  | Ctr, _ => (xor_bytes b (aes_enc k iv), ctr_inc iv)
  | _, _ => (b, iv)
  end.

Definition streaming (m : AesMode) : Prop := m = Ecb \/ m = Cbc \/ m = Ctr.

Lemma transform_mode e b : streaming (mode e) ->
  transform (with_in_len 16 (with_in_buf b e)) =
  (mode_step (mode e) (direction e) (aes_key e) (cryp.iv e) b, true).
Proof.
  intros Hm. unfold transform, mode_step, aes_block, aes_encrypt_block, aes_decrypt_block, aes_key.
  cbn [mode direction in_buf cryp.iv key key_size with_in_len with_in_buf].
  destruct (direction e); destruct Hm as [-> | [-> | ->]]; reflexivity.
Qed.

Lemma mode_step_block m d k iv b : block iv -> block b ->
  block (mode_step m d k iv b).1 /\ block (mode_step m d k iv b).2.
Proof. intros. destruct m, d; cbn [mode_step fst snd]; split; auto 6 with stm32. Qed.

Lemma xfer_stream p cfg k iv b : ready p cfg k iv -> streaming (g_mode cfg) -> block b ->
  let '(o, iv') := mode_step (g_mode cfg) (g_dir cfg) k iv b in
  exists p', xfer (g_datatype cfg) p b = Ret (o, p') /\ ready p' cfg k iv'.
Proof.
  intros (Hok & Hon & (Hk & Hv & Hm & Hd & Hdt & He & Hi & Hib) & Hn & Hcb) Hs Hb.
  pose proof (port_core_ok p Hok) as ((_ & Hiv & _) & _).
  assert (Hng : mode (c_engine (port_core p)) <> Gcm)
    by (rewrite Hm; destruct Hs as [-> | [-> | ->]]; done).
  pose proof (transform_mode (c_engine (port_core p)) b) as Ht. rewrite Hm, Hd, Hk, Hv in Ht.
  specialize (Ht Hs). destruct (mode_step _ _ k iv b) as [o iv'] eqn:Es.
  rewrite Hv in Hiv. pose proof (mode_step_block (g_mode cfg) (g_dir cfg) k iv b Hiv Hb) as Hbl.
  rewrite Es in Hbl. cbn in Hbl. destruct Hbl as [Hbo Hbv].
  assert (Hc : completed (port_core p) b =
    mkCore (with_in_len 0 (with_in_buf zero16 (stage_output (with_iv iv'
      (with_in_len 16 (with_in_buf b (c_engine (port_core p))))) o)))
      (c_gcm (port_core p)) (c_buf (port_core p)) (c_len (port_core p))).
  { unfold completed. rewrite bool_decide_false by done. unfold process_block. by rewrite Ht. }
  destruct (xfer_core p cfg b Hok Hon Hdt He Hb Hi Hib Hn Hcb) as (p' & E & Hok' & Hon' & Hc').
  1-4: rewrite Hc; done.
  exists p'. rewrite E, Hc. split; [done|]. rewrite Hc in Hc'. unfold ready, started. rewrite Hc'. cbn.
  by split_and!.
Qed.

Fixpoint mode_stream (m : AesMode) (d : Direction) (k iv : bytes) (bs : list bytes) : list bytes :=
  match bs with
  | [] => []
  | b :: bs => let '(o, iv) := mode_step m d k iv b in o :: mode_stream m d k iv bs
  end.

Lemma ctr_next iv i : block iv ->
  be_bytes 16 ((be_val iv + Z.of_nat (Datatypes.S i)) mod 2 ^ 128) =
  be_bytes 16 ((be_val (ctr_inc iv) + Z.of_nat i) mod 2 ^ 128).
Proof.
  intros Hb. destruct (ctr_inc_spec iv Hb) as [_ ->]. f_equal.
  rewrite Z.add_mod_idemp_l by lia. f_equal. lia.
Qed.

Lemma mode_stream_crypt m d k iv bs : streaming m -> block iv -> Forall block bs ->
  mode_stream m d k iv bs = mode_crypt m d k iv bs.
Proof.
  intros Hm Hiv Hbs. revert iv Hiv. induction Hbs as [|b bs Hb Hbs IH]; intros iv Hiv.
  { by destruct Hm as [-> | [-> | ->]], d. }
  pose proof (mode_step_block m d k iv b Hiv Hb) as [_ Hv2]. cbn [mode_stream].
  destruct Hm as [-> | [-> | ->]], d; cbn [mode_step snd] in *; rewrite IH by done;
    cbn [mode_crypt cbc_encrypt cbc_decrypt fmap list_fmap]; try done.
  all: unfold ctr_crypt; rewrite imap_cons; f_equal.
  1, 3: rewrite Z.add_0_r, Z.mod_small by
      (destruct Hiv as [Hl Hw]; pose proof (be_val_bounds iv Hw) as H; rewrite Hl in H; exact H);
    rewrite be_bytes_be_val; [done|apply Hiv|destruct Hiv as [Hl _]; unfold len in Hl; lia].
  all: apply imap_ext; intros i x _; cbn [compose]; by rewrite ctr_next.
Qed.

Lemma xfers_stream p cfg k iv bs : ready p cfg k iv -> streaming (g_mode cfg) -> Forall block bs ->
  exists p' iv', xfers (g_datatype cfg) p bs = Ret (mode_stream (g_mode cfg) (g_dir cfg) k iv bs, p') /\
    ready p' cfg k iv'.
Proof.
  intros Hr Hs Hbs. revert p iv Hr. induction Hbs as [|b bs Hb Hbs IH]; intros p iv Hr.
  { by exists p, iv. }
  pose proof (xfer_stream p cfg k iv b Hr Hs Hb) as Hx. cbn [xfers mode_stream].
  destruct (mode_step _ _ k iv b) as [o iv1]. destruct Hx as (p1 & -> & Hr1).
  destruct (IH p1 iv1 Hr1) as (p2 & iv2 & E & Hr2). cbn [rbind]. rewrite E. cbn [rbind]. by exists p2, iv2.
Qed.

Lemma cryp_start_ready p cfg k iv : port_ok p -> port_off p -> port_supports cfg ->
  len k = key_len (g_size cfg) -> wf k -> block iv ->
  exists p', cryp_start p cfg k iv = Ret p' /\ ready p' cfg k iv /\
    (g_mode cfg = Gcm -> c_gcm (port_core p') = init default_session (c_engine (port_core p'))).
Proof.
  intros Hok Hoff Hsup Hk Hw Hiv.
  destruct (port_start p cfg k iv Hok Hoff Hsup Hk Hw Hiv) as (p' & E & Hok' & Hon' & e & Hst & He & ? & ? & Hg).
  exists p'. unfold ready. rewrite He. by split_and!.
Qed.

(** A session of a streaming mode computes the mode and leaves the peripheral ready for
    the next session. *)
Lemma cryp_session_runs p cfg k iv bs : port_ok p -> port_off p -> port_supports cfg ->
  streaming (g_mode cfg) -> len k = key_len (g_size cfg) -> wf k -> block iv -> Forall block bs ->
  exists p', cryp_session p cfg k iv bs = Ret (mode_crypt (g_mode cfg) (g_dir cfg) k iv bs, p') /\
    port_ok p' /\ port_off p'.
Proof.
  intros Hok Hoff Hsup Hs Hk Hw Hiv Hbs. unfold cryp_session.
  destruct (cryp_start_ready p cfg k iv Hok Hoff Hsup Hk Hw Hiv) as (p1 & -> & Hr & _). cbn [rbind].
  destruct (xfers_stream p1 cfg k iv bs Hr Hs Hbs) as (p2 & iv2 & -> & Hok2 & Hon2 & _). cbn [rbind].
  destruct (port_stop p2 cfg Hok2 Hon2) as (p3 & -> & ? & ?). cbn [rbind].
  exists p3. by rewrite mode_stream_crypt.
Qed.

(** ** GCM *)

Definition gcm_ready (p : P) (cfg : Config) (k iv : bytes) (ph : GcmPhase) (c y : bytes) (na nt : Z) : Prop :=
  ready p cfg k iv /\
  exists j0, c_gcm (port_core p) =
    mkGcmSession ph (aes_enc k zero16) j0 (aes_enc k iv) c y ((128 * na) mod 2 ^ 64) ((128 * nt) mod 2 ^ 64).

Lemma ctr32_inc32 c : block c -> ctr32_inc c = inc32 c.
Proof.
  intros [Hl Hw]. unfold ctr32_inc, inc32, splice. change (Z.to_nat 12) with 12%nat.
  change (length (be_bytes 4 _)) with 4%nat. rewrite drop_ge by (unfold len in Hl; lia).
  by rewrite app_nil_r.
Qed.

Lemma bits_next n : (((128 * n) mod 2 ^ 64 + 128) mod 2 ^ 64) = (128 * (n + 1)) mod 2 ^ 64.
Proof. rewrite Z.add_mod_idemp_l by lia. f_equal. lia. Qed.

Lemma gcm_enter p cfg k iv ph ph' c y na nt : g_mode cfg = Gcm -> ph' <> Init ->
  gcm_ready p cfg k iv ph c y na nt ->
  exists p', p_write p port_cr_off 4 (port_cr cfg ph') = Ret p' /\ gcm_ready p' cfg k iv ph' c y na nt.
Proof.
  intros Hm Hph ((Hok & Hon & Hst & Hn & Hb) & j0 & Hg). pose proof Hst as (Hk & Hv & Hmd & Hrest).
  rewrite Hm in Hmd. destruct (port_phase p cfg ph' Hok Hon Hm Hph Hmd) as (p' & E & Hok' & Hon' & Hc').
  exists p'. split; [done|]. unfold gcm_ready, ready, started. rewrite Hc'. unfold in_phase.
  cbn [c_engine c_gcm c_buf c_len]. rewrite Hg. rewrite <- Hm in Hmd.
  split; [|by exists j0]. destruct Hrest as (? & ? & ? & ? & ?).
  split_and!; try done.
Qed.

Lemma pokes_app (p : P) off a b : pokes p off (a ++ b) = let! p := pokes p off a in pokes p off b.
Proof.
  revert p. induction a as [|v a IH]; intros p; [done|]. cbn [pokes app].
  destruct (p_write p off 4 v); [apply IH|done].
Qed.

Lemma gcm_completed c b : mode (c_engine c) = Gcm ->
  completed c b = let '(g, e) := gcm_block (c_gcm c) (c_engine c) b in mkCore e g zero16 0.
Proof. intros H. unfold completed. by rewrite bool_decide_true. Qed.

Lemma gcm_aad_block p cfg k iv c y na nt b : g_mode cfg = Gcm -> block b ->
  gcm_ready p cfg k iv Header c y na nt ->
  exists p', pokes p port_din (block_words (g_datatype cfg) b) = Ret p' /\
    gcm_ready p' cfg k iv Header c (gf128_mul (xor_bytes y b) (aes_enc k zero16)) (na + 1) nt.
Proof.
  intros Hm Hb ((Hok & Hon & Hst & Hn & Hcb) & j0 & Hg).
  pose proof Hst as (Hk & Hv & Hmd & Hd & Hdt & He & Hi & Hib).
  pose proof (core_feed_block (port_core p) b He Hb Hi Hib Hn Hcb) as Hf. rewrite Hdt in Hf.
  destruct (pokes_feed p cfg _ _ Hok Hon (block_words_u32 _ _ Hb) Hf) as (p' & E & Hok' & Hon' & Hc').
  exists p'. split; [done|]. rewrite gcm_completed in Hc' by by rewrite Hmd.
  rewrite Hg in Hc'. unfold gcm_block, ingest_aad in Hc'. cbn -[Z.modulo Z.pow Z.mul Z.add] in Hc'.
  unfold gcm_ready, ready. rewrite Hc'.
  cbn -[Z.modulo Z.pow Z.mul Z.add]. rewrite bits_next. split; [by split_and!|]. by exists j0.
Qed.

Lemma gcm_aad p cfg k iv c y na nt aad : g_mode cfg = Gcm -> Forall block aad ->
  gcm_ready p cfg k iv Header c y na nt ->
  exists p', pokes p port_din (aad ≫= block_words (g_datatype cfg)) = Ret p' /\
    gcm_ready p' cfg k iv Header c
      (ghash_from (aes_enc k zero16) y aad) (na + len aad) nt.
Proof.
  intros Hm Ha. revert p y na. induction Ha as [|b aad Hb Ha IH]; intros p y na Hr.
  { exists p. split; [done|]. change (len []) with 0. by rewrite Z.add_0_r. }
  rewrite bind_cons, pokes_app, ghash_from_cons.
  destruct (gcm_aad_block _ _ _ _ _ _ _ _ b Hm Hb Hr) as (p1 & -> & Hr1). cbn [rbind].
  destruct (IH p1 _ _ Hr1) as (p2 & E & Hr2). exists p2. split; [exact E|].
  rewrite len_cons. by replace (na + (1 + len aad)) with (na + 1 + len aad) by lia.
Qed.

(** The ciphertext block of a payload block, in either direction. *)
Definition ct_of (d : Direction) (b out : bytes) : bytes := match d with Encrypt => out | Decrypt => b end.

Lemma gcm_text_block p cfg k iv c y na nt b : g_mode cfg = Gcm -> block b ->
  gcm_ready p cfg k iv Payload c y na nt ->
  let out := xor_bytes b (aes_enc k c) in
  exists p', xfer (g_datatype cfg) p b = Ret (out, p') /\
    gcm_ready p' cfg k iv Payload (inc32 c)
      (gf128_mul (xor_bytes y (ct_of (g_dir cfg) b out)) (aes_enc k zero16)) na (nt + 1).
Proof.
  intros Hm Hb ((Hok & Hon & Hst & Hn & Hcb) & j0 & Hg) out.
  pose proof Hst as (Hk & Hv & Hmd & Hd & Hdt & He & Hi & Hib).
  pose proof (port_core_ok p Hok) as (_ & (_ & _ & _ & Hctr & _) & _). rewrite Hg in Hctr. cbn in Hctr.
  set (cc := completed (port_core p) b).
  assert (Hcc : cc = mkCore (stage_output (c_engine (port_core p)) out)
    (mkGcmSession Payload (aes_enc k zero16) j0 (aes_enc k iv) (inc32 c)
      (gf128_mul (xor_bytes y (ct_of (g_dir cfg) b out)) (aes_enc k zero16))
      ((128 * na) mod 2 ^ 64) ((128 * (nt + 1)) mod 2 ^ 64)) zero16 0).
  { unfold cc. rewrite gcm_completed by by rewrite Hmd. rewrite Hg. unfold gcm_block. cbn [phase].
    unfold process_payload, aes_encrypt_external, aes_encrypt_block. rewrite Hk, Hd.
    cbn -[Z.modulo Z.pow Z.mul Z.add xor_bytes]. rewrite bits_next, ctr32_inc32 by done. done. }
  assert (Hbo : block out) by (apply block_xor; auto with stm32).
  destruct (xfer_core p cfg b Hok Hon Hdt He Hb Hi Hib Hn Hcb) as (p' & E & Hok' & Hon' & Hc').
  1-4: fold cc; rewrite Hcc; done.
  fold cc in E, Hc'. rewrite Hcc in E, Hc'. exists p'. split; [exact E|].
  unfold gcm_ready, ready, started. rewrite Hc'. cbn -[Z.modulo Z.pow Z.mul Z.add].
  split; [by split_and!|by exists j0].
Qed.

Lemma gcm_text p cfg k iv c y na nt text : g_mode cfg = Gcm -> Forall block text ->
  gcm_ready p cfg k iv Payload c y na nt ->
  let out := gctr k c text in
  exists p' c', xfers (g_datatype cfg) p text = Ret (out, p') /\
    gcm_ready p' cfg k iv Payload c'
      (ghash_from (aes_enc k zero16) y (match g_dir cfg with Encrypt => out | Decrypt => text end))
      na (nt + len text).
Proof.
  intros Hm Ha. revert p c y nt. induction Ha as [|b text Hb Ha IH]; intros p c y nt Hr.
  { exists p, c. split; [done|]. change (len []) with 0. rewrite Z.add_0_r. by destruct (g_dir cfg). }
  cbn [xfers gctr]. cbv zeta.
  destruct (gcm_text_block _ _ _ _ _ _ _ _ b Hm Hb Hr) as (p1 & -> & Hr1). cbn [rbind].
  destruct (IH p1 _ _ _ Hr1) as (p2 & c2 & E & Hr2). cbv zeta in E. rewrite E. cbn [rbind].
  exists p2, c2. split; [done|]. rewrite len_cons.
  replace (nt + (1 + len text)) with (nt + 1 + len text) by lia.
  by destruct (g_dir cfg); rewrite ghash_from_cons.
Qed.

Lemma gcm_final p cfg k iv c y na nt lb : g_mode cfg = Gcm -> block lb ->
  gcm_ready p cfg k iv Final c y na nt ->
  exists p', xfer (g_datatype cfg) p lb =
    Ret (xor_bytes (gf128_mul (xor_bytes y (be_bytes 8 ((128 * na) mod 2 ^ 64) ++
           be_bytes 8 ((128 * nt) mod 2 ^ 64))) (aes_enc k zero16)) (aes_enc k iv), p') /\
    port_ok p' /\ port_on p' cfg.
Proof.
  intros Hm Hb ((Hok & Hon & Hst & Hn & Hcb) & j0 & Hg).
  pose proof Hst as (Hk & Hv & Hmd & Hd & Hdt & He & Hi & Hib).
  pose proof (port_core_ok p Hok) as ((_ & Hivb & _) & Hs & _). rewrite Hv in Hivb. rewrite Hg in Hs.
  pose proof Hs as (Hh & Hj & Htm & Hctr & Hy & _ & _). cbn in Hh, Htm, Hy.
  match goal with |- exists _, xfer _ _ _ = Ret (?t, _) /\ _ => set (tag := t) end.
  assert (Hbt : block tag).
  { apply block_xor; [|done]. apply block_gf128; [|done]. apply block_xor; [done|].
    split; [by rewrite len_app, !len_be_bytes|auto with wfdb]. }
  set (cc := completed (port_core p) lb).
  assert (Hcc : c_engine cc = stage_output (c_engine (port_core p)) tag).
  { unfold cc. rewrite gcm_completed by by rewrite Hmd. rewrite Hg. reflexivity. }
  destruct (xfer_core p cfg lb Hok Hon Hdt He Hb Hi Hib Hn Hcb) as (p' & E & Hok' & Hon' & Hc').
  1-4: fold cc; rewrite Hcc; done.
  fold cc in E. rewrite Hcc in E. by exists p'.
Qed.

Lemma len_gctr k c bs : len (gctr k c bs) = len bs.
Proof. revert c. induction bs as [|b bs IH]; intros c; [done|]. cbn [gctr]. by rewrite !len_cons, IH. Qed.

(** The registers compute GCM, whatever the driver writes in the final phase. *)
Lemma gcm_session_runs p cfg k j0 aad text lb : port_ok p -> port_off p -> port_supports cfg ->
  g_mode cfg = Gcm -> len k = key_len (g_size cfg) -> wf k -> block j0 ->
  Forall block aad -> Forall block text -> block lb ->
  exists p', gcm_session p cfg k j0 aad text lb =
    Ret ((gcm_crypt (g_dir cfg) k j0 aad text).1, (gcm_crypt (g_dir cfg) k j0 aad text).2, p') /\
    port_ok p' /\ port_off p'.
Proof.
  intros Hok Hoff Hsup Hm Hk Hw Hj Ha Ht Hlb. unfold gcm_session.
  destruct (cryp_start_ready p cfg k j0 Hok Hoff Hsup Hk Hw Hj) as (p1 & -> & Hr & Hg). cbn [rbind].
  assert (Hr1 : gcm_ready p1 cfg k j0 Init (inc32 j0) zero16 0 0).
  { split; [done|]. exists j0. rewrite Hg by done.
    destruct Hr as (_ & _ & (Hk1 & Hv1 & _) & _). unfold init, aes_encrypt_external, aes_encrypt_block.
    rewrite Hk1, Hv1. cbn -[Z.modulo Z.pow]. by rewrite ctr32_inc32. }
  destruct (gcm_enter p1 cfg k j0 Init Header _ _ _ _ Hm ltac:(done) Hr1) as (p2 & -> & Hr2). cbn [rbind].
  destruct (gcm_aad p2 cfg k j0 _ _ _ _ aad Hm Ha Hr2) as (p3 & -> & Hr3). cbn [rbind].
  destruct (gcm_enter p3 cfg k j0 Header Payload _ _ _ _ Hm ltac:(done) Hr3) as (p4 & -> & Hr4). cbn [rbind].
  destruct (gcm_text p4 cfg k j0 _ _ _ _ text Hm Ht Hr4) as (p5 & c5 & -> & Hr5). cbn [rbind].
  destruct (gcm_enter p5 cfg k j0 Payload Final _ _ _ _ Hm ltac:(done) Hr5) as (p6 & -> & Hr6). cbn [rbind].
  destruct (gcm_final p6 cfg k j0 _ _ _ _ lb Hm Hlb Hr6) as (p7 & -> & Hok7 & Hon7). cbn [rbind].
  destruct (port_stop p7 cfg Hok7 Hon7) as (p8 & -> & ? & ?). cbn [rbind].
  exists p8. split; [|done]. unfold gcm_crypt, gcm_tag, ghash, length_block. cbn [fst snd].
  rewrite !ghash_from_app, ghash_from_cons, ghash_from_nil, !Z.add_0_l.
  assert (len (match g_dir cfg with Encrypt => gctr k (inc32 j0) text | Decrypt => text end) = len text) as ->
    by (destruct (g_dir cfg); [apply len_gctr|done]).
  done.
Qed.
End theorems.
