(* ===== verification/Stm32CrypPortV1.v ===== *)
(** * STM32Sim: the CRYP register file of the STM32H7 and STM32MP13 as a port

    Lemmas on register windows that both register files use; the invariant of
    [Stm32Cryp.v1], that no access breaks it or panics, and that it is a [CrypPort]. *)

From S2P Require Import Prelude.
From S2P Require Import Crc.
From S2P Require Import McuCrates.
From S2P Require Import Stm32Core.
From S2P Require Import Stm32Cryp.
From S2P Require Import Stm32Gf128.
From S2P Require Import Stm32Engine.
From S2P Require Import Stm32Port.

Import cryp gcm.

(** ** Register windows *)

Fixpoint words_be (n : nat) (l : bytes) : list Z :=
  match n with
  | O => []
  | Datatypes.S n => be_val (take 4 l) :: words_be n (drop 4 l)
  end.

Lemma words_be_bytes n l : len l = 4 * Z.of_nat n -> wf l ->
  words_be n l ≫= be_bytes 4 = l /\ length (words_be n l) = n /\ Forall u32 (words_be n l).
Proof.
  revert l. induction n as [|n IH]; intros l Hl Hw; cbn [words_be].
  - destruct l; [done|]. rewrite len_cons in Hl. pose proof (len_nonneg l). lia.
  - destruct (IH (drop 4 l)) as (H1 & H2 & H3); [len_solve|auto with wfdb|].
    rewrite bind_cons, H1. cbn [length]. rewrite H2.
    assert (L4 : len (take 4 l) = 4) by len_solve. split_and!; [|done|].
    + rewrite be_bytes_be_val; [apply take_drop|auto with wfdb|unfold len in L4; lia].
    + constructor; [|done]. apply u32_be_val4; auto with wfdb.
Qed.

Fixpoint reg_writes (off : Z) (ws : list Z) : list (Z * Z) :=
  match ws with
  | [] => []
  | w :: ws => (off, w) :: reg_writes (off + 4) ws
  end.

(** Word writes over a window of registers that a store replaces one by one. *)
Section window.
Context {P : Type} {PP : Peripheral P}.
Variables (regs : P -> list Z) (set_regs : list Z -> P -> P) (idle : P -> Prop) (base n : Z).
Hypothesis Hwrite : forall s i w, idle s -> len (regs s) = n -> 0 <= i < n ->
  p_write s (base + 4 * i) 4 w = Ret (set_regs (<[Z.to_nat i := w]> (regs s)) s).
Hypothesis Hidle : forall l s, idle s -> idle (set_regs l s).
Hypothesis Hget : forall l s, regs (set_regs l s) = l.
Hypothesis Hset : forall l l' s, set_regs l (set_regs l' s) = set_regs l s.
Hypothesis Hsame : forall s, set_regs (regs s) s = s.

Lemma stores_window s i ws rest : idle s -> len (regs s) = n -> 0 <= i -> i + len ws <= n ->
  stores s (reg_writes (base + 4 * i) ws ++ rest) =
  stores (set_regs (list_inserts (Z.to_nat i) ws (regs s)) s) rest.
Proof.
  revert s i. induction ws as [|w ws IH]; intros s i Hs Hl Hi Hn; cbn [reg_writes app stores list_inserts].
  { by rewrite Hsame. }
  rewrite len_cons in Hn. pose proof (len_nonneg ws).
  rewrite Hwrite by (done || lia). cbn [rbind].
  replace (base + 4 * i + 4) with (base + 4 * (i + 1)) by lia.
  rewrite IH; rewrite ?Hget, ?len_insert; auto; try lia. rewrite Hset. do 2 f_equal.
  replace (Z.to_nat (i + 1)) with (Datatypes.S (Z.to_nat i)) by lia.
  symmetry. apply list_insert_inserts_lt. lia.
Qed.
End window.

Lemma drop_inserts {A} (l ws : list A) i : (i + length ws = length l)%nat -> drop i (list_inserts i ws l) = ws.
Proof.
  intros H. apply list_eq. intros j. rewrite lookup_drop.
  destruct (decide (j < length ws)%nat).
  - rewrite list_lookup_inserts by lia. f_equal. lia.
  - rewrite !lookup_ge_None_2; [done|lia|rewrite length_inserts; lia].
Qed.

Lemma words_bytes (l : list Z) : len (l ≫= be_bytes 4) = 4 * len l /\ wf (l ≫= be_bytes 4).
Proof.
  induction l as [|w l [IH1 IH2]]; [by split; [done|apply wf_nil]|]. rewrite bind_cons. split.
  - rewrite len_app, len_be_bytes, IH1, len_cons. lia.
  - auto with wfdb.
Qed.

(** ** STM32H7 and STM32MP13 *)

Module V1.
Import v1.

Definition core (s : CrypV1) : Core := mkCore (engine s) (v1.gcm s) (gcm_in_buf s) (gcm_in_len s).

(** What replaces the core. *)
Definition put (c : Core) (s : CrypV1) : CrypV1 :=
  with_gcm_in_len (c_len c) (with_gcm_in_buf (c_buf c) (with_gcm (c_gcm c) (with_engine (c_engine c) s))).

Definition ok (s : CrypV1) : Prop :=
  core_ok (core s) /\ (len (key_regs s) = 8 /\ Forall u32 (key_regs s)) /\
  (len (iv_regs s) = 4 /\ Forall u32 (iv_regs s)) /\
  u32 (cr s) /\ u32 (dmacr s) /\ u32 (imscr s) /\ enabled (engine s) = has (cr s) CR_CRYPEN.

Lemma expand_key_ok regs size : len regs = 8 -> len (expand_key regs size) = 32 /\ wf (expand_key regs size).
Proof.
  intros Hl. unfold expand_key.
  set (n := match size with K128 => 4%nat | K192 => 2%nat | K256 => 0%nat end).
  destruct (words_bytes (drop n regs)) as [H1 H2]. rewrite len_drop in H1. split.
  - rewrite len_app, len_drop. replace (Z.of_nat (length (drop n regs ≫= be_bytes 4)))
      with (len (drop n regs ≫= be_bytes 4)) by done. rewrite H1, len_vec_repeat.
    destruct size; subst n; lia.
  - auto with wfdb.
Qed.

Lemma expand_iv_ok regs : len regs = 4 -> block (expand_iv regs).
Proof. intros Hl. destruct (words_bytes regs) as [H1 H2]. split; [unfold expand_iv; lia|done]. Qed.

Section ok.
Context {A : AesBlocks} {AO : AesBlocksOk A}.

Lemma new_ok : ok new.
Proof.
  unfold ok, core_ok. cbn. split_and!; auto using default_engine_ok, default_session_ok with stm32;
    try u_solve; try (by left); try (repeat (constructor; [u_solve|]); constructor).
Qed.

Lemma enter_phase_ok s : ok s -> ok (enter_phase s).
Proof.
  intros Hs. pose proof Hs as ((He & Hg & Hb & Hn) & Hrest). unfold enter_phase.
  case_bool_decide; (split; [|exact Hrest]); unfold core_ok; cbn.
  - split_and!; auto. by apply init_ok.
  - by split_and!.
Qed.

(** The engine a commit leaves, before the GCM session is entered. *)
Definition committed (s : CrypV1) : CrypEngine :=
  let ks := Z.shiftr (Z.land (cr s) CR_KEYSIZE_MASK) CR_KEYSIZE_SHIFT in
  let size := if ks =? 1 then K192 else if ks =? 2 then K256 else K128 in
  mkCrypEngine (expand_key (key_regs s) size) (expand_iv (iv_regs s)) size (mode_of (algomode (cr s)))
    (if has (cr s) CR_ALGODIR then Decrypt else Encrypt)
    (from_bits (Z.shiftr (Z.land (cr s) CR_DATATYPE_MASK) CR_DATATYPE_SHIFT)) (enabled (engine s))
    zero16 0 zero16 0 0.

Lemma commit_config_eq s : commit_config s =
  let s' := with_gcm_in_len 0 (with_gcm_in_buf zero16 (with_engine (committed s) s)) in
  if bool_decide (mode (committed s) = Gcm) then enter_phase s' else s'.
Proof. reflexivity. Qed.

Lemma committed_ok s : ok s -> engine_ok (committed s).
Proof.
  intros (_ & [Hk _] & [Hi _] & _). unfold engine_ok, committed. cbn.
  split; [by apply expand_key_ok|]. split; [by apply expand_iv_ok|].
  unfold word_pos. split_and!; auto with stm32; lia.
Qed.

Lemma commit_config_ok s : ok s -> ok (commit_config s).
Proof.
  intros Hs. rewrite commit_config_eq. cbv zeta. pose proof Hs as ((He & Hg & Hb & Hn) & Hrest).
  assert (H1 : ok (with_gcm_in_len 0 (with_gcm_in_buf zero16 (with_engine (committed s) s)))).
  { split; [|exact Hrest]. split; [by apply committed_ok|]. split; [done|]. split; [apply block_zero|by left]. }
  case_bool_decide; [by apply enter_phase_ok|done].
Qed.

Lemma enter_phase_engine s : engine (enter_phase s) = engine s.
Proof. unfold enter_phase. by case_bool_decide. Qed.
Lemma enter_phase_cr s : cr (enter_phase s) = cr s.
Proof. unfold enter_phase. by case_bool_decide. Qed.
Lemma commit_config_cr s : cr (commit_config s) = cr s.
Proof. rewrite commit_config_eq. cbv zeta. case_bool_decide; by rewrite ?enter_phase_cr. Qed.
Lemma commit_config_enabled s : enabled (engine (commit_config s)) = enabled (engine s).
Proof. rewrite commit_config_eq. cbv zeta. case_bool_decide; by rewrite ?enter_phase_engine. Qed.

(** The parts of [ok] a control write starts from: the flag may be stale. *)
Definition pre (s : CrypV1) : Prop :=
  core_ok (core s) /\ (len (key_regs s) = 8 /\ Forall u32 (key_regs s)) /\
  (len (iv_regs s) = 4 /\ Forall u32 (iv_regs s)) /\ u32 (cr s) /\ u32 (dmacr s) /\ u32 (imscr s).

Lemma ok_pre s b : ok (with_engine (with_enabled b (engine s)) s) <-> pre s /\ b = has (cr s) CR_CRYPEN.
Proof. unfold ok, pre, core_ok, engine_ok. cbn. tauto. Qed.

Lemma pre_ok s : pre s -> ok (with_engine (with_enabled (has (cr s) CR_CRYPEN) (engine s)) s).
Proof. intros. by apply ok_pre. Qed.

Lemma with_enabled_same s : with_engine (with_enabled (enabled (engine s)) (engine s)) s = s.
Proof. destruct s as [? ? ? ? ? [] ? ? ?]. reflexivity. Qed.

Lemma pre_of_ok s : ok s -> pre s.
Proof. unfold ok, pre. tauto. Qed.

(** A commit does not read the flag of the engine. *)
Lemma commit_enabled b s : commit_config (with_engine (with_enabled b (engine s)) s) =
  with_engine (with_enabled b (engine (commit_config s))) (commit_config s).
Proof.
  rewrite !commit_config_eq. cbv zeta. unfold committed. cbn.
  case_bool_decide; [|done]. unfold enter_phase, gcm_phase. cbn. case_bool_decide; reflexivity.
Qed.

Lemma commit_pre s : pre s -> pre (commit_config s).
Proof.
  intros Hp%pre_ok%commit_config_ok. rewrite commit_enabled in Hp. by apply ok_pre in Hp as [].
Qed.

Lemma write_cr_ok s v : ok s -> u32 v -> ok (write_cr s v).
Proof.
  intros Hs Hv. unfold write_cr.
  assert (Hu : u32 (Z.land v (not32 CR_FFLUSH))) by (apply u32_land; [done|vm_compute; discriminate]).
  set (s1 := with_cr (Z.land v (not32 CR_FFLUSH)) s).
  assert (Hp1 : pre s1) by (apply pre_of_ok in Hs; unfold pre in *; cbn; tauto).
  set (s2 := if has v CR_FFLUSH then with_engine (reset_fifos (engine s1)) s1 else s1).
  assert (Hp2 : pre s2).
  { unfold s2. destruct (has v CR_FFLUSH); [|done]. unfold pre, core_ok in *. cbn in *.
    pose proof (reset_fifos_ok (engine s)). tauto. }
  assert (Hcr : cr s2 = Z.land v (not32 CR_FFLUSH)) by (unfold s2; by destruct (has v CR_FFLUSH)).
  assert (Hen : enabled (engine s2) = has (cr s) CR_CRYPEN).
  { destruct Hs as (_ & _ & _ & _ & _ & _ & <-). unfold s2. by destruct (has v CR_FFLUSH). }
  cbv zeta. clearbody s2. clear s1 Hp1.
  destruct (has (cr s) CR_CRYPEN) eqn:Hw, (has (cr s2) CR_CRYPEN) eqn:Hnow; cbn [negb andb].
  - assert (Hok2 : ok s2) by (rewrite <- (with_enabled_same s2), Hen, <- Hnow; by apply pre_ok).
    case_bool_decide.
    + apply enter_phase_ok in Hok2. destruct Hok2 as ((He & Hg & _ & _) & Hrest).
      split; [|exact Hrest]. split; [by apply reset_fifos_ok|]. split; [done|]. split; [apply block_zero|by left].
    + destruct (negb _); [by apply commit_config_ok|done].
  - rewrite <- Hnow. by apply pre_ok.
  - apply ok_pre. split; [by apply commit_pre|]. by rewrite commit_config_cr, Hnow.
  - rewrite <- (with_enabled_same s2), Hen, <- Hnow. by apply pre_ok.
Qed.

Lemma write_din_core s sz v : write s DIN sz v = let! c := core_din (core s) v in Ret (put c s).
Proof.
  destruct s as [cr0 k0 i0 d0 m0 e g buf n]. unfold write, core_din, gcm_din.
  change (DIN =? CR) with false. change (DIN =? DIN) with true. cbn -[push_bytes be_bytes].
  destruct (enabled e) eqn:He, (bool_decide (mode e = Gcm)) eqn:Hm; cbn [andb negb orb].
  2-4: by destruct (write_din e v).
  destruct (push_bytes buf n (be_bytes 4 (swap (datatype e) v))) as [[buf' n']|]; [|done].
  cbn. destruct (n' <? 16); [done|]. by destruct (gcm_block g e buf').
Qed.

Lemma read_dout_core s sz : read s DOUT sz = let! '(v, c) := core_dout (core s) in Ret (v, put c s).
Proof.
  destruct s as [cr0 k0 i0 d0 m0 e g buf n]. unfold read, core_dout.
  change (DOUT =? CR) with false. change (DOUT =? SR) with false. change (DOUT =? DIN) with false.
  change (DOUT =? DOUT) with true. cbn. by destruct (read_dout e) as [[v e']|].
Qed.

Lemma put_ok c s : ok s -> core_ok c -> enabled (c_engine c) = enabled (engine s) -> ok (put c s).
Proof. intros (_ & ? & ? & ? & ? & ? & He) Hc E. rewrite He in E. destruct c. unfold ok. cbn in *. tauto. Qed.

Lemma store_ok s sz v : ok s -> u32 v -> wp (write s DIN sz v) ok.
Proof.
  intros Hs Hv. rewrite write_din_core. pose proof (core_din_ok (core s) v) as H.
  destruct (core_din (core s) v) as [c|] eqn:E; [|by apply H; [apply Hs|]].
  apply put_ok; [done|apply H; [apply Hs|done]|]. by apply core_din_enabled in E.
Qed.

Lemma load_ok s sz : ok s -> wp (read s DOUT sz) (fun '(v, s) => u32 v /\ ok s).
Proof.
  intros Hs. rewrite read_dout_core. pose proof (core_dout_ok (core s)) as H.
  destruct (core_dout (core s)) as [[v c]|] eqn:E; [|by apply H, Hs].
  destruct H as [Hv Hc]; [apply Hs|]. split; [done|].
  apply put_ok; [done..|]. by apply core_dout_enabled in E.
Qed.

Lemma read_ok s off sz : ok s -> wp (read s off sz) (fun '(v, s) => u32 v /\ ok s).
Proof.
  intros Hs. pose proof Hs as (_ & [Hk Hku] & [Hi Hiu] & Hcr & Hd & Him & He).
  destruct (Z.eqb_spec off DOUT) as [->|Hdo]; [by apply load_ok|]. unfold read.
  destruct (off =? CR); [done|]. destruct (off =? SR).
  { split; [|done]. unfold compute_sr. repeat case_match; vm_compute; (split; [discriminate|reflexivity]). }
  destruct (off =? DIN); [by split; [u_solve|]|]. rewrite (proj2 (Z.eqb_neq _ _) Hdo).
  destruct (off =? DMACR); [done|]. destruct (off =? IMSCR); [done|].
  destruct (_ || _); [by split; [u_solve|]|].
  destruct (in_range KEY_BASE KEY_END off) eqn:Hr.
  { unfold in_range, KEY_BASE, KEY_END in *. apply wp_bind, wp_idx; [dlia|].
    intros v Hv. split; [exact (Forall_lookup_1 _ _ _ _ Hku Hv)|done]. }
  destruct (in_range IV_BASE IV_END off) eqn:Hr2.
  { unfold in_range, IV_BASE, IV_END in *. apply wp_bind, wp_idx; [dlia|].
    intros v Hv. split; [exact (Forall_lookup_1 _ _ _ _ Hiu Hv)|done]. }
  by split; [u_solve|].
Qed.

Lemma write_ok s off sz v : ok s -> u32 v -> wp (write s off sz v) ok.
Proof.
  intros Hs Hv. destruct (Z.eqb_spec off DIN) as [->|Hdi]; [by apply store_ok|].
  pose proof Hs as (Hc & [Hk Hku] & [Hi Hiu] & Hcr & Hd & Him & He). unfold write.
  destruct (off =? CR); [by apply write_cr_ok|]. rewrite (proj2 (Z.eqb_neq _ _) Hdi).
  destruct (off =? DMACR); [unfold ok; cbn; tauto|]. destruct (off =? IMSCR); [unfold ok; cbn; tauto|].
  destruct (in_range KEY_BASE KEY_END off) eqn:Hr.
  { unfold in_range, KEY_BASE, KEY_END in *. apply wp_bind, wp_set_idx; [dlia|]. cbn.
    set (regs := <[_ := v]> (key_regs s)).
    assert (Hregs : len regs = 8 /\ Forall u32 regs)
      by (split; [unfold regs; by rewrite len_insert|by apply Forall_insert]).
    case (enabled (engine s)); [|split; [exact Hc|cbn; tauto]].
    split; [|cbn; tauto]. destruct Hc as ((_ & Hrest) & Hc). split; [|exact Hc].
    split; [exact (expand_key_ok _ _ (proj1 Hregs))|exact Hrest]. }
  destruct (in_range IV_BASE IV_END off) eqn:Hr2.
  { unfold in_range, IV_BASE, IV_END in *. apply wp_bind, wp_set_idx; [dlia|]. cbn.
    set (regs := <[_ := v]> (iv_regs s)).
    assert (Hregs : len regs = 4 /\ Forall u32 regs)
      by (split; [unfold regs; by rewrite len_insert|by apply Forall_insert]).
    case (enabled (engine s)); [|split; [exact Hc|cbn; tauto]].
    split; [|cbn; tauto]. destruct Hc as ((Hk1 & _ & Hrest) & Hc). split; [|exact Hc].
    split; [exact Hk1|]. split; [exact (expand_iv_ok _ (proj1 Hregs))|exact Hrest]. }
  done.
Qed.
(** *** The driver's view *)

Definition key_start (ks : KeySize) : nat := match ks with K128 => 4 | K192 => 2 | K256 => 0 end.
Definition key_words (ks : KeySize) : nat := match ks with K128 => 4 | K192 => 6 | K256 => 8 end.

Definition set_key (ks : KeySize) (k : bytes) : list (Z * Z) :=
  reg_writes (KEY_BASE + 4 * Z.of_nat (key_start ks)) (words_be (key_words ks) k).
Definition set_iv (iv : bytes) : list (Z * Z) := reg_writes (IV_BASE + 4 * 0) (words_be 4 iv).

(** [CR] for a configuration: [CRYPEN], [ALGOMODE], [ALGODIR], [DATATYPE], [KEYSIZE], [GCM_CCMPH]. *)
Definition cr_word (c : Config) (ph : GcmPhase) : Z :=
  CR_CRYPEN +
  match g_mode c with Ecb => 4 * 8 | Cbc => 5 * 8 | Ctr => 6 * 8 | KeyDerivation => 7 * 8 | Gcm => CR_ALGOMODE_HI end +
  match g_dir c with Encrypt => 0 | Decrypt => CR_ALGODIR end +
  64 * match g_datatype c with Word => 0 | Halfword => 1 | Byte => 2 | Bit => 3 end +
  256 * match g_size c with K128 => 0 | K192 => 1 | K256 => 2 end +
  65536 * match ph with Init => 0 | Header => 1 | Payload => 2 | Final => 3 end.

Definition off (s : CrypV1) : Prop := has (cr s) CR_CRYPEN = false.
Definition on (s : CrypV1) (cfg : Config) : Prop := exists ph, cr s = cr_word cfg ph.

Lemma cr_word_fields cfg ph :
  let w := cr_word cfg ph in
  u32 w /\ Z.land w (not32 CR_FFLUSH) = w /\ has w CR_FFLUSH = false /\ has w CR_CRYPEN = true /\
  (if Z.shiftr (Z.land w CR_KEYSIZE_MASK) CR_KEYSIZE_SHIFT =? 1 then K192
   else if Z.shiftr (Z.land w CR_KEYSIZE_MASK) CR_KEYSIZE_SHIFT =? 2 then K256 else K128) = g_size cfg /\
  from_bits (Z.shiftr (Z.land w CR_DATATYPE_MASK) CR_DATATYPE_SHIFT) = g_datatype cfg /\
  (if has w CR_ALGODIR then Decrypt else Encrypt) = g_dir cfg /\
  mode_of (algomode w) = g_mode cfg /\
  phase_from_bits (Z.shiftr (Z.land w CR_GCMPH_MASK) CR_GCMPH_SHIFT) = ph.
Proof. destruct cfg as [[] [] [] []], ph; vm_compute; split_and!; (reflexivity || discriminate). Qed.

Lemma expand_key_inserts regs ks k : len regs = 8 -> len k = key_len ks -> wf k ->
  take (Z.to_nat (key_len ks)) (expand_key (list_inserts (key_start ks) (words_be (key_words ks) k) regs) ks) = k.
Proof.
  intros Hr Hk Hw. destruct (words_be_bytes (key_words ks) k) as (E & Hl & _); [by destruct ks|done|].
  unfold expand_key. fold (key_start ks). rewrite drop_inserts, E.
  - rewrite take_app_le, take_ge; [done| |]; unfold len in Hk; lia.
  - rewrite Hl. unfold len in Hr. destruct ks; cbn; lia.
Qed.

Lemma expand_iv_inserts regs iv : len regs = 4 -> block iv ->
  expand_iv (list_inserts 0 (words_be 4 iv) regs) = iv.
Proof.
  intros Hr [Hl Hw]. destruct (words_be_bytes 4 iv) as (E & Hn & _); [done|done|].
  unfold expand_iv. rewrite <- (drop_0 (list_inserts _ _ _)), drop_inserts; [done|].
  rewrite Hn. unfold len in Hr. lia.
Qed.
Lemma load_key s i ws rest : off s -> ok s -> 0 <= i -> i + len ws <= 8 ->
  stores s (reg_writes (KEY_BASE + 4 * i) ws ++ rest) =
  stores (with_key_regs (list_inserts (Z.to_nat i) ws (key_regs s)) s) rest.
Proof.
  intros Hoff (_ & [Hk _] & _ & _ & _ & _ & He) Hi Hn.
  apply (stores_window key_regs with_key_regs (fun s => enabled (engine s) = false) KEY_BASE 8);
    try done; [|by intros []|by rewrite He].
  intros t j w Ht Hl Hj. cbn. unfold write, KEY_BASE, KEY_END.
  unfold CR, DIN, DMACR, IMSCR. rewrite !(proj2 (Z.eqb_neq _ _)) by lia.
  replace (in_range 32 60 (32 + 4 * j)) with true by (unfold in_range; lia).
  replace ((32 + 4 * j - 32) / 4) with j by dlia. unfold set_idx. rewrite bool_decide_true by lia.
  cbn [rbind]. cbn [engine with_key_regs]. by rewrite Ht.
Qed.

Lemma load_iv s ws rest : off s -> ok s -> len ws <= 4 ->
  stores s (reg_writes (IV_BASE + 4 * 0) ws ++ rest) =
  stores (with_iv_regs (list_inserts 0 ws (iv_regs s)) s) rest.
Proof.
  intros Hoff (_ & _ & [Hk _] & _ & _ & _ & He) Hn.
  apply (stores_window iv_regs with_iv_regs (fun s => enabled (engine s) = false) IV_BASE 4);
    try done; [|by intros []|by rewrite He].
  intros t j w Ht Hl Hj. cbn. unfold write, KEY_BASE, KEY_END, IV_BASE, IV_END.
  unfold CR, DIN, DMACR, IMSCR. rewrite !(proj2 (Z.eqb_neq _ _)) by lia.
  replace (in_range 32 60 (64 + 4 * j)) with false by (unfold in_range; lia).
  replace (in_range 64 76 (64 + 4 * j)) with true by (unfold in_range; lia).
  replace ((64 + 4 * j - 64) / 4) with j by dlia. unfold set_idx. rewrite bool_decide_true by lia.
  cbn [rbind]. cbn [engine with_iv_regs]. by rewrite Ht.
Qed.

Lemma list_inserts_u32 i ws regs : Forall u32 ws -> Forall u32 regs -> Forall u32 (list_inserts i ws regs).
Proof. intros Hw Hr. revert i. induction Hw; intros i; cbn [list_inserts]; [done|]. by apply Forall_insert. Qed.

(** Enabling from the disabled state commits. *)
Lemma enable_eq s cfg : off s ->
  let s' := commit_config (with_cr (cr_word cfg Init) s) in
  write_cr s (cr_word cfg Init) = with_engine (with_enabled true (engine s')) s'.
Proof.
  intros Hoff. destruct (cr_word_fields cfg Init) as (_ & Hm & Hf & He & _). unfold write_cr.
  rewrite Hm, Hf, Hoff. cbn [cr with_cr]. by rewrite He.
Qed.

Lemma commit_engine s : engine (commit_config s) = committed s.
Proof. rewrite commit_config_eq. cbv zeta. case_bool_decide; by rewrite ?enter_phase_engine. Qed.

Lemma key_bytes_take (ks : KeySize) (l : bytes) :
  match ks with K128 => take 16 l | K192 => take 24 l | K256 => take 32 l end = take (Z.to_nat (key_len ks)) l.
Proof. by destruct ks. Qed.

Lemma enter_phase_init s : gcm_phase s = Init -> enter_phase s = with_gcm (init (v1.gcm s) (engine s)) s.
Proof. intros H. unfold enter_phase. by rewrite H. Qed.

Lemma init_enabled g e : init g e = init default_session (with_enabled true e).
Proof. reflexivity. Qed.

(** The engine a configuration commits from the register contents. *)
Definition configured (s : CrypV1) (cfg : Config) : CrypEngine :=
  mkCrypEngine (expand_key (key_regs s) (g_size cfg)) (expand_iv (iv_regs s)) (g_size cfg) (g_mode cfg)
    (g_dir cfg) (g_datatype cfg) true zero16 0 zero16 0 0.

Lemma committed_configured s cfg : with_enabled true (committed (with_cr (cr_word cfg Init) s)) = configured s cfg.
Proof.
  destruct (cr_word_fields cfg Init) as (_ & _ & _ & _ & Hks & Hdt & Hd & Hmd & _).
  unfold committed, configured, with_enabled. cbn [cr with_cr key_regs iv_regs engine]. cbv zeta.
  cbn [cryp.key cryp.iv key_size mode direction datatype in_buf in_len out_buf out_pos out_avail].
  by rewrite Hks, Hmd, Hd, Hdt.
Qed.

Lemma commit_rest s : gcm_in_len (commit_config s) = 0 /\ gcm_in_buf (commit_config s) = zero16 /\
  (mode (committed s) = Gcm -> gcm_phase s = Init -> v1.gcm (commit_config s) = init (v1.gcm s) (committed s)).
Proof.
  rewrite commit_config_eq. cbv zeta. generalize (committed s). intros e.
  case_bool_decide as HG; [|by split_and!]. unfold enter_phase.
  change (gcm_phase _) with (gcm_phase s). case_bool_decide; by split_and!.
Qed.

Lemma enable_fields s' : let s := with_engine (with_enabled true (engine s')) s' in
  cr s = cr s' /\ engine s = with_enabled true (engine s') /\ gcm_in_len s = gcm_in_len s' /\
  gcm_in_buf s = gcm_in_buf s' /\ v1.gcm s = v1.gcm s'.
Proof. by split_and!. Qed.

Lemma enable_core s cfg : off s ->
  let s' := write_cr s (cr_word cfg Init) in
  cr s' = cr_word cfg Init /\ engine s' = configured s cfg /\ gcm_in_len s' = 0 /\ gcm_in_buf s' = zero16 /\
  (g_mode cfg = Gcm -> v1.gcm s' = init default_session (configured s cfg)).
Proof.
  intros Hoff. cbv zeta. rewrite enable_eq by done.
  pose proof (committed_configured s cfg) as HE.
  assert (Hp : gcm_phase (with_cr (cr_word cfg Init) s) = Init) by apply (cr_word_fields cfg Init).
  assert (Hcr : cr (with_cr (cr_word cfg Init) s) = cr_word cfg Init) by done.
  revert HE Hp Hcr. generalize (with_cr (cr_word cfg Init) s). intros s2 HE Hp Hcr.
  assert (Hm : mode (committed s2) = g_mode cfg) by (apply (f_equal mode) in HE; exact HE).
  destruct (commit_rest s2) as (H1 & H2 & H3). rewrite Hm in H3.
  pose proof (commit_config_cr s2) as H4. pose proof (commit_engine s2) as H5.
  destruct (enable_fields (commit_config s2)) as (-> & -> & -> & -> & ->).
  rewrite H1, H2, H4, H5, HE. split_and!; [done..|]. intros HG. by rewrite H3, init_enabled, HE.
Qed.

Lemma load_regs s cfg k iv : ok s -> off s -> len k = key_len (g_size cfg) -> wf k -> block iv ->
  let s1 := with_iv_regs (list_inserts 0 (words_be 4 iv) (iv_regs s))
    (with_key_regs (list_inserts (key_start (g_size cfg)) (words_be (key_words (g_size cfg)) k) (key_regs s)) s) in
  ok s1 /\ off s1 /\ forall rest, stores s (set_key (g_size cfg) k ++ set_iv iv ++ rest) = stores s1 rest.
Proof.
  intros Hs Hoff Hk Hw [Hil Hiw].
  destruct (words_be_bytes (key_words (g_size cfg)) k) as (_ & Hkl & Hku); [by destruct (g_size cfg)|done|].
  destruct (words_be_bytes 4 iv) as (_ & Hvl & Hvu); [done|done|].
  pose proof Hs as (Hc & [Hkr Hkru] & [Hir Hiru] & Hrest).
  set (kr := list_inserts (key_start (g_size cfg)) (words_be (key_words (g_size cfg)) k) (key_regs s)).
  set (ir := list_inserts 0 (words_be 4 iv) (iv_regs s)). cbv zeta.
  assert (Hkr' : len kr = 8 /\ Forall u32 kr)
    by (split; [unfold len, kr; by rewrite length_inserts|by apply list_inserts_u32]).
  assert (Hir' : len ir = 4 /\ Forall u32 ir)
    by (split; [unfold len, ir; by rewrite length_inserts|by apply list_inserts_u32]).
  assert (Hs0 : ok (with_key_regs kr s)) by (split; [exact Hc|]; split; [exact Hkr'|]; exact (proj2 (proj2 Hs))).
  split; [split; [exact Hc|]; split; [exact Hkr'|]; split; [exact Hir'|exact Hrest]|]. split; [exact Hoff|].
  intros rest. unfold set_key, set_iv.
  rewrite load_key by (try done; unfold len; rewrite ?Hkl; destruct (g_size cfg); cbn; lia).
  rewrite Nat2Z.id. fold kr. by rewrite load_iv by (done || unfold len; rewrite Hvl; lia).
Qed.

Lemma start_law s cfg k iv : ok s -> off s -> len k = key_len (g_size cfg) -> wf k -> block iv ->
  exists s', stores s (set_key (g_size cfg) k ++ set_iv iv ++ [(CR, cr_word cfg Init)]) = Ret s' /\
    ok s' /\ on s' cfg /\
    exists e, started cfg k iv e /\ c_engine (core s') = e /\ c_len (core s') = 0 /\
      len (c_buf (core s')) = 16 /\ (g_mode cfg = Gcm -> c_gcm (core s') = init default_session e).
Proof.
  intros Hs Hoff Hk Hw Hiv. destruct (load_regs s cfg k iv Hs Hoff Hk Hw Hiv) as (Hs1 & Hoff1 & ->).
  set (s1 := with_iv_regs _ _) in *. exists (write_cr s1 (cr_word cfg Init)).
  destruct (cr_word_fields cfg Init) as (Hu & _). destruct (enable_core s1 cfg Hoff1) as (Hcr & He & Hn & Hb & Hg).
  split; [done|]. split; [by apply write_cr_ok|]. split; [by exists Init|].
  exists (configured s1 cfg). unfold core. cbn [c_engine c_len c_buf c_gcm]. rewrite Hb. split; [|by split_and!].
  destruct Hs as (_ & [Hkr _] & [Hir _] & _).
  unfold started, configured, aes_key.
  cbn [cryp.key cryp.iv key_size mode direction datatype enabled in_len in_buf].
  rewrite key_bytes_take. subst s1. cbn [key_regs iv_regs with_iv_regs with_key_regs].
  rewrite expand_key_inserts, expand_iv_inserts by done. by split_and!.
Qed.

Lemma phase_law s cfg ph : ok s -> on s cfg -> ph <> Init -> mode (engine s) = Gcm ->
  exists s', write s CR 4 (cr_word cfg ph) = Ret s' /\ ok s' /\ on s' cfg /\ core s' = in_phase ph (core s).
Proof.
  intros Hs [ph0 Hcr] Hph Hm. destruct (cr_word_fields cfg ph) as (Hu & Hmk & Hf & He & _ & _ & _ & _ & Hp).
  destruct (cr_word_fields cfg ph0) as (_ & _ & _ & He0 & _).
  eexists. split; [reflexivity|]. split; [by apply write_cr_ok|].
  assert (E : write_cr s (cr_word cfg ph) =
    with_engine (reset_fifos (engine s)) (with_gcm_in_len 0 (with_gcm_in_buf zero16
      (with_gcm (with_phase ph (v1.gcm s)) (with_cr (cr_word cfg ph) s))))).
  { unfold write_cr. rewrite Hmk, Hf, Hcr, He0. cbn [cr with_cr]. rewrite He. cbn [negb andb engine with_cr].
    rewrite bool_decide_true by done. unfold enter_phase, gcm_phase. cbn [cr with_cr]. rewrite Hp.
    by rewrite bool_decide_false. }
  rewrite E. split; [by exists ph|done].
Qed.

Lemma stop_law s cfg : ok s -> on s cfg -> exists s', write s CR 4 0 = Ret s' /\ ok s' /\ off s'.
Proof.
  intros Hs [ph Hcr]. eexists. split; [reflexivity|]. split; [apply write_cr_ok; [done|u_solve]|].
  unfold off, write_cr. rewrite Hcr. destruct (cr_word_fields cfg ph) as (_ & _ & _ & -> & _). done.
Qed.

#[export] Instance cryp_port_v1 : CrypPort CrypV1 := {|
  port_core := core; port_ok := ok; port_off := off; port_on := on;
  port_supports cfg := True;
  port_key := set_key; port_iv := set_iv; port_cr := cr_word; port_cr_off := CR;
  port_din := DIN; port_dout := DOUT |}.

#[export] Instance cryp_port_v1_ok : CrypPortOk CrypV1 cryp_port_v1.
Proof.
  split.
  - intros s Hs. apply Hs.
  - intros. by apply start_law.
  - intros. by apply phase_law.
  - intros. by eapply stop_law.
  - intros s cfg v c Hs Hon Hv Hc. exists (put c s). change (core_din (core s) v = Ret c) in Hc.
    change (p_write s port_din 4 v) with (write s DIN 4 v). rewrite write_din_core, Hc.
    split; [done|]. pose proof (core_din_ok (core s) v (proj1 Hs) Hv) as H. rewrite Hc in H.
    split; [apply put_ok; [done|exact H|by apply core_din_enabled in Hc]|]. split; [exact Hon|by destruct c].
  - intros s cfg v c Hs Hon Hc. exists (put c s). change (core_dout (core s) = Ret (v, c)) in Hc.
    change (p_read s port_dout 4) with (read s DOUT 4). rewrite read_dout_core, Hc.
    split; [done|]. pose proof (core_dout_ok (core s) (proj1 Hs)) as H. rewrite Hc in H.
    split; [apply put_ok; [done|apply H|by apply core_dout_enabled in Hc]|]. split; [exact Hon|by destruct c].
Qed.
End ok.
End V1.
