(* ===== verification/Stm32CrypPortV2.v ===== *)
(** * STM32Sim: the CRYP register file of the STM32U5 as a port

    The invariant of [Stm32Cryp.v2], that no access breaks it or panics, and that it is a
    [CrypPort]: the key and the counter block are written with the words reversed, and the
    [CR] word has another layout. *)

From S2P Require Import Prelude.
From S2P Require Import Crc.
From S2P Require Import McuCrates.
From S2P Require Import Stm32Core.
From S2P Require Import Stm32Cryp.
From S2P Require Import Stm32Gf128.
From S2P Require Import Stm32Engine.
From S2P Require Import Stm32Port.
From S2P Require Import Stm32CrypPortV1.

Import cryp gcm.

Module V2.
Import v2.

Definition core (s : CrypV2) : Core := mkCore (engine s) (v2.gcm s) (gcm_in_buf s) (gcm_in_len s).

(** What replaces the core. *)
Definition put (c : Core) (s : CrypV2) : CrypV2 :=
  with_gcm_in_len (c_len c) (with_gcm_in_buf (c_buf c) (with_gcm (c_gcm c) (with_engine (c_engine c) s))).

Definition words4 (l : list Z) : Prop := len l = 4 /\ Forall u32 l.

(** The parts of the invariant a control write starts from: the flag may be stale. *)
Definition pre (s : CrypV2) : Prop :=
  core_ok (core s) /\ words4 (key_lo s) /\ words4 (key_hi s) /\ words4 (iv_regs s) /\
  u32 (cr s) /\ u32 (ier s) /\ u32 (isr s).

Definition ok (s : CrypV2) : Prop := pre s /\ enabled (engine s) = has (cr s) CR_EN.

Lemma words_down_len l : words4 l -> block (words_down l).
Proof.
  intros [Hl _]. unfold words_down. destruct (words_bytes (reverse l)) as [H1 H2].
  split; [|done]. rewrite H1. unfold len in *. rewrite length_reverse. lia.
Qed.

Lemma expand_key_ok_v2 s : words4 (key_lo s) -> words4 (key_hi s) -> len (expand_key s) = 32 /\ wf (expand_key s).
Proof.
  intros [Hl Hlw]%words_down_len [Hh Hhw]%words_down_len. unfold expand_key.
  destruct (key_size (engine s)); rewrite len_app, ?len_vec_repeat; split; (lia || auto with wfdb).
Qed.

Section ok.
Context {A : AesBlocks} {AO : AesBlocksOk A}.

Lemma new_ok_v2 : ok new.
Proof.
  unfold ok, pre, core_ok, words4. cbn.
  split_and!; auto using default_engine_ok, default_session_ok with stm32;
    try u_solve; try (by left); try (repeat (constructor; [u_solve|]); constructor).
Qed.

(** An engine that only differs in the flag keeps [pre]. *)
Lemma pre_enabled s b : pre s -> pre (with_engine (with_enabled b (engine s)) s).
Proof. unfold pre, core_ok, engine_ok. cbn. tauto. Qed.

Lemma enter_phase_pre s : pre s -> pre (enter_phase s).
Proof.
  intros ((He & Hg & Hb & Hn) & Hrest). unfold enter_phase.
  case_bool_decide; (split; [|exact Hrest]); unfold core_ok; cbn.
  - split_and!; auto. by apply init_ok.
  - by split_and!.
Qed.

(** The engine a commit leaves, before the GCM session is entered. *)
Definition committed (s : CrypV2) : CrypEngine :=
  let size := if has (cr s) CR_KEYSIZE_256 then K256 else K128 in
  let mode_bits := Z.shiftr (Z.land (cr s) CR_MODE_MASK) CR_MODE_SHIFT in
  mkCrypEngine
    (match size with K256 => words_down (key_hi s) ++ words_down (key_lo s)
     | _ => words_down (key_lo s) ++ vec_repeat 0 16 end)
    (expand_iv (iv_regs s)) size (mode_of (chmod (cr s)))
    (if mode_bits =? 0 then Encrypt else Decrypt)
    (from_bits (Z.shiftr (Z.land (cr s) CR_DATATYPE_MASK) CR_DATATYPE_SHIFT)) (enabled (engine s))
    zero16 0 zero16 0 0.

Definition deriving (s : CrypV2) : bool :=
  let mode_bits := Z.shiftr (Z.land (cr s) CR_MODE_MASK) CR_MODE_SHIFT in (mode_bits =? 1) || (mode_bits =? 3).

Lemma commit_config_eq_v2 s : commit_config s =
  let s' := with_gcm_in_len 0 (with_gcm_in_buf zero16
    (with_engine (committed s) (with_key_derivation_active (deriving s) s))) in
  if bool_decide (mode (committed s) = Gcm) then enter_phase s' else s'.
Proof. unfold commit_config, expand_key, committed. cbn. by destruct (has (cr s) CR_KEYSIZE_256). Qed.

Lemma committed_ok_v2 s : pre s -> engine_ok (committed s).
Proof.
  intros (_ & Hl & Hh & Hi & _). apply words_down_len in Hl as [? ?], Hh as [? ?], Hi.
  unfold engine_ok, committed. cbn. split.
  - case_match; rewrite len_app, ?len_vec_repeat; split; (lia || auto with wfdb).
  - split; [done|]. unfold word_pos. split_and!; auto with stm32; lia.
Qed.

Lemma commit_config_pre s : pre s -> pre (commit_config s).
Proof.
  intros Hs. rewrite commit_config_eq_v2. cbv zeta. pose proof (committed_ok_v2 s Hs) as He'.
  revert He'. generalize (committed s). intros e He'. destruct Hs as ((He & Hg & Hb & Hn) & Hrest).
  match goal with |- context [enter_phase ?t] => assert (H1 : pre t) end.
  { split; [|exact Hrest]. split; [exact He'|]. split; [exact Hg|]. split; [apply block_zero|by left]. }
  case_bool_decide; [by apply enter_phase_pre|done].
Qed.

Lemma enter_phase_engine_v2 s : engine (enter_phase s) = engine s.
Proof. unfold enter_phase. by case_bool_decide. Qed.
Lemma enter_phase_cr_v2 s : cr (enter_phase s) = cr s.
Proof. unfold enter_phase. by case_bool_decide. Qed.
Lemma commit_config_cr_v2 s : cr (commit_config s) = cr s.
Proof. rewrite commit_config_eq_v2. cbv zeta. generalize (committed s). intros. case_bool_decide; by rewrite ?enter_phase_cr_v2. Qed.
Lemma commit_engine_v2 s : engine (commit_config s) = committed s.
Proof. rewrite commit_config_eq_v2. cbv zeta. generalize (committed s). intros. case_bool_decide; by rewrite ?enter_phase_engine_v2. Qed.

Lemma commit_rest_v2 s : gcm_in_len (commit_config s) = 0 /\ gcm_in_buf (commit_config s) = zero16 /\
  (mode (committed s) = Gcm -> gcm_phase s = Init -> v2.gcm (commit_config s) = init (v2.gcm s) (committed s)).
Proof.
  rewrite commit_config_eq_v2. cbv zeta. generalize (committed s). intros e.
  case_bool_decide as HG; [|by split_and!]. unfold enter_phase.
  change (gcm_phase _) with (gcm_phase s). case_bool_decide; by split_and!.
Qed.

Lemma reset_pre s : pre s ->
  pre (with_engine (reset_fifos (engine (with_gcm_in_len 0 (with_gcm_in_buf zero16 s))))
    (with_gcm_in_len 0 (with_gcm_in_buf zero16 s))).
Proof.
  intros ((He & Hg & Hb & Hn) & Hrest). split; [|exact Hrest]. split; [by apply reset_fifos_ok|].
  split; [exact Hg|]. split; [apply block_zero|by left].
Qed.

Lemma enable_ok s : pre s -> has (cr s) CR_EN = true -> ok (with_engine (with_enabled true (engine s)) s).
Proof. intros Hp He. split; [by apply pre_enabled|done]. Qed.

Lemma write_cr_ok_v2 s v : ok s -> u32 v -> ok (write_cr s v).
Proof.
  intros [Hp He] Hv. unfold write_cr. cbv zeta.
  assert (Hp1 : pre (with_cr v s)) by (unfold pre in *; cbn; tauto).
  set (s1 := with_cr v s) in *.
  assert (Hen : enabled (engine s1) = has (cr s) CR_EN) by exact He. clearbody s1.
  destruct (has (cr s) CR_EN) eqn:Hw, (has (cr s1) CR_EN) eqn:Hnow; cbn [negb andb].
  - destruct (_ && _).
    + split.
      * by apply reset_pre, enter_phase_pre.
      * cbn [engine cr with_engine with_gcm_in_len with_gcm_in_buf enabled reset_fifos].
        by rewrite enter_phase_engine_v2, enter_phase_cr_v2, Hen, Hnow.
    + destruct (negb _); [|by split; [done|rewrite Hen, Hnow]].
      apply enable_ok; [by apply commit_config_pre|by rewrite commit_config_cr_v2].
  - split; [|done]. destruct (pre_enabled s1 false Hp1) as [H1 H2]. by split.
  - apply enable_ok; [by apply commit_config_pre|by rewrite commit_config_cr_v2].
  - split; [done|by rewrite Hen, Hnow].
Qed.

Lemma write_din_core_v2 s sz v : write s DINR sz v = let! c := core_din (core s) v in Ret (put c s).
Proof.
  destruct s as [cr0 k0 k1 i0 d0 m0 e g buf n kd]. unfold write, core_din, gcm_din.
  change (DINR =? CR) with false. change (DINR =? DINR) with true. cbn -[push_bytes be_bytes].
  destruct (enabled e) eqn:He, (bool_decide (mode e = Gcm)) eqn:Hm; cbn [andb negb orb].
  2-4: by destruct (write_din e v).
  destruct (push_bytes buf n (be_bytes 4 (swap (datatype e) v))) as [[buf' n']|]; [|done].
  cbn. destruct (n' <? 16); [done|]. by destruct (gcm_block g e buf').
Qed.

Lemma read_dout_core_v2 s sz : read s DOUTR sz = let! '(v, c) := core_dout (core s) in Ret (v, put c s).
Proof.
  destruct s as [cr0 k0 k1 i0 d0 m0 e g buf n kd]. unfold read, core_dout.
  change (DOUTR =? CR) with false. change (DOUTR =? SR) with false. change (DOUTR =? DINR) with false.
  change (DOUTR =? DOUTR) with true. cbn. by destruct (read_dout e) as [[v e']|].
Qed.

Lemma put_ok_v2 c s : ok s -> core_ok c -> enabled (c_engine c) = enabled (engine s) -> ok (put c s).
Proof.
  intros [(_ & Hp) He] Hc E. rewrite He in E. destruct c. split; [|exact E]. split; [exact Hc|exact Hp].
Qed.

Lemma store_ok_v2 s sz v : ok s -> u32 v -> wp (write s DINR sz v) ok.
Proof.
  intros Hs Hv. rewrite write_din_core_v2. pose proof (core_din_ok (core s) v) as H.
  destruct (core_din (core s) v) as [c|] eqn:E; [|by apply H; [apply Hs|]].
  apply put_ok_v2; [done|apply H; [apply Hs|done]|]. by apply core_din_enabled in E.
Qed.

Lemma load_ok_v2 s sz : ok s -> wp (read s DOUTR sz) (fun '(v, s) => u32 v /\ ok s).
Proof.
  intros Hs. rewrite read_dout_core_v2. pose proof (core_dout_ok (core s)) as H.
  destruct (core_dout (core s)) as [[v c]|] eqn:E; [|by apply H, Hs].
  destruct H as [Hv Hc]; [apply Hs|]. split; [done|].
  apply put_ok_v2; [done..|]. by apply core_dout_enabled in E.
Qed.

Lemma read_window l i s : words4 l -> ok s -> 0 <= i < 4 ->
  wp (let! v := idx l i in Ret (v, s)) (fun '(v, s) => u32 v /\ ok s).
Proof.
  intros [Hl Hu] Hs Hi. apply wp_bind, wp_idx; [lia|]. intros v Hv.
  split; [exact (Forall_lookup_1 _ _ _ _ Hu Hv)|done].
Qed.

Lemma read_ok_v2 s off sz : ok s -> wp (read s off sz) (fun '(v, s) => u32 v /\ ok s).
Proof.
  intros Hs. pose proof Hs as ((_ & Hl & Hh & Hi & Hcr & Hier & Hisr) & _).
  destruct (Z.eqb_spec off DOUTR) as [->|Hdo]; [by apply load_ok_v2|]. unfold read.
  destruct (off =? CR); [done|]. destruct (off =? SR).
  { split; [|done]. unfold compute_sr. case_match; vm_compute; (split; [discriminate|reflexivity]). }
  destruct (off =? DINR); [by split; [u_solve|]|]. rewrite (proj2 (Z.eqb_neq _ _) Hdo).
  destruct (in_range KEYR0 KEYR_LOW_END off) eqn:R1.
  { unfold in_range, KEYR0, KEYR_LOW_END in *. apply read_window; [done..|dlia]. }
  destruct (in_range IVR0 IVR_END off) eqn:R2.
  { unfold in_range, IVR0, IVR_END in *. apply read_window; [done..|dlia]. }
  destruct (in_range KEYR4 KEYR_HIGH_END off) eqn:R3.
  { unfold in_range, KEYR4, KEYR_HIGH_END in *. apply read_window; [done..|dlia]. }
  destruct (off =? IER); [done|]. destruct (off =? ISR).
  { split; [|done]. unfold compute_isr. case_match; vm_compute; (split; [discriminate|reflexivity]). }
  destruct (in_range SUSP_BASE SUSP_END off); by split; [u_solve|].
Qed.

Lemma words4_insert l i v : words4 l -> u32 v -> words4 (<[i := v]> l).
Proof. intros [Hl Hu] Hv. split; [by rewrite len_insert|by apply Forall_insert]. Qed.

Lemma refresh_key_ok s : ok s -> ok (refresh_key s).
Proof.
  intros [Hp He]. unfold refresh_key. case (enabled (engine s)); [|by split].
  split; [|exact He]. destruct Hp as ((Heng & Hc) & Hp). split; [|exact Hp]. split; [|exact Hc].
  destruct Heng as (_ & Heng). split; [|exact Heng]. apply expand_key_ok_v2; apply Hp.
Qed.

Lemma write_ok_v2 s off sz v : ok s -> u32 v -> wp (write s off sz v) ok.
Proof.
  intros Hs Hv. destruct (Z.eqb_spec off DINR) as [->|Hdi]; [by apply store_ok_v2|].
  pose proof Hs as ((Hc & Hl & Hh & Hi & Hcr & Hier & Hisr) & He). unfold write.
  destruct (off =? CR); [by apply write_cr_ok_v2|]. rewrite (proj2 (Z.eqb_neq _ _) Hdi).
  destruct (in_range KEYR0 KEYR_LOW_END off) eqn:R1.
  { unfold in_range, KEYR0, KEYR_LOW_END in *. apply wp_bind, wp_set_idx; [destruct Hl; dlia|].
    apply refresh_key_ok. split; [|exact He]. split; [exact Hc|].
    split; [by apply words4_insert|]. by split_and!. }
  destruct (in_range IVR0 IVR_END off) eqn:R2.
  { unfold in_range, IVR0, IVR_END in *. apply wp_bind, wp_set_idx; [destruct Hi; dlia|].
    assert (Hi' : words4 (<[Z.to_nat ((off - 32) / 4) := v]> (iv_regs s))) by (by apply words4_insert).
    split; [|exact He]. destruct Hc as ((Hk & _ & Hrest) & Hc). split; [|by split_and!].
    split; [|exact Hc]. split; [exact Hk|]. split; [by apply words_down_len|exact Hrest]. }
  destruct (in_range KEYR4 KEYR_HIGH_END off) eqn:R3.
  { unfold in_range, KEYR4, KEYR_HIGH_END in *. apply wp_bind, wp_set_idx; [destruct Hh; dlia|].
    apply refresh_key_ok. split; [|exact He]. split; [exact Hc|]. split; [done|].
    split; [by apply words4_insert|]. by split_and!. }
  destruct (off =? IER); [by split_and!|]. destruct (off =? ICR).
  { split; [|exact He]. split; [exact Hc|]. do 5 (split; [assumption|]).
    apply u32_land; [exact Hisr|]. unfold not32. apply Z.lxor_nonneg. unfold u32 in Hv. lia. }
  by destruct (in_range SUSP_BASE SUSP_END off).
Qed.
(** *** The driver's view *)

Definition set_key (ks : KeySize) (k : bytes) : list (Z * Z) :=
  match ks with
  | K256 => reg_writes KEYR0 (reverse (words_be 4 (drop 16 k))) ++ reg_writes KEYR4 (reverse (words_be 4 (take 16 k)))
  | _ => reg_writes KEYR0 (reverse (words_be 4 k))
  end.
Definition set_iv (iv : bytes) : list (Z * Z) := reg_writes IVR0 (reverse (words_be 4 iv)).

(** [CR] for a configuration: [EN], [DATATYPE], [MODE], [CHMOD], [GCMPH], [KEYSIZE]. *)
Definition cr_word (c : Config) (ph : GcmPhase) : Z :=
  CR_EN +
  2 * match g_datatype c with Word => 0 | Halfword => 1 | Byte => 2 | Bit => 3 end +
  8 * match g_dir c with Encrypt => 0 | Decrypt => 2 end +
  32 * match g_mode c with Ecb => 0 | Cbc => 1 | Ctr => 2 | Gcm => 3 | KeyDerivation => 0 end +
  8192 * match ph with Init => 0 | Header => 1 | Payload => 2 | Final => 3 end +
  match g_size c with K256 => CR_KEYSIZE_256 | _ => 0 end.

(** The register file has no 192-bit key and no separate key-derivation mode. *)
Definition supports (c : Config) : Prop := g_size c <> K192 /\ g_mode c <> KeyDerivation.

Definition off (s : CrypV2) : Prop := has (cr s) CR_EN = false.
Definition on (s : CrypV2) (cfg : Config) : Prop := exists ph, cr s = cr_word cfg ph.

Lemma cr_word_fields_v2 cfg ph : supports cfg ->
  let w := cr_word cfg ph in
  u32 w /\ has w CR_EN = true /\ Z.land w CR_ALG_BITS = Z.land (cr_word cfg Init) CR_ALG_BITS /\
  (if has w CR_KEYSIZE_256 then K256 else K128) = g_size cfg /\
  from_bits (Z.shiftr (Z.land w CR_DATATYPE_MASK) CR_DATATYPE_SHIFT) = g_datatype cfg /\
  (if Z.shiftr (Z.land w CR_MODE_MASK) CR_MODE_SHIFT =? 0 then Encrypt else Decrypt) = g_dir cfg /\
  mode_of (chmod w) = g_mode cfg /\
  phase_from_bits (Z.shiftr (Z.land w CR_GCMPH_MASK) CR_GCMPH_SHIFT) = ph.
Proof.
  intros [H1 H2]. destruct cfg as [[] [] [] []], ph; try done;
    vm_compute; split_and!; (reflexivity || discriminate).
Qed.

(** Four reversed words in a window of four. *)
Lemma words_down_bytes b : block b -> words4 (reverse (words_be 4 b)) /\ words_down (reverse (words_be 4 b)) = b.
Proof.
  intros [Hl Hw]. destruct (words_be_bytes 4 b) as (E & Hn & Hu); [done|done|]. split.
  - split; [unfold len; rewrite length_reverse; lia|by apply Forall_reverse].
  - unfold words_down. by rewrite reverse_involutive.
Qed.

Lemma inserts_all (ws l : list Z) : words4 ws -> words4 l -> list_inserts 0 ws l = ws.
Proof.
  intros [H1 _] [H2 _]. rewrite <- (app_nil_r ws) at 1. apply list_inserts_0_l. unfold len in *. lia.
Qed.

Lemma load_lo s ws rest : enabled (engine s) = false -> words4 (key_lo s) -> words4 ws ->
  stores s (reg_writes KEYR0 ws ++ rest) = stores (with_key_lo ws s) rest.
Proof.
  intros He Hk Hws. pose proof (inserts_all _ _ Hws Hk) as E. destruct Hk as [Hk _], Hws as [Hw _].
  replace KEYR0 with (KEYR0 + 4 * 0) by done.
  rewrite (stores_window key_lo with_key_lo (fun s => enabled (engine s) = false) KEYR0 4);
    try done; [by change (Z.to_nat 0) with 0%nat; rewrite E| |by intros []|lia].
  intros t j w Ht Hl Hj. cbn. unfold write, KEYR0, KEYR_LOW_END.
  unfold CR, DINR. rewrite !(proj2 (Z.eqb_neq _ _)) by lia.
  replace (in_range 16 28 (16 + 4 * j)) with true by (unfold in_range; lia).
  replace ((16 + 4 * j - 16) / 4) with j by dlia. unfold set_idx. rewrite bool_decide_true by lia.
  cbn [rbind]. unfold refresh_key. cbn [engine with_key_lo]. by rewrite Ht.
Qed.

Lemma load_hi s ws rest : enabled (engine s) = false -> words4 (key_hi s) -> words4 ws ->
  stores s (reg_writes KEYR4 ws ++ rest) = stores (with_key_hi ws s) rest.
Proof.
  intros He Hk Hws. pose proof (inserts_all _ _ Hws Hk) as E. destruct Hk as [Hk _], Hws as [Hw _].
  replace KEYR4 with (KEYR4 + 4 * 0) by done.
  rewrite (stores_window key_hi with_key_hi (fun s => enabled (engine s) = false) KEYR4 4);
    try done; [by change (Z.to_nat 0) with 0%nat; rewrite E| |by intros []|lia].
  intros t j w Ht Hl Hj. cbn. unfold write, KEYR0, KEYR_LOW_END, IVR0, IVR_END, KEYR4, KEYR_HIGH_END.
  unfold CR, DINR. rewrite !(proj2 (Z.eqb_neq _ _)) by lia.
  replace (in_range 16 28 (48 + 4 * j)) with false by (unfold in_range; lia).
  replace (in_range 32 44 (48 + 4 * j)) with false by (unfold in_range; lia).
  replace (in_range 48 60 (48 + 4 * j)) with true by (unfold in_range; lia).
  replace ((48 + 4 * j - 48) / 4) with j by dlia. unfold set_idx. rewrite bool_decide_true by lia.
  cbn [rbind]. unfold refresh_key. cbn [engine with_key_hi]. by rewrite Ht.
Qed.

(** A store to a counter-block register also reaches the engine. *)
Definition set_ivs (l : list Z) (s : CrypV2) : CrypV2 :=
  with_engine (with_iv (expand_iv l) (engine s)) (with_iv_regs l s).

Lemma load_iv_v2 s ws rest : words4 (iv_regs s) -> words4 ws ->
  stores s (reg_writes IVR0 ws ++ rest) = stores (set_ivs ws s) rest.
Proof.
  assert (Hstore : forall t j w, 0 <= j < 4 -> len (iv_regs t) = 4 ->
    p_write t (32 + 4 * j) 4 w = Ret (set_ivs (<[Z.to_nat j := w]> (iv_regs t)) t)).
  { intros t j w Hj Hl. cbn. unfold write, KEYR0, KEYR_LOW_END, IVR0, IVR_END, CR, DINR.
    rewrite !(proj2 (Z.eqb_neq _ _)) by lia.
    replace (in_range 16 28 (32 + 4 * j)) with false by (unfold in_range; lia).
    replace (in_range 32 44 (32 + 4 * j)) with true by (unfold in_range; lia).
    replace ((32 + 4 * j - 32) / 4) with j by dlia. unfold set_idx. by rewrite bool_decide_true by lia. }
  intros [Hi _] [Hw _]. destruct ws as [|a [|b [|c [|d [|]]]]]; try (unfold len in Hw; simpl in Hw; lia).
  destruct (iv_regs s) as [|x [|y [|z [|t [|]]]]] eqn:E; try (unfold len in Hi; simpl in Hi; lia).
  cbn [reg_writes app stores]. change IVR0 with (32 + 4 * 0). rewrite Hstore by (rewrite ?E; done || lia).
  cbn [rbind]. change (32 + 4 * 0 + 4) with (32 + 4 * 1). rewrite Hstore by (try (cbn; rewrite ?E); done || lia).
  cbn [rbind]. change (32 + 4 * 1 + 4) with (32 + 4 * 2). rewrite Hstore by (try (cbn; rewrite ?E); done || lia).
  cbn [rbind]. change (32 + 4 * 2 + 4) with (32 + 4 * 3). rewrite Hstore by (try (cbn; rewrite ?E); done || lia).
  cbn [rbind set_ivs iv_regs with_iv_regs with_engine]. by rewrite E.
Qed.
(** The key a configuration commits from the register contents. *)
Definition key_of (s : CrypV2) (ks : KeySize) : bytes :=
  match ks with
  | K256 => words_down (key_hi s) ++ words_down (key_lo s)
  | _ => words_down (key_lo s) ++ vec_repeat 0 16
  end.

Lemma set_ivs_ok l s : ok s -> words4 l -> ok (set_ivs l s).
Proof.
  intros [(((Hk & _ & Hrest) & Hc) & Hlo & Hhi & _ & Hp) He] Hl. split; [|exact He].
  split; [|exact (conj Hlo (conj Hhi (conj Hl Hp)))]. split; [|exact Hc]. split; [exact Hk|].
  split; [by apply words_down_len|exact Hrest].
Qed.

Lemma with_key_lo_ok l s : ok s -> words4 l -> ok (with_key_lo l s).
Proof. intros [(Hc & _ & Hp) He] Hl. split; [|exact He]. split; [exact Hc|]. by split. Qed.
Lemma with_key_hi_ok l s : ok s -> words4 l -> ok (with_key_hi l s).
Proof. intros [(Hc & Hlo & _ & Hp) He] Hl. split; [|exact He]. split; [exact Hc|]. split; [exact Hlo|]. by split. Qed.

Lemma block_half k : len k = 32 -> wf k -> block (take 16 k) /\ block (drop 16 k).
Proof. intros. split; split; (len_solve || auto with wfdb). Qed.

Lemma load_regs_v2 s ks k iv : ok s -> off s -> ks <> K192 -> len k = key_len ks -> wf k -> block iv ->
  exists s1, ok s1 /\ off s1 /\ (forall rest, stores s (set_key ks k ++ set_iv iv ++ rest) = stores s1 rest) /\
    take (Z.to_nat (key_len ks)) (key_of s1 ks) = k /\ expand_iv (iv_regs s1) = iv.
Proof.
  intros Hs Hoff Hks Hk Hw Hiv.
  destruct (words_down_bytes iv Hiv) as [Hvw Hvd].
  assert (Hen : enabled (engine s) = false) by (destruct Hs as [_ ->]; exact Hoff).
  pose proof Hs as ((_ & Hlo & Hhi & Hir & _) & _). destruct ks; [|done|].
  - destruct (words_down_bytes k) as [Hkw Hkd]; [by split|].
    exists (set_ivs (reverse (words_be 4 iv)) (with_key_lo (reverse (words_be 4 k)) s)).
    split; [by apply set_ivs_ok; [apply with_key_lo_ok|]|]. split; [exact Hoff|]. split.
    { intros rest. unfold set_key, set_iv. rewrite load_lo by done. by rewrite load_iv_v2. }
    split; [|exact Hvd]. unfold key_of. cbn [key_lo set_ivs with_engine with_iv_regs with_key_lo].
    rewrite Hkd, take_app_le, take_ge; cbn [key_len] in *; unfold len in Hk; (done || lia).
  - destruct (block_half k Hk Hw) as [Hb1 Hb2].
    destruct (words_down_bytes _ Hb1) as [Hhw Hhd]. destruct (words_down_bytes _ Hb2) as [Hlw Hld].
    exists (set_ivs (reverse (words_be 4 iv)) (with_key_hi (reverse (words_be 4 (take 16 k)))
      (with_key_lo (reverse (words_be 4 (drop 16 k))) s))).
    split; [by apply set_ivs_ok; [apply with_key_hi_ok; [apply with_key_lo_ok|]|]|].
    split; [exact Hoff|]. split.
    { intros rest. unfold set_key, set_iv. rewrite <- app_assoc, load_lo, load_hi by done. by rewrite load_iv_v2. }
    split; [|exact Hvd]. unfold key_of. cbn [key_hi key_lo set_ivs with_engine with_iv_regs with_key_lo with_key_hi].
    rewrite Hhd, Hld, take_drop, take_ge; cbn [key_len] in *; unfold len in Hk; (done || lia).
Qed.

Definition configured (s : CrypV2) (cfg : Config) : CrypEngine :=
  mkCrypEngine (key_of s (g_size cfg)) (expand_iv (iv_regs s)) (g_size cfg) (g_mode cfg)
    (g_dir cfg) (g_datatype cfg) true zero16 0 zero16 0 0.

Lemma committed_configured_v2 s cfg : supports cfg ->
  with_enabled true (committed (with_cr (cr_word cfg Init) s)) = configured s cfg.
Proof.
  intros Hsup. destruct (cr_word_fields_v2 cfg Init Hsup) as (_ & _ & _ & Hks & Hdt & Hd & Hmd & _).
  unfold committed, configured, with_enabled, key_of. cbn [cr with_cr key_hi key_lo iv_regs engine]. cbv zeta.
  cbn [cryp.key cryp.iv key_size mode direction datatype in_buf in_len out_buf out_pos out_avail].
  by rewrite Hks, Hmd, Hd, Hdt.
Qed.

Lemma enable_eq_v2 s cfg : supports cfg -> off s ->
  let s' := commit_config (with_cr (cr_word cfg Init) s) in
  write_cr s (cr_word cfg Init) = with_engine (with_enabled true (engine s')) s'.
Proof.
  intros Hsup Hoff. destruct (cr_word_fields_v2 cfg Init Hsup) as (_ & He & _). unfold write_cr.
  rewrite Hoff. cbn [cr with_cr]. by rewrite He.
Qed.

Lemma enable_fields_v2 s' : let s := with_engine (with_enabled true (engine s')) s' in
  cr s = cr s' /\ engine s = with_enabled true (engine s') /\ gcm_in_len s = gcm_in_len s' /\
  gcm_in_buf s = gcm_in_buf s' /\ v2.gcm s = v2.gcm s'.
Proof. by split_and!. Qed.

Lemma enable_core_v2 s cfg : supports cfg -> off s ->
  let s' := write_cr s (cr_word cfg Init) in
  cr s' = cr_word cfg Init /\ engine s' = configured s cfg /\ gcm_in_len s' = 0 /\ gcm_in_buf s' = zero16 /\
  (g_mode cfg = Gcm -> v2.gcm s' = init default_session (configured s cfg)).
Proof.
  intros Hsup Hoff. cbv zeta. rewrite enable_eq_v2 by done.
  pose proof (committed_configured_v2 s cfg Hsup) as HE.
  assert (Hp : gcm_phase (with_cr (cr_word cfg Init) s) = Init) by apply (cr_word_fields_v2 cfg Init Hsup).
  assert (Hcr : cr (with_cr (cr_word cfg Init) s) = cr_word cfg Init) by done.
  revert HE Hp Hcr. generalize (with_cr (cr_word cfg Init) s). intros s2 HE Hp Hcr.
  assert (Hm : mode (committed s2) = g_mode cfg) by (apply (f_equal mode) in HE; exact HE).
  destruct (commit_rest_v2 s2) as (H1 & H2 & H3). rewrite Hm in H3.
  pose proof (commit_config_cr_v2 s2) as H4. pose proof (commit_engine_v2 s2) as H5.
  destruct (enable_fields_v2 (commit_config s2)) as (-> & -> & -> & -> & ->).
  rewrite H1, H2, H4, H5, HE. split_and!; [done..|]. intros HG. by rewrite H3, (V1.init_enabled _ _), HE.
Qed.

Lemma start_law_v2 s cfg k iv : ok s -> off s -> supports cfg -> len k = key_len (g_size cfg) -> wf k -> block iv ->
  exists s', stores s (set_key (g_size cfg) k ++ set_iv iv ++ [(CR, cr_word cfg Init)]) = Ret s' /\
    ok s' /\ on s' cfg /\
    exists e, started cfg k iv e /\ c_engine (core s') = e /\ c_len (core s') = 0 /\
      len (c_buf (core s')) = 16 /\ (g_mode cfg = Gcm -> c_gcm (core s') = init default_session e).
Proof.
  intros Hs Hoff Hsup Hk Hw Hiv.
  destruct (load_regs_v2 s (g_size cfg) k iv Hs Hoff (proj1 Hsup) Hk Hw Hiv) as (s1 & Hs1 & Hoff1 & -> & Hkey & Hivs).
  exists (write_cr s1 (cr_word cfg Init)).
  destruct (cr_word_fields_v2 cfg Init Hsup) as (Hu & _).
  destruct (enable_core_v2 s1 cfg Hsup Hoff1) as (Hcr & He & Hn & Hb & Hg).
  split; [done|]. split; [by apply write_cr_ok_v2|]. split; [by exists Init|].
  exists (configured s1 cfg). unfold core. cbn [c_engine c_len c_buf c_gcm]. rewrite Hb. split; [|by split_and!].
  unfold started, configured, aes_key.
  cbn [cryp.key cryp.iv key_size mode direction datatype enabled in_len in_buf].
  rewrite V1.key_bytes_take, Hkey, Hivs. by split_and!.
Qed.

Lemma phase_law_v2 s cfg ph : ok s -> supports cfg -> on s cfg -> ph <> Init -> mode (engine s) = Gcm ->
  exists s', write s CR 4 (cr_word cfg ph) = Ret s' /\ ok s' /\ on s' cfg /\ core s' = in_phase ph (core s).
Proof.
  intros Hs Hsup [ph0 Hcr] Hph Hm.
  destruct (cr_word_fields_v2 cfg ph Hsup) as (Hu & He & Ha & _ & _ & _ & _ & Hp).
  destruct (cr_word_fields_v2 cfg ph0 Hsup) as (_ & He0 & Ha0 & _).
  eexists. split; [reflexivity|]. split; [by apply write_cr_ok_v2|].
  assert (E : write_cr s (cr_word cfg ph) =
    with_engine (reset_fifos (engine s)) (with_gcm_in_len 0 (with_gcm_in_buf zero16
      (with_gcm (with_phase ph (v2.gcm s)) (with_cr (cr_word cfg ph) s))))).
  { unfold write_cr. rewrite Hcr, He0. cbn [cr with_cr]. rewrite He, Ha, Ha0, Z.eqb_refl.
    cbn [negb andb engine with_cr]. rewrite bool_decide_true by done. cbn [andb].
    unfold enter_phase, gcm_phase. cbn [cr with_cr]. rewrite Hp. by rewrite bool_decide_false. }
  rewrite E. split; [by exists ph|done].
Qed.

Lemma stop_law_v2 s cfg : ok s -> supports cfg -> on s cfg -> exists s', write s CR 4 0 = Ret s' /\ ok s' /\ off s'.
Proof.
  intros Hs Hsup [ph Hcr]. eexists. split; [reflexivity|]. split; [apply write_cr_ok_v2; [done|u_solve]|].
  unfold off, write_cr. rewrite Hcr. destruct (cr_word_fields_v2 cfg ph Hsup) as (_ & -> & _). done.
Qed.

#[export] Instance cryp_port_v2 : CrypPort CrypV2 := {|
  port_core := core; port_ok := ok; port_off := off; port_on s cfg := supports cfg /\ on s cfg;
  port_supports := supports;
  port_key := set_key; port_iv := set_iv; port_cr := cr_word; port_cr_off := CR;
  port_din := DINR; port_dout := DOUTR |}.

#[export] Instance cryp_port_v2_ok : CrypPortOk CrypV2 cryp_port_v2.
Proof.
  split.
  - intros s Hs. apply Hs.
  - intros s cfg k iv Hs Hoff Hsup Hk Hw Hiv.
    destruct (start_law_v2 s cfg k iv Hs Hoff Hsup Hk Hw Hiv) as (s' & ? & ? & ? & ?). by exists s'.
  - intros s cfg ph Hs [Hsup Hon] _ Hph Hm.
    destruct (phase_law_v2 s cfg ph Hs Hsup Hon Hph Hm) as (s' & ? & ? & ? & ?). by exists s'.
  - intros s cfg Hs [Hsup Hon]. by eapply stop_law_v2.
  - intros s cfg v c Hs Hon Hv Hc. exists (put c s). change (core_din (core s) v = Ret c) in Hc.
    change (p_write s port_din 4 v) with (write s DINR 4 v). rewrite write_din_core_v2, Hc.
    split; [done|]. pose proof (core_din_ok (core s) v (proj1 (proj1 Hs)) Hv) as H. rewrite Hc in H.
    split; [apply put_ok_v2; [done|exact H|by apply core_din_enabled in Hc]|]. split; [exact Hon|by destruct c].
  - intros s cfg v c Hs Hon Hc. exists (put c s). change (core_dout (core s) = Ret (v, c)) in Hc.
    change (p_read s port_dout 4) with (read s DOUTR 4). rewrite read_dout_core_v2, Hc.
    split; [done|]. pose proof (core_dout_ok (core s) (proj1 (proj1 Hs))) as H. rewrite Hc in H.
    split; [apply put_ok_v2; [done|apply H|by apply core_dout_enabled in Hc]|]. split; [exact Hon|by destruct c].
Qed.
End ok.
End V2.
