(* ===== verification/Stm32HashPort.v ===== *)
(** * STM32Sim: digests and HMAC over the HASH registers

    A driver initialises the peripheral, streams a message as words, reports the bits of
    the last word and reads the digest.  The result is the digest of the message, with
    the HMAC bit the HMAC of RFC 2104; a context saved in between is restored. *)

From S2P Require Import Prelude.
From S2P Require Import Crc.
From S2P Require Import McuCrates.
From S2P Require Import Stm32Core.
From S2P Require Import Stm32Cryp.
From S2P Require Import Stm32Hash.
From S2P Require Import Stm32Gf128.
From S2P Require Import Stm32Engine.
From S2P Require Import Stm32Port.

Import hash.

#[export] Existing Instance v1.peripheral_hash.

(** ** Padding *)

Lemma resize_prefix (l : bytes) n : len l <= n -> take (length l) (resize l n 0) = l.
Proof.
  intros Hn. unfold resize. unfold len in Hn. rewrite (take_ge l) by lia. by rewrite take_app_length.
Qed.

Section engine.
Context {D : DigestCrates} {DO : DigestCratesOk D}.

(** ** The reference

    Each algorithm by the crate that implements it, the extendable-output functions at the
    lengths the peripheral gives them. *)

Definition digest_of (a : Algo) (m : bytes) : bytes :=
  let fixed d := digest_finalize (digest_update (digest_new d) m) in
  let xof d n := xof_read (xof_update (xof_new d) m) n in
  match a with
  | Sha1 => fixed cSha1
  | Md5 => fixed cMd5
  | Sha224 => fixed cSha224
  | Sha256 => fixed cSha256
  | Sha384 => fixed cSha384
  | Sha512 => fixed cSha512
  | Sha512_224 => fixed cSha512_224
  | Sha512_256 => fixed cSha512_256
  | Sha3_224 => fixed cSha3_224
  | Sha3_256 => fixed cSha3_256
  | Sha3_384 => fixed cSha3_384
  | Sha3_512 => fixed cSha3_512
  | Shake128 => xof cShake128 16
  | Shake256 => xof cShake256 32
  end.

(** The block of HMAC: 512 or 1024 bits for MD5, SHA-1 and SHA-2 (FIPS 180-4), and for
    SHA-3 the rate, 200 bytes less twice the security level (FIPS 202). *)
Definition hmac_block (a : Algo) : Z :=
  match a with
  | Md5 | Sha1 | Sha224 | Sha256 => 512 / 8
  | Sha384 | Sha512 | Sha512_224 | Sha512_256 => 1024 / 8
  | Sha3_224 => 200 - 2 * (224 / 8)
  | Sha3_256 | Shake256 => 200 - 2 * (256 / 8)
  | Sha3_384 => 200 - 2 * (384 / 8)
  | Sha3_512 => 200 - 2 * (512 / 8)
  | Shake128 => 200 - 2 * (128 / 8)
  end.

(** The key of RFC 2104: hashed if it is longer than a block, then filled with zeros. *)
Definition padded_key (a : Algo) (k : bytes) : bytes :=
  resize (if hmac_block a <? len k then digest_of a k else k) (hmac_block a) 0.

Definition hmac_of (a : Algo) (k m : bytes) : bytes :=
  digest_of a (((fun b => Z.lxor b 0x5c) <$> padded_key a k) ++
    digest_of a (((fun b => Z.lxor b 0x36) <$> padded_key a k) ++ m)).

Lemma hasher_digest a m : finalize_reset (update (fresh_hasher a) m) = digest_of a m.
Proof. by destruct a. Qed.
Lemma block_size_eq a : block_size a = hmac_block a.
Proof. by destruct a. Qed.

Lemma update_app h a b : update (update h a) b = update h (a ++ b).
Proof. destruct h; cbn; by rewrite ?digest_update_app, ?xof_update_app. Qed.
Lemma update_nil h : update h [] = h.
Proof. destruct h; cbn; by rewrite ?digest_update_nil, ?xof_update_nil. Qed.

Lemma digest_of_len a m : len (digest_of a m) = 4 * output_words a /\ wf (digest_of a m).
Proof.
  unfold digest_of. destruct a; cbv zeta;
    (split; [rewrite ?digest_finalize_len, ?xof_read_len by lia; reflexivity|
             apply digest_finalize_wf || apply xof_read_wf]).
Qed.

(** ** Feeding words *)

(** What a stream of bytes does to the engine. *)
Definition absorb (e : Engine) (data : bytes) : Engine :=
  match hmac_phase e with
  | Key1 => with_bytes_fed (bytes_fed e + len data) (with_hmac_key_buf (hmac_key_buf e ++ data) e)
  | Key2 => with_bytes_fed (bytes_fed e + len data) e
  | Off | Msg =>
      match hasher e with
      | Some h => with_bytes_fed (bytes_fed e + len data) (with_hasher (Some (update h data)) e)
      | None => e
      end
  end.

Lemma absorb_app e a b : absorb (absorb e a) b = absorb e (a ++ b).
Proof.
  unfold absorb. destruct (hmac_phase e) eqn:P; cbn; rewrite ?P;
    try (destruct (hasher e) eqn:H; cbn; rewrite ?P, ?H); rewrite ?update_app, ?len_app, ?app_assoc, ?Z.add_assoc; done.
Qed.

Lemma absorb_nil e : absorb e [] = e.
Proof.
  unfold absorb. change (len []) with 0. rewrite Z.add_0_r, app_nil_r.
  destruct e as [? ? [] ? ? ? ? ? ? [] ? ? ? ? ?]; cbn; by rewrite ?update_nil.
Qed.

Lemma absorb_fields e d : datatype (absorb e d) = datatype e /\ finalised (absorb e d) = finalised e /\
  hmac_phase (absorb e d) = hmac_phase e /\ algo (absorb e d) = algo e.
Proof. unfold absorb. destruct e as [? ? [] ? ? ? ? ? ? [] ? ? ? ? ?]; by split_and!. Qed.

Lemma feed_word_absorb e w n : finalised e = false -> 0 <= n <= 4 ->
  feed_word e w n = absorb e (take (Z.to_nat n) (be_bytes 4 (swapped (datatype e) w))).
Proof.
  intros Hf Hn. unfold feed_word, absorb. rewrite Hf, Z.min_l by lia.
  assert (len (take (Z.to_nat n) (be_bytes 4 (swapped (datatype e) w))) = n) as ->
    by (rewrite len_take, len_be_bytes; lia).
  destruct (hmac_phase e); try reflexivity; by destruct (hasher e).
Qed.

Lemma feed_full e w : finalised e = false -> feed_word e w 4 = absorb e (be_bytes 4 (swapped (datatype e) w)).
Proof. intros Hf. rewrite feed_word_absorb by (done || lia). by rewrite take_ge by (rewrite length_be_bytes; done). Qed.
End engine.

(** ** The driver *)

(** The words of a message: its chunks of four bytes, the last one zero-padded. *)
Definition message_words (dt : cryp.DataType) (m : bytes) : list Z :=
  (fun c => din_word dt (resize c 4 0)) <$> chunks 4 m.

(** [STR] at the end of a message: [DCAL] and the number of valid bits of the last word. *)
Definition str_word (m : bytes) : Z := v1.STR_DCAL + 8 * (len m mod 4).

Section port.
Context {D : DigestCrates} {DO : DigestCratesOk D}.

Definition feed_message (s : v1.HashV1) (dt : cryp.DataType) (m : bytes) : res v1.HashV1 :=
  let! s := pokes s v1.DIN (message_words dt m) in
  v1.write s v1.STR 4 (str_word m).

Fixpoint read_digest (s : v1.HashV1) (off : Z) (n : nat) : res (bytes * v1.HashV1) :=
  match n with
  | O => Ret ([], s)
  | Datatypes.S n =>
      let! '(v, s) := v1.read s off 4 in
      let! '(vs, s) := read_digest s (off + 4) n in
      Ret (be_bytes 4 v ++ vs, s)
  end.

Definition hash_session (s : v1.HashV1) (cr : Z) (a : Algo) (dt : cryp.DataType) (m : bytes)
  : res (bytes * v1.HashV1) :=
  let! s := v1.write s v1.CR 4 cr in
  let! s := feed_message s dt m in
  read_digest s v1.HR_EXT_BASE (Z.to_nat (output_words a)).

(** The key, the message and the key again, each closed by [DCAL]. *)
Definition hmac_session (s : v1.HashV1) (cr : Z) (a : Algo) (dt : cryp.DataType) (k m : bytes)
  : res (bytes * v1.HashV1) :=
  let! s := v1.write s v1.CR 4 cr in
  let! s := feed_message s dt k in
  let! s := feed_message s dt m in
  let! s := feed_message s dt k in
  read_digest s v1.HR_EXT_BASE (Z.to_nat (output_words a)).

(** *** A message through [DIN] and [STR] *)

Definition pending_bytes (s : v1.HashV1) : bytes :=
  match v1.pending s with Some w => be_bytes 4 (swapped (datatype (v1.engine s)) w) | None => [] end.

Lemma write_din_absorb s w : finalised (v1.engine s) = false ->
  v1.write_din s w = v1.with_pending (Some w) (v1.with_engine (absorb (v1.engine s) (pending_bytes s)) s).
Proof.
  intros Hf. unfold v1.write_din, pending_bytes. destruct (v1.pending s) as [prev|].
  - by rewrite feed_full.
  - rewrite absorb_nil. by destruct s.
Qed.

Lemma pokes_din s w ws : pokes s v1.DIN (w :: ws) = pokes (v1.write_din s w) v1.DIN ws.
Proof. reflexivity. Qed.

(** The state while a message streams in: only the engine and the pending word moved. *)
Definition moved (s : v1.HashV1) (e : Engine) (p : option Z) : v1.HashV1 :=
  v1.with_pending p (v1.with_engine e s).

Definition last_bytes (m : bytes) : Z := if len m mod 4 =? 0 then 4 else len m mod 4.

Lemma pokes_message dt m s : finalised (v1.engine s) = false ->
  datatype (v1.engine s) = hash_datatype dt -> wf m -> m <> [] ->
  exists e w, pokes s v1.DIN (message_words dt m) = Ret (moved s e (Some w)) /\
    finalised e = false /\ datatype e = hash_datatype dt /\
    absorb e (take (Z.to_nat (last_bytes m)) (be_bytes 4 (swapped (datatype e) w))) =
    absorb (absorb (v1.engine s) (pending_bytes s)) m.
Proof.
  assert (Hlt : (length m < Datatypes.S (length m))%nat) by lia. revert Hlt.
  generalize (Datatypes.S (length m)). intros n. revert m s.
  induction n as [|n IH]; intros m s Hn Hf Hdt Hw Hm; [lia|].
  unfold message_words. rewrite chunks_step by (done || lia). rewrite fmap_cons, pokes_din, write_din_absorb by done.
  fold (message_words dt (drop (Z.to_nat 4) m)). change (Z.to_nat 4) with 4%nat.
  set (w := din_word dt (resize (sub m 0 4) 4 0)). set (e1 := absorb (v1.engine s) (pending_bytes s)).
  destruct (absorb_fields (v1.engine s) (pending_bytes s)) as (Fd & Ff & _). fold e1 in Fd, Ff.
  assert (Hbw : be_bytes 4 (swapped (datatype e1) w) = resize (sub m 0 4) 4 0).
  { rewrite Fd, Hdt, hash_swapped. apply din_word_bytes; [by rewrite len_resize|].
    apply wf_resize; [by apply wf_sub|u_solve]. }
  destruct (decide (drop 4 m = [])) as [E|E].
  - rewrite E. exists e1, w. split; [done|]. rewrite Ff, Fd. split; [done|]. split; [done|].
    assert (Hl : 1 <= len m <= 4).
    { apply (f_equal len) in E. rewrite len_drop in E. change (len []) with 0 in E.
      destruct m; [done|]. rewrite len_cons in *. pose proof (len_nonneg m). lia. }
    assert (Hlast : last_bytes m = len m) by (unfold last_bytes; destruct (Z.eqb_spec (len m mod 4) 0); dlia).
    rewrite <- Fd, Hbw, Hlast, sub_full by lia.
    replace (Z.to_nat (len m)) with (length m) by (unfold len; lia). by rewrite resize_prefix by lia.
  - destruct (IH (drop 4 m) (v1.with_pending (Some w) (v1.with_engine e1 s))) as (e & w' & Hp & Hf' & Hdt' & Ha).
    + rewrite length_drop. destruct m; [done|]. simpl in *. lia.
    + cbn. by rewrite Ff.
    + cbn. by rewrite Fd.
    + by apply wf_drop.
    + done.
    + exists e, w'. rewrite Hp. split; [done|]. split; [done|]. split; [done|].
      assert (Hl : 4 < len m).
      { assert (Hd : drop 4 m <> []) by done. unfold len. destruct (decide (4 < length m)%nat); [lia|].
        rewrite drop_ge in Hd by lia. done. }
      assert (last_bytes m = last_bytes (drop 4 m)) as ->.
      { unfold last_bytes. rewrite len_drop. replace (Z.max 0 (len m - Z.of_nat 4)) with (len m + (-1) * 4) by lia.
        by rewrite Z_mod_plus_full. }
      rewrite Ha. cbn [v1.engine v1.pending v1.with_pending v1.with_engine].
      assert (pending_bytes (v1.with_pending (Some w) (v1.with_engine e1 s)) = sub m 0 4) as ->.
      { unfold pending_bytes. cbn [v1.engine v1.pending v1.with_pending v1.with_engine]. rewrite Hbw.
        unfold resize. rewrite sub_0_take by lia. change (Z.to_nat 4) with 4%nat.
        rewrite take_take, Nat.min_id, length_take. unfold len in Hl. replace (4 - 4 `min` length m)%nat with 0%nat by lia.
        by rewrite app_nil_r. }
      rewrite absorb_app. f_equal. rewrite sub_0_take by lia. apply take_drop.
Qed.
(** *** The end of a message *)

Definition closed (s : v1.HashV1) (v : Z) (e : Engine) : v1.HashV1 :=
  v1.mkHashV1 (v1.layout s) (v1.cr s) (Z.land v (not32 v1.STR_DCAL)) (v1.imr s)
    (Z.lor v1.SR_DCIS v1.SR_DINIS) (v1.sha3cfgr s) None (vec_repeat 0 54) (v1.saved_pending s) false e.

Lemma write_str_closed s v : has (v1.str_reg s) v1.STR_DCAL = false -> has v v1.STR_DCAL = true ->
  v1.write_str s v = closed s v (finalize
    match v1.pending s with
    | Some w => feed_word (v1.engine s) w (v1.valid_bytes (Z.land v v1.STR_NBLW_MASK))
    | None => v1.engine s
    end).
Proof. intros H1 H2. unfold v1.write_str. rewrite H1, H2. destruct s as [? ? ? ? ? ? []]; reflexivity. Qed.

Lemma str_word_fields m : has (str_word m) v1.STR_DCAL = true /\
  v1.valid_bytes (Z.land (str_word m) v1.STR_NBLW_MASK) = last_bytes m /\
  has (Z.land (str_word m) (not32 v1.STR_DCAL)) v1.STR_DCAL = false.
Proof.
  unfold str_word, last_bytes. assert (0 <= len m mod 4 < 4) as Hr by (apply Z.mod_pos_bound; lia).
  generalize dependent (len m mod 4). intros r Hr.
  assert (r = 0 \/ r = 1 \/ r = 2 \/ r = 3) as [-> | [-> | [-> | ->]]] by lia; by vm_compute.
Qed.

Definition quiet (s : v1.HashV1) : Prop :=
  has (v1.str_reg s) v1.STR_DCAL = false /\ v1.str_written_since_cr s = false /\ len (v1.csr s) = 54.

Lemma feed_message_runs dt m s : finalised (v1.engine s) = false ->
  datatype (v1.engine s) = hash_datatype dt -> wf m -> has (v1.str_reg s) v1.STR_DCAL = false ->
  feed_message s dt m =
    Ret (closed s (str_word m) (finalize (absorb (absorb (v1.engine s) (pending_bytes s)) m))).
Proof.
  intros Hf Hdt Hw Hstr. unfold feed_message. destruct (str_word_fields m) as (H1 & H2 & _).
  destruct (decide (m = [])) as [->|Hm].
  - cbn [message_words chunks chunks_fuel length fmap list_fmap pokes rbind].
    change (v1.write s v1.STR 4 (str_word [])) with (Ret (v1.write_str s (str_word []))).
    rewrite write_str_closed by done. rewrite H2, absorb_nil. unfold pending_bytes.
    destruct (v1.pending s) as [w|]; [|by rewrite absorb_nil].
    change (last_bytes []) with 4. by rewrite feed_full.
  - destruct (pokes_message dt m s Hf Hdt Hw Hm) as (e & w & -> & Hf' & Hdt' & Ha). cbn [rbind].
    change (v1.write ?a v1.STR 4 ?b) with (Ret (v1.write_str a b)).
    rewrite write_str_closed by done. rewrite H2. cbn [v1.pending v1.engine moved v1.with_pending v1.with_engine].
    rewrite feed_word_absorb, Ha; [reflexivity|done|].
    unfold last_bytes. assert (0 <= len m mod 4 < 4) by (apply Z.mod_pos_bound; lia). destruct (_ =? 0); lia.
Qed.

(** *** Reading the digest *)

Definition staged (e : Engine) (d : bytes) : Prop :=
  finalised e = true /\ len (result e) = 16 /\
  forall i, 0 <= i -> 4 * i < len d -> result e !! Z.to_nat i = Some (be_val (sub d (4 * i) (4 * i + 4))).

Lemma read_hr_ext s i d : staged (v1.engine s) d -> 0 <= i -> 4 * i < len d -> i < 16 ->
  v1.read s (v1.HR_EXT_BASE + 4 * i) 4 = Ret (be_val (sub d (4 * i) (4 * i + 4)), s).
Proof.
  intros (Hf & Hl & Hr) Hi Hd H16. unfold v1.read.
  unfold v1.CR, v1.STR, v1.IMR, v1.SR, v1.SHA3CFGR, v1.HR_LEGACY_BASE, v1.HR_LEGACY_END, v1.HR_EXT_BASE, v1.HR_EXT_END.
  rewrite !(proj2 (Z.eqb_neq _ _)) by lia.
  replace (in_range 12 28 (784 + 4 * i)) with false by (unfold in_range; lia).
  replace (in_range 784 844 (784 + 4 * i)) with true by (unfold in_range; lia).
  replace ((784 + 4 * i - 784) / 4) with i by dlia. unfold v1.read_hr. rewrite Hf, Hl.
  replace (i <? 16) with true by lia. cbn [andb]. rewrite (idx_ret _ _ _ Hi (Hr i Hi Hd)). done.
Qed.

Lemma read_digest_ext s d i n : staged (v1.engine s) d -> wf d -> 0 <= i -> 4 * (i + Z.of_nat n) <= len d ->
  i + Z.of_nat n <= 16 ->
  read_digest s (v1.HR_EXT_BASE + 4 * i) n = Ret (sub d (4 * i) (4 * (i + Z.of_nat n)), s).
Proof.
  intros Hs Hw Hi. revert i Hi. induction n as [|n IH]; intros i Hi Hn H16; cbn [read_digest].
  - replace (4 * (i + Z.of_nat 0)) with (4 * i) by lia. unfold sub. rewrite Z.sub_diag. done.
  - rewrite (read_hr_ext s i d) by (done || lia). cbn [rbind].
    replace (v1.HR_EXT_BASE + 4 * i + 4) with (v1.HR_EXT_BASE + 4 * (i + 1)) by lia.
    rewrite IH by lia. cbn [rbind]. do 2 f_equal.
    rewrite be_bytes_be_val; [|auto with wfdb|].
    2: { pose proof (len_sub d (4 * i) (4 * i + 4)). unfold len in *. lia. }
    unfold sub. replace (4 * i + 4 - 4 * i) with 4 by lia.
    replace (4 * (i + Z.of_nat (Datatypes.S n)) - 4 * i) with (4 + 4 * Z.of_nat n) by lia.
    replace (4 * (i + 1 + Z.of_nat n) - 4 * (i + 1)) with (4 * Z.of_nat n) by lia.
    rewrite (Z2Nat.inj_add 4) by lia.
    replace (Z.to_nat (4 * (i + 1))) with (Z.to_nat (4 * i) + Z.to_nat 4)%nat by lia.
    rewrite <- drop_drop. apply take_take_drop.
Qed.

Lemma chunks_lookup (d : bytes) i : 0 <= i -> 4 * i < len d ->
  chunks 4 d !! Z.to_nat i = Some (sub d (4 * i) (4 * i + 4)).
Proof.
  intros Hi. replace i with (Z.of_nat (Z.to_nat i)) at 1 3 4 by lia. clear Hi.
  generalize (Z.to_nat i). clear i. intros i. revert d. induction i as [|i IH]; intros d Hl.
  - rewrite chunks_step by (lia || by intros ->). done.
  - rewrite chunks_step by (lia || (intros ->; change (len []) with 0 in Hl; lia)). cbn [lookup list_lookup].
    rewrite IH by len_solve. unfold sub. rewrite drop_drop.
    do 2 f_equal; [lia|]. f_equal. lia.
Qed.

Lemma len_chunks4 (d : bytes) : len (chunks 4 d) = (len d + 3) / 4.
Proof.
  assert (Hlt : (length d < Datatypes.S (length d))%nat) by lia. revert Hlt.
  generalize (Datatypes.S (length d)). intros n. revert d. induction n as [|n IH]; intros d Hn; [lia|].
  destruct (decide (d = [])) as [->|Hd]; [done|]. rewrite chunks_step by (done || lia).
  assert (0 < len d) by (destruct d; [done|rewrite len_cons; pose proof (len_nonneg d); lia]).
  rewrite len_cons, IH by (rewrite length_drop; unfold len in *; lia). rewrite len_drop.
  destruct (decide (len d <= 4)).
  - replace (Z.max 0 (len d - Z.of_nat (Z.to_nat 4))) with 0 by lia. dlia.
  - replace (Z.max 0 (len d - Z.of_nat (Z.to_nat 4))) with (len d - 4) by lia. dlia.
Qed.

Lemma stage_digest_staged e d : len (result e) = 16 -> len d mod 4 = 0 -> len d <= 64 ->
  staged (with_finalised true (stage_digest e d)) d.
Proof.
  intros Hl Hm H64. unfold staged, stage_digest. cbn [finalised result with_finalised with_result].
  split; [done|]. pose proof (len_chunks4 d) as Hc.
  assert (Hc16 : len (chunks 4 d) <= 16) by dlia.
  rewrite (take_ge (be_word <$> chunks 4 d)) by (rewrite length_fmap; unfold len in Hc16; lia). split.
  - rewrite len_app, len_drop, len_fmap, Hl, length_fmap. unfold len in *. lia.
  - intros i Hi Hd. rewrite lookup_app_l by (rewrite length_fmap; unfold len in *; dlia).
    rewrite list_lookup_fmap, chunks_lookup by done. cbn. f_equal. unfold be_word. f_equal.
    unfold resize. assert (Hs : length (sub d (4 * i) (4 * i + 4)) = 4%nat).
    { pose proof (len_sub d (4 * i) (4 * i + 4)) as Hs. unfold len in Hs, Hd, Hm. dlia. }
    rewrite Hs. change (Z.to_nat 4 - 4)%nat with 0%nat. cbn [replicate]. rewrite app_nil_r.
    by rewrite take_ge by (rewrite Hs; done).
Qed.

(** *** Sessions *)

(** The words of [CR] that select an algorithm, per layout. *)
Definition algo_bits (l : v1.AlgoLayout) (a : Algo) : option Z :=
  match l with
  | v1.Mp13 =>
      Some (Z.shiftl match a with
        | Sha1 => 0 | Md5 => 1 | Sha224 => 2 | Sha256 => 3 | Sha3_224 => 4 | Sha3_256 => 5
        | Sha3_384 => 6 | Sha3_512 => 7 | Shake128 => 8 | Shake256 => 9 | Sha384 => 12
        | Sha512_224 => 13 | Sha512_256 => 14 | Sha512 => 15 end 17)
  | _ =>
      let lo := Z.shiftl 1 match l with v1.H7 => 7 | _ => 17 end in
      let hi := Z.shiftl 1 18 in
      match a with
      | Sha1 => Some 0 | Md5 => Some lo | Sha224 => Some hi | Sha256 => Some (hi + lo) | _ => None
      end
  end.

Definition cr_word (bits : Z) (dt : cryp.DataType) (hmac : bool) : Z :=
  bits + v1.CR_INIT + (if hmac then v1.CR_MODE_HMAC else 0) +
  16 * match dt with cryp.Word => 0 | cryp.Halfword => 1 | cryp.Byte => 2 | cryp.Bit => 3 end.

Lemma init_runs s a bits dt hmac : algo_bits (v1.layout s) a = Some bits ->
  v1.str_written_since_cr s = false ->
  exists s', v1.write s v1.CR 4 (cr_word bits dt hmac) = Ret s' /\
    v1.engine s' = init_with_mode (v1.engine s) a (hash_datatype dt) hmac /\ v1.pending s' = None /\
    v1.str_reg s' = v1.str_reg s /\ v1.layout s' = v1.layout s /\ v1.csr s' = v1.csr s /\
    v1.cr s' = Z.land (cr_word bits dt hmac) (not32 v1.CR_INIT) /\ v1.str_written_since_cr s' = false.
Proof.
  intros Ha Hs. destruct s as [l cr str imr sr sh pend csr sp w e]. cbn in Ha, Hs. subst w.
  eexists. split; [reflexivity|].
  destruct l, a; cbn in Ha; (discriminate || (injection Ha as <-)); destruct dt, hmac; by split_and!.
Qed.
(** A plain hash in progress that has taken in [m]. *)
Definition hashing (s : v1.HashV1) (a : Algo) (dt : cryp.DataType) (m : bytes) : Prop :=
  let e := v1.engine s in
  has (v1.str_reg s) v1.STR_DCAL = false /\ len (v1.csr s) = 54 /\ finalised e = false /\
  datatype e = hash_datatype dt /\ hmac_phase e = Off /\ len (result e) = 16 /\
  hasher (absorb e (pending_bytes s)) = Some (update (fresh_hasher a) m).

Lemma absorb_result e d : len (result (absorb e d)) = len (result e).
Proof. unfold absorb. by destruct e as [? ? [] ? ? ? ? ? ? [] ? ? ? ? ?]. Qed.

Lemma absorb_saved e d : saved_hasher (absorb e d) = saved_hasher e.
Proof. unfold absorb. by destruct e as [? ? [] ? ? ? ? ? ? [] ? ? ? ? ?]. Qed.

Lemma absorb_hasher e a m d : hmac_phase e = Off \/ hmac_phase e = Msg ->
  hasher e = Some (update (fresh_hasher a) m) -> hasher (absorb e d) = Some (update (fresh_hasher a) (m ++ d)).
Proof. unfold absorb. intros [-> | ->] H; rewrite H; cbn; by rewrite update_app. Qed.

Lemma hashing_init s s' a dt : has (v1.str_reg s) v1.STR_DCAL = false -> v1.str_reg s' = v1.str_reg s ->
  v1.engine s' = init_with_mode (v1.engine s) a (hash_datatype dt) false -> v1.pending s' = None ->
  len (v1.csr s') = 54 -> hashing s' a dt [].
Proof.
  intros Hstr Hr He Hp Hc. unfold hashing, pending_bytes. rewrite He, Hp, absorb_nil, Hr, update_nil. by split_and!.
Qed.

Lemma hashing_absorb_fields s a dt m d : hashing s a dt m ->
  let e := absorb (absorb (v1.engine s) (pending_bytes s)) d in
  finalised e = false /\ hmac_phase e = Off /\ len (result e) = 16 /\
  hasher e = Some (update (fresh_hasher a) (m ++ d)).
Proof.
  intros (_ & _ & Hf & Hdt & Hp & Hl & Hh). cbv zeta.
  set (e0 := absorb (v1.engine s) (pending_bytes s)) in *.
  destruct (absorb_fields (v1.engine s) (pending_bytes s)) as (_ & F1 & F2 & _). fold e0 in F1, F2.
  destruct (absorb_fields e0 d) as (_ & -> & -> & _). rewrite absorb_result, F1, F2.
  split_and!; [done..|unfold e0; by rewrite absorb_result|]. apply absorb_hasher; [left; by rewrite F2|done].
Qed.

(** Whole words keep the hash in progress. *)
Lemma hashing_words s a dt m m' : hashing s a dt m -> wf m' -> len m' mod 4 = 0 ->
  exists s', pokes s v1.DIN (message_words dt m') = Ret s' /\ hashing s' a dt (m ++ m') /\
    v1.str_reg s' = v1.str_reg s /\ v1.cr s' = v1.cr s /\ v1.layout s' = v1.layout s /\
    v1.str_written_since_cr s' = v1.str_written_since_cr s.
Proof.
  intros Hs Hw Hm. destruct (decide (m' = [])) as [->|Hne].
  { exists s. rewrite app_nil_r. by split_and!. }
  pose proof (hashing_absorb_fields s a dt m m' Hs) as (Hf & Hp & Hl & Hh).
  destruct Hs as (Hstr & Hcsr & Hf0 & Hdt0 & _).
  destruct (pokes_message dt m' s Hf0 Hdt0 Hw Hne) as (e & w & E & Hf' & Hdt' & Ha).
  exists (moved s e (Some w)). split; [exact E|]. split; [|done].
  assert (Hlast : last_bytes m' = 4) by (unfold last_bytes; by rewrite Hm). rewrite Hlast in Ha.
  rewrite (take_ge (be_bytes 4 _)) in Ha by (rewrite length_be_bytes; done).
  set (pb := be_bytes 4 (swapped (datatype e) w)) in *.
  destruct (absorb_fields e pb) as (_ & F1 & F2 & _). pose proof (absorb_result e pb) as F3.
  rewrite Ha in F1, F2, F3. rewrite Hp in F2. rewrite Hl in F3.
  unfold hashing, pending_bytes. cbn [v1.engine v1.pending v1.str_reg moved v1.with_pending v1.with_engine].
  fold pb. rewrite Ha. by split_and!.
Qed.

Lemma hashing_finish s a dt m m' : hashing s a dt m -> wf m' ->
  exists e, feed_message s dt m' = Ret (closed s (str_word m') (with_finalised true (stage_digest e (digest_of a (m ++ m'))))) /\
    len (result e) = 16 /\ e = absorb (absorb (v1.engine s) (pending_bytes s)) m'.
Proof.
  intros Hs Hw. pose proof (hashing_absorb_fields s a dt m m' Hs) as (Hf & Hp & Hl & Hh).
  destruct Hs as (Hstr & Hcsr & Hf0 & Hdt0 & _). rewrite (feed_message_runs dt m' s Hf0 Hdt0 Hw Hstr).
  set (e := absorb _ m') in *. exists e. split; [|done]. unfold finalize, finalize_plain. by rewrite Hf, Hp, Hh, hasher_digest.
Qed.

Lemma digest_staged e a m : len (result e) = 16 ->
  staged (with_finalised true (stage_digest e (digest_of a m))) (digest_of a m).
Proof.
  intros Hl. destruct (digest_of_len a m) as [Hd _].
  apply stage_digest_staged; [done| |]; rewrite Hd; [|destruct a; cbn; lia].
  rewrite Z.mul_comm. apply Z.mod_mul. lia.
Qed.

Lemma read_staged s a d : staged (v1.engine s) d -> len d = 4 * output_words a -> wf d ->
  read_digest s v1.HR_EXT_BASE (Z.to_nat (output_words a)) = Ret (d, s).
Proof.
  intros Hs Hd Hw. assert (0 <= output_words a <= 16) by (destruct a; cbn; lia).
  replace v1.HR_EXT_BASE with (v1.HR_EXT_BASE + 4 * 0) by done.
  rewrite (read_digest_ext s d 0) by (done || lia). rewrite sub_0_take by lia.
  rewrite take_ge by (unfold len in Hd; lia). done.
Qed.

Lemma read_closed s v e a m : len (result e) = 16 ->
  let s' := closed s v (with_finalised true (stage_digest e (digest_of a m))) in
  read_digest s' v1.HR_EXT_BASE (Z.to_nat (output_words a)) = Ret (digest_of a m, s').
Proof. intros. apply read_staged; [by apply digest_staged|apply digest_of_len..]. Qed.

Lemma closed_quiet s m e : quiet (closed s (str_word m) e).
Proof. split; [apply str_word_fields|by split]. Qed.

Lemma hash_session_runs s bits a dt m : quiet s -> algo_bits (v1.layout s) a = Some bits -> wf m ->
  exists s', hash_session s (cr_word bits dt false) a dt m = Ret (digest_of a m, s') /\
    quiet s' /\ v1.layout s' = v1.layout s /\ saved_hasher (v1.engine s') = None.
Proof.
  intros (Hq1 & Hq2 & Hq3) Ha Hw. unfold hash_session.
  destruct (init_runs s a bits dt false Ha Hq2) as (s1 & -> & He & Hp & Hr & Hlay & Hcsr & Hcr & Hwr). cbn [rbind].
  rewrite <- Hcsr in Hq3. pose proof (hashing_init s s1 a dt Hq1 Hr He Hp Hq3) as Hh.
  destruct (hashing_finish s1 a dt [] m Hh Hw) as (e & -> & Hl & Ee). cbn [rbind app].
  rewrite read_closed by done.
  eexists. split; [reflexivity|]. split; [apply closed_quiet|]. split; [exact Hlay|].
  change (saved_hasher e = None). by rewrite Ee, !absorb_saved, He.
Qed.
(** *** HMAC *)

Lemma key1_finish e k : hmac_phase e = Key1 -> finalised e = false -> hmac_key_buf e = [] ->
  let e' := finalize (absorb e k) in
  hmac_phase e' = Msg /\ finalised e' = false /\ algo e' = algo e /\ datatype e' = datatype e /\
  result e' = result e /\
  hasher e' = Some (update (fresh_hasher (algo e)) ((fun b => Z.lxor b 0x36) <$> padded_key (algo e) k)) /\
  hmac_outer e' = Some (update (fresh_hasher (algo e)) ((fun b => Z.lxor b 0x5c) <$> padded_key (algo e) k)).
Proof.
  intros Hp Hf Hk. unfold absorb. rewrite Hp. unfold finalize. cbn [finalised hmac_phase with_bytes_fed with_hmac_key_buf].
  rewrite Hf, Hp. unfold hmac_finish_key1, padded_key.
  cbn [algo hmac_key_buf with_bytes_fed with_hmac_key_buf]. rewrite Hk, block_size_eq, hasher_digest. cbn [app].
  destruct (hmac_block (algo e) <? len k); by split_and!.
Qed.

Lemma msg_finish e m h o : hmac_phase e = Msg -> finalised e = false -> hasher e = Some h ->
  hmac_outer e = Some o ->
  let e' := finalize (absorb e m) in
  hmac_phase e' = Key2 /\ finalised e' = false /\ datatype e' = datatype e /\ result e' = result e /\
  hasher e' = Some (update o (finalize_reset (update h m))).
Proof.
  intros Hp Hf Hh Ho. unfold absorb. rewrite Hp, Hh. unfold finalize.
  cbn [finalised hmac_phase with_bytes_fed with_hasher]. rewrite Hf, Hp. unfold hmac_finish_msg.
  cbn [hasher with_bytes_fed with_hasher hmac_outer]. rewrite Ho. by split_and!.
Qed.

Lemma key2_finish e k h : hmac_phase e = Key2 -> finalised e = false -> hasher e = Some h ->
  finalize (absorb e k) = with_hmac_phase Off (with_finalised true
    (stage_digest (with_bytes_fed (bytes_fed e + len k) e) (finalize_reset h))).
Proof.
  intros Hp Hf Hh. unfold absorb. rewrite Hp. unfold finalize. cbn [finalised hmac_phase with_bytes_fed].
  rewrite Hf, Hp. unfold hmac_finish_key2. cbn [hasher with_bytes_fed]. by rewrite Hh.
Qed.

Lemma hmac_session_runs s bits a dt k m : quiet s -> algo_bits (v1.layout s) a = Some bits -> wf k -> wf m ->
  exists s', hmac_session s (cr_word bits dt true) a dt k m = Ret (hmac_of a k m, s') /\
    quiet s' /\ v1.layout s' = v1.layout s.
Proof.
  intros (Hq1 & Hq2 & Hq3) Ha Hk Hm. unfold hmac_session.
  destruct (init_runs s a bits dt true Ha Hq2) as (s1 & -> & He & Hp & Hr & Hlay & Hcsr & Hcr & Hwr). cbn [rbind].
  assert (Hp1 : pending_bytes s1 = []) by (unfold pending_bytes; by rewrite Hp).
  rewrite feed_message_runs by (rewrite ?He, ?Hr; done). cbn [rbind]. rewrite Hp1, absorb_nil.
  destruct (key1_finish (v1.engine s1) k) as (K1 & K2 & K3 & K4 & K5 & K6 & K7); [by rewrite He..|].
  set (e1 := finalize (absorb (v1.engine s1) k)) in *. set (s2 := closed s1 (str_word k) e1).
  assert (Hs2 : has (v1.str_reg s2) v1.STR_DCAL = false) by apply closed_quiet.
  rewrite feed_message_runs by (done || (change (v1.engine s2) with e1; by rewrite K4, He)). cbn [rbind].
  change (pending_bytes s2) with (@nil Z). change (v1.engine s2) with e1. rewrite absorb_nil.
  destruct (msg_finish e1 m _ _ K1 K2 K6 K7) as (M1 & M2 & M3 & M4 & M5).
  set (e2 := finalize (absorb e1 m)) in *. set (s3 := closed s2 (str_word m) e2).
  assert (Hs3 : has (v1.str_reg s3) v1.STR_DCAL = false) by apply closed_quiet.
  rewrite feed_message_runs by (done || (change (v1.engine s3) with e2; by rewrite M3, K4, He)). cbn [rbind].
  change (pending_bytes s3) with (@nil Z). change (v1.engine s3) with e2. rewrite absorb_nil.
  rewrite (key2_finish e2 k _ M1 M2 M5). rewrite !update_app, He. cbn [algo init_with_mode]. rewrite !hasher_digest.
  assert (Hlen : len (result e2) = 16) by (rewrite M4, K5, He; done).
  rewrite (read_staged _ a (hmac_of a k m)); [|by apply (digest_staged (with_bytes_fed _ e2))|apply digest_of_len..].
  eexists. split; [reflexivity|]. split; [apply closed_quiet|exact Hlay].
Qed.
(** *** Saving and restoring a context *)

Fixpoint load_words (s : v1.HashV1) (off : Z) (n : nat) : res (list Z * v1.HashV1) :=
  match n with
  | O => Ret ([], s)
  | Datatypes.S n =>
      let! '(v, s) := v1.read s off 4 in
      let! '(vs, s) := load_words s (off + 4) n in
      Ret (v :: vs, s)
  end.

Fixpoint store_words (s : v1.HashV1) (off : Z) (ws : list Z) : res v1.HashV1 :=
  match ws with
  | [] => Ret s
  | w :: ws => let! s := v1.write s off 4 w in store_words s (off + 4) ws
  end.

Record Context := mkContext { x_imr : Z; x_str : Z; x_cr : Z; x_csr : list Z }.

Definition save_context (s : v1.HashV1) : res (Context * v1.HashV1) :=
  let! '(imr, s) := v1.read s v1.IMR 4 in
  let! '(str, s) := v1.read s v1.STR 4 in
  let! '(cr, s) := v1.read s v1.CR 4 in
  let! '(csr, s) := load_words s v1.CSR_BASE 54 in
  Ret (mkContext imr str cr csr, s).

Definition restore_context (s : v1.HashV1) (x : Context) : res v1.HashV1 :=
  let! s := v1.write s v1.IMR 4 (x_imr x) in
  let! s := v1.write s v1.STR 4 (x_str x) in
  let! s := v1.write s v1.CR 4 (Z.lor (x_cr x) v1.CR_INIT) in
  store_words s v1.CSR_BASE (x_csr x).

(** The digest of what was hashed so far and [m1], then, from the saved context, of [m2]. *)
Definition resumed_session (s : v1.HashV1) (cr : Z) (a : Algo) (dt : cryp.DataType) (m m1 m2 : bytes)
  : res (bytes * bytes * v1.HashV1) :=
  let n := Z.to_nat (output_words a) in
  let! s := v1.write s v1.CR 4 cr in
  let! s := pokes s v1.DIN (message_words dt m) in
  let! '(x, s) := save_context s in
  let! s := feed_message s dt m1 in
  let! '(d1, s) := read_digest s v1.HR_EXT_BASE n in
  let! s := restore_context s x in
  let! s := feed_message s dt m2 in
  let! '(d2, s) := read_digest s v1.HR_EXT_BASE n in
  Ret (d1, d2, s).

Definition snapped (s : v1.HashV1) : v1.HashV1 :=
  v1.with_saved_pending (v1.pending s) (v1.with_engine (capture_snapshot (v1.engine s)) s).

Lemma load_words_S s off n : load_words s off (Datatypes.S n) =
  let! '(v, s) := v1.read s off 4 in let! '(vs, s) := load_words s (off + 4) n in Ret (v :: vs, s).
Proof. reflexivity. Qed.

Lemma load_csr s i n : len (v1.csr s) = 54 -> 0 < i -> i + Z.of_nat n <= 54 ->
  exists ws, load_words s (v1.CSR_BASE + 4 * i) n = Ret (ws, s) /\ len ws = Z.of_nat n.
Proof.
  intros Hl. revert i. induction n as [|n IH]; intros i Hi Hn; cbn [load_words]; [by exists []|].
  destruct (lookup_lt_is_Some_2 (v1.csr s) (Z.to_nat i)) as [v Hv]; [unfold len in Hl; lia|].
  assert (E : v1.read s (v1.CSR_BASE + 4 * i) 4 = Ret (v, s)).
  { unfold v1.read, v1.CR, v1.STR, v1.IMR, v1.SR, v1.SHA3CFGR, v1.HR_LEGACY_BASE, v1.HR_LEGACY_END,
      v1.HR_EXT_BASE, v1.HR_EXT_END, v1.CSR_BASE, v1.CSR_END.
    rewrite !(proj2 (Z.eqb_neq (248 + 4 * i) _)) by lia.
    replace (in_range 12 28 (248 + 4 * i)) with false by (unfold in_range; lia).
    replace (in_range 784 844 (248 + 4 * i)) with false by (unfold in_range; lia).
    replace (in_range 248 460 (248 + 4 * i)) with true by (unfold in_range; lia).
    replace ((248 + 4 * i - 248) / 4) with i by dlia. rewrite (proj2 (Z.eqb_neq _ _)) by lia.
    by rewrite (idx_ret _ _ v) by (done || lia). }
  rewrite E. cbn [rbind]. replace (v1.CSR_BASE + 4 * i + 4) with (v1.CSR_BASE + 4 * (i + 1)) by lia.
  destruct (IH (i + 1)) as (ws & -> & Hw); [lia..|]. exists (v :: ws). split; [done|]. rewrite len_cons. lia.
Qed.

Lemma store_csr s i ws : len (v1.csr s) = 54 -> 0 <= i -> i + len ws <= 54 ->
  exists csr, store_words s (v1.CSR_BASE + 4 * i) ws = Ret (v1.with_csr csr s) /\ len csr = 54.
Proof.
  revert s i. induction ws as [|w ws IH]; intros s i Hl Hi Hn; cbn [store_words].
  - exists (v1.csr s). by destruct s.
  - rewrite len_cons in Hn. pose proof (len_nonneg ws).
    assert (E : v1.write s (v1.CSR_BASE + 4 * i) 4 w = Ret (v1.with_csr (<[Z.to_nat i := w]> (v1.csr s)) s)).
    { unfold v1.write, v1.CR, v1.DIN, v1.STR, v1.IMR, v1.SR, v1.SHA3CFGR, v1.CSR_BASE, v1.CSR_END.
      rewrite !(proj2 (Z.eqb_neq (248 + 4 * i) _)) by lia.
      replace (in_range 248 460 (248 + 4 * i)) with true by (unfold in_range; lia).
      replace ((248 + 4 * i - 248) / 4) with i by dlia. unfold set_idx. by rewrite bool_decide_true by lia. }
    rewrite E. cbn [rbind]. replace (v1.CSR_BASE + 4 * i + 4) with (v1.CSR_BASE + 4 * (i + 1)) by lia.
    destruct (IH (v1.with_csr (<[Z.to_nat i := w]> (v1.csr s)) s) (i + 1)) as (csr & -> & Hc);
      [cbn; by rewrite len_insert|lia|lia|]. by exists csr.
Qed.

Lemma save_context_runs s : len (v1.csr s) = 54 ->
  exists csr, save_context s = Ret (mkContext (v1.imr s) (v1.str_reg s) (v1.cr s) csr, snapped s) /\ len csr = 54.
Proof.
  intros Hl. unfold save_context.
  change (v1.read s v1.IMR 4) with (Ret (v1.imr s, s)). cbn [rbind].
  change (v1.read s v1.STR 4) with (Ret (v1.str_reg s, s)). cbn [rbind].
  change (v1.read s v1.CR 4) with (Ret (v1.cr s, s)). cbn [rbind]. rewrite load_words_S.
  destruct (lookup_lt_is_Some_2 (v1.csr s) 0) as [v Hv]; [unfold len in Hl; lia|].
  assert (E : v1.read s v1.CSR_BASE 4 = Ret (v, snapped s)).
  { change (v1.read s v1.CSR_BASE 4) with (let! v := idx (v1.csr s) 0 in Ret (v, snapped s)).
    by rewrite (idx_ret _ 0 v). }
  rewrite E. cbn [rbind]. destruct (load_csr (snapped s) 1 53) as (ws & E2 & Hw); [done|lia|lia|].
  change (v1.CSR_BASE + 4) with (v1.CSR_BASE + 4 * 1). rewrite E2. cbn [rbind]. exists (v :: ws).
  split; [done|]. rewrite len_cons. lia.
Qed.
(** The registers a restore leaves, and the engine it brings back. *)
Lemma restore_context_runs s x h : len (v1.csr s) = 54 -> len (x_csr x) = 54 ->
  has (v1.str_reg s) v1.STR_DCAL = false -> has (x_str x) v1.STR_DCAL = false ->
  saved_hasher (v1.engine s) = Some h ->
  exists s', restore_context s x = Ret s' /\ len (v1.csr s') = 54 /\ v1.str_reg s' = x_str x /\
    v1.pending s' = v1.saved_pending s /\ v1.engine s' = (restore_from_snapshot (v1.engine s)).2.
Proof.
  intros Hl Hx Hstr Hxs Hsh. unfold restore_context.
  change (v1.write s v1.IMR 4 (x_imr x)) with (Ret (v1.with_imr (x_imr x) s)). cbn [rbind].
  change (v1.write ?t v1.STR 4 ?v) with (Ret (v1.write_str t v)). cbn [rbind].
  set (s1 := v1.with_imr (x_imr x) s).
  assert (v1.write_str s1 (x_str x) = v1.with_str_written_since_cr true (v1.with_str_reg (x_str x) s1)) as ->.
  { unfold v1.write_str. change (v1.str_reg s1) with (v1.str_reg s). by rewrite Hstr, Hxs. }
  set (s2 := v1.with_str_written_since_cr true _).
  change (v1.write s2 v1.CR 4 ?v) with (Ret (v1.write_cr s2 v)). cbn [rbind].
  assert (Hinit : has (Z.lor (x_cr x) v1.CR_INIT) v1.CR_INIT = true).
  { unfold has. apply negb_true_iff, Z.eqb_neq. intros E. apply (f_equal (fun z => Z.testbit z 2)) in E.
    rewrite Z.land_spec, Z.lor_spec in E. change (Z.testbit v1.CR_INIT 2) with true in E.
    rewrite orb_true_r in E. discriminate. }
  set (v := Z.lor (x_cr x) v1.CR_INIT) in *.
  set (s3 := v1.write_cr s2 v).
  assert (H3 : v1.csr s3 = v1.csr s /\ v1.str_reg s3 = x_str x /\ v1.pending s3 = v1.saved_pending s /\
    v1.engine s3 = (restore_from_snapshot (v1.engine s)).2).
  { unfold s3, v1.write_cr. rewrite Hinit. unfold has_snapshot.
    change (v1.engine (v1.with_cr _ s2)) with (v1.engine s). rewrite Hsh. rewrite bool_decide_true by done.
    by split_and!. }
  destruct H3 as (H31 & H32 & H33 & H34). clearbody s3.
  destruct (store_csr s3 0 (x_csr x)) as (csr & E & Hc); [by rewrite H31|lia|lia|].
  change (v1.CSR_BASE + 4 * 0) with v1.CSR_BASE in E. rewrite E. eexists. split; [reflexivity|]. by split_and!.
Qed.

(** What a snapshot brings back, whatever was hashed since without a new initialisation. *)
Lemma snapshot_back e h : hasher e = Some h -> hmac_phase e = Off ->
  let c := capture_snapshot e in
  forall d f g, let e' := with_finalised true (stage_digest (absorb (absorb c d) f) g) in
  let r := (restore_from_snapshot e').2 in
  saved_hasher e' = Some h /\ finalised r = false /\ datatype r = datatype e /\ hmac_phase r = Off /\
  len (result r) = 16 /\ hasher r = Some h.
Proof.
  intros Hh Hp. unfold capture_snapshot. rewrite Hh. destruct e as [a dt hs fi re bf sh sb sp ph kb ou sph skb so].
  cbn in Hh, Hp. subst hs ph. intros d f g. by split_and!.
Qed.

Lemma absorb_off_hasher e e' d : hmac_phase e = Off -> hmac_phase e' = Off -> hasher e = hasher e' ->
  hasher (absorb e d) = hasher (absorb e' d).
Proof. unfold absorb. intros -> -> H. rewrite H. destruct (hasher e') eqn:E; [done|congruence]. Qed.

Lemma resumed_session_runs s bits a dt m m1 m2 : quiet s -> algo_bits (v1.layout s) a = Some bits ->
  wf m -> wf m1 -> wf m2 -> len m mod 4 = 0 ->
  exists s', resumed_session s (cr_word bits dt false) a dt m m1 m2 =
    Ret (digest_of a (m ++ m1), digest_of a (m ++ m2), s') /\ quiet s'.
Proof.
  intros (Hq1 & Hq2 & Hq3) Ha Hw Hw1 Hw2 Hm. unfold resumed_session.
  destruct (init_runs s a bits dt false Ha Hq2) as (s1 & -> & He & Hp & Hr & Hlay & Hcsr & Hcr & Hwr). cbn [rbind].
  rewrite <- Hcsr in Hq3. pose proof (hashing_init s s1 a dt Hq1 Hr He Hp Hq3) as Hh1.
  destruct (hashing_words s1 a dt [] m Hh1 Hw Hm) as (s2 & -> & Hh2 & _). cbn [rbind app] in *.
  destruct (save_context_runs s2) as (csr & -> & Hcl); [apply Hh2|]. cbn [rbind].
  pose proof Hh2 as (Hstr & Hcsr2 & Hf & Hdt & Hph & Hl & Hhs).
  destruct (hasher (v1.engine s2)) as [h|] eqn:Hh; cycle 1.
  { unfold absorb in Hhs. rewrite Hph, Hh in Hhs. congruence. }
  pose proof (snapshot_back (v1.engine s2) h Hh Hph) as Hsnap. cbv zeta in Hsnap.
  assert (Hh3 : hashing (snapped s2) a dt m).
  { assert (Hc : hmac_phase (capture_snapshot (v1.engine s2)) = Off /\
      hasher (capture_snapshot (v1.engine s2)) = Some h /\ datatype (capture_snapshot (v1.engine s2)) = hash_datatype dt /\
      finalised (capture_snapshot (v1.engine s2)) = false /\ len (result (capture_snapshot (v1.engine s2))) = 16)
      by (unfold capture_snapshot; rewrite Hh; by split_and!).
    destruct Hc as (C1 & C2 & C3 & C4 & C5). unfold hashing.
    change (v1.engine (snapped s2)) with (capture_snapshot (v1.engine s2)).
    do 6 (split; [assumption|]). rewrite <- Hhs.
    assert (pending_bytes (snapped s2) = pending_bytes s2) as ->
      by (unfold pending_bytes; change (v1.pending (snapped s2)) with (v1.pending s2);
          change (v1.engine (snapped s2)) with (capture_snapshot (v1.engine s2)); by rewrite C3, Hdt).
    apply absorb_off_hasher; [done|done|by rewrite Hh]. }
  destruct (hashing_finish _ a dt m m1 Hh3 Hw1) as (e & -> & Hle & Ee). cbn [rbind].
  rewrite read_closed by done. cbn [rbind].
  set (s4 := closed _ _ _).
  change (v1.engine (snapped s2)) with (capture_snapshot (v1.engine s2)) in Ee.
  assert (Hs4 : has (v1.str_reg s4) v1.STR_DCAL = false) by apply closed_quiet.
  pose proof (Hsnap (pending_bytes (snapped s2)) m1 (digest_of a (m ++ m1))) as (S1 & S2 & S3 & S4 & S5 & S6).
  rewrite <- Ee in S1, S2, S3, S4, S5, S6.
  destruct (restore_context_runs s4 (mkContext (v1.imr s2) (v1.str_reg s2) (v1.cr s2) csr) h)
    as (s5 & -> & R1 & R2 & R3 & R4); [done..|]. cbn [rbind].
  assert (Hh5 : hashing s5 a dt m).
  { unfold hashing. rewrite R2, R4. change (v1.engine s4) with (with_finalised true (stage_digest e (digest_of a (m ++ m1)))).
    rewrite S2, S3, S4, S5. do 6 (split; [done|]). rewrite <- Hhs.
    assert (pending_bytes s5 = pending_bytes s2) as ->
      by (unfold pending_bytes; rewrite R3, R4; change (v1.saved_pending s4) with (v1.pending s2);
          change (v1.engine s4) with (with_finalised true (stage_digest e (digest_of a (m ++ m1)))); by rewrite S3).
    apply absorb_off_hasher; [done|done|by rewrite Hh]. }
  destruct (hashing_finish _ a dt m m2 Hh5 Hw2) as (e2 & -> & Hle2 & _). cbn [rbind].
  rewrite read_closed by done. cbn [rbind].
  eexists. split; [reflexivity|]. apply closed_quiet.
Qed.
(** Another hash in between: [init] forgets the snapshot, so the restore starts afresh and
    what was hashed before the save is lost. *)
Definition interleaved_session (s : v1.HashV1) (bits : Z) (a : Algo) (dt : cryp.DataType) (m : bytes)
    (bits' : Z) (a' : Algo) (m' m2 : bytes) : res (bytes * bytes * v1.HashV1) :=
  let! s := v1.write s v1.CR 4 (cr_word bits dt false) in
  let! s := pokes s v1.DIN (message_words dt m) in
  let! '(x, s) := save_context s in
  let! '(d', s) := hash_session s (cr_word bits' dt false) a' dt m' in
  let! s := restore_context s x in
  let! s := feed_message s dt m2 in
  let! '(d, s) := read_digest s v1.HR_EXT_BASE (Z.to_nat (output_words a)) in
  Ret (d', d, s).

Lemma restore_afresh s bits a dt imr str csr : len (v1.csr s) = 54 -> len csr = 54 ->
  has (v1.str_reg s) v1.STR_DCAL = false -> has str v1.STR_DCAL = false ->
  algo_bits (v1.layout s) a = Some bits -> saved_hasher (v1.engine s) = None ->
  exists s', restore_context s (mkContext imr str (Z.land (cr_word bits dt false) (not32 v1.CR_INIT)) csr) = Ret s' /\
    hashing s' a dt [].
Proof.
  intros Hl Hx Hstr Hxs Ha Hsh. unfold restore_context. cbn [x_imr x_str x_cr x_csr].
  change (v1.write s v1.IMR 4 imr) with (Ret (v1.with_imr imr s)). cbn [rbind].
  change (v1.write ?t v1.STR 4 ?v) with (Ret (v1.write_str t v)). cbn [rbind].
  set (s1 := v1.with_imr imr s).
  assert (v1.write_str s1 str = v1.with_str_written_since_cr true (v1.with_str_reg str s1)) as ->.
  { unfold v1.write_str. change (v1.str_reg s1) with (v1.str_reg s). by rewrite Hstr, Hxs. }
  change (v1.write ?t v1.CR 4 ?v) with (Ret (v1.write_cr t v)). cbn [rbind].
  assert (Z.lor (Z.land (cr_word bits dt false) (not32 v1.CR_INIT)) v1.CR_INIT = cr_word bits dt false) as ->.
  { destruct (v1.layout s), a; cbn in Ha; (discriminate || (injection Ha as <-)); by destruct dt. }
  set (s3 := v1.write_cr _ _).
  assert (H3 : v1.csr s3 = v1.csr s /\ v1.str_reg s3 = str /\ v1.pending s3 = None /\
    v1.engine s3 = init_with_mode (v1.engine s) a (hash_datatype dt) false).
  { unfold s3. clear s3. destruct s as [l cr st im sr sh pend cs sp w e]. cbn in Ha, Hsh |- *.
    unfold v1.write_cr. cbn [v1.str_written_since_cr v1.engine v1.with_cr v1.with_str_written_since_cr v1.with_str_reg v1.with_imr].
    unfold has_snapshot. rewrite Hsh.
    destruct l, a; cbn in Ha; (discriminate || (injection Ha as <-)); destruct dt; by split_and!. }
  destruct H3 as (H31 & H32 & H33 & H34). clearbody s3.
  destruct (store_csr s3 0 csr) as (csr' & E & Hc); [by rewrite H31|lia|lia|].
  change (v1.CSR_BASE + 4 * 0) with v1.CSR_BASE in E. rewrite E. eexists. split; [reflexivity|].
  unfold hashing, pending_bytes.
  cbn [v1.engine v1.pending v1.csr v1.str_reg v1.with_csr]. rewrite H32, H33, H34, absorb_nil, update_nil. by split_and!.
Qed.

Lemma interleaved_session_runs s bits a dt m bits' a' m' m2 : quiet s ->
  algo_bits (v1.layout s) a = Some bits -> algo_bits (v1.layout s) a' = Some bits' ->
  wf m -> wf m' -> wf m2 -> len m mod 4 = 0 ->
  exists s', interleaved_session s bits a dt m bits' a' m' m2 = Ret (digest_of a' m', digest_of a m2, s').
Proof.
  intros (Hq1 & Hq2 & Hq3) Ha Ha' Hw Hw' Hw2 Hm. unfold interleaved_session.
  destruct (init_runs s a bits dt false Ha Hq2) as (s1 & -> & He & Hp & Hr & Hlay & Hcsr & Hcr & Hwr). cbn [rbind].
  rewrite <- Hcsr in Hq3. pose proof (hashing_init s s1 a dt Hq1 Hr He Hp Hq3) as Hh1.
  destruct (hashing_words s1 a dt [] m Hh1 Hw Hm) as (s2 & -> & Hh2 & Hstr2 & Hcr2 & Hlay2 & Hwr2). cbn [rbind app] in *.
  destruct (save_context_runs s2) as (csr & -> & Hcl); [apply Hh2|]. cbn [rbind].
  assert (Hq : quiet (snapped s2)).
  { split; [exact (proj1 Hh2)|]. split; [change (v1.str_written_since_cr s2 = false); congruence|apply Hh2]. }
  destruct (hash_session_runs (snapped s2) bits' a' dt m' Hq) as (s3 & -> & (Q1 & Q2 & Q3) & Hl3 & Hs3);
    [change (v1.layout (snapped s2)) with (v1.layout s2); congruence|done|]. cbn [rbind].
  change (v1.layout (snapped s2)) with (v1.layout s2) in Hl3.
  rewrite Hcr2, Hcr. destruct (restore_afresh s3 bits a dt (v1.imr s2) (v1.str_reg s2) csr) as (s4 & -> & Hh4);
    [done|done|done|apply Hh2|congruence|done|]. cbn [rbind].
  destruct (hashing_finish s4 a dt [] m2 Hh4 Hw2) as (e & -> & Hle & _). cbn [rbind app].
  rewrite read_closed by done. cbn [rbind]. by eexists.
Qed.
End port.
