(* ===== verification/Stm32PkaFacts.v ===== *)
(** * STM32Sim: the public-key accelerator, its operand RAM and what it computes

    An operand lies in RAM with the least significant word first, each word
    little-endian: the bytes from its word on are its big-endian bytes reversed.  Reading
    an operand is that slice, writing one replaces it, and neither ever panics. *)

From S2P Require Import Prelude.
From S2P Require Import Crc.
From S2P Require Import Crates.
From S2P Require Import Se050Crates.
From S2P Require Import McuCrates.
From S2P Require Import Stm32Core.
From S2P Require Import Stm32Pka.
From S2P Require Import Stm32Gf128.

Import pka v2.

(** ** Slices *)

Lemma splice_app_adj {A} (l x y : list A) a : 0 <= a -> a + len x + len y <= len l ->
  splice (splice l a x) (a + len x) y = splice l a (x ++ y).
Proof.
  intros Ha Hl. unfold splice. unfold len in *.
  replace (Z.to_nat (a + Z.of_nat (length x))) with (Z.to_nat a + length x)%nat by lia.
  assert (Hta : length (take (Z.to_nat a) l) = Z.to_nat a) by (rewrite length_take; lia).
  assert (Hpx : length (take (Z.to_nat a) l ++ x) = (Z.to_nat a + length x)%nat) by (rewrite length_app; lia).
  rewrite (app_assoc (take (Z.to_nat a) l) x (drop _ l)), <- Hpx, take_app_length, <- app_assoc, <- app_assoc.
  rewrite Hpx, <- app_assoc. f_equal. f_equal. f_equal.
  rewrite drop_app_ge by (rewrite Hta; lia). rewrite Hta, drop_app_ge by lia. rewrite drop_drop, length_app.
  f_equal. lia.
Qed.

Lemma sub_splice_same {A} (l x : list A) a : 0 <= a -> a + len x <= len l ->
  sub (splice l a x) a (a + len x) = x.
Proof.
  intros Ha Hl. unfold splice. apply sub_middle; [|done]. rewrite len_take. unfold len in *. lia.
Qed.

Lemma sub_splice_other {A} (l x : list A) a i j : 0 <= a -> a + len x <= len l -> 0 <= i ->
  j <= a \/ a + len x <= i -> sub (splice l a x) i j = sub l i j.
Proof.
  intros Ha Hl Hi Hj.
  assert (Hs : exists p q r, l = p ++ q ++ r /\ splice l a x = p ++ x ++ r /\ len p = a /\ len q = len x).
  { exists (take (Z.to_nat a) l), (take (length x) (drop (Z.to_nat a) l)), (drop (Z.to_nat a + length x) l).
    split; [by rewrite <- (drop_drop l), !take_drop|]. split; [done|].
    rewrite !len_take, len_drop. unfold len in *. lia. }
  destruct Hs as (p & q & r & -> & -> & Hp & Hq). destruct Hj as [Hj|Hj].
  - destruct (decide (i <= j)).
    + by rewrite !sub_app_l by lia.
    + unfold sub. by replace (Z.to_nat (j - i)) with 0%nat by lia.
  - pose proof (len_nonneg x). rewrite !sub_app_r by lia. by rewrite Hq.
Qed.

Lemma sub_adj {A} (l : list A) a b c : 0 <= a <= b -> b <= c -> sub l a b ++ sub l b c = sub l a c.
Proof.
  intros Hab Hbc. unfold sub. replace (Z.to_nat (c - a)) with (Z.to_nat (b - a) + Z.to_nat (c - b))%nat by lia.
  replace (drop (Z.to_nat b) l) with (drop (Z.to_nat (b - a)) (drop (Z.to_nat a) l))
    by (rewrite drop_drop; f_equal; lia).
  by rewrite take_take_drop.
Qed.

Lemma reverse_sub {A} (l : list A) a b : 0 <= a <= b -> b <= len l ->
  reverse (sub l a b) = sub (reverse l) (len l - b) (len l - a).
Proof.
  intros Ha Hb.
  assert (El : l = sub l 0 a ++ sub l a b ++ sub l b (len l)).
  { rewrite (sub_adj l a b (len l)) by lia. rewrite (sub_adj l 0 a (len l)) by lia.
    symmetry. apply sub_full. lia. }
  assert (L1 : len (sub l a b) = b - a) by (rewrite len_sub; lia).
  assert (L2 : len (sub l b (len l)) = len l - b) by (rewrite len_sub; lia).
  rewrite El at 2. rewrite !reverse_app, <- app_assoc.
  symmetry. apply sub_middle; rewrite len_reverse; lia.
Qed.

(** ** Words *)

Definition pka_ok (s : PkaV2) : Prop := len (ram s) = RAM_SIZE_BYTES /\ wf (ram s) /\ u32 (cr s) /\ u32 (sr s).

Lemma u32_le_val4 l : len l = 4 -> wf l -> u32 (le_val l).
Proof. intros Hl Hw. pose proof (le_val_bounds l Hw) as H. rewrite Hl in H. exact H. Qed.

Lemma read_word_in s w : len (ram s) = RAM_SIZE_BYTES -> 0 <= w -> 4 * w + 4 <= RAM_SIZE_BYTES ->
  read_word s w = Ret (le_val (sub (ram s) (4 * w) (4 * w + 4))).
Proof.
  intros Hl Hw Hr. unfold read_word. replace (RAM_SIZE_BYTES <? w * 4 + 4) with false by lia.
  rewrite slice_ret by lia. cbn [rbind]. by rewrite (Z.mul_comm w).
Qed.

Lemma write_word_in s w v : len (ram s) = RAM_SIZE_BYTES -> 0 <= w -> 4 * w + 4 <= RAM_SIZE_BYTES ->
  write_word s w v = Ret (with_ram (splice (ram s) (4 * w) (le_bytes 4 v)) s).
Proof.
  intros Hl Hw Hr. unfold write_word. replace (RAM_SIZE_BYTES <? w * 4 + 4) with false by lia.
  unfold copy_from_slice. rewrite bool_decide_true by (rewrite len_le_bytes; lia). cbn [rbind].
  by rewrite (Z.mul_comm w).
Qed.

Lemma read_word_ok s w : pka_ok s -> 0 <= w -> wp (read_word s w) u32.
Proof.
  intros (Hl & Hw & _) H0. unfold read_word. destruct (Z.ltb_spec RAM_SIZE_BYTES (w * 4 + 4)); [apply wp_ret; u_solve|].
  rewrite slice_ret by lia. cbn. apply u32_le_val4; [len_solve|auto with wfdb].
Qed.

Lemma ram_ok s r : pka_ok s -> len r = RAM_SIZE_BYTES -> wf r -> pka_ok (with_ram r s).
Proof. unfold pka_ok. cbn. tauto. Qed.

Lemma write_word_ok s w v : pka_ok s -> 0 <= w -> wp (write_word s w v) pka_ok.
Proof.
  intros Hs H0. pose proof Hs as (Hl & Hw & _). unfold write_word.
  destruct (Z.ltb_spec RAM_SIZE_BYTES (w * 4 + 4)); [done|].
  unfold copy_from_slice. rewrite bool_decide_true by (rewrite len_le_bytes; lia). cbn [rbind wp].
  apply ram_ok; [done| |apply wf_splice; [done|apply wf_le_bytes]].
  rewrite len_splice; rewrite ?len_le_bytes; lia.
Qed.

Lemma wf_insert_as_u8 l i v : wf l -> wf (<[i := as_u8 v]> l).
Proof. intros. apply wf_insert; [done|apply u8_as_u8]. Qed.

Lemma read_words_ok s w nb k n out : pka_ok s -> 0 <= w -> 0 <= k -> len out = nb ->
  4 * (k + Z.of_nat n) <= nb -> wf out ->
  wp (read_words s w nb k n out) (fun out => len out = nb /\ wf out).
Proof.
  intros Hs Hw. revert k out. induction n as [|n IH]; intros k out Hk Hl Hn Ho; cbn [read_words]; [done|].
  apply wp_bind. eapply wp_mono; [apply read_word_ok; [done|lia]|]. intros v Hv.
  do 4 (apply wp_bind, wp_set_idx; [rewrite ?len_insert; lia|]).
  apply IH; [lia|by rewrite !len_insert|lia|]. auto using wf_insert_as_u8.
Qed.

Lemma read_rem_ok w rem i n out : 0 <= i -> i + Z.of_nat n <= len out -> wf out ->
  wp (read_rem w rem i n out) (fun o => len o = len out /\ wf o).
Proof.
  revert i out. induction n as [|n IH]; intros i out Hi Hn Ho; cbn [read_rem]; [done|].
  apply wp_bind, wp_set_idx; [lia|]. eapply wp_mono; [apply IH; rewrite ?len_insert; try lia|].
  - by apply wf_insert_as_u8.
  - intros o [H1 H2]. by rewrite len_insert in H1.
Qed.

Lemma read_operand_ok s w nb : pka_ok s -> 0 <= w -> 0 <= nb ->
  wp (read_operand_be s w nb) (fun out => len out = nb /\ wf out).
Proof.
  intros Hs Hw Hn. unfold read_operand_be. apply wp_bind.
  assert (Hdiv : 0 <= nb / 4 /\ nb = 4 * (nb / 4) + nb mod 4 /\ 0 <= nb mod 4 < 4) by dlia.
  eapply wp_mono; [apply read_words_ok; try done; try lia|].
  - rewrite len_vec_repeat. lia.
  - apply wf_vec_repeat. u_solve.
  - intros out [Hl Ho]. destruct (0 <? nb mod 4); [|done].
    apply wp_bind. eapply wp_mono; [apply read_word_ok; [done|lia]|]. intros v Hv.
    eapply wp_mono; [apply read_rem_ok; try done; lia|]. intros o [H1 H2]. split; [lia|done].
Qed.

Lemma write_words_ok s w d k n : pka_ok s -> 0 <= w -> 0 <= k -> 4 * (k + Z.of_nat n) <= len d ->
  wp (write_words s w d k n) pka_ok.
Proof.
  intros Hs Hw. revert s k Hs. induction n as [|n IH]; intros s k Hs Hk Hn; cbn [write_words]; [done|].
  do 4 (apply wp_bind, wp_idx; [lia|]; intros ? _). apply wp_bind.
  eapply wp_mono; [apply write_word_ok; [done|lia]|]. intros s' Hs'. apply IH; [done|lia|lia].
Qed.

Lemma rem_word_ok d rem i n w : 0 <= i -> i + Z.of_nat n <= len d -> wp (rem_word d rem i n w) (fun _ => True).
Proof.
  revert i w. induction n as [|n IH]; intros i w Hi Hn; cbn [rem_word]; [done|].
  apply wp_bind, wp_idx; [lia|]. intros. apply IH; lia.
Qed.

Lemma write_operand_ok s w d : pka_ok s -> 0 <= w -> wp (write_operand_be s w d) pka_ok.
Proof.
  intros Hs Hw. unfold write_operand_be. pose proof (len_nonneg d) as Hd.
  assert (Hdiv : 0 <= len d / 4 /\ len d = 4 * (len d / 4) + len d mod 4 /\ 0 <= len d mod 4 < 4) by dlia.
  apply wp_bind. eapply wp_mono; [apply write_words_ok; try done; lia|]. intros s' Hs'.
  destruct (0 <? len d mod 4); [|done]. apply wp_bind.
  eapply wp_mono; [apply rem_word_ok; lia|]. intros v _. apply write_word_ok; [done|lia].
Qed.

(** ** Every operation *)

Section peripheral.
Context {B : BigUintCrate} {E : EccCrates}.

Lemma run_operand {T} s w nb (k : bytes -> res T) Q : pka_ok s -> 0 <= w -> 0 <= nb ->
  (forall d, len d = nb -> wf d -> wp (k d) Q) -> wp (let! d := read_operand_be s w nb in k d) Q.
Proof.
  intros Hs Hw Hn HQ. apply wp_bind. eapply wp_mono; [by apply read_operand_ok|]. intros d []. by apply HQ.
Qed.

Lemma run_bits {T} s w (k : Z -> res T) Q : pka_ok s -> 0 <= w ->
  (forall v, 0 <= (v + 7) / 8 -> wp (k v) Q) -> wp (let! v := read_n_bits s w in k v) Q.
Proof.
  intros Hs Hw HQ. apply wp_bind. eapply wp_mono; [by apply read_word_ok|]. intros v Hv. apply HQ.
  apply Z.div_pos; u_solve.
Qed.

Lemma run_write {T} s w d (k : PkaV2 -> res T) Q : pka_ok s -> 0 <= w ->
  (forall s, pka_ok s -> wp (k s) Q) -> wp (let! s := write_operand_be s w d in k s) Q.
Proof. intros Hs Hw HQ. apply wp_bind. eapply wp_mono; [by apply write_operand_ok|]. done. Qed.

Lemma run_word {T} s w v (k : PkaV2 -> res T) Q : pka_ok s -> 0 <= w ->
  (forall s, pka_ok s -> wp (k s) Q) -> wp (let! s := write_word s w v in k s) Q.
Proof. intros Hs Hw HQ. apply wp_bind. eapply wp_mono; [by apply write_word_ok|]. done. Qed.

Ltac pka_step :=
  lazymatch goal with
  | |- wp (Ret _) _ => apply wp_ret
  | |- wp (let! _ := read_operand_be _ _ _ in _) _ => apply run_operand; [assumption|done|assumption|intros ???]
  | |- wp (let! _ := read_n_bits _ _ in _) _ => apply run_bits; [assumption|done|intros ??]
  | |- wp (let! _ := write_operand_be _ _ _ in _) _ => apply run_write; [assumption|done|intros ??]
  | |- wp (let! _ := write_word _ _ _ in _) _ => apply run_word; [assumption|done|intros ??]
  | |- wp (if ?b then _ else _) _ => destruct b
  | |- wp (match ?x with _ => _ end) _ => destruct x
  end.

Definition mode_post (r : bool * PkaV2) : Prop := pka_ok r.2.

Lemma do_mod_exp_ok s p : pka_ok s -> wp (do_mod_exp s p) mode_post.
Proof.
  intros Hs. unfold do_mod_exp. do 2 pka_step. cbv zeta. pka_step; [done|]. destruct p; repeat pka_step; done.
Qed.

Lemma do_arith_ok s op : pka_ok s -> wp (do_arith s op) mode_post.
Proof. intros Hs. unfold do_arith. pka_step. cbv zeta. pka_step; [done|]. destruct op; repeat pka_step; done. Qed.

Lemma do_mod_op_ok s op : pka_ok s -> wp (do_mod_op s op) mode_post.
Proof. intros Hs. unfold do_mod_op. pka_step. cbv zeta. pka_step; [done|]. destruct op; repeat pka_step; done. Qed.

Lemma do_ecc_mul_ok s : pka_ok s -> wp (do_ecc_mul s) mode_post.
Proof.
  intros Hs. unfold do_ecc_mul. pka_step. cbv zeta. destruct (curve_of_len _) as [c|]; [|done].
  pka_step. destruct (negb _); [done|]. do 3 pka_step. destruct (ecc_mul _ _ _ _ _) as [[p|] e];
    (assert (pka_ok (v2.with_engine e s)) by done); repeat pka_step; done.
Qed.

Lemma do_ecdsa_verify_ok s : pka_ok s -> wp (do_ecdsa_verify s) mode_post.
Proof.
  intros Hs. unfold do_ecdsa_verify. pka_step. cbv zeta. destruct (curve_of_len _) as [c|]; [|done].
  repeat pka_step; done.
Qed.

Lemma run_mode_ok s : pka_ok s -> wp (run_mode s) mode_post.
Proof.
  intros Hs. unfold run_mode. cbv zeta.
  repeat (case_match; [first [by apply do_mod_exp_ok|by apply do_arith_ok|by apply do_mod_op_ok|
    by apply do_ecc_mul_ok|by apply do_ecdsa_verify_ok]|]). done.
Qed.

Lemma u32_lor x y : u32 x -> u32 y -> u32 (Z.lor x y).
Proof. apply (lor_bound 32). lia. Qed.

Lemma not32_nonneg x : 0 <= x -> 0 <= not32 x.
Proof. intros. unfold not32. apply Z.lxor_nonneg. lia. Qed.

Lemma sr_ok s v : pka_ok s -> u32 v -> pka_ok (with_sr v s).
Proof. unfold pka_ok. cbn. tauto. Qed.

Lemma pka_execute_ok s : pka_ok s -> wp (execute s) pka_ok.
Proof.
  intros Hs. unfold execute. apply wp_bind. pose proof Hs as (_ & _ & _ & Hsr).
  eapply wp_mono; [apply run_mode_ok, sr_ok; [done|apply u32_lor; [done|vm_compute; split; congruence]]|].
  intros [b s'] Hs'. unfold mode_post in Hs'. cbn [snd] in Hs'. apply wp_ret.
  set (s1 := with_sr (Z.land (sr s') (not32 SR_BUSY)) s').
  assert (H1 : pka_ok s1) by (apply sr_ok; [done|]; apply u32_land; [apply Hs'|by apply not32_nonneg]).
  assert (H2 : pka_ok (with_sr (Z.lor (sr s1) SR_PROCENDF) s1))
    by (apply sr_ok; [done|]; apply u32_lor; [apply H1|vm_compute; split; congruence]).
  destruct (negb b); [|done]. apply sr_ok; [done|]. apply u32_lor; [apply H2|vm_compute; split; congruence].
Qed.

Lemma pka_read_ok s off sz : pka_ok s -> wp (read s off sz) (fun '(v, s) => u32 v /\ pka_ok s).
Proof.
  intros Hs. pose proof Hs as (Hl & Hw & Hcr & Hsr). unfold read.
  destruct (off =? CR); [done|]. destruct (off =? SR); [done|].
  destruct (in_ram off) eqn:Hr; [|by split; [u_solve|]]. unfold in_ram in Hr.
  destruct (Z.ltb_spec RAM_SIZE_BYTES (off - RAM_BASE + 4)); [by split; [u_solve|]|].
  rewrite slice_ret by lia. split; [|done]. apply u32_le_val4; [len_solve|auto with wfdb].
Qed.

Lemma pka_write_ok s off sz v : pka_ok s -> u32 v -> wp (write s off sz v) pka_ok.
Proof.
  intros Hs Hv. pose proof Hs as (Hl & Hw & Hcr & Hsr). unfold write. destruct (off =? CR).
  { assert (H1 : pka_ok (with_cr v s)) by (unfold pka_ok; cbn; tauto).
    destruct (_ && _); [by apply pka_execute_ok|done]. }
  destruct (off =? CLRFR).
  { apply wp_ret, sr_ok; [done|]. apply u32_land; [done|]. apply not32_nonneg. u_solve. }
  destruct (in_ram off) eqn:Hr; [|done]. unfold in_ram in Hr.
  destruct (Z.leb_spec (off - RAM_BASE + 4) RAM_SIZE_BYTES); [|done].
  unfold copy_from_slice. rewrite bool_decide_true by (rewrite len_le_bytes; lia). apply wp_ret.
  apply ram_ok; [done| |apply wf_splice; [done|apply wf_le_bytes]].
  rewrite len_splice; rewrite ?len_le_bytes; lia.
Qed.

Lemma pka_new_ok : pka_ok new.
Proof. split; [done|]. split; [apply wf_vec_repeat; u_solve|]. split; vm_compute; split; congruence. Qed.
End peripheral.

(** ** What the public-key accelerator computes

    Operands in RAM as slices; the result region after each arithmetic operation; and a
    firmware's session over the registers: load the operands, start, read the result. *)

Import pka v2.

(** ** Bytes of a little-endian word *)

Lemma le_val4_bytes a b c d : wf [a; b; c; d] ->
  let v := le_val [a; b; c; d] in
  as_u8 (Z.shiftr v 24) = d /\ as_u8 (Z.shiftr v 16) = c /\ as_u8 (Z.shiftr v 8) = b /\ as_u8 v = a.
Proof.
  intros Hw v. pose proof (le_bytes_le_val [a; b; c; d] 4 Hw eq_refl) as E. fold v in E.
  cbn [le_bytes] in E. injection E as E0 E1 E2 E3. unfold as_u8.
  rewrite !Z.shiftr_div_pow2 by lia. change (2 ^ 8) with 256.
  change (2 ^ 24) with (256 * 256 * 256). change (2 ^ 16) with (256 * 256).
  rewrite <- !Z.div_div by lia. by rewrite E0, E1, E2, E3.
Qed.

Lemma set_idx_at (l : bytes) i x : 0 <= i < len l -> set_idx l i x = Ret (<[Z.to_nat i := x]> l).
Proof. intros. unfold set_idx. by rewrite bool_decide_true by lia. Qed.

Lemma set_idx_app (p q : bytes) i x : 0 <= i < len q ->
  set_idx (p ++ q) (len p + i) x = Ret (p ++ <[Z.to_nat i := x]> q).
Proof.
  intros Hi. unfold set_idx. rewrite bool_decide_true by (rewrite len_app; pose proof (len_nonneg p); lia).
  replace (Z.to_nat (len p + i)) with (length p + Z.to_nat i)%nat by (unfold len; lia).
  by rewrite insert_app_r.
Qed.

Lemma len_split4 (l : bytes) n : 0 <= n -> len l = n + 4 -> exists p a b c d, l = p ++ [a; b; c; d] /\ len p = n.
Proof.
  intros Hn Hl. destruct (len4_inv (drop (Z.to_nat n) l)) as (a & b & c & d & E); [len_solve|].
  exists (take (Z.to_nat n) l), a, b, c, d. rewrite <- E, take_drop. split; [done|len_solve].
Qed.

(** ** Reading an operand *)

Lemma read_words_in s w nb k n zs tail : len (ram s) = RAM_SIZE_BYTES -> wf (ram s) -> 0 <= w -> 0 <= k ->
  4 * (w + k + Z.of_nat n) <= RAM_SIZE_BYTES -> nb = len (zs ++ tail) -> len tail = 4 * k ->
  4 * Z.of_nat n <= len zs ->
  read_words s w nb k n (zs ++ tail) =
  Ret (take (Z.to_nat (len zs - 4 * Z.of_nat n)) zs ++
       reverse (sub (ram s) (4 * (w + k)) (4 * (w + k + Z.of_nat n))) ++ tail).
Proof.
  intros Hl Hwf Hw. revert k zs tail. induction n as [|n IH]; intros k zs tail Hk Hr Hnb Ht Hz; cbn [read_words].
  - replace (4 * (w + k + Z.of_nat 0)) with (4 * (w + k)) by lia. unfold sub. rewrite Z.sub_diag.
    rewrite take_ge by (unfold len; lia). done.
  - rewrite (read_word_in s (w + k)) by (done || lia). cbn [rbind].
    set (l := sub (ram s) (4 * (w + k)) (4 * (w + k) + 4)).
    assert (Hll : len l = 4) by (unfold l; rewrite len_sub; lia).
    assert (Hlw : wf l) by (unfold l; auto with wfdb).
    destruct (len4_inv l Hll) as (a & b & c & d & El). rewrite El.
    rewrite El in Hlw. destruct (le_val4_bytes a b c d Hlw) as (-> & -> & -> & ->).
    destruct (len_split4 zs (len zs - 4)) as (p & x0 & x1 & x2 & x3 & Ez & Hp); [lia|lia|].
    assert (Hbase : nb - 4 - k * 4 = len p) by (rewrite Hnb, len_app, Ht; lia).
    rewrite Ez in *. clear Hp Ez zs. rewrite len_app in Hz. change (len [x0; x1; x2; x3]) with 4 in Hz.
    rewrite Hbase, <- app_assoc.
    assert (Ht4 : forall q : bytes, len q = 4 -> 4 <= len (q ++ tail)) by (intros q Hq; rewrite len_app, Hq; pose proof (len_nonneg tail); lia).
    rewrite set_idx_app by (split; [lia|]; pose proof (Ht4 [x0; x1; x2; x3] eq_refl); lia). cbn [rbind].
    change (<[Z.to_nat 0 := d]> ([x0; x1; x2; x3] ++ tail)) with ([d; x1; x2; x3] ++ tail).
    rewrite set_idx_app by (split; [lia|]; pose proof (Ht4 [d; x1; x2; x3] eq_refl); lia). cbn [rbind].
    change (<[Z.to_nat 1 := c]> ([d; x1; x2; x3] ++ tail)) with ([d; c; x2; x3] ++ tail).
    rewrite set_idx_app by (split; [lia|]; pose proof (Ht4 [d; c; x2; x3] eq_refl); lia). cbn [rbind].
    change (<[Z.to_nat 2 := b]> ([d; c; x2; x3] ++ tail)) with ([d; c; b; x3] ++ tail).
    rewrite set_idx_app by (split; [lia|]; pose proof (Ht4 [d; c; b; x3] eq_refl); lia). cbn [rbind].
    change (<[Z.to_nat 3 := a]> ([d; c; b; x3] ++ tail)) with ([d; c; b; a] ++ tail).
    rewrite IH; try lia.
    + rewrite len_app. change (len [x0; x1; x2; x3]) with 4.
      rewrite take_app_le by (unfold len; lia). do 2 f_equal; [f_equal; lia|].
      rewrite app_assoc. f_equal. change [d; c; b; a] with (reverse [a; b; c; d]). rewrite <- El, <- reverse_app.
      f_equal. unfold l. replace (4 * (w + (k + 1))) with (4 * (w + k) + 4) by lia.
      rewrite sub_adj by lia. f_equal. lia.
    + rewrite Hnb, !len_app. change (len [x0; x1; x2; x3]) with 4. change (len [d; c; b; a]) with 4. lia.
    + rewrite len_app, Ht. change (len [d; c; b; a]) with 4. lia.
Qed.

(** The last word of an operand whose length is not a multiple of four. *)
Lemma read_rem_in (l : bytes) rem zs tail : len l = 4 -> wf l -> 0 <= rem < 4 -> len zs = rem ->
  read_rem (le_val l) rem 0 (Z.to_nat rem) (zs ++ tail) = Ret (reverse (take (Z.to_nat rem) l) ++ tail).
Proof.
  intros (a & b & c & d & ->)%len4_inv Hw Hr Hz. pose proof (len_nonneg tail). destruct (le_val4_bytes a b c d Hw) as (E3 & E2 & E1 & E0).
  assert (Hff : forall x, as_u8 (Z.land x 0xFF) = as_u8 x).
  { intros x. unfold as_u8. change 0xFF with (Z.ones 8). rewrite Z.land_ones by lia. apply Z.mod_mod. lia. }
  assert (rem = 0 \/ rem = 1 \/ rem = 2 \/ rem = 3) as [-> | [-> | [-> | ->]]] by lia.
  - destruct zs as [|x0 zs]; [done|rewrite len_cons in Hz; pose proof (len_nonneg zs); lia].
  - destruct zs as [|x0 [|x1 zs]]; [done| |rewrite !len_cons in Hz; pose proof (len_nonneg zs); lia].
    change (Z.to_nat 1) with 1%nat. cbn [read_rem]. rewrite !Hff.
    rewrite (set_idx_at _ 0) by (autorewrite with len; lia). cbn [rbind].
    change (8 * (1 - 1 - 0)) with 0. by rewrite Z.shiftr_0_r, E0.
  - destruct zs as [|x0 [|x1 [|x2 zs]]]; try (discriminate Hz); try (rewrite !len_cons in Hz; pose proof (len_nonneg zs); lia).
    change (Z.to_nat 2) with 2%nat. cbn [read_rem]. rewrite !Hff.
    change (8 * (2 - 1 - 0)) with 8. change (8 * (2 - 1 - (0 + 1))) with 0. rewrite Z.shiftr_0_r, E0, E1.
    do 2 (rewrite set_idx_at by (autorewrite with len; lia); cbn [rbind]). done.
  - destruct zs as [|x0 [|x1 [|x2 [|x3 zs]]]]; try (discriminate Hz); try (rewrite !len_cons in Hz; pose proof (len_nonneg zs); lia).
    change (Z.to_nat 3) with 3%nat. cbn [read_rem]. rewrite !Hff.
    change (8 * (3 - 1 - 0)) with 16. change (8 * (3 - 1 - (0 + 1))) with 8. change (8 * (3 - 1 - (0 + 1 + 1))) with 0.
    rewrite Z.shiftr_0_r, E0, E1, E2.
    do 3 (rewrite set_idx_at by (autorewrite with len; lia); cbn [rbind]). done.
Qed.

Lemma read_operand_in s w nb : len (ram s) = RAM_SIZE_BYTES -> wf (ram s) -> 0 <= w -> 0 <= nb ->
  4 * w + nb + 3 <= RAM_SIZE_BYTES ->
  read_operand_be s w nb = Ret (reverse (sub (ram s) (4 * w) (4 * w + nb))).
Proof.
  intros Hl Hwf Hw Hn Hr. unfold read_operand_be.
  assert (Hdiv : 0 <= nb / 4 /\ nb = 4 * (nb / 4) + nb mod 4 /\ 0 <= nb mod 4 < 4) by dlia.
  set (q := nb / 4) in *. set (r := nb mod 4) in *. clearbody q r.
  assert (Hv : len (vec_repeat 0 nb) = nb) by (rewrite len_vec_repeat; lia).
  rewrite <- (app_nil_r (vec_repeat 0 nb)).
  rewrite (read_words_in s w nb 0 (Z.to_nat q)); [|done|done|done|done|lia|by rewrite app_nil_r|done|lia].
  cbn [rbind]. rewrite Hv, Z2Nat.id, app_nil_r by lia.
  replace (w + 0) with w by lia.
  set (zs := take _ (vec_repeat 0 nb)). assert (Hz : len zs = r) by (unfold zs; rewrite len_take, Hv; lia).
  clearbody zs. destruct (Z.ltb_spec 0 r).
  - rewrite (read_word_in s (w + q)) by (done || lia). cbn [rbind].
    rewrite read_rem_in by first [done|lia|rewrite len_sub; lia|solve [auto with wfdb]]. do 2 f_equal.
    rewrite <- reverse_app. f_equal. rewrite <- (sub_adj _ (4 * w) (4 * (w + q)) (4 * w + nb)) by lia. f_equal.
    unfold sub. rewrite take_take. f_equal. lia.
  - assert (r = 0) as -> by lia. destruct zs as [|x zs]; [|rewrite len_cons in Hz; pose proof (len_nonneg zs); lia].
    cbn [app]. do 3 f_equal. lia.
Qed.

(** ** Writing an operand *)

Lemma word_of_bytes a b c d : wf [a; b; c; d] ->
  Z.lor (Z.lor (Z.lor (as_u32 (Z.shiftl a 24)) (as_u32 (Z.shiftl b 16))) (as_u32 (Z.shiftl c 8))) d =
  le_val [d; c; b; a].
Proof.
  unfold wf. rewrite !Forall_cons. intros (Ha & Hb & Hc & Hd & _). unfold as_u32, u8 in *.
  rewrite !Z.shiftl_mul_pow2 by lia. rewrite !Z.mod_small by lia. rewrite bytes_lor by done.
  cbn [le_val]. lia.
Qed.

Definition padded (d : bytes) : bytes := reverse d ++ replicate (Z.to_nat ((- len d) mod 4)) 0.

Lemma write_words_in s w d k n : len (ram s) = RAM_SIZE_BYTES -> wf d -> 0 <= w -> 0 <= k ->
  4 * (w + k + Z.of_nat n) <= RAM_SIZE_BYTES -> 4 * (k + Z.of_nat n) <= len d ->
  write_words s w d k n = Ret (with_ram (splice (ram s) (4 * (w + k))
    (reverse (sub d (len d - 4 * k - 4 * Z.of_nat n) (len d - 4 * k)))) s).
Proof.
  intros Hl Hd Hw. revert s k Hl. induction n as [|n IH]; intros s k Hl Hk Hr Hn; cbn [write_words].
  - replace (len d - 4 * k - 4 * Z.of_nat 0) with (len d - 4 * k) by lia.
    assert (sub d (len d - 4 * k) (len d - 4 * k) = []) as -> by (unfold sub; by rewrite Z.sub_diag).
    unfold splice. cbn [reverse rev_append app length]. rewrite Nat.add_0_r, take_drop. by destruct s.
  - set (base := len d - 4 - k * 4). assert (Hb : 0 <= base /\ base + 4 <= len d) by lia.
    destruct (len4_inv (sub d base (base + 4))) as (b0 & b1 & b2 & b3 & El); [rewrite len_sub; lia|].
    assert (Hi : forall i, 0 <= i < 4 -> d !! Z.to_nat (base + i) = [b0; b1; b2; b3] !! Z.to_nat i).
    { intros i Hi. rewrite <- El. unfold sub. rewrite lookup_take_lt by lia. rewrite lookup_drop. f_equal. lia. }
    rewrite (idx_ret _ _ b0) by (lia || apply (Hi 0); lia). cbn [rbind].
    rewrite (idx_ret _ _ b1) by (lia || apply (Hi 1); lia). cbn [rbind].
    rewrite (idx_ret _ _ b2) by (lia || apply (Hi 2); lia). cbn [rbind].
    rewrite (idx_ret _ _ b3) by (lia || apply (Hi 3); lia). cbn [rbind].
    assert (Hwb : wf [b0; b1; b2; b3]) by (rewrite <- El; auto with wfdb).
    rewrite word_of_bytes by done. rewrite write_word_in by (done || lia). cbn [rbind].
    rewrite le_bytes_le_val; [|by apply (wf_reverse [b0; b1; b2; b3])|done].
    change [b3; b2; b1; b0] with (reverse [b0; b1; b2; b3]). rewrite <- El.
    assert (Hs : len (reverse (sub d base (base + 4))) = 4) by (rewrite len_reverse, len_sub; lia).
    rewrite IH; cbn [ram with_ram]; try lia; [|rewrite len_splice; lia].
    f_equal. unfold with_ram. cbn. f_equal.
    replace (4 * (w + (k + 1))) with (4 * (w + k) + len (reverse (sub d base (base + 4)))) by lia.
    rewrite splice_app_adj by (rewrite ?Hs, ?len_reverse, ?len_sub; lia). f_equal.
    rewrite <- reverse_app. f_equal.
    replace (len d - 4 * (k + 1)) with base by lia. rewrite sub_adj by lia. f_equal; lia.
Qed.

Lemma rem_word_in (d : bytes) rem : wf d -> 0 <= rem < 4 -> rem <= len d ->
  exists v, rem_word d rem 0 (Z.to_nat rem) 0 = Ret v /\
    le_bytes 4 v = reverse (take (Z.to_nat rem) d) ++ replicate (4 - Z.to_nat rem) 0.
Proof.
  intros Hd Hr Hl.
  assert (Hle : forall l, length l = 4%nat -> wf l -> le_bytes 4 (le_val l) = l) by (intros; by apply le_bytes_le_val).
  assert (rem = 0 \/ rem = 1 \/ rem = 2 \/ rem = 3) as [-> | [-> | [-> | ->]]] by lia.
  - by exists 0.
  - destruct d as [|a d]; [change (len []) with 0 in Hl; lia|]. exists (le_val [a; 0; 0; 0]).
    apply wf_cons_inv in Hd as [Ha Hd]. split; [|by apply Hle; [|repeat (apply wf_cons; [u_solve|]); apply wf_nil]].
    change (Z.to_nat 1) with 1%nat. cbn [rem_word]. rewrite idx_0. cbn [rbind].
    change (8 * (1 - 1 - 0)) with 0. rewrite Z.shiftl_0_r, Z.lor_0_l. unfold as_u32, u8 in *.
    rewrite Z.mod_small by lia. cbn [le_val]. f_equal. lia.
  - destruct d as [|a [|b d]]; try (rewrite ?len_cons in Hl; change (len []) with 0 in Hl; lia).
    exists (le_val [b; a; 0; 0]). apply wf_cons_inv in Hd as [Ha [Hb Hd]%wf_cons_inv].
    split; [|by apply Hle; [|repeat (apply wf_cons; [u_solve|]); apply wf_nil]].
    change (Z.to_nat 2) with 2%nat. cbn [rem_word]. rewrite idx_0. cbn [rbind].
    rewrite idx_S by lia. rewrite idx_0. cbn [rbind].
    change (8 * (2 - 1 - 0)) with 8. change (8 * (2 - 1 - (0 + 1))) with 0.
    rewrite Z.shiftl_0_r, Z.lor_0_l, Z.shiftl_mul_pow2 by lia. unfold as_u32, u8 in *.
    rewrite !Z.mod_small by lia. rewrite (Z.mul_comm a), lor_low by lia. cbn [le_val]. f_equal. lia.
  - destruct d as [|a [|b [|c d]]]; try (rewrite ?len_cons in Hl; change (len []) with 0 in Hl; lia).
    exists (le_val [c; b; a; 0]). apply wf_cons_inv in Hd as [Ha [Hb [Hc Hd]%wf_cons_inv]%wf_cons_inv].
    split; [|by apply Hle; [|repeat (apply wf_cons; [u_solve|]); apply wf_nil]].
    change (Z.to_nat 3) with 3%nat. cbn [rem_word]. rewrite idx_0. cbn [rbind].
    rewrite idx_S by lia. rewrite idx_0. cbn [rbind]. rewrite idx_S, idx_S by lia. rewrite idx_0. cbn [rbind].
    change (8 * (3 - 1 - 0)) with 16. change (8 * (3 - 1 - (0 + 1))) with 8. change (8 * (3 - 1 - (0 + 1 + 1))) with 0.
    rewrite Z.shiftl_0_r, Z.lor_0_l, !Z.shiftl_mul_pow2 by lia. unfold as_u32, u8 in *.
    rewrite !Z.mod_small by lia. rewrite (Z.mul_comm a), lor_low by lia.
    replace (2 ^ 16 * a + b * 2 ^ 8) with (2 ^ 8 * (2 ^ 8 * a + b)) by lia. rewrite lor_low by lia.
    cbn [le_val]. f_equal. lia.
Qed.

Lemma write_operand_in s w d : len (ram s) = RAM_SIZE_BYTES -> wf d -> 0 <= w ->
  4 * w + len d + 3 <= RAM_SIZE_BYTES ->
  write_operand_be s w d = Ret (with_ram (splice (ram s) (4 * w) (padded d)) s).
Proof.
  intros Hl Hwf Hw Hr. unfold write_operand_be, padded. pose proof (len_nonneg d) as Hd0.
  assert (Hdiv : 0 <= len d / 4 /\ len d = 4 * (len d / 4) + len d mod 4 /\ 0 <= len d mod 4 < 4 /\
    (- len d) mod 4 = if 0 <? len d mod 4 then 4 - len d mod 4 else 0)
    by (destruct (Z.ltb_spec 0 (len d mod 4)); dlia).
  destruct Hdiv as (Hq & Hlen & Hm & ->).
  set (q := len d / 4) in *. set (r := len d mod 4) in *. clearbody q r.
  rewrite write_words_in; [|done|done|done|done|lia|lia]. cbn [rbind].
  rewrite Z2Nat.id by lia. replace (w + 0) with w by lia.
  replace (len d - 4 * 0 - 4 * q) with r by lia. replace (len d - 4 * 0) with (len d) by lia.
  assert (Hsl : len (reverse (sub d r (len d))) = 4 * q) by (rewrite len_reverse, len_sub; lia).
  destruct (Z.ltb_spec 0 r).
  - destruct (rem_word_in d r Hwf Hm) as (v & -> & Ev); [lia|]. cbn [rbind].
    rewrite write_word_in; cbn [ram with_ram]; [|rewrite len_splice; lia|lia|lia]. rewrite Ev.
    f_equal. unfold with_ram. cbn. f_equal.
    replace (4 * (w + q)) with (4 * w + len (reverse (sub d r (len d)))) by lia.
    rewrite splice_app_adj.
    + f_equal. rewrite app_assoc. f_equal.
      * rewrite <- reverse_app. f_equal. unfold sub.
        rewrite (take_ge (drop _ d)) by (rewrite length_drop; unfold len in *; lia). apply take_drop.
      * f_equal. lia.
    + lia.
    + rewrite Hsl, len_app, len_reverse, len_take, len_replicate. lia.
  - assert (r = 0) as -> by lia. cbn [Z.to_nat replicate]. rewrite app_nil_r.
    by rewrite sub_full by lia.
Qed.

Lemma len_padded d : len d <= len (padded d) < len d + 4 /\ len (padded d) mod 4 = 0.
Proof.
  unfold padded. rewrite len_app, len_reverse, len_replicate.
  assert (0 <= (- len d) mod 4 < 4) by (apply Z.mod_pos_bound; lia). rewrite Z2Nat.id by lia. split; [lia|dlia].
Qed.

Lemma padded_prefix d : reverse (sub (padded d) 0 (len d)) = d.
Proof.
  unfold padded. rewrite <- (len_reverse d), sub_prefix. apply reverse_involutive.
Qed.

(** ** The firmware's view *)

(** The bytes of an operand as words, least significant first. *)
Definition words_le (l : bytes) : list Z := le_val <$> chunks 4 l.

Section session.
Context {B : BigUintCrate} {EC : EccCrates}.

Fixpoint ram_store (s : PkaV2) (off : Z) (ws : list Z) : res PkaV2 :=
  match ws with
  | [] => Ret s
  | w :: ws => let! s := write s off 4 w in ram_store s (off + 4) ws
  end.

Fixpoint ram_load (s : PkaV2) (off : Z) (n : nat) : res (bytes * PkaV2) :=
  match n with
  | O => Ret ([], s)
  | S n =>
      let! '(v, s) := read s off 4 in
      let! '(l, s) := ram_load s (off + 4) n in
      Ret (le_bytes 4 v ++ l, s)
  end.

Definition load_operand (s : PkaV2) (w : Z) (d : bytes) : res PkaV2 :=
  ram_store s (RAM_BASE + 4 * w) (words_le (padded d)).

Definition fetch_result (s : PkaV2) (w n : Z) : res (bytes * PkaV2) :=
  let! '(l, s) := ram_load s (RAM_BASE + 4 * w) (Z.to_nat ((n + 3) / 4)) in
  Ret (reverse (sub l 0 n), s).

Definition start (s : PkaV2) (mode : Z) : res PkaV2 :=
  write s CR 4 (CR_EN + CR_START + 256 * mode).

(** The number of bits, as one word. *)
Definition load_bits (s : PkaV2) (w n : Z) : res PkaV2 := write s (RAM_BASE + 4 * w) 4 (8 * n).

(** Where a firmware puts the operands of a modular exponentiation, in words: the
    protected mode, number 3, has its own places. *)
Definition base_at (mode : Z) : Z := if mode =? 3 then 0x4B2 else 0x21A.
Definition exponent_at (mode : Z) : Z := if mode =? 3 then 0x42E else 0x29E.
Definition modulus_at (mode : Z) : Z := if mode =? 3 then 0x10E else 0x322.

Definition modexp_session (s : PkaV2) (mode : Z) (base exp modulus : bytes) : res (bytes * PkaV2) :=
  let n := len modulus in
  let! s := load_bits s 2 n in
  let! s := load_bits s 0 (len exp) in
  let! s := load_operand s (base_at mode) base in
  let! s := load_operand s (exponent_at mode) exp in
  let! s := load_operand s (modulus_at mode) modulus in
  let! s := start s mode in
  fetch_result s 0x10E n.

Definition mod_op_session (s : PkaV2) (mode : Z) (a b modulus : bytes) : res (bytes * PkaV2) :=
  let n := len modulus in
  let! s := load_bits s MOD_OP_IN_OP_NB_BITS n in
  let! s := load_operand s MOD_OP_IN_OP1 a in
  let! s := load_operand s MOD_OP_IN_OP2 b in
  let! s := load_operand s MOD_OP_IN_MODULUS modulus in
  let! s := start s mode in
  fetch_result s MOD_OP_OUT_RESULT n.

(** *** Through the window *)

Lemma write_ram s i v : len (ram s) = RAM_SIZE_BYTES -> 0 <= i -> i + 4 <= RAM_SIZE_BYTES ->
  write s (RAM_BASE + i) 4 v = Ret (with_ram (splice (ram s) i (le_bytes 4 v)) s).
Proof.
  intros Hl Hi Hr. unfold write, CR, CLRFR, in_ram.
  rewrite !(proj2 (Z.eqb_neq _ _)) by (unfold RAM_BASE; lia).
  replace ((RAM_BASE <=? RAM_BASE + i) && (RAM_BASE + i <? RAM_BASE + RAM_SIZE_BYTES)) with true by lia.
  replace (RAM_BASE + i - RAM_BASE) with i by lia. replace (i + 4 <=? RAM_SIZE_BYTES) with true by lia.
  unfold copy_from_slice. by rewrite bool_decide_true by (rewrite len_le_bytes; lia).
Qed.

Lemma read_ram s i : len (ram s) = RAM_SIZE_BYTES -> 0 <= i -> i + 4 <= RAM_SIZE_BYTES ->
  read s (RAM_BASE + i) 4 = Ret (le_val (sub (ram s) i (i + 4)), s).
Proof.
  intros Hl Hi Hr. unfold read, CR, SR, in_ram.
  rewrite !(proj2 (Z.eqb_neq _ _)) by (unfold RAM_BASE; lia).
  replace ((RAM_BASE <=? RAM_BASE + i) && (RAM_BASE + i <? RAM_BASE + RAM_SIZE_BYTES)) with true by lia.
  replace (RAM_BASE + i - RAM_BASE) with i by lia. replace (RAM_SIZE_BYTES <? i + 4) with false by lia.
  by rewrite slice_ret by lia.
Qed.

Lemma splice_nil {A} (l : list A) i : splice l i [] = l.
Proof. unfold splice. cbn [app length]. by rewrite Nat.add_0_r, take_drop. Qed.

Lemma ram_store_runs s i l : len (ram s) = RAM_SIZE_BYTES -> wf l -> 0 <= i -> i + len l <= RAM_SIZE_BYTES ->
  len l mod 4 = 0 ->
  ram_store s (RAM_BASE + i) (words_le l) = Ret (with_ram (splice (ram s) i l) s).
Proof.
  assert (Hlt : (length l < S (length l))%nat) by lia. revert Hlt.
  generalize (S (length l)). intros n. revert s i l.
  induction n as [|n IH]; intros s i l Hn Hl Hw Hi Hr Hm; [lia|].
  destruct (decide (l = [])) as [->|Hne].
  { cbn. rewrite splice_nil. by destruct s. }
  assert (H4 : 4 <= len l).
  { assert (0 < len l) by (destruct l; [done|rewrite len_cons; pose proof (len_nonneg l); lia]). dlia. }
  destruct l as [|a [|b [|c [|d l]]]]; try (rewrite ?len_cons in H4; change (len []) with 0 in H4; lia).
  set (x := [a; b; c; d]). change (a :: b :: c :: d :: l) with (x ++ l) in *.
  assert (Hlx : len (x ++ l) = 4 + len l) by (rewrite len_app; done).
  apply wf_app_inv in Hw as [Hwx Hwl].
  assert (Ec : words_le (x ++ l) = le_val x :: words_le l).
  { unfold words_le. rewrite chunks_step by (done || lia). done. }
  rewrite Ec. cbn [ram_store]. rewrite write_ram by lia. cbn [rbind].
  rewrite (le_bytes_le_val x 4 Hwx eq_refl).
  replace (RAM_BASE + i + 4) with (RAM_BASE + (i + 4)) by lia.
  pose proof (len_nonneg l) as Hl0.
  rewrite IH; cbn [ram with_ram].
  - f_equal. unfold with_ram. cbn. f_equal. apply (splice_app_adj (ram s) x l i Hi). change (len x) with 4. lia.
  - rewrite length_app in Hn. simpl in Hn. lia.
  - rewrite len_splice; [done|lia|change (len x) with 4; lia].
  - done.
  - lia.
  - lia.
  - rewrite Hlx in Hm. dlia.
Qed.

Lemma ram_load_runs s i n : len (ram s) = RAM_SIZE_BYTES -> wf (ram s) -> 0 <= i ->
  i + 4 * Z.of_nat n <= RAM_SIZE_BYTES ->
  ram_load s (RAM_BASE + i) n = Ret (sub (ram s) i (i + 4 * Z.of_nat n), s).
Proof.
  intros Hl Hw. revert i. induction n as [|n IH]; intros i Hi Hn; cbn [ram_load].
  - replace (i + 4 * Z.of_nat 0) with i by lia. unfold sub. by rewrite Z.sub_diag.
  - rewrite read_ram by lia. cbn [rbind]. replace (RAM_BASE + i + 4) with (RAM_BASE + (i + 4)) by lia.
    rewrite IH by lia. cbn [rbind].
    rewrite le_bytes_le_val; [|auto with wfdb|pose proof (len_sub (ram s) i (i + 4)) as H; unfold len in *; lia].
    rewrite sub_adj by lia. do 3 f_equal. lia.
Qed.
(** *** What lies where *)

Definition at_ram (r : bytes) (w : Z) (d : bytes) : Prop := reverse (sub r (4 * w) (4 * w + len d)) = d.
Definition word_at (r : bytes) (w v : Z) : Prop := le_val (sub r (4 * w) (4 * w + 4)) = v.

(** A piece of RAM that ends before [i] or starts after [j] survives a store to [i..j]. *)
Definition apart (w n i j : Z) : Prop := 4 * w + n <= i \/ j <= 4 * w.

Lemma at_ram_same r w d : 0 <= w -> 4 * w + len d + 3 <= len r -> at_ram (splice r (4 * w) (padded d)) w d.
Proof.
  intros Hw Hr. pose proof (len_padded d) as [Hp _]. pose proof (len_nonneg d). unfold at_ram.
  assert (E : sub (splice r (4 * w) (padded d)) (4 * w) (4 * w + len d) =
    sub (sub (splice r (4 * w) (padded d)) (4 * w) (4 * w + len (padded d))) 0 (len d)).
  { unfold sub. rewrite drop_0, take_take. f_equal. lia. }
  rewrite E, sub_splice_same by lia. apply padded_prefix.
Qed.

Lemma at_ram_other r w d i x : 0 <= w -> 0 <= i -> i + len x <= len r -> apart w (len d) i (i + len x) ->
  at_ram r w d -> at_ram (splice r i x) w d.
Proof. intros Hw Hi Hx Ha H. unfold at_ram in *. rewrite sub_splice_other; (done || lia || idtac). Qed.

Lemma word_at_same r w v : 0 <= w -> 4 * w + 4 <= len r -> u32 v -> word_at (splice r (4 * w) (le_bytes 4 v)) w v.
Proof.
  intros Hw Hr Hv. unfold word_at.
  pose proof (sub_splice_same r (le_bytes 4 v) (4 * w)) as E. rewrite len_le_bytes in E.
  change (Z.of_nat 4) with 4 in E. rewrite E by lia. by apply le_val_le_bytes.
Qed.

Lemma word_at_other r w v i x : 0 <= w -> 0 <= i -> i + len x <= len r -> apart w 4 i (i + len x) ->
  word_at r w v -> word_at (splice r i x) w v.
Proof. intros Hw Hi Hx Ha H. unfold word_at in *. rewrite sub_splice_other; (done || lia || idtac). Qed.

Lemma bits_bytes n : 0 <= n -> (8 * n + 7) / 8 = n.
Proof. intros. dlia. Qed.

Lemma read_bits_in s w v : len (ram s) = RAM_SIZE_BYTES -> 0 <= w -> 4 * w + 4 <= RAM_SIZE_BYTES ->
  word_at (ram s) w v -> read_n_bits s w = Ret v.
Proof. intros Hl Hw Hr H. unfold read_n_bits. rewrite read_word_in by done. by rewrite H. Qed.

Lemma read_at s w d : len (ram s) = RAM_SIZE_BYTES -> wf (ram s) -> 0 <= w -> 4 * w + len d + 3 <= RAM_SIZE_BYTES ->
  at_ram (ram s) w d -> read_operand_be s w (len d) = Ret d.
Proof.
  intros Hl Hwf Hw Hr H. rewrite read_operand_in by (done || apply len_nonneg). by rewrite H.
Qed.

(** *** Numbers *)

Context {BO : BigUintCrateOk}.

Lemma be_val_zeros n l : be_val (replicate n 0 ++ l) = be_val l.
Proof. induction n as [|n IH]; [done|]. cbn [replicate app]. rewrite be_val_head, IH. lia. Qed.

Lemma pad_be_bytes v n : 0 < n -> 0 <= v < 256 ^ n -> pad_be v n = be_bytes (Z.to_nat n) v.
Proof.
  intros Hn Hv. pose proof (to_bytes_be_len v n Hv Hn) as Hl. pose proof (to_bytes_be_val v ltac:(lia)) as Hval.
  pose proof (to_bytes_be_wf v) as Hw. unfold pad_be.
  assert (Hgen : forall l, wf l -> len l = n -> be_val l = v -> l = be_bytes (Z.to_nat n) v).
  { intros l Hlw Hll <-. symmetry. apply be_bytes_be_val; [done|]. unfold len in Hll. lia. }
  destruct (Z.ltb_spec (len (to_bytes_be v)) n).
  - apply Hgen; [auto with wfdb|len_solve|]. unfold vec_repeat. by rewrite be_val_zeros.
  - apply Hgen; [done|lia|done].
Qed.

Definition mod_result (op : ArithOp) (a b m : Z) : Z :=
  match op with Add => (a + b) mod m | Sub => (a - b) mod m | Mul => (a * b) mod m end.

Lemma sub_mod a b n : 0 < n -> a < b ->
  (let m := (b - a) mod n in if m =? 0 then m else n - m) = (a - b) mod n.
Proof.
  intros Hn Hab. cbv zeta. pose proof (Z.mod_pos_bound (b - a) n Hn).
  pose proof (Z.div_mod (b - a) n ltac:(lia)) as Hd.
  destruct (Z.eqb_spec ((b - a) mod n) 0) as [E|E].
  - rewrite E in Hd. apply (Z.mod_unique _ _ (- ((b - a) / n))); lia.
  - apply (Z.mod_unique _ _ (- ((b - a) / n) - 1)); lia.
Qed.

Lemma mod_op_engine e op a b m : wf m -> 0 < be_val m -> 0 < len m ->
  match op with Add => mod_add e a b m | Sub => mod_sub e a b m | Mul => mod_mul e a b m end =
  (be_bytes (length m) (mod_result op (be_val a) (be_val b) (be_val m)), mkEngine Ok).
Proof.
  intros Hw Hm Hl. unfold mod_add, mod_sub, mod_mul. rewrite !from_bytes_be_val.
  pose proof (be_val_bounds m Hw) as Hb.
  assert (Hp : forall x, pad_be (x mod be_val m) (len m) = be_bytes (length m) (x mod be_val m)).
  { intros x. pose proof (Z.mod_pos_bound x (be_val m) Hm). rewrite pad_be_bytes by lia.
    f_equal. unfold len. lia. }
  rewrite (proj2 (Z.eqb_neq _ _)) by lia. destruct op; cbn [mod_result]; rewrite ?Hp; try done.
  destruct (Z.leb_spec (be_val b) (be_val a)); [by rewrite Hp|].
  pose proof (sub_mod (be_val a) (be_val b) (be_val m) Hm ltac:(lia)) as E. cbv zeta in E |- *. rewrite E. by rewrite Hp.
Qed.

(** *** The operations on RAM *)

Lemma do_mod_op_in s op a b m : pka_ok s -> word_at (ram s) MOD_OP_IN_OP_NB_BITS (8 * len m) ->
  at_ram (ram s) MOD_OP_IN_OP1 a -> at_ram (ram s) MOD_OP_IN_OP2 b -> at_ram (ram s) MOD_OP_IN_MODULUS m ->
  len a = len m -> len b = len m -> 0 < len m <= 512 -> wf m -> 0 < be_val m ->
  do_mod_op s op = Ret (true, with_ram (splice (ram s) (4 * MOD_OP_OUT_RESULT)
    (padded (be_bytes (length m) (mod_result op (be_val a) (be_val b) (be_val m))))) (with_engine (mkEngine Ok) s)).
Proof.
  intros (Hl & Hw & _) Hbits Ha Hb Hm Hla Hlb Hn Hwm Hpos.
  assert (HR : RAM_SIZE_BYTES = 7168) by done. unfold do_mod_op.
  rewrite (read_bits_in s _ (8 * len m)) by (done || (rewrite ?HR; unfold MOD_OP_IN_OP_NB_BITS; lia)). cbn [rbind].
  rewrite bits_bytes by lia.
  replace (len m =? 0) with false by lia. replace (1024 <? len m) with false by lia. cbn [orb].
  rewrite <- Hla at 1. rewrite read_at by (done || (rewrite ?HR; unfold MOD_OP_IN_OP1; lia)). cbn [rbind].
  rewrite <- Hlb at 1. rewrite read_at by (done || (rewrite ?HR; unfold MOD_OP_IN_OP2; lia)). cbn [rbind].
  rewrite read_at by (done || (rewrite ?HR; unfold MOD_OP_IN_MODULUS; lia)). cbn [rbind].
  rewrite mod_op_engine by (done || lia).
  set (r := be_bytes _ _). assert (Hr : len r = len m) by (unfold r; rewrite len_be_bytes; done).
  rewrite write_operand_in; [done|done|apply wf_be_bytes|done|].
  rewrite Hr, HR. unfold MOD_OP_OUT_RESULT. lia.
Qed.
Lemma modexp_places mode :
  (if mode =? 3 then (MODEXP_PROTECT_IN_EXPONENT_BASE, MODEXP_PROTECT_IN_EXPONENT, MODEXP_PROTECT_IN_MODULUS)
   else (MODEXP_IN_EXPONENT_BASE, MODEXP_IN_EXPONENT, MODEXP_IN_MODULUS)) = (base_at mode, exponent_at mode, modulus_at mode).
Proof. unfold base_at, exponent_at, modulus_at. by destruct (mode =? 3). Qed.

Lemma modexp_layout mode : (base_at mode = 0x21A /\ exponent_at mode = 0x29E /\ modulus_at mode = 0x322) \/
  (base_at mode = 0x4B2 /\ exponent_at mode = 0x42E /\ modulus_at mode = 0x10E).
Proof. unfold base_at, exponent_at, modulus_at. destruct (mode =? 3); [by right|by left]. Qed.

Lemma do_mod_exp_in s mode base exp m : pka_ok s ->
  word_at (ram s) MODEXP_IN_OP_NB_BITS (8 * len m) -> word_at (ram s) MODEXP_IN_EXP_NB_BITS (8 * len exp) ->
  at_ram (ram s) (base_at mode) base -> at_ram (ram s) (exponent_at mode) exp ->
  at_ram (ram s) (modulus_at mode) m ->
  len base = len m -> 0 < len exp <= 512 -> 0 < len m <= 512 -> wf m -> 0 < be_val m ->
  let r := be_bytes (length m) (be_val base ^ be_val exp mod be_val m) in
  do_mod_exp s (mode =? 3) = Ret (true, with_ram (splice (splice (ram s) (4 * MODEXP_OUT_RESULT) (padded r))
    (4 * MODEXP_OUT_ERROR) (le_bytes 4 PKA_NO_ERROR)) (with_engine (mkEngine Ok) s)).
Proof.
  intros (Hl & Hw & _) Hob Heb Ha He Hm Hla Hle Hn Hwm Hpos r.
  assert (HR : RAM_SIZE_BYTES = 7168) by done. pose proof (modexp_layout mode) as HL. unfold do_mod_exp.
  rewrite (read_bits_in s _ (8 * len m)) by (done || (rewrite ?HR; unfold MODEXP_IN_OP_NB_BITS; lia)). cbn [rbind].
  rewrite (read_bits_in s _ (8 * len exp)) by (done || (rewrite ?HR; unfold MODEXP_IN_EXP_NB_BITS; lia)). cbn [rbind].
  rewrite !bits_bytes by lia.
  replace (len m =? 0) with false by lia. replace (1024 <? len m) with false by lia.
  replace (len exp =? 0) with false by lia. replace (1024 <? len exp) with false by lia. cbn [orb]. rewrite modexp_places.
  rewrite <- Hla at 1. rewrite read_at by (done || (rewrite ?HR; lia)). cbn [rbind].
  rewrite read_at by (done || (rewrite ?HR; lia)). cbn [rbind].
  rewrite read_at by (done || (rewrite ?HR; lia)). cbn [rbind].
  unfold mod_exp. rewrite !from_bytes_be_val, (proj2 (Z.eqb_neq _ _)), modpow_mod by lia.
  pose proof (be_val_bounds m Hwm) as Hb.
  pose proof (Z.mod_pos_bound (be_val base ^ be_val exp) (be_val m) Hpos) as Hmb.
  rewrite pad_be_bytes by lia. replace (Z.to_nat (len m)) with (length m) by (unfold len; lia). fold r.
  assert (Hr : len r = len m) by (unfold r; rewrite len_be_bytes; done).
  assert (Hfit : 4 * MODEXP_OUT_RESULT + len r + 3 <= 7168) by (rewrite Hr; unfold MODEXP_OUT_RESULT; lia).
  rewrite write_operand_in by (done || apply wf_be_bytes). cbn [rbind].
  rewrite write_word_in; [done| |done|done]. cbn [ram with_ram with_engine].
  pose proof (len_padded r) as [Hp _]. rewrite len_splice; [done|done|rewrite Hl, HR; lia].
Qed.

(** *** A session *)

Definition finished (v : Z) : Z := Z.lor (Z.land (Z.lor v SR_BUSY) (not32 SR_BUSY)) SR_PROCENDF.

Definition mode_of (op : ArithOp) : Z :=
  match op with Add => MODE_MODULAR_ADD | Sub => MODE_MODULAR_SUB | Mul => MODE_MONTGOMERY_MUL end.

Lemma start_runs s mode r e : 
  (forall t, ram t = ram s -> pka_ok t -> current_mode t = mode -> run_mode t = Ret (true, with_ram r (with_engine e t))) ->
  pka_ok s -> 0 <= mode < 64 ->
  exists s', start s mode = Ret s' /\ ram s' = r /\ sr s' = finished (sr s) /\ engine s' = e.
Proof.
  intros Hrun Hs Hm. unfold start, write. change (CR =? CR) with true. cbv iota.
  set (v := CR_EN + CR_START + 256 * mode).
  assert (Hv : u32 v /\ has v CR_START && has v CR_EN = true /\ Z.shiftr (Z.land v CR_MODE_MASK) CR_MODE_SHIFT = mode).
  { assert (Hall : Forall (fun m => let v := CR_EN + CR_START + 256 * m in u32 v /\ has v CR_START && has v CR_EN = true /\
      Z.shiftr (Z.land v CR_MODE_MASK) CR_MODE_SHIFT = m) (seqZ 0 64)).
    { repeat (constructor; [vm_compute; split_and!; (reflexivity || discriminate)|]). constructor. }
    rewrite Forall_forall in Hall. apply Hall, elem_of_seqZ. lia. }
  destruct Hv as (Hu & -> & Hmode). unfold execute.
  set (t := with_sr (Z.lor (sr (with_cr v s)) SR_BUSY) (with_cr v s)).
  rewrite (Hrun t); [|done| |done].
  - cbn [rbind negb]. eexists. split; [reflexivity|]. by split_and!.
  - destruct Hs as (H1 & H2 & _ & H4). split_and!; try done; apply Hu || idtac.
    all: apply (u32_lor (sr s) SR_BUSY); [done|vm_compute; split; congruence].
Qed.
(** What a load does: one piece of RAM is replaced. *)
Definition stored_at (s s' : PkaV2) (i : Z) (x : bytes) : Prop :=
  s' = with_ram (splice (ram s) i x) s /\ pka_ok s' /\ 0 <= i /\ i + len x <= len (ram s).

Lemma stored_ok s i x : pka_ok s -> wf x -> 0 <= i -> i + len x <= RAM_SIZE_BYTES ->
  stored_at s (with_ram (splice (ram s) i x) s) i x.
Proof.
  intros Hs Hx Hi Hr. pose proof Hs as (Hl & Hw & _). split; [done|]. split; [|split; [done|lia]].
  apply ram_ok; [done|by rewrite len_splice by lia|by apply wf_splice].
Qed.

Lemma wf_padded d : wf d -> wf (padded d).
Proof. intros. unfold padded. apply wf_app; [by apply wf_reverse|apply wf_replicate; u_solve]. Qed.

Lemma load_operand_runs s w d : pka_ok s -> wf d -> 0 <= w -> 4 * w + len d + 3 <= RAM_SIZE_BYTES ->
  exists s', load_operand s w d = Ret s' /\ stored_at s s' (4 * w) (padded d).
Proof.
  intros Hs Hd Hw Hr. pose proof (len_padded d) as [Hp Hp4]. pose proof (wf_padded d Hd) as Hpw.
  eexists. split; [|apply stored_ok; (done || lia)]. apply ram_store_runs; try done; try lia. apply Hs.
Qed.

Lemma load_bits_runs s w n : pka_ok s -> 0 <= w -> 4 * w + 4 <= RAM_SIZE_BYTES ->
  exists s', load_bits s w n = Ret s' /\ stored_at s s' (4 * w) (le_bytes 4 (8 * n)).
Proof.
  intros Hs Hw Hr. eexists. split; [|apply stored_ok; [done|apply wf_le_bytes|lia|rewrite len_le_bytes; lia]].
  apply write_ram; [apply Hs|lia|lia].
Qed.

Lemma stored_len s s' i x : stored_at s s' i x -> len (ram s') = RAM_SIZE_BYTES.
Proof. intros (_ & H & _). apply H. Qed.

Lemma stored_word s s' i x w v : stored_at s s' i x -> 0 <= w -> apart w 4 i (i + len x) ->
  word_at (ram s) w v -> word_at (ram s') w v.
Proof. intros (-> & _ & Hi & Hx) Hw Ha H. by apply word_at_other. Qed.

Lemma stored_operand s s' i x w d : stored_at s s' i x -> 0 <= w -> apart w (len d) i (i + len x) ->
  at_ram (ram s) w d -> at_ram (ram s') w d.
Proof. intros (-> & _ & Hi & Hx) Hw Ha H. by apply at_ram_other. Qed.

Lemma stored_same s s' w d : pka_ok s -> stored_at s s' (4 * w) (padded d) -> 0 <= w ->
  4 * w + len d + 3 <= RAM_SIZE_BYTES -> at_ram (ram s') w d.
Proof. intros (Hl & _) (-> & _) Hw Hr. apply at_ram_same; [done|lia]. Qed.

Lemma stored_bits s s' w n : stored_at s s' (4 * w) (le_bytes 4 (8 * n)) -> 0 <= w -> 0 <= n <= 1024 ->
  word_at (ram s') w (8 * n).
Proof.
  intros (-> & _ & Hi & Hx) Hw Hn. apply word_at_same; [done| |u_solve]. by rewrite len_le_bytes in Hx.
Qed.

Lemma fetch_runs s w d : len (ram s) = RAM_SIZE_BYTES -> wf (ram s) -> 0 <= w ->
  4 * w + len d + 3 <= RAM_SIZE_BYTES -> at_ram (ram s) w d -> fetch_result s w (len d) = Ret (d, s).
Proof.
  intros Hl Hwf Hw Hr Hd. pose proof (len_nonneg d). unfold fetch_result.
  assert (Hc : 0 <= (len d + 3) / 4 /\ len d <= 4 * ((len d + 3) / 4) <= len d + 3) by dlia.
  rewrite ram_load_runs by (done || lia). cbn [rbind]. do 2 f_equal. rewrite <- Hd at 3. f_equal.
  unfold sub. rewrite drop_0, take_take. f_equal. lia.
Qed.

Ltac layout := unfold apart, MOD_OP_IN_OP_NB_BITS, MOD_OP_IN_OP1, MOD_OP_IN_OP2, MOD_OP_IN_MODULUS, MOD_OP_OUT_RESULT,
  MODEXP_IN_OP_NB_BITS, MODEXP_IN_EXP_NB_BITS,
  MODEXP_OUT_RESULT, MODEXP_OUT_ERROR, RAM_SIZE_BYTES in *; rewrite ?len_le_bytes; lia.

(** A firmware's modular operation is the operation modulo the modulus; subtraction too. *)
Lemma mod_op_session_runs s op a b m : pka_ok s -> wf a -> wf b -> wf m -> len a = len m -> len b = len m ->
  0 < len m <= 512 -> 0 < be_val m ->
  exists s', mod_op_session s (mode_of op) a b m =
    Ret (be_bytes (length m) (mod_result op (be_val a) (be_val b) (be_val m)), s') /\
    pka_ok s' /\ sr s' = finished (sr s) /\ engine s' = mkEngine Ok.
Proof.
  intros Hs Hwa Hwb Hwm Hla Hlb Hn Hpos. unfold mod_op_session.
  pose proof (len_padded a) as [Pa _]. pose proof (len_padded b) as [Pb _]. pose proof (len_padded m) as [Pm _].
  destruct (load_bits_runs s MOD_OP_IN_OP_NB_BITS (len m)) as (s1 & -> & S1); [done|done|layout|]. cbn [rbind].
  pose proof (proj1 (proj2 S1)) as O1.
  destruct (load_operand_runs s1 MOD_OP_IN_OP1 a) as (s2 & -> & S2); [done|done|done|layout|]. cbn [rbind].
  pose proof (proj1 (proj2 S2)) as O2.
  destruct (load_operand_runs s2 MOD_OP_IN_OP2 b) as (s3 & -> & S3); [done|done|done|layout|]. cbn [rbind].
  pose proof (proj1 (proj2 S3)) as O3.
  destruct (load_operand_runs s3 MOD_OP_IN_MODULUS m) as (s4 & -> & S4); [done|done|done|layout|]. cbn [rbind].
  pose proof (proj1 (proj2 S4)) as O4.
  assert (Fb : word_at (ram s4) MOD_OP_IN_OP_NB_BITS (8 * len m)).
  { apply (stored_word _ _ _ _ _ _ S4); [done|layout|]. apply (stored_word _ _ _ _ _ _ S3); [done|layout|].
    apply (stored_word _ _ _ _ _ _ S2); [done|layout|]. apply (stored_bits _ _ _ _ S1); [done|lia]. }
  assert (Fa : at_ram (ram s4) MOD_OP_IN_OP1 a).
  { apply (stored_operand _ _ _ _ _ _ S4); [done|layout|]. apply (stored_operand _ _ _ _ _ _ S3); [done|layout|].
    apply (stored_same s1 s2); [done|done|done|layout]. }
  assert (Fbb : at_ram (ram s4) MOD_OP_IN_OP2 b).
  { apply (stored_operand _ _ _ _ _ _ S4); [done|layout|]. apply (stored_same s2 s3); [done|done|done|layout]. }
  assert (Fm : at_ram (ram s4) MOD_OP_IN_MODULUS m) by (apply (stored_same s3 s4); [done|done|done|layout]).
  assert (Esr : sr s4 = sr s).
  { destruct S1 as [-> _], S2 as [-> _], S3 as [-> _], S4 as [-> _]. done. }
  set (r := be_bytes (length m) (mod_result op (be_val a) (be_val b) (be_val m))).
  assert (Hr : len r = len m) by (unfold r; rewrite len_be_bytes; done).
  destruct (start_runs s4 (mode_of op) (splice (ram s4) (4 * MOD_OP_OUT_RESULT) (padded r)) (mkEngine Ok))
    as (s5 & E5 & R5 & Q5 & G5); [|done|destruct op; vm_compute; split; congruence|].
  { intros t Ht Hok Hmode. rewrite <- Ht in *. unfold r.
    rewrite <- (do_mod_op_in t op a b m) by done. unfold run_mode. rewrite Hmode. by destruct op. }
  rewrite E5. cbn [rbind].
  pose proof (len_padded r) as [Pr _]. pose proof (stored_len _ _ _ _ S4) as L4.
  assert (O5 : pka_ok s5) by (pose proof (pka_write_ok s4 CR 4 (CR_EN + CR_START + 256 * mode_of op) O4) as H;
    unfold start in E5; rewrite E5 in H; apply H; destruct op; vm_compute; split; congruence).
  rewrite <- Hr, (fetch_runs s5 MOD_OP_OUT_RESULT r); [|apply O5|apply O5|done|layout|].
  - exists s5. split; [done|]. split; [done|]. by rewrite Q5, Esr, G5.
  - rewrite R5. apply at_ram_same; [done|layout].
Qed.
(** A start keeps the invariant. *)
Lemma start_ok s mode s' : pka_ok s -> 0 <= mode < 64 -> start s mode = Ret s' -> pka_ok s'.
Proof.
  intros Hs Hm E. pose proof (pka_write_ok s CR 4 (CR_EN + CR_START + 256 * mode) Hs) as H.
  unfold start in E. rewrite E in H. apply H. change (CR_EN + CR_START) with 3. u_solve.
Qed.

(** The modes: plain, fast and protected. *)
Definition is_modexp (mode : Z) : Prop := In mode [0x00; 0x02; 0x03].

Lemma run_modexp t mode : is_modexp mode -> current_mode t = mode -> run_mode t = do_mod_exp t (mode =? 3).
Proof. intros Hm Ht. unfold run_mode. rewrite Ht. by destruct Hm as [<-|[<-|[<-|[]]]]. Qed.

Lemma modexp_session_runs s mode base exp m : pka_ok s -> is_modexp mode -> wf base -> wf exp -> wf m ->
  len base = len m -> 0 < len exp <= 512 -> 0 < len m <= 512 -> 0 < be_val m ->
  exists s', modexp_session s mode base exp m =
    Ret (be_bytes (length m) (be_val base ^ be_val exp mod be_val m), s') /\
    pka_ok s' /\ sr s' = finished (sr s) /\ word_at (ram s') MODEXP_OUT_ERROR PKA_NO_ERROR.
Proof.
  intros Hs Hmd Hwa Hwe Hwm Hla Hle Hn Hpos. unfold modexp_session. pose proof (modexp_layout mode) as HL.
  set (bo := base_at mode) in *. set (eo := exponent_at mode) in *. set (mo := modulus_at mode) in *.
  pose proof (len_padded base) as [Pa _]. pose proof (len_padded exp) as [Pe _]. pose proof (len_padded m) as [Pm _].
  destruct (load_bits_runs s 2 (len m)) as (s1 & -> & S1); [done|done|layout|]. cbn [rbind].
  pose proof (proj1 (proj2 S1)) as O1.
  destruct (load_bits_runs s1 0 (len exp)) as (s2 & -> & S2); [done|done|layout|]. cbn [rbind].
  pose proof (proj1 (proj2 S2)) as O2.
  destruct (load_operand_runs s2 bo base) as (s3 & -> & S3); [done|done|layout|layout|]. cbn [rbind].
  pose proof (proj1 (proj2 S3)) as O3.
  destruct (load_operand_runs s3 eo exp) as (s4 & -> & S4); [done|done|layout|layout|]. cbn [rbind].
  pose proof (proj1 (proj2 S4)) as O4.
  destruct (load_operand_runs s4 mo m) as (s5 & -> & S5); [done|done|layout|layout|]. cbn [rbind].
  pose proof (proj1 (proj2 S5)) as O5.
  assert (Fo : word_at (ram s5) MODEXP_IN_OP_NB_BITS (8 * len m)).
  { apply (stored_word _ _ _ _ _ _ S5); [done|layout|]. apply (stored_word _ _ _ _ _ _ S4); [done|layout|].
    apply (stored_word _ _ _ _ _ _ S3); [done|layout|]. apply (stored_word _ _ _ _ _ _ S2); [done|layout|].
    apply (stored_bits _ _ _ _ S1); [done|lia]. }
  assert (Fe : word_at (ram s5) MODEXP_IN_EXP_NB_BITS (8 * len exp)).
  { apply (stored_word _ _ _ _ _ _ S5); [done|layout|]. apply (stored_word _ _ _ _ _ _ S4); [done|layout|].
    apply (stored_word _ _ _ _ _ _ S3); [done|layout|]. apply (stored_bits _ _ _ _ S2); [done|lia]. }
  assert (Fa : at_ram (ram s5) bo base).
  { apply (stored_operand _ _ _ _ _ _ S5); [layout|layout|]. apply (stored_operand _ _ _ _ _ _ S4); [layout|layout|].
    apply (stored_same s2 s3); [done|done|layout|layout]. }
  assert (Fx : at_ram (ram s5) eo exp).
  { apply (stored_operand _ _ _ _ _ _ S5); [layout|layout|]. apply (stored_same s3 s4); [done|done|layout|layout]. }
  assert (Fm : at_ram (ram s5) mo m) by (apply (stored_same s4 s5); [done|done|layout|layout]).
  assert (Esr : sr s5 = sr s).
  { destruct S1 as [-> _], S2 as [-> _], S3 as [-> _], S4 as [-> _], S5 as [-> _]. done. }
  set (r := be_bytes (length m) (be_val base ^ be_val exp mod be_val m)).
  assert (Hr : len r = len m) by (unfold r; rewrite len_be_bytes; done).
  assert (Hmode : 0 <= mode < 64) by (destruct Hmd as [<-|[<-|[<-|[]]]]; lia).
  destruct (start_runs s5 mode (splice (splice (ram s5) (4 * MODEXP_OUT_RESULT) (padded r))
    (4 * MODEXP_OUT_ERROR) (le_bytes 4 PKA_NO_ERROR)) (mkEngine Ok)) as (s6 & E6 & R6 & Q6 & G6); [|done|done|].
  { intros t Ht Hok Hmt. rewrite <- Ht in *. unfold r.
    rewrite <- (do_mod_exp_in t mode base exp m) by done. by apply run_modexp. }
  rewrite E6. cbn [rbind]. pose proof (start_ok s5 mode s6 O5 Hmode E6) as O6.
  pose proof (len_padded r) as [Pr _]. pose proof (stored_len _ _ _ _ S5) as L5.
  assert (L6 : len (splice (ram s5) (4 * MODEXP_OUT_RESULT) (padded r)) = RAM_SIZE_BYTES)
    by (rewrite len_splice by layout; done).
  rewrite <- Hr, (fetch_runs s6 0x10E r); [|apply O6|apply O6|done|layout|].
  - exists s6. split; [done|]. split; [done|]. split; [by rewrite Q6, Esr|].
    rewrite R6. apply word_at_same; [done|rewrite L6; layout|vm_compute; split; congruence].
  - rewrite R6. apply at_ram_other; [done|done|rewrite L6; layout|layout|]. apply at_ram_same; [done|layout].
Qed.
End session.
