(* ===== verification/Stm32Claims.v ===== *)
(** * STM32Sim: no access panics, and what a firmware gets

    [PeripheralOk] is what the bus relies on: an invariant that every load and store at a
    non-negative offset keeps, without a panic, and loads that return a [u32].  Each
    peripheral implements it; so does the bus of every chip, for any sequence of accesses. *)

From stdpp Require Import strings.
From stdpp Require Import strings sorting.
From S2P Require Import Prelude.
From S2P Require Import Crc.
From S2P Require Import Crates.
From S2P Require Import Se050Crates.
From S2P Require Import McuCrates.
From S2P Require Import Stm32Core.
From S2P Require Import Stm32Cryp.
From S2P Require Import Stm32Hash.
From S2P Require Import Stm32Pka.
From S2P Require Import Stm32Chips.
From S2P Require Import Stm32Gf128.
From S2P Require Import Stm32Engine.
From S2P Require Import Stm32Port.
From S2P Require Import Stm32CrypPortV1.
From S2P Require Import Stm32CrypPortV2.
From S2P Require Import Stm32HashPort.
From S2P Require Import Stm32PkaFacts.

(** A [u32] mask on a register. *)
Lemma u32_const v : (0 <=? v) && (v <? 4294967296) = true -> u32 v.
Proof. u_solve. Qed.

(** ** HASH *)

Module hash_safe.
Import hash.

Section hash.
Context {D : DigestCrates} {DO : DigestCratesOk D}.

Definition result_ok (e : Engine) : Prop := len (result e) = 16 /\ Forall u32 (result e).

Definition hash_ok (s : Stm32Hash.v1.HashV1) : Prop :=
  result_ok (Stm32Hash.v1.engine s) /\
  (len (Stm32Hash.v1.csr s) = 54 /\ Forall u32 (Stm32Hash.v1.csr s)) /\
  u32 (Stm32Hash.v1.cr s) /\ u32 (Stm32Hash.v1.str_reg s) /\ u32 (Stm32Hash.v1.imr s) /\
  u32 (Stm32Hash.v1.sr s) /\ u32 (Stm32Hash.v1.sha3cfgr s).

Lemma zero_words n : Forall u32 (vec_repeat 0 n).
Proof. apply Forall_replicate. u_solve. Qed.

Lemma finalize_reset_wf h : wf (finalize_reset h).
Proof. destruct h; [apply digest_finalize_wf|apply xof_read_wf]. Qed.

Lemma stage_digest_ok e d : result_ok e -> wf d -> result_ok (stage_digest e d).
Proof.
  intros [Hl Hu] Hd. unfold stage_digest, result_ok. cbn [result with_result].
  set (words := take 16 (be_word <$> chunks 4 d)).
  assert (Hw : (length words <= 16)%nat) by (unfold words; rewrite length_take; lia). split.
  - rewrite len_app, len_drop, Hl. unfold len. lia.
  - apply Forall_app. split; [|by apply Forall_drop]. unfold words. apply Forall_take, Forall_fmap.
    pose proof (wf_concat_inv (chunks 4 d)) as Hc. rewrite concat_chunks in Hc by lia.
    eapply Forall_impl; [exact (Hc Hd)|]. intros c Hcw. unfold be_word. cbn.
    apply u32_be_val4; [by rewrite len_resize|]. apply wf_resize; [done|u_solve].
Qed.

Lemma feed_word_result e w n : result (feed_word e w n) = result e.
Proof.
  unfold feed_word. destruct (finalised e); [done|].
  destruct (hmac_phase e) eqn:P; try (by destruct (hasher e)); by case_bool_decide.
Qed.

Lemma finalize_ok e : result_ok e -> result_ok (finalize e).
Proof.
  intros He. unfold finalize. destruct (finalised e); [done|]. destruct (hmac_phase e).
  - unfold finalize_plain. destruct (hasher e); [|done]. apply (stage_digest_ok e); [done|apply finalize_reset_wf].
  - unfold hmac_finish_key1. by destruct (_ <? _).
  - unfold hmac_finish_msg. destruct (hasher e); [|done]. by destruct (hmac_outer e).
  - unfold hmac_finish_key2. destruct (hasher e); [|done]. apply (stage_digest_ok e); [done|apply finalize_reset_wf].
Qed.

Lemma restore_ok e : result_ok e -> result_ok (restore_from_snapshot e).2.
Proof. intros He. unfold restore_from_snapshot. destruct (saved_hasher e); [|done]. split; [done|apply zero_words]. Qed.

Lemma capture_ok e : result_ok e -> result_ok (capture_snapshot e).
Proof. intros He. unfold capture_snapshot. by destruct (hasher e). Qed.

Lemma with_engine_ok s e : hash_ok s -> result_ok e -> hash_ok (Stm32Hash.v1.with_engine e s).
Proof. unfold hash_ok. cbn. tauto. Qed.
Lemma with_pending_ok s p : hash_ok s -> hash_ok (Stm32Hash.v1.with_pending p s).
Proof. done. Qed.

Lemma new_hash_ok l : hash_ok (Stm32Hash.v1.with_layout_new l).
Proof.
  split; [split; [done|apply zero_words]|]. split; [split; [done|apply zero_words]|].
  split_and!; by apply u32_const.
Qed.

Lemma hash_write_cr_ok s v : hash_ok s -> u32 v -> hash_ok (Stm32Hash.v1.write_cr s v).
Proof.
  intros Hs Hv. unfold Stm32Hash.v1.write_cr. cbv zeta.
  set (s1 := Stm32Hash.v1.with_cr _ s).
  assert (H1 : hash_ok s1).
  { unfold hash_ok in *. cbn. split_and!; try tauto. all: apply u32_land; [done|vm_compute; discriminate]. }
  clearbody s1. match goal with |- hash_ok (_ _ (if ?b then _ else _)) => destruct b end; [|done].
  assert (Hsr : forall t, hash_ok t -> hash_ok (Stm32Hash.v1.with_sr Stm32Hash.v1.SR_DINIS t)).
  { intros t Ht. unfold hash_ok in *. cbn. split_and!; try tauto. all: by apply u32_const. }
  match goal with |- context [if ?b then _ else _] => destruct b end.
  - apply (Hsr (Stm32Hash.v1.with_pending _ _)). apply (with_engine_ok s1); [done|]. apply restore_ok, H1.
  - apply (Hsr (Stm32Hash.v1.with_pending _ _)). apply (with_engine_ok s1); [done|].
    split; [done|apply zero_words].
Qed.

Lemma hash_write_str_ok s v : hash_ok s -> u32 v -> hash_ok (Stm32Hash.v1.write_str s v).
Proof.
  intros Hs Hv. unfold Stm32Hash.v1.write_str. cbv zeta.
  set (s1 := Stm32Hash.v1.with_str_written_since_cr true _).
  assert (H1 : hash_ok s1) by (unfold hash_ok in *; cbn; tauto).
  assert (Hstr : Stm32Hash.v1.str_reg s1 = v) by done. clearbody s1. destruct (_ && _); [|done].
  set (s2 := match Stm32Hash.v1.pending s1 with Some _ => _ | None => _ end).
  assert (H2 : hash_ok s2 /\ u32 (Stm32Hash.v1.str_reg s2)).
  { unfold s2. destruct (Stm32Hash.v1.pending s1); [|split; [done|by rewrite Hstr]].
    split; [|cbn; by rewrite Hstr]. apply (with_engine_ok (Stm32Hash.v1.with_pending None s1)); [done|].
    unfold result_ok. rewrite feed_word_result. apply H1. }
  clearbody s2. destruct H2 as [H2 Hstr2].
  assert (H3 : result_ok (finalize (Stm32Hash.v1.engine s2))) by apply finalize_ok, H2.
  unfold hash_ok in *. cbn. split_and!; try tauto; try (apply zero_words); try (by apply u32_const).
  all: try (apply u32_land; [done|vm_compute; discriminate]). all: try apply H3.
Qed.

Lemma hash_read_hr_ok s i (Q : Z -> Prop) : hash_ok s -> 0 <= i -> (forall v, u32 v -> Q v) -> wp (Stm32Hash.v1.read_hr s i) Q.
Proof.
  intros [[Hl Hu] _] Hi HQ. unfold Stm32Hash.v1.read_hr.
  destruct (Z.ltb_spec i (len (result (Stm32Hash.v1.engine s)))); cbn [andb]; [|apply HQ; u_solve].
  destruct (finalised _); [|apply HQ; u_solve]. apply wp_idx; [lia|]. intros v Hv.
  apply HQ. exact (Forall_lookup_1 _ _ _ _ Hu Hv).
Qed.

Lemma hash_read_ok s off sz : hash_ok s -> wp (Stm32Hash.v1.read s off sz) (fun '(v, s) => u32 v /\ hash_ok s).
Proof.
  intros Hs. pose proof Hs as (Hr & [Hc Hcu] & Hcr & Hstr & Himr & Hsr & Hsh). unfold Stm32Hash.v1.read.
  do 5 (match goal with |- context [if off =? ?k then _ else _] => destruct (off =? k); [done|] end).
  destruct (in_range Stm32Hash.v1.HR_LEGACY_BASE _ off) eqn:R1.
  { unfold in_range, Stm32Hash.v1.HR_LEGACY_BASE, Stm32Hash.v1.HR_LEGACY_END in *.
    apply wp_bind, hash_read_hr_ok; [done|dlia|]. by split. }
  destruct (in_range Stm32Hash.v1.HR_EXT_BASE _ off) eqn:R2.
  { unfold in_range, Stm32Hash.v1.HR_EXT_BASE, Stm32Hash.v1.HR_EXT_END in *.
    apply wp_bind, hash_read_hr_ok; [done|dlia|]. by split. }
  destruct (in_range Stm32Hash.v1.CSR_BASE _ off) eqn:R3; [|by split; [u_solve|]].
  unfold in_range, Stm32Hash.v1.CSR_BASE, Stm32Hash.v1.CSR_END in *.
  match goal with |- context [idx (Stm32Hash.v1.csr ?t) _] => set (s1 := t) end.
  assert (H1 : hash_ok s1 /\ Stm32Hash.v1.csr s1 = Stm32Hash.v1.csr s).
  { unfold s1. destruct (_ =? 0); [|done]. split; [|done].
    apply (with_engine_ok s); [done|]. by apply capture_ok. }
  destruct H1 as [H1 Ec]. cbv zeta. rewrite Ec. apply wp_bind, wp_idx; [dlia|]. intros v Hv.
  split; [exact (Forall_lookup_1 _ _ _ _ Hcu Hv)|done].
Qed.

Lemma hash_write_ok s off sz v : hash_ok s -> u32 v -> wp (Stm32Hash.v1.write s off sz v) hash_ok.
Proof.
  intros Hs Hv. pose proof Hs as (Hr & [Hc Hcu] & Hrest). unfold Stm32Hash.v1.write.
  destruct (off =? _); [by apply hash_write_cr_ok|].
  destruct (off =? _).
  { apply wp_ret. unfold Stm32Hash.v1.write_din. destruct (Stm32Hash.v1.pending s); [|done].
    apply (with_engine_ok s); [done|]. unfold result_ok. by rewrite feed_word_result. }
  destruct (off =? _); [by apply hash_write_str_ok|].
  destruct (off =? _); [unfold hash_ok in *; cbn; tauto|].
  destruct (off =? _).
  { apply wp_ret. unfold hash_ok in *. cbn. split_and!; try tauto.
    all: apply u32_land; [tauto|]; apply not32_nonneg; u_solve. }
  destruct (off =? _); [unfold hash_ok in *; cbn; tauto|].
  destruct (in_range Stm32Hash.v1.CSR_BASE _ off) eqn:R3; [|done].
  unfold in_range, Stm32Hash.v1.CSR_BASE, Stm32Hash.v1.CSR_END in *. apply wp_bind, wp_set_idx; [dlia|].
  unfold hash_ok in *. cbn. split; [tauto|]. split; [|tauto].
  split; [by rewrite len_insert|by apply Forall_insert].
Qed.
End hash.
End hash_safe.

(** ** The interface *)

Class PeripheralOk (P : Type) {PP : Peripheral P} := {
  p_ok : P -> Prop;
  p_read_ok p off sz : p_ok p -> 0 <= off -> wp (p_read p off sz) (fun '(v, p) => u32 v /\ p_ok p);
  p_write_ok p off sz v : p_ok p -> 0 <= off -> u32 v -> wp (p_write p off sz v) p_ok;
}.

(** ** The small peripherals *)

Definition words_ok (n : Z) (l : list Z) : Prop := len l = n /\ Forall u32 l.

Lemma words_ok_zero n : 0 <= n -> words_ok n (vec_repeat 0 n).
Proof. intros. split; [rewrite len_vec_repeat; lia|apply Forall_replicate; u_solve]. Qed.

(** A register file indexed by [offset / 4]. *)
Lemma file_read n l off (Q : Z -> Prop) : words_ok n l -> 0 <= off -> (forall v, u32 v -> Q v) ->
  wp (if off / 4 <? len l then idx l (off / 4) else Ret 0) Q.
Proof.
  intros [Hl Hu] Ho HQ. destruct (Z.ltb_spec (off / 4) (len l)); [|apply HQ; u_solve].
  apply wp_idx; [split; [by apply Z.div_pos|done]|]. intros v Hv. apply HQ. exact (Forall_lookup_1 _ _ _ _ Hu Hv).
Qed.

Lemma file_write {T} n l off v (k : list Z -> res T) Q : words_ok n l -> 0 <= off -> u32 v ->
  off / 4 < len l -> (forall l, words_ok n l -> wp (k l) Q) -> wp (let! r := set_idx l (off / 4) v in k r) Q.
Proof.
  intros [Hl Hu] Ho Hv Hlt HQ. apply wp_bind, wp_set_idx; [split; [by apply Z.div_pos|done]|].
  apply HQ. split; [by rewrite len_insert|by apply Forall_insert].
Qed.

Section devices.
Context {A : AesBlocks} {D : DigestCrates} {B : BigUintCrate} {E : EccCrates} {C : ChaCha}.
Context {AO : AesBlocksOk A} {DO : DigestCratesOk D} {CO : ChaChaOk C}.

Definition rng_ok (s : rng.Rng) : Prop := u32 (rng.cr s) /\ u32 (rng.sr s).

Lemma rng_read_ok s off sz : rng_ok s -> wp (rng.read s off sz) (fun '(v, s) => u32 v /\ rng_ok s).
Proof.
  intros Hs. unfold rng.read. destruct (off =? 0); [by destruct Hs|]. destruct (off =? 4).
  { split; [|done]. apply u32_lor; [apply Hs|by apply u32_const]. }
  destruct (off =? 8); [|by split; [u_solve|]]. pose proof (next_u32_range (rng.generator s)) as H.
  destruct (next_u32 _) as [v g]. by split.
Qed.

Lemma rng_write_ok s off sz v : rng_ok s -> u32 v -> wp (rng.write s off sz v) rng_ok.
Proof.
  intros [H1 H2] Hv. unfold rng.write. destruct (off =? 0); [by split|]. destruct (off =? 4); [|by split].
  split; [done|]. apply u32_land; [done|vm_compute; discriminate].
Qed.

Definition usart_ok (s : usart.Usart) : Prop :=
  wf (usart.buf s) /\ u32 (usart.cr1 s) /\ u32 (usart.cr2 s) /\ u32 (usart.cr3 s) /\ u32 (usart.brr s).

Lemma usart_read_ok s off sz : usart_ok s -> wp (usart.read s off sz) (fun '(v, s) => u32 v /\ usart_ok s).
Proof.
  intros Hs. pose proof Hs as (? & ? & ? & ? & ?). unfold usart.read.
  repeat case_match; (split; [by (done || apply u32_const)|done]).
Qed.

Lemma usart_write_ok s off sz v : usart_ok s -> u32 v -> wp (usart.write s off sz v) usart_ok.
Proof.
  intros (? & ? & ? & ? & ?) Hv. unfold usart.write. repeat case_match; apply wp_ret; unfold usart_ok; cbn;
    repeat (split; [assumption|]); try assumption.
  split; [|tauto]. apply wf_app; [done|]. apply wf_cons; [apply u8_as_u8|apply wf_nil].
Qed.

Definition rcc_ok (s : rcc.Rcc) : Prop :=
  words_ok 1024 (rcc.regs s) /\ Forall (fun p => u32 p.2) (rcc.ready_offsets s).

Lemma rcc_extra_u32 l off acc : u32 acc -> Forall (fun p : Z * Z => u32 p.2) l ->
  u32 (fold_left (fun extra '(o, m) => if o =? off then Z.lor extra m else extra) l acc).
Proof.
  intros Ha Hl. revert acc Ha. induction Hl as [|[o m] l Hm Hl IH]; intros acc Ha; cbn [fold_left]; [done|].
  apply IH. destruct (o =? off); [by apply u32_lor|done].
Qed.

Lemma rcc_read_ok s off sz : rcc_ok s -> 0 <= off -> wp (rcc.read s off sz) (fun '(v, s) => u32 v /\ rcc_ok s).
Proof.
  intros [Hw Hr] Ho. unfold rcc.read. cbv zeta. apply wp_bind, (file_read 1024); [done..|]. intros v Hv.
  split; [|done]. apply u32_lor; [done|]. apply rcc_extra_u32; [u_solve|done].
Qed.

Lemma rcc_write_ok s off sz v : rcc_ok s -> 0 <= off -> u32 v -> wp (rcc.write s off sz v) rcc_ok.
Proof.
  intros [Hw Hr] Ho Hv. unfold rcc.write. cbv zeta. destruct (Z.ltb_spec (off / 4) (len (rcc.regs s))); [|done].
  apply (file_write 1024); [done..|]. intros l Hl. by split.
Qed.

Definition dbgmcu_ok (s : dbgmcu.Dbgmcu) : Prop := words_ok 256 (dbgmcu.regs s) /\ u32 (dbgmcu.idcode s).

Lemma dbgmcu_read_ok s off sz : dbgmcu_ok s -> 0 <= off -> wp (dbgmcu.read s off sz) (fun '(v, s) => u32 v /\ dbgmcu_ok s).
Proof.
  intros [Hw Hr] Ho. unfold dbgmcu.read. destruct (off =? dbgmcu.IDC); [done|].
  apply wp_bind, (file_read 256); [done..|]. by intros v Hv.
Qed.

Lemma dbgmcu_write_ok s off sz v : dbgmcu_ok s -> 0 <= off -> u32 v -> wp (dbgmcu.write s off sz v) dbgmcu_ok.
Proof.
  intros [Hw Hr] Ho Hv. unfold dbgmcu.write. cbv zeta. destruct (Z.ltb_spec (off / 4) (len (dbgmcu.regs s))); [|done].
  apply (file_write 256); [done..|]. intros l Hl. by split.
Qed.

(** ** A device *)

Definition device_ok (d : Device) : Prop :=
  match d with
  | DCrypV1 s => V1.ok s
  | DCrypV2 s => V2.ok s
  | DHash s => hash_safe.hash_ok s
  | DPka s => pka_ok s
  | DRng s => rng_ok s
  | DUsart s => usart_ok s
  | DRcc s => rcc_ok s
  | DDbgmcu s => dbgmcu_ok s
  end.

Lemma answer_ok {P} (wrap : P -> Device) (m : res (Z * P)) (ok : P -> Prop) :
  (forall p, ok p -> device_ok (wrap p)) -> wp m (fun '(v, p) => u32 v /\ ok p) ->
  wp (answer wrap m) (fun '(v, d) => u32 v /\ device_ok d).
Proof. intros H Hm. apply wp_bind. eapply wp_mono; [exact Hm|]. intros [v p] []. split; auto. Qed.

Lemma stored_dev_ok {P} (wrap : P -> Device) (m : res P) (ok : P -> Prop) :
  (forall p, ok p -> device_ok (wrap p)) -> wp m ok -> wp (stored wrap m) device_ok.
Proof. intros H Hm. apply wp_bind. eapply wp_mono; [exact Hm|]. auto. Qed.

#[export] Instance device_peripheral_ok : PeripheralOk Device.
Proof.
  refine {| p_ok := device_ok |}.
  - intros d off sz Hd Ho. destruct d; cbn in Hd; eapply answer_ok; try (intros p Hp; exact Hp).
    + by apply V1.read_ok.
    + by apply V2.read_ok_v2.
    + by apply hash_safe.hash_read_ok.
    + by apply pka_read_ok.
    + by apply rng_read_ok.
    + by apply usart_read_ok.
    + by apply rcc_read_ok.
    + by apply dbgmcu_read_ok.
  - intros d off sz v Hd Ho Hv. destruct d; cbn in Hd; eapply stored_dev_ok; try (intros p Hp; exact Hp).
    + by apply V1.write_ok.
    + by apply V2.write_ok_v2.
    + by apply hash_safe.hash_write_ok.
    + by apply pka_write_ok.
    + by apply rng_write_ok.
    + by apply usart_write_ok.
    + by apply rcc_write_ok.
    + by apply dbgmcu_write_ok.
Defined.
End devices.

(** ** The bus *)

Section bus.
Context {D : Type} {PD : Peripheral D} {OK : PeripheralOk D}.

Definition bus_ok (b : Bus D) : Prop := Forall (fun r => p_ok (peripheral r)) b.

(** What a bus keeps: where its regions are. *)
Definition shape (b : Bus D) : list (Z * Z * string) := (fun r => (base r, size r, name r)) <$> b.

Lemma dispatch_read_ok b addr sz : bus_ok b ->
  wp (dispatch_read b addr sz) (fun '(v, b') => u32 v /\ bus_ok b' /\ shape b' = shape b).
Proof.
  intros Hb. induction Hb as [|r b Hr Hb IH]; cbn [dispatch_read]; [split; [u_solve|]; by split; [constructor|]|].
  destruct (hit r addr) eqn:Hh.
  - apply wp_bind. eapply wp_mono; [apply p_read_ok; [done|apply u32_as_u32]|].
    intros [v p] [Hv Hp]. split; [done|]. split; [by constructor|done].
  - apply wp_bind. eapply wp_mono; [exact IH|]. intros [v b'] (Hv & Hb' & Hsh).
    split; [done|]. split; [by constructor|]. unfold shape in *. cbn. by rewrite Hsh.
Qed.

Lemma dispatch_write_ok b addr sz v : bus_ok b -> u32 v ->
  wp (dispatch_write b addr sz v) (fun b' => bus_ok b' /\ shape b' = shape b).
Proof.
  intros Hb Hv. induction Hb as [|r b Hr Hb IH]; cbn [dispatch_write]; [by split; [constructor|]|].
  destruct (hit r addr) eqn:Hh.
  - apply wp_bind. eapply wp_mono; [apply p_write_ok; [done|apply u32_as_u32|done]|].
    intros p Hp. split; [by constructor|done].
  - apply wp_bind. eapply wp_mono; [exact IH|]. intros b' (Hb' & Hsh).
    split; [by constructor|]. unfold shape in *. cbn. by rewrite Hsh.
Qed.

(** A CPU's accesses, and what its loads return. *)
Inductive Access := Load (addr sz : Z) | Store (addr sz value : Z).

Definition access_ok (a : Access) : Prop := match a with Load _ _ => True | Store _ _ v => u32 v end.

Definition access (b : Bus D) (a : Access) : res (list Z * Bus D) :=
  match a with
  | Load addr sz => let! '(v, b) := dispatch_read b addr sz in Ret ([v], b)
  | Store addr sz v => let! b := dispatch_write b addr sz v in Ret ([], b)
  end.

Fixpoint accesses (b : Bus D) (l : list Access) : res (list Z * Bus D) :=
  match l with
  | [] => Ret ([], b)
  | a :: l =>
      let! '(vs, b) := access b a in
      let! '(ws, b) := accesses b l in
      Ret (vs ++ ws, b)
  end.

Lemma accesses_ok b l : bus_ok b -> Forall access_ok l ->
  wp (accesses b l) (fun '(vs, b') => Forall u32 vs /\ bus_ok b' /\ shape b' = shape b).
Proof.
  intros Hb Hl. revert b Hb. induction Hl as [|a l Ha Hl IH]; intros b Hb; cbn [accesses]; [by split_and!|].
  apply wp_bind. apply (wp_mono _ (fun '(vs, b') => Forall u32 vs /\ bus_ok b' /\ shape b' = shape b)).
  - destruct a as [addr sz|addr sz v]; cbn [access]; apply wp_bind.
    + eapply wp_mono; [by apply dispatch_read_ok|]. intros [v b'] (Hv & Hb' & Hsh). split; [by constructor|done].
    + eapply wp_mono; [by apply dispatch_write_ok|]. intros b' []. by split.
  - intros [vs b1] (Hvs & Hb1 & Hs1). apply wp_bind. eapply wp_mono; [by apply IH|].
    intros [ws b2] (Hws & Hb2 & Hs2). split; [by apply Forall_app|]. split; [done|congruence].
Qed.
End bus.

(** ** The chips *)

Section chips.
Context {A : AesBlocks} {D : DigestCrates} {B : BigUintCrate} {E : EccCrates} {C : ChaCha}.
Context {AO : AesBlocksOk A} {DO : DigestCratesOk D} {CO : ChaChaOk C}.

Lemma usart_new_ok : device_ok (DUsart usart.new).
Proof. split; [apply wf_nil|]. split_and!; by apply u32_const. Qed.
Lemma rng_new_ok : device_ok (DRng rng.new).
Proof. split; by apply u32_const. Qed.
Lemma rcc_raw_ok : device_ok (DRcc rcc.raw).
Proof. split; [by apply words_ok_zero|constructor]. Qed.
Lemma rcc_h7_ok : device_ok (DRcc rcc.h7).
Proof. split; [by apply words_ok_zero|]. constructor; [by apply u32_const|constructor]. Qed.
Lemma rcc_u5_ok : device_ok (DRcc rcc.u5).
Proof. split; [by apply words_ok_zero|]. constructor; [by apply u32_const|constructor]. Qed.
Lemma dbgmcu_new_ok id : u32 id -> device_ok (DDbgmcu (dbgmcu.mkDbgmcu id (vec_repeat 0 256))).
Proof. split; [by apply words_ok_zero|done]. Qed.
Lemma cryp_v1_new_ok : device_ok (DCrypV1 Stm32Cryp.v1.new).
Proof. exact V1.new_ok. Qed.
Lemma cryp_v2_new_ok : device_ok (DCrypV2 Stm32Cryp.v2.new).
Proof. exact V2.new_ok_v2. Qed.
Lemma hash_new_ok l : device_ok (DHash (Stm32Hash.v1.with_layout_new l)).
Proof. exact (hash_safe.new_hash_ok l). Qed.
Lemma pka_new_dev_ok : device_ok (DPka Stm32Pka.v2.new).
Proof. exact pka_new_ok. Qed.

Lemma bus_map_ok b ba sz n d : bus_ok b -> device_ok d -> bus_ok (bus_map b ba sz n d).
Proof. intros Hb Hd. apply Forall_app. split; [exact Hb|]. constructor; [exact Hd|constructor]. Qed.

Ltac map_ok := apply bus_map_ok; [|lazymatch goal with
  | |- device_ok (DUsart _) => exact usart_new_ok
  | |- device_ok (DRng _) => exact rng_new_ok
  | |- device_ok (DRcc rcc.raw) => exact rcc_raw_ok
  | |- device_ok (DRcc rcc.h7) => exact rcc_h7_ok
  | |- device_ok (DRcc rcc.u5) => exact rcc_u5_ok
  | |- device_ok (DCrypV1 _) => exact cryp_v1_new_ok
  | |- device_ok (DCrypV2 _) => exact cryp_v2_new_ok
  | |- device_ok (DHash _) => apply hash_new_ok
  | |- device_ok (DPka _) => exact pka_new_dev_ok
  | |- device_ok (DDbgmcu _) => apply dbgmcu_new_ok, u32_const; reflexivity
  end].

Lemma h753_ok : bus_ok (chip_bus stm32h753).
Proof. unfold stm32h753. cbv zeta. cbn [chip_bus]. do 6 map_ok. constructor. Qed.
Lemma u575_ok : bus_ok (chip_bus stm32u575).
Proof. unfold stm32u575. cbv zeta. cbn [chip_bus]. do 7 map_ok. constructor. Qed.
Lemma mp135_ok : bus_ok (chip_bus stm32mp135).
Proof. unfold stm32mp135. cbv zeta. cbn [chip_bus]. do 7 map_ok. constructor. Qed.

Lemma chip_bus_ok name chip : build name = Some chip -> bus_ok (chip_bus chip).
Proof.
  unfold build. intros H. repeat case_bool_decide; injection H as <- || discriminate H;
    [apply h753_ok|apply u575_ok|apply u575_ok|apply mp135_ok].
Qed.
End chips.

(** ** What a firmware gets

    The properties of the crypto peripherals as a firmware sees them through the
    registers: the chaining modes, GCM, digests, HMAC, modular arithmetic; and of the bus
    of each chip. *)

#[export] Existing Instances Stm32Cryp.v1.peripheral_v1 Stm32Cryp.v2.peripheral_v2 V1.cryp_port_v1
  V1.cryp_port_v1_ok V2.cryp_port_v2 V2.cryp_port_v2_ok.

(** ** CRYP *)

Section cryp.
Context {A : AesBlocks} {AO : AesBlocksOk A}.
Import cryp.

Lemma xor_invol (a b : bytes) : len a = len b -> xor_bytes (xor_bytes a b) b = a.
Proof.
  revert b. induction a as [|x a IH]; intros [|y b] H; try done;
    rewrite ?len_cons in H; change (len []) with 0 in H; try (pose proof (len_nonneg a); pose proof (len_nonneg b); lia).
  cbn. f_equal; [|apply IH; lia]. by rewrite Z.lxor_assoc, Z.lxor_nilpotent, Z.lxor_0_r.
Qed.

Lemma cbc_modes_inverse k iv bs : block iv -> Forall block bs -> cbc_decrypt k iv (cbc_encrypt k iv bs) = bs.
Proof.
  intros Hiv Hbs. revert iv Hiv. induction Hbs as [|b bs Hb Hbs IH]; intros iv Hiv; [done|].
  cbn [cbc_encrypt cbc_decrypt]. assert (Hx : block (xor_bytes b iv)) by auto with stm32.
  rewrite IH by auto with stm32. f_equal. destruct Hx as [Hl Hw]. rewrite aes_dec_enc by done.
  destruct Hb as [Hbl Hbw], Hiv as [Hil Hiw]. apply xor_invol. lia.
Qed.

Lemma ctr_modes_inverse k iv bs : Forall block bs -> ctr_crypt k iv (ctr_crypt k iv bs) = bs.
Proof.
  intros Hbs. unfold ctr_crypt. apply list_eq. intros i. rewrite !list_lookup_imap.
  destruct (bs !! i) as [b|] eqn:E; [|done]. cbn -[be_bytes Z.pow]. f_equal.
  pose proof (Forall_lookup_1 _ _ _ _ Hbs E) as [Hl _]. apply xor_invol. rewrite Hl.
  symmetry. apply (block_enc k). auto with stm32.
Qed.

Lemma mode_inverse m k iv bs : streaming m -> block iv -> Forall block bs ->
  mode_crypt m Decrypt k iv (mode_crypt m Encrypt k iv bs) = bs.
Proof.
  intros [-> | [-> | ->]] Hiv Hbs; cbn [mode_crypt].
  - induction Hbs as [|b bs [Hl Hw] Hbs IH]; [done|]. cbn. by rewrite IH, aes_dec_enc.
  - by apply cbc_modes_inverse.
  - by apply ctr_modes_inverse.
Qed.

Lemma cbc_encrypt_blocks k iv bs : block iv -> Forall block bs -> Forall block (cbc_encrypt k iv bs).
Proof.
  intros Hiv Hbs. revert iv Hiv. induction Hbs; intros iv Hiv; constructor; auto with stm32.
Qed.

Lemma mode_encrypt_blocks m k iv bs : streaming m -> block iv -> Forall block bs ->
  Forall block (mode_crypt m Encrypt k iv bs).
Proof.
  intros [-> | [-> | ->]] Hiv Hbs; cbn [mode_crypt].
  - apply Forall_fmap. eapply Forall_impl; [exact Hbs|]. intros b Hb. cbn. auto with stm32.
  - by apply cbc_encrypt_blocks.
  - unfold ctr_crypt. apply Forall_lookup. intros i x. rewrite list_lookup_imap.
    destruct (bs !! i) as [b|] eqn:E; [|done]. cbn -[be_bytes Z.pow]. intros [= <-].
    pose proof (Forall_lookup_1 _ _ _ _ Hbs E). auto with stm32.
Qed.

(** C25: A streaming mode through the H7/MP13 registers and through the U5 registers is the
    reference mode, in any data type, and the peripheral is ready for the next session. *)
Theorem cryp_session_computes (cfg : Config) (k iv : bytes) (bs : list bytes)
    (Hmode : streaming (g_mode cfg)) (Hk : len k = key_len (g_size cfg)) (Hw : wf k)
    (Hiv : block iv) (Hbs : Forall block bs) :
  (forall s : Stm32Cryp.v1.CrypV1, V1.ok s -> V1.off s ->
     exists s', cryp_session s cfg k iv bs = Ret (mode_crypt (g_mode cfg) (g_dir cfg) k iv bs, s') /\
       V1.ok s' /\ V1.off s') /\
  (V2.supports cfg -> forall s : Stm32Cryp.v2.CrypV2, V2.ok s -> V2.off s ->
     exists s', cryp_session s cfg k iv bs = Ret (mode_crypt (g_mode cfg) (g_dir cfg) k iv bs, s') /\
       V2.ok s' /\ V2.off s').
Proof.
  split.
  - intros s Hs Hoff. by apply (cryp_session_runs (C := V1.cryp_port_v1)).
  - intros Hsup s Hs Hoff. by apply (cryp_session_runs (C := V2.cryp_port_v2)).
Qed.

Definition enc_config (sz : KeySize) (dt : DataType) (m : AesMode) : Config := mkConfig sz dt m Encrypt.
Definition dec_config (sz : KeySize) (dt : DataType) (m : AesMode) : Config := mkConfig sz dt m Decrypt.

(** A message encrypted on an H7 is decrypted on a U5, and the other way round, whatever
    the data types of the two sessions. *)
Theorem cryp_roundtrip (sz : KeySize) (dt dt' : DataType) (m : AesMode) (k iv : bytes) (bs : list bytes)
    (s1 : Stm32Cryp.v1.CrypV1) (s2 : Stm32Cryp.v2.CrypV2)
    (Hmode : streaming m) (Hsz : sz <> K192) (Hk : len k = key_len sz) (Hw : wf k)
    (Hiv : block iv) (Hbs : Forall block bs)
    (H1 : V1.ok s1 /\ V1.off s1) (H2 : V2.ok s2 /\ V2.off s2) :
  (exists c s1' s2', cryp_session s1 (enc_config sz dt m) k iv bs = Ret (c, s1') /\
     cryp_session s2 (dec_config sz dt' m) k iv c = Ret (bs, s2')) /\
  (exists c s1' s2', cryp_session s2 (enc_config sz dt m) k iv bs = Ret (c, s2') /\
     cryp_session s1 (dec_config sz dt' m) k iv c = Ret (bs, s1')).
Proof.
  assert (Hnk : m <> KeyDerivation) by (destruct Hmode as [-> | [-> | ->]]; done).
  assert (Hc : Forall block (mode_crypt m Encrypt k iv bs)) by (by apply mode_encrypt_blocks).
  pose proof (mode_inverse m k iv bs Hmode Hiv Hbs) as Hinv.
  destruct H1 as [H1 O1], H2 as [H2 O2].
  pose proof (cryp_session_runs (C := V1.cryp_port_v1) s1) as R1. pose proof (cryp_session_runs (C := V2.cryp_port_v2) s2) as R2.
  split.
  - destruct (R1 (enc_config sz dt m) k iv bs) as (s1' & E1 & _); try done.
    destruct (R2 (dec_config sz dt' m) k iv (mode_crypt m Encrypt k iv bs)) as (s2' & E2 & _); try done.
    cbn [g_mode g_dir dec_config] in E2. rewrite Hinv in E2. by eexists _, s1', s2'.
  - destruct (R2 (enc_config sz dt m) k iv bs) as (s2' & E2 & _); try done.
    destruct (R1 (dec_config sz dt' m) k iv (mode_crypt m Encrypt k iv bs)) as (s1' & E1 & _); try done.
    cbn [g_mode g_dir dec_config] in E1. rewrite Hinv in E1. by eexists _, s1', s2'.
Qed.

(** C26: GCM through the four phases, on whole blocks, is GCM of SP 800-38D: the keystream, and
    the tag over the additional data and the ciphertext; the block the firmware writes in
    the final phase does not matter. *)
Theorem gcm_session_computes (cfg : Config) (k j0 : bytes) (aad text : list bytes) (lb : bytes)
    (Hmode : g_mode cfg = Gcm) (Hk : len k = key_len (g_size cfg)) (Hw : wf k) (Hj : block j0)
    (Ha : Forall block aad) (Ht : Forall block text) (Hlb : block lb) :
  (forall s : Stm32Cryp.v1.CrypV1, V1.ok s -> V1.off s ->
     exists s', gcm_session s cfg k j0 aad text lb =
       Ret ((gcm_crypt (g_dir cfg) k j0 aad text).1, (gcm_crypt (g_dir cfg) k j0 aad text).2, s') /\
       V1.ok s' /\ V1.off s') /\
  (g_size cfg <> K192 -> forall s : Stm32Cryp.v2.CrypV2, V2.ok s -> V2.off s ->
     exists s', gcm_session s cfg k j0 aad text lb =
       Ret ((gcm_crypt (g_dir cfg) k j0 aad text).1, (gcm_crypt (g_dir cfg) k j0 aad text).2, s') /\
       V2.ok s' /\ V2.off s').
Proof.
  split.
  - intros s Hs Hoff. by apply (gcm_session_runs (C := V1.cryp_port_v1)).
  - intros Hsz s Hs Hoff. apply (gcm_session_runs (C := V2.cryp_port_v2)); try done. split; [done|by rewrite Hmode].
Qed.
End cryp.

(** ** HASH *)

Section hash.
Context {D : DigestCrates} {DO : DigestCratesOk D}.

(** C28: From an idle HASH (no digest pending and [STR] not written since [CR]), a message
    through the registers gives the digest of the crate that implements the algorithm, for
    every algorithm of the layout, every data type and every length; the peripheral is
    idle again. *)
Theorem hash_session_digest (s : Stm32Hash.v1.HashV1) (a : hash.Algo) (bits : Z) (dt : cryp.DataType) (m : bytes)
    (Hs : quiet s) (Ha : algo_bits (Stm32Hash.v1.layout s) a = Some bits) (Hm : wf m) :
  exists s', hash_session s (cr_word bits dt false) a dt m = Ret (digest_of a m, s') /\ quiet s'.
Proof. destruct (hash_session_runs s bits a dt m Hs Ha Hm) as (s' & E & Hq & _). by exists s'. Qed.

(** C29: From an idle HASH with the HMAC bit, key, message and key give the HMAC of RFC 2104
    over the algorithm's own block, also for a key longer than a block. *)
Theorem hmac_session_rfc2104 (s : Stm32Hash.v1.HashV1) (a : hash.Algo) (bits : Z) (dt : cryp.DataType) (k m : bytes)
    (Hs : quiet s) (Ha : algo_bits (Stm32Hash.v1.layout s) a = Some bits) (Hk : wf k) (Hm : wf m) :
  exists s', hmac_session s (cr_word bits dt true) a dt k m = Ret (hmac_of a k m, s') /\ quiet s'.
Proof. destruct (hmac_session_runs s bits a dt k m Hs Ha Hk Hm) as (s' & E & Hq & _). by exists s'. Qed.

(** C30: A context saved after [m] and restored after the digest of [m ++ m1] was taken
    continues to the digest of [m ++ m2]. *)
Theorem hash_context_resumes (s : Stm32Hash.v1.HashV1) (a : hash.Algo) (bits : Z) (dt : cryp.DataType)
    (m m1 m2 : bytes) (Hs : quiet s) (Ha : algo_bits (Stm32Hash.v1.layout s) a = Some bits)
    (Hm : wf m) (Hm1 : wf m1) (Hm2 : wf m2) (Hword : len m mod 4 = 0) :
  exists s', resumed_session s (cr_word bits dt false) a dt m m1 m2 =
    Ret (digest_of a (m ++ m1), digest_of a (m ++ m2), s') /\ quiet s'.
Proof. by apply resumed_session_runs. Qed.

(** C31: With another hash in between, the restored context has lost [m]: the result is the
    digest of [m2] alone. *)
Theorem hash_interleaving_restarts (s : Stm32Hash.v1.HashV1) (a a' : hash.Algo) (bits bits' : Z)
    (dt : cryp.DataType) (m m' m2 : bytes) (Hs : quiet s)
    (Ha : algo_bits (Stm32Hash.v1.layout s) a = Some bits) (Ha' : algo_bits (Stm32Hash.v1.layout s) a' = Some bits')
    (Hm : wf m) (Hm' : wf m') (Hm2 : wf m2) (Hword : len m mod 4 = 0) :
  exists s', interleaved_session s bits a dt m bits' a' m' m2 = Ret (digest_of a' m', digest_of a m2, s').
Proof. by apply interleaved_session_runs. Qed.
End hash.

(** ** PKA *)

Section pka.
Context {B : BigUintCrate} {BO : BigUintCrateOk} {EC : EccCrates}.

(** C33: Modular exponentiation through operand RAM, up to 4096 bits, in the plain, the fast
    and the protected mode, each with its operands in its own places: the result is
    [base ^ exp mod m], the error word is the success code and no error flag is raised. *)
Theorem pka_modexp_computes (s : Stm32Pka.v2.PkaV2) (mode : Z) (base exp m : bytes)
    (Hs : pka_ok s) (Hmode : is_modexp mode) (Hb : wf base) (He : wf exp) (Hm : wf m)
    (Hlen : len base = len m) (Hle : 0 < len exp <= 512) (Hlm : 0 < len m <= 512) (Hpos : 0 < be_val m) :
  exists s', modexp_session s mode base exp m =
    Ret (be_bytes (length m) (be_val base ^ be_val exp mod be_val m), s') /\
    pka_ok s' /\ Stm32Pka.v2.sr s' = finished (Stm32Pka.v2.sr s) /\
    word_at (Stm32Pka.v2.ram s') 0x3A6 0xD60D.
Proof. by apply modexp_session_runs. Qed.

(** Addition, subtraction and multiplication modulo [m]; subtraction below zero wraps to
    the residue. *)
Theorem pka_mod_op_computes (s : Stm32Pka.v2.PkaV2) (op : Stm32Pka.v2.ArithOp) (a b m : bytes)
    (Hs : pka_ok s) (Ha : wf a) (Hb : wf b) (Hm : wf m) (Hla : len a = len m) (Hlb : len b = len m)
    (Hlm : 0 < len m <= 512) (Hpos : 0 < be_val m) :
  exists s', mod_op_session s (mode_of op) a b m =
    Ret (be_bytes (length m) (mod_result op (be_val a) (be_val b) (be_val m)), s') /\
    pka_ok s' /\ Stm32Pka.v2.sr s' = finished (Stm32Pka.v2.sr s).
Proof.
  destruct (mod_op_session_runs s op a b m Hs Ha Hb Hm Hla Hlb Hlm Hpos) as (s' & E & Hok & Hsr & _).
  by exists s'.
Qed.
End pka.

(** ** The bus *)

Section bus.
Context {D : Type} {PD : Peripheral D}.

Definition disjoint (r1 r2 : MmioRegion D) : Prop :=
  base r1 + size r1 <= base r2 \/ base r2 + size r2 <= base r1.

Fixpoint layout_ok (b : Bus D) : Prop :=
  match b with
  | [] => True
  | r :: b => 0 <= base r /\ 0 < size r /\ base r + size r <= 2 ^ 32 /\ Forall (disjoint r) b /\ layout_ok b
  end.

Lemma miss r1 r2 addr : disjoint r1 r2 -> hit r2 addr = true -> hit r1 addr = false.
Proof. unfold disjoint, hit. lia. Qed.

(** Where regions do not overlap, an access reaches exactly the one that holds the
    address, at the offset from its base. *)
Lemma dispatch_read_hit l r rest addr sz : layout_ok (l ++ r :: rest) -> hit r addr = true ->
  dispatch_read (l ++ r :: rest) addr sz =
  let! '(v, p) := p_read (peripheral r) (addr - base r) sz in Ret (v, l ++ with_peripheral r p :: rest).
Proof.
  intros Hl Hh. induction l as [|r0 l IH]; cbn [app dispatch_read].
  - rewrite Hh. cbn [app layout_ok] in Hl. destruct Hl as (? & ? & ? & _).
    assert (as_u32 (addr - base r) = addr - base r) as -> by (unfold as_u32, hit in *; apply Z.mod_small; lia).
    by destruct (p_read _ _ _) as [[v p]|].
  - cbn [app layout_ok] in Hl. destruct Hl as (_ & _ & _ & Hd & Hl).
    rewrite (miss r0 r) by (done || (rewrite Forall_forall in Hd; apply Hd, elem_of_app; right; constructor)).
    rewrite IH by done. by destruct (p_read _ _ _) as [[v p]|].
Qed.

Lemma dispatch_write_hit l r rest addr sz v : layout_ok (l ++ r :: rest) -> hit r addr = true ->
  dispatch_write (l ++ r :: rest) addr sz v =
  let! p := p_write (peripheral r) (addr - base r) sz v in Ret (l ++ with_peripheral r p :: rest).
Proof.
  intros Hl Hh. induction l as [|r0 l IH]; cbn [app dispatch_write].
  - rewrite Hh. cbn [app layout_ok] in Hl. destruct Hl as (? & ? & ? & _).
    assert (as_u32 (addr - base r) = addr - base r) as -> by (unfold as_u32, hit in *; apply Z.mod_small; lia).
    by destruct (p_write _ _ _ _).
  - cbn [app layout_ok] in Hl. destruct Hl as (_ & _ & _ & Hd & Hl).
    rewrite (miss r0 r) by (done || (rewrite Forall_forall in Hd; apply Hd, elem_of_app; right; constructor)).
    rewrite IH by done. by destruct (p_write _ _ _ _).
Qed.

Lemma dispatch_miss b addr sz v : Forall (fun r => hit r addr = false) b ->
  dispatch_read b addr sz = Ret (0, b) /\ dispatch_write b addr sz v = Ret b.
Proof.
  intros Hb. induction Hb as [|r b Hr Hb [IH1 IH2]]; [done|]. cbn [dispatch_read dispatch_write].
  by rewrite Hr, IH1, IH2.
Qed.

(** *** Pages *)

Lemma page_floor_spec x : page_floor x = 4096 * (x / 4096).
Proof.
  unfold page_floor. rewrite <- Z.ldiff_land. change 4095 with (Z.ones 12).
  rewrite Z.ldiff_ones_r by lia. rewrite Z.shiftl_mul_pow2, Z.shiftr_div_pow2 by lia. change (2 ^ 12) with 4096. lia.
Qed.

Lemma elem_region_pages fuel p stop q : 0 <= p -> p mod 4096 = 0 -> stop <= p + 4096 * Z.of_nat fuel ->
  q ∈ region_pages fuel p stop <-> p <= q < stop /\ q mod 4096 = 0.
Proof.
  revert p. induction fuel as [|fuel IH]; intros p Hp Hm Hs; cbn [region_pages].
  - split; [by intros ?%elem_of_nil|lia].
  - destruct (Z.ltb_spec p stop); [|split; [by intros ?%elem_of_nil|lia]].
    rewrite elem_of_cons, IH by (lia || dlia). split.
    + intros [-> | []]; [lia|]. split; [lia|done].
    + intros [Hq Hqm]. destruct (decide (q = p)); [by left|right]. split; [|done]. dlia.
Qed.

(** The pages of a bus are those that hold a byte of a region: aligned, ascending, each
    once. *)
Theorem pages_cover (b : Bus D) (Hb : Forall (fun r => 0 <= base r /\ 0 < size r) b) :
  Sorted Z.le (pages b) /\ NoDup (pages b) /\
  forall q, q ∈ pages b <->
    q mod 4096 = 0 /\ exists r addr, r ∈ b /\ hit r addr = true /\ q <= addr < q + 4096.
Proof.
  unfold pages. split; [apply Sorted_merge_sort; intros ??; lia|]. split.
  - rewrite merge_sort_Permutation. apply NoDup_remove_dups.
  - intros q. rewrite merge_sort_Permutation, elem_of_remove_dups, list_elem_of_bind. split.
    + intros (r & Hq & Hr). rewrite Forall_forall in Hb. destruct (Hb r Hr) as [H0 Hs].
      unfold pages_of in Hq. rewrite !page_floor_spec in Hq. apply elem_region_pages in Hq as [Hq Hm]; [|dlia..].
      split; [done|]. exists r, (Z.max q (base r)). split; [done|]. unfold hit. dlia.
    + intros (Hm & r & addr & Hr & Hh & Hq). exists r. split; [|done].
      rewrite Forall_forall in Hb. destruct (Hb r Hr) as [H0 Hs]. unfold hit in Hh.
      unfold pages_of. rewrite !page_floor_spec. apply elem_region_pages; dlia.
Qed.
End bus.

(** ** The chips *)

Section chips.
Context {A : AesBlocks} {D : DigestCrates} {B : BigUintCrate} {EC : EccCrates} {C : ChaCha}.

(** A region and the memory of the chip share no page. *)
Definition off_memory (mem : list MemoryRegion) (ba sz : Z) : bool :=
  forallb (fun m => (page_floor (ba + sz + 0xFFF) <=? m_base m) || (m_base m + m_size m <=? page_floor ba)) mem.

(** Decides [layout_ok] and [off_memory] from where the regions are. *)
Fixpoint map_check (mem : list MemoryRegion) (l : list (Z * Z * string)) : bool :=
  match l with
  | [] => true
  | (ba, sz, _) :: l =>
      (0 <=? ba) && (0 <? sz) && (ba + sz <=? 2 ^ 32) && off_memory mem ba sz &&
      forallb (fun '(ba', sz', _) => (ba + sz <=? ba') || (ba' + sz' <=? ba)) l && map_check mem l
  end.

Lemma map_check_ok mem (b : Bus Device) : map_check mem (shape b) = true ->
  layout_ok b /\ Forall (fun r => off_memory mem (base r) (size r) = true) b.
Proof.
  induction b as [|r b IH]; [done|]. unfold shape. cbn [fmap list_fmap map_check layout_ok].
  rewrite !andb_true_iff. intros [[[[[H1 H2] H3] H4] H5] H6]. destruct (IH H6) as [IH1 IH2].
  split; [|by constructor]. do 3 (split; [lia|]). split; [|done].
  rewrite Forall_forall. intros r' Hr'. rewrite forallb_forall in H5.
  specialize (H5 (base r', size r', name r')). unfold disjoint.
  assert (Hin : In (base r', size r', name r') (shape b)).
  { apply list_elem_of_In, list_elem_of_fmap. by exists r'. }
  specialize (H5 Hin). cbn in H5. lia.
Qed.

Lemma chips_checked name chip : build name = Some chip ->
  map_check (memory_regions chip) (shape (chip_bus chip)) = true.
Proof.
  unfold build. intros H. repeat case_bool_decide; injection H as <- || discriminate H; by vm_compute.
Qed.

(** On every chip each address belongs to at most one device, which gets every access to
    it at the offset from its base while the other devices are left alone; and no page of
    a device overlaps a memory region. *)
Theorem chip_routing (chip_name : string) (chip : Chip) (Hchip : build chip_name = Some chip) :
  Forall (fun r => off_memory (memory_regions chip) (base r) (size r) = true) (chip_bus chip) /\
  forall l r rest addr sz v, chip_bus chip = l ++ r :: rest -> hit r addr = true ->
    dispatch_read (chip_bus chip) addr sz =
      (let! '(x, p) := p_read (peripheral r) (addr - base r) sz in Ret (x, l ++ with_peripheral r p :: rest)) /\
    dispatch_write (chip_bus chip) addr sz v =
      (let! p := p_write (peripheral r) (addr - base r) sz v in Ret (l ++ with_peripheral r p :: rest)).
Proof.
  destruct (map_check_ok _ _ (chips_checked _ _ Hchip)) as [Hl Hm]. split; [done|].
  intros l r rest addr sz v E Hh. rewrite E in *. split; [by apply dispatch_read_hit|by apply dispatch_write_hit].
Qed.

Context {AO : AesBlocksOk A} {DO : DigestCratesOk D} {CO : ChaChaOk C}.

(** No sequence of loads and stores, at any addresses and sizes, panics on any chip: every
    index into a register file, a FIFO, the operand RAM or a digest is in range.  Every
    load returns a [u32], and each device's invariant holds in the end. *)
Theorem chip_mmio_safe (chip_name : string) (chip : Chip) (l : list Access)
    (Hchip : build chip_name = Some chip) (Hl : Forall access_ok l) :
  exists vs b, accesses (chip_bus chip) l = Ret (vs, b) /\ Forall u32 vs /\
    Forall (fun r => device_ok (peripheral r)) b /\ shape b = shape (chip_bus chip).
Proof.
  pose proof (accesses_ok (chip_bus chip) l (chip_bus_ok _ _ Hchip) Hl) as H.
  destruct (accesses (chip_bus chip) l) as [[vs b]|]; [|done]. by exists vs, b.
Qed.
End chips.
