(* ===== verification/Stm32Firmware.v ===== *)
(** * STM32Sim: the devices of a chip side by side

    A firmware drives several peripherals at once, its accesses to one in between its
    accesses to another.  [project] is the part of an access sequence that reaches one
    region, at offsets from its base, and [answers] the part of the loads that it answered;
    the bus is the product of its devices: each behaves as if it were alone with its part.
    So the sessions of [Stm32Port] and [Stm32HashPort], written as access sequences, give
    their results on the bus of any chip, whatever runs in between on the other devices. *)

From stdpp Require Import strings.
From stdpp Require Import list.
From S2P Require Import Prelude.
From S2P Require Import Crc.
From S2P Require Import Crates.
From S2P Require Import Se050Crates.
From S2P Require Import McuCrates.
From S2P Require Import Stm32Core.
From S2P Require Import Stm32Cryp.
From S2P Require Import Stm32Hash.
From S2P Require Import Stm32Pka.
From S2P Require Import Stm32Chips.
From S2P Require Import Stm32Gf128.
From S2P Require Import Stm32Engine.
From S2P Require Import Stm32Port.
From S2P Require Import Stm32CrypPortV1.
From S2P Require Import Stm32CrypPortV2.
From S2P Require Import Stm32HashPort.
From S2P Require Import Stm32PkaFacts.
From S2P Require Import Stm32Claims.

(** ** One device's accesses *)

Section alone.
Context {P : Type} {PP : Peripheral P}.

(** A peripheral with nothing else on the bus: what its loads return, and what it becomes. *)
Fixpoint local (p : P) (l : list Access) : res (list Z * P) :=
  match l with
  | [] => Ret ([], p)
  | Load off sz :: l =>
      let! '(v, p) := p_read p off sz in
      let! '(vs, p) := local p l in
      Ret (v :: vs, p)
  | Store off sz v :: l => let! p := p_write p off sz v in local p l
  end.

Lemma local_app p l l' : local p (l ++ l') =
  let! '(vs, p) := local p l in let! '(ws, p) := local p l' in Ret (vs ++ ws, p).
Proof.
  revert p. induction l as [|[off sz|off sz v] l IH]; intros p; cbn [app local rbind].
  - by destruct (local p l') as [[]|].
  - destruct (p_read p off sz) as [[v p1]|]; cbn [rbind]; [|done]. rewrite IH.
    destruct (local p1 l) as [[vs p2]|]; cbn [rbind]; [|done]. by destruct (local p2 l') as [[]|].
  - destruct (p_write p off sz v) as [p1|]; cbn [rbind]; [apply IH|done].
Qed.

(** The stores and loads of a driver. *)
Definition store_all (ws : list (Z * Z)) : list Access := (fun '(off, v) => Store off 4 v) <$> ws.
Definition store_at (off : Z) (ws : list Z) : list Access := (fun v => Store off 4 v) <$> ws.

Fixpoint load_from (off : Z) (n : nat) : list Access :=
  match n with O => [] | S n => Load off 4 :: load_from (off + 4) n end.

Lemma local_stores p ws : local p (store_all ws) = let! p := stores p ws in Ret ([], p).
Proof.
  revert p. induction ws as [|[off v] ws IH]; intros p; [done|]. cbn [store_all fmap list_fmap local stores].
  destruct (p_write p off 4 v) as [p1|]; cbn [rbind]; [apply IH|done].
Qed.

Lemma local_pokes p off ws : local p (store_at off ws) = let! p := pokes p off ws in Ret ([], p).
Proof.
  revert p. induction ws as [|v ws IH]; intros p; [done|]. cbn [store_at fmap list_fmap local pokes].
  destruct (p_write p off 4 v) as [p1|]; cbn [rbind]; [apply IH|done].
Qed.

Lemma local_peeks p off n : local p (repeat (Load off 4) n) = peeks p off n.
Proof.
  revert p. induction n as [|n IH]; intros p; [done|]. cbn [repeat local peeks].
  destruct (p_read p off 4) as [[v p1]|]; cbn [rbind]; [|done]. by rewrite IH.
Qed.
End alone.

(** ** The bus is the product of its devices *)

Definition addr_of (a : Access) : Z := match a with Load x _ | Store x _ _ => x end.

Definition shift_to (ba : Z) (a : Access) : Access :=
  match a with Load x sz => Load (x - ba) sz | Store x sz v => Store (x - ba) sz v end.

Lemma rbind_ret {X Y} (m : res X) (k : X -> res Y) y : (let! x := m in k x) = Ret y -> exists x, m = Ret x /\ k x = Ret y.
Proof. destruct m as [x|]; [|done]. by exists x. Qed.

Section product.
Context {D : Type} {PD : Peripheral D}.

(** The accesses that reach a region, and the loads among them. *)
Fixpoint project (r : MmioRegion D) (l : list Access) : list Access :=
  match l with
  | [] => []
  | a :: l => if hit r (addr_of a) then shift_to (base r) a :: project r l else project r l
  end.

Fixpoint answers (r : MmioRegion D) (l : list Access) (vs : list Z) : list Z :=
  match l, vs with
  | Store _ _ _ :: l, vs => answers r l vs
  | Load x _ :: l, v :: vs => if hit r x then v :: answers r l vs else answers r l vs
  | _, _ => []
  end.

Definition same_place (r r' : MmioRegion D) : Prop := base r' = base r /\ size r' = size r /\ name r' = name r.

(** [r] became [r'] by its part of the accesses, and answered its part of the loads. *)
Definition as_alone (l : list Access) (vs : list Z) (r r' : MmioRegion D) : Prop :=
  same_place r r' /\ local (peripheral r) (project r l) = Ret (answers r l vs, peripheral r').

Lemma hit_same r r' x : same_place r r' -> hit r' x = hit r x.
Proof. unfold hit. by intros (-> & -> & _). Qed.

Lemma project_same r r' l : same_place r r' -> project r' l = project r l.
Proof.
  intros H. induction l as [|a l IH]; [done|]. cbn [project]. rewrite (hit_same r r') by done.
  destruct H as (-> & _). by rewrite IH.
Qed.

Lemma answers_same r r' l vs : same_place r r' -> answers r' l vs = answers r l vs.
Proof.
  intros H. revert vs. induction l as [|[x sz|x sz v] l IH]; intros vs; [done| |apply IH].
  destruct vs as [|v vs]; [done|]. cbn [answers]. by rewrite (hit_same r r'), IH by done.
Qed.

Lemma layout_ok_same (b b' : Bus D) : Forall2 same_place b b' -> layout_ok b -> layout_ok b'.
Proof.
  induction 1 as [|r r' b b' (Hb & Hs & _) Hbs IH]; [done|]. cbn [layout_ok].
  intros (H1 & H2 & H3 & H4 & H5). rewrite Hb, Hs. do 3 (split; [done|]). split; [|by apply IH].
  clear IH H5. induction Hbs as [|q q' b b' (Hb' & Hs' & _) Hbs IH]; [done|]. inversion H4; subst.
  constructor; [|by apply IH]. unfold disjoint in *. by rewrite Hb, Hs, Hb', Hs'.
Qed.

(** One access: the region it hits takes it, the others stay. *)
Definition took (a : Access) (ws : list Z) (r r' : MmioRegion D) : Prop :=
  same_place r r' /\
  local (peripheral r) (if hit r (addr_of a) then [shift_to (base r) a] else []) =
    Ret (if hit r (addr_of a) then ws else [], peripheral r').

Lemma took_missed a ws (b : Bus D) : Forall (fun r => hit r (addr_of a) = false) b -> Forall2 (took a ws) b b.
Proof. induction 1 as [|r b H Hb IH]; constructor; [|done]. split; [done|]. by rewrite H. Qed.

Lemma missed_rest (r : MmioRegion D) b x : Forall (disjoint r) b -> hit r x = true -> Forall (fun q => hit q x = false) b.
Proof. intros Hd Hh. eapply Forall_impl; [exact Hd|]. unfold disjoint, hit in *. intros q. lia. Qed.

Lemma as_u32_offset (r : MmioRegion D) x : 0 <= base r -> base r + size r <= 2 ^ 32 -> hit r x = true ->
  as_u32 (x - base r) = x - base r.
Proof. unfold as_u32, hit. intros. apply Z.mod_small. lia. Qed.

Lemma access_took (b : Bus D) a ws b' : layout_ok b -> access b a = Ret (ws, b') -> Forall2 (took a ws) b b'.
Proof.
  destruct a as [x sz|x sz v]; cbn [access]; intros Hl E.
  - apply rbind_ret in E as ([v b1] & E & E2). injection E2 as <- <-. revert b1 E.
    induction b as [|r b IH]; intros b1; cbn [dispatch_read]; [intros [= _ <-]; constructor|].
    destruct Hl as (H1 & H2 & H3 & H4 & H5). destruct (hit r x) eqn:Hh; intros E.
    + rewrite as_u32_offset in E by done. apply rbind_ret in E as ([v1 p] & E & E2). injection E2 as <- <-.
      constructor; [|by apply took_missed, (missed_rest r)].
      split; [done|]. cbn [addr_of]. rewrite Hh. cbn [local shift_to]. by rewrite E.
    + apply rbind_ret in E as ([v1 b2] & E & E2). injection E2 as <- <-. constructor; [|by apply IH].
      split; [done|]. cbn [addr_of]. by rewrite Hh.
  - apply rbind_ret in E as (b1 & E & E2). injection E2 as <- <-. revert b1 E.
    induction b as [|r b IH]; intros b1; cbn [dispatch_write]; [intros [= <-]; constructor|].
    destruct Hl as (H1 & H2 & H3 & H4 & H5). destruct (hit r x) eqn:Hh; intros E.
    + rewrite as_u32_offset in E by done. apply rbind_ret in E as (p & E & E2). injection E2 as <-.
      constructor; [|by apply took_missed, (missed_rest r)].
      split; [done|]. cbn [addr_of]. rewrite Hh. cbn [local shift_to]. by rewrite E.
    + apply rbind_ret in E as (b2 & E & E2). injection E2 as <-. constructor; [|by apply IH].
      split; [done|]. cbn [addr_of]. by rewrite Hh.
Qed.

(** What an access leaves for the rest of the sequence. *)
Lemma as_alone_cons a l ws vs r r1 r2 : length ws = match a with Load _ _ => 1%nat | _ => 0%nat end ->
  took a ws r r1 -> as_alone l vs r1 r2 -> as_alone (a :: l) (ws ++ vs) r r2.
Proof.
  intros Hn [Hs E] [Hs' E']. rewrite (project_same r), (answers_same r) in E' by done.
  split; [destruct Hs as (? & ? & ?), Hs' as (? & ? & ?); repeat split; congruence|].
  cbn [project]. destruct (hit r (addr_of a)) eqn:Hh.
  - change (shift_to (base r) a :: project r l) with ([shift_to (base r) a] ++ project r l).
    rewrite local_app, E. cbn [rbind]. rewrite E'. cbn [rbind]. do 2 f_equal.
    destruct a; cbn in Hn; destruct ws as [|w [|]]; try done. cbn [answers app addr_of] in *. by rewrite Hh.
  - cbn [local] in E. injection E as ->. rewrite E'. do 2 f_equal.
    destruct a; cbn in Hn; destruct ws as [|w [|]]; try done. cbn [answers app addr_of] in *. by rewrite Hh.
Qed.

Lemma access_answers (b : Bus D) a ws b' : access b a = Ret (ws, b') ->
  length ws = match a with Load _ _ => 1%nat | _ => 0%nat end.
Proof.
  destruct a as [x sz|x sz v]; cbn [access]; intros E.
  - by apply rbind_ret in E as ([v b1] & _ & [= <- _]).
  - by apply rbind_ret in E as (b1 & _ & [= <- _]).
Qed.

Lemma accesses_product (b : Bus D) l vs b' : layout_ok b -> accesses b l = Ret (vs, b') -> Forall2 (as_alone l vs) b b'.
Proof.
  revert b vs. induction l as [|a l IH]; intros b vs Hl; cbn [accesses].
  - intros [= <- <-]. apply Forall_Forall2_diag, Forall_true. by intros r.
  - intros E. apply rbind_ret in E as ([ws b1] & Ea & E). apply rbind_ret in E as ([vs' b2] & El & E).
    injection E as <- <-. pose proof (access_answers _ _ _ _ Ea) as Hn.
    pose proof (access_took _ _ _ _ Hl Ea) as Ht.
    assert (Hl1 : layout_ok b1).
    { apply (layout_ok_same b); [|done]. eapply Forall2_impl; [exact Ht|]. by intros ?? []. }
    specialize (IH _ _ Hl1 El). clear -Hn Ht IH PD. revert b2 IH.
    induction Ht as [|r r1 b b1 H Hb IHb]; intros b2 IH; inversion IH; subst; constructor.
    + by eapply as_alone_cons.
    + by apply IHb.
Qed.

(** A region whose part is a known program answers what the program's run answers. *)
Lemma region_answers (b : Bus D) l vs b' i r ws p : layout_ok b -> accesses b l = Ret (vs, b') -> b !! i = Some r ->
  local (peripheral r) (project r l) = Ret (ws, p) ->
  answers r l vs = ws /\ b' !! i = Some (with_peripheral r p).
Proof.
  intros Hl E Hi Hr. pose proof (accesses_product _ _ _ _ Hl E) as H.
  destruct (Forall2_lookup_l _ _ _ _ _ H Hi) as (r' & Hi' & (H1 & H2 & H3) & E'). rewrite Hr in E'.
  injection E' as -> ->. split; [done|]. etransitivity; [exact Hi'|].
  destruct r', r. cbn in *. by subst.
Qed.
End product.

(** ** Sessions as access sequences *)

(** The register window of a peripheral on a bus of devices. *)
Section slots.
Context {A : AesBlocks} {D : DigestCrates} {B : BigUintCrate} {E : EccCrates} {C : ChaCha}.

Class Slot (P : Type) {PP : Peripheral P} := {
  slot : P -> Device;
  slot_read p off sz : device_read (slot p) off sz = answer slot (p_read p off sz);
  slot_write p off sz v : device_write (slot p) off sz v = stored slot (p_write p off sz v);
}.

#[export] Instance slot_cryp_v1 : Slot Stm32Cryp.v1.CrypV1 :=
  {| slot := DCrypV1; slot_read _ _ _ := eq_refl; slot_write _ _ _ _ := eq_refl |}.
#[export] Instance slot_cryp_v2 : Slot Stm32Cryp.v2.CrypV2 :=
  {| slot := DCrypV2; slot_read _ _ _ := eq_refl; slot_write _ _ _ _ := eq_refl |}.

(** A well-formed device is a well-formed port. *)
Class SlotOk (P : Type) {PP : Peripheral P} {PC : CrypPort P} {S : Slot P} :=
  slot_port_ok p : device_ok (slot p) -> port_ok p.
#[export] Instance slot_ok_v1 : SlotOk Stm32Cryp.v1.CrypV1 := fun _ H => H.
#[export] Instance slot_ok_v2 : SlotOk Stm32Cryp.v2.CrypV2 := fun _ H => H.

#[export] Instance slot_hash : Slot Stm32Hash.v1.HashV1 :=
  {| slot := DHash; slot_read _ _ _ := eq_refl; slot_write _ _ _ _ := eq_refl |}.

Lemma local_slot {P} {PP : Peripheral P} {S : Slot P} (p : P) l :
  local (slot p) l = let! '(vs, p) := local p l in Ret (vs, slot p).
Proof.
  revert p. induction l as [|[off sz|off sz v] l IH]; intros p; [done| |]; cbn [local p_read p_write peripheral_device].
  - rewrite slot_read. unfold answer. destruct (p_read p off sz) as [[v p1]|]; cbn [rbind]; [|done].
    rewrite IH. by destruct (local p1 l) as [[vs p2]|].
  - rewrite slot_write. unfold stored. destruct (p_write p off sz v) as [p1|]; cbn [rbind]; [apply IH|done].
Qed.
End slots.

Section programs.
Context {D : DigestCrates}.

Definition hash_program (cr : Z) (a : hash.Algo) (dt : cryp.DataType) (m : bytes) : list Access :=
  Store Stm32Hash.v1.CR 4 cr :: store_at Stm32Hash.v1.DIN (message_words dt m) ++
  Store Stm32Hash.v1.STR 4 (str_word m) :: load_from Stm32Hash.v1.HR_EXT_BASE (Z.to_nat (hash.output_words a)).

Lemma local_digest (s : Stm32Hash.v1.HashV1) off n d s' : read_digest s off n = Ret (d, s') ->
  exists ws, local s (load_from off n) = Ret (ws, s') /\ (ws ≫= be_bytes 4) = d.
Proof.
  revert s off d. induction n as [|n IH]; intros s off d; cbn [read_digest load_from local].
  - intros [= <- <-]. by exists [].
  - intros E. apply rbind_ret in E as ([v s1] & E1 & E). apply rbind_ret in E as ([vs s2] & E2 & E).
    injection E as <- <-. destruct (IH _ _ _ E2) as (ws & Ew & <-). exists (v :: ws).
    change (p_read s off 4) with (Stm32Hash.v1.read s off 4). rewrite E1. cbn [rbind]. by rewrite Ew.
Qed.

Lemma hash_program_runs s cr a dt m d s' : hash_session s cr a dt m = Ret (d, s') ->
  exists ws, local s (hash_program cr a dt m) = Ret (ws, s') /\ (ws ≫= be_bytes 4) = d.
Proof.
  unfold hash_session, feed_message, hash_program. intros E.
  apply rbind_ret in E as (s1 & E1 & E). apply rbind_ret in E as (s3 & E2 & E).
  apply rbind_ret in E2 as (s2 & E2 & E3). destruct (local_digest _ _ _ _ _ E) as (ws & Ew & Hd).
  exists ws. split; [|done]. cbn [local].
  change (p_write s Stm32Hash.v1.CR 4 cr) with (Stm32Hash.v1.write s Stm32Hash.v1.CR 4 cr). rewrite E1. cbn [rbind].
  rewrite local_app, local_pokes, E2. cbn [rbind local].
  change (p_write s2 Stm32Hash.v1.STR 4 ?v) with (Stm32Hash.v1.write s2 Stm32Hash.v1.STR 4 v). rewrite E3. cbn [rbind].
  by rewrite Ew.
Qed.

Context {A : AesBlocks} {P : Type} {PP : Peripheral P} {C : CrypPort P}.

Definition block_program (dt : cryp.DataType) (b : bytes) : list Access :=
  store_at port_din (block_words dt b) ++ repeat (Load port_dout 4) 4.

Definition cryp_program (cfg : Config) (k iv : bytes) (bs : list bytes) : list Access :=
  store_all (port_key (g_size cfg) k ++ port_iv iv ++ [(port_cr_off, port_cr cfg gcm.Init)]) ++
  (bs ≫= block_program (g_datatype cfg)) ++ [Store port_cr_off 4 0].

Lemma local_blocks dt (p : P) bs os p' : xfers dt p bs = Ret (os, p') ->
  exists ws, local p (bs ≫= block_program dt) = Ret (ws, p') /\ host_bytes dt ws = concat os.
Proof.
  revert p os. induction bs as [|b bs IH]; intros p os; cbn [xfers].
  - intros [= <- <-]. by exists [].
  - intros E. apply rbind_ret in E as ([o p1] & E1 & E). apply rbind_ret in E as ([os1 p2] & E2 & E).
    injection E as <- <-. unfold xfer in E1. apply rbind_ret in E1 as (q & Eq & E1).
    apply rbind_ret in E1 as ([ws1 q1] & Er & E1). injection E1 as <- <-.
    destruct (IH _ _ E2) as (ws & Ew & Ho). exists (ws1 ++ ws).
    rewrite bind_cons, local_app. unfold block_program at 1. rewrite local_app, local_pokes, Eq. cbn [rbind].
    rewrite local_peeks, Er. cbn [rbind app]. rewrite Ew. cbn [rbind]. split; [done|].
    unfold host_bytes in *. by rewrite bind_app, Ho.
Qed.

Lemma cryp_program_runs (p : P) cfg k iv bs os p' : cryp_session p cfg k iv bs = Ret (os, p') ->
  exists ws, local p (cryp_program cfg k iv bs) = Ret (ws, p') /\ host_bytes (g_datatype cfg) ws = concat os.
Proof.
  unfold cryp_session, cryp_start, cryp_program. intros E.
  apply rbind_ret in E as (p1 & E1 & E). apply rbind_ret in E as ([os1 p2] & E2 & E).
  apply rbind_ret in E as (p3 & E3 & E). injection E as <- <-.
  destruct (local_blocks _ _ _ _ _ E2) as (ws & Ew & Ho). exists ws. split; [|done].
  rewrite local_app, local_stores, E1. cbn [rbind]. rewrite local_app, Ew. cbn [rbind local]. rewrite E3.
  cbn [rbind app]. by rewrite app_nil_r.
Qed.
End programs.

(** ** Chips *)

Section chips.
Context {A : AesBlocks} {AO : AesBlocksOk A} {D : DigestCrates} {DO : DigestCratesOk D}.
Context {B : BigUintCrate} {EC : EccCrates} {C : ChaCha} {CO : ChaChaOk C}.

(** What every bus has that a firmware leaves behind on a chip. *)
Lemma chip_bus_reached chip_name chip l vs b : build chip_name = Some chip -> Forall access_ok l ->
  accesses (chip_bus chip) l = Ret (vs, b) -> layout_ok b /\ bus_ok b.
Proof.
  intros Hchip Hl E. destruct (map_check_ok _ _ (chips_checked _ _ Hchip)) as [Hlay _].
  pose proof (accesses_ok (chip_bus chip) l (chip_bus_ok _ _ Hchip) Hl) as H. rewrite E in H.
  destruct H as (_ & Hb & _). split; [|done]. apply (layout_ok_same (chip_bus chip)); [|done].
  eapply Forall2_impl; [by apply accesses_product|]. by intros ?? [].
Qed.

(** C24: No sequence of loads and stores, at any addresses and sizes, panics on any chip, loads
    return [u32] words and the invariants hold in the end; and each device is, in state and
    in what its loads answered, as if the accesses to its region had been the only ones. *)
Theorem chip_devices_independent (chip_name : string) (chip : Chip) (l : list Access)
    (Hchip : build chip_name = Some chip) (Hl : Forall access_ok l) :
  exists vs b, accesses (chip_bus chip) l = Ret (vs, b) /\ Forall u32 vs /\
    Forall (fun r => device_ok (peripheral r)) b /\ Forall2 (as_alone l vs) (chip_bus chip) b.
Proof.
  destruct (chip_mmio_safe chip_name chip l Hchip Hl) as (vs & b & E & Hv & Hb & _).
  destruct (map_check_ok _ _ (chips_checked _ _ Hchip)) as [Hlay _].
  exists vs, b. do 3 (split; [done|]). by apply accesses_product.
Qed.

(** C32: A firmware that hashes [m] and encrypts or decrypts [bs] at the same time, the two
    sessions interleaved in any way with each other and with traffic to the other devices.
    Earlier accesses may have left the chip in any state in which the CRYP is disabled and
    the HASH idle (no digest pending, [STR] not written since [CR]).  The firmware reads the
    digest and the blocks, and leaves the CRYP disabled and the HASH idle. *)
Theorem interleaved_sessions_compute {P} {PP : Peripheral P} {PC : CrypPort P} {PCO : CrypPortOk P PC} {S : Slot P}
    {SO : SlotOk P}
    (chip_name : string) (chip : Chip) (before l : list Access) (vs0 : list Z) (b : Bus Device)
    (i j : nat) (rc rh : MmioRegion Device) (p : P) (s : Stm32Hash.v1.HashV1)
    (cfg : Config) (k iv : bytes) (bs : list bytes) (a : hash.Algo) (bits : Z) (dt : cryp.DataType) (m : bytes)
    (Hchip : build chip_name = Some chip) (Hbefore : Forall access_ok before)
    (Hb : accesses (chip_bus chip) before = Ret (vs0, b)) (Hl : Forall access_ok l)
    (Hrc : b !! i = Some rc) (Hp : peripheral rc = slot p) (Hoff : port_off p)
    (Hrh : b !! j = Some rh) (Hs : peripheral rh = DHash s) (Hquiet : quiet s)
    (Hsup : port_supports cfg) (Hmode : streaming (g_mode cfg)) (Hk : len k = key_len (g_size cfg))
    (Hkw : wf k) (Hiv : block iv) (Hbs : Forall block bs)
    (Ha : algo_bits (Stm32Hash.v1.layout s) a = Some bits) (Hm : wf m)
    (Hlc : project rc l = cryp_program cfg k iv bs)
    (Hlh : project rh l = hash_program (cr_word bits dt false) a dt m) :
  exists vs b' p' s', accesses b l = Ret (vs, b') /\
    host_bytes (g_datatype cfg) (answers rc l vs) = concat (mode_crypt (g_mode cfg) (g_dir cfg) k iv bs) /\
    (answers rh l vs ≫= be_bytes 4) = digest_of a m /\
    b' !! i = Some (with_peripheral rc (slot p')) /\ port_ok p' /\ port_off p' /\
    b' !! j = Some (with_peripheral rh (DHash s')) /\ quiet s'.
Proof.
  destruct (chip_bus_reached _ _ _ _ _ Hchip Hbefore Hb) as [Hlay Hok].
  assert (Hpok : port_ok p).
  { apply slot_port_ok. rewrite <- Hp. exact (Forall_lookup_1 _ _ _ _ Hok Hrc). }
  pose proof (accesses_ok b l Hok Hl) as H. destruct (accesses b l) as [[vs b']|] eqn:E; [|done]. clear H.
  destruct (cryp_session_runs p cfg k iv bs) as (p' & Ep & Hp1 & Hp2); [done..|].
  destruct (hash_session_runs s bits a dt m Hquiet Ha Hm) as (s' & Es & Hq & _).
  destruct (cryp_program_runs _ _ _ _ _ _ _ Ep) as (wc & Ec & Hc).
  destruct (hash_program_runs _ _ _ _ _ _ _ Es) as (wh & Eh & Hh).
  destruct (region_answers b l vs b' i rc wc (slot p') Hlay E Hrc) as [Ac Hi].
  { by rewrite Hp, Hlc, local_slot, Ec. }
  destruct (region_answers b l vs b' j rh wh (DHash s') Hlay E Hrh) as [Ah Hj].
  { rewrite Hs, Hlh. change (DHash s) with (slot s). by rewrite local_slot, Eh. }
  exists vs, b', p', s'. by rewrite Ac, Ah, Hc, Hh.
Qed.
End chips.
