(* ===== verification/Pic32Core.v ===== *)
(** * PIC32MZSim: peripherals with memory access, the bus, the tick registry

    [core/src/peripheral.rs], [core/src/bus.rs] and [core/src/mem.rs].  A store to a
    peripheral carries a [MemBus] through which the peripheral reads and writes the
    emulator's memory, and may register a callback that runs at every translation block.
    Both are shared state: the [World].  Regions and pages are those of the STM32 bus,
    whose code is the same. *)

From stdpp Require Import gmap.
From S2P Require Import Prelude.
From S2P Require Import Crc.
From S2P Require Import Stm32Core.

(** ** Memory *)

(** [MemBus]: a read fills a buffer of [n] bytes or fails, and leaves the memory alone
    in every implementation; a write answers whether it succeeded. *)
Class MemBus (M : Type) := {
  read_phys : M -> Z -> Z -> option bytes;
  write_phys : M -> Z -> bytes -> bool * M;
}.

(** The byte map of [InMemoryBus]; a byte never written reads as 0. *)
Definition InMemoryBus : Type := gmap Z Z.

Definition load (self : InMemoryBus) (paddr n : Z) : bytes :=
  (fun i => default 0 (self !! (paddr + i))) <$> seqZ 0 n.

Fixpoint store (self : gmap Z Z) (paddr : Z) (data : bytes) : gmap Z Z :=
  match data with
  | [] => self
  | b :: data => store (<[paddr := b]> self) (paddr + 1) data
  end.

#[export] Instance in_memory_bus : MemBus InMemoryBus := {|
  read_phys m paddr n := Some (load m paddr n);
  write_phys m paddr data := (true, store m paddr data);
|}.

(** [NullMemBus]. *)
Inductive NullMemBus := Null.

#[export] Instance null_mem_bus : MemBus NullMemBus := {|
  read_phys _ _ n := Some (vec_repeat 0 n);
  write_phys m _ _ := (true, m);
|}.

(** ** MIPS segments *)

Definition KSEG0_BASE : Z := 0x80000000.
Definition KSEG1_BASE : Z := 0xA0000000.
Definition SEG_MASK : Z := 0x1FFFFFFF.

Definition kseg0_to_phys (va : Z) : Z := Z.land va SEG_MASK.
Definition kseg1_to_phys (va : Z) : Z := Z.land va SEG_MASK.
Definition phys_to_kseg1 (pa : Z) : Z := Z.lor KSEG1_BASE (Z.land pa SEG_MASK).

Definition to_phys (va : Z) : Z :=
  let high := Z.land (Z.shiftr va 29) 0x7 in
  if (high =? 4) || (high =? 5) then Z.land va SEG_MASK else va.

(** [mem_read] and [mem_write] of Unicorn, on physical addresses. *)
Class UnicornMem (U : Type) := {
  mem_read : U -> Z -> Z -> option bytes;
  mem_write : U -> Z -> bytes -> bool * U;
}.

(** [UcMemBus]: the emulator's memory through [to_phys]. *)
Record UcMemBus (U : Type) := mkUcMemBus { uc : U }.
Arguments mkUcMemBus {U}.
Arguments uc {U}.

#[export] Instance uc_mem_bus {U} {UM : UnicornMem U} : MemBus (UcMemBus U) := {|
  read_phys m paddr n := mem_read (uc m) (to_phys paddr) n;
  write_phys m paddr data := let '(ok, u) := mem_write (uc m) (to_phys paddr) data in (ok, mkUcMemBus u);
|}.

(** ** Atomic register lanes *)

(** Base, SET, CLR, INV. *)
Definition atomic_op (current lane value : Z) : Z :=
  match lane with
  | 0 => value
  | 1 => Z.lor current value
  | 2 => Z.land current (not32 value)
  | 3 => Z.lxor current value
  | _ => current
  end.

Definition split_atomic (offset base : Z) : option Z :=
  let delta := as_u32 (offset - base) in
  if delta <? 16 then Some (Z.shiftr delta 2) else None.

(** [if lane == 0 { return reg } return 0]. *)
Definition base_lane (lane reg : Z) : Z := if lane =? 0 then reg else 0.

(** ** The tick registry *)

(** A callback is the state its closure captured; a slot that was unregistered is [None]. *)
Section registry.
Context {M T : Type}.

Record World := mkWorld { mem : M; entries : list (option T) }.

Definition with_mem (m : M) (w : World) : World := mkWorld m (entries w).
Definition with_entries (l : list (option T)) (w : World) : World := mkWorld (mem w) l.

Definition register_polling_tick (w : World) (callback : T) : nat * World :=
  (length (entries w), with_entries (entries w ++ [Some callback]) w).

Definition unregister_polling_tick (w : World) (i : nat) : World :=
  with_entries (<[i := None]> (entries w)) w.

(** The loop of [dispatch_polling_tick]; [call] runs a callback on the memory. *)
Fixpoint tick_slots (call : T -> M -> res (T * M)) (l : list (option T)) (m : M)
  : res (list (option T) * M) :=
  match l with
  | [] => Ret ([], m)
  | Some cb :: l =>
      let! '(cb, m) := call cb m in
      let! '(l, m) := tick_slots call l m in
      Ret (Some cb :: l, m)
  | None :: l =>
      let! '(l, m) := tick_slots call l m in
      Ret (None :: l, m)
  end.

Definition dispatch_polling_tick (call : T -> M -> res (T * M)) (w : World) : res World :=
  let! '(l, m) := tick_slots call (entries w) (mem w) in Ret (mkWorld m l).
End registry.
Arguments World : clear implicits.

(** ** Peripherals and the bus *)

(** A read has no access to memory and cannot fail; a write may panic. *)
Class Peripheral (P W : Type) := {
  p_read : P -> Z -> Z -> Z * P;
  p_write : P -> Z -> Z -> Z -> W -> res (P * W);
}.

Section bus.
Context {D W : Type} {PD : Peripheral D W}.

Fixpoint dispatch_read (self : Bus D) (addr sz : Z) : Z * Bus D :=
  match self with
  | [] => (0, [])
  | r :: rs =>
      if hit r addr then
        let '(value, p) := p_read (peripheral r) (as_u32 (addr - base r)) sz in
        (value, with_peripheral r p :: rs)
      else
        let '(value, rs) := dispatch_read rs addr sz in
        (value, r :: rs)
  end.

Fixpoint dispatch_write (self : Bus D) (addr sz value : Z) (w : W) : res (Bus D * W) :=
  match self with
  | [] => Ret ([], w)
  | r :: rs =>
      if hit r addr then
        let! '(p, w) := p_write (peripheral r) (as_u32 (addr - base r)) sz value w in
        Ret (with_peripheral r p :: rs, w)
      else
        let! '(rs, w) := dispatch_write rs addr sz value w in
        Ret (r :: rs, w)
  end.
End bus.
