(* ===== verification/Pic32Ce.v ===== *)
(** * PIC32MZSim: the Crypto Engine

    [peripherals/src/ce/]: buffer descriptors and security associations in memory
    ([bd.rs]), the execution of one descriptor ([algo.rs]), the streaming hash driven by
    ticks ([polling.rs]), and the registers ([mod.rs]). *)

From S2P Require Import Prelude.
From S2P Require Import Crc.
From S2P Require Import Crates.
From S2P Require Import McuCrates.
From S2P Require Import Stm32Core.
From S2P Require Import Stm32Cryp.
From S2P Require Import Pic32Core.

(** The [ctr] crate over AES, and the [des] crate: a key of eight bytes for [Des], of 24
    for [TdesEde3]. *)
Class StreamCrates := {
  ctr128be : bytes -> bytes -> bytes -> bytes;
  des_t : Type;
  des_new_from_slice : bytes -> option des_t;
  des_enc : des_t -> bytes -> bytes;
  des_dec : des_t -> bytes -> bytes;
}.

Class StreamCratesOk (S : StreamCrates) := {
  ctr128be_len k iv b : len (ctr128be k iv b) = len b;
  ctr128be_invol k iv b : wf b -> ctr128be k iv (ctr128be k iv b) = b;
  des_new_some k : len k = 8 \/ len k = 24 -> is_Some (des_new_from_slice k);
  des_enc_len c b : len b = 8 -> len (des_enc c b) = 8;
  des_dec_len c b : len b = 8 -> len (des_dec c b) = 8;
  ctr128be_wf k iv b : wf b -> wf (ctr128be k iv b);
  des_enc_wf c b : wf b -> wf (des_enc c b);
  des_dec_wf c b : wf b -> wf (des_dec c b);
}.

Module bd.
(** [BdCtrl] and [SaCtrl] of the C headers: bit fields from the least significant bit. *)
Definition BdCtrl : Type := Z.

Definition ctrl_buflen (self : BdCtrl) : Z := Z.land self 0xFFFF.
Definition ctrl_bit (self : BdCtrl) (b : Z) : bool := negb (Z.land (Z.shiftr self b) 1 =? 0).
Definition ctrl_pkt_int_en (self : BdCtrl) : bool := ctrl_bit self 17.
Definition ctrl_lifm (self : BdCtrl) : bool := ctrl_bit self 18.
Definition ctrl_last_bd (self : BdCtrl) : bool := ctrl_bit self 19.
Definition ctrl_sa_fetch_en (self : BdCtrl) : bool := ctrl_bit self 22.
Definition ctrl_desc_en (self : BdCtrl) : bool := ctrl_bit self 31.

Definition ctrl_set_buflen (self : BdCtrl) (v : Z) : BdCtrl :=
  Z.lor (Z.land self (not32 0xFFFF)) (Z.land v 0xFFFF).
Definition ctrl_set_bit (self : BdCtrl) (b : Z) : BdCtrl := Z.lor self (Z.shiftl 1 b).

Record BufferDescriptor := mkBufferDescriptor {
  bd_ctrl : BdCtrl;
  sa_addr : Z;
  srcaddr : Z;
  dstaddr : Z;
  nxtptr : Z;
  updptr : Z;
  msglen : Z;
  encoff : Z;
}.

Definition with_bd_ctrl (v : BdCtrl) (s : BufferDescriptor) : BufferDescriptor :=
  mkBufferDescriptor v (sa_addr s) (srcaddr s) (dstaddr s) (nxtptr s) (updptr s) (msglen s)
    (encoff s).

Definition BD_SIZE : Z := 32.

(** The eight little-endian words of a descriptor. *)
Definition bd_parse (buf : bytes) : BufferDescriptor :=
  mkBufferDescriptor (le_val (sub buf 0 4)) (le_val (sub buf 4 8)) (le_val (sub buf 8 12))
    (le_val (sub buf 12 16)) (le_val (sub buf 16 20)) (le_val (sub buf 20 24)) (le_val (sub buf 24 28))
    (le_val (sub buf 28 32)).

Definition bd_bytes (self : BufferDescriptor) : bytes :=
  le_bytes 4 (bd_ctrl self) ++ le_bytes 4 (sa_addr self) ++ le_bytes 4 (srcaddr self) ++
  le_bytes 4 (dstaddr self) ++ le_bytes 4 (nxtptr self) ++ le_bytes 4 (updptr self) ++
  le_bytes 4 (msglen self) ++ le_bytes 4 (encoff self).

Definition buflen (self : BufferDescriptor) : Z := ctrl_buflen (bd_ctrl self).
Definition sa_fetch_enabled (self : BufferDescriptor) : bool := ctrl_sa_fetch_en (bd_ctrl self).
Definition desc_enabled (self : BufferDescriptor) : bool := ctrl_desc_en (bd_ctrl self).
Definition last_bd (self : BufferDescriptor) : bool := ctrl_last_bd (bd_ctrl self).
Definition lifm (self : BufferDescriptor) : bool := ctrl_lifm (bd_ctrl self).

Definition set_buflen (self : BufferDescriptor) (v : Z) : BufferDescriptor :=
  with_bd_ctrl (ctrl_set_buflen (bd_ctrl self) v) self.
Definition set_bit (self : BufferDescriptor) (b : Z) : BufferDescriptor :=
  with_bd_ctrl (ctrl_set_bit (bd_ctrl self) b) self.
Definition set_pkt_int_en (self : BufferDescriptor) : BufferDescriptor := set_bit self 17.
Definition set_lifm (self : BufferDescriptor) : BufferDescriptor := set_bit self 18.
Definition set_last_bd (self : BufferDescriptor) : BufferDescriptor := set_bit self 19.
Definition set_sa_fetch_en (self : BufferDescriptor) : BufferDescriptor := set_bit self 22.
Definition set_desc_en (self : BufferDescriptor) : BufferDescriptor := set_bit self 31.

Record SaCtrl := mkSaCtrl {
  cryptoalgo : Z;
  multitask : Z;
  keysize : Z;
  enctype : Z;
  algo : Z;
  flags : Z;
  fb : Z;
  loadiv : Z;
  lnc : Z;
  irflag : Z;
  icvonly : Z;
  or_en : Z;
  no_rx : Z;
  verify : Z;
}.

(** [(v >> b) & m]. *)
Definition field (v b m : Z) : Z := Z.land (Z.shiftr v b) m.

Definition from_u32 (v : Z) : SaCtrl :=
  mkSaCtrl (field v 0 0xF) (field v 4 0x7) (field v 7 0x3) (field v 9 0x1) (field v 10 0x7F)
    (field v 20 0x1) (field v 21 0x1) (field v 22 0x1) (field v 23 0x1) (field v 24 0x1)
    (field v 25 0x1) (field v 26 0x1) (field v 27 0x1) (field v 29 0x1).

(** [((x as u32) & m) << b]. *)
Definition place (x m b : Z) : Z := Z.shiftl (Z.land x m) b.

Definition to_u32 (self : SaCtrl) : Z :=
  Z.lor (Z.lor (Z.lor (Z.lor (Z.lor (Z.lor (Z.lor (Z.lor (Z.lor (Z.lor (Z.lor (Z.lor (Z.lor
    (Z.land (cryptoalgo self) 0xF)
    (place (multitask self) 0x7 4)) (place (keysize self) 0x3 7)) (place (enctype self) 0x1 9))
    (place (algo self) 0x7F 10)) (place (flags self) 0x1 20)) (place (fb self) 0x1 21))
    (place (loadiv self) 0x1 22)) (place (lnc self) 0x1 23)) (place (irflag self) 0x1 24))
    (place (icvonly self) 0x1 25)) (place (or_en self) 0x1 26)) (place (no_rx self) 0x1 27))
    (place (verify self) 0x1 29).

(** The arrays have 8, 8, 8 and 4 words. *)
Record SecurityAssociation := mkSecurityAssociation {
  ctrl : SaCtrl;
  authkey : list Z;
  enckey : list Z;
  authiv : list Z;
  enciv : list Z;
}.

Definition SA_SIZE : Z := 4 + 32 + 32 + 32 + 16.

(** [n] little-endian words of [buf] from [off]. *)
Definition le_words (buf : bytes) (off : Z) (n : Z) : list Z :=
  (fun i => le_val (sub buf (off + i * 4) (off + i * 4 + 4))) <$> seqZ 0 n.

Definition sa_parse (buf : bytes) : SecurityAssociation :=
  mkSecurityAssociation (from_u32 (le_val (sub buf 0 4))) (le_words buf 4 8) (le_words buf 36 8)
    (le_words buf 68 8) (le_words buf 100 4).

Definition sa_bytes (self : SecurityAssociation) : bytes :=
  le_bytes 4 (to_u32 (ctrl self)) ++ (authkey self ≫= le_bytes 4) ++ (enckey self ≫= le_bytes 4) ++
  (authiv self ≫= le_bytes 4) ++ (enciv self ≫= le_bytes 4).

(** The last [n / 4] words of the array, big-endian. *)
Definition right_justified (words : list Z) (n : Z) : bytes :=
  let start := len words - n / 4 in
  take (Z.to_nat (n / 4)) (drop (Z.to_nat start) words) ≫= be_bytes 4.

Definition cipher_key (self : SecurityAssociation) (key_len_bytes : Z) : bytes :=
  right_justified (enckey self) key_len_bytes.
Definition cipher_iv (self : SecurityAssociation) (iv_len_bytes : Z) : bytes :=
  right_justified (enciv self) iv_len_bytes.
Definition hash_iv (self : SecurityAssociation) (state_words : Z) : list Z :=
  take (Z.to_nat state_words) (drop (Z.to_nat (len (authiv self) - state_words)) (authiv self)).

Section memory.
Context {M : Type} {MB : MemBus M}.

Definition bd_read_phys (m : M) (paddr : Z) : option BufferDescriptor :=
  bd_parse <$> read_phys m paddr BD_SIZE.
Definition bd_write_phys (self : BufferDescriptor) (m : M) (paddr : Z) : bool * M :=
  write_phys m paddr (bd_bytes self).

Definition sa_read_phys (m : M) (paddr : Z) : option SecurityAssociation :=
  sa_parse <$> read_phys m paddr SA_SIZE.
Definition sa_write_phys (self : SecurityAssociation) (m : M) (paddr : Z) : bool * M :=
  write_phys m paddr (sa_bytes self).
End memory.
End bd.

Module algo.
Import bd.

Definition ALGO_HMAC1 : Z := 0x40.
Definition ALGO_SHA256 : Z := 0x20.
Definition ALGO_SHA1 : Z := 0x10.
Definition ALGO_MD5 : Z := 0x08.
Definition ALGO_AES : Z := 0x04.
Definition ALGO_TDES : Z := 0x02.
Definition ALGO_DES : Z := 0x01.

Definition CRYPTOALGO_AES_GCM : Z := 0xE.
Definition CRYPTOALGO_RCTR : Z := 0xD.
Definition CRYPTOALGO_RCBC : Z := 0x9.
Definition CRYPTOALGO_RECB : Z := 0x8.
Definition CRYPTOALGO_TCBC : Z := 0x5.
Definition CRYPTOALGO_TECB : Z := 0x4.
Definition CRYPTOALGO_CBC : Z := 0x1.
Definition CRYPTOALGO_ECB : Z := 0x0.

Definition KEYSIZE_128 : Z := 0.
Definition KEYSIZE_192 : Z := 1.
Definition KEYSIZE_256 : Z := 2.

(** Every whole word reversed; up to three bytes at the end stay. *)
Definition byte_swap_words (buf : bytes) : bytes :=
  (seqZ 0 (len buf / 4) ≫= (fun i => reverse (sub buf (i * 4) (i * 4 + 4)))) ++
  drop (Z.to_nat (len buf / 4 * 4)) buf.

(** A loop over [n] blocks of [size] bytes of [buf] from [off], which replaces each block
    and carries a state; a block that does not fit panics. *)
Fixpoint each_block {T} (size : Z) (step : T -> bytes -> res (bytes * T)) (n : nat) (off : Z) (st : T) (buf : bytes)
  : res bytes :=
  match n with
  | O => Ret buf
  | S n =>
      let! block := slice buf off (off + size) in
      let! '(block, st) := step st block in
      each_block size step n (off + size) st (splice buf off block)
  end.

Definition ecb_step (f : bytes -> res bytes) (st : unit) (block : bytes) : res (bytes * unit) :=
  let! block := f block in Ret (block, st).

Definition cbc_encrypt_step (f : bytes -> res bytes) (prev block : bytes) : res (bytes * bytes) :=
  let! block := f (xor_bytes block prev) in Ret (block, block).

Definition cbc_decrypt_step (f : bytes -> res bytes) (prev ct : bytes) : res (bytes * bytes) :=
  let! pt := f ct in Ret (xor_bytes pt prev, ct).

Section algo.
Context {A : AesBlocks} {D : DigestCrates} {S : StreamCrates}.

Definition hash (algo : Z) (input : bytes) : option bytes :=
  let digest d := digest_finalize (digest_update (digest_new d) input) in
  if has algo ALGO_SHA256 then Some (digest cSha256)
  else if has algo ALGO_SHA1 then Some (digest cSha1)
  else if has algo ALGO_MD5 then Some (digest cMd5)
  else None.

Definition aes_ecb_block (key block : bytes) (encrypt : bool) : res bytes :=
  if (len key =? 16) || (len key =? 24) || (len key =? 32)
  then Ret (if encrypt then aes_enc key block else aes_dec key block)
  else Panic.

Definition aes_cbc (key iv buf : bytes) (msg_len : Z) (encrypt : bool) : res bytes :=
  let block_count := Z.to_nat (msg_len / 16) in
  let! prev := slice iv 0 16 in
  if encrypt
  then each_block 16 (cbc_encrypt_step (fun b => aes_ecb_block key b true)) block_count 0 prev buf
  else each_block 16 (cbc_decrypt_step (fun b => aes_ecb_block key b false)) block_count 0 prev buf.

Definition aes_ctr_run (key iv buf : bytes) (msg_len : Z) : res (option bytes) :=
  let! iv := slice iv 0 16 in
  if (len key =? 16) || (len key =? 24) || (len key =? 32) then
    let! data := slice buf 0 msg_len in
    Ret (Some (splice buf 0 (ctr128be key iv data)))
  else Ret None.

Definition aes_gcm_stream (key iv buf : bytes) (msg_len : Z) : res (option bytes) :=
  let! iv := slice iv 0 12 in
  let counter := iv ++ [0; 0; 0; 2] in
  aes_ctr_run key counter buf msg_len.

Definition aes_run (cryptoalgo : Z) (key iv buf : bytes) (msg_len : Z) (encrypt : bool) : res (option bytes) :=
  if cryptoalgo =? CRYPTOALGO_RECB then
    let! buf := each_block 16 (ecb_step (fun b => aes_ecb_block key b encrypt)) (Z.to_nat (msg_len / 16)) 0 () buf in
    Ret (Some buf)
  else if cryptoalgo =? CRYPTOALGO_RCBC then
    let! buf := aes_cbc key iv buf msg_len encrypt in
    Ret (Some buf)
  else if cryptoalgo =? CRYPTOALGO_RCTR then aes_ctr_run key iv buf msg_len
  else if cryptoalgo =? CRYPTOALGO_AES_GCM then aes_gcm_stream key iv buf msg_len
  else Ret None.

(** [des_run] and [tdes_run]: the same code over [Des] and over [TdesEde3]. *)
Definition des_modes (ecb cbc : Z) (cryptoalgo : Z) (key iv buf : bytes) (msg_len : Z) (encrypt : bool)
  : res (option bytes) :=
  match des_new_from_slice key with
  | None => Ret None
  | Some cipher =>
      let block_count := Z.to_nat (msg_len / 8) in
      let crypt b := Ret (if encrypt then des_enc cipher b else des_dec cipher b) in
      if cryptoalgo =? ecb then
        let! buf := each_block 8 (ecb_step crypt) block_count 0 () buf in
        Ret (Some buf)
      else if cryptoalgo =? cbc then
        let! prev := slice iv 0 8 in
        let! buf := if encrypt then each_block 8 (cbc_encrypt_step crypt) block_count 0 prev buf
                    else each_block 8 (cbc_decrypt_step crypt) block_count 0 prev buf in
        Ret (Some buf)
      else Ret None
  end.

Definition des_run := des_modes CRYPTOALGO_ECB CRYPTOALGO_CBC.
Definition tdes_run := des_modes CRYPTOALGO_TECB CRYPTOALGO_TCBC.

Definition swap_out (out_swap : bool) (out : bytes) : bytes := if out_swap then out else byte_swap_words out.

Definition aes_key_len (keysize : Z) : option Z :=
  if keysize =? KEYSIZE_128 then Some 16
  else if keysize =? KEYSIZE_192 then Some 24
  else if keysize =? KEYSIZE_256 then Some 32
  else None.

Definition sa_iv (sa : SecurityAssociation) (n : Z) : bytes :=
  if negb (loadiv (ctrl sa) =? 0) then cipher_iv sa n else vec_repeat 0 n.

Context {M : Type} {MB : MemBus M}.

(** The cipher paths end alike: swap and write to [dstaddr]. *)
Definition emit (bd : BufferDescriptor) (out_swap : bool) (m : M) (buf : option bytes) : bool * M :=
  match buf with
  | None => (false, m)
  | Some buf => write_phys m (dstaddr bd) (swap_out out_swap buf)
  end.

Definition execute_with (sa : SecurityAssociation) (bd : BufferDescriptor) (out_swap : bool) (input : bytes) (m : M)
  : res (bool * M) :=
  let msg_len := msglen bd in
  let a := bd.algo (ctrl sa) in
  let encrypt := enctype (ctrl sa) =? 1 in
  if has a (Z.lor (Z.lor (Z.lor ALGO_SHA256 ALGO_SHA1) ALGO_MD5) ALGO_HMAC1) then
    let trimmed := take (Z.to_nat (Z.min msg_len (len input))) input in
    match hash a trimmed with
    | None => Ret (false, m)
    | Some out => Ret (write_phys m (updptr bd) (swap_out out_swap out))
    end
  else if has a ALGO_AES then
    match aes_key_len (keysize (ctrl sa)) with
    | None => Ret (false, m)
    | Some key_len =>
        let key := cipher_key sa key_len in
        let! buf := aes_run (cryptoalgo (ctrl sa)) key (sa_iv sa 16) input msg_len encrypt in
        Ret (emit bd out_swap m buf)
    end
  else if has a ALGO_TDES then
    let! buf := tdes_run (cryptoalgo (ctrl sa)) (cipher_key sa 24) (sa_iv sa 8) input msg_len encrypt in
    Ret (emit bd out_swap m buf)
  else if has a ALGO_DES then
    let! buf := des_run (cryptoalgo (ctrl sa)) (cipher_key sa 8) (sa_iv sa 8) input msg_len encrypt in
    Ret (emit bd out_swap m buf)
  else Ret (false, m).

Definition execute (sa : SecurityAssociation) (bd : BufferDescriptor) (out_swap : bool) (m : M) : res (bool * M) :=
  if buflen bd =? 0 then execute_with sa bd out_swap [] m
  else match read_phys m (srcaddr bd) (buflen bd) with
       | None => Ret (false, m)
       | Some input => execute_with sa bd out_swap input m
       end.
End algo.
End algo.

Module polling.
Import bd algo.

Definition DESC_EN_BIT : Z := Z.shiftl 1 31.

Section polling.
Context {D : DigestCrates}.

Inductive HashCtx :=
  | CtxMd5 (h : digest_t)
  | CtxSha1 (h : digest_t)
  | CtxSha256 (h : digest_t).

Definition from_algo (a : Z) : option HashCtx :=
  if has a ALGO_HMAC1 then None
  else if has a ALGO_SHA256 then Some (CtxSha256 (digest_new cSha256))
  else if has a ALGO_SHA1 then Some (CtxSha1 (digest_new cSha1))
  else if has a ALGO_MD5 then Some (CtxMd5 (digest_new cMd5))
  else None.

Definition update (self : HashCtx) (data : bytes) : HashCtx :=
  match self with
  | CtxMd5 h => CtxMd5 (digest_update h data)
  | CtxSha1 h => CtxSha1 (digest_update h data)
  | CtxSha256 h => CtxSha256 (digest_update h data)
  end.

Definition finalize (self : HashCtx) : bytes :=
  match self with CtxMd5 h | CtxSha1 h | CtxSha256 h => digest_finalize h end.

Record State := mkState {
  s_algo : Z;
  ctx : option HashCtx;
  bytes_fed : Z;
  s_out_swap : bool;
  completed : bool;
  bd_addrs : list Z;
  tick_idx : option nat;
}.

Definition with_s_algo (v : Z) (s : State) : State :=
  mkState v (ctx s) (bytes_fed s) (s_out_swap s) (completed s) (bd_addrs s) (tick_idx s).
Definition with_ctx (v : option HashCtx) (s : State) : State :=
  mkState (s_algo s) v (bytes_fed s) (s_out_swap s) (completed s) (bd_addrs s) (tick_idx s).
Definition with_bytes_fed (v : Z) (s : State) : State :=
  mkState (s_algo s) (ctx s) v (s_out_swap s) (completed s) (bd_addrs s) (tick_idx s).
Definition with_completed (v : bool) (s : State) : State :=
  mkState (s_algo s) (ctx s) (bytes_fed s) (s_out_swap s) v (bd_addrs s) (tick_idx s).

Context {M : Type} {MB : MemBus M}.

(** At most eight descriptors, up to a null pointer, a self-pointer or a repetition. *)
Fixpoint collect_from (fuel : nat) (addrs : list Z) (cur : Z) (m : M) : option (list Z) :=
  match fuel with
  | O => Some addrs
  | S fuel =>
      if cur =? 0 then Some addrs
      else if bool_decide (cur ∈ addrs) then Some addrs
      else
        let addrs := addrs ++ [cur] in
        match bd_read_phys m cur with
        | None => None
        | Some bd =>
            let next := nxtptr bd in
            if next =? cur then Some addrs else collect_from fuel addrs next m
        end
  end.

Definition collect_chain (bd0 : Z) (m : M) : option (list Z) :=
  match collect_from 8 [] bd0 m with
  | None => None
  | Some addrs => if bool_decide (addrs = []) then None else Some addrs
  end.

(** The first part of [process_bd]: the hasher of the first descriptor. *)
Definition ensure_ctx (state : State) (bd : BufferDescriptor) (m : M) : bool * State :=
  match ctx state with
  | Some _ => (true, state)
  | None =>
      if negb (sa_fetch_enabled bd) then (false, state)
      else match sa_read_phys m (sa_addr bd) with
           | None => (false, state)
           | Some sa =>
               let state := with_s_algo (bd.algo (ctrl sa)) state in
               match from_algo (s_algo state) with
               | None => (false, state)
               | Some c => (true, with_ctx (Some c) state)
               end
           end
  end.

(** [BUFLEN], but no more than what is left of [MSGLEN]. *)
Definition take_len (state : State) (bd : BufferDescriptor) : Z :=
  if negb (msglen bd =? 0) then
    let remaining := Z.max 0 (msglen bd - bytes_fed state) in
    if remaining <? buflen bd then remaining else buflen bd
  else buflen bd.

(** The second part: the bytes of the descriptor. *)
Definition feed (state : State) (bd : BufferDescriptor) (m : M) : bool * State :=
  let n := take_len state bd in
  if 0 <? n then
    match read_phys m (srcaddr bd) n with
    | None => (false, state)
    | Some buf =>
        let state := match ctx state with
                     | Some c => with_ctx (Some (update c buf)) state
                     | None => state
                     end in
        (true, with_bytes_fed (bytes_fed state + n) state)
    end
  else (true, state).

Definition process_bd (state : State) (bd_addr : Z) (m : M) : res (bool * State * M) :=
  match bd_read_phys m bd_addr with
  | None => Ret (false, state, m)
  | Some bd =>
      if negb (desc_enabled bd) then Ret (true, state, m)
      else
        let '(ok, state) := ensure_ctx state bd m in
        if negb ok then Ret (false, state, m)
        else
          let '(ok, state) := feed state bd m in
          if negb ok then Ret (false, state, m)
          else
            let finalise := last_bd bd && lifm bd in
            let updated := with_bd_ctrl (Z.land (bd_ctrl bd) (not32 DESC_EN_BIT)) bd in
            let '(ok, m) := bd_write_phys updated m bd_addr in
            if negb ok then Ret (false, state, m)
            else if finalise then
              match ctx state with
              | None => Panic
              | Some c =>
                  let state := with_ctx None state in
                  let '(ok, m) := write_phys m (updptr bd) (swap_out (s_out_swap state) (finalize c)) in
                  if negb ok then Ret (false, state, m)
                  else Ret (true, with_completed true state, m)
              end
            else Ret (true, state, m)
  end.

(** The loop of the callback over the descriptors; the first result says whether any was
    processed. *)
Fixpoint tick_bds (state : State) (addrs : list Z) (progressed : bool) (m : M) : res (bool * State * M) :=
  match addrs with
  | [] => Ret (progressed, state, m)
  | bd_addr :: addrs =>
      match read_phys m bd_addr 4 with
      | None => tick_bds state addrs progressed m
      | Some ctrl_bytes =>
          if Z.land (le_val ctrl_bytes) DESC_EN_BIT =? 0 then tick_bds state addrs progressed m
          else
            let! '(ok, state, m) := process_bd state bd_addr m in
            if negb ok then Ret (progressed, state, m)
            else if completed state then Ret (true, state, m)
            else tick_bds state addrs true m
      end
  end.

(** What the closure captured: the state and the completion flag. *)
Record Callback := mkCallback { cb_state : State; cb_flag : bool }.

Definition callback (cb : Callback) (m : M) : res (Callback * M) :=
  if completed (cb_state cb) then Ret (cb, m)
  else
    let! '(progressed, state, m) := tick_bds (cb_state cb) (bd_addrs (cb_state cb)) false m in
    Ret (mkCallback state (if completed state && progressed then true else cb_flag cb), m).

Definition arm (cebdpaddr : Z) (out_swap : bool) (w : World M Callback) : option (nat * World M Callback) :=
  if cebdpaddr =? 0 then None
  else match collect_chain cebdpaddr (mem w) with
       | None => None
       | Some addrs =>
           let idx := length (entries w) in
           Some (register_polling_tick w
                   (mkCallback (mkState 0 None 0 out_swap false addrs (Some idx)) false))
       end.

Definition disarm (w : World M Callback) (i : nat) : World M Callback := unregister_polling_tick w i.
End polling.
End polling.

Module ce.
Import bd algo polling.

Definition CECON_OFF : Z := 0x000.
Definition CESTAT_OFF : Z := 0x010.
Definition CEINTSRC_OFF : Z := 0x020.
Definition CEINTEN_OFF : Z := 0x030.
Definition CEBDPADDR_OFF : Z := 0x040.
Definition CEPOLLCON_OFF : Z := 0x050.

Definition CECON_START : Z := Z.shiftl 1 0.
Definition CECON_SWRST : Z := Z.shiftl 1 6.
Definition CECON_OUT_SWAP : Z := Z.shiftl 1 7.
Definition CECON_POLLING : Z := Z.shiftl 1 1.
Definition CEINTSRC_PKTIF : Z := Z.shiftl 1 1.
Definition CEINTSRC_ALL : Z := 0x0F.
Definition MAX_BD_CHAIN : nat := 64.

Record CryptoEngine := mkCryptoEngine {
  cecon : Z;
  cestat : Z;
  ceintsrc : Z;
  ceinten : Z;
  cebdpaddr : Z;
  cepollcon : Z;
  no_out_swap : bool;
  polling : option nat;
}.

Definition with_cecon (v : Z) (s : CryptoEngine) : CryptoEngine :=
  mkCryptoEngine v (cestat s) (ceintsrc s) (ceinten s) (cebdpaddr s) (cepollcon s)
    (no_out_swap s) (polling s).
Definition with_cestat (v : Z) (s : CryptoEngine) : CryptoEngine :=
  mkCryptoEngine (cecon s) v (ceintsrc s) (ceinten s) (cebdpaddr s) (cepollcon s)
    (no_out_swap s) (polling s).
Definition with_ceintsrc (v : Z) (s : CryptoEngine) : CryptoEngine :=
  mkCryptoEngine (cecon s) (cestat s) v (ceinten s) (cebdpaddr s) (cepollcon s) (no_out_swap s)
    (polling s).
Definition with_ceinten (v : Z) (s : CryptoEngine) : CryptoEngine :=
  mkCryptoEngine (cecon s) (cestat s) (ceintsrc s) v (cebdpaddr s) (cepollcon s)
    (no_out_swap s) (polling s).
Definition with_cebdpaddr (v : Z) (s : CryptoEngine) : CryptoEngine :=
  mkCryptoEngine (cecon s) (cestat s) (ceintsrc s) (ceinten s) v (cepollcon s) (no_out_swap s)
    (polling s).
Definition with_cepollcon (v : Z) (s : CryptoEngine) : CryptoEngine :=
  mkCryptoEngine (cecon s) (cestat s) (ceintsrc s) (ceinten s) (cebdpaddr s) v (no_out_swap s)
    (polling s).
Definition with_no_out_swap (v : bool) (s : CryptoEngine) : CryptoEngine :=
  mkCryptoEngine (cecon s) (cestat s) (ceintsrc s) (ceinten s) (cebdpaddr s) (cepollcon s) v
    (polling s).
Definition with_polling (v : option nat) (s : CryptoEngine) : CryptoEngine :=
  mkCryptoEngine (cecon s) (cestat s) (ceintsrc s) (ceinten s) (cebdpaddr s) (cepollcon s)
    (no_out_swap s) v.

Definition new : CryptoEngine := mkCryptoEngine 0 0 0 0 0 0 false None.
Definition for_ec : CryptoEngine := with_no_out_swap true new.

Definition read (s : CryptoEngine) (offset _size : Z) : Z * CryptoEngine :=
  let v :=
    match split_atomic offset CECON_OFF with Some lane => base_lane lane (cecon s) | None =>
    match split_atomic offset CESTAT_OFF with Some lane => base_lane lane (cestat s) | None =>
    match split_atomic offset CEINTSRC_OFF with Some lane => base_lane lane (ceintsrc s) | None =>
    match split_atomic offset CEINTEN_OFF with Some lane => base_lane lane (ceinten s) | None =>
    match split_atomic offset CEBDPADDR_OFF with Some lane => base_lane lane (cebdpaddr s) | None =>
    match split_atomic offset CEPOLLCON_OFF with Some lane => base_lane lane (cepollcon s) | None =>
    0 end end end end end end in
  (v, s).

Section engine.
Context {A : AesBlocks} {D : DigestCrates} {S : StreamCrates}.
Context {M : Type} {MB : MemBus M}.

(** The walk over the chain; the fuel is [MAX_BD_CHAIN]. *)
Fixpoint chain_from (fuel : nat) (bd_addr : Z) (out_swap : bool) (m : M) : res (bool * M) :=
  match fuel with
  | O => Ret (true, m)
  | Datatypes.S fuel =>
      match bd_read_phys m bd_addr with
      | None => Ret (false, m)
      | Some bd =>
          if negb (desc_enabled bd) then Ret (false, m)
          else if negb (sa_fetch_enabled bd) then Ret (false, m)
          else match sa_read_phys m (sa_addr bd) with
               | None => Ret (false, m)
               | Some sa =>
                   let! '(ok, m) := execute sa bd out_swap m in
                   if negb ok then Ret (false, m)
                   else if last_bd bd then Ret (true, m)
                   else if (nxtptr bd =? 0) || (nxtptr bd =? bd_addr) then Ret (true, m)
                   else chain_from fuel (nxtptr bd) out_swap m
               end
      end
  end.

Definition run_chain (s : CryptoEngine) (out_swap : bool) (m : M) : res (bool * M) :=
  chain_from MAX_BD_CHAIN (cebdpaddr s) out_swap m.

Definition disarm_polling (s : CryptoEngine) (w : World M Callback) : CryptoEngine * World M Callback :=
  match polling s with
  | Some i => (with_polling None s, disarm w i)
  | None => (s, w)
  end.

(** Error code 1 in the low nibble of CESTAT, and the packet interrupt. *)
Definition signal_error (s : CryptoEngine) : CryptoEngine :=
  let s := with_cestat (Z.lor (Z.land (cestat s) (not32 0xF)) 0x1) s in
  with_ceintsrc (Z.lor (ceintsrc s) CEINTSRC_PKTIF) s.

Definition clear_start (s : CryptoEngine) : CryptoEngine :=
  with_cecon (Z.land (cecon s) (not32 CECON_START)) s.

Definition reset (s : CryptoEngine) (w : World M Callback) : CryptoEngine * World M Callback :=
  let s := with_cecon 0 s in
  let s := with_cestat 0 s in
  let s := with_ceintsrc 0 s in
  let s := with_cebdpaddr 0 s in
  disarm_polling s w.

Definition write_cecon (s : CryptoEngine) (lane value : Z) (w : World M Callback)
  : res (CryptoEngine * World M Callback) :=
  let new := atomic_op (cecon s) lane value in
  let s := with_cecon new s in
  if has new CECON_SWRST then Ret (reset s w)
  else
    let out_swap := negb (no_out_swap s) && has new CECON_OUT_SWAP in
    if has new CECON_POLLING && has new CECON_START then
      let '(s, w) := disarm_polling s w in
      match arm (cebdpaddr s) out_swap w with
      | Some (i, w) => Ret (clear_start (with_polling (Some i) s), w)
      | None => Ret (clear_start (signal_error s), w)
      end
    else if has new CECON_START then
      let! '(ok, m) := run_chain s out_swap (mem w) in
      let w := with_mem m w in
      let s := if (ok : bool) then with_ceintsrc (Z.lor (ceintsrc s) CEINTSRC_PKTIF) s else signal_error s in
      Ret (clear_start s, w)
    else Ret (s, w).

Definition write (s : CryptoEngine) (offset _size value : Z) (w : World M Callback)
  : res (CryptoEngine * World M Callback) :=
  match split_atomic offset CECON_OFF with Some lane => write_cecon s lane value w | None =>
  match split_atomic offset CESTAT_OFF with
  | Some lane => Ret (with_cestat (atomic_op (cestat s) lane value) s, w) | None =>
  match split_atomic offset CEINTSRC_OFF with
  | Some lane =>
      Ret (with_ceintsrc (if lane =? 0 then Z.land (ceintsrc s) (not32 (Z.land value CEINTSRC_ALL))
                          else atomic_op (ceintsrc s) lane value) s, w) | None =>
  match split_atomic offset CEINTEN_OFF with
  | Some lane => Ret (with_ceinten (atomic_op (ceinten s) lane value) s, w) | None =>
  match split_atomic offset CEBDPADDR_OFF with
  | Some lane => Ret (with_cebdpaddr (atomic_op (cebdpaddr s) lane value) s, w) | None =>
  match split_atomic offset CEPOLLCON_OFF with
  | Some lane => Ret (with_cepollcon (atomic_op (cepollcon s) lane value) s, w) | None =>
  Ret (s, w) end end end end end end.

#[export] Instance peripheral_ce : Peripheral CryptoEngine (World M Callback) :=
  {| p_read := read; p_write := write |}.
End engine.
End ce.
