(* ===== verification/Pic32Chips.v ===== *)
(** * PIC32MZSim: random numbers, UART, and the chips

    [peripherals/src/rng.rs], [peripherals/src/uart.rs] and [chips/src/]. *)

From stdpp Require Import strings.
From S2P Require Import Prelude.
From S2P Require Import Crc.
From S2P Require Import Crates.
From S2P Require Import McuCrates.
From S2P Require Import Stm32Core.
From S2P Require Import Stm32Chips.
From S2P Require Import Pic32Core.
From S2P Require Import Pic32Ce.

Module rng.
Definition RNGCON_OFF : Z := 0x00.
Definition RNGPOLY1_OFF : Z := 0x10.
Definition RNGPOLY2_OFF : Z := 0x20.
Definition RNGNUMGEN1_OFF : Z := 0x30.
Definition RNGNUMGEN2_OFF : Z := 0x40.
Definition RNGSEED1_OFF : Z := 0x50.
Definition RNGSEED2_OFF : Z := 0x60.
Definition RNGCNT_OFF : Z := 0x70.

Definition TRNGMODE : Z := Z.shiftl 1 8.
Definition TRNGEN : Z := Z.shiftl 1 9.
Definition LOAD : Z := Z.shiftl 1 11.

Section rng.
Context {C : ChaCha}.

Record Rng := mkRng {
  generator : chacha_t;
  rngcon : Z;
  rngseed1 : Z;
  rngseed2 : Z;
  rngpoly1 : Z;
  rngpoly2 : Z;
  rngcnt : Z;
}.

Definition with_generator (v : chacha_t) (s : Rng) : Rng :=
  mkRng v (rngcon s) (rngseed1 s) (rngseed2 s) (rngpoly1 s) (rngpoly2 s) (rngcnt s).
Definition with_rngcon (v : Z) (s : Rng) : Rng :=
  mkRng (generator s) v (rngseed1 s) (rngseed2 s) (rngpoly1 s) (rngpoly2 s) (rngcnt s).
Definition with_rngseed1 (v : Z) (s : Rng) : Rng :=
  mkRng (generator s) (rngcon s) v (rngseed2 s) (rngpoly1 s) (rngpoly2 s) (rngcnt s).
Definition with_rngseed2 (v : Z) (s : Rng) : Rng :=
  mkRng (generator s) (rngcon s) (rngseed1 s) v (rngpoly1 s) (rngpoly2 s) (rngcnt s).
Definition with_rngpoly1 (v : Z) (s : Rng) : Rng :=
  mkRng (generator s) (rngcon s) (rngseed1 s) (rngseed2 s) v (rngpoly2 s) (rngcnt s).
Definition with_rngpoly2 (v : Z) (s : Rng) : Rng :=
  mkRng (generator s) (rngcon s) (rngseed1 s) (rngseed2 s) (rngpoly1 s) v (rngcnt s).
Definition with_rngcnt (v : Z) (s : Rng) : Rng :=
  mkRng (generator s) (rngcon s) (rngseed1 s) (rngseed2 s) (rngpoly1 s) (rngpoly2 s) v.

Definition with_seed (seed : Z) : Rng := mkRng (seed_from_u64 seed) 0 0 0 0 0 0.
Definition new : Rng := with_seed 0xDEADBEEFCAFEBABE.

(** A read of either number register takes a word of the generator. *)
Definition next_word (s : Rng) : Z * Rng :=
  let '(v, g) := next_u32 (generator s) in (v, with_generator g s).

Definition read_cnt (s : Rng) : Z * Rng :=
  let s := if (Z.land (rngcon s) (Z.lor TRNGMODE TRNGEN) =? Z.lor TRNGMODE TRNGEN) && (rngcnt s <? 64)
           then with_rngcnt (Z.min (rngcnt s + 4) 64) s else s in
  (rngcnt s, s).

(** Reads of another lane than the base answer 0 and change nothing. *)
Definition at_base (lane : Z) (s : Rng) (k : Z * Rng) : Z * Rng := if lane =? 0 then k else (0, s).

Definition read (s : Rng) (offset _size : Z) : Z * Rng :=
  match split_atomic offset RNGCON_OFF with
  | Some lane => at_base lane s (rngcon s, with_rngcon (Z.land (rngcon s) (not32 LOAD)) s) | None =>
  match split_atomic offset RNGSEED1_OFF with Some lane => at_base lane s (rngseed1 s, s) | None =>
  match split_atomic offset RNGSEED2_OFF with Some lane => at_base lane s (rngseed2 s, s) | None =>
  match split_atomic offset RNGNUMGEN1_OFF with Some lane => at_base lane s (next_word s) | None =>
  match split_atomic offset RNGNUMGEN2_OFF with Some lane => at_base lane s (next_word s) | None =>
  match split_atomic offset RNGPOLY1_OFF with Some lane => at_base lane s (rngpoly1 s, s) | None =>
  match split_atomic offset RNGPOLY2_OFF with Some lane => at_base lane s (rngpoly2 s, s) | None =>
  match split_atomic offset RNGCNT_OFF with Some lane => at_base lane s (read_cnt s) | None =>
  (0, s) end end end end end end end end.

Definition write (s : Rng) (offset _size value : Z) : Rng :=
  match split_atomic offset RNGCON_OFF with
  | Some lane =>
      let new := atomic_op (rngcon s) lane value in
      let s := if Z.land new TRNGEN =? 0 then with_rngcnt 0 s else s in
      with_rngcon new s | None =>
  match split_atomic offset RNGSEED1_OFF with
  | Some lane => with_rngseed1 (atomic_op (rngseed1 s) lane value) s | None =>
  match split_atomic offset RNGSEED2_OFF with
  | Some lane => with_rngseed2 (atomic_op (rngseed2 s) lane value) s | None =>
  match split_atomic offset RNGPOLY1_OFF with
  | Some lane => with_rngpoly1 (atomic_op (rngpoly1 s) lane value) s | None =>
  match split_atomic offset RNGPOLY2_OFF with
  | Some lane => with_rngpoly2 (atomic_op (rngpoly2 s) lane value) s | None =>
  s end end end end end.
End rng.
End rng.

Module uart.
(** The sink is the list of bytes written to it. *)
Record Uart := mkUart { sink : bytes; umode : Z; usta : Z; ubrg : Z }.

Definition new : Uart := mkUart [] 0 0 0.

Definition UMODE_OFF : Z := 0x000.
Definition USTA_OFF : Z := 0x010.
Definition UBRG_OFF : Z := 0x020.
Definition UTXREG_OFF : Z := 0x030.
Definition URXREG_OFF : Z := 0x040.

Definition write_byte (s : Uart) (b : Z) : Uart := mkUart (sink s ++ [b]) (umode s) (usta s) (ubrg s).

(** TRMT set, UTXBF and URXDA clear. *)
Definition status (usta : Z) : Z :=
  Z.lor (Z.land usta (not32 (Z.lor (Z.lor (Z.shiftl 1 8) (Z.shiftl 1 9)) (Z.shiftl 1 0)))) (Z.shiftl 1 8).

Definition read (s : Uart) (offset _size : Z) : Z * Uart :=
  let v :=
    match split_atomic offset UMODE_OFF with Some lane => base_lane lane (umode s) | None =>
    match split_atomic offset USTA_OFF with Some lane => base_lane lane (status (usta s)) | None =>
    match split_atomic offset UBRG_OFF with Some lane => base_lane lane (ubrg s) | None =>
    0 end end end in
  (v, s).

Definition write (s : Uart) (offset _size value : Z) : Uart :=
  match split_atomic offset UMODE_OFF with
  | Some lane => mkUart (sink s) (atomic_op (umode s) lane value) (usta s) (ubrg s) | None =>
  match split_atomic offset USTA_OFF with
  | Some lane => mkUart (sink s) (umode s) (atomic_op (usta s) lane value) (ubrg s) | None =>
  match split_atomic offset UBRG_OFF with
  | Some lane => mkUart (sink s) (umode s) (usta s) (atomic_op (ubrg s) lane value) | None =>
  match split_atomic offset UTXREG_OFF with
  | Some lane => if lane =? 0 then write_byte s (as_u8 (Z.land value 0xFF)) else s | None =>
  s end end end end.
End uart.

(** ** Chips *)

Section chips.
Context {A : AesBlocks} {D : DigestCrates} {S : StreamCrates} {C : ChaCha}.
Context {M : Type} {MB : MemBus M}.

Inductive Device :=
  | DCe (s : ce.CryptoEngine)
  | DRng (s : rng.Rng)
  | DUart (s : uart.Uart).

Definition device_read (d : Device) (offset sz : Z) : Z * Device :=
  match d with
  | DCe s => let '(v, s) := ce.read s offset sz in (v, DCe s)
  | DRng s => let '(v, s) := rng.read s offset sz in (v, DRng s)
  | DUart s => let '(v, s) := uart.read s offset sz in (v, DUart s)
  end.

Definition device_write (d : Device) (offset sz value : Z) (w : World M polling.Callback)
  : res (Device * World M polling.Callback) :=
  match d with
  | DCe s => let! '(s, w) := ce.write s offset sz value w in Ret (DCe s, w)
  | DRng s => Ret (DRng (rng.write s offset sz value), w)
  | DUart s => Ret (DUart (uart.write s offset sz value), w)
  end.

#[export] Instance peripheral_device : Pic32Core.Peripheral Device (World M polling.Callback) :=
  {| Pic32Core.p_read := device_read; Pic32Core.p_write := device_write |}.

Record Chip := mkChip { chip_name : string; memory_regions : list MemoryRegion; chip_bus : Bus Device }.

Definition memory : list MemoryRegion :=
  [mkMemory 0x00000000 0x00080000 "SRAM"; mkMemory 0x1D000000 0x00200000 "FLASH";
   mkMemory 0x1FC00000 0x00028000 "BOOT_FLASH"].

(** Both chips have the same map; [engine] is the Crypto Engine. *)
Definition build_with (name : string) (engine : ce.CryptoEngine) : Chip :=
  let bus := bus_new in
  let bus := bus_map bus 0x1F822000 0x0200 "uart2" (DUart uart.new) in
  let bus := bus_map bus 0x1F886000 0x0100 "rng" (DRng rng.new) in
  let bus := bus_map bus 0x1F8E0000 0x0100 "ce" (DCe engine) in
  mkChip name memory bus.

Definition pic32mz_ec : Chip := build_with "pic32mz2048ech144" ce.for_ec.
Definition pic32mz_ef : Chip := build_with "pic32mz2048efh144" ce.new.

Definition build (name : string) : option Chip :=
  if bool_decide (name = "pic32mz2048ech144"%string) || bool_decide (name = "ec"%string) then Some pic32mz_ec
  else if bool_decide (name = "pic32mz2048efh144"%string) || bool_decide (name = "ef"%string) then Some pic32mz_ef
  else None.

Definition chip_list : list string := ["pic32mz2048ech144"; "pic32mz2048efh144"]%string.
End chips.
