(* ===== verification/Pic32Layout.v ===== *)
(** * PIC32MZSim: memory, and records in memory

    The laws of a [MemBus] over a byte-addressed memory, the two buses that satisfy them,
    and the round trips of buffer descriptors and security associations. *)

From stdpp Require Import gmap.
From S2P Require Import Prelude.
From S2P Require Import Crc.
From S2P Require Import Crates.
From S2P Require Import McuCrates.
From S2P Require Import Stm32Core.
From S2P Require Import Stm32Cryp.
From S2P Require Import Stm32Gf128.
From S2P Require Import Stm32CrypPortV1.
From S2P Require Import Pic32Core.
From S2P Require Import Pic32Ce.

(** ** The laws *)

(** [byte_at m p] is the byte at physical address [p], where there is memory; [physical]
    is where the bus places an address. *)
Class MemBusOk (M : Type) {MB : MemBus M} := {
  byte_at : M -> Z -> option Z;
  physical : Z -> Z;
  read_phys_spec m a n bs : 0 <= n ->
    read_phys m a n = Some bs <->
    len bs = n /\ forall (i : nat) b, bs !! i = Some b -> byte_at m (physical a + Z.of_nat i) = Some b;
  write_phys_spec m a bs :
    (forall i, 0 <= i < len bs -> is_Some (byte_at m (physical a + i))) ->
    exists m', write_phys m a bs = (true, m') /\
      forall p, byte_at m' p =
        if (physical a <=? p) && (p <? physical a + len bs) then bs !! Z.to_nat (p - physical a) else byte_at m p;
  write_phys_refused m a bs m' : write_phys m a bs = (false, m') -> m' = m;
  write_phys_mapped m a bs m' : write_phys m a bs = (true, m') ->
    forall i, 0 <= i < len bs -> is_Some (byte_at m (physical a + i));
}.

Section in_memory.
Lemma store_lookup (bs : bytes) (m : gmap Z Z) a p :
  (store m a bs : gmap Z Z) !! p =
    if (a <=? p) && (p <? a + len bs) then bs !! Z.to_nat (p - a) else m !! p.
Proof.
  revert m a. induction bs as [|b bs IH]; intros m a; cbn [store].
  - change (len []) with 0. by rewrite (proj2 (andb_false_iff _ _)) by lia.
  - rewrite IH, len_cons. pose proof (len_nonneg bs). destruct (decide (p = a)) as [->|Hp].
    + rewrite (proj2 (andb_false_iff _ _)) by lia. rewrite (proj2 (andb_true_iff _ _)) by lia.
      rewrite Z.sub_diag. apply (lookup_insert_eq (M := gmap Z)).
    + rewrite (lookup_insert_ne (M := gmap Z)) by done. destruct (decide (a < p)) as [Hl|].
      * replace (Z.to_nat (p - a)) with (S (Z.to_nat (p - (a + 1)))) by lia.
        assert (((a + 1 <=? p) && (p <? a + 1 + len bs)) = ((a <=? p) && (p <? a + (1 + len bs)))) as -> by lia.
        by destruct ((a <=? p) && (p <? a + (1 + len bs))).
      * by rewrite !(proj2 (andb_false_iff _ _)) by lia.
Qed.

Lemma load_lookup (m : InMemoryBus) a n (i : nat) : Z.of_nat i < n ->
  load m a n !! i = Some (default 0 (m !! (a + Z.of_nat i))).
Proof. intros Hi. unfold load. rewrite list_lookup_fmap, lookup_seqZ_lt by lia. done. Qed.

Lemma len_load (m : InMemoryBus) a n : 0 <= n -> len (load m a n) = n.
Proof. intros Hn. unfold load, len. rewrite length_fmap, length_seqZ. lia. Qed.

#[export] Program Instance in_memory_bus_ok : MemBusOk InMemoryBus := {|
  byte_at m p := Some (default 0 (m !! p));
  physical a := a;
|}.
Next Obligation.
  intros m a n bs Hn. cbn. split.
  - intros [= <-]. split; [by apply len_load|]. intros i b Hb.
    assert (Hi : Z.of_nat i < n).
    { apply lookup_lt_Some in Hb. pose proof (len_load m a n Hn) as Hl. unfold len in Hl. lia. }
    by rewrite load_lookup in Hb.
  - intros [Hl Hb]. f_equal. apply list_eq. intros i. destruct (decide (Z.of_nat i < n)) as [Hi|Hi].
    + rewrite load_lookup by done. destruct (lookup_lt_is_Some_2 bs i) as [b E]; [unfold len in Hl; lia|].
      rewrite E. apply Hb, E.
    + rewrite !lookup_ge_None_2; [done|unfold len in Hl; lia|].
      pose proof (len_load m a n Hn) as Hl'. unfold len in Hl'. lia.
Qed.
Next Obligation.
  intros m a bs _. cbn. eexists. split; [reflexivity|]. intros p. rewrite store_lookup.
  destruct ((a <=? p) && (p <? a + len bs)) eqn:E; [|done].
  destruct (lookup_lt_is_Some_2 bs (Z.to_nat (p - a))) as [b ->]; [unfold len in E; lia|done].
Qed.
Next Obligation. done. Qed.
Next Obligation. intros m a bs m' _ i _. by eexists. Qed.
End in_memory.

(** *** Unicorn's memory: documented behaviour of [mem_read] and [mem_write] *)
Class UnicornMemOk (U : Type) {UM : UnicornMem U} := {
  uc_byte : U -> Z -> option Z;
  mem_read_spec u a n bs : 0 <= n ->
    mem_read u a n = Some bs <->
    len bs = n /\ forall (i : nat) b, bs !! i = Some b -> uc_byte u (a + Z.of_nat i) = Some b;
  mem_write_spec u a bs :
    (forall i, 0 <= i < len bs -> is_Some (uc_byte u (a + i))) ->
    exists u', mem_write u a bs = (true, u') /\
      forall p, uc_byte u' p = if (a <=? p) && (p <? a + len bs) then bs !! Z.to_nat (p - a) else uc_byte u p;
  mem_write_refused u a bs u' : mem_write u a bs = (false, u') -> u' = u;
  mem_write_mapped u a bs u' : mem_write u a bs = (true, u') ->
    forall i, 0 <= i < len bs -> is_Some (uc_byte u (a + i));
}.

#[export] Program Instance uc_mem_bus_ok {U} {UM : UnicornMem U} {UO : UnicornMemOk U} : MemBusOk (UcMemBus U) := {|
  byte_at m := uc_byte (uc m);
  physical := to_phys;
|}.
Next Obligation. intros U UM UO m a n bs Hn. by apply mem_read_spec. Qed.
Next Obligation.
  intros U UM UO m a bs H. destruct (mem_write_spec (uc m) (to_phys a) bs H) as (u' & E & Hu).
  exists (mkUcMemBus u'). cbn. by rewrite E.
Qed.
Next Obligation.
  intros U UM UO [u] a bs [u'] H. cbn in H. destruct (mem_write u _ bs) as [ok u1] eqn:E. injection H as -> ->.
  by rewrite (mem_write_refused _ _ _ _ E).
Qed.
Next Obligation.
  intros U UM UO [u] a bs [u'] H. cbn in H. destruct (mem_write u _ bs) as [ok u1] eqn:E. injection H as -> ->.
  exact (mem_write_mapped _ _ _ _ E).
Qed.

(** ** Data at an address *)

Section memory.
Context {M : Type} {MB : MemBus M} {MO : MemBusOk M}.

(** A range of [n] bytes from the physical address [p] holds [q]. *)
Definition within (p n q : Z) : bool := (p <=? q) && (q <? p + n).

(** [m'] is [m] with [bs] at the physical address [p]. *)
Definition overwritten (m m' : M) (p : Z) (bs : bytes) : Prop :=
  forall q, byte_at m' q = if within p (len bs) q then bs !! Z.to_nat (q - p) else byte_at m q.

Definition mapped (m : M) (a n : Z) : Prop := forall i, 0 <= i < n -> is_Some (byte_at m (physical a + i)).

Lemma write_phys_ok m a bs : mapped m a (len bs) ->
  exists m', write_phys m a bs = (true, m') /\ overwritten m m' (physical a) bs.
Proof. apply write_phys_spec. Qed.

Lemma write_phys_true m a bs m' : write_phys m a bs = (true, m') -> overwritten m m' (physical a) bs.
Proof.
  intros E. destruct (write_phys_ok m a bs (write_phys_mapped _ _ _ _ E)) as (m1 & E1 & Ho). rewrite E in E1. by injection E1 as <-.
Qed.

Lemma write_phys_false m a bs m' : write_phys m a bs = (false, m') -> m' = m.
Proof. apply write_phys_refused. Qed.

Lemma read_agree m m' a n bs : 0 <= n -> read_phys m a n = Some bs ->
  (forall i, 0 <= i < n -> byte_at m' (physical a + i) = byte_at m (physical a + i)) -> read_phys m' a n = Some bs.
Proof.
  intros Hn [Hl Hb]%read_phys_spec H; [|done]. apply read_phys_spec; [done|]. split; [done|].
  intros i b E. rewrite H; [by apply Hb|]. apply lookup_lt_Some in E. unfold len in Hl. lia.
Qed.

(** Two ranges of physical addresses without a common byte. *)
Definition apart (p n q k : Z) : Prop := p + n <= q \/ q + k <= p.

Lemma read_frame m m' p bs a n l : 0 <= n -> overwritten m m' p bs -> apart p (len bs) (physical a) n ->
  read_phys m a n = Some l -> read_phys m' a n = Some l.
Proof.
  intros Hn Hm Hd Hr. apply (read_agree m); [done..|]. intros i Hi. rewrite Hm. unfold within, apart in *.
  by rewrite (proj2 (andb_false_iff _ _)) by lia.
Qed.

Lemma read_written m m' a bs : overwritten m m' (physical a) bs -> read_phys m' a (len bs) = Some bs.
Proof.
  intros Hm. apply read_phys_spec; [apply len_nonneg|]. split; [done|]. intros i b E. rewrite Hm.
  pose proof (lookup_lt_Some _ _ _ E). unfold within, len. rewrite (proj2 (andb_true_iff _ _)) by lia.
  by replace (Z.to_nat (physical a + Z.of_nat i - physical a)) with i by lia.
Qed.

Lemma mapped_overwritten m m' p bs a n : overwritten m m' p bs -> mapped m a n -> mapped m' a n.
Proof.
  intros Hm Ha i Hi. rewrite Hm. destruct (within p (len bs) (physical a + i)) eqn:E; [|by apply Ha].
  apply lookup_lt_is_Some_2. unfold within, len in E. lia.
Qed.

Lemma read_mapped m a n bs : 0 <= n -> read_phys m a n = Some bs -> mapped m a n.
Proof.
  intros Hn [Hl Hb]%read_phys_spec i Hi; [|done].
  destruct (lookup_lt_is_Some_2 bs (Z.to_nat i)) as [b E]; [unfold len in Hl; lia|].
  exists b. apply Hb in E. by rewrite Z2Nat.id in E by lia.
Qed.

Lemma read_prefix m a n k bs : 0 <= k <= n -> read_phys m a n = Some bs -> read_phys m a k = Some (take (Z.to_nat k) bs).
Proof.
  intros Hk [Hl Hb]%read_phys_spec; [|lia]. apply read_phys_spec; [lia|]. split; [len_solve|].
  intros i b E. apply Hb. by apply lookup_take_Some in E as [E _].
Qed.
End memory.

(** ** Descriptors and security associations as bytes

    What a driver writes is what the engine reads back: descriptors, the bit fields of the
    control words, and keys and vectors staged right-justified. *)

Import bd.

(** ** Bit fields *)

Definition width (m : Z) : Z := Z.log2 (m + 1).
Definition is_mask (m : Z) : bool := (m =? Z.ones (width m)) && (0 <=? width m).

Lemma field_lor x y b m : field (Z.lor x y) b m = Z.lor (field x b m) (field y b m).
Proof. unfold field. by rewrite Z.shiftr_lor, Z.land_lor_distr_l. Qed.

Lemma testbit_mask m i : is_mask m = true -> 0 <= i -> Z.testbit m i = (i <? width m).
Proof.
  unfold is_mask. intros H Hi. assert (E : m = Z.ones (width m)) by lia. rewrite E at 1.
  rewrite Z.testbit_ones by lia. lia.
Qed.

Lemma field_place_same x m b : 0 <= b -> field (place x m b) b m = Z.land x m.
Proof.
  intros Hb. unfold field, place. rewrite Z.shiftr_shiftl_l, Z.sub_diag, Z.shiftl_0_r by lia.
  by rewrite <- Z.land_assoc, Z.land_diag.
Qed.

Lemma field_place_other x m b m' b' :
  is_mask m && is_mask m' && (0 <=? b) && (0 <=? b') && ((b + width m <=? b') || (b' + width m' <=? b)) = true ->
  field (place x m b) b' m' = 0.
Proof.
  rewrite !andb_true_iff. intros [[[[Hm Hm'] Hb] Hb'] H].
  apply Z.bits_inj'. intros i Hi. unfold field, place.
  rewrite Z.land_spec, Z.shiftr_spec by lia. rewrite Z.shiftl_spec by lia.
  destruct (Z.ltb_spec (i + b' - b) 0) as [Hn|Hn].
  - by rewrite (Z.testbit_neg_r _ (i + b' - b)), Z.bits_0 by lia.
  - rewrite Z.land_spec, (testbit_mask m), (testbit_mask m'), Z.bits_0 by (done || lia).
    destruct (Z.testbit x (i + b' - b)); [|done]. cbn [andb]. lia.
Qed.

Lemma land_mask x m : is_mask m = true -> 0 <= x <= m -> Z.land x m = x.
Proof.
  intros H Hx. assert (E : m = Z.ones (width m)) by (unfold is_mask in H; lia).
  rewrite E, Z.land_ones by (unfold is_mask in H; lia). apply Z.mod_small.
  rewrite Z.ones_equiv in E. unfold is_mask in H. lia.
Qed.

Lemma place_bound x m b w : is_mask m && (0 <=? b) && (b + width m <=? w) = true -> 0 <= place x m b < 2 ^ w.
Proof.
  rewrite !andb_true_iff. intros [[Hm Hb] H]. unfold place. assert (Hl : 0 <= Z.land x m < 2 ^ width m).
  { assert (E : m = Z.ones (width m)) by (unfold is_mask in Hm; lia). rewrite E at 1 2.
    rewrite Z.land_ones by (unfold is_mask in Hm; lia). apply Z.mod_pos_bound. unfold is_mask in Hm. lia. }
  rewrite Z.shiftl_mul_pow2 by lia. split; [nia|].
  apply Z.lt_le_trans with (2 ^ width m * 2 ^ b); [nia|]. rewrite <- Z.pow_add_r by (unfold is_mask in Hm; lia).
  apply Z.pow_le_mono_r; lia.
Qed.

(** Every field within its width. *)
Definition ctrl_ok (c : SaCtrl) : Prop :=
  0 <= cryptoalgo c <= 0xF /\ 0 <= multitask c <= 0x7 /\ 0 <= keysize c <= 0x3 /\ 0 <= enctype c <= 1 /\
  0 <= algo c <= 0x7F /\ 0 <= flags c <= 1 /\ 0 <= fb c <= 1 /\ 0 <= loadiv c <= 1 /\ 0 <= lnc c <= 1 /\
  0 <= irflag c <= 1 /\ 0 <= icvonly c <= 1 /\ 0 <= or_en c <= 1 /\ 0 <= no_rx c <= 1 /\ 0 <= verify c <= 1.

Lemma to_u32_places c : to_u32 c =
  Z.lor (Z.lor (Z.lor (Z.lor (Z.lor (Z.lor (Z.lor (Z.lor (Z.lor (Z.lor (Z.lor (Z.lor (Z.lor
    (place (cryptoalgo c) 0xF 0)
    (place (multitask c) 0x7 4)) (place (keysize c) 0x3 7)) (place (enctype c) 0x1 9))
    (place (algo c) 0x7F 10)) (place (flags c) 0x1 20)) (place (fb c) 0x1 21))
    (place (loadiv c) 0x1 22)) (place (lnc c) 0x1 23)) (place (irflag c) 0x1 24))
    (place (icvonly c) 0x1 25)) (place (or_en c) 0x1 26)) (place (no_rx c) 0x1 27))
    (place (verify c) 0x1 29).
Proof. unfold to_u32, place at 14. by rewrite Z.shiftl_0_r. Qed.

Lemma u32_to_u32 c : u32 (to_u32 c).
Proof.
  rewrite to_u32_places. unfold u32. change 4294967296 with (2 ^ 32).
  repeat apply lor_bound; try lia; by apply place_bound.
Qed.

Ltac pick_field :=
  rewrite ?field_lor, ?field_place_same by lia;
  rewrite ?field_place_other by reflexivity;
  rewrite ?Z.lor_0_l, ?Z.lor_0_r; apply land_mask; [reflexivity|lia].

Lemma from_to_u32 c : ctrl_ok c -> from_u32 (to_u32 c) = c.
Proof.
  intros Hc. unfold ctrl_ok in Hc. rewrite to_u32_places. unfold from_u32. destruct c; cbn in *.
  f_equal; pick_field.
Qed.

(** ** Records as bytes *)

Definition bd_ok (b : BufferDescriptor) : Prop :=
  u32 (bd_ctrl b) /\ u32 (sa_addr b) /\ u32 (srcaddr b) /\ u32 (dstaddr b) /\ u32 (nxtptr b) /\
  u32 (updptr b) /\ u32 (msglen b) /\ u32 (encoff b).

Lemma le_word v : u32 v -> le_val (le_bytes 4 v) = v.
Proof. intros. apply le_val_le_bytes. change (256 ^ Z.of_nat 4) with 4294967296. u_solve. Qed.

Lemma bd_parse_bytes b : bd_ok b -> bd_parse (bd_bytes b) = b.
Proof.
  intros (H1 & H2 & H3 & H4 & H5 & H6 & H7 & H8).
  change (bd_parse (bd_bytes b)) with (mkBufferDescriptor (le_val (le_bytes 4 (bd_ctrl b)))
    (le_val (le_bytes 4 (sa_addr b))) (le_val (le_bytes 4 (srcaddr b))) (le_val (le_bytes 4 (dstaddr b)))
    (le_val (le_bytes 4 (nxtptr b))) (le_val (le_bytes 4 (updptr b))) (le_val (le_bytes 4 (msglen b)))
    (le_val (le_bytes 4 (encoff b)))).
  rewrite !le_word by done. by destruct b.
Qed.

Lemma len_bd_bytes b : len (bd_bytes b) = BD_SIZE.
Proof. reflexivity. Qed.

Definition words_ok (n : nat) (l : list Z) : Prop := length l = n /\ Forall u32 l.

Definition sa_ok (sa : SecurityAssociation) : Prop :=
  ctrl_ok (ctrl sa) /\ words_ok 8 (authkey sa) /\ words_ok 8 (enckey sa) /\ words_ok 8 (authiv sa) /\
  words_ok 4 (enciv sa).

Lemma sub_words (ws : list Z) (n : nat) : sub (ws ≫= le_bytes 4) (Z.of_nat n * 4) (Z.of_nat n * 4 + 4) =
  match ws !! n with Some w => le_bytes 4 w | None => [] end.
Proof.
  revert n. induction ws as [|w ws IH]; intros n.
  - unfold sub. cbn [mbind list_bind]. by rewrite drop_nil, take_nil.
  - destruct n as [|n]; [reflexivity|]. rewrite bind_cons.
    rewrite sub_app_r by (rewrite len_le_bytes; lia). rewrite len_le_bytes. cbn [lookup list_lookup].
    rewrite <- IH. f_equal; lia.
Qed.

Lemma le_words_bytes ws (pre post : bytes) n off : off = len pre -> words_ok n ws ->
  le_words (pre ++ (ws ≫= le_bytes 4) ++ post) off (Z.of_nat n) = ws.
Proof.
  intros -> [Hn Hw]. unfold le_words. apply list_eq. intros i. rewrite list_lookup_fmap.
  assert (Hlen : len (ws ≫= le_bytes 4) = 4 * Z.of_nat n).
  { clear Hw. subst n. induction ws as [|w ws IH]; [done|]. rewrite bind_cons, len_app, len_le_bytes, IH. cbn [length]. lia. }
  destruct (decide (i < n)%nat) as [Hi|Hi].
  - rewrite lookup_seqZ_lt by lia. cbn -[le_val le_bytes]. rewrite Z.add_0_l.
    rewrite sub_app_r by lia. rewrite sub_app_l by lia.
    replace (len pre + Z.of_nat i * 4 - len pre) with (Z.of_nat i * 4) by lia.
    replace (len pre + Z.of_nat i * 4 + 4 - len pre) with (Z.of_nat i * 4 + 4) by lia.
    rewrite sub_words. destruct (ws !! i) as [w|] eqn:E.
    + rewrite le_word; [done|]. by apply (Forall_lookup_1 _ _ _ _ Hw) in E.
    + apply lookup_ge_None in E. lia.
  - rewrite lookup_seqZ_ge by lia. symmetry. apply lookup_ge_None. lia.
Qed.

Lemma len_words_bytes ws n : words_ok n ws -> len (ws ≫= le_bytes 4) = 4 * Z.of_nat n.
Proof.
  intros [<- _]. induction ws as [|w ws IH]; [done|]. rewrite bind_cons, len_app, len_le_bytes, IH. cbn [length]. lia.
Qed.

Lemma len_sa_bytes sa : sa_ok sa -> len (sa_bytes sa) = SA_SIZE.
Proof.
  intros (_ & H1 & H2 & H3 & H4). unfold sa_bytes.
  rewrite !len_app, len_le_bytes, (len_words_bytes _ _ H1), (len_words_bytes _ _ H2), (len_words_bytes _ _ H3),
    (len_words_bytes _ _ H4). reflexivity.
Qed.

Lemma sa_parse_bytes sa : sa_ok sa -> sa_parse (sa_bytes sa) = sa.
Proof.
  intros (Hc & H1 & H2 & H3 & H4). unfold sa_parse, sa_bytes. destruct sa as [ctrl0 authkey0 enckey0 authiv0 enciv0]; cbn [ctrl authkey enckey authiv enciv] in *.
  pose proof (len_words_bytes _ _ H1) as L1. pose proof (len_words_bytes _ _ H2) as L2.
  pose proof (len_words_bytes _ _ H3) as L3.
  f_equal.
  - rewrite sub_app_l, sub_full by (rewrite ?len_le_bytes; lia).
    rewrite le_word by apply u32_to_u32. by apply from_to_u32.
  - by apply (le_words_bytes _ _ _ 8).
  - rewrite (app_assoc (le_bytes 4 _)). apply (le_words_bytes _ _ _ 8); [rewrite len_app, len_le_bytes; lia|done].
  - rewrite (app_assoc (le_bytes 4 _)), (app_assoc (le_bytes 4 _ ++ _)).
    apply (le_words_bytes _ _ _ 8); [rewrite !len_app, len_le_bytes; lia|done].
  - rewrite (app_assoc (le_bytes 4 _)), (app_assoc (le_bytes 4 _ ++ _)), (app_assoc ((le_bytes 4 _ ++ _) ++ _)).
    rewrite <- (app_nil_r (enciv0 ≫= le_bytes 4)).
    apply (le_words_bytes _ _ _ 4); [rewrite !len_app, len_le_bytes; lia|done].
Qed.

(** ** Keys *)

(** A driver stages [l], a whole number of words, at the end of an array of [n]. *)
Definition staged (n : nat) (l : bytes) : list Z :=
  let k := Z.to_nat (len l / 4) in replicate (n - k) 0 ++ words_be k l.

Lemma right_justified_staged n l : len l mod 4 = 0 -> len l <= 4 * Z.of_nat n -> wf l ->
  right_justified (staged n l) (len l) = l /\ words_ok n (staged n l).
Proof.
  intros Hm Hl Hw. pose proof (len_nonneg l). unfold staged. set (k := Z.to_nat (len l / 4)).
  assert (Hk : len l = 4 * Z.of_nat k) by (subst k; dlia).
  destruct (words_be_bytes k l Hk Hw) as (E & Hn & Hu). split.
  - unfold right_justified. replace (len l / 4) with (Z.of_nat k) by dlia. rewrite Nat2Z.id.
    unfold len at 1. rewrite length_app, length_replicate, Hn.
    replace (Z.to_nat (Z.of_nat (n - k + k) - Z.of_nat k)) with (n - k)%nat by lia.
    rewrite drop_app_length' by (by rewrite length_replicate). by rewrite take_ge by lia.
  - split; [rewrite length_app, length_replicate; lia|]. apply Forall_app. split; [|done].
    apply Forall_replicate. u_solve.
Qed.

Section memory.
Context {M : Type} {MB : MemBus M} {MO : MemBusOk M}.

Lemma bd_write_read (m : M) a b : bd_ok b -> mapped m a BD_SIZE ->
  exists m', bd_write_phys b m a = (true, m') /\ bd_read_phys m' a = Some b /\
    overwritten m m' (physical a) (bd_bytes b).
Proof.
  intros Hb Hm. destruct (write_phys_ok m a (bd_bytes b) Hm) as (m' & E & Ho). exists m'. split; [done|]. split; [|done].
  unfold bd_read_phys. rewrite <- (len_bd_bytes b), (read_written _ _ _ _ Ho). cbn -[bd_parse bd_bytes]. by rewrite bd_parse_bytes.
Qed.

Lemma sa_write_read (m : M) a sa : sa_ok sa -> mapped m a SA_SIZE ->
  exists m', sa_write_phys sa m a = (true, m') /\ sa_read_phys m' a = Some sa /\
    overwritten m m' (physical a) (sa_bytes sa).
Proof.
  intros Hs Hm. destruct (write_phys_ok m a (sa_bytes sa)) as (m' & E & Ho); [by rewrite len_sa_bytes|].
  exists m'. split; [done|]. split; [|done].
  unfold sa_read_phys. rewrite <- (len_sa_bytes sa), (read_written _ _ _ _ Ho) by done. cbn -[sa_parse sa_bytes]. by rewrite sa_parse_bytes.
Qed.

Lemma bd_read_frame (m m' : M) p bs a b : overwritten m m' p bs -> apart p (len bs) (physical a) BD_SIZE ->
  bd_read_phys m a = Some b -> bd_read_phys m' a = Some b.
Proof.
  intros Hm Hd. unfold bd_read_phys. intros H. apply fmap_Some in H as (l & Hl & ->).
  by rewrite (read_frame m m' p bs a BD_SIZE l).
Qed.
End memory.
