(* ===== verification/Pic32Modes.v ===== *)
(** * PIC32MZSim: what one descriptor computes

    Reference definitions of the cipher modes on lists of blocks, and the refinement: the
    buffer loops of [algo.rs] compute them, for any message that fits its buffer. *)

From S2P Require Import Prelude.
From S2P Require Import Crc.
From S2P Require Import Crates.
From S2P Require Import McuCrates.
From S2P Require Import Stm32Core.
From S2P Require Import Stm32Cryp.
From S2P Require Import Stm32Gf128.
From S2P Require Import Stm32Port.
From S2P Require Import Pic32Core.
From S2P Require Import Pic32Ce.
From S2P Require Import Pic32Layout.

Import bd algo.

(** ** Blocks *)

(** The first [n] blocks of [size] bytes. *)
Fixpoint blocks_of (size : Z) (n : nat) (l : bytes) : list bytes :=
  match n with
  | O => []
  | S n => take (Z.to_nat size) l :: blocks_of size n (drop (Z.to_nat size) l)
  end.

(** [g] on the first [n] blocks; what follows them stays. *)
Definition on_blocks (size : Z) (n : nat) (g : list bytes -> list bytes) (input : bytes) : bytes :=
  concat (g (blocks_of size n input)) ++ drop (n * Z.to_nat size) input.

Lemma blocks_of_concat size n l : concat (blocks_of size n l) ++ drop (n * Z.to_nat size) l = l.
Proof.
  revert l. induction n as [|n IH]; intros l; [done|]. cbn [blocks_of concat].
  replace (S n * Z.to_nat size)%nat with (Z.to_nat size + n * Z.to_nat size)%nat by lia.
  rewrite <- drop_drop, <- app_assoc, IH. apply take_drop.
Qed.

Lemma blocks_of_len size n l : 0 <= size -> Z.of_nat n * size <= len l ->
  Forall (fun b => len b = size) (blocks_of size n l) /\ length (blocks_of size n l) = n.
Proof.
  intros Hs. revert l. induction n as [|n IH]; intros l Hl; cbn [blocks_of]; [by split|].
  destruct (IH (drop (Z.to_nat size) l)) as [H1 H2]; [rewrite len_drop; nia|].
  split; [|cbn [length]; congruence]. constructor; [|done]. rewrite len_take. nia.
Qed.

(** A pure step, iterated over blocks. *)
Fixpoint run_steps {T} (o : T -> bytes -> bytes * T) (st : T) (bs : list bytes) : list bytes :=
  match bs with
  | [] => []
  | b :: bs => let '(c, st) := o st b in c :: run_steps o st bs
  end.

Lemma splice_block (pre b post c : bytes) : len c = len b -> splice (pre ++ b ++ post) (len pre) c = pre ++ c ++ post.
Proof.
  intros Hc. unfold splice, len in *. rewrite !Nat2Z.id, take_app_length. do 2 f_equal.
  rewrite app_assoc, drop_app_length'; [done|]. rewrite length_app. lia.
Qed.

Lemma each_block_at {T} size (step : T -> bytes -> res (bytes * T)) o (Inv : T -> Prop) pre bs post st :
  (forall st b, Inv st -> len b = size -> step st b = Ret (o st b) /\ len (o st b).1 = size /\ Inv (o st b).2) ->
  Inv st -> Forall (fun b => len b = size) bs ->
  each_block size step (length bs) (len pre) st (pre ++ concat bs ++ post) = Ret (pre ++ concat (run_steps o st bs) ++ post).
Proof.
  intros Hstep. revert pre st. induction bs as [|b bs IH]; intros pre st Hst Hbs; [done|].
  apply Forall_cons in Hbs as [Hb Hbs]. cbn [length each_block concat run_steps]. rewrite <- app_assoc.
  rewrite slice_ret by len_solve. cbn [rbind].
  rewrite (sub_middle pre b) by lia. destruct (Hstep st b Hst Hb) as (E & Hl & Hi). rewrite E. cbn [rbind].
  destruct (o st b) as [c st'] eqn:Eo. cbn [fst snd] in *.
  rewrite splice_block by lia. rewrite app_assoc.
  replace (len pre + size) with (len (pre ++ c)) by len_solve.
  rewrite IH by done. cbn [concat]. by rewrite <- !app_assoc.
Qed.

Lemma each_block_runs {T} size (step : T -> bytes -> res (bytes * T)) o (Inv : T -> Prop) n st input : 0 < size ->
  (forall st b, Inv st -> len b = size -> step st b = Ret (o st b) /\ len (o st b).1 = size /\ Inv (o st b).2) ->
  Inv st -> Z.of_nat n * size <= len input ->
  each_block size step n 0 st input = Ret (on_blocks size n (run_steps o st) input).
Proof.
  intros Hs Hstep Hst Hn. destruct (blocks_of_len size n input) as [Hb Hl]; [lia|done|].
  pose proof (each_block_at size step o Inv [] (blocks_of size n input) (drop (n * Z.to_nat size) input) st Hstep Hst Hb) as H.
  cbn [app] in H. rewrite Hl, blocks_of_concat in H. exact H.
Qed.

Lemma each_block_panics {T} size (step : T -> bytes -> res (bytes * T)) o (Inv : T -> Prop) n pre rest st : 0 < size ->
  (forall st b, Inv st -> len b = size -> step st b = Ret (o st b) /\ len (o st b).1 = size /\ Inv (o st b).2) ->
  Inv st -> len rest < Z.of_nat n * size -> each_block size step n (len pre) st (pre ++ rest) = Panic.
Proof.
  intros Hs Hstep. revert pre rest st. induction n as [|n IH]; intros pre rest st Hst Hn; [pose proof (len_nonneg rest); lia|].
  cbn [each_block]. destruct (Z.lt_ge_cases (len rest) size) as [Hl|Hl].
  { unfold slice. by rewrite bool_decide_false by (rewrite len_app; lia). }
  rewrite slice_ret by len_solve. cbn [rbind].
  destruct (Hstep st (take (Z.to_nat size) rest) Hst) as (E & Hc & Hi); [rewrite len_take; lia|].
  assert (sub (pre ++ rest) (len pre) (len pre + size) = take (Z.to_nat size) rest) as ->.
  { rewrite sub_app_r by lia. rewrite Z.sub_diag, <- sub_0_take by lia. f_equal; lia. }
  rewrite E. cbn [rbind]. destruct (o st _) as [c st'] eqn:Eo. cbn [fst snd] in *.
  rewrite <- (take_drop (Z.to_nat size) rest) at 1. rewrite splice_block by (rewrite len_take; lia).
  rewrite app_assoc. replace (len pre + size) with (len (pre ++ c)) by len_solve.
  apply IH; [done|]. rewrite len_drop. lia.
Qed.

(** ** Reference modes *)

Fixpoint cbc_enc_with (f : bytes -> bytes) (iv : bytes) (bs : list bytes) : list bytes :=
  match bs with
  | [] => []
  | b :: bs => let c := f (xor_bytes b iv) in c :: cbc_enc_with f c bs
  end.

Fixpoint cbc_dec_with (f : bytes -> bytes) (iv : bytes) (bs : list bytes) : list bytes :=
  match bs with
  | [] => []
  | b :: bs => xor_bytes (f b) iv :: cbc_dec_with f b bs
  end.

Lemma run_ecb f st bs : run_steps (fun (st : unit) b => (f b, st)) st bs = f <$> bs.
Proof. induction bs as [|b bs IH]; [done|]. cbn. by rewrite IH. Qed.
Lemma run_cbc_enc f iv bs : run_steps (fun prev b => let c := f (xor_bytes b prev) in (c, c)) iv bs = cbc_enc_with f iv bs.
Proof. revert iv. induction bs as [|b bs IH]; intros iv; [done|]. cbn. by rewrite IH. Qed.
Lemma run_cbc_dec f iv bs : run_steps (fun prev b => (xor_bytes (f b) prev, b)) iv bs = cbc_dec_with f iv bs.
Proof. revert iv. induction bs as [|b bs IH]; intros iv; [done|]. cbn. by rewrite IH. Qed.

(** A loop over [n] blocks: the mode if they fit, a panic if not. *)
Definition if_fits (need : Z) (input out : bytes) : res bytes := if need <=? len input then Ret out else Panic.

Section loops.
Variables (size : Z) (f : bytes -> bytes) (fr : bytes -> res bytes).
Hypothesis Hs : 0 < size.
Hypothesis Hf : forall b, len b = size -> fr b = Ret (f b) /\ len (f b) = size.

Lemma block_loop {T} (step : T -> bytes -> res (bytes * T)) o (Inv : T -> Prop) g n st input :
  (forall st b, Inv st -> len b = size -> step st b = Ret (o st b) /\ len (o st b).1 = size /\ Inv (o st b).2) ->
  (forall bs, run_steps o st bs = g bs) -> Inv st ->
  each_block size step n 0 st input = if_fits (Z.of_nat n * size) input (on_blocks size n g input).
Proof.
  intros Hstep Hg Hst. unfold if_fits. destruct (Z.leb_spec (Z.of_nat n * size) (len input)) as [Hn|Hn].
  - rewrite (each_block_runs size step o Inv) by done. unfold on_blocks. by rewrite Hg.
  - by apply (each_block_panics size step o Inv n [] input).
Qed.

Lemma ecb_loop n input :
  each_block size (ecb_step fr) n 0 () input = if_fits (Z.of_nat n * size) input (on_blocks size n (fmap f) input).
Proof.
  apply (block_loop _ (fun st b => (f b, st)) (fun _ => True)); [|apply run_ecb|done].
  intros [] b _ Hb. destruct (Hf b Hb) as [E Hl]. unfold ecb_step. by rewrite E.
Qed.

Lemma cbc_encrypt_loop n iv input : len iv = size ->
  each_block size (cbc_encrypt_step fr) n 0 iv input = if_fits (Z.of_nat n * size) input (on_blocks size n (cbc_enc_with f iv) input).
Proof.
  intros Hiv.
  apply (block_loop _ (fun prev b => let c := f (xor_bytes b prev) in (c, c)) (fun p => len p = size)); [|apply run_cbc_enc|done].
  intros p b Hp Hb. destruct (Hf (xor_bytes b p)) as [E Hl]; [rewrite len_xor_bytes; lia|].
  unfold cbc_encrypt_step. by rewrite E.
Qed.

Lemma cbc_decrypt_loop n iv input : len iv = size ->
  each_block size (cbc_decrypt_step fr) n 0 iv input = if_fits (Z.of_nat n * size) input (on_blocks size n (cbc_dec_with f iv) input).
Proof.
  intros Hiv.
  apply (block_loop _ (fun prev b => (xor_bytes (f b) prev, b)) (fun p => len p = size)); [|apply run_cbc_dec|done].
  intros p b Hp Hb. destruct (Hf b Hb) as [E Hl]. unfold cbc_decrypt_step. rewrite E. cbn [rbind fst snd].
  split; [done|]. split; [rewrite len_xor_bytes; lia|done].
Qed.
End loops.

(** ** The reference for one descriptor *)

Section reference.
Context {A : AesBlocks} {D : DigestCrates} {S : StreamCrates}.

Definition direction_of (encrypt : bool) : cryp.Direction := if encrypt then cryp.Encrypt else cryp.Decrypt.

(** A keystream over the message; what follows it in the buffer stays. *)
Definition stream_reference (key iv input : bytes) (msg_len : Z) : bytes :=
  ctr128be key iv (take (Z.to_nat msg_len) input) ++ drop (Z.to_nat msg_len) input.

(** The CBC and ECB modes are those of the STM32 ports; GCM is the keystream from counter
    2 after the 96-bit vector. *)
Definition aes_reference (ca : Z) (key iv input : bytes) (msg_len : Z) (encrypt : bool) : option bytes :=
  let on m := on_blocks 16 (Z.to_nat (msg_len / 16)) (mode_crypt m (direction_of encrypt) key iv) input in
  if ca =? CRYPTOALGO_RECB then Some (on cryp.Ecb)
  else if ca =? CRYPTOALGO_RCBC then Some (on cryp.Cbc)
  else if ca =? CRYPTOALGO_RCTR then Some (stream_reference key iv input msg_len)
  else if ca =? CRYPTOALGO_AES_GCM then Some (stream_reference key (take 12 iv ++ be_bytes 4 2) input msg_len)
  else None.

Definition des_reference (ecb cbc ca : Z) (key iv input : bytes) (msg_len : Z) (encrypt : bool) : option bytes :=
  match des_new_from_slice key with
  | None => None
  | Some c =>
      let on g := on_blocks 8 (Z.to_nat (msg_len / 8)) g input in
      if ca =? ecb then Some (on (fmap (if encrypt then des_enc c else des_dec c)))
      else if ca =? cbc then Some (on (if encrypt then cbc_enc_with (des_enc c) iv else cbc_dec_with (des_dec c) iv))
      else None
  end.

Definition is_hash (sa : SecurityAssociation) : bool :=
  has (bd.algo (ctrl sa)) (Z.lor (Z.lor (Z.lor ALGO_SHA256 ALGO_SHA1) ALGO_MD5) ALGO_HMAC1).

(** The result of a descriptor before the output swap, and where it goes. *)
Definition result_of (sa : SecurityAssociation) (bd : BufferDescriptor) (input : bytes) : option bytes :=
  let a := bd.algo (ctrl sa) in
  let ca := cryptoalgo (ctrl sa) in
  let encrypt := enctype (ctrl sa) =? 1 in
  if is_hash sa then hash a (take (Z.to_nat (msglen bd)) input)
  else if has a ALGO_AES then
    match aes_key_len (keysize (ctrl sa)) with
    | None => None
    | Some n => aes_reference ca (cipher_key sa n) (sa_iv sa 16) input (msglen bd) encrypt
    end
  else if has a ALGO_TDES then
    des_reference CRYPTOALGO_TECB CRYPTOALGO_TCBC ca (cipher_key sa 24) (sa_iv sa 8) input (msglen bd) encrypt
  else if has a ALGO_DES then
    des_reference CRYPTOALGO_ECB CRYPTOALGO_CBC ca (cipher_key sa 8) (sa_iv sa 8) input (msglen bd) encrypt
  else None.

Definition dest_of (sa : SecurityAssociation) (bd : BufferDescriptor) : Z :=
  if is_hash sa then updptr bd else dstaddr bd.

(** How many bytes of its buffer a descriptor reads and writes: whole blocks, or the
    message; none when it is refused. *)
Definition aes_needed (ca msg_len : Z) : Z :=
  if (ca =? CRYPTOALGO_RECB) || (ca =? CRYPTOALGO_RCBC) then msg_len / 16 * 16
  else if (ca =? CRYPTOALGO_RCTR) || (ca =? CRYPTOALGO_AES_GCM) then msg_len
  else 0.

Definition des_needed (ecb cbc ca msg_len : Z) : Z :=
  if (ca =? ecb) || (ca =? cbc) then msg_len / 8 * 8 else 0.

Definition needed (sa : SecurityAssociation) (msg_len : Z) : Z :=
  let a := bd.algo (ctrl sa) in
  let ca := cryptoalgo (ctrl sa) in
  if is_hash sa then 0
  else if has a ALGO_AES then
    match aes_key_len (keysize (ctrl sa)) with None => 0 | Some _ => aes_needed ca msg_len end
  else if has a ALGO_TDES then des_needed CRYPTOALGO_TECB CRYPTOALGO_TCBC ca msg_len
  else if has a ALGO_DES then des_needed CRYPTOALGO_ECB CRYPTOALGO_CBC ca msg_len
  else 0.

(** The arrays of an association that was read from memory. *)
Definition arrays_ok (sa : SecurityAssociation) : Prop := length (enckey sa) = 8%nat /\ length (enciv sa) = 4%nat.

Lemma len_right_justified words n : 0 <= n -> n mod 4 = 0 -> n <= 4 * len words -> len (right_justified words n) = n.
Proof.
  intros H0 Hm Hn. unfold right_justified.
  assert (Hb : forall l : list Z, len (l ≫= be_bytes 4) = 4 * len l).
  { intros l. induction l as [|w l IH]; [done|]. rewrite bind_cons, len_app, len_be_bytes, IH, len_cons. lia. }
  rewrite Hb, len_take, len_drop. dlia.
Qed.

Lemma len_cipher_key sa n : arrays_ok sa -> 0 <= n <= 32 -> n mod 4 = 0 -> len (cipher_key sa n) = n.
Proof. intros [H _] Hn Hm. apply len_right_justified; [lia|done|]. unfold len. rewrite H. lia. Qed.
Lemma len_sa_iv sa n : arrays_ok sa -> 0 <= n <= 16 -> n mod 4 = 0 -> len (sa_iv sa n) = n.
Proof.
  intros [_ H] Hn Hm. unfold sa_iv. case (negb _).
  - apply len_right_justified; [lia|done|]. unfold len. rewrite H. lia.
  - rewrite len_vec_repeat. lia.
Qed.

Lemma sa_parse_arrays buf : arrays_ok (sa_parse buf).
Proof. by split. Qed.

Context {AO : AesBlocksOk A} {SO : StreamCratesOk S}.

Definition good_key (key : bytes) : Prop := len key = 16 \/ len key = 24 \/ len key = 32.

Lemma aes_key_len_good ks n : aes_key_len ks = Some n -> n = 16 \/ n = 24 \/ n = 32.
Proof. unfold aes_key_len. repeat case_match; intros [= <-]; auto. Qed.

Lemma aes_block_total key encrypt b : good_key key -> len b = 16 ->
  aes_ecb_block key b encrypt = Ret ((if encrypt then aes_enc key else aes_dec key) b) /\
  len ((if encrypt then aes_enc key else aes_dec key) b) = 16.
Proof.
  intros Hk Hb. unfold aes_ecb_block, good_key in *.
  assert (((len key =? 16) || (len key =? 24) || (len key =? 32)) = true) as -> by lia.
  destruct encrypt; split; auto using aes_enc_len, aes_dec_len.
Qed.

Lemma cbc_enc_aes k iv bs : cbc_enc_with (aes_enc k) iv bs = cbc_encrypt k iv bs.
Proof. revert iv. induction bs as [|b bs IH]; intros iv; [done|]. cbn. by rewrite IH. Qed.
Lemma cbc_dec_aes k iv bs : cbc_dec_with (aes_dec k) iv bs = cbc_decrypt k iv bs.
Proof. revert iv. induction bs as [|b bs IH]; intros iv; [done|]. cbn. by rewrite IH. Qed.

(** A fallible mode: its result if the bytes it needs are there, a panic if not. *)
Definition mode_if (need : Z) (input : bytes) (out : option bytes) : res (option bytes) :=
  if need <=? len input then Ret out else Panic.

Lemma if_fits_some need input out :
  (let! buf := if_fits need input out in Ret (Some buf)) = mode_if need input (Some out).
Proof. unfold if_fits, mode_if. by destruct (need <=? len input). Qed.

Lemma mode_if_0 input out : mode_if 0 input out = Ret out.
Proof. unfold mode_if. by rewrite (proj2 (Z.leb_le _ _)) by apply len_nonneg. Qed.

Lemma ctr_run_reference key iv input msg_len : good_key key -> len iv = 16 -> 0 <= msg_len ->
  aes_ctr_run key iv input msg_len = mode_if msg_len input (Some (stream_reference key iv input msg_len)).
Proof.
  intros Hk Hiv Hm. unfold aes_ctr_run, good_key, mode_if in *. rewrite slice_ret by lia. cbn [rbind].
  rewrite (sub_full iv) by lia.
  assert (((len key =? 16) || (len key =? 24) || (len key =? 32)) = true) as -> by lia.
  destruct (Z.leb_spec msg_len (len input)) as [Hl|Hl].
  - rewrite slice_ret by lia. cbn [rbind]. rewrite sub_0_take by lia. unfold stream_reference, splice.
    change (take (Z.to_nat 0) input) with (@nil Z). cbn [app]. do 4 f_equal.
    pose proof (ctr128be_len key iv (take (Z.to_nat msg_len) input)) as Hlen.
    rewrite len_take in Hlen. unfold len in *. lia.
  - unfold slice. by rewrite bool_decide_false by lia.
Qed.

Lemma blocks_needed n k : 0 <= n -> 0 < k -> Z.of_nat (Z.to_nat (n / k)) * k = n / k * k.
Proof. intros. rewrite Z2Nat.id; [done|]. by apply Z.div_pos. Qed.

Lemma aes_run_reference ca key iv input msg_len encrypt : good_key key -> len iv = 16 -> 0 <= msg_len ->
  aes_run ca key iv input msg_len encrypt = mode_if (aes_needed ca msg_len) input (aes_reference ca key iv input msg_len encrypt).
Proof.
  intros Hk Hiv Hm. unfold aes_run, aes_reference, aes_needed. destruct (ca =? CRYPTOALGO_RECB).
  { rewrite (ecb_loop 16 (if encrypt then aes_enc key else aes_dec key)) by (lia || auto using aes_block_total).
    rewrite if_fits_some, blocks_needed by lia. by destruct encrypt. }
  destruct (ca =? CRYPTOALGO_RCBC).
  { unfold aes_cbc. rewrite slice_ret by lia. cbn [rbind orb]. rewrite sub_full by lia. destruct encrypt.
    - rewrite (cbc_encrypt_loop 16 (aes_enc key)) by (lia || (intros; by apply (aes_block_total key true))).
      rewrite if_fits_some, blocks_needed by lia. unfold on_blocks. by rewrite cbc_enc_aes.
    - rewrite (cbc_decrypt_loop 16 (aes_dec key)) by (lia || (intros; by apply (aes_block_total key false))).
      rewrite if_fits_some, blocks_needed by lia. unfold on_blocks. by rewrite cbc_dec_aes. }
  cbn [orb]. destruct (ca =? CRYPTOALGO_RCTR); [by apply ctr_run_reference|]. cbn [orb].
  destruct (ca =? CRYPTOALGO_AES_GCM); [|by rewrite mode_if_0].
  unfold aes_gcm_stream. rewrite slice_ret by lia. cbn [rbind]. rewrite sub_0_take by lia.
  apply ctr_run_reference; [done| |done]. len_solve.
Qed.

Lemma des_modes_reference ecb cbc ca key iv input msg_len encrypt : len key = 8 \/ len key = 24 -> len iv = 8 -> 0 <= msg_len ->
  des_modes ecb cbc ca key iv input msg_len encrypt =
    mode_if (des_needed ecb cbc ca msg_len) input (des_reference ecb cbc ca key iv input msg_len encrypt).
Proof.
  intros Hkey Hiv Hm. unfold des_modes, des_reference, des_needed. destruct (des_new_some key Hkey) as [c ->].
  destruct (ca =? ecb).
  { rewrite (ecb_loop 8 (if encrypt then des_enc c else des_dec c)); [by rewrite if_fits_some, blocks_needed by lia|lia|].
    intros b Hb. destruct encrypt; split; auto using des_enc_len, des_dec_len. }
  cbn [orb]. destruct (ca =? cbc); [|by rewrite mode_if_0].
  rewrite slice_ret by lia. cbn [rbind]. rewrite sub_full by lia. destruct encrypt.
  - rewrite (cbc_encrypt_loop 8 (des_enc c)); [by rewrite if_fits_some, blocks_needed by lia|lia| |done].
    intros b Hb. split; auto using des_enc_len.
  - rewrite (cbc_decrypt_loop 8 (des_dec c)); [by rewrite if_fits_some, blocks_needed by lia|lia| |done].
    intros b Hb. split; auto using des_dec_len.
Qed.

Context {M : Type} {MB : MemBus M}.

(** A descriptor whose data fits its buffer. *)
Definition fits (sa : SecurityAssociation) (bd : BufferDescriptor) : Prop := needed sa (msglen bd) <= buflen bd.

Lemma mode_if_emit need sa bd out_swap input (m : M) out : is_hash sa = false ->
  (let! buf := mode_if need input out in Ret (emit bd out_swap m buf)) =
  if need <=? len input then
    Ret (match out with None => (false, m) | Some out => write_phys m (dest_of sa bd) (swap_out out_swap out) end)
  else Panic.
Proof. intros Hh. unfold mode_if, emit, dest_of. rewrite Hh. by destruct (need <=? len input), out. Qed.

(** A descriptor in full: the reference result to its destination, or a panic. *)
Lemma execute_with_reference sa bd out_swap input (m : M) : arrays_ok sa -> 0 <= msglen bd ->
  execute_with sa bd out_swap input m =
    if needed sa (msglen bd) <=? len input then
      Ret (match result_of sa bd input with
           | None => (false, m)
           | Some out => write_phys m (dest_of sa bd) (swap_out out_swap out)
           end)
    else Panic.
Proof.
  intros Hsa H0. unfold execute_with, result_of, needed. fold (is_hash sa).
  destruct (is_hash sa) eqn:Hh.
  { rewrite (proj2 (Z.leb_le _ _)) by apply len_nonneg.
    assert (take (Z.to_nat (Z.min (msglen bd) (len input))) input = take (Z.to_nat (msglen bd)) input) as ->.
    { destruct (Z.le_ge_cases (msglen bd) (len input)); [by rewrite Z.min_l|].
      rewrite Z.min_r by done. by rewrite !take_ge by (unfold len in *; lia). }
    unfold dest_of. rewrite Hh. by destruct (hash _ _). }
  destruct (has _ ALGO_AES).
  { destruct (aes_key_len _) as [n|] eqn:E; [|by rewrite (proj2 (Z.leb_le _ _)) by apply len_nonneg].
    apply aes_key_len_good in E. rewrite aes_run_reference; [by rewrite (mode_if_emit _ sa)| |by rewrite len_sa_iv|done].
    unfold good_key. rewrite len_cipher_key by (done || lia || (destruct E as [-> | [-> | ->]]; done)). done. }
  destruct (has _ ALGO_TDES).
  { unfold tdes_run. rewrite des_modes_reference by (done || rewrite ?len_sa_iv, ?len_cipher_key by done; auto).
    by rewrite (mode_if_emit _ sa). }
  destruct (has _ ALGO_DES); [|by rewrite (proj2 (Z.leb_le _ _)) by apply len_nonneg].
  unfold des_run. rewrite des_modes_reference by (done || rewrite ?len_sa_iv, ?len_cipher_key by done; auto).
  by rewrite (mode_if_emit _ sa).
Qed.
End reference.
