(* ===== verification/Pic32Chain.v ===== *)
(** * PIC32MZSim: a chain of descriptors, and arbitrary memory

    Descriptors, associations and results are written out as the reference manual has them,
    apart from the code's parsers and selectors.  The walk over a descriptor chain refines a
    list of jobs: each job's result appears at
    its destination, in order, and no other byte of memory changes.  For arbitrary memory
    the walk ends, and panics only at a descriptor whose message exceeds its buffer. *)

From S2P Require Import Prelude.
From S2P Require Import Crc.
From S2P Require Import Crates.
From S2P Require Import McuCrates.
From S2P Require Import Stm32Core.
From S2P Require Import Stm32Cryp.
From S2P Require Import Stm32Gf128.
From S2P Require Import Stm32Port.
From S2P Require Import Pic32Core.
From S2P Require Import Pic32Ce.
From S2P Require Import Pic32Layout.
From S2P Require Import Pic32Modes.

Import bd algo polling ce.

(** [x & (1 << n)] and [(x >> n) & 1]. *)
Lemma land_bit x n : 0 <= n -> (Z.land x (Z.shiftl 1 n) =? 0) = negb (Z.testbit x n).
Proof.
  intros Hn. rewrite Z.shiftl_1_l. destruct (Z.testbit x n) eqn:E; cbn [negb].
  - apply Z.eqb_neq. intros H. assert (Z.testbit (Z.land x (2 ^ n)) n = false) as Ht by (by rewrite H, Z.bits_0).
    rewrite Z.land_spec, E, Z.pow2_bits_true in Ht by done. done.
  - apply Z.eqb_eq, Z.bits_inj'. intros i Hi. rewrite Z.land_spec, Z.bits_0.
    destruct (decide (i = n)) as [->|Hne]; [by rewrite E|]. rewrite Z.pow2_bits_false by done. apply andb_false_r.
Qed.

Lemma ctrl_bit_testbit x n : 0 <= n -> ctrl_bit x n = Z.testbit x n.
Proof.
  intros Hn. unfold ctrl_bit. rewrite land_1, Z.shiftr_spec, Z.add_0_l by lia. by destruct (Z.testbit x n).
Qed.

(** ** Descriptors and associations as the manual lays them out

    What a driver stores and what it means, written out with the numbers of the reference
    manual: little-endian words, fields of the control words by position, keys and
    vectors right-justified in their arrays with the bytes of each word in reverse. *)

Definition word_of (buf : bytes) (i : Z) : Z := le_val (sub buf (4 * i) (4 * i + 4)).

Definition descriptor_of (buf : bytes) : BufferDescriptor :=
  let w := word_of buf in mkBufferDescriptor (w 0) (w 1) (w 2) (w 3) (w 4) (w 5) (w 6) (w 7).

Definition association_of (buf : bytes) : SecurityAssociation :=
  let bits lo n := word_of buf 0 / 2 ^ lo mod 2 ^ n in
  mkSecurityAssociation
    (mkSaCtrl (bits 0 4) (bits 4 3) (bits 7 2) (bits 9 1) (bits 10 7) (bits 20 1) (bits 21 1) (bits 22 1)
       (bits 23 1) (bits 24 1) (bits 25 1) (bits 26 1) (bits 27 1) (bits 29 1))
    (word_of buf <$> seqZ 1 8) (word_of buf <$> seqZ 9 8) (word_of buf <$> seqZ 17 8) (word_of buf <$> seqZ 25 4).

Definition is_enabled (bd : BufferDescriptor) : bool := Z.testbit (bd_ctrl bd) 31.
Definition fetches (bd : BufferDescriptor) : bool := Z.testbit (bd_ctrl bd) 22.
Definition is_last (bd : BufferDescriptor) : bool := Z.testbit (bd_ctrl bd) 19.
Definition buffer_len (bd : BufferDescriptor) : Z := bd_ctrl bd mod 2 ^ 16.

(** The last [n] bytes of an array. *)
Definition last_bytes (words : list Z) (n : Z) : bytes :=
  drop (Z.to_nat (4 * len words - n)) (words ≫= be_bytes 4).
Definition key_of (sa : SecurityAssociation) (n : Z) : bytes := last_bytes (enckey sa) n.
Definition iv_of (sa : SecurityAssociation) (n : Z) : bytes :=
  if loadiv (ctrl sa) =? 0 then vec_repeat 0 n else last_bytes (enciv sa) n.

(** The bytes of every word reversed; up to three bytes at the end stay. *)
Fixpoint reversed_words (l : bytes) : bytes :=
  match l with
  | a :: b :: c :: d :: l => d :: c :: b :: a :: reversed_words l
  | _ => l
  end.
Definition emitted (out_swap : bool) (l : bytes) : bytes := if out_swap then l else reversed_words l.

(** Bits 3 to 6 of the algorithm are the digests. *)
Definition hashes (sa : SecurityAssociation) : bool := existsb (Z.testbit (bd.algo (ctrl sa))) [3; 4; 5; 6].

Section manual.
Context {A : AesBlocks} {D : DigestCrates} {S : StreamCrates}.

Definition digest_result (a : Z) (l : bytes) : option bytes :=
  let digest d := digest_finalize (digest_update (digest_new d) l) in
  if Z.testbit a 5 then Some (digest cSha256)
  else if Z.testbit a 4 then Some (digest cSha1)
  else if Z.testbit a 3 then Some (digest cMd5)
  else None.

(** Modes 8 and 9 are ECB and CBC, 13 is counter mode, 14 the keystream of GCM. *)
Definition aes_result (mode : Z) (key iv input : bytes) (n : Z) (encrypt : bool) : option bytes :=
  let on m := on_blocks 16 (Z.to_nat (n / 16)) (mode_crypt m (direction_of encrypt) key iv) input in
  if mode =? 8 then Some (on cryp.Ecb)
  else if mode =? 9 then Some (on cryp.Cbc)
  else if mode =? 13 then Some (stream_reference key iv input n)
  else if mode =? 14 then Some (stream_reference key (take 12 iv ++ be_bytes 4 2) input n)
  else None.

(** Bit 2 is AES with a key of 16, 24 or 32 bytes, bit 1 triple DES, bit 0 DES. *)
Definition manual_result (sa : SecurityAssociation) (bd : BufferDescriptor) (input : bytes) : option bytes :=
  let a := bd.algo (ctrl sa) in
  let mode := cryptoalgo (ctrl sa) in
  let encrypt := enctype (ctrl sa) =? 1 in
  let ks := keysize (ctrl sa) in
  if hashes sa then digest_result a (take (Z.to_nat (msglen bd)) input)
  else if Z.testbit a 2 then
    if (ks =? 0) || (ks =? 1) || (ks =? 2)
    then aes_result mode (key_of sa (16 + 8 * ks)) (iv_of sa 16) input (msglen bd) encrypt
    else None
  else if Z.testbit a 1 then des_reference 4 5 mode (key_of sa 24) (iv_of sa 8) input (msglen bd) encrypt
  else if Z.testbit a 0 then des_reference 0 1 mode (key_of sa 8) (iv_of sa 8) input (msglen bd) encrypt
  else None.

(** *** The code's parsers and selectors agree *)

Lemma descriptor_eq buf : bd_parse buf = descriptor_of buf.
Proof. reflexivity. Qed.

Lemma field_bits v b n : 0 <= b -> 0 <= n -> field v b (Z.ones n) = v / 2 ^ b mod 2 ^ n.
Proof. intros. unfold field. by rewrite Z.land_ones, Z.shiftr_div_pow2 by done. Qed.

Lemma association_eq buf : sa_parse buf = association_of buf.
Proof.
  unfold sa_parse, association_of, from_u32. cbv zeta. rewrite <- !field_bits by done. reflexivity.
Qed.

Lemma enabled_eq bd : desc_enabled bd = is_enabled bd.
Proof. by apply ctrl_bit_testbit. Qed.
Lemma fetches_eq bd : sa_fetch_enabled bd = fetches bd.
Proof. by apply ctrl_bit_testbit. Qed.
Lemma last_eq bd : last_bd bd = is_last bd.
Proof. by apply ctrl_bit_testbit. Qed.
Lemma buffer_len_eq bd : buffer_len bd = buflen bd.
Proof. unfold buffer_len, buflen, ctrl_buflen. change 0xFFFF with (Z.ones 16). by rewrite Z.land_ones. Qed.

Lemma has_bit x n : 0 <= n -> has x (2 ^ n) = Z.testbit x n.
Proof. intros Hn. unfold has. rewrite <- Z.shiftl_1_l, land_bit by done. apply negb_involutive. Qed.

Lemma has_or x m m' : has x (Z.lor m m') = has x m || has x m'.
Proof.
  unfold has. rewrite Z.land_lor_distr_r. destruct (Z.eqb_spec (Z.lor (Z.land x m) (Z.land x m')) 0) as [E|E].
  - apply Z.lor_eq_0_iff in E as [-> ->]. done.
  - destruct (Z.eqb_spec (Z.land x m) 0) as [E1|E1], (Z.eqb_spec (Z.land x m') 0) as [E2|E2]; try done.
    by rewrite E1, E2 in E.
Qed.

Lemma hashes_eq sa : is_hash sa = hashes sa.
Proof.
  unfold is_hash, hashes. rewrite !has_or.
  change ALGO_SHA256 with (2 ^ 5). change ALGO_SHA1 with (2 ^ 4). change ALGO_MD5 with (2 ^ 3).
  change ALGO_HMAC1 with (2 ^ 6). rewrite !has_bit by done. cbn [existsb].
  by destruct (Z.testbit _ 3), (Z.testbit _ 4), (Z.testbit _ 5), (Z.testbit _ 6).
Qed.

Lemma drop_words (k : nat) (l : list Z) : drop (4 * k) (l ≫= be_bytes 4) = drop k l ≫= be_bytes 4.
Proof.
  revert k. induction l as [|w l IH]; intros k; [by rewrite drop_nil; cbn [mbind list_bind]; rewrite drop_nil|]. destruct k as [|k]; [done|].
  rewrite bind_cons. replace (4 * Datatypes.S k)%nat with (4 + 4 * k)%nat by lia.
  rewrite <- drop_drop. rewrite (drop_app_length' (be_bytes 4 w)) by done. apply IH.
Qed.

Lemma last_bytes_eq words n : n mod 4 = 0 -> 0 <= n <= 4 * len words -> right_justified words n = last_bytes words n.
Proof.
  intros Hm Hn. unfold right_justified, last_bytes.
  rewrite take_ge by (rewrite length_drop; unfold len in *; dlia).
  replace (Z.to_nat (4 * len words - n)) with (4 * Z.to_nat (len words - n / 4))%nat by dlia.
  by rewrite drop_words.
Qed.

Lemma key_of_eq sa n : arrays_ok sa -> n mod 4 = 0 -> 0 <= n <= 32 -> cipher_key sa n = key_of sa n.
Proof. intros [H _] Hm Hn. apply last_bytes_eq; [done|]. unfold len. rewrite H. lia. Qed.
Lemma iv_of_eq sa n : arrays_ok sa -> n mod 4 = 0 -> 0 <= n <= 16 -> sa_iv sa n = iv_of sa n.
Proof.
  intros [_ H] Hm Hn. unfold sa_iv, iv_of. destruct (loadiv (ctrl sa) =? 0); [done|]. cbn [negb].
  apply last_bytes_eq; [done|]. unfold len. rewrite H. lia.
Qed.

Lemma result_eq sa bd input : arrays_ok sa -> result_of sa bd input = manual_result sa bd input.
Proof.
  intros Ha. unfold result_of, manual_result. cbv zeta. rewrite hashes_eq.
  change ALGO_AES with (2 ^ 2). change ALGO_TDES with (2 ^ 1). change ALGO_DES with (2 ^ 0).
  rewrite !has_bit by done. rewrite !iv_of_eq, !key_of_eq by (done || lia).
  destruct (hashes sa).
  - unfold hash, digest_result. change ALGO_SHA256 with (2 ^ 5). change ALGO_SHA1 with (2 ^ 4). change ALGO_MD5 with (2 ^ 3).
    by rewrite !has_bit by done.
  - destruct (Z.testbit _ 2); [|done]. unfold aes_key_len.
    change KEYSIZE_128 with 0. change KEYSIZE_192 with 1. change KEYSIZE_256 with 2.
    destruct (Z.eqb_spec (keysize (ctrl sa)) 0) as [->|]; [by rewrite key_of_eq|].
    destruct (Z.eqb_spec (keysize (ctrl sa)) 1) as [->|]; [by rewrite key_of_eq|].
    destruct (Z.eqb_spec (keysize (ctrl sa)) 2) as [->|]; [by rewrite key_of_eq|]. done.
Qed.

Lemma sub_four (a b c d : Z) (l : bytes) i j : 0 <= i -> sub (a :: b :: c :: d :: l) (4 + i) (4 + j) = sub l i j.
Proof.
  intros Hi. unfold sub. replace (Z.to_nat (4 + i)) with (4 + Z.to_nat i)%nat by lia.
  by replace (4 + j - (4 + i)) with (j - i) by lia.
Qed.

Lemma bind_ext_in {X Y} (f g : X -> list Y) (l : list X) : (forall x, x ∈ l -> f x = g x) -> l ≫= f = l ≫= g.
Proof.
  induction l as [|x l IH]; intros H; [done|]. rewrite !bind_cons, IH by (intros; apply H; by right).
  f_equal. apply H. by left.
Qed.

Lemma reversed_words_eq l : byte_swap_words l = reversed_words l.
Proof.
  assert (Hlt : (length l < Datatypes.S (length l))%nat) by lia. revert Hlt.
  generalize (Datatypes.S (length l)). intros n. revert l. induction n as [|n IH]; intros l Hn; [lia|].
  destruct l as [|a [|b [|c [|d l]]]]; try done. cbn [reversed_words]. rewrite <- IH by (simpl in Hn; lia).
  unfold byte_swap_words. rewrite !len_cons.
  assert (Hq : (1 + (1 + (1 + (1 + len l)))) / 4 = len l / 4 + 1) by dlia. rewrite Hq.
  pose proof (len_nonneg l) as Hl. assert (0 <= len l / 4) by dlia.
  rewrite (seqZ_cons 0) by lia. rewrite bind_cons.
  change (reverse (sub (a :: b :: c :: d :: l) (0 * 4) (0 * 4 + 4))) with [d; c; b; a]. cbn [app]. do 4 f_equal.
  replace (Z.pred (len l / 4 + 1)) with (len l / 4) by lia. change (Z.succ 0) with (1 + 0). f_equal.
  - rewrite <- (fmap_add_seqZ 1 0), list_fmap_bind. apply bind_ext_in. intros i Hi%elem_of_seqZ. cbn beta.
    unfold compose. f_equal. replace ((1 + i) * 4) with (4 + i * 4) by lia.
    replace (4 + i * 4 + 4) with (4 + (i * 4 + 4)) by lia. apply sub_four. lia.
  - replace (Z.to_nat ((len l / 4 + 1) * 4)) with (4 + Z.to_nat (len l / 4 * 4))%nat by lia. done.
Qed.

Lemma emitted_eq o l : swap_out o l = emitted o l.
Proof. destruct o; [done|apply reversed_words_eq]. Qed.
End manual.

Section chain.
Context {A : AesBlocks} {D : DigestCrates} {S : StreamCrates}.
Context {AO : AesBlocksOk A} {DO : DigestCratesOk D} {SO : StreamCratesOk S}.
Context {M : Type} {MB : MemBus M} {MO : MemBusOk M}.

(** A descriptor with its association, its input and the result it stands for. *)
Record Job := mkJob {
  j_addr : Z;
  j_bd : BufferDescriptor;
  j_sa : SecurityAssociation;
  j_input : bytes;
  j_result : bytes;
}.

(** Digests go to the update pointer, the other results to the destination. *)
Definition j_dest (j : Job) : Z := if hashes (j_sa j) then updptr (j_bd j) else dstaddr (j_bd j).

(** The job is laid out in memory. *)
Definition present (m : M) (j : Job) : Prop :=
  descriptor_of <$> read_phys m (j_addr j) 32 = Some (j_bd j) /\
  association_of <$> read_phys m (sa_addr (j_bd j)) 116 = Some (j_sa j) /\
  read_phys m (srcaddr (j_bd j)) (buffer_len (j_bd j)) = Some (j_input j) /\
  mapped m (j_dest j) (len (j_result j)).

(** It is enabled, its message fits, and its result is the reference one. *)
Definition valid (j : Job) : Prop :=
  is_enabled (j_bd j) = true /\ fetches (j_bd j) = true /\ fits (j_sa j) (j_bd j) /\
  0 <= msglen (j_bd j) /\ manual_result (j_sa j) (j_bd j) (j_input j) = Some (j_result j).

(** Writing [n] bytes from [p] leaves the job alone. *)
Definition spares (p n : Z) (j : Job) : Prop :=
  apart p n (physical (j_addr j)) 32 /\ apart p n (physical (sa_addr (j_bd j))) 116 /\
  apart p n (physical (srcaddr (j_bd j))) (buffer_len (j_bd j)).

(** Each descriptor points at the next; the last one ends the chain. *)
Definition ends (j : Job) : bool :=
  is_last (j_bd j) || (nxtptr (j_bd j) =? 0) || (nxtptr (j_bd j) =? j_addr j).

Fixpoint linked (js : list Job) : Prop :=
  match js with
  | [] => False
  | [j] => ends j = true
  | j :: (j' :: _) as js => ends j = false /\ nxtptr (j_bd j) = j_addr j' /\ linked js
  end.

(** A result never overwrites what a later job needs. *)
Fixpoint undisturbed (js : list Job) : Prop :=
  match js with
  | [] => True
  | j :: js => Forall (spares (physical (j_dest j)) (len (j_result j))) js /\ undisturbed js
  end.

(** The memory after the results were stored in order. *)
Definition put (p : Z) (bs : bytes) (v : Z -> option Z) (q : Z) : option Z :=
  if within p (len bs) q then bs !! Z.to_nat (q - p) else v q.

Definition final_bytes (out_swap : bool) (js : list Job) (v : Z -> option Z) : Z -> option Z :=
  fold_left (fun v j => put (physical (j_dest j)) (emitted out_swap (j_result j)) v) js v.

Lemma len_swap_out o l : len (swap_out o l) = len l.
Proof.
  destruct o; [done|]. unfold swap_out, byte_swap_words. rewrite len_app, len_drop. pose proof (len_nonneg l) as Hl.
  assert (Hb : forall n : nat, Z.of_nat n <= len l / 4 ->
    len (seqZ 0 (Z.of_nat n) ≫= (fun i => reverse (sub l (i * 4) (i * 4 + 4)))) = 4 * Z.of_nat n).
  { intros n. induction n as [|n IH]; intros Hn; [done|].
    replace (Z.of_nat (Datatypes.S n)) with (Z.of_nat n + 1) by lia.
    rewrite (seqZ_app 0 (Z.of_nat n) 1) by lia. rewrite bind_app, len_app, IH by lia.
    rewrite seqZ_cons by lia. change (seqZ (Z.succ (0 + Z.of_nat n)) (Z.pred 1)) with (@nil Z).
    rewrite bind_cons, len_app, len_reverse, len_sub. cbn [mbind list_bind]. change (len []) with 0. dlia. }
  specialize (Hb (Z.to_nat (len l / 4))). rewrite Z2Nat.id in Hb by dlia. rewrite Hb by lia. dlia.
Qed.

Lemma final_bytes_ext o js v w q : (forall q, v q = w q) -> final_bytes o js v q = final_bytes o js w q.
Proof.
  unfold final_bytes. revert v w. induction js as [|j js IH]; intros v w H; [apply H|]. cbn [fold_left].
  apply IH. intros p. unfold put. by rewrite H.
Qed.

Lemma len_emitted o l : len (emitted o l) = len l.
Proof. by rewrite <- emitted_eq, len_swap_out. Qed.

(** What is laid out is what the engine parses. *)
Lemma present_reads m j : present m j -> bd_read_phys m (j_addr j) = Some (j_bd j) /\
  sa_read_phys m (sa_addr (j_bd j)) = Some (j_sa j) /\
  read_phys m (srcaddr (j_bd j)) (buflen (j_bd j)) = Some (j_input j).
Proof.
  intros (P1 & P2 & P3 & _). rewrite <- buffer_len_eq. split_and!; [done| |done].
  unfold sa_read_phys. rewrite <- P2. change SA_SIZE with 116. destruct (read_phys _ _ 116); [|done].
  cbn. by rewrite association_eq.
Qed.

Lemma present_frame m m' p bs j : overwritten m m' p bs -> spares p (len bs) j -> present m j -> present m' j.
Proof.
  intros Hm (H1 & H2 & H3) (P1 & P2 & P3 & P4). split_and!.
  - apply fmap_Some in P1 as (l & P1 & ->). by rewrite (read_frame m m' p bs (j_addr j) 32 l).
  - apply fmap_Some in P2 as (l & P2 & E). by rewrite (read_frame m m' p bs (sa_addr (j_bd j)) 116 l), E.
  - apply (read_frame m m' p bs); [|done..]. unfold buffer_len. dlia.
  - by apply (mapped_overwritten m m' p bs).
Qed.

Lemma sa_read_arrays (m : M) a sa : sa_read_phys m a = Some sa -> arrays_ok sa.
Proof. unfold sa_read_phys. intros (buf & _ & ->)%fmap_Some. apply sa_parse_arrays. Qed.

Lemma execute_read sa bd o (m : M) input : read_phys m (srcaddr bd) (buflen bd) = Some input -> 0 <= buflen bd ->
  execute sa bd o m = execute_with sa bd o input m.
Proof.
  intros Hr Hb. unfold execute. destruct (Z.eqb_spec (buflen bd) 0) as [Hz|]; [|by rewrite Hr].
  apply read_phys_spec in Hr as [Hl _]; [|done].
  assert (input = []) as -> by (apply nil_length_inv; unfold len in Hl; lia). done.
Qed.

Lemma execute_job m o j : present m j -> valid j ->
  exists m', execute (j_sa j) (j_bd j) o m = Ret (true, m') /\
    overwritten m m' (physical (j_dest j)) (emitted o (j_result j)).
Proof.
  intros P (_ & _ & Hf & H0 & Hr). pose proof (present_reads m j P) as (_ & P2 & P3). destruct P as (_ & _ & _ & P4).
  pose proof (sa_read_arrays _ _ _ P2) as Ha.
  assert (Hb : 0 <= buflen (j_bd j)) by (rewrite <- buffer_len_eq; unfold buffer_len; dlia).
  pose proof P3 as Hlen. apply read_phys_spec in Hlen as [Hlen _]; [|done].
  rewrite (execute_read _ _ _ _ _ P3 Hb), execute_with_reference, result_eq by done.
  unfold fits in Hf. rewrite Hlen, (proj2 (Z.leb_le _ _)) by done. rewrite Hr, emitted_eq.
  destruct (write_phys_ok m (j_dest j) (emitted o (j_result j))) as (m' & Ew & Ho); [by rewrite len_emitted|].
  exists m'. unfold dest_of. rewrite hashes_eq. unfold j_dest in Ew. by rewrite Ew.
Qed.

Lemma chain_step fuel m o j : present m j -> valid j ->
  exists m', overwritten m m' (physical (j_dest j)) (emitted o (j_result j)) /\
    chain_from (Datatypes.S fuel) (j_addr j) o m =
      if ends j then Ret (true, m') else chain_from fuel (nxtptr (j_bd j)) o m'.
Proof.
  intros P V. destruct (execute_job m o j P V) as (m' & E & Ho). exists m'. split; [done|].
  destruct (present_reads m j P) as (P1 & P2 & _), V as (V1 & V2 & _). cbn [chain_from].
  rewrite P1, enabled_eq, fetches_eq, V1, V2. cbn [negb]. rewrite P2, E.
  cbn [rbind negb]. unfold ends. rewrite last_eq. by destruct (is_last _), (nxtptr _ =? 0).
Qed.

Lemma chain_refines js : forall fuel m o j0, linked js -> (length js <= fuel)%nat -> head js = Some j0 ->
  Forall (present m) js -> Forall valid js -> undisturbed js ->
  exists m', chain_from fuel (j_addr j0) o m = Ret (true, m') /\
    forall q, byte_at m' q = final_bytes o js (byte_at m) q.
Proof.
  induction js as [|j js IH]; intros fuel m o j0 Hl Hf H0 Hp Hv Hu; [done|]. injection H0 as <-.
  destruct fuel as [|fuel]; [cbn in Hf; lia|].
  apply Forall_cons in Hp as [Hj Hp]. apply Forall_cons in Hv as [Vj Hv]. destruct Hu as [Hs Hu].
  destruct (chain_step fuel m o j Hj Vj) as (m1 & Ho & E). rewrite E.
  assert (Hb : forall q, byte_at m1 q = put (physical (j_dest j)) (emitted o (j_result j)) (byte_at m) q).
  { intros q. rewrite Ho. done. }
  destruct js as [|j' js].
  - rewrite Hl. exists m1. by split.
  - destruct Hl as (He & Hn & Hl). rewrite He, Hn.
    destruct (IH fuel m1 o j' Hl) as (m' & E' & Hm'); [cbn in *; lia|done| |done|done|].
    { rewrite Forall_forall in Hp, Hs |- *. intros k Hk.
      apply (present_frame m m1 (physical (j_dest j)) (emitted o (j_result j)) k); [exact Ho| |auto].
      rewrite len_emitted. auto. }
    exists m'. split; [done|]. intros q. rewrite Hm'. by apply (final_bytes_ext o (j' :: js)).
Qed.
End chain.

(** ** The engine on arbitrary memory

    Memory keeps holding bytes; a walk over descriptors ends, and panics only at a
    descriptor whose message exceeds its buffer, which it does. *)

Import bd algo polling ce.

(** ** Bytes stay bytes *)

Lemma wf_concat_all (ls : list bytes) : Forall wf ls -> wf (concat ls).
Proof. induction 1; cbn; auto with wfdb. Qed.

Lemma wf_blocks_of size n l : wf l -> Forall wf (blocks_of size n l).
Proof. revert l. induction n as [|n IH]; intros l Hl; cbn [blocks_of]; constructor; auto with wfdb. Qed.

Lemma wf_on_blocks size n g l : (forall bs, Forall wf bs -> Forall wf (g bs)) -> wf l -> wf (on_blocks size n g l).
Proof. intros Hg Hl. apply wf_app; [|auto with wfdb]. apply wf_concat_all, Hg. by apply wf_blocks_of. Qed.

Lemma wf_cbc_enc f iv bs : (forall b, wf b -> wf (f b)) -> wf iv -> Forall wf bs -> Forall wf (cbc_enc_with f iv bs).
Proof.
  intros Hf Hiv Hbs. revert iv Hiv. induction Hbs as [|b bs Hb Hbs IH]; intros iv Hiv; cbn [cbc_enc_with]; constructor;
    auto using wf_xor_bytes.
Qed.
Lemma wf_cbc_dec f iv bs : (forall b, wf b -> wf (f b)) -> wf iv -> Forall wf bs -> Forall wf (cbc_dec_with f iv bs).
Proof.
  intros Hf Hiv Hbs. revert iv Hiv. induction Hbs as [|b bs Hb Hbs IH]; intros iv Hiv; cbn [cbc_dec_with]; constructor;
    auto using wf_xor_bytes.
Qed.
Lemma wf_fmap_blocks f bs : (forall b, wf b -> wf (f b)) -> Forall wf bs -> Forall wf (f <$> bs).
Proof. intros Hf Hbs. apply Forall_fmap. eapply Forall_impl; [exact Hbs|]. auto. Qed.

Lemma wf_bind {T} (l : list T) (f : T -> bytes) : (forall x, wf (f x)) -> wf (l ≫= f).
Proof. intros Hf. induction l as [|x l IH]; [apply wf_nil|]. rewrite bind_cons. auto with wfdb. Qed.

Lemma wf_swap_out o l : wf l -> wf (swap_out o l).
Proof.
  intros Hl. destruct o; [done|]. unfold swap_out, byte_swap_words. apply wf_app; [|auto with wfdb].
  apply wf_bind. auto with wfdb.
Qed.

Section total.
Context {A : AesBlocks} {D : DigestCrates} {S : StreamCrates}.
Context {AO : AesBlocksOk A} {DO : DigestCratesOk D} {SO : StreamCratesOk S}.

Lemma wf_sa_iv sa n : wf (sa_iv sa n).
Proof.
  unfold sa_iv. case (negb _); [|apply wf_vec_repeat; u_solve]. unfold cipher_iv, right_justified. apply wf_bind. auto with wfdb.
Qed.

Lemma wf_stream k iv l n : wf l -> wf (stream_reference k iv l n).
Proof. intros Hl. unfold stream_reference. apply wf_app; [apply ctr128be_wf|]; auto with wfdb. Qed.

Lemma wf_aes_mode m d k iv bs : m = cryp.Ecb \/ m = cryp.Cbc -> wf iv -> Forall wf bs -> Forall wf (mode_crypt m d k iv bs).
Proof.
  intros Hm Hiv Hbs.
  destruct Hm as [-> | ->], d; cbn [mode_crypt]; rewrite <- ?cbc_enc_aes, <- ?cbc_dec_aes;
    auto using wf_fmap_blocks, wf_cbc_enc, wf_cbc_dec, aes_enc_wf, aes_dec_wf.
Qed.

Lemma wf_aes_reference ca k iv l n e out : wf iv -> wf l -> aes_reference ca k iv l n e = Some out -> wf out.
Proof.
  intros Hiv Hl. unfold aes_reference. repeat case_match; intros [= <-];
    auto using wf_on_blocks, wf_aes_mode, wf_stream.
Qed.

Lemma wf_des_reference ecb cbc ca k iv l n e out : wf iv -> wf l -> des_reference ecb cbc ca k iv l n e = Some out -> wf out.
Proof.
  intros Hiv Hl. unfold des_reference. destruct (des_new_from_slice k) as [c|]; [|done].
  destruct (ca =? ecb); [|destruct (ca =? cbc); [|done]]; intros [= <-]; apply wf_on_blocks; try done; intros bs Hbs;
    destruct e; auto using wf_fmap_blocks, wf_cbc_enc, wf_cbc_dec, des_enc_wf, des_dec_wf.
Qed.

Lemma wf_hash a l out : hash a l = Some out -> wf out.
Proof. unfold hash. repeat case_match; intros [= <-]; apply digest_finalize_wf. Qed.

Lemma wf_result_of sa bd l out : wf l -> result_of sa bd l = Some out -> wf out.
Proof.
  intros Hl. unfold result_of. repeat case_match; try done;
    eauto using wf_hash, wf_aes_reference, wf_des_reference, wf_sa_iv.
Qed.

Context {M : Type} {MB : MemBus M} {MO : MemBusOk M}.

Definition u8_memory (m : M) : Prop := forall p b, byte_at m p = Some b -> u8 b.

Lemma u8_memory_write m m' p bs : u8_memory m -> wf bs -> overwritten m m' p bs -> u8_memory m'.
Proof.
  intros Hm Hbs Ho q b. rewrite Ho. destruct (within _ _ _); [|apply Hm]. intros H. by eapply wf_lookup.
Qed.

Lemma wf_read (m : M) a n bs : 0 <= n -> u8_memory m -> read_phys m a n = Some bs -> wf bs.
Proof.
  intros Hn Hm [_ H]%read_phys_spec; [|done]. apply Forall_lookup. intros i b E. by eapply Hm, H.
Qed.

Lemma bd_read_u32 (m : M) a bd : u8_memory m -> bd_read_phys m a = Some bd -> 0 <= msglen bd /\ 0 <= buflen bd.
Proof.
  intros Hm. unfold bd_read_phys. intros (buf & Hr & ->)%fmap_Some. pose proof (wf_read m a BD_SIZE buf ltac:(done) Hm Hr) as Hw.
  assert (Hnn : forall l, wf l -> 0 <= le_val l) by (intros l Hl; by destruct (le_val_bounds l Hl)).
  split; [apply Hnn; auto with wfdb|]. unfold buflen, ctrl_buflen. apply Z.land_nonneg. by right.
Qed.

(** The descriptor at [a] is executed and needs more bytes than its buffer has. *)
Definition oversized (m : M) (a : Z) : Prop :=
  exists bd sa input, bd_read_phys m a = Some bd /\ desc_enabled bd = true /\ sa_fetch_enabled bd = true /\
    sa_read_phys m (sa_addr bd) = Some sa /\ read_phys m (srcaddr bd) (buflen bd) = Some input /\ ~ fits sa bd.

(** The descriptors the walk comes to, with the memory it finds there. *)
Inductive reach (o : bool) : M -> Z -> M -> Z -> Prop :=
  | reach_here m a : reach o m a m a
  | reach_next m a bd sa m1 m' a' :
      bd_read_phys m a = Some bd -> desc_enabled bd = true -> sa_fetch_enabled bd = true ->
      sa_read_phys m (sa_addr bd) = Some sa -> execute sa bd o m = Ret (true, m1) ->
      last_bd bd = false -> nxtptr bd <> 0 -> nxtptr bd <> a ->
      reach o m1 (nxtptr bd) m' a' -> reach o m a m' a'.

Lemma u8_memory_write_phys m a bs : u8_memory m -> wf bs -> u8_memory (write_phys m a bs).2.
Proof.
  intros Hm Hbs. destruct (write_phys m a bs) as [[] m'] eqn:E; cbn [snd].
  - apply (u8_memory_write m m' (physical a) bs); [done..|]. by apply write_phys_true.
  - by rewrite (write_phys_false _ _ _ _ E).
Qed.

Lemma execute_total sa bd o m a : u8_memory m -> bd_read_phys m a = Some bd -> desc_enabled bd = true ->
  sa_fetch_enabled bd = true -> sa_read_phys m (sa_addr bd) = Some sa ->
  wpp (execute sa bd o m) (oversized m a) (fun r => u8_memory r.2).
Proof.
  intros Hm Hb He Hf Hs. destruct (bd_read_u32 m a bd Hm Hb) as [H0 H1]. pose proof (sa_read_arrays _ _ _ Hs) as Ha.
  destruct (read_phys m (srcaddr bd) (buflen bd)) as [input|] eqn:Hr.
  - rewrite (execute_read _ _ _ _ _ Hr H1), execute_with_reference by done.
    assert (Hlen : len input = buflen bd) by (by apply read_phys_spec in Hr as [? _]).
    destruct (Z.leb_spec (needed sa (msglen bd)) (len input)) as [Hn|Hn].
    + apply wpp_ret. destruct (result_of sa bd input) as [out|] eqn:Eo; [|done].
      apply u8_memory_write_phys; [done|]. apply wf_swap_out. eapply wf_result_of; [|exact Eo].
      exact (wf_read m (srcaddr bd) (buflen bd) input H1 Hm Hr).
    + exists bd, sa, input. split_and!; try done. unfold fits. lia.
  - unfold execute. rewrite Hr. destruct (Z.eqb_spec (buflen bd) 0) as [Hz|]; [|by apply wpp_ret].
    exfalso. rewrite Hz in Hr. assert (Hnil : read_phys m (srcaddr bd) 0 = Some []) by (by apply read_phys_spec).
    congruence.
Qed.

Lemma chain_total fuel a o m : u8_memory m ->
  wpp (chain_from fuel a o m) (exists m' a', reach o m a m' a' /\ oversized m' a') (fun r => u8_memory r.2).
Proof.
  revert a m. induction fuel as [|fuel IH]; intros a m Hm; cbn [chain_from]; [by apply wpp_ret|].
  destruct (bd_read_phys m a) as [bd|] eqn:Hb; [|by apply wpp_ret].
  destruct (desc_enabled bd) eqn:He; cbn [negb]; [|by apply wpp_ret].
  destruct (sa_fetch_enabled bd) eqn:Hf; cbn [negb]; [|by apply wpp_ret].
  destruct (sa_read_phys m (sa_addr bd)) as [sa|] eqn:Hs; [|by apply wpp_ret].
  apply wpp_bind. pose proof (execute_total sa bd o m a Hm Hb He Hf Hs) as Hx.
  destruct (execute sa bd o m) as [[ok m1]|] eqn:E; cbn [wpp snd] in Hx |- *; [|by exists m, a; split; [constructor|]].
  destruct ok; cbn [negb]; [|by apply wpp_ret].
  destruct (last_bd bd) eqn:Hl; [by apply wpp_ret|].
  destruct ((nxtptr bd =? 0) || (nxtptr bd =? a)) eqn:Hn; [by apply wpp_ret|].
  eapply wpp_mono; [exact (IH (nxtptr bd) m1 Hx)| |done].
  intros (m' & a' & Hr & Ho). exists m', a'. split; [|done]. eapply reach_next; try done; lia.
Qed.

(** ** The control register *)

(** The swap of a session: the chip can, and the control word asks for it. *)
Definition swaps (s : CryptoEngine) (v : Z) : bool := negb (no_out_swap s) && has v CECON_OUT_SWAP.

Lemma has_clear x m : u32 m -> has (Z.land x (not32 m)) m = false.
Proof.
  intros Hm. unfold has, not32. apply negb_false_iff, Z.eqb_eq. apply Z.bits_inj'. intros i Hi.
  rewrite !Z.land_spec, Z.lxor_spec, Z.bits_0.
  destruct (Z.ltb_spec i 32).
  - change 0xFFFFFFFF with (Z.ones 32). rewrite Z.testbit_ones_nonneg by lia.
    rewrite (proj2 (Z.ltb_lt i 32)) by done. by destruct (Z.testbit x i), (Z.testbit m i).
  - assert (Z.testbit m i = false) as ->; [|by rewrite andb_false_r].
    unfold u32 in Hm. rewrite <- (Z.mod_small m (2 ^ 32)) by (change (2 ^ 32) with 4294967296; lia).
    apply Z.mod_pow2_bits_high. lia.
Qed.

Lemma has_set x m : u32 m -> m <> 0 -> has (Z.lor x m) m = true.
Proof.
  intros Hm H0. unfold has. apply negb_true_iff, Z.eqb_neq. rewrite Z.land_lor_distr_l, Z.land_diag.
  intros [_ H]%Z.lor_eq_0_iff. done.
Qed.

(** The firmware waits until START is clear and a completion is signalled: both happen on
    every store that starts the engine without resetting it, in one-shot mode by the
    packet interrupt, in polling mode by it or by an armed tick. *)
Lemma start_completes s lane v (w : World M Callback) : u8_memory (mem w) ->
  let new := atomic_op (cecon s) lane v in
  has new CECON_SWRST = false -> has new CECON_START = true ->
  wpp (write_cecon s lane v w)
    (has new CECON_POLLING = false /\
     exists m' a', reach (swaps s new) (mem w) (cebdpaddr s) m' a' /\ oversized m' a')
    (fun '(s', w') => has (cecon s') CECON_START = false /\ u8_memory (mem w') /\
       (if has new CECON_POLLING then is_Some (polling s') \/ has (ceintsrc s') CEINTSRC_PKTIF = true
        else has (ceintsrc s') CEINTSRC_PKTIF = true)).
Proof.
  intros Hm new Hr Hs. unfold write_cecon. fold new. rewrite Hr, Hs, andb_true_r.
  assert (Hu : u32 CECON_START) by (split; by vm_compute). assert (Hp : u32 CEINTSRC_PKTIF) by (split; by vm_compute).
  destruct (has new CECON_POLLING) eqn:P.
  - assert (Hdis : forall s1 : CryptoEngine, mem (disarm_polling s1 w).2 = mem w).
    { intros s1. unfold disarm_polling. by destruct (polling s1). }
    specialize (Hdis (with_cecon new s)).
    destruct (disarm_polling (with_cecon new s) w) as [s1 w1] eqn:E. cbn [snd] in Hdis.
    destruct (arm _ _ w1) as [[i w2]|] eqn:Ea; apply wpp_ret.
    + assert (mem w2 = mem w1) as Hw2.
      { unfold arm in Ea. destruct (_ =? 0); [done|]. destruct (collect_chain _ _); [|done]. by injection Ea as <- <-. }
      split_and!; [apply (has_clear _ _ Hu)|by rewrite Hw2, Hdis|]. left. by eexists.
    + split_and!; [apply (has_clear _ _ Hu)|by rewrite Hdis|]. right. by apply has_set.
  - apply wpp_bind. unfold run_chain. fold (swaps s new). change (cebdpaddr (with_cecon new s)) with (cebdpaddr s).
    change (negb (no_out_swap (with_cecon new s)) && has new CECON_OUT_SWAP) with (swaps s new).
    eapply wpp_mono; [exact (chain_total MAX_BD_CHAIN (cebdpaddr s) (swaps s new) (mem w) Hm)|by intros|].
    intros [ok m'] Hm'. cbn [snd] in Hm'. apply wpp_ret. destruct ok;
      (split_and!; [apply (has_clear _ _ Hu)|exact Hm'|by apply has_set]).
Qed.
End total.
