(* ===== verification/Pic32Claims.v ===== *)
(** * PIC32MZSim: the streaming hash, and what a driver gets

    Between two ticks the firmware may write memory as it likes; what matters is what a
    tick finds: no enabled descriptor, or one with the next piece of the message.  However
    the message is cut and however many idle ticks come between, the digest that the last
    piece commits is that of the one-shot path on the whole message. *)

From S2P Require Import Prelude.
From S2P Require Import Crc.
From S2P Require Import Crates.
From S2P Require Import McuCrates.
From S2P Require Import Stm32Core.
From S2P Require Import Stm32Cryp.
From S2P Require Import Stm32Chips.
From S2P Require Import Stm32Gf128.
From S2P Require Import Pic32Core.
From S2P Require Import Pic32Ce.
From S2P Require Import Pic32Chips.
From S2P Require Import Pic32Layout.
From S2P Require Import Pic32Modes.
From S2P Require Import Pic32Chain.

Import bd algo polling.

Section polling.
Context {D : DigestCrates} {DO : DigestCratesOk D}.
Context {M : Type} {MB : MemBus M} {MO : MemBusOk M}.

(** ** What a tick finds *)

(** The control word at [a] has [DESC_EN] clear, or cannot be read. *)
Definition idle (m : M) (a : Z) : Prop :=
  forall l, read_phys m a 4 = Some l -> Z.land (le_val l) DESC_EN_BIT = 0.

Record Piece := mkPiece { p_addr : Z; p_bd : BufferDescriptor; p_data : bytes }.

Definition final (p : Piece) : bool := last_bd (p_bd p) && lifm (p_bd p).

(** How much of its buffer a piece stands for after [fed] bytes. *)
Definition piece_len (fed : Z) (bd : BufferDescriptor) : Z :=
  if msglen bd =? 0 then buflen bd else Z.min (buflen bd) (Z.max 0 (msglen bd - fed)).

(** The descriptor of the piece is the only enabled one of the ring, the others lie apart
    from it, and its data are in its buffer. *)
Definition offers (addrs : list Z) (m : M) (fed : Z) (p : Piece) : Prop :=
  bd_read_phys m (p_addr p) = Some (p_bd p) /\ desc_enabled (p_bd p) = true /\
  0 <= piece_len fed (p_bd p) /\ read_phys m (srcaddr (p_bd p)) (piece_len fed (p_bd p)) = Some (p_data p) /\
  exists before after, addrs = before ++ p_addr p :: after /\
    Forall (fun a => idle m a /\ apart (physical (p_addr p)) BD_SIZE (physical a) 4) (before ++ after).

(** The first piece also fetches the association, which names the algorithm. *)
Definition starts (m : M) (a : Z) (p : Piece) : Prop :=
  sa_fetch_enabled (p_bd p) = true /\
  exists sa, sa_read_phys m (sa_addr (p_bd p)) = Some sa /\ bd.algo (ctrl sa) = a.

(** The memories that successive ticks find, each idle or with a piece. *)
Fixpoint streamed (a : Z) (addrs : list Z) (msg : bytes) (started : bool) (evs : list (M * option Piece)) : Prop :=
  match evs with
  | [] => True
  | (m, None) :: evs => Forall (idle m) addrs /\ streamed a addrs msg started evs
  | (m, Some p) :: evs =>
      offers addrs m (len msg) p /\ (if started then True else starts m a p) /\ final p = false /\
      streamed a addrs (msg ++ p_data p) true evs
  end.

Definition pieces (evs : list (M * option Piece)) : list Piece := omap snd evs.
Definition message (evs : list (M * option Piece)) : bytes := concat (p_data <$> pieces evs).

(** The ticks on these memories, with the memories they leave. *)
Fixpoint ticks (cb : Callback) (ms : list M) : res (Callback * list M) :=
  match ms with
  | [] => Ret (cb, [])
  | m :: ms =>
      let! '(cb, m) := callback cb m in
      let! '(cb, ms) := ticks cb ms in
      Ret (cb, m :: ms)
  end.

(** ** One tick *)

Lemma read_4_ctrl (m : M) a bd l : bd_read_phys m a = Some bd -> read_phys m a 4 = Some l -> le_val l = bd_ctrl bd.
Proof.
  unfold bd_read_phys. intros (buf & Hr & ->)%fmap_Some H.
  apply (read_prefix m a BD_SIZE 4) in Hr; [|by split]. rewrite H in Hr. injection Hr as ->. done.
Qed.

Lemma desc_en_bit x : (Z.land x DESC_EN_BIT =? 0) = negb (ctrl_desc_en x).
Proof. unfold DESC_EN_BIT, ctrl_desc_en. by rewrite land_bit, ctrl_bit_testbit. Qed.

Lemma tick_idle st addrs prog m : Forall (idle m) addrs -> tick_bds st addrs prog m = Ret (prog, st, m).
Proof.
  induction 1 as [|a addrs Ha _ IH]; [done|]. cbn [tick_bds].
  destruct (read_phys m a 4) as [l|] eqn:E; [|done]. by rewrite (Ha l E).
Qed.

Lemma tick_skip st before addrs prog m : Forall (idle m) before ->
  tick_bds st (before ++ addrs) prog m = tick_bds st addrs prog m.
Proof.
  induction 1 as [|a l Ha _ IH]; [done|]. cbn [app tick_bds].
  destruct (read_phys m a 4) as [x|] eqn:E; [|done]. by rewrite (Ha x E).
Qed.

Lemma idle_frame m m' p bs a : overwritten m m' p bs -> apart p (len bs) (physical a) 4 -> idle m a -> idle m' a.
Proof.
  intros Ho Ha Hi l Hl. apply Hi. apply (read_agree m'); [done|done|]. intros i Hi'. rewrite Ho. unfold within, apart in *.
  by rewrite (proj2 (andb_false_iff _ _)) by lia.
Qed.

Lemma take_len_piece st bd : take_len st bd = piece_len (bytes_fed st) bd.
Proof.
  unfold take_len, piece_len. destruct (msglen bd =? 0); cbn [negb]; [done|].
  destruct (Z.ltb_spec (Z.max 0 (msglen bd - bytes_fed st)) (buflen bd)); lia.
Qed.

(** The hasher after [msg]: none before the first piece. *)
Definition absorbing (a : Z) (st : State) (msg : bytes) (started : bool) : Prop :=
  completed st = false /\ bytes_fed st = len msg /\
  (if started then exists c, from_algo a = Some c /\ ctx st = Some (update c msg) else ctx st = None /\ msg = []).

Lemma ctx_update_app c a b : update (update c a) b = update c (a ++ b).
Proof. destruct c; cbn; by rewrite digest_update_app. Qed.
Lemma ctx_update_nil c : update c [] = c.
Proof. destruct c; cbn; by rewrite digest_update_nil. Qed.

Lemma ensure_started a st msg started bd m : absorbing a st msg started -> is_Some (from_algo a) ->
  (if started then True else sa_fetch_enabled bd = true /\
     exists sa, sa_read_phys m (sa_addr bd) = Some sa /\ bd.algo (ctrl sa) = a) ->
  exists st', ensure_ctx st bd m = (true, st') /\ absorbing a st' msg true /\
    s_out_swap st' = s_out_swap st /\ bd_addrs st' = bd_addrs st.
Proof.
  intros (Hc & Hf & Hx) [c Ha] Hs. unfold ensure_ctx. destruct started.
  - destruct Hx as (c' & Ec & Ex). rewrite Ex. exists st. split; [done|]. split; [|done].
    split; [done|]. split; [done|]. by exists c'.
  - destruct Hx as [Ex ->], Hs as (Hfe & sa & Hr & Hal). rewrite Ex, Hfe. cbn [negb]. rewrite Hr, Hal.
    cbn [with_s_algo s_algo]. rewrite Ha. eexists. split; [reflexivity|]. split; [|done].
    split; [done|]. split; [done|]. exists c. by rewrite ctx_update_nil.
Qed.

Lemma feed_piece a st msg bd m data : absorbing a st msg true -> 0 <= piece_len (len msg) bd ->
  read_phys m (srcaddr bd) (piece_len (len msg) bd) = Some data ->
  exists st', feed st bd m = (true, st') /\ absorbing a st' (msg ++ data) true /\
    s_out_swap st' = s_out_swap st /\ bd_addrs st' = bd_addrs st.
Proof.
  intros (Hc & Hf & c & Ha & Hx) H0 Hr. unfold feed. rewrite take_len_piece, Hf.
  pose proof Hr as Hl. apply read_phys_spec in Hl as [Hl _]; [|done].
  destruct (Z.ltb_spec 0 (piece_len (len msg) bd)) as [Hp|Hp].
  - rewrite Hr, Hx. eexists. split; [reflexivity|]. split; [|done]. split; [done|].
    cbn [with_bytes_fed with_ctx bytes_fed ctx]. rewrite Hf, len_app, Hl. split; [done|].
    exists c. by rewrite ctx_update_app.
  - assert (len data = 0) as Hz by lia. assert (data = []) as -> by (apply nil_length_inv; unfold len in Hz; lia).
    exists st. rewrite app_nil_r. split; [done|]. split; [|done]. split; [done|]. split; [done|]. by exists c.
Qed.

Definition cleared (bd : BufferDescriptor) : BufferDescriptor :=
  with_bd_ctrl (Z.land (bd_ctrl bd) (not32 DESC_EN_BIT)) bd.

(** The descriptor of a piece: the hasher takes its data and the descriptor is released;
    a final one commits the digest. *)
Lemma process_piece a st msg started p m : absorbing a st msg started -> is_Some (from_algo a) ->
  bd_read_phys m (p_addr p) = Some (p_bd p) -> desc_enabled (p_bd p) = true ->
  (if started then True else starts m a p) -> 0 <= piece_len (len msg) (p_bd p) ->
  read_phys m (srcaddr (p_bd p)) (piece_len (len msg) (p_bd p)) = Some (p_data p) ->
  (final p = true -> mapped m (updptr (p_bd p)) 32) ->
  exists st' m1, overwritten m m1 (physical (p_addr p)) (bd_bytes (cleared (p_bd p))) /\
    s_out_swap st' = s_out_swap st /\ bd_addrs st' = bd_addrs st /\
    if final p then
      completed st' = true /\ exists c m2, from_algo a = Some c /\
        process_bd st (p_addr p) m = Ret (true, st', m2) /\
        overwritten m1 m2 (physical (updptr (p_bd p))) (swap_out (s_out_swap st) (finalize (update c (msg ++ p_data p))))
    else absorbing a st' (msg ++ p_data p) true /\ process_bd st (p_addr p) m = Ret (true, st', m1).
Proof.
  intros Hst Ha Hb He Hs H0 Hr Hmap.
  destruct (ensure_started a st msg started (p_bd p) m Hst Ha Hs) as (s1 & E1 & A1 & O1 & B1).
  destruct (feed_piece a s1 msg (p_bd p) m (p_data p) A1 H0 Hr) as (s2 & E2 & A2 & O2 & B2).
  assert (Hm : mapped m (p_addr p) (len (bd_bytes (cleared (p_bd p))))).
  { rewrite len_bd_bytes. unfold bd_read_phys in Hb. apply fmap_Some in Hb as (l & Hl & _). by eapply read_mapped. }
  destruct (write_phys_ok m (p_addr p) _ Hm) as (m1 & Ew & Ho).
  unfold process_bd. rewrite Hb, He. cbn [negb]. rewrite E1. cbn [negb]. rewrite E2. cbn [negb].
  fold (cleared (p_bd p)). unfold bd_write_phys. rewrite Ew. cbn [negb]. fold (final p).
  destruct (final p).
  - destruct A2 as (C2 & F2 & c & Hc & Hx). rewrite Hx. cbn [with_ctx s_out_swap]. rewrite O2, O1.
    destruct (write_phys_ok m1 (updptr (p_bd p)) (swap_out (s_out_swap st) (finalize (update c (msg ++ p_data p)))))
      as (m2 & Ew2 & Ho2).
    { rewrite len_swap_out. eapply mapped_overwritten; [exact Ho|].
      assert (len (finalize (update c (msg ++ p_data p))) <= 32).
      { unfold from_algo in Hc. repeat case_match; try done; injection Hc as <-; cbn [update finalize];
          rewrite digest_finalize_len; by cbn. }
      intros i Hi. apply Hmap; [done|lia]. }
    rewrite Ew2. cbn [negb]. exists (with_completed true (with_ctx None s2)), m1. split; [exact Ho|].
    split; [cbn; by rewrite O2, O1|]. split; [cbn; by rewrite B2, B1|]. split; [done|].
    exists c, m2. by split_and!.
  - exists s2, m1. by rewrite O2, O1, B2, B1.
Qed.

(** ** The callback *)

Lemma piece_enabled (m : M) p : bd_read_phys m (p_addr p) = Some (p_bd p) -> desc_enabled (p_bd p) = true ->
  exists l, read_phys m (p_addr p) 4 = Some l /\ (Z.land (le_val l) DESC_EN_BIT =? 0) = false.
Proof.
  intros Hb He. pose proof Hb as Hb'. unfold bd_read_phys in Hb'. apply fmap_Some in Hb' as (buf & Hr & _).
  apply (read_prefix m _ BD_SIZE 4) in Hr; [|by split]. eexists. split; [exact Hr|].
  rewrite (read_4_ctrl m (p_addr p) (p_bd p) _ Hb Hr), desc_en_bit. unfold desc_enabled in He. by rewrite He.
Qed.

(** One tick on a memory that offers a piece. *)
Lemma callback_piece a cb msg started p m addrs : absorbing a (cb_state cb) msg started -> is_Some (from_algo a) ->
  bd_addrs (cb_state cb) = addrs -> offers addrs m (len msg) p -> (if started then True else starts m a p) ->
  (final p = true -> mapped m (updptr (p_bd p)) 32) ->
  exists cb' m1 m2, callback cb m = Ret (cb', m2) /\ bd_addrs (cb_state cb') = addrs /\
    s_out_swap (cb_state cb') = s_out_swap (cb_state cb) /\
    overwritten m m1 (physical (p_addr p)) (bd_bytes (cleared (p_bd p))) /\
    if final p then
      completed (cb_state cb') = true /\ cb_flag cb' = true /\ exists c, from_algo a = Some c /\
        overwritten m1 m2 (physical (updptr (p_bd p)))
          (swap_out (s_out_swap (cb_state cb)) (finalize (update c (msg ++ p_data p))))
    else absorbing a (cb_state cb') (msg ++ p_data p) true /\ m2 = m1.
Proof.
  intros Hst Ha Haddrs (Hb & He & H0 & Hr & before & after & Hsplit & Hidle) Hs Hmap.
  destruct (process_piece a (cb_state cb) msg started p m Hst Ha Hb He Hs H0 Hr Hmap) as (st' & m1 & Ho & Osw & Oad & Hp).
  apply Forall_app in Hidle as [Hbefore Hafter].
  unfold callback. destruct Hst as (Hc & Hf & Hx). rewrite Hc, Haddrs, Hsplit.
  rewrite tick_skip by (eapply Forall_impl; [exact Hbefore|]; by intros ? []).
  cbn [tick_bds]. destruct (piece_enabled m p Hb He) as (l & -> & ->).
  destruct (final p).
  - destruct Hp as (Hdone & c & m2 & Hca & -> & Ho2). cbn [rbind negb]. rewrite Hdone. cbn [rbind andb cb_state cb_flag].
    rewrite Hdone. eexists _, m1, m2. split; [reflexivity|]. cbn [cb_state cb_flag].
    split; [by rewrite Oad, Haddrs|]. split; [done|]. split; [done|]. split; [done|]. split; [done|]. by exists c.
  - destruct Hp as (Habs & ->). cbn [rbind negb]. rewrite (proj1 Habs). rewrite tick_idle.
    + cbn [rbind]. eexists _, m1, m1. split; [reflexivity|]. cbn [cb_state].
      split; [by rewrite Oad, Haddrs|]. by split_and!.
    + eapply Forall_impl; [exact Hafter|]. intros x [Hi Hap]. by eapply idle_frame.
Qed.

Lemma callback_idle cb m addrs : bd_addrs (cb_state cb) = addrs -> Forall (idle m) addrs -> callback cb m = Ret (cb, m).
Proof.
  intros Ha Hi. unfold callback. destruct (completed (cb_state cb)) eqn:E; [done|]. rewrite Ha, tick_idle by done.
  cbn [rbind]. rewrite E. by destruct cb.
Qed.

Lemma callback_done cb m : completed (cb_state cb) = true -> callback cb m = Ret (cb, m).
Proof. intros E. unfold callback. by rewrite E. Qed.

(** ** The stream *)

Lemma ticks_app cb ms ms' : ticks cb (ms ++ ms') =
  let! '(cb, l) := ticks cb ms in let! '(cb, l') := ticks cb ms' in Ret (cb, l ++ l').
Proof.
  revert cb. induction ms as [|m ms IH]; intros cb; cbn [app ticks rbind].
  - by destruct (ticks cb ms') as [[]|].
  - destruct (callback cb m) as [[cb1 m1]|]; [|done]. cbn [rbind]. rewrite IH.
    destruct (ticks cb1 ms) as [[cb2 l]|]; [|done]. cbn [rbind]. by destruct (ticks cb2 ms') as [[]|].
Qed.

Definition started_by (started : bool) (evs : list (M * option Piece)) : bool :=
  started || negb (bool_decide (pieces evs = [])).

Lemma stream_absorbs a evs : is_Some (from_algo a) -> forall cb msg started addrs,
  absorbing a (cb_state cb) msg started -> bd_addrs (cb_state cb) = addrs -> streamed a addrs msg started evs ->
  exists cb' ms', ticks cb (evs.*1) = Ret (cb', ms') /\ bd_addrs (cb_state cb') = addrs /\
    s_out_swap (cb_state cb') = s_out_swap (cb_state cb) /\
    absorbing a (cb_state cb') (msg ++ message evs) (started_by started evs).
Proof.
  intros Ha. induction evs as [|[m [p|]] evs IH]; intros cb msg started addrs Habs Haddrs Hs.
  - exists cb, []. unfold started_by, message. cbn. rewrite app_nil_r, orb_false_r. by split_and!.
  - destruct Hs as (Ho & Hst & Hf & Hs).
    destruct (callback_piece a cb msg started p m addrs Habs Ha Haddrs Ho Hst) as (cb1 & m1 & m2 & E & Had & Hsw & _ & Hp).
    { by rewrite Hf. }
    rewrite Hf in Hp. destruct Hp as [Habs1 ->].
    destruct (IH cb1 (msg ++ p_data p) true addrs Habs1 Had Hs) as (cb' & ms' & E' & Had' & Hsw' & Habs').
    exists cb', (m1 :: ms'). cbn [fmap list_fmap fst ticks]. rewrite E. cbn [rbind]. rewrite E'. cbn [rbind].
    split; [done|]. split; [done|]. split; [congruence|].
    unfold started_by. rewrite orb_true_intro by (right; by rewrite bool_decide_false).
    unfold message, pieces in *. cbn [omap list_omap snd fmap list_fmap concat] in *. by rewrite app_assoc.
  - destruct Hs as [Hi Hs]. destruct (IH cb msg started addrs Habs Haddrs Hs) as (cb' & ms' & E' & Had' & Hsw' & Habs').
    exists cb', (m :: ms'). cbn [fmap list_fmap fst ticks]. rewrite (callback_idle cb m addrs) by done. cbn [rbind]. rewrite E'. done.
Qed.

Lemma hash_from_algo a c msg : from_algo a = Some c -> hash a msg = Some (finalize (update c msg)).
Proof. unfold from_algo, hash. repeat case_match; intros [= <-]; reflexivity. Qed.

(** The memory reads back what was written over it, also through a later write. *)
Lemma read_digest m1 m2 a l : overwritten m1 m2 (physical a) l -> read_phys m2 a (len l) = Some l.
Proof. apply read_written. Qed.

(** The callback that [arm] registers. *)
Definition fresh (cb : Callback) (addrs : list Z) : Prop :=
  ctx (cb_state cb) = None /\ bytes_fed (cb_state cb) = 0 /\ completed (cb_state cb) = false /\ bd_addrs (cb_state cb) = addrs.

Lemma stream_commits a cb addrs evs m p : is_Some (from_algo a) -> fresh cb addrs -> streamed a addrs [] false evs ->
  offers addrs m (len (message evs)) p -> (pieces evs = [] -> starts m a p) -> final p = true ->
  mapped m (updptr (p_bd p)) 32 ->
  exists cb' ms' m' digest, ticks cb (evs.*1 ++ [m]) = Ret (cb', ms' ++ [m']) /\
    hash a (message evs ++ p_data p) = Some digest /\
    read_phys m' (updptr (p_bd p)) (len digest) = Some (swap_out (s_out_swap (cb_state cb)) digest) /\
    completed (cb_state cb') = true /\ cb_flag cb' = true /\ forall m'', callback cb' m'' = Ret (cb', m'').
Proof.
  intros Ha (Hctx & Hfed & Hcomp & Haddrs) Hs Ho Hst Hf Hmap.
  destruct (stream_absorbs a evs Ha cb [] false addrs) as (cb1 & ms' & E & Had & Hsw & Habs); [|done..|].
  { split; [done|]. split; [done|]. by split. }
  cbn [app] in Habs.
  destruct (callback_piece a cb1 (message evs) (started_by false evs) p m addrs Habs Ha Had Ho) as (cb' & m1 & m2 & E2 & _ & _ & _ & Hp).
  { unfold started_by. cbn [orb]. case_bool_decide as Hn; cbn [negb]; [by apply Hst|done]. }
  { done. }
  rewrite Hf in Hp. destruct Hp as (Hdone & Hflag & c & Hc & Hw).
  exists cb', ms', m2, (finalize (update c (message evs ++ p_data p))).
  rewrite ticks_app, E. cbn [rbind ticks]. rewrite E2. cbn [rbind]. split; [done|].
  split; [by apply hash_from_algo|]. split.
  - rewrite Hsw in Hw. apply read_digest in Hw. by rewrite len_swap_out in Hw.
  - split; [done|]. split; [done|]. intros. by apply callback_done.
Qed.
End polling.

(** ** What a driver gets

    The properties of the Crypto Engine as the wolfSSL driver uses it, through stores to
    its registers: descriptor chains, completion, the streaming hash. *)

Import bd algo polling ce.

Section claims.
Context {A : AesBlocks} {D : DigestCrates} {S : StreamCrates}.
Context {AO : AesBlocksOk A} {DO : DigestCratesOk D} {SO : StreamCratesOk S}.
Context {M : Type} {MB : MemBus M} {MO : MemBusOk M}.

Lemma write_cecon_base (s : CryptoEngine) v (w : World M Callback) : write s CECON_OFF 4 v w = write_cecon s 0 v w.
Proof. reflexivity. Qed.

(** What a driver stores is what the engine fetches: a descriptor and an association
    written to memory are read back, and a key or vector staged right-justified in the
    association is the key or vector of the cipher. *)
Theorem records_roundtrip (m : M) (a a' : Z) (b : BufferDescriptor) (c : SaCtrl) (key iv : bytes)
    (auth authiv0 : list Z) (Hb : bd_ok b) (Hc : ctrl_ok c) (Hauth : words_ok 8 auth /\ words_ok 8 authiv0)
    (Hkey : len key = 8 \/ len key = 16 \/ len key = 24 \/ len key = 32) (Hiv : len iv = 8 \/ len iv = 16)
    (Hwf : wf key /\ wf iv) (Hm : mapped m a BD_SIZE /\ mapped m a' SA_SIZE)
    (Hap : apart (physical a) BD_SIZE (physical a') SA_SIZE) :
  let sa := mkSecurityAssociation c auth (staged 8 key) authiv0 (staged 4 iv) in
  exists m1 m2, bd_write_phys b m a = (true, m1) /\ sa_write_phys sa m1 a' = (true, m2) /\
    bd_read_phys m2 a = Some b /\ sa_read_phys m2 a' = Some sa /\
    cipher_key sa (len key) = key /\ cipher_iv sa (len iv) = iv.
Proof.
  intros sa. destruct Hauth as [Ha1 Ha2], Hwf as [Hw1 Hw2], Hm as [Hm1 Hm2].
  destruct (right_justified_staged 8 key) as [Ek Hk]; [by destruct Hkey as [-> | [-> | [-> | ->]]]|lia|done|].
  destruct (right_justified_staged 4 iv) as [Ei Hi]; [by destruct Hiv as [-> | ->]|lia|done|].
  assert (Hsa : sa_ok sa) by by split_and!.
  destruct (bd_write_read m a b Hb Hm1) as (m1 & E1 & R1 & O1).
  destruct (sa_write_read m1 a' sa Hsa) as (m2 & E2 & R2 & O2); [by eapply mapped_overwritten|].
  exists m1, m2. split_and!; try done.
  eapply bd_read_frame; [exact O2| |exact R1]. rewrite len_sa_bytes by done. unfold apart in *. lia.
Qed.

(** C35: A store to CECON with START runs the chain: the result of every descriptor, laid
    out as the manual says and in the mode, with the key and with the vector its
    association names (a zero vector unless LOADIV is set), is at its destination, the
    bytes of each word reversed unless the chip and the control word swap on output; no other byte of memory changes, START is clear again, the packet
    interrupt is set and no error is reported. *)
Theorem ce_chain_computes (s : CryptoEngine) (w : World M Callback) (v : Z) (j0 : Job) (js : list Job)
    (Hv : Z.testbit v 0 = true /\ Z.testbit v 6 = false /\ Z.testbit v 1 = false)
    (Hstart : cebdpaddr s = j_addr j0) (Hlen : (length (j0 :: js) <= MAX_BD_CHAIN)%nat)
    (Hlinked : linked (j0 :: js)) (Hp : Forall (present (mem w)) (j0 :: js))
    (Hvalid : Forall valid (j0 :: js)) (Hu : undisturbed (j0 :: js)) :
  exists s' w', write s CECON_OFF 4 v w = Ret (s', w') /\
    (forall q, byte_at (mem w') q = final_bytes (negb (no_out_swap s) && Z.testbit v 7) (j0 :: js) (byte_at (mem w)) q) /\
    Z.testbit (cecon s') 0 = false /\ Z.testbit (ceintsrc s') 1 = true /\ cestat s' = cestat s /\
    entries w' = entries w.
Proof.
  assert (Hbits : forall x, has x CECON_START = Z.testbit x 0 /\ has x CECON_SWRST = Z.testbit x 6 /\
    has x CECON_POLLING = Z.testbit x 1 /\ has x CECON_OUT_SWAP = Z.testbit x 7 /\ has x CEINTSRC_PKTIF = Z.testbit x 1).
  { intros x. split_and!; [by apply (has_bit x 0)|by apply (has_bit x 6)|by apply (has_bit x 1)|by apply (has_bit x 7)|by apply (has_bit x 1)]. }
  destruct (Hbits v) as (E0 & E6 & E1 & E7 & _). rewrite <- E0, <- E6, <- E1 in Hv. rewrite <- E7. fold (swaps s v).
  destruct Hv as (Hs & Hr & Hpoll).
  destruct (chain_refines (j0 :: js) MAX_BD_CHAIN (mem w) (swaps s v) j0 Hlinked Hlen eq_refl Hp Hvalid Hu) as (m' & E & Hm').
  rewrite write_cecon_base. unfold write_cecon. cbn [atomic_op]. rewrite Hr, Hpoll, Hs. cbn [andb].
  unfold run_chain. change (cebdpaddr (with_cecon v s)) with (cebdpaddr s).
  change (negb (no_out_swap (with_cecon v s)) && has v CECON_OUT_SWAP) with (swaps s v).
  rewrite Hstart, E. cbn [rbind]. eexists _, _. split; [reflexivity|]. split; [exact Hm'|].
  split; [rewrite <- (proj1 (Hbits _)); apply has_clear; split; by vm_compute|]. split; [|done].
  rewrite <- (proj2 (proj2 (proj2 (proj2 (Hbits _))))).
  apply has_set; [split; by vm_compute|done].
Qed.

(** C37: Whatever memory holds, a store that starts the engine comes back: START is clear and
    a completion is signalled, so the driver's wait ends, unless the walk came to a
    descriptor whose data exceed its buffer. *)
Theorem ce_start_completes (s : CryptoEngine) (w : World M Callback) (v : Z) (Hm : u8_memory (mem w))
    (Hr : has v CECON_SWRST = false) (Hs : has v CECON_START = true) :
  match write s CECON_OFF 4 v w with
  | Ret (s', w') =>
      has (cecon s') CECON_START = false /\ u8_memory (mem w') /\
      (if has v CECON_POLLING then is_Some (ce.polling s') \/ has (ceintsrc s') CEINTSRC_PKTIF = true
       else has (ceintsrc s') CEINTSRC_PKTIF = true)
  | Panic =>
      has v CECON_POLLING = false /\
      exists m' a', reach (swaps s v) (mem w) (cebdpaddr s) m' a' /\ oversized m' a'
  end.
Proof.
  rewrite write_cecon_base. pose proof (start_completes s 0 v w Hm Hr Hs) as H.
  by destruct (write_cecon s 0 v w) as [[s' w']|].
Qed.

(** C38: And such a descriptor does panic: the slice of its buffer is out of range. *)
Theorem ce_oversized_panics (s : CryptoEngine) (w : World M Callback) (v : Z) (Hm : u8_memory (mem w))
    (Hv : has v CECON_START = true /\ has v CECON_SWRST = false /\ has v CECON_POLLING = false)
    (Ho : oversized (mem w) (cebdpaddr s)) :
  write s CECON_OFF 4 v w = Panic.
Proof.
  destruct Hv as (Hs & Hr & Hpoll), Ho as (bd & sa & input & Hb & He & Hf & Hsa & Hi & Hfit).
  rewrite write_cecon_base. unfold write_cecon. cbn [atomic_op]. rewrite Hr, Hpoll, Hs. cbn [andb].
  unfold run_chain. change (cebdpaddr (with_cecon v s)) with (cebdpaddr s). change MAX_BD_CHAIN with (Datatypes.S 63).
  cbn [chain_from]. rewrite Hb, He, Hf. cbn [negb]. rewrite Hsa.
  destruct (bd_read_u32 (mem w) _ bd Hm Hb) as [H0 H1].
  rewrite (execute_read _ _ _ _ _ Hi H1), execute_with_reference by (done || by eapply sa_read_arrays).
  apply read_phys_spec in Hi as [Hlen _]; [|done]. unfold fits in Hfit.
  by rewrite Hlen, (proj2 (Z.leb_gt _ _)) by lia.
Qed.

(** ** The streaming hash *)

(** A slot whose callback does nothing any more. *)
Definition dormant (slot : option Callback) : Prop :=
  match slot with Some cb => completed (cb_state cb) = true | None => True end.

(** Ticks of the whole registry on the memories that each finds. *)
Fixpoint dispatches (w : World M Callback) (ms : list M) : res (World M Callback * list M) :=
  match ms with
  | [] => Ret (w, [])
  | m :: ms =>
      let! w := dispatch_polling_tick callback (with_mem m w) in
      let! '(w', l) := dispatches w ms in
      Ret (w', mem w :: l)
  end.

Lemma tick_slots_dormant l cb m : Forall dormant l ->
  tick_slots callback (l ++ [Some cb]) m = let! '(cb, m) := callback cb m in Ret (l ++ [Some cb], m).
Proof.
  induction 1 as [|slot l Hs _ IH]; cbn [app tick_slots]; [by destruct (callback cb m) as [[]|]|].
  destruct slot as [cb0|]; [rewrite (callback_done cb0 m) by done; cbn [rbind]|];
    rewrite IH; by destruct (callback cb m) as [[]|].
Qed.

Lemma dispatches_ticks l cb ms w : Forall dormant l -> entries w = l ++ [Some cb] ->
  forall cb' ms', ticks cb ms = Ret (cb', ms') ->
  exists w', dispatches w ms = Ret (w', ms') /\ entries w' = l ++ [Some cb'].
Proof.
  intros Hl. revert cb w. induction ms as [|m ms IH]; intros cb w Hw cb' ms' E.
  - injection E as <- <-. by exists w.
  - cbn [ticks] in E. destruct (callback cb m) as [[cb1 m1]|] eqn:E1; [|done]. cbn [rbind] in E.
    destruct (ticks cb1 ms) as [[cb2 ms2]|] eqn:E2; [|done]. injection E as <- <-.
    cbn [dispatches]. unfold dispatch_polling_tick. change (entries (with_mem m w)) with (entries w).
    change (mem (with_mem m w)) with m. rewrite Hw, tick_slots_dormant, E1 by done. cbn [rbind].
    destruct (IH cb1 (mkWorld m1 (l ++ [Some cb1])) eq_refl _ _ E2) as (w' & E' & Hw').
    exists w'. rewrite E'. by split.
Qed.

(** The slots that remain when this engine disarms its own. *)
Definition others (s : CryptoEngine) (w : World M Callback) : list (option Callback) :=
  entries (disarm_polling s w).2.

(** C36: A polling-mode start arms a tick on the ring of descriptors; however the message is
    cut into pieces, whichever descriptors they use and however many idle ticks come
    between, the tick that finds the last piece commits the digest that the one-shot mode
    computes of the whole message, and later ticks do nothing. *)
Theorem polling_hash_is_oneshot (s : CryptoEngine) (w : World M Callback) (v a : Z) (addrs : list Z)
    (evs : list (M * option Piece)) (m : M) (p : Piece)
    (Hv : has v CECON_START = true /\ has v CECON_SWRST = false /\ has v CECON_POLLING = true)
    (Hring : cebdpaddr s <> 0 /\ collect_chain (cebdpaddr s) (mem w) = Some addrs)
    (Hothers : Forall dormant (others s w)) (Halgo : is_Some (from_algo a))
    (Hevs : streamed a addrs [] false evs) (Hp : offers addrs m (len (message evs)) p)
    (Hfirst : pieces evs = [] -> starts m a p) (Hfinal : final p = true)
    (Hmap : mapped m (updptr (p_bd p)) 32) :
  exists s' w' w'' ms' m' digest, write s CECON_OFF 4 v w = Ret (s', w') /\ mem w' = mem w /\
    dispatches w' (evs.*1 ++ [m]) = Ret (w'', ms' ++ [m']) /\
    hash a (message evs ++ p_data p) = Some digest /\
    read_phys m' (updptr (p_bd p)) (len digest) = Some (swap_out (swaps s v) digest) /\
    Forall dormant (entries w'').
Proof.
  destruct Hv as (Hs & Hr & Hpoll), Hring as [H0 Hc].
  rewrite write_cecon_base. unfold write_cecon. cbn [atomic_op]. rewrite Hr, Hpoll, Hs. cbn [andb].
  change (negb (no_out_swap (with_cecon v s)) && has v CECON_OUT_SWAP) with (swaps s v).
  assert (Hd : mem (disarm_polling (with_cecon v s) w).2 = mem w /\ entries (disarm_polling (with_cecon v s) w).2 = others s w /\
    cebdpaddr (disarm_polling (with_cecon v s) w).1 = cebdpaddr s).
  { unfold others, disarm_polling. cbn [with_cecon ce.polling]. by destruct (ce.polling s). }
  destruct (disarm_polling (with_cecon v s) w) as [s1 w1]. cbn [fst snd] in Hd. destruct Hd as (Hm1 & He1 & Hb1).
  unfold arm. rewrite Hb1, (proj2 (Z.eqb_neq _ _) H0), Hm1, Hc. unfold register_polling_tick.
  set (cb := mkCallback _ false).
  destruct (stream_commits a cb addrs evs m p Halgo) as (cb' & ms' & m' & digest & E & Hh & Hread & Hdone & _); try done.
  destruct (dispatches_ticks (others s w) cb (evs.*1 ++ [m])
    (with_entries (entries w1 ++ [Some cb]) w1) Hothers) with (cb' := cb') (ms' := ms' ++ [m'])
    as (w'' & Ew & Hw''); [by rewrite He1|done|].
  eexists _, _, w'', ms', m', digest. split; [reflexivity|]. split; [done|]. split; [exact Ew|].
  split; [done|]. split; [exact Hread|]. rewrite Hw''. apply Forall_app. split; [done|]. by constructor.
Qed.
End claims.

(** ** The entropy counter *)

Section trng.
Context {C : ChaCha}.

Fixpoint poll_count (s : rng.Rng) (n : nat) : list Z * rng.Rng :=
  match n with
  | O => ([], s)
  | Datatypes.S n => let '(v, s) := rng.read s rng.RNGCNT_OFF 4 in let '(vs, s) := poll_count s n in (v :: vs, s)
  end.

Definition collecting (s : rng.Rng) : Prop :=
  Z.land (rng.rngcon s) (Z.lor rng.TRNGMODE rng.TRNGEN) = Z.lor rng.TRNGMODE rng.TRNGEN.

Lemma poll_count_values n s : collecting s -> 0 <= rng.rngcnt s <= 64 ->
  (poll_count s n).1 = (fun i => Z.min 64 (rng.rngcnt s + 4 * (i + 1))) <$> seqZ 0 (Z.of_nat n).
Proof.
  revert s. induction n as [|n IH]; intros s Hc Hr; [done|]. cbn [poll_count].
  change (rng.read s rng.RNGCNT_OFF 4) with (rng.read_cnt s). unfold rng.read_cnt. unfold collecting in Hc.
  rewrite Hc, Z.eqb_refl. cbn [andb].
  rewrite (seqZ_cons 0 (Z.of_nat (Datatypes.S n))) by lia.
  replace (Z.pred (Z.of_nat (Datatypes.S n))) with (Z.of_nat n) by lia. cbn [fmap list_fmap].
  set (s' := if rng.rngcnt s <? 64 then _ else s).
  assert (Hs' : rng.rngcnt s' = Z.min 64 (rng.rngcnt s + 4) /\ collecting s').
  { subst s'. destruct (Z.ltb_spec (rng.rngcnt s) 64); cbn [rng.with_rngcnt rng.rngcnt]; split; try lia; done. }
  destruct Hs' as [Hs' Hc']. specialize (IH s' Hc' ltac:(lia)). destruct (poll_count s' n) as [vs s2]. cbn [fst] in IH |- *.
  rewrite IH, Hs'. f_equal. change (Z.succ 0) with (1 + 0). rewrite <- (fmap_add_seqZ 1 0), <- list_fmap_compose.
  apply list_fmap_ext. intros i x Hx. cbn. apply lookup_seqZ in Hx. lia.
Qed.

(** The loop [while (RNGCNT < 64)] of the driver ends: once collection is enabled the
    sixteenth read at the latest is 64, and no read exceeds it. *)
Theorem trng_becomes_ready (s : rng.Rng) (n : nat) (Hn : (16 <= n)%nat) (Hr : 0 <= rng.rngcnt s <= 64) :
  let s' := rng.write s rng.RNGCON_OFF 4 (Z.lor rng.TRNGMODE rng.TRNGEN) in
  last (poll_count s' n).1 = Some 64 /\ Forall (fun v => v <= 64) (poll_count s' n).1.
Proof.
  intros s'. assert (Hs' : collecting s' /\ rng.rngcnt s' = rng.rngcnt s) by by split.
  destruct Hs' as [Hc Hcnt]. rewrite poll_count_values by (done || lia). rewrite Hcnt. split.
  - destruct n as [|n]; [lia|]. rewrite seqZ_S, fmap_app. cbn [fmap list_fmap]. rewrite last_snoc. f_equal. lia.
  - apply Forall_fmap, Forall_true. intros. cbn. lia.
Qed.
End trng.
