(* ===== verification/Pic32Safety.v ===== *)
(** * PIC32MZSim: what any firmware can do

    Loads and stores of any addresses and values, stores of the firmware to memory, and
    ticks, in any order: the registers stay 32-bit words and memory bytes, and only a
    one-shot start on a chain with an oversized descriptor panics. *)

From stdpp Require Import strings.
From S2P Require Import Prelude.
From S2P Require Import Crc.
From S2P Require Import Crates.
From S2P Require Import McuCrates.
From S2P Require Import Stm32Core.
From S2P Require Import Stm32Cryp.
From S2P Require Import Stm32Chips.
From S2P Require Import Stm32PkaFacts.
From S2P Require Import Pic32Core.
From S2P Require Import Pic32Ce.
From S2P Require Import Pic32Chips.
From S2P Require Import Pic32Layout.
From S2P Require Import Pic32Modes.
From S2P Require Import Pic32Chain.

Import bd algo polling ce.

(** ** Registers stay [u32] *)

Lemma u32_mask v : (0 <=? v) && (v <? 4294967296) = true -> u32 v.
Proof. u_solve. Qed.

Lemma u32_lxor x y : u32 x -> u32 y -> u32 (Z.lxor x y).
Proof.
  unfold u32. intros Hx Hy. assert (H0 : 0 <= Z.lxor x y) by (apply Z.lxor_nonneg; lia).
  split; [done|]. destruct (Z.eq_dec (Z.lxor x y) 0) as [->|Hn]; [lia|].
  change 4294967296 with (2 ^ 32). apply Z.log2_lt_pow2; [lia|].
  pose proof (Z.log2_lxor x y ltac:(lia) ltac:(lia)) as Hl.
  assert (Hb : forall z, 0 <= z < 4294967296 -> Z.log2 z < 32).
  { intros z Hz. destruct (Z.eq_dec z 0) as [->|]; [done|]. apply Z.log2_lt_pow2; [lia|]. change (2 ^ 32) with 4294967296. lia. }
  pose proof (Hb x Hx). pose proof (Hb y Hy). lia.
Qed.

Lemma u32_land_not x m : u32 x -> 0 <= m -> u32 (Z.land x (not32 m)).
Proof. intros Hx Hm. apply u32_land; [done|]. by apply not32_nonneg. Qed.

Lemma u32_atomic x lane v : u32 x -> u32 v -> u32 (atomic_op x lane v).
Proof.
  intros Hx Hv. unfold atomic_op. destruct lane as [|[[]|[]|]|]; try done;
    [by apply u32_lxor|apply u32_land_not; [done|apply Hv]|by apply u32_lor].
Qed.

Lemma u32_base_lane lane x : u32 x -> u32 (base_lane lane x).
Proof. intros Hx. unfold base_lane. destruct (lane =? 0); [done|by apply u32_mask]. Qed.

Create HintDb pic32.
#[export] Hint Resolve u32_atomic u32_base_lane u32_land_not u32_lor : pic32.
#[export] Hint Extern 1 (u32 _) => (apply u32_mask; reflexivity) : pic32.

(** ** A tick *)

Section ticks.
Context {D : DigestCrates} {DO : DigestCratesOk D}.
Context {M : Type} {MB : MemBus M} {MO : MemBusOk M}.

Lemma wf_bd_bytes b : wf (bd_bytes b).
Proof. unfold bd_bytes. auto 10 with wfdb. Qed.

Lemma wf_finalize c : wf (finalize c).
Proof. destruct c; apply digest_finalize_wf. Qed.

Lemma ensure_ctx_some st bd (m : M) st' : ensure_ctx st bd m = (true, st') -> is_Some (ctx st').
Proof.
  unfold ensure_ctx. destruct (ctx st) as [c|] eqn:E; [intros [= <-]; rewrite E; by eexists|].
  repeat case_match; intros [= <-]. by eexists.
Qed.

Lemma feed_some st bd (m : M) st' : is_Some (ctx st) -> feed st bd m = (true, st') -> is_Some (ctx st').
Proof.
  intros [c Hc]. unfold feed. rewrite Hc. repeat case_match; intros [= <-]; cbn; rewrite ?Hc; by eexists.
Qed.

(** No descriptor makes a tick panic: the hasher is there when a digest is due. *)
Lemma process_total st a (m : M) : u8_memory m -> wp (process_bd st a m) (fun r => u8_memory r.2).
Proof.
  intros Hm. unfold process_bd. destruct (bd_read_phys m a) as [bd|]; [|done].
  destruct (negb (desc_enabled bd)); [done|].
  destruct (ensure_ctx st bd m) as [[] st1] eqn:E1; cbn [negb]; [|done].
  destruct (feed st1 bd m) as [[] st2] eqn:E2; cbn [negb]; [|done].
  destruct (feed_some _ _ _ _ (ensure_ctx_some _ _ _ _ E1) E2) as [c ->].
  pose proof (u8_memory_write_phys m a (bd_bytes (with_bd_ctrl (Z.land (bd_ctrl bd) (not32 DESC_EN_BIT)) bd)) Hm (wf_bd_bytes _)) as H1.
  unfold bd_write_phys. destruct (write_phys m a _) as [[] m1]; cbn [negb snd] in *; [|done].
  destruct (last_bd bd && lifm bd); [|done].
  pose proof (u8_memory_write_phys m1 (updptr bd) (swap_out (s_out_swap (with_ctx None st2)) (finalize c)) H1
    (wf_swap_out _ _ (wf_finalize c))) as H2.
  destruct (write_phys m1 _ _) as [[] m2]; exact H2.
Qed.

Lemma tick_bds_total st addrs prog (m : M) : u8_memory m -> wp (tick_bds st addrs prog m) (fun r => u8_memory r.2).
Proof.
  revert st prog m. induction addrs as [|a addrs IH]; intros st prog m Hm; cbn [tick_bds]; [done|].
  destruct (read_phys m a 4) as [l|]; [|by apply IH]. destruct (_ =? 0); [by apply IH|].
  apply wp_bind. eapply wp_mono; [by apply process_total|]. intros [[ok st1] m1] H1. cbn [snd] in H1.
  destruct ok; cbn [negb]; [|done]. destruct (completed st1); [done|by apply IH].
Qed.

Lemma callback_total cb (m : M) : u8_memory m -> wp (callback cb m) (fun r => u8_memory r.2).
Proof.
  intros Hm. unfold callback. destruct (completed _); [done|]. apply wp_bind. eapply wp_mono; [by apply tick_bds_total|].
  by intros [[prog st] m1] H1.
Qed.

Lemma tick_total (w : World M Callback) : u8_memory (mem w) ->
  wp (dispatch_polling_tick callback w) (fun w => u8_memory (mem w)).
Proof.
  intros Hm. unfold dispatch_polling_tick. apply wp_bind.
  enough (H : forall l m, u8_memory m -> wp (tick_slots callback l m) (fun r => u8_memory r.2)).
  { eapply wp_mono; [by apply H|]. by intros [l m]. }
  clear w Hm. intros l. induction l as [|slot l IH]; intros m Hm; cbn [tick_slots]; [done|].
  destruct slot as [cb|].
  - apply wp_bind. eapply wp_mono; [by apply callback_total|]. intros [cb' m1] H1. apply wp_bind.
    eapply wp_mono; [by apply IH|]. by intros [].
  - apply wp_bind. eapply wp_mono; [by apply IH|]. by intros [].
Qed.
End ticks.

(** ** Devices *)

Section devices.
Context {A : AesBlocks} {D : DigestCrates} {S : StreamCrates} {C : ChaCha}.
Context {AO : AesBlocksOk A} {DO : DigestCratesOk D} {SO : StreamCratesOk S} {CO : ChaChaOk C}.
Context {M : Type} {MB : MemBus M} {MO : MemBusOk M}.

Definition ce_ok (s : CryptoEngine) : Prop :=
  u32 (cecon s) /\ u32 (cestat s) /\ u32 (ceintsrc s) /\ u32 (ceinten s) /\ u32 (cebdpaddr s) /\ u32 (cepollcon s).

Definition rng_ok (s : rng.Rng) : Prop :=
  u32 (rng.rngcon s) /\ u32 (rng.rngseed1 s) /\ u32 (rng.rngseed2 s) /\ u32 (rng.rngpoly1 s) /\ u32 (rng.rngpoly2 s) /\
  0 <= rng.rngcnt s <= 64.

Definition uart_ok (s : uart.Uart) : Prop := wf (uart.sink s) /\ u32 (uart.umode s) /\ u32 (uart.usta s) /\ u32 (uart.ubrg s).

Definition device_ok (d : Device) : Prop :=
  match d with DCe s => ce_ok s | DRng s => rng_ok s | DUart s => uart_ok s end.

(** A store of [v] to the control register starts the chain at an oversized descriptor,
    or at one that leads to it. *)
Definition starts_oversized (s : CryptoEngine) (lane v : Z) (m : M) : Prop :=
  let new := atomic_op (cecon s) lane v in
  has new CECON_START = true /\ has new CECON_SWRST = false /\ has new CECON_POLLING = false /\
  exists m' a', reach (swaps s new) m (cebdpaddr s) m' a' /\ oversized m' a'.

Lemma ce_read_ok s off sz : ce_ok s -> u32 (read s off sz).1 /\ ce_ok (read s off sz).2.
Proof.
  intros Hs. pose proof Hs as (?&?&?&?&?&?). unfold read. split; [|exact Hs].
  repeat case_match; cbn [fst]; auto with pic32.
Qed.

Lemma disarm_ok s (w : World M Callback) : ce_ok s -> u8_memory (mem w) ->
  ce_ok (disarm_polling s w).1 /\ u8_memory (mem (disarm_polling s w).2).
Proof. intros Hs Hm. unfold disarm_polling. destruct (ce.polling s); [|done]. by split. Qed.

Lemma write_cecon_ok s lane v (w : World M Callback) : ce_ok s -> u32 v -> u8_memory (mem w) ->
  wpp (write_cecon s lane v w) (starts_oversized s lane v (mem w)) (fun '(s', w') => ce_ok s' /\ u8_memory (mem w')).
Proof.
  intros Hs Hv Hm. pose proof Hs as (H1&H2&H3&H4&H5&H6). unfold write_cecon. set (new := atomic_op (cecon s) lane v).
  assert (Hn : u32 new) by (apply u32_atomic; done).
  assert (Hs1 : ce_ok (with_cecon new s)) by by split_and!.
  destruct (has new CECON_SWRST) eqn:R.
  { apply wpp_ret. unfold reset. set (s0 := with_cebdpaddr 0 _).
    assert (Hs0 : ce_ok s0) by (subst s0; unfold ce_ok; cbn; split_and!; auto with pic32).
    pose proof (disarm_ok s0 w Hs0 Hm) as [? ?]. by destruct (disarm_polling s0 w). }
  destruct (has new CECON_START) eqn:St; [|rewrite andb_false_r; by apply wpp_ret].
  assert (Hc : forall t, ce_ok t -> ce_ok (clear_start t)).
  { intros t (?&?&?&?&?&?). unfold clear_start, ce_ok. cbn. split_and!; try done. by apply u32_land_not. }
  assert (He : forall t, ce_ok t -> ce_ok (signal_error t)).
  { intros t (?&?&?&?&?&?). unfold signal_error, ce_ok. cbn. split_and!; try done; apply u32_lor; auto with pic32.
    by apply u32_land_not. }
  destruct (has new CECON_POLLING) eqn:P; cbn [andb].
  - pose proof (disarm_ok _ w Hs1 Hm) as [Hd Hdm]. destruct (disarm_polling (with_cecon new s) w) as [s1 w1].
    cbn [fst snd] in *. unfold arm. destruct (cebdpaddr s1 =? 0); [by apply wpp_ret; auto|].
    destruct (collect_chain _ _); apply wpp_ret; auto.
  - apply wpp_bind. unfold run_chain. change (cebdpaddr (with_cecon new s)) with (cebdpaddr s).
    change (negb (no_out_swap (with_cecon new s)) && has new CECON_OUT_SWAP) with (swaps s new).
    eapply wpp_mono; [exact (chain_total MAX_BD_CHAIN (cebdpaddr s) (swaps s new) (mem w) Hm)| |].
    + intros Ho. unfold starts_oversized. fold new. by split_and!.
    + intros [ok m'] Hm'. cbn [snd] in Hm'. apply wpp_ret. split; [|done]. apply Hc. destruct ok; [|by apply He].
      destruct Hs1 as (?&?&?&?&?&?). unfold ce_ok. cbn. split_and!; try done. apply u32_lor; auto with pic32.
Qed.

Lemma ce_write_ok s off sz v (w : World M Callback) : ce_ok s -> u32 v -> u8_memory (mem w) ->
  wpp (write s off sz v w) (exists lane, split_atomic off CECON_OFF = Some lane /\ starts_oversized s lane v (mem w))
    (fun '(s', w') => ce_ok s' /\ u8_memory (mem w')).
Proof.
  intros Hs Hv Hm. pose proof Hs as (?&?&?&?&?&?). unfold write.
  destruct (split_atomic off CECON_OFF) as [lane|].
  { eapply wpp_mono; [by apply write_cecon_ok| |done]. intros Ho. by exists lane. }
  repeat case_match; apply wpp_ret; (split; [|exact Hm]); try exact Hs; unfold ce_ok; cbn; split_and!; auto with pic32.
  apply u32_land_not; [done|]. apply Z.land_nonneg. left. apply Hv.
Qed.

Lemma rng_dev_read_ok s off sz : rng_ok s -> u32 (rng.read s off sz).1 /\ rng_ok (rng.read s off sz).2.
Proof.
  intros Hs. pose proof Hs as (H1&H2&H3&H4&H5&H6).
  assert (Hz : u32 0) by auto with pic32.
  assert (Hat : forall lane k, u32 k.1 /\ rng_ok k.2 -> u32 (rng.at_base lane s k).1 /\ rng_ok (rng.at_base lane s k).2).
  { intros lane k Hk. unfold rng.at_base. by destruct (lane =? 0). }
  assert (Hw : u32 (rng.next_word s).1 /\ rng_ok (rng.next_word s).2).
  { unfold rng.next_word. pose proof (next_u32_range (rng.generator s)). by destruct (next_u32 _). }
  assert (Hc : u32 (rng.read_cnt s).1 /\ rng_ok (rng.read_cnt s).2).
  { unfold rng.read_cnt. destruct (_ && _); unfold rng_ok; cbn; (split; [u_solve|]); split_and!; try done; lia. }
  unfold rng.read. repeat case_match; try (apply Hat); try done; try (split; [done|exact Hs]).
  split; [done|]. unfold rng_ok. cbn. split_and!; try done; try lia. by apply u32_land_not.
Qed.

Lemma rng_dev_write_ok s off sz v : rng_ok s -> u32 v -> rng_ok (rng.write s off sz v).
Proof.
  intros Hs Hv. pose proof Hs as (?&?&?&?&?&?). unfold rng.write.
  repeat case_match; try exact Hs; unfold rng_ok; cbn; split_and!; auto with pic32; lia.
Qed.

Lemma uart_read_ok s off sz : uart_ok s -> u32 (uart.read s off sz).1 /\ uart_ok (uart.read s off sz).2.
Proof.
  intros Hs. pose proof Hs as (?&?&?&?). unfold uart.read. split; [|exact Hs].
  repeat case_match; cbn [fst]; auto with pic32.
  apply u32_base_lane, u32_lor; [by apply u32_land_not|auto with pic32].
Qed.

Lemma uart_write_ok s off sz v : uart_ok s -> u32 v -> uart_ok (uart.write s off sz v).
Proof.
  intros Hs Hv. pose proof Hs as (?&?&?&?). unfold uart.write.
  repeat case_match; try exact Hs; unfold uart_ok; cbn; split_and!; auto with pic32.
  apply wf_app; [done|]. apply wf_cons; [apply u8_as_u8|apply wf_nil].
Qed.

(** The store that an oversized descriptor turns into a panic. *)
Definition blamed (d : Device) (off v : Z) (m : M) : Prop :=
  exists s lane, d = DCe s /\ split_atomic off CECON_OFF = Some lane /\ starts_oversized s lane v m.

Lemma device_read_ok d off sz : device_ok d -> u32 (device_read d off sz).1 /\ device_ok (device_read d off sz).2.
Proof.
  intros Hd. destruct d as [s|s|s]; cbn [device_read device_ok] in *.
  - pose proof (ce_read_ok s off sz Hd). by destruct (read s off sz).
  - pose proof (rng_dev_read_ok s off sz Hd). by destruct (rng.read s off sz).
  - pose proof (uart_read_ok s off sz Hd). by destruct (uart.read s off sz).
Qed.

Lemma device_write_ok d off sz v (w : World M Callback) : device_ok d -> u32 v -> u8_memory (mem w) ->
  wpp (device_write d off sz v w) (blamed d off v (mem w)) (fun '(d', w') => device_ok d' /\ u8_memory (mem w')).
Proof.
  intros Hd Hv Hm. destruct d as [s|s|s]; cbn [device_write device_ok] in *.
  - apply wpp_bind. eapply wpp_mono; [by apply ce_write_ok| |].
    + intros (lane & Hl & Ho). by exists s, lane.
    + intros [s' w'] []. by apply wpp_ret.
  - apply wpp_ret. split; [by apply rng_dev_write_ok|done].
  - apply wpp_ret. split; [by apply uart_write_ok|done].
Qed.
End devices.

(** ** Schedules *)

Section schedules.
Context {A : AesBlocks} {D : DigestCrates} {S : StreamCrates} {C : ChaCha}.
Context {AO : AesBlocksOk A} {DO : DigestCratesOk D} {SO : StreamCratesOk S} {CO : ChaChaOk C}.
Context {M : Type} {MB : MemBus M} {MO : MemBusOk M}.

(** What happens to a chip: a load or store of a device register, a translation block,
    and a change of memory by the firmware. *)
Inductive Event :=
  | DeviceLoad (addr sz : Z)
  | DeviceStore (addr sz value : Z)
  | Block
  | Firmware (m : M).

Definition System : Type := Bus Device * World M Callback.

Definition event_ok (e : Event) : Prop :=
  match e with DeviceStore _ _ v => u32 v | Firmware m => u8_memory m | _ => True end.

Definition system_ok (sys : System) : Prop := Forall (fun r => device_ok (peripheral r)) sys.1 /\ u8_memory (mem sys.2).

Definition step (sys : System) (e : Event) : res (list Z * System) :=
  let '(b, w) := sys in
  match e with
  | DeviceLoad addr sz => let '(v, b) := dispatch_read b addr sz in Ret ([v], (b, w))
  | DeviceStore addr sz v => let! '(b, w) := dispatch_write b addr sz v w in Ret ([], (b, w))
  | Block => let! w := dispatch_polling_tick callback w in Ret ([], (b, w))
  | Firmware m => Ret ([], (b, with_mem m w))
  end.

Fixpoint steps (sys : System) (es : list Event) : res (list Z * System) :=
  match es with
  | [] => Ret ([], sys)
  | e :: es =>
      let! '(vs, sys) := step sys e in
      let! '(ws, sys) := steps sys es in
      Ret (vs ++ ws, sys)
  end.

(** The event is the start of the Crypto Engine that an oversized descriptor stops. *)
Definition fatal (sys : System) (e : Event) : Prop :=
  exists addr sz v r, e = DeviceStore addr sz v /\ r ∈ sys.1 /\ hit r addr = true /\
    blamed (peripheral r) (as_u32 (addr - base r)) v (mem sys.2).

Lemma dispatch_read_keeps b addr sz : Forall (fun r => device_ok (peripheral r)) b ->
  u32 (dispatch_read b addr sz).1 /\ Forall (fun r => device_ok (peripheral r)) (dispatch_read b addr sz).2.
Proof.
  induction 1 as [|r b Hr Hb IH]; cbn [dispatch_read]; [split; [by apply u32_mask|constructor]|].
  destruct (hit r addr).
  - change (p_read (peripheral r)) with (device_read (peripheral r)).
    pose proof (device_read_ok _ (as_u32 (addr - base r)) sz Hr) as [Hv Hd]. destruct (device_read _ _ _) as [v d].
    split; [done|]. by constructor.
  - destruct (dispatch_read b addr sz) as [v b']. destruct IH as [Hv Hb']. split; [done|]. by constructor.
Qed.

Lemma dispatch_write_keeps b addr sz v (w : World M Callback) : Forall (fun r => device_ok (peripheral r)) b -> u32 v ->
  u8_memory (mem w) ->
  wpp (dispatch_write b addr sz v w)
    (exists r, r ∈ b /\ hit r addr = true /\ blamed (peripheral r) (as_u32 (addr - base r)) v (mem w)) system_ok.
Proof.
  intros Hb Hv Hm. induction Hb as [|r b Hr Hb IH]; cbn [dispatch_write]; [by apply wpp_ret; split|].
  destruct (hit r addr) eqn:Hh; apply wpp_bind.
  - change (p_write (peripheral r)) with (device_write (peripheral r)).
    eapply wpp_mono; [by apply device_write_ok| |].
    + intros Hbl. exists r. split; [by left|done].
    + intros [d w'] [Hd Hw]. apply wpp_ret. split; [|done]. by constructor.
  - eapply wpp_mono; [exact IH| |].
    + intros (r' & Hr' & H). exists r'. split; [by right|done].
    + intros [b' w'] [Hb' Hw]. apply wpp_ret. split; [|done]. by constructor.
Qed.

Lemma step_ok sys e : system_ok sys -> event_ok e ->
  wpp (step sys e) (fatal sys e) (fun '(vs, sys') => Forall u32 vs /\ system_ok sys').
Proof.
  destruct sys as [b w]. intros [Hb Hm] He. cbn [fst snd] in *. destruct e as [addr sz|addr sz v| |m]; cbn [step event_ok] in *.
  - pose proof (dispatch_read_keeps b addr sz Hb) as [Hv Hb']. destruct (dispatch_read b addr sz) as [v b'].
    apply wpp_ret. split; [by constructor|by split].
  - apply wpp_bind. eapply wpp_mono; [by apply dispatch_write_keeps| |].
    + intros (r & Hr & Hh & Hbl). by exists addr, sz, v, r.
    + intros [b' w'] H. apply wpp_ret. by split.
  - apply wpp_bind. apply wp_wpp. eapply wp_mono; [by apply tick_total|]. intros w' Hw. by split.
  - apply wpp_ret. by split.
Qed.

Lemma chip_starts_ok name chip (m : M) : Pic32Chips.build name = Some chip -> u8_memory m ->
  system_ok (Pic32Chips.chip_bus chip, mkWorld m []).
Proof.
  intros H Hm. split; [|done]. cbn [fst].
  assert (Hall : forall nm e, ce_ok e -> Forall (fun r => device_ok (peripheral r)) (chip_bus (build_with nm e))).
  { intros nm e He. repeat constructor; cbn; auto with pic32 wfdb; try apply He; try lia. }
  unfold Pic32Chips.build in H. repeat case_match; simplify_eq; apply Hall; repeat split; cbn; lia.
Qed.

(** C34: Whatever a firmware does on either chip: every load answers a [u32], the registers of
    every device stay 32-bit words and memory bytes, and no event panics, neither a tick
    nor a load or a store, but for the one-shot start of the Crypto Engine on a chain
    that comes to a descriptor whose data exceed its buffer. *)
Theorem pic32_schedule_safe (name : string) (chip : Pic32Chips.Chip) (m : M) (es : list Event)
    (Hchip : Pic32Chips.build name = Some chip) (Hm : u8_memory m) (Hes : Forall event_ok es) :
  let sys0 := (Pic32Chips.chip_bus chip, mkWorld m []) in
  match steps sys0 es with
  | Ret (vs, sys) => Forall u32 vs /\ system_ok sys
  | Panic => exists before e after vs sys, es = before ++ e :: after /\ steps sys0 before = Ret (vs, sys) /\ fatal sys e
  end.
Proof.
  intros sys0. assert (H0 : system_ok sys0) by (by eapply chip_starts_ok). clearbody sys0. clear Hchip Hm m.
  revert sys0 H0. induction Hes as [|e es He Hes IH]; intros sys H0; cbn [steps]; [by split|].
  pose proof (step_ok sys e H0 He) as Hstep. destruct (step sys e) as [[vs sys1]|] eqn:E; cbn [rbind wpp] in *.
  - destruct Hstep as [Hvs H1]. specialize (IH sys1 H1). destruct (steps sys1 es) as [[ws sys2]|] eqn:E2; cbn [rbind].
    + destruct IH as [Hws H2]. split; [by apply Forall_app|done].
    + destruct IH as (before & e' & after & us & sys3 & -> & Hb & Hf).
      exists (e :: before), e', after, (vs ++ us), sys3. split; [done|]. split; [|done]. cbn [steps]. rewrite E. cbn [rbind]. by rewrite Hb.
  - exists [], e, es, [], sys. by split_and!.
Qed.
End schedules.
