(* ===== verification/McuRun.v ===== *)
(** * STM32Sim and PIC32MZSim: ELF images, the CPU and the runner

    [core/src/elf.rs], [core/src/cpu.rs], [core/src/runner.rs] and
    [runner-bin/src/main.rs] of both simulators, with the [goblin] parser, the Unicorn
    engine, the file system and the clock as parameters.  What the two share is defined
    once; [Module stm32] and [Module pic32] hold what differs.  The theorems: an accepted
    image is in memory after loading and no device address is touched; the runner ends. *)

From stdpp Require Import gmap strings.
From S2P Require Import Prelude.
From S2P Require Import Crc.
From S2P Require Import Crates.
From S2P Require Import Se050Crates.
From S2P Require Import McuCrates.
From S2P Require Import Stm32Core.
From S2P Require Import Stm32Chips.
From S2P Require Import Stm32Claims.
From S2P Require Import Pic32Core.
From S2P Require Import Pic32Ce.
From S2P Require Import Pic32Chips.
From S2P Require Import Pic32Layout.
From S2P Require Import Pic32Chain.

(** ** Parameters *)

(** [goblin]: what the loader reads of a parsed ELF file. *)
Record ProgramHeader := mkProgramHeader {
  p_type : Z;
  p_offset : Z;
  p_filesz : Z;
  p_memsz : Z;
  p_vaddr : Z;
  p_paddr : Z;
}.

Class Goblin := {
  elf_t : Type;
  elf_parse : bytes -> option elf_t;
  elf_entry : elf_t -> Z;
  program_headers : elf_t -> list ProgramHeader;
  syms : elf_t -> list (Z * Z);
  strtab_get_at : elf_t -> Z -> option string;
  PT_LOAD : Z;
}.

(** The Unicorn engine beyond its memory.  [H] is the state that the callbacks share with
    the host, the bus; the engine runs them inside [emu_start], so it may panic; its
    first result says whether it stopped without an error.  A store callback also gets
    the engine. *)
Inductive UcMode := ThumbMclass | Arm | Mips32Le.
Inductive Register := SP | PC | CPSR.

Class Unicorn (H U : Type) := {
  uc_new : UcMode -> option U;
  ctl_set_cpu_model_cortex_a7 : U -> option U;
  mem_map : U -> Z -> Z -> option U;
  mmio_map : U -> Z -> Z -> (H -> Z -> Z -> res (Z * H)) -> (H -> U -> Z -> Z -> Z -> res (H * U)) -> option U;
  add_block_hook : U -> (H -> U -> Z -> res (H * U)) -> option U;
  add_mem_invalid_hook : U -> option U;
  add_code_hook : U -> option U;
  reg_read : U -> Register -> option Z;
  reg_write : U -> Register -> Z -> option U;
  emu_start : H -> U -> Z -> Z -> res (bool * (H * U));
}.

(** ** ELF images *)

Record LoadSegment := mkLoadSegment {
  load_address : Z;
  runtime_address : Z;
  data : bytes;
  mem_size : Z;
}.

Record ElfImage := mkElfImage {
  entry_point : Z;
  initial_sp : Z;
  segments : list LoadSegment;
  symbols : gmap string Z;
}.

(** The [?] operator: [None] is an error. *)
Notation "'try!' x := m 'in' k" := (rbind m (fun r => match r with Some x => k | None => Ret None end))
  (at level 10, x name, m at level 100, k at level 200) : rust_scope.

Section elf.
Context {G : Goblin}.

Definition skipped (ph : ProgramHeader) : bool := negb (p_type ph =? PT_LOAD) || (p_filesz ph =? 0).

(** The loop over the program headers; the addition overflows into a panic. *)
Fixpoint read_segments (file : bytes) (phs : list ProgramHeader) : res (option (list LoadSegment)) :=
  match phs with
  | [] => Ret (Some [])
  | ph :: phs =>
      if skipped ph then read_segments file phs
      else if 2 ^ 64 <=? p_offset ph + p_filesz ph then Panic
      else if len file <? p_offset ph + p_filesz ph then Ret None
      else
        let! bs := slice file (p_offset ph) (p_offset ph + p_filesz ph) in
        try! rest := read_segments file phs in
        Ret (Some (mkLoadSegment (p_paddr ph) (p_vaddr ph) bs (p_memsz ph) :: rest))
  end.

Definition add_symbol (elf : elf_t) (m : gmap string Z) (sym : Z * Z) : gmap string Z :=
  match strtab_get_at elf sym.1 with
  | None => m
  | Some n => if bool_decide (n = ""%string) then m else <[n := sym.2]> m
  end.

Definition read_symbols (elf : elf_t) : gmap string Z := fold_left (add_symbol elf) (syms elf) ∅.
End elf.

(** [min_by_key(|s| s.load_address)]: the first of the lowest. *)
Fixpoint lowest_segment (l : list LoadSegment) : option LoadSegment :=
  match l with
  | [] => None
  | s :: l =>
      match lowest_segment l with
      | Some t => if load_address t <? load_address s then Some t else Some s
      | None => Some s
      end
  end.

Definition symbol (image : ElfImage) (n : string) : option Z := symbols image !! n.

(** ** What both CPUs do with an image; [tr] translates addresses *)

Section loading.
Context {U : Type} {UM : UnicornMem U}.
Variable tr : Z -> Z.

Fixpoint write_segments (u : U) (segs : list LoadSegment) : option U :=
  match segs with
  | [] => Some u
  | seg :: segs =>
      let '(ok, u) := mem_write u (tr (load_address seg)) (data seg) in
      if (ok : bool) then write_segments u segs else None
  end.

Definition range_fits (regions : list MemoryRegion) (addr sz : Z) : bool :=
  if sz =? 0 then true else existsb (fun r => contains_range r (tr addr) sz) regions.

Definition segments_fit (image : ElfImage) (regions : list MemoryRegion) : bool :=
  forallb (fun seg => range_fits regions (load_address seg) (len (data seg)) &&
                      range_fits regions (runtime_address seg) (mem_size seg)) (segments image).

Definition read_word (u : U) (addr : Z) : option Z := le_val <$> mem_read u (tr addr) 4.
End loading.

Section mapping.
Context {H U : Type} {UC : Unicorn H U}.

Fixpoint map_regions (u : U) (regions : list MemoryRegion) : option U :=
  match regions with
  | [] => Some u
  | r :: regions => match mem_map u (m_base r) (m_size r) with Some u => map_regions u regions | None => None end
  end.

(** The loop of [install_bus]: the callbacks of each page add its base to the offset. *)
Fixpoint map_pages (rd : H -> Z -> Z -> res (Z * H)) (wr : H -> U -> Z -> Z -> Z -> res (H * U)) (u : U) (pgs : list Z)
  : option U :=
  match pgs with
  | [] => Some u
  | page :: pgs =>
      match mmio_map u page 0x1000 (fun h offset sz => rd h (page + offset) (as_u8 sz))
              (fun h u offset sz value => wr h u (page + offset) (as_u8 sz) (as_u32 value)) with
      | Some u => map_pages rd wr u pgs
      | None => None
      end
  end.
End mapping.

(** ** The runner *)

Inductive CpuStop := Halted | Fault.

(** What the runner uses of a CPU; [None] is an error. *)
Class RunnerCpu (K : Type) := {
  cpu_run : K -> Z -> res (option (CpuStop * K));
  read_u32 : K -> Z -> option Z;
  read_pc : K -> option Z;
}.

Record ExitCondition := mkExitCondition {
  flag_address : option Z;
  result_address : option Z;
  timeout : Z;
  slice_instructions : Z;
}.

(** A [Duration] is its nanoseconds. *)
Definition from_secs (s : Z) : Z := 1000000000 * s.

Definition default_exit : ExitCondition := mkExitCondition None None (from_secs 300) 5000000.

Inductive RunOutcome :=
  | Pass (result elapsed : Z)
  | Fail (result elapsed : Z)
  | Timeout (elapsed : Z)
  | Faulted (pc elapsed : Z).

Section runner.
Context {K : Type} {KC : RunnerCpu K}.
(** The [n]th reading of [start.elapsed()]. *)
Variable elapsed : nat -> Z.
Variable exit : ExitCondition.

(** The verdict when the flag is nonzero. *)
Definition finished (cpu : K) (n : nat) : option RunOutcome :=
  match match result_address exit with Some a => read_u32 cpu a | None => Some 0 end with
  | None => None
  | Some result => Some (if result =? 0 then Pass result (elapsed n) else Fail result (elapsed n))
  end.

(** The loop; [None] when the fuel runs out. *)
Fixpoint run (fuel : nat) (cpu : K) (n : nat) : option (res (option RunOutcome)) :=
  match fuel with
  | O => None
  | S fuel =>
      match cpu_run cpu (slice_instructions exit) with
      | Panic => Some Panic
      | Ret None => Some (Ret None)
      | Ret (Some (stop, cpu)) =>
          match match flag_address exit with Some a => read_u32 cpu a | None => Some 0 end with
          | None => Some (Ret None)
          | Some flag =>
              if negb (flag =? 0) then Some (Ret (finished cpu n))
              else match stop with
                   | Fault => Some (Ret (Some (Faulted (default 0 (read_pc cpu)) (elapsed n))))
                   | Halted =>
                       if timeout exit <? elapsed n then Some (Ret (Some (Timeout (elapsed (S n)))))
                       else run fuel cpu (S n)
                   end
          end
      end
  end.
End runner.

(** ** Command line *)

Record Args := mkArgs {
  chip : string;
  timeout_secs : Z;
  exit_on : string;
  result_symbol : string;
  slice_arg : Z;
  list_chips : bool;
  elf : option string;
}.

(** Process exit codes; errors end in 2. *)
Definition outcome_code (o : RunOutcome) : Z :=
  match o with Pass _ _ => 0 | Fail _ _ => 1 | Timeout _ => 3 | Faulted _ _ => 4 end.

Definition exit_code (r : option RunOutcome) : Z := match r with Some o => outcome_code o | None => 2 end.

(** [!1] on [u64]. *)
Definition clear_lsb (x : Z) : Z := Z.land x (Z.lxor 1 (2 ^ 64 - 1)).

(** ** STM32Sim *)

Module stm32.
Section elf.
Context {G : Goblin}.

(** The vector table of the lowest segment: stack pointer and reset vector. *)
Definition vector_table (entry : Z) (segs : list LoadSegment) : Z * Z :=
  match lowest_segment segs with
  | Some seg => if 8 <=? len (data seg) then (le_val (sub (data seg) 4 8), le_val (sub (data seg) 0 4)) else (entry, 0)
  | None => (entry, 0)
  end.

Definition from_bytes_with_kind (file : bytes) (kind : CpuKind) : res (option ElfImage) :=
  match elf_parse file with
  | None => Ret None
  | Some elf =>
      try! segs := read_segments file (program_headers elf) in
      let '(entry_point, initial_sp) :=
        match kind with CortexM => vector_table (elf_entry elf) segs | CortexA => (elf_entry elf, 0) end in
      Ret (Some (mkElfImage entry_point initial_sp segs (read_symbols elf)))
  end.
End elf.

Section cpu.
Context {A : AesBlocks} {D : DigestCrates} {B : BigUintCrate} {E : EccCrates} {C : ChaCha}.
Context {U : Type} {UM : UnicornMem U} {UC : Unicorn (Bus Stm32Chips.Device) U}.

(** [host] is what the callbacks captured: the bus. *)
Record Cpu := mkCpu { cpu_uc : U; kind : CpuKind; host : Bus Stm32Chips.Device }.

Definition new_with_kind (memory : list MemoryRegion) (kind : CpuKind) : option Cpu :=
  match uc_new match kind with CortexM => ThumbMclass | CortexA => Arm end with
  | None => None
  | Some u =>
      match match kind with CortexA => ctl_set_cpu_model_cortex_a7 u | CortexM => Some u end with
      | None => None
      | Some u => (fun u => mkCpu u kind bus_new) <$> map_regions u memory
      end
  end.

Definition page_write (bus : Bus Stm32Chips.Device) (u : U) (addr sz value : Z) : res (Bus Stm32Chips.Device * U) :=
  let! bus := Stm32Core.dispatch_write bus addr sz value in Ret (bus, u).

Definition install_bus (self : Cpu) (bus : Bus Stm32Chips.Device) : option Cpu :=
  (fun u => mkCpu u (kind self) bus) <$> map_pages Stm32Core.dispatch_read page_write (cpu_uc self) (pages bus).

Definition with_uc (self : Cpu) (u : U) : Cpu := mkCpu u (kind self) (host self).

Definition load_elf (self : Cpu) (image : ElfImage) : option Cpu :=
  match write_segments id (cpu_uc self) (segments image) with
  | None => None
  | Some u =>
      match reg_write u SP (initial_sp image) with
      | None => None
      | Some u => with_uc self <$> reg_write u PC (clear_lsb (entry_point image))
      end
  end.

(** Where [emu_start] begins: bit 0 says Thumb. *)
Definition begin_address (self : Cpu) (pc : Z) : option Z :=
  match kind self with
  | CortexM => Some (Z.lor pc 1)
  | CortexA =>
      match reg_read (cpu_uc self) CPSR with
      | None => None
      | Some cpsr => Some (if negb (Z.land cpsr (Z.shiftl 1 5) =? 0) then Z.lor pc 1 else clear_lsb pc)
      end
  end.

Definition cpu_run (self : Cpu) (max_instructions : Z) : res (option (CpuStop * Cpu)) :=
  match reg_read (cpu_uc self) PC with
  | None => Ret None
  | Some pc =>
      match begin_address self pc with
      | None => Ret None
      | Some b =>
          let! '(ok, (h, u)) := emu_start (host self) (cpu_uc self) b max_instructions in
          Ret (Some (if (ok : bool) then Halted else Fault, mkCpu u (kind self) h))
      end
  end.

#[export] Instance runner_cpu : RunnerCpu Cpu := {|
  McuRun.cpu_run := cpu_run;
  read_u32 self addr := read_word id (cpu_uc self) addr;
  read_pc self := reg_read (cpu_uc self) PC;
|}.

Definition ensure_segments_fit (image : ElfImage) (regions : list MemoryRegion) : bool := segments_fit id image regions.

Context {G : Goblin}.
(** [std::fs::read], and the clock. *)
Variable fs_read : string -> option bytes.
Variable elapsed : nat -> Z.

Definition run_args (fuel : nat) (args : Args) : option (res (option RunOutcome)) :=
  match elf args ≫= fs_read with
  | None => Some (Ret None)
  | Some file =>
      match Stm32Chips.build (chip args) with
      | None => Some (Ret None)
      | Some c =>
          match from_bytes_with_kind file (Stm32Chips.cpu_kind c) with
          | Panic => Some Panic
          | Ret None => Some (Ret None)
          | Ret (Some image) =>
              match new_with_kind (Stm32Chips.memory_regions c) (Stm32Chips.cpu_kind c) with
              | None => Some (Ret None)
              | Some cpu =>
                  if negb (ensure_segments_fit image (Stm32Chips.memory_regions c)) then Some (Ret None)
                  else match install_bus cpu (Stm32Chips.chip_bus c) ≫= (fun cpu => load_elf cpu image) with
                       | None => Some (Ret None)
                       | Some cpu =>
                           run elapsed (mkExitCondition (symbol image (exit_on args)) (symbol image (result_symbol args))
                                          (from_secs (timeout_secs args)) (slice_instructions default_exit)) fuel cpu 0
                       end
              end
          end
      end
  end.

(** What is printed, and the exit code. *)
Definition main (fuel : nat) (args : Args) : option (res (list string * Z)) :=
  if list_chips args then Some (Ret (Stm32Chips.chip_list, 0))
  else match run_args fuel args with
       | None => None
       | Some Panic => Some Panic
       | Some (Ret r) => Some (Ret ([], exit_code r))
       end.
End cpu.
End stm32.

(** ** PIC32MZSim *)

Module pic32.
Section elf.
Context {G : Goblin}.

(** [_stack_top], or else [__stack_top__], or else [_stack], or else 0. *)
Definition stack_symbol (syms : gmap string Z) : Z :=
  match syms !! "_stack_top"%string with
  | Some v => v
  | None => match syms !! "__stack_top__"%string with
            | Some v => v
            | None => default 0 (syms !! "_stack"%string)
            end
  end.

Definition from_bytes (file : bytes) : res (option ElfImage) :=
  match elf_parse file with
  | None => Ret None
  | Some elf =>
      try! segs := read_segments file (program_headers elf) in
      Ret (Some (mkElfImage (elf_entry elf) (stack_symbol (read_symbols elf)) segs (read_symbols elf)))
  end.
End elf.

Section cpu.
Context {A : AesBlocks} {D : DigestCrates} {S : StreamCrates} {C : ChaCha}.

(** What the callbacks share: the bus and the registry of ticks. *)
Definition Host : Type := Bus Pic32Chips.Device * list (option polling.Callback).

Context {U : Type} {UM : UnicornMem U} {UC : Unicorn Host U}.

Record Cpu := mkCpu { cpu_uc : U; host : Host }.

(** The store callback and the block hook reach memory through the engine. *)
Definition page_read (h : Host) (addr sz : Z) : res (Z * Host) :=
  let '(v, bus) := Pic32Core.dispatch_read h.1 addr sz in Ret (v, (bus, h.2)).

Definition page_write (h : Host) (u : U) (addr sz value : Z) : res (Host * U) :=
  let! '(bus, w) := Pic32Core.dispatch_write h.1 addr sz value (mkWorld (mkUcMemBus u) h.2) in
  Ret ((bus, entries w), uc (mem w)).

Definition block_hook (h : Host) (u : U) (_pc : Z) : res (Host * U) :=
  let! w := dispatch_polling_tick polling.callback (mkWorld (mkUcMemBus u) h.2) in
  Ret ((h.1, entries w), uc (mem w)).

Definition new (memory : list MemoryRegion) : option Cpu :=
  (fun u => mkCpu u (bus_new, [])) <$>
    (uc_new Mips32Le ≫= fun u => map_regions u memory ≫= fun u => add_block_hook u block_hook ≫= fun u =>
     add_mem_invalid_hook u ≫= add_code_hook).

Definition install_bus (self : Cpu) (bus : Bus Pic32Chips.Device) : option Cpu :=
  (fun u => mkCpu u (bus, (host self).2)) <$> map_pages page_read page_write (cpu_uc self) (pages bus).

Definition with_uc (self : Cpu) (u : U) : Cpu := mkCpu u (host self).

Definition load_elf (self : Cpu) (image : ElfImage) : option Cpu :=
  match write_segments to_phys (cpu_uc self) (segments image) with
  | None => None
  | Some u =>
      match if negb (initial_sp image =? 0) then reg_write u SP (initial_sp image) else Some u with
      | None => None
      | Some u => with_uc self <$> reg_write u PC (entry_point image)
      end
  end.

Definition cpu_run (self : Cpu) (max_instructions : Z) : res (option (CpuStop * Cpu)) :=
  match reg_read (cpu_uc self) PC with
  | None => Ret None
  | Some pc =>
      let! '(ok, (h, u)) := emu_start (host self) (cpu_uc self) pc max_instructions in
      Ret (Some (if (ok : bool) then Halted else Fault, mkCpu u h))
  end.

#[export] Instance runner_cpu : RunnerCpu Cpu := {|
  McuRun.cpu_run := cpu_run;
  read_u32 self addr := read_word to_phys (cpu_uc self) addr;
  read_pc self := reg_read (cpu_uc self) PC;
|}.

Definition ensure_segments_fit (image : ElfImage) (regions : list MemoryRegion) : bool :=
  segments_fit to_phys image regions.

Context {G : Goblin}.
Variable fs_read : string -> option bytes.
Variable elapsed : nat -> Z.

Definition run_args (fuel : nat) (args : Args) : option (res (option RunOutcome)) :=
  match elf args ≫= fs_read with
  | None => Some (Ret None)
  | Some file =>
      match from_bytes file with
      | Panic => Some Panic
      | Ret None => Some (Ret None)
      | Ret (Some image) =>
          match Pic32Chips.build (chip args) with
          | None => Some (Ret None)
          | Some c =>
              match new (Pic32Chips.memory_regions c) with
              | None => Some (Ret None)
              | Some cpu =>
                  if negb (ensure_segments_fit image (Pic32Chips.memory_regions c)) then Some (Ret None)
                  else match install_bus cpu (Pic32Chips.chip_bus c) ≫= (fun cpu => load_elf cpu image) with
                       | None => Some (Ret None)
                       | Some cpu =>
                           run elapsed (mkExitCondition (symbol image (exit_on args)) (symbol image (result_symbol args))
                                          (from_secs (timeout_secs args)) (slice_arg args)) fuel cpu 0
                       end
              end
          end
      end
  end.

Definition main (fuel : nat) (args : Args) : option (res (list string * Z)) :=
  if list_chips args then Some (Ret (Pic32Chips.chip_list, 0))
  else match run_args fuel args with
       | None => None
       | Some Panic => Some Panic
       | Some (Ret r) => Some (Ret ([], exit_code r))
       end.
End cpu.
End pic32.

(** ** Laws of the registers: a 32-bit value written is read back, nothing else changes *)

Class UnicornOk (H U : Type) {UM : UnicornMem U} {UO : UnicornMemOk U} {UC : Unicorn H U} := {
  reg_write_spec u r v : u32 v ->
    exists u', reg_write u r v = Some u' /\ reg_read u' r = Some v /\
      (forall r', r' <> r -> reg_read u' r' = reg_read u r') /\ (forall q, uc_byte u' q = uc_byte u q);
}.

(** ** The runner ends *)

Section runs.
Context {K : Type} {KC : RunnerCpu K}.
Variables (elapsed : nat -> Z) (exit : ExitCondition).

(** The exit flag: [None] cannot be read, and without a symbol it stays clear. *)
Definition flag_of (cpu : K) : option Z := match flag_address exit with Some a => read_u32 cpu a | None => Some 0 end.
Definition result_in (cpu : K) : option Z := match result_address exit with Some a => read_u32 cpu a | None => Some 0 end.

(** [k] slices that neither set the flag nor fault. *)
Inductive waiting : nat -> K -> K -> Prop :=
  | waiting_0 cpu : waiting 0 cpu cpu
  | waiting_S k cpu cpu1 cpu2 : waiting k cpu cpu1 -> cpu_run cpu1 (slice_instructions exit) = Ret (Some (Halted, cpu2)) ->
      flag_of cpu2 = Some 0 -> waiting (S k) cpu cpu2.

(** What a verdict says about the slice after [cpu]. *)
Definition verdict_after (n : nat) (cpu : K) (v : res (option RunOutcome)) : Prop :=
  match cpu_run cpu (slice_instructions exit), v with
  | Panic, v => v = Panic
  | Ret None, v => v = Ret None
  | Ret (Some (stop, cpu')), Ret (Some (Pass r t)) =>
      (exists f, flag_of cpu' = Some f /\ f <> 0) /\ result_in cpu' = Some r /\ r = 0 /\ t = elapsed n
  | Ret (Some (stop, cpu')), Ret (Some (Fail r t)) =>
      (exists f, flag_of cpu' = Some f /\ f <> 0) /\ result_in cpu' = Some r /\ r <> 0 /\ t = elapsed n
  | Ret (Some (stop, cpu')), Ret (Some (Faulted pc t)) =>
      flag_of cpu' = Some 0 /\ stop = Fault /\ pc = default 0 (read_pc cpu') /\ t = elapsed n
  | Ret (Some (stop, cpu')), Ret (Some (Timeout t)) =>
      flag_of cpu' = Some 0 /\ stop = Halted /\ timeout exit < elapsed n /\ t = elapsed (S n)
  | Ret (Some (stop, cpu')), Ret None =>
      flag_of cpu' = None \/ (exists f, flag_of cpu' = Some f /\ f <> 0) /\ result_in cpu' = None
  | Ret (Some (stop, cpu')), Panic => False
  end.

(** One round of the loop ends with its verdict, or the firmware was still running and in time. *)
Definition waiting_round (n : nat) (cpu cpu' : K) : Prop :=
  cpu_run cpu (slice_instructions exit) = Ret (Some (Halted, cpu')) /\ flag_of cpu' = Some 0 /\ elapsed n <= timeout exit.

Lemma run_step cpu n :
  (exists v, verdict_after n cpu v /\ forall fuel, run elapsed exit (S fuel) cpu n = Some v) \/
  (exists cpu', waiting_round n cpu cpu' /\
     forall fuel, run elapsed exit (S fuel) cpu n = run elapsed exit fuel cpu' (S n)).
Proof.
  unfold verdict_after, waiting_round. cbn [run]. destruct (cpu_run cpu _) as [[[stop cpu']|]|]; [|left; by eexists..].
  fold (flag_of cpu'). destruct (flag_of cpu') as [f|] eqn:Ef; [|left; exists (Ret None); split; [by left|done]].
  destruct (Z.eqb_spec f 0) as [->|Hf]; cbn [negb].
  - destruct stop; [|left; eexists; split; [|done]; done].
    destruct (Z.ltb_spec (timeout exit) (elapsed n)) as [Ht|Ht]; [left|right].
    + eexists. split; [|done]. done.
    + by exists cpu'.
  - left. eexists. split; [|done]. unfold finished. fold (result_in cpu').
    destruct (result_in cpu') as [r|] eqn:Er; [|right; split; [by exists f|done]].
    destruct (Z.eqb_spec r 0); (split; [by exists f|done]).
Qed.

Lemma waiting_front k cpu cpu1 cpu2 : cpu_run cpu (slice_instructions exit) = Ret (Some (Halted, cpu1)) ->
  flag_of cpu1 = Some 0 -> waiting k cpu1 cpu2 -> waiting (S k) cpu cpu2.
Proof.
  intros E Hf H. induction H as [cpu1|k cpu1 cpu2 cpu3 H IH E2 Hf2].
  - eapply waiting_S; [constructor|done|done].
  - eapply waiting_S; [by apply IH|done|done].
Qed.

Lemma run_ends m : forall cpu n, timeout exit < elapsed (n + m)%nat ->
  exists k cpu' v, (k <= m)%nat /\ waiting k cpu cpu' /\ (forall i, (n <= i < n + k)%nat -> elapsed i <= timeout exit) /\
    verdict_after (n + k)%nat cpu' v /\ forall fuel, (m < fuel)%nat -> run elapsed exit fuel cpu n = Some v.
Proof.
  induction m as [|m IH]; intros cpu n Hm; (destruct (run_step cpu n) as [(v & Hv & E)|(cpu' & (Hr & Hf & Ht) & E)];
    [exists 0%nat, cpu, v; rewrite Nat.add_0_r; split; [lia|split; [constructor|split; [lia|split; [done|]]]];
     intros [|fuel] ?; [lia|apply E]|]).
  - rewrite Nat.add_0_r in Hm. lia.
  - destruct (IH cpu' (S n)) as (k & cpu2 & v & Hk & Hq & Hti & Hv & Hrun).
    { by replace (S n + m)%nat with (n + S m)%nat by lia. }
    exists (S k), cpu2, v. split; [lia|]. split; [by eapply waiting_front|]. split.
    { intros i Hi. destruct (decide (i = n)) as [->|]; [done|]. apply Hti. lia. }
    split; [by replace (n + S k)%nat with (S n + k)%nat by lia|].
    intros [|fuel] Hfuel; [lia|]. rewrite E. apply Hrun. lia.
Qed.

(** C40: Once the clock has passed the timeout at its [m]th reading the runner has ended: after
    at most [m] slices without flag or fault, with the verdict that the next slice deserves;
    the process exits with 0 only if the firmware's flag was set and its result, when its symbol
    exists, was 0. *)
Theorem runner_ends (cpu : K) (m : nat) (Hm : timeout exit < elapsed m) :
  exists k cpu' v, (k <= m)%nat /\ waiting k cpu cpu' /\ verdict_after k cpu' v /\
    (forall fuel, (m < fuel)%nat -> run elapsed exit fuel cpu 0 = Some v) /\
    (forall o, v = Ret o -> exit_code o = 0 ->
       exists stop cpu'', cpu_run cpu' (slice_instructions exit) = Ret (Some (stop, cpu'')) /\
         (exists f, flag_of cpu'' = Some f /\ f <> 0) /\ result_in cpu'' = Some 0).
Proof.
  destruct (run_ends m cpu 0 Hm) as (k & cpu' & v & Hk & Hq & _ & Hv & Hrun).
  exists k, cpu', v. do 4 (split; [done|]). intros o -> Ho. unfold verdict_after in Hv.
  destruct (cpu_run cpu' _) as [[[stop cpu'']|]|]; [|by simplify_eq..].
  exists stop, cpu''. split; [done|]. destruct o as [[]|]; try done. by destruct Hv as (? & ? & -> & _).
Qed.
End runs.

(** ** Loading *)

Section loads.
Context {U : Type} {UM : UnicornMem U} {UO : UnicornMemOk U}.

(** The bytes of memory after the segments were stored in order. *)
Definition loaded (tr : Z -> Z) (segs : list LoadSegment) (v : Z -> option Z) : Z -> option Z :=
  fold_left (fun v seg => put (tr (load_address seg)) (data seg) v) segs v.

Definition backed (v : Z -> option Z) (regions : list MemoryRegion) : Prop :=
  forall r q, r ∈ regions -> m_base r <= q < m_base r + m_size r -> is_Some (v q).

(** A stored byte of a segment lies in a region. *)
Lemma range_fits_in tr regions a n q : range_fits tr regions a n = true -> within (tr a) n q = true ->
  exists r, r ∈ regions /\ m_base r <= q < m_base r + m_size r.
Proof.
  unfold range_fits, within. destruct (Z.eqb_spec n 0) as [->|Hn]; [lia|]. intros Hf Hq.
  apply existsb_exists in Hf as (r & Hr%list_elem_of_In & Hc). exists r. split; [done|].
  unfold contains_range in Hc. destruct (2 ^ 64 <=? _); [done|]. lia.
Qed.

Lemma loaded_outside tr segs v q :
  Forall (fun seg => within (tr (load_address seg)) (len (data seg)) q = false) segs -> loaded tr segs v q = v q.
Proof.
  unfold loaded. revert v. induction segs as [|seg segs IH]; intros v H; [done|]. apply Forall_cons in H as [Hq H].
  cbn [fold_left]. rewrite IH by done. unfold put. by rewrite Hq.
Qed.

Lemma write_segments_loaded tr regions segs : forall u, backed (uc_byte u) regions ->
  Forall (fun seg => range_fits tr regions (load_address seg) (len (data seg)) = true) segs ->
  exists u', write_segments tr u segs = Some u' /\ forall q, uc_byte u' q = loaded tr segs (uc_byte u) q.
Proof.
  induction segs as [|seg segs IH]; intros u Hb Hs; [by exists u|]. apply Forall_cons in Hs as [Hseg Hs].
  destruct (mem_write_spec u (tr (load_address seg)) (data seg)) as (u1 & E & Hu1).
  { intros i Hi. destruct (range_fits_in _ _ _ _ (tr (load_address seg) + i) Hseg) as (r & Hr & Hq); [unfold within; lia|].
    by eapply Hb. }
  assert (Hput : forall q, uc_byte u1 q = put (tr (load_address seg)) (data seg) (uc_byte u) q) by exact Hu1.
  destruct (IH u1) as (u' & E' & Hu'); [|done|].
  { intros r q Hr Hq. rewrite Hput. unfold put, within. destruct (_ && _) eqn:Ew; [|by eapply Hb].
    apply lookup_lt_is_Some_2. unfold len in Ew. lia. }
  exists u'. cbn [write_segments]. rewrite E. split; [done|]. intros q. rewrite Hu'. unfold loaded. cbn [fold_left].
  clear - Hput. revert q. generalize (uc_byte u1) (put (tr (load_address seg)) (data seg) (uc_byte u)) Hput. clear.
  induction segs as [|s segs IH]; intros v v' H q; [apply H|]. cbn [fold_left]. apply IH. intros q'. unfold put.
  by destruct (within _ _ q').
Qed.

(** A device's pages are clear of memory, so of every segment. *)
Lemma device_untouched {Dev} tr regions segs (r : MmioRegion Dev) v q :
  off_memory regions (base r) (size r) = true ->
  Forall (fun seg => range_fits tr regions (load_address seg) (len (data seg)) = true) segs ->
  hit r q = true -> loaded tr segs v q = v q.
Proof.
  intros Hoff Hs Hq. apply loaded_outside. eapply Forall_impl; [exact Hs|]. intros seg Hf. cbn.
  destruct (within _ _ q) eqn:Ew; [|done]. exfalso. destruct (range_fits_in _ _ _ _ _ Hf Ew) as (mr & Hr & Hin).
  unfold off_memory in Hoff. rewrite forallb_forall in Hoff. specialize (Hoff mr (proj1 (list_elem_of_In _ _) Hr)).
  rewrite !page_floor_spec in Hoff. unfold hit in Hq. dlia.
Qed.

Lemma fits_loads tr image regions : segments_fit tr image regions = true ->
  Forall (fun seg => range_fits tr regions (load_address seg) (len (data seg)) = true) (segments image).
Proof.
  unfold segments_fit. rewrite forallb_forall. intros H. apply Forall_forall. intros seg Hseg%list_elem_of_In.
  by destruct (proj1 (andb_true_iff _ _) (H seg Hseg)).
Qed.
End loads.

Section firmware.
Context {A : AesBlocks} {D : DigestCrates} {B : BigUintCrate} {E : EccCrates} {S : StreamCrates} {C : ChaCha}.
Context {U : Type} {UM : UnicornMem U} {UO : UnicornMemOk U}.
Context {UC1 : Unicorn (Bus Stm32Chips.Device) U} {UK1 : UnicornOk (Bus Stm32Chips.Device) U}.
Context {UC2 : Unicorn pic32.Host U} {UK2 : UnicornOk pic32.Host U}.

Lemma pic32_off_memory name chip : Pic32Chips.build name = Some chip ->
  Forall (fun r => off_memory (Pic32Chips.memory_regions chip) (base r) (size r) = true) (Pic32Chips.chip_bus chip).
Proof.
  unfold Pic32Chips.build. intros H. repeat case_match; simplify_eq; repeat constructor.
Qed.

(** What loading an image leaves: every byte of memory is that of the last segment that
    holds it, or as before; no address of a device is written; the program counter is set. *)
Definition loads_image {Dev} (tr : Z -> Z) (image : ElfImage) (bus : Bus Dev) (pc : Z) (rd : U -> Register -> option Z)
    (u u' : U) : Prop :=
  (forall q, uc_byte u' q = loaded tr (segments image) (uc_byte u) q) /\
  (forall r q, r ∈ bus -> hit r q = true -> uc_byte u' q = uc_byte u q) /\
  rd u' PC = Some pc.

(** The MIPS map: 0x80000000 to 0xBFFFFFFF is KSEG0 and KSEG1, two windows on the first
    512 MiB of physical addresses. *)
Definition kseg_stripped (a : Z) : Z :=
  if (0x80000000 <=? a mod 2 ^ 32) && (a mod 2 ^ 32 <? 0xC0000000) then a mod 2 ^ 29 else a.

Lemma to_phys_kseg a : to_phys a = kseg_stripped a.
Proof.
  unfold to_phys, kseg_stripped. change 0x7 with (Z.ones 3). change SEG_MASK with (Z.ones 29).
  rewrite !Z.land_ones, Z.shiftr_div_pow2 by done. change (2 ^ 29) with 536870912. change (2 ^ 32) with 4294967296.
  change (2 ^ 3) with 8. destruct (_ || _) eqn:E1, (_ && _) eqn:E2; try done; dlia.
Qed.

(** Loading before the registers are set. *)
Lemma loads_image_written {Dev} tr image (bus : Bus Dev) regions (u : U) :
  Forall (fun r => off_memory regions (base r) (size r) = true) bus -> backed (uc_byte u) regions ->
  segments_fit tr image regions = true ->
  exists u1, write_segments tr u (segments image) = Some u1 /\
    forall u' rd pc, (forall q, uc_byte u' q = uc_byte u1 q) -> rd u' PC = Some pc -> loads_image tr image bus pc rd u u'.
Proof.
  intros Hoff Hb Hfit%fits_loads. rewrite Forall_forall in Hoff.
  destruct (write_segments_loaded tr _ _ _ Hb Hfit) as (u1 & Ew & Hu1). exists u1. split; [exact Ew|].
  intros u' rd pc Hm Hpc. split; [intros q; by rewrite Hm, Hu1|]. split; [|done].
  intros r q Hr Hq. rewrite Hm, Hu1. eapply device_untouched; [by apply Hoff|done|done].
Qed.

Lemma clear_lsb_u32 x : u32 x -> clear_lsb x = 2 * (x / 2) /\ u32 (clear_lsb x).
Proof.
  intros Hx. assert (Ec : clear_lsb x = 2 * (x / 2)).
  { unfold clear_lsb. transitivity (Z.ldiff x (Z.ones 1)).
    - apply Z.bits_inj'. intros i Hi. rewrite Z.land_spec, Z.ldiff_spec, Z.lxor_spec.
      replace (2 ^ 64 - 1) with (Z.ones 64) by reflexivity. change 1 with (Z.ones 1) at 1.
      rewrite !Z.testbit_ones_nonneg by lia. destruct (Z.ltb_spec i 64); [by destruct (i <? 1)|].
      by rewrite (testbit_high 32 x i) by (done || lia).
    - rewrite Z.ldiff_ones_r, Z.shiftr_div_pow2, Z.shiftl_mul_pow2 by lia. change (2 ^ 1) with 2. lia. }
  rewrite Ec. split; [done|]. unfold u32 in *. dlia.
Qed.

Lemma loaded_ext tr tr' segs v : (forall a, tr a = tr' a) -> loaded tr segs v = loaded tr' segs v.
Proof.
  intros H. unfold loaded. revert v. induction segs as [|seg segs IH]; intros v; [done|]. cbn [fold_left].
  by rewrite H, IH.
Qed.

(** C39: An image whose segments fit the chip's memory, and whose entry point and initial
    stack pointer are 32-bit values, is loaded on either simulator: its bytes are at their
    load addresses, which on the PIC32 are taken modulo 2^29 when they lie in KSEG0 or KSEG1,
    and no address of a device is written.  On the STM32 the program counter is the entry
    point without its lowest bit and the stack pointer the initial one; on the PIC32 the
    program counter is the entry point, and the stack pointer the initial one unless that is
    zero. *)
Theorem firmware_loads (image : ElfImage) (Hsp : u32 (initial_sp image)) (Hpc : u32 (entry_point image)) :
  (forall name chip cpu, Stm32Chips.build name = Some chip ->
     backed (uc_byte (stm32.cpu_uc cpu)) (Stm32Chips.memory_regions chip) ->
     stm32.ensure_segments_fit image (Stm32Chips.memory_regions chip) = true ->
     exists cpu', stm32.load_elf cpu image = Some cpu' /\ stm32.host cpu' = stm32.host cpu /\
       loads_image id image (Stm32Chips.chip_bus chip) (2 * (entry_point image / 2))
         (reg_read (H := Bus Stm32Chips.Device)) (stm32.cpu_uc cpu) (stm32.cpu_uc cpu') /\
       reg_read (H := Bus Stm32Chips.Device) (stm32.cpu_uc cpu') SP = Some (initial_sp image)) /\
  (forall name chip cpu, Pic32Chips.build name = Some chip ->
     backed (uc_byte (pic32.cpu_uc cpu)) (Pic32Chips.memory_regions chip) ->
     pic32.ensure_segments_fit image (Pic32Chips.memory_regions chip) = true ->
     exists cpu', pic32.load_elf cpu image = Some cpu' /\ pic32.host cpu' = pic32.host cpu /\
       loads_image kseg_stripped image (Pic32Chips.chip_bus chip) (entry_point image)
         (reg_read (H := pic32.Host)) (pic32.cpu_uc cpu) (pic32.cpu_uc cpu') /\
       (initial_sp image <> 0 -> reg_read (H := pic32.Host) (pic32.cpu_uc cpu') SP = Some (initial_sp image))).
Proof.
  split; intros name chip cpu Hchip Hb Hfit.
  - destruct (loads_image_written _ _ _ _ _ (proj1 (chip_routing _ _ Hchip)) Hb Hfit) as (u & Eu & Hload).
    unfold stm32.load_elf. rewrite Eu.
    destruct (reg_write_spec (H := Bus Stm32Chips.Device) u SP _ Hsp) as (u1 & -> & R1 & O1 & M1).
    destruct (clear_lsb_u32 _ Hpc) as [Ec Hc].
    destruct (reg_write_spec (H := Bus Stm32Chips.Device) u1 PC _ Hc) as (u2 & -> & R2 & O2 & M2).
    eexists. split; [reflexivity|]. split; [done|]. cbn [stm32.with_uc stm32.cpu_uc].
    split; [|by rewrite O2]. apply Hload; [intros q; by rewrite M2, M1|by rewrite R2, Ec].
  - destruct (loads_image_written _ _ _ _ _ (pic32_off_memory _ _ Hchip) Hb Hfit) as (u & Eu & Hload').
    assert (Hload : forall u' rd pc, (forall q, uc_byte u' q = uc_byte u q) -> rd u' PC = Some pc ->
      loads_image kseg_stripped image (Pic32Chips.chip_bus chip) pc rd (pic32.cpu_uc cpu) u').
    { intros u' rd pc Hm Hr. destruct (Hload' u' rd pc Hm Hr) as (H1 & H2 & H3). split; [|by split].
      intros q. by rewrite H1, (loaded_ext to_phys kseg_stripped) by apply to_phys_kseg. }
    unfold pic32.load_elf. rewrite Eu.
    destruct (Z.eqb_spec (initial_sp image) 0) as [E0|E0]; cbn [negb].
    + destruct (reg_write_spec (H := pic32.Host) u PC _ Hpc) as (u2 & -> & R2 & O2 & M2).
      eexists. split; [reflexivity|]. split; [done|]. split; [by apply Hload|done].
    + destruct (reg_write_spec (H := pic32.Host) u SP _ Hsp) as (u1 & -> & R1 & O1 & M1).
      destruct (reg_write_spec (H := pic32.Host) u1 PC _ Hpc) as (u2 & -> & R2 & O2 & M2).
      eexists. split; [reflexivity|]. split; [done|]. cbn [pic32.with_uc pic32.cpu_uc].
      split; [|intros _; by rewrite O2]. apply Hload; [intros q; by rewrite M2, M1|done].
Qed.
End firmware.
