(* ===== verification/McuWitness.v ===== *)
(** * STM32Sim and PIC32MZSim: the theorems at concrete inputs

    First a concrete instance of the third-party crates, then every property of the two
    simulators with hypotheses applied to concrete peripherals, keys and messages.  Small executable functions that satisfy every law of [AesBlocksOk], [DigestCratesOk],
    [EccCratesOk] and [ChaChaOk].  They are not cryptography: they show that the laws are
    consistent and let the examples evaluate. *)

From stdpp Require Import strings.
From stdpp Require Import gmap.
From S2P Require Import Prelude.
From S2P Require Import Crc.
From S2P Require Import Crates.
From S2P Require Import Se050Crates.
From S2P Require Import Se050Toy.
From S2P Require Import McuCrates.
From S2P Require Import Stm32Core.
From S2P Require Import Stm32Cryp.
From S2P Require Import Stm32Hash.
From S2P Require Import Stm32Pka.
From S2P Require Import Stm32Chips.
From S2P Require Import Stm32Gf128.
From S2P Require Import Stm32Engine.
From S2P Require Import Stm32Port.
From S2P Require Import Stm32CrypPortV1.
From S2P Require Import Stm32CrypPortV2.
From S2P Require Import Stm32HashPort.
From S2P Require Import Stm32PkaFacts.
From S2P Require Import Stm32Claims.
From S2P Require Import Stm32Firmware.
From S2P Require Import Pic32Core.
From S2P Require Import Pic32Ce.
From S2P Require Import Pic32Chips.
From S2P Require Import Pic32Layout.
From S2P Require Import Pic32Modes.
From S2P Require Import Pic32Chain.
From S2P Require Import Pic32Claims.
From S2P Require Import Pic32Safety.
From S2P Require Import McuRun.

(** ** Block ciphers: a byte shift by the first byte of the key *)

Definition mcu_aes : AesBlocks := {|
  aes_enc k := shift_block (fun x => x + key_byte k);
  aes_dec k := shift_block (fun x => x - key_byte k);
|}.

Lemma shift_inverse (f g : Z -> Z) (b : bytes) : (forall x, u8 x -> as_u8 (g (as_u8 (f x))) = x) -> wf b ->
  shift_block g (shift_block f b) = b.
Proof.
  intros Hfg Hb. unfold shift_block. rewrite <- list_fmap_compose. rewrite <- (list_fmap_id b) at 2.
  apply list_fmap_ext. intros i x Hx. cbn. apply Hfg. by eapply Forall_lookup_1 in Hx.
Qed.

Lemma mcu_aes_ok : AesBlocksOk mcu_aes.
Proof.
  split; intros; cbn -[shift_block]; rewrite ?len_shift_block; try done; try apply wf_shift_block;
    (apply shift_inverse; [|done]); unfold u8, as_u8; intros x Hx; change (2 ^ 8) with 256 in *; dlia.
Qed.

(** ** Digests: the bytes of the message read as one number *)

Definition mcu_digest : DigestCrates := {|
  digest_t := digest_name * bytes;
  digest_new d := (d, []);
  digest_update h b := (h.1, h.2 ++ b);
  digest_finalize h := be_bytes (Z.to_nat (digest_size h.1)) (be_val (1 :: h.2));
  xof_t := bytes;
  xof_new _ := [];
  xof_update h b := h ++ b;
  xof_read h n := be_bytes (Z.to_nat n) (be_val (1 :: h));
|}.

Lemma mcu_digest_ok : DigestCratesOk mcu_digest.
Proof.
  split; cbn -[be_bytes be_val].
  - intros. by rewrite app_assoc.
  - intros [? ?]. by rewrite app_nil_r.
  - intros d m. rewrite len_be_bytes. by destruct d.
  - intros. auto with wfdb.
  - intros. by rewrite app_assoc.
  - intros. apply app_nil_r.
  - intros h n Hn. rewrite len_be_bytes. lia.
  - intros. auto with wfdb.
Qed.

(** ** Curves: the point at infinity alone *)

Definition mcu_curve (n : Z) : PkaCurve := {|
  scalar_t := Z;
  point_t := bool;
  scalar_from_repr b := Some (be_val b);
  point_from_sec1 b := Some (len b =? 1 + 2 * n);
  point_mul p _ := p;
  point_to_sec1 (p : bool) := if p then 4 :: vec_repeat 0 (2 * n) else [0];
  vkey_t := unit;
  vkey_from_affine _ := Some ();
  ecsig_t := unit;
  ecsig_from_slice _ := Some ();
  ecsig_verify_prehash _ _ _ := true;
|}.

Lemma mcu_curve_ok n : 0 < n -> PkaCurveOk n (mcu_curve n).
Proof.
  intros Hn. split; cbn -[vec_repeat len].
  - intros [] H; rewrite ?len_cons, ?len_vec_repeat in * by lia; f_equal; [lia|].
    change (len []) with 0 in H. lia.
  - intros []; auto 6 with wfdb; repeat (apply wf_vec_repeat || apply wf_nil || apply wf_cons); unfold u8; lia.
  - intros []; [right|by left]. exists (vec_repeat 0 (2 * n)). split; [done|rewrite len_vec_repeat; lia].
Qed.

Definition mcu_ecc : EccCrates := {| crate_p256 := mcu_curve 32; crate_p384 := mcu_curve 48 |}.
Lemma mcu_ecc_ok : EccCratesOk mcu_ecc.
Proof. split; by apply mcu_curve_ok. Qed.

(** ** The random number generator: a counter *)

Definition mcu_chacha : ChaCha := {|
  chacha_t := Z;
  seed_from_u64 s := s;
  next_u32 g := (as_u32 g, g + 1);
|}.
Lemma mcu_chacha_ok : ChaChaOk mcu_chacha.
Proof. split. intros g. cbn. apply u32_as_u32. Qed.

#[export] Existing Instances mcu_aes mcu_aes_ok mcu_digest mcu_digest_ok mcu_ecc mcu_ecc_ok mcu_chacha
  mcu_chacha_ok.
#[export] Existing Instance se_big.
#[export] Existing Instance se_big_ok.

(** ** STM32Sim: peripherals, keys and messages *)

(** A key, an initialisation vector and two blocks. *)
Definition key16 : bytes := [7; 1; 2; 3; 4; 5; 6; 7; 8; 9; 10; 11; 12; 13; 14; 15].
Definition iv16 : bytes := [0xA0; 0xA1; 0xA2; 0xA3; 0xA4; 0xA5; 0xA6; 0xA7; 0xA8; 0xA9; 0xAA; 0xAB; 0xAC; 0xAD; 0xAE; 0xFF].
Definition block1 : bytes := vec_repeat 0x11 16.
Definition block2 : bytes := vec_repeat 0xEE 15 ++ [3].

Lemma block_literal (b : bytes) : (len b =? 16) && forallb (fun x => (0 <=? x) && (x <? 256)) b = true -> block b.
Proof. intros [H1 H2]%andb_true_iff. split; [lia|by apply wf_literal]. Qed.

(** Bytes and blocks that are literals. *)
Ltac concrete :=
  first [reflexivity | apply block_literal; reflexivity | apply wf_literal; reflexivity
        | repeat (apply Forall_cons; split); first [apply block_literal; reflexivity | apply Forall_nil; done]].

Lemma gf128_mul_product_witness :
  len (gcm.gf128_mul block1 block2) = 16 /\ wf (gcm.gf128_mul block1 block2) /\
  gf2_congr ghash_modulus (gf2_mul (block_bits block1) (poly block2)) (poly (gcm.gf128_mul block1 block2)).
Proof.
  destruct (gf128_mul_product block1 block2 eq_refl eq_refl ltac:(concrete)) as (H1 & H2 & H3).
  split; [done|]. split; [done|]. apply H3; [|done]. split; by vm_compute.
Defined.

Lemma gf128_mul_matches_u128_witness : gcm.gf128_mul block1 block2 = gcm.gf128_mul_u128 block1 block2.
Proof. apply gf128_mul_matches_u128; split; concrete. Defined.

(** ** CRYP *)

Definition cbc_config : Config := mkConfig cryp.K128 cryp.Byte cryp.Cbc cryp.Encrypt.
Definition gcm_config : Config := mkConfig cryp.K128 cryp.Word cryp.Gcm cryp.Encrypt.

Lemma cryp_session_computes_witness :
  (exists s', cryp_session Stm32Cryp.v1.new cbc_config key16 iv16 [block1; block2] =
    Ret (mode_crypt cryp.Cbc cryp.Encrypt key16 iv16 [block1; block2], s')) /\
  (exists s', cryp_session Stm32Cryp.v2.new cbc_config key16 iv16 [block1; block2] =
    Ret (mode_crypt cryp.Cbc cryp.Encrypt key16 iv16 [block1; block2], s')).
Proof.
  destruct (cryp_session_computes cbc_config key16 iv16 [block1; block2] ltac:(right; by left) ltac:(concrete)
    ltac:(concrete) ltac:(concrete) ltac:(concrete)) as [H1 H2]. split.
  - destruct (H1 _ V1.new_ok eq_refl) as (s' & E & _). by exists s'.
  - destruct (H2 ltac:(by split) _ V2.new_ok_v2 eq_refl) as (s' & E & _). by exists s'.
Defined.

Lemma cryp_roundtrip_witness :
  exists c s1' s2', cryp_session Stm32Cryp.v1.new (enc_config cryp.K256 cryp.Word cryp.Ctr) (key16 ++ key16) iv16 [block1; block2]
      = Ret (c, s1') /\
    cryp_session Stm32Cryp.v2.new (dec_config cryp.K256 cryp.Bit cryp.Ctr) (key16 ++ key16) iv16 c
      = Ret ([block1; block2], s2').
Proof.
  apply (cryp_roundtrip cryp.K256 cryp.Word cryp.Bit cryp.Ctr (key16 ++ key16) iv16 [block1; block2]
    Stm32Cryp.v1.new Stm32Cryp.v2.new); try concrete; try done.
  - by right; right.
  - split; [apply V1.new_ok|reflexivity].
  - split; [apply V2.new_ok_v2|reflexivity].
Defined.

Lemma gcm_session_computes_witness :
  exists s', gcm_session Stm32Cryp.v1.new gcm_config key16 iv16 [block2] [block1] block2 =
    Ret ((gcm_crypt cryp.Encrypt key16 iv16 [block2] [block1]).1, (gcm_crypt cryp.Encrypt key16 iv16 [block2] [block1]).2, s').
Proof.
  destruct (gcm_session_computes gcm_config key16 iv16 [block2] [block1] block2 eq_refl ltac:(concrete)
    ltac:(concrete) ltac:(concrete) ltac:(concrete) ltac:(concrete) ltac:(concrete)) as [H1 _].
  destruct (H1 _ V1.new_ok eq_refl) as (s' & E & _). by exists s'.
Defined.

(** ** HASH *)

Lemma quiet_new l : quiet (Stm32Hash.v1.with_layout_new l).
Proof. by destruct l. Qed.

Definition long_key : bytes := vec_repeat 0xAB 70.

Lemma hash_session_digest_witness :
  exists s', hash_session Stm32Hash.v1.new (cr_word 0x40080 cryp.Byte false) hash.Sha256 cryp.Byte iv16
    = Ret (digest_of hash.Sha256 iv16, s').
Proof.
  destruct (hash_session_digest Stm32Hash.v1.new hash.Sha256 0x40080 cryp.Byte iv16 (quiet_new _) eq_refl
    ltac:(concrete)) as (s' & E & _). by exists s'.
Defined.

Lemma hmac_session_rfc2104_witness :
  exists s', hmac_session Stm32Hash.v1.new (cr_word 0x40080 cryp.Byte true) hash.Sha256 cryp.Byte long_key iv16
    = Ret (hmac_of hash.Sha256 long_key iv16, s').
Proof.
  destruct (hmac_session_rfc2104 Stm32Hash.v1.new hash.Sha256 0x40080 cryp.Byte long_key iv16 (quiet_new _) eq_refl
    ltac:(concrete) ltac:(concrete)) as (s' & E & _). by exists s'.
Defined.

Lemma hash_context_resumes_witness :
  exists s', resumed_session Stm32Hash.v1.new (cr_word 0x40080 cryp.Byte false) hash.Sha256 cryp.Byte iv16 [1; 2; 3] [4] =
    Ret (digest_of hash.Sha256 (iv16 ++ [1; 2; 3]), digest_of hash.Sha256 (iv16 ++ [4]), s').
Proof.
  destruct (hash_context_resumes Stm32Hash.v1.new hash.Sha256 0x40080 cryp.Byte iv16 [1; 2; 3] [4] (quiet_new _) eq_refl
    ltac:(concrete) ltac:(concrete) ltac:(concrete) eq_refl) as (s' & E & _). by exists s'.
Defined.

(** The two results of the interleaving theorem differ from what a context that survived
    would give. *)
Lemma hash_interleaving_restarts_witness :
  (exists s', interleaved_session Stm32Hash.v1.new 0x40080 hash.Sha256 cryp.Byte iv16 0 hash.Sha1 [1; 2; 3] [4] =
    Ret (digest_of hash.Sha1 [1; 2; 3], digest_of hash.Sha256 [4], s')) /\
  digest_of hash.Sha256 [4] <> digest_of hash.Sha256 (iv16 ++ [4]).
Proof.
  split; [|by vm_compute]. apply (hash_interleaving_restarts Stm32Hash.v1.new hash.Sha256 hash.Sha1 0x40080 0 cryp.Byte);
    first [apply quiet_new|concrete].
Defined.

(** ** PKA *)

Lemma pka_modexp_computes_witness :
  exists s', modexp_session Stm32Pka.v2.new Stm32Pka.v2.MODE_MODULAR_EXP_PROTECT [0; 7] [3] [1; 1] =
    Ret (be_bytes 2 (7 ^ 3 mod 257), s').
Proof.
  destruct (pka_modexp_computes Stm32Pka.v2.new Stm32Pka.v2.MODE_MODULAR_EXP_PROTECT [0; 7] [3] [1; 1] pka_new_ok
    ltac:(vm_compute; tauto) ltac:(concrete) ltac:(concrete) ltac:(concrete) eq_refl ltac:(by split) ltac:(by split) eq_refl)
    as (s' & E & _). exists s'. exact E.
Defined.

Lemma pka_mod_op_computes_witness :
  exists s', mod_op_session Stm32Pka.v2.new (mode_of Stm32Pka.v2.Sub) [0; 3] [0; 7] [1; 1] =
    Ret (be_bytes 2 ((3 - 7) mod 257), s').
Proof.
  destruct (pka_mod_op_computes Stm32Pka.v2.new Stm32Pka.v2.Sub [0; 3] [0; 7] [1; 1] pka_new_ok
    ltac:(concrete) ltac:(concrete) ltac:(concrete) eq_refl eq_refl ltac:(by split) eq_refl)
    as (s' & E & _). exists s'. exact E.
Defined.

(** ** The bus and the chips *)

Lemma pages_cover_witness : NoDup (pages (Stm32Chips.chip_bus Stm32Chips.stm32h753)).
Proof.
  assert (Hb : Forall (fun r => 0 <= base r /\ 0 < size r) (Stm32Chips.chip_bus Stm32Chips.stm32h753)).
  { repeat (apply Forall_cons; split; [by split|]). by apply Forall_nil. }
  by destruct (pages_cover (Stm32Chips.chip_bus Stm32Chips.stm32h753) Hb) as (_ & H & _).
Defined.

Lemma chip_routing_witness :
  Forall (fun r => off_memory (Stm32Chips.memory_regions Stm32Chips.stm32u585) (base r) (size r) = true) (Stm32Chips.chip_bus Stm32Chips.stm32u585).
Proof. by destruct (chip_routing "stm32u585"%string Stm32Chips.stm32u585 eq_refl) as [H _]. Defined.

Lemma chip_mmio_safe_witness :
  exists vs b, accesses (Stm32Chips.chip_bus Stm32Chips.stm32mp135) [Store 0x54002000 4 0xFFFFFFFF; Load 0x54003000 4] = Ret (vs, b) /\
    Forall u32 vs.
Proof.
  destruct (chip_mmio_safe "stm32mp135"%string Stm32Chips.stm32mp135 [Store 0x54002000 4 0xFFFFFFFF; Load 0x54003000 4] eq_refl
    ltac:(repeat (apply Forall_cons; split; [by try split|]); by apply Forall_nil)) as (vs & b & E & Hv & _).
  by exists vs, b.
Defined.

(** *** Two sessions side by side on the H7, access by access *)

Fixpoint alternate {X} (l l' : list X) : list X :=
  match l, l' with
  | x :: l, y :: l' => x :: y :: alternate l l'
  | l, [] => l
  | [], l' => l'
  end.

Definition h7_firmware : list Access :=
  alternate (shift_to (-0x48021000) <$> cryp_program (C := V1.cryp_port_v1) cbc_config key16 iv16 [block1; block2])
    (shift_to (-0x48021400) <$> hash_program (cr_word 0x40080 cryp.Byte false) hash.Sha256 cryp.Byte iv16) ++
  [Load 0x48021808 4; Load 0x40004C00 4].

Lemma h7_firmware_ok : Forall access_ok h7_firmware.
Proof.
  assert (H : forallb (fun a => match a with Load _ _ => true | Store _ _ v => (0 <=? v) && (v <? 2 ^ 32) end) h7_firmware = true)
    by (vm_compute; reflexivity).
  rewrite forallb_forall in H. apply Forall_forall. intros a Ha. apply list_elem_of_In in Ha. specialize (H a Ha).
  destruct a as [x sz|x sz v]; [done|]. cbn in *. unfold u32. lia.
Qed.

Lemma interleaved_sessions_compute_witness :
  exists rc rh vs b', Stm32Chips.chip_bus Stm32Chips.stm32h753 !! 2%nat = Some rc /\
    Stm32Chips.chip_bus Stm32Chips.stm32h753 !! 3%nat = Some rh /\
    accesses (Stm32Chips.chip_bus Stm32Chips.stm32h753) h7_firmware = Ret (vs, b') /\
    host_bytes cryp.Byte (answers rc h7_firmware vs) = concat (mode_crypt cryp.Cbc cryp.Encrypt key16 iv16 [block1; block2]) /\
    (answers rh h7_firmware vs ≫= be_bytes 4) = digest_of hash.Sha256 iv16.
Proof.
  eexists _, _.
  destruct (interleaved_sessions_compute (P := Stm32Cryp.v1.CrypV1) (PC := V1.cryp_port_v1) "stm32h753"%string
    Stm32Chips.stm32h753 [] h7_firmware [] (Stm32Chips.chip_bus Stm32Chips.stm32h753) 2 3 _ _ Stm32Cryp.v1.new
    Stm32Hash.v1.new cbc_config key16 iv16 [block1; block2] hash.Sha256 0x40080 cryp.Byte iv16
    eq_refl ltac:(by apply Forall_nil) eq_refl h7_firmware_ok eq_refl eq_refl eq_refl eq_refl eq_refl
    (quiet_new _) ltac:(done) ltac:(right; by left) ltac:(concrete) ltac:(concrete) ltac:(concrete) ltac:(concrete)
    eq_refl ltac:(concrete) ltac:(vm_compute; reflexivity) ltac:(vm_compute; reflexivity))
    as (vs & b' & _ & _ & E & H1 & H2 & _).
  exists vs, b'. exact (conj eq_refl (conj eq_refl (conj E (conj H1 H2)))).
Defined.

Lemma chip_devices_independent_witness :
  exists vs b, accesses (Stm32Chips.chip_bus Stm32Chips.stm32mp135) [Store 0x54002000 4 0xFFFFFFFF; Load 0x54003000 4] = Ret (vs, b) /\
    Forall u32 vs /\
    Forall2 (as_alone [Store 0x54002000 4 0xFFFFFFFF; Load 0x54003000 4] vs) (Stm32Chips.chip_bus Stm32Chips.stm32mp135) b.
Proof.
  destruct (chip_devices_independent "stm32mp135"%string Stm32Chips.stm32mp135
    [Store 0x54002000 4 0xFFFFFFFF; Load 0x54003000 4] eq_refl
    ltac:(repeat (apply Forall_cons; split; [by try split|]); by apply Forall_nil)) as (vs & b & E & Hv & _ & H).
  exists vs, b. exact (conj E (conj Hv H)).
Defined.

(** ** PIC32MZSim: a concrete instance of the stream crates, and the properties applied to
    descriptors and associations laid out in an [InMemoryBus] *)

Import bd algo polling ce.

(** ** Stream ciphers and DES: the complement of every byte, a shift by the key *)

Definition mcu_stream : StreamCrates := {|
  ctr128be _ _ b := shift_block (fun x => 255 - x) b;
  des_t := bytes;
  des_new_from_slice k := Some k;
  des_enc k := shift_block (fun x => x + key_byte k);
  des_dec k := shift_block (fun x => x - key_byte k);
|}.

Lemma mcu_stream_ok : StreamCratesOk mcu_stream.
Proof.
  split; intros; cbn -[shift_block]; rewrite ?len_shift_block; try done; try apply wf_shift_block.
  apply shift_inverse; [|done]. unfold u8, as_u8. intros x Hx. change (2 ^ 8) with 256 in *. dlia.
Qed.

#[local] Existing Instances mcu_stream mcu_stream_ok.

(** ** Two descriptors: AES-CBC of two blocks, then SHA-256 of five bytes *)

Definition enabled : Z := Z.lor (Z.shiftl 1 31) (Z.shiftl 1 22).
Definition cbc_sa : SecurityAssociation :=
  mkSecurityAssociation (mkSaCtrl CRYPTOALGO_RCBC 0 KEYSIZE_128 1 ALGO_AES 0 0 1 0 0 0 0 0 0)
    (replicate 8 0) (staged 8 key16) (replicate 8 0) (staged 4 iv16).
Definition sha_sa : SecurityAssociation :=
  mkSecurityAssociation (mkSaCtrl 0 0 0 0 ALGO_SHA256 0 0 0 0 0 0 0 0 0)
    (replicate 8 0) (replicate 8 0) (replicate 8 0) (replicate 4 0).
Definition cbc_bd : BufferDescriptor :=
  mkBufferDescriptor (Z.lor enabled 32) 0x1100 0x2000 0x3000 0x1040 0 32 0.
Definition sha_bd : BufferDescriptor :=
  mkBufferDescriptor (Z.lor (Z.lor enabled (Z.shiftl 1 19)) 8) 0x1200 0x2100 0 0 0x3100 5 0.
Definition sha_input : bytes := [1; 2; 3; 4; 5; 0; 0; 0].

Definition cbc_job : Job := mkJob 0x1000 cbc_bd cbc_sa (block1 ++ block2)
  (default [] (manual_result cbc_sa cbc_bd (block1 ++ block2))).
Definition sha_job : Job := mkJob 0x1040 sha_bd sha_sa sha_input (default [] (manual_result sha_sa sha_bd sha_input)).

Definition laid_out (bd0 : BufferDescriptor) : InMemoryBus :=
  store (store (store (store (store (store ∅ 0x1000 (bd_bytes bd0)) 0x1100 (sa_bytes cbc_sa)) 0x2000 (block1 ++ block2))
    0x1040 (bd_bytes sha_bd)) 0x1200 (sa_bytes sha_sa)) 0x2100 sha_input.

Definition engine : CryptoEngine := with_cebdpaddr 0x1000 new.
Definition start_command : Z := Z.lor CECON_START CECON_OUT_SWAP.

Lemma mapped_in_memory (m : InMemoryBus) a n : mapped m a n.
Proof. intros i Hi. by eexists. Qed.

Lemma u8_memory_store (m : gmap Z Z) a l : u8_memory (M := InMemoryBus) m -> wf l -> u8_memory (M := InMemoryBus) (store m a l).
Proof.
  revert m a. induction l as [|x l IH]; intros m a Hm Hl; [done|]. apply Forall_cons in Hl as [Hx Hl].
  apply IH; [|done]. intros p b. change (Some (default 0 (<[a := x]> m !! p)) = Some b -> u8 b). destruct (decide (p = a)) as [->|Hp].
  - rewrite lookup_insert_eq. by intros [= <-].
  - rewrite lookup_insert_ne by done. apply (Hm p b).
Qed.

Lemma u8_memory_empty : u8_memory (∅ : InMemoryBus).
Proof. intros p b. change (Some (default 0 ((∅ : gmap Z Z) !! p)) = Some b -> u8 b). rewrite lookup_empty. intros [= <-]. unfold u8. lia. Qed.

Ltac u8_mem := unfold laid_out; repeat (apply u8_memory_store; [|by apply wf_literal; vm_compute]); apply u8_memory_empty.
Ltac by_apart := (left; by vm_compute) || (right; by vm_compute).

Lemma records_roundtrip_witness :
  exists m1 m2, bd_write_phys cbc_bd (∅ : InMemoryBus) 0x1000 = (true, m1) /\ sa_write_phys cbc_sa m1 0x1100 = (true, m2) /\
    bd_read_phys m2 0x1000 = Some cbc_bd /\ sa_read_phys m2 0x1100 = Some cbc_sa /\
    cipher_key cbc_sa 16 = key16 /\ cipher_iv cbc_sa 16 = iv16.
Proof.
  apply (records_roundtrip (∅ : InMemoryBus) 0x1000 0x1100 cbc_bd (ctrl cbc_sa) key16 iv16 (replicate 8 0) (replicate 8 0)).
  - repeat split; by vm_compute.
  - repeat split; by vm_compute.
  - split; (split; [done|]); apply Forall_replicate; split; by vm_compute.
  - right; by left.
  - by right.
  - split; concrete.
  - split; apply mapped_in_memory.
  - by_apart.
Defined.

Lemma ce_chain_computes_witness :
  exists s' w', write engine CECON_OFF 4 start_command (mkWorld (laid_out cbc_bd) []) = Ret (s', w') /\
    (forall q, byte_at (mem w') q = final_bytes true [cbc_job; sha_job] (byte_at (laid_out cbc_bd)) q) /\
    Z.testbit (cecon s') 0 = false.
Proof.
  destruct (ce_chain_computes engine (mkWorld (laid_out cbc_bd) []) start_command cbc_job [sha_job])
    as (s' & w' & E & Hm & Hs & _).
  - repeat split; by vm_compute.
  - reflexivity.
  - cbn. unfold MAX_BD_CHAIN. lia.
  - repeat split; by vm_compute.
  - repeat (apply Forall_cons; split); try apply Forall_nil; try done;
      (split; [by vm_compute|split; [by vm_compute|split; [by vm_compute|apply mapped_in_memory]]]).
  - repeat (apply Forall_cons; split); try apply Forall_nil; try done; repeat split; try (by vm_compute).
  - split; [|split; [apply Forall_nil|]; done]. apply Forall_cons; split; [|by apply Forall_nil].
    repeat split; by_apart.
  - exists s', w'. split; [exact E|]. split; [exact Hm|exact Hs].
Defined.

(** The same message, of 48 bytes in a buffer of 32. *)
Definition long_bd : BufferDescriptor := mkBufferDescriptor (Z.lor enabled 32) 0x1100 0x2000 0x3000 0x1040 0 48 0.

Lemma ce_start_completes_witness :
  exists s' w', write engine CECON_OFF 4 start_command (mkWorld (laid_out cbc_bd) []) = Ret (s', w') /\
    has (cecon s') CECON_START = false /\ has (ceintsrc s') CEINTSRC_PKTIF = true.
Proof.
  assert (Hm : u8_memory (laid_out cbc_bd)) by u8_mem.
  pose proof (ce_start_completes engine (mkWorld (laid_out cbc_bd) []) start_command Hm eq_refl eq_refl) as H.
  assert (E : match write engine CECON_OFF 4 start_command (mkWorld (laid_out cbc_bd) []) with Ret _ => true | Panic => false end = true) by by vm_compute.
  destruct (write _ _ _ _ _) as [[s' w']|]; [|done]. destruct H as (H1 & _ & H2). exists s', w'. by split_and!.
Defined.

Lemma ce_oversized_panics_witness :
  write engine CECON_OFF 4 start_command (mkWorld (laid_out long_bd) []) = Panic.
Proof.
  apply ce_oversized_panics; [u8_mem|repeat split; by vm_compute|].
  exists long_bd, cbc_sa, (block1 ++ block2). split; [by vm_compute|]. split; [done|]. split; [done|].
  split; [by vm_compute|]. split; [by vm_compute|]. by vm_compute.
Defined.

(** ** A message of three and two bytes over two descriptors, with an idle tick between *)

Definition ring (ctrl0 ctrl1 : Z) : BufferDescriptor * BufferDescriptor :=
  (mkBufferDescriptor ctrl0 0x1200 0x2100 0 0x1040 0 5 0, mkBufferDescriptor ctrl1 0x1200 0x2103 0 0x1000 0x3100 5 0).
Definition ring_memory (ctrl0 ctrl1 : Z) : InMemoryBus :=
  let '(bd0, bd1) := ring ctrl0 ctrl1 in
  store (store (store (store ∅ 0x1000 (bd_bytes bd0)) 0x1040 (bd_bytes bd1)) 0x1200 (sa_bytes sha_sa)) 0x2100 sha_input.

Definition first_ctrl : Z := Z.lor enabled 3.
Definition final_ctrl : Z := Z.lor (Z.lor (Z.lor enabled (Z.shiftl 1 19)) (Z.shiftl 1 18)) 2.
Definition first_piece : Piece := mkPiece 0x1000 (ring first_ctrl 0).1 [1; 2; 3].
Definition final_piece : Piece := mkPiece 0x1040 (ring 0 final_ctrl).2 [4; 5].
Definition poll_command : Z := Z.lor CECON_START CECON_POLLING.

Ltac idle_at := intros l; cbn [read_phys in_memory_bus]; intros [= <-]; by vm_compute.

Lemma polling_hash_is_oneshot_witness :
  exists s' w' w'' ms' m' digest,
    write engine CECON_OFF 4 poll_command (mkWorld (ring_memory 0 0) []) = Ret (s', w') /\
    dispatches w' [ring_memory first_ctrl 0; ring_memory 0 0; ring_memory 0 final_ctrl] = Ret (w'', ms' ++ [m']) /\
    hash ALGO_SHA256 [1; 2; 3; 4; 5] = Some digest /\
    read_phys m' 0x3100 (len digest) = Some (swap_out false digest).
Proof.
  destruct (polling_hash_is_oneshot engine (mkWorld (ring_memory 0 0) []) poll_command ALGO_SHA256 [0x1000; 0x1040]
    [(ring_memory first_ctrl 0, Some first_piece); (ring_memory 0 0, None)] (ring_memory 0 final_ctrl) final_piece)
    as (s' & w' & w'' & ms' & m' & digest & E & _ & Ed & Eh & Er & _).
  - repeat split; by vm_compute.
  - split; [done|]. by vm_compute.
  - by apply Forall_nil.
  - eexists. by vm_compute.
  - cbn [streamed]. split; [|split; [|split; [by vm_compute|split; [|done]]]].
    + repeat (split; [by vm_compute|]). exists [], [0x1040]. split; [done|]. apply Forall_cons; split; [|by apply Forall_nil].
      split; [idle_at|by_apart].
    + split; [by vm_compute|]. exists sha_sa. split; by vm_compute.
    + repeat (apply Forall_cons; split); try (by apply Forall_nil); idle_at.
  - repeat (split; [by vm_compute|]). exists [0x1000], []. split; [done|]. apply Forall_cons; split; [|by apply Forall_nil].
    split; [idle_at|by_apart].
  - done.
  - by vm_compute.
  - apply mapped_in_memory.
  - exists s', w', w'', ms', m', digest. split; [exact E|]. split; [exact Ed|]. split; [exact Eh|exact Er].
Defined.

(** ** The entropy counter *)

Lemma trng_becomes_ready_witness :
  last (poll_count (Pic32Chips.rng.write (Pic32Chips.rng.new) Pic32Chips.rng.RNGCON_OFF 4
    (Z.lor Pic32Chips.rng.TRNGMODE Pic32Chips.rng.TRNGEN)) 20).1 = Some 64.
Proof. destruct (trng_becomes_ready (Pic32Chips.rng.new) 20 ltac:(lia) ltac:(by vm_compute)) as [H _]. exact H. Defined.

(** ** A schedule on a chip: point the engine at the chain, start it, a block, read the
    interrupt source *)

Definition schedule : list Event :=
  [DeviceStore 0x1F8E0040 4 0x1000; Firmware (laid_out cbc_bd); DeviceStore 0x1F8E0000 4 start_command; Block;
   DeviceLoad 0x1F8E0020 4].

Lemma pic32_schedule_safe_witness :
  exists vs sys, steps (Pic32Chips.chip_bus Pic32Chips.pic32mz_ef, mkWorld (∅ : InMemoryBus) []) schedule = Ret (vs, sys) /\
    Forall u32 vs /\ system_ok sys.
Proof.
  pose proof (pic32_schedule_safe "ef"%string Pic32Chips.pic32mz_ef (∅ : InMemoryBus) schedule eq_refl u8_memory_empty
    ltac:(repeat (apply Forall_cons; split); try apply Forall_nil; try done; try (split; by vm_compute); u8_mem)) as H.
  cbv zeta in H.
  assert (E : match steps (Pic32Chips.chip_bus Pic32Chips.pic32mz_ef, mkWorld (∅ : InMemoryBus) []) schedule with
              | Ret _ => true | Panic => false end = true) by by vm_compute.
  destruct (steps _ _) as [[vs sys]|]; [|done]. exists vs, sys. split; [reflexivity|exact H].
Defined.

(** ** The runner: an engine whose firmware counts its slices and then sets a flag *)

Record SlotMachine := mkSlotMachine { sm_mem : gmap Z Z; sm_reg : Register -> Z }.

Definition flag_at : Z := 0x20000000.
Definition set_reg (r : Register) (v : Z) (f : Register -> Z) (r' : Register) : Z :=
  match r, r' with SP, SP | PC, PC | CPSR, CPSR => v | _, _ => f r' end.

#[local] Instance sm_memory : UnicornMem SlotMachine := {|
  mem_read u a n := Some (load (sm_mem u) a n);
  mem_write u a l := (true, mkSlotMachine (store (sm_mem u) a l) (sm_reg u));
|}.

#[local] Program Instance sm_memory_ok : UnicornMemOk SlotMachine := {| uc_byte u p := Some (default 0 (sm_mem u !! p)) |}.
Next Obligation. intros u a n bs Hn. exact (read_phys_spec (M := InMemoryBus) (sm_mem u) a n bs Hn). Qed.
Next Obligation.
  intros u a bs _. eexists. split; [reflexivity|]. intros q.
  destruct (write_phys_spec (M := InMemoryBus) (sm_mem u) a bs) as (m' & [= <-] & Hm); [intros; by eexists|]. apply Hm.
Qed.
Next Obligation. done. Qed.
Next Obligation. intros. by eexists. Qed.

#[local] Instance sm_engine {H : Type} : Unicorn H SlotMachine := {|
  uc_new _ := Some (mkSlotMachine ∅ (fun _ => 0));
  ctl_set_cpu_model_cortex_a7 u := Some u;
  mem_map u _ _ := Some u;
  mmio_map u _ _ _ _ := Some u;
  add_block_hook u _ := Some u;
  add_mem_invalid_hook u := Some u;
  add_code_hook u := Some u;
  reg_read u r := Some (sm_reg u r);
  reg_write u r v := Some (mkSlotMachine (sm_mem u) (set_reg r v (sm_reg u)));
  emu_start h u _ _ :=
    let pc := sm_reg u PC + 2 in
    Ret (true, (h, mkSlotMachine (if 0x08000006 <=? pc then store (sm_mem u) flag_at [1] else sm_mem u)
                     (set_reg PC pc (sm_reg u))));
|}.

#[local] Instance sm_engine_ok {H : Type} : UnicornOk H SlotMachine.
Proof.
  split. intros u r v _. eexists. split; [reflexivity|]. cbn. split; [by destruct r|]. split; [|done].
  intros r' Hr. by destruct r, r'.
Qed.

#[local] Existing Instance stm32.runner_cpu.

Definition firmware_image : ElfImage :=
  mkElfImage 0x08000001 0x20008000 [mkLoadSegment 0x08000000 0x08000000 [1; 2; 3; 4] 4] (<["test_complete"%string := flag_at]> ∅).
Definition pic32_image : ElfImage :=
  mkElfImage 0xBD000000 0x80008000 [mkLoadSegment 0xBD000000 0x80000000 [1; 2; 3; 4] 4] ∅.

Definition sm_cpu : stm32.Cpu := stm32.mkCpu (mkSlotMachine ∅ (fun _ => 0x08000000)) Stm32Chips.CortexM bus_new.
Definition flag_exit : ExitCondition := mkExitCondition (Some flag_at) None 10 1000.

Lemma runner_ends_witness :
  exists k cpu' v, (k <= 11)%nat /\ waiting flag_exit k sm_cpu cpu' /\ run Z.of_nat flag_exit 12 sm_cpu 0 = Some v.
Proof.
  destruct (runner_ends Z.of_nat flag_exit sm_cpu 11 ltac:(by vm_compute)) as (k & cpu' & v & Hk & Hq & _ & Hrun & _).
  exists k, cpu', v. split; [exact Hk|]. split; [exact Hq|]. apply Hrun. lia.
Defined.

Example runner_passes : run Z.of_nat flag_exit 12 sm_cpu 0 = Some (Ret (Some (Pass 0 2))).
Proof. vm_compute. reflexivity. Qed.

Lemma firmware_loads_witness :
  (exists cpu', stm32.load_elf sm_cpu firmware_image = Some cpu' /\ reg_read (H := Bus Stm32Chips.Device) (stm32.cpu_uc cpu') SP = Some 0x20008000) /\
  (exists cpu', pic32.load_elf (pic32.mkCpu (mkSlotMachine ∅ (fun _ => 0)) (bus_new, [])) pic32_image = Some cpu' /\
     uc_byte (pic32.cpu_uc cpu') 0x1D000002 = Some 3).
Proof.
  split.
  - destruct (firmware_loads firmware_image ltac:(split; by vm_compute) ltac:(split; by vm_compute)) as [H _].
    destruct (H "stm32h753"%string Stm32Chips.stm32h753 sm_cpu eq_refl ltac:(intros ????; by eexists) ltac:(by vm_compute))
      as (cpu' & Ec & _ & _ & Hsp). exists cpu'. split; [exact Ec|exact Hsp].
  - destruct (firmware_loads pic32_image ltac:(split; by vm_compute) ltac:(split; by vm_compute)) as [_ H].
    destruct (H "ef"%string Pic32Chips.pic32mz_ef (pic32.mkCpu (mkSlotMachine ∅ (fun _ => 0)) (bus_new, [])) eq_refl
      ltac:(intros ????; by eexists) ltac:(by vm_compute)) as (cpu' & Ec & _ & [Hm _] & _). exists cpu'. split; [exact Ec|].
    rewrite Hm. by vm_compute.
Defined.
